(* ===== verification/_CoqProject ===== *)
-Q . S2P
Prelude.v
Base64.v
WsFrame.v
Network.v
WsBase.v
WsEndpoints.v
WsLink.v
Regex.v
Http.v
Handshake.v
WsServer.v
WsClient.v
WsHandshake.v
ServerThreads.v
CppLib.v
Utils.v
PtJson.v
HybridFrames.v
PtCodec.v
PtTypes.v
RemoteObjects.v
PtProfile.v
PtSchema.v
PtParams.v
PtEvents.v
PtReturns.v
Dispatcher.v
ProtocolHandler.v
StaticBreakpoints.v
ThreadState.v
DebuggableThread.v
StaticBase64.v
StaticTypes.v
StaticObjects.v
StaticSessions.v
StaticDebugInfo.v
StaticEndpoint.v
StaticServer.v
StaticInspector.v
StaticHooks.v
StaticInvariant.v
StaticAnswers.v
StaticRuns.v
StaticDebugging.v
StaticDemo.v
StaticLocks.v
DebuggerState.v
SingleStepper.v
CallFrames.v
DebuggerAgent.v
DebuggerHooks.v
DebuggerDispatch.v
DebuggerLogic.v
DebuggerTables.v
PausedObjects.v
DynamicFrames.v
RuntimeAgent.v
RuntimeObjects.v
ProfilerAgents.v
AgentAnswers.v
DebuggerPause.v
DebuggerSteps.v
DebuggerDemo.v
ClientState.v
ClientManagers.v
ClientDomains.v
ClientSessions.v
ClientCommands.v
ClientMain.v
ClientProtocol.v
ClientLogic.v
ClientRuns.v
ClientDebugging.v
ClientSources.v
ClientDemo.v
InspectorWakeup.v
InspectorLibrary.v
InspectorRuns.v
ConnectInspector.v
BatchRunner.v
