(* ===== verification/Prelude.v ===== *)
(** * ArkCompiler toolchain: a verification development

    The toolchain debugs and profiles programs of the ArkCompiler runtimes. A
    client (an IDE or the command line) talks the Chrome DevTools protocol over a
    websocket; behind it are the debugger of the dynamic virtual machine
    (tooling/dynamic) and the one of the static virtual machine (tooling/static).

    ** The parts and the files

    The websocket library, src/websocket:
    - [WsFrame]: web_socket_frame.h and frame_builder.{h,cpp}: headers, both
      frame builders, byte order. Bytes are integers in [0, 256), wrapped
      explicitly ([u8], [u16], [u64]).
    - [Network]: network.{h,cpp}: [Recv] and [Send] over the list of the kernel's
      answers (data, interruption, end, error; accepted byte counts).
    - [WsBase]: websocket_base.{h,cpp}: the connection, a state [ws] (state,
      descriptor, callbacks, pending input, written bytes, trace of callbacks and
      socket calls) and one definition per method in the monad [M] of this file.
      The virtual methods are the class [WebSocketImpl]; what the base relies on
      is [WebSocketImplOK].
    - [WsEndpoints]: the virtual methods of server and client as instances.
    - [WsLink]: both ends together.
    - [Regex], [Http]: http.{h,cpp} and string_utils.h; std::regex as derivatives
      with a proved matcher.
    - [Handshake]: handshake_helper.{h,cpp}; OpenSSL is the class [OpenSSL], its
      documented output sizes and alphabet [OpenSSLOK].
    - [WsServer], [WsClient]: server/websocket_server.{h,cpp},
      client/websocket_client.{h,cpp}: initialisation, handshake, accept, close;
      the answers of the system calls are arguments ([init_answers]).
    - [WsHandshake]: both ends of the handshake together.
    - [ServerThreads]: the thread of a server and the thread that stops it, step by
      step: accept, handshake, reading and close of websocket_server.cpp and
      websocket_base.cpp, run by WsServer (inspector/ws_server.cpp) or
      ConnectServer (inspector/connect_server.cpp).

    The base of the dynamic debugger, src/tooling/dynamic/base and utils:
    - [Base64]: pt_base64.{h,cpp}.
    - [CppLib], [Utils]: strtoll, strtoul, to_string, conversions of doubles, and
      utils.cpp on top of them. A conversion of a double out of range is the
      class [CastOob]: the language leaves it open.
    - [PtJson]: pt_json.{h,cpp} over cJSON, which is the class [CJson]; [CJsonOK]
      states its documented behaviour on a view of nodes as JSON values [jval],
      and [tree_cjson] is an instance that satisfies it.
    - [PtCodec]: the pattern of all readers and writers of pt_types.cpp (required
      and optional fields, collected error text, [value()] of an empty optional).
    - [PtTypes]: the debugger and runtime types of pt_types.{h,cpp}.
    - [RemoteObjects]: how the same file describes values of the machine, which are
      the class [TaggedApi].
    - [PtProfile]: the profiler, coverage and tracing types.
    - [PtSchema], [PtParams]: pt_params.{h,cpp}, the parameters of the requests,
      and schemas that say which objects their readers accept.
    - [PtEvents], [PtReturns]: pt_events.{h,cpp} and pt_returns.{h,cpp}, the
      events and the results with their writers.

    The message path of the dynamic debugger, src/tooling/dynamic:
    - [Dispatcher]: dispatcher.{h,cpp}: requests, responses, the table of
      domains. The agents are the class [Agents].
    - [ProtocolHandler]: protocol_handler.{h,cpp}: a step function [exec] for the
      receiving thread and the thread of the virtual machine, whose activations
      of [ProcessCommand] nest when a command waits for the debugger.

    The agents of the dynamic debugger, src/tooling/dynamic/agent and backend:
    - [DebuggerState]: the members of [DebuggerImpl] and [JSPtHooks], the script
      table (base/pt_script) and the record [world] of all that the agent reads
      and writes. The virtual machine is the class [EcmaVm], whose operations the
      agent calls; the iteration order of a hash table is [HashOrder] and the
      conditional compilation [DebuggerBuild].
    - [SingleStepper]: js_single_stepper.{h,cpp}; [CallFrames]: the frames, scopes
      and objects of a stopped program; [DebuggerAgent]: the requests of
      debugger_impl.cpp; [DebuggerHooks]: evaluation, the notifications of the
      machine and js_pt_hooks.cpp; [DebuggerDispatch]: the dispatcher of the
      domain.
    - [DebuggerLogic]: which parts of the state an operation may change, for
      every operation; [DebuggerTables], [PausedObjects], [DebuggerPause],
      [DebuggerSteps]: the theorems; [DebuggerDemo]: a machine with one function,
      to which they and the theorems about the other agents are applied.
    - [RuntimeAgent], [RuntimeObjects]: runtime_impl.{h,cpp}; the values of the
      machine are the class [JsApi].
    - [ProfilerAgents], [AgentAnswers]: profiler_impl, heapprofiler_impl,
      tracing_impl and the agents that only answer (page, animation, css, dom,
      overlay, target); the profilers of the machine are the class [DfxApi]. All
      agents together are an instance of [Agents] of [Dispatcher].
    - [DynamicFrames]: hybrid/dynamic_frame_provider.{h,cpp}: a frame of the dynamic
      machine for the debugger of the static one.

    While the program is stopped the channel serves requests inside the hook
    that stopped it. What is served is an argument [serve] of the operations that
    wait; the theorems hold for every [serve] that is itself made of requests, or
    say what they ask of it.

    Both debuggers, src/tooling/hybrid_step: [HybridFrames] (frame_info.h,
    frame_info_extractor.{h,cpp}: the frames of one language for the debugger of
    the other) and the flags of hybrid_single_stepper.{h,cpp} in [ThreadState].

    The static debugger, src/tooling/static:
    - [StaticBreakpoints]: breakpoints, conditional breakpoints, the storage.
    - [ThreadState]: thread_state.{h,cpp}.
    - [DebuggableThread]: debuggable_thread.{h,cpp}: a step function [dt_exec] for
      the application and the server thread.
    - [StaticBase64]: evaluation/base64.h. [StaticTypes], [StaticObjects]: types/
      and json_serialization/, and debugger/object_repository.{h,cpp}, which gives
      the objects of a suspended thread to the client; the runtime's objects are
      the classes [LangExt] and [LangEnum].
    - [StaticDebugInfo]: debugger/debug_info_cache.{h,cpp}: lines, locations,
      variables and source texts. A file is the record [panda_file] of what its
      extractor reports; registers and files on disk are [Registers] and [Files].
    - [StaticSessions]: session_manager and source_manager: the names of threads
      and scripts for the client; threads are the class [Threads].
    - [StaticEndpoint]: connection/: requests, replies, events and synchronous
      requests. Texts are read and written by the class [JsonText]; the websocket
      is the list [outbox] of the messages that were sent.
    - [StaticServer]: inspector_server.{h,cpp}: the events and the methods of the
      protocol, each with its handler as an argument.
    - [StaticInspector], [StaticHooks]: inspector.{h,cpp}: the handlers, the hooks
      of the runtime and the table of methods. A thread is a [thread_slot]: the
      state of [DebuggableThread] with its repository of objects. The runtime is
      the class [DebugInterface]. Every operation is a transformer of the state
      [server_state inspector] in the monad [M].
    - [StaticInvariant]: the invariant of that state and a small program logic
      (an operation keeps the invariant, sends only events, returns);
      [StaticAnswers]: every method returns and is answered; [StaticRuns]: the
      reachable states of requests and hooks in any order; [StaticDebugging]:
      breakpoints and resuming from the request to the event; [StaticDemo]: a
      program with two threads to which the theorems are applied. What they ask of
      the runtime is the class [RuntimeOK].
    - [StaticLocks]: all locks of the static debugger, and what every hook
      ([hook_locks]) and every request ([request_locks]) does to them, as lists of
      actions that are interleaved.

    The inspector library, src/inspector, through which an application starts the
    debuggers:
    - [InspectorLibrary], [InspectorRuns]: inspector.cpp, init_static.cpp and
      library_loader.cpp, and tooling/dynamic/debugger_service.cpp, the functions
      that they call in the debugger library (the handlers of the machines are
      [service]): the table of inspectors, loading and unloading, messages
      and replies; a run is a list of [lib_event]s. Function pointers remember the
      copy of the library that they point into; using a stale one is [Throw].
    - [InspectorWakeup]: the part of Inspector::OnMessage that wakes the debugger,
      interleaved with the thread of the machine ([ProtocolHandler]).
    - [ConnectInspector]: connect_inspector.{h,cpp}, the connection for the user
      interface.

    The programs in src/tooling/dynamic/client. The command line client, a record
    [Client] of sessions and a list of events ([client_event]) in the order in which
    the event loop handles them:
    - [ClientState]: the state of a session and of the client, requests and their
      numbers; [ClientManagers]: manager/ (breakpoints, sources, stack, variables,
      watches) and the JSON form of requests; [ClientDomains]: domain/, the four
      domain clients with their replies and notifications; [ClientSessions]:
      session/; [ClientCommands]: utils/cli_command.cpp, the table of commands and
      their execution; [ClientMain]: ark_cli/main.cpp and tcpServer/.
    - [ClientProtocol]: what the agents accept of a request, over the readers of
      [PtParams]; [ClientLogic]: what every command and reply keeps of a session;
      [ClientRuns]: the invariant of the client and its runs; [ClientDebugging],
      [ClientSources]: the other theorems; [ClientDemo]: runs to which
      they are applied.
    - [BatchRunner]: ark_multi/main.cpp, which runs a list of files on several
      threads.

    This file holds what they share: the monad [M] with the outcomes returned,
    blocked and thrown, machine integers, tactics and lemmas on lists.

    ** What the theorems show

    - Pausing: every request of an attached client follows an abstract protocol
      with two states, running and stopped ([requests_follow_protocol], a
      refinement), in which two requests move the state or the controls alone
      ([enable_strands_program], [reply_leaves_stopped]), a stop shows the client where the
      program is ([program_stop]), steps end where the protocol says
      ([step_ends]) and a stopped program is released
      ([stopped_program_released]).
    - Tables of the agent, over all runs of requests and hooks: scripts
      ([script_table]), objects ([object_registry]), and for each request one
      answer ([request_answered], [agents_answer_once]); what breakpoint requests
      search, set and answer ([set_breakpoint_outcomes]).
    - Objects shown to the client: new ids name the objects that are described
      and older ids keep their meaning ([properties_shown]); a range of properties
      is the range that was asked for ([properties_of_range]); what is left on
      when tracking fails ([start_tracking_outcomes]).
    - Transport: messages that are not empty arrive as they were sent in both
      directions for every chunking and every mask ([client_to_server_texts],
      [server_to_client_texts], [recv_chunking_irrelevant], [send_all_or_fail]);
      pings are answered; connections are closed at most once with their callback
      ([server_decode_closes_once], [close_connection_once]).
    - Handshake and life cycle: the upgrade between both ends completes
      ([upgrade_handshake]), the outcomes of accept, connect and close
      ([accept_outcomes], [client_init_outcomes], [close_stops_server]) and the
      exact set of accepted origins ([origin_accepted_iff]).
    - Encodings: base64 ([base64_roundtrip], [base64_decode_safe],
      [base64_decode_done]), breakpoint ids, and the JSON forms of the protocol
      types ([call_frame_roundtrip], [debugger_types_roundtrip],
      [heap_profile_roundtrip], [cpu_profile_read_back]); the parameters that are
      accepted are those of a schema ([debugger_params_accepted],
      [location_accepted_iff]); events and results have the members of the
      protocol with their types ([event_types], [debugger_return_types],
      [paused_event_fields]).
    - Message handling: which texts are requests ([request_valid_iff]), where they
      go ([dispatch_outcomes]), and over all interleavings: no message is lost or
      handled twice ([messages_conserved]), they are handled in order
      ([messages_in_order]), no wake-up is lost ([no_lost_wakeup]), the queue is
      drained ([process_command_drains]); and where nesting breaks this
      ([nested_wait_starves], [dispatch_status_wrong_after_pause]).
    - Static debugger: the breakpoint storage keeps its invariant and stops
      exactly at its breakpoints ([storage_invariant], [should_stop_iff]); what
      the steps do ([stepping]) and what skipping pauses means
      ([skip_all_pauses]); the suspension protocol keeps its assertions over all
      interleavings and serves requests ([suspension_safe], [request_served],
      [resumed_thread_runs]).
    - Inspector of the static debugger, over all orders of requests and hooks:
      every request is answered once ([static_request_answered]), the client
      knows the names that the server uses ([static_client_view]); a breakpoint stops the program and the client
      is told ([breakpoint_stops]); which threads go on ([continue_policy]); ids
      of objects, sessions and scripts keep their meaning
      ([static_object_properties], [session_table], [script_ids]); the locations
      of a line and the lines for breakpoints are those of a reference definition
      ([line_locations], [possible_breakpoints]); its base64 decoder agrees with
      the other one ([static_base64]).
    - Locks of the static debugger: requests and hooks that follow the lock order
      never deadlock, suspended threads included ([lock_order]); the three kinds
      that cross it do ([lock_cycles]).
    - Threads of the servers: a debugger connection can be stopped at any moment in
      every interleaving, without misuse, double close or deadlock, even when the
      client does nothing more, and every descriptor is closed in the end
      ([ws_server_stops]); the server of the user interface cannot
      ([connect_server_races]).
    - Inspector library: over all runs, messages reach the debugger of their machine
      and replies the server of theirs ([inspector_delivers]), no message is
      stranded where tasks are posted ([no_message_stranded], [no_poster_strands]),
      what happens when the library is unloaded ([library_unloaded]), and which
      debugger a message goes to ([hybrid_routing]). The user interface is asked to start and stop recording in
      turn ([recordings_alternate]) and a client that connects is sent what was
      stored ([connected_replays]).
    - Command line client, over all runs of lines, replies and notifications: every
      request is one that the debugger accepts, with growing numbers
      ([client_requests]); every reply goes once to the client of the domain that
      asked ([client_replies]); the table of sessions is kept ([client_sessions]); a
      breakpoint is set and deleted where the user says ([break_command],
      [breakpoint_round_trip]); the source is shown as it is ([source_listing],
      [list_around_line]); the numbers of variables name what they show
      ([variable_numbers]).
    - Batch runner: when all threads can be created, every file is run once, and the
      program ends ([batch_complete]); otherwise it may not ([batch_hangs]).
    - Values: the texts of maps and sets ([described_collections]), types and classes
      of the protocol ([remote_object_shape]), classes and texts that agree
      ([class_matches_text]).
    - Both languages: a dynamic frame is passed to the static debugger with its
      place, its scopes and objects that can be looked up ([dynamic_frame_passed]).

    Lemmas without a number beside these show defects of the code, such as
    [server_unhandled_frame_left] or [trace_config_loses_dump].

    ** Bounds and fuel

    Loops over lists are structural. [split_loop] of [Utils] gets one unit of
    fuel per character and one more: every round moves the index forward, and
    [split_string_tokens] states the result of the function itself.
    [SamplingHeapProfileNode_Create] recurses on a JSON value that its type does
    not show; [sampling_node_terminates] proves that as much fuel as the value has
    levels is enough. Blocking is an outcome, not a lack of fuel: a [Recv] on an
    exhausted list of answers waits. Integers are unbounded where the code cannot
    overflow and wrapped where it can.

    [explore] of [ServerThreads] gets 2^13 units of fuel, one per state or known
    successor; less than 400 states are reachable, and that the computed list is
    closed under steps is checked, so that more fuel changes nothing. Finishing a
    stop takes less than the 64 steps of [can_finish], which is checked too. The
    batch runner and the wake-up need no fuel: a run is a list of steps.

    A signed addition that overflows and a conversion of a double out of range
    have no defined result: they are the classes [SignedOverflow] and [CastOob],
    over whose instances the theorems quantify.

    ** Not modelled

    The registration of the native functions of backend/debugger_executor.cpp,
    which only calls the virtual machine (they are operations of [EcmaVm]);
    the functions that copy a stack or an answer of a machine into a buffer for the
    caller (GetCallFrames and OperateDebugMessage of debugger_service.cpp); of the
    static debugger the endpoint over the third-party library asio, the thread and
    the library entry points of init.cpp and three functions of the inspector that
    nothing calls; the branches for iOS and Windows; the event loop of libuv (its
    callbacks are the events of a run); logging and file-descriptor tags. Getters
    and setters of the protocol classes are projections and fields of records. The
    operations of the static inspector are atomic in [StaticRuns] (a hook that
    suspends its thread ends there, and the thread goes on with [woken_up]; the
    event of a native call and the wait for its reply are two steps); the locks
    that are to make them so are the subject of [StaticLocks]. The ids of objects
    are counted without the bound of the [int32_t] of the code. Replies that are sent while the
    connection is closed by another thread are sequential in [WsBase]. *)

From stdpp Require Export base tactics list option numbers strings gmap.
From stdpp Require Import options.
Export ListNotations.

(** ** The development's hint database, scope and tactics *)

Create HintDb ark discriminated.

Declare Scope ark_scope.
Delimit Scope ark_scope with ark.

(** Destructs every [if]/[match] scrutinee of a hypothesis or of the goal and
    simplifies the equations that appear. *)
Ltac crush_match :=
  repeat (case_match; simplify_eq/=; try done).

(** Linear arithmetic with division and remainder by constants. *)
Ltac zdiv := Z.to_euclidean_division_equations; lia.

(** Replaces a comparison of integers by the boolean it evaluates to. *)
Tactic Notation "zfalse" open_constr(t) :=
  replace t with false by (symmetry; first [apply Z.ltb_ge | apply Z.leb_gt | apply Z.eqb_neq]; lia).
Tactic Notation "ztrue" open_constr(t) :=
  replace t with true by (symmetry; first [apply Z.ltb_lt | apply Z.leb_le | apply Z.eqb_eq]; lia).

(** ** Outcomes and the effect monad

    A C++ routine that talks to the operating system is a function from a
    state to an [outcome]: it returns, blocks in a system call whose answer has
    not arrived, or leaves by an exception. *)

Inductive outcome (S A : Type) : Type :=
| Ret (a : A) (s : S)
| Block (s : S)
| Throw (s : S).
Arguments Ret {S A} a s.
Arguments Block {S A} s.
Arguments Throw {S A} s.

Definition M (S A : Type) : Type := S → outcome S A.

Definition m_ret {S A} (a : A) : M S A := λ s, Ret a s.
Definition m_bind {S A B} (k : A → M S B) (m : M S A) : M S B :=
  λ s, match m s with
       | Ret a s' => k a s'
       | Block s' => Block s'
       | Throw s' => Throw s'
       end.
Definition m_get {S} : M S S := λ s, Ret s s.
Definition m_modify {S} (f : S → S) : M S () := λ s, Ret () (f s).

Notation "x <-- m ;; k" := (m_bind (λ x, k) m)
  (at level 100, m at next level, right associativity) : ark_scope.
Notation "m ;;; k" := (m_bind (λ _, k) m)
  (at level 100, right associativity) : ark_scope.

Lemma m_bind_ret {S A B} (k : A → M S B) (m : M S A) s a s' :
  m s = Ret a s' → m_bind k m s = k a s'.
Proof. by unfold m_bind; intros ->. Qed.

Lemma m_bind_assoc {S A B C} (m : M S A) (f : A → M S B) (g : B → M S C) s :
  m_bind g (m_bind f m) s = m_bind (λ a, m_bind g (f a)) m s.
Proof. unfold m_bind. by destruct (m s). Qed.

(** ** Target platform

    What the C++ implementation leaves to the platform: the largest string the
    process can allocate. *)
Class Platform := {
  string_max_size : Z;
  string_max_size_64 : (0 < string_max_size < 2 ^ 64)%Z }.

(** ** Machine integers *)

Section machine_integers.
Local Open Scope Z_scope.

Definition wrap (w z : Z) : Z := z mod 2 ^ w.
Definition u8 (z : Z) : Z := wrap 8 z.
Definition u16 (z : Z) : Z := wrap 16 z.
Definition u64 (z : Z) : Z := wrap 64 z.

Definition is_byte (z : Z) : Prop := 0 ≤ z < 256.
Definition is_int32 (z : Z) : Prop := - 2 ^ 31 ≤ z < 2 ^ 31.
Definition is_uint32 (z : Z) : Prop := 0 ≤ z < 2 ^ 32.
Definition is_uint64 (z : Z) : Prop := 0 ≤ z < 2 ^ 64.

Lemma wrap_small w z : 0 ≤ z < 2 ^ w → wrap w z = z.
Proof. apply Z.mod_small. Qed.

Lemma wrap_bound w z : 0 ≤ w → 0 ≤ wrap w z < 2 ^ w.
Proof. intros. apply Z.mod_pos_bound. lia. Qed.

Lemma wrap_land w z : 0 ≤ w → wrap w z = Z.land z (Z.ones w).
Proof. intros. unfold wrap. by rewrite Z.land_ones. Qed.

(** The or of disjoint bit fields is their sum. *)
Lemma lor_disjoint_add hi lo w :
  0 ≤ w → 0 ≤ lo < 2 ^ w → Z.lor (Z.shiftl hi w) lo = hi * 2 ^ w + lo.
Proof.
  intros Hw Hlo. rewrite <- Z.shiftl_mul_pow2 by lia.
  rewrite <- Z.lxor_lor, <- Z.add_nocarry_lxor; [done|..];
    apply Z.bits_inj'; intros n Hn; rewrite Z.land_spec, Z.bits_0;
    (destruct (decide (n < w));
     [rewrite Z.shiftl_spec_low by lia; done
     |rewrite <- (Z.mod_small lo (2 ^ w)), Z.mod_pow2_bits_high by lia;
      apply andb_false_r]).
Qed.

Lemma is_byte_lxor a b : is_byte a → is_byte b → is_byte (Z.lxor a b).
Proof.
  unfold is_byte. intros Ha Hb. change 256 with (2 ^ 8) in *.
  assert (H : Z.lxor a b = wrap 8 (Z.lxor a b)).
  { rewrite wrap_land by lia. apply Z.bits_inj'. intros n Hn.
    rewrite Z.land_spec, Z.lxor_spec.
    destruct (decide (n < 8)).
    - rewrite Z.ones_spec_low by lia. by rewrite andb_true_r.
    - rewrite <- (Z.mod_small a (2 ^ 8)), <- (Z.mod_small b (2 ^ 8)) by lia.
      rewrite !Z.mod_pow2_bits_high by lia. done. }
  rewrite H. apply wrap_bound. lia.
Qed.

Lemma lxor_cancel a b : Z.lxor (Z.lxor a b) b = a.
Proof. by rewrite Z.lxor_assoc, Z.lxor_nilpotent, Z.lxor_0_r. Qed.
End machine_integers.

#[export] Hint Resolve is_byte_lxor : ark.

(** ** Byte strings

    A C++ [std::string] that carries wire data is a list of bytes; a [char] is
    its 8-bit code. *)

Abbreviation bytes := (list Z).
Definition bytes_wf (l : bytes) : Prop := Forall is_byte l.
Definition str (s : string) : bytes :=
  (λ a, Z.of_N (Ascii.N_of_ascii a)) <$> String.list_ascii_of_string s.

Lemma str_wf s : bytes_wf (str s).
Proof.
  unfold bytes_wf, str. apply Forall_fmap, Forall_true. intros a. unfold is_byte. simpl.
  pose proof (Ascii.N_ascii_bounded a). lia.
Qed.
#[export] Hint Resolve str_wf : ark.

(** ** Exhaustive checks over small ranges *)

Definition Zrange (n : nat) : list Z := Z.of_nat <$> seq 0 n.

Lemma elem_of_Zrange n z : (0 ≤ z < Z.of_nat n)%Z → z ∈ Zrange n.
Proof.
  intros. unfold Zrange. apply list_elem_of_fmap. exists (Z.to_nat z).
  split; [lia|]. apply elem_of_seq. lia.
Qed.

(** A boolean property that evaluates to [true] on a whole range holds there. *)
Lemma Zrange_forallb n (P : Z → bool) z :
  forallb P (Zrange n) = true → (0 ≤ z < Z.of_nat n)%Z → P z = true.
Proof.
  intros HP Hz. rewrite forallb_forall in HP. apply HP.
  by apply list_elem_of_In, elem_of_Zrange.
Qed.

Lemma Zrange_forallb2 n m (P : Z → Z → bool) x y :
  forallb (λ x, forallb (P x) (Zrange m)) (Zrange n) = true →
  (0 ≤ x < Z.of_nat n)%Z → (0 ≤ y < Z.of_nat m)%Z → P x y = true.
Proof.
  intros HP Hx Hy.
  by apply (Zrange_forallb m (P x)), Hy; apply (Zrange_forallb n _ x HP).
Qed.

(** Array reads and writes of a C array modelled as a list; the default stands
    for the value of an out-of-range read, which no modelled access performs. *)
Definition rd (l : bytes) (i : Z) : Z := nth (Z.to_nat i) l 0%Z.
Definition wr (l : bytes) (i v : Z) : bytes := <[Z.to_nat i := v]> l.

(** Induction on a list three elements at a time. *)
Lemma list_ind3 {A} (P : list A → Prop) :
  P [] → (∀ a, P [a]) → (∀ a b, P [a; b]) →
  (∀ a b c l, P l → P (a :: b :: c :: l)) → ∀ l, P l.
Proof.
  intros H0 H1 H2 H3. fix IH 1.
  intros [|a [|b [|c l]]]; [done..|apply H3, IH].
Qed.
