(* ===== verification/Base64.v ===== *)
(** * Base64 codec of the debugger backend

    Models [PtBase64] of tooling/dynamic/base/pt_base64.{h,cpp}: the two
    lookup tables, [Encode], [Decode] and the two size functions. A C buffer is
    a list of bytes, the advancing [src] pointer is the remaining suffix and
    [dest] is the list of bytes written so far. *)

From S2P Require Import Prelude.
From stdpp Require Import options.
Local Open Scope Z_scope.

Module PtBase64.

Definition UNENCODED_GROUP_BYTES : Z := 3.
Definition ENCODED_GROUP_BYTES : Z := 4.
Definition INVAILD_VALUE : Z := 255.

Definition DECODE_TABLE : list Z :=
  [255; 255; 255; 255; 255; 255; 255; 255; 255; 255; 255; 255; 255; 255; 255; 255;
   255; 255; 255; 255; 255; 255; 255; 255; 255; 255; 255; 255; 255; 255; 255; 255;
   255; 255; 255; 255; 255; 255; 255; 255; 255; 255; 255; 62; 255; 255; 255; 63;
   52; 53; 54; 55; 56; 57; 58; 59; 60; 61; 255; 255; 255; 255; 255; 255;
   255; 0; 1; 2; 3; 4; 5; 6; 7; 8; 9; 10; 11; 12; 13; 14;
   15; 16; 17; 18; 19; 20; 21; 22; 23; 24; 25; 255; 255; 255; 255; 255;
   255; 26; 27; 28; 29; 30; 31; 32; 33; 34; 35; 36; 37; 38; 39; 40;
   41; 42; 43; 44; 45; 46; 47; 48; 49; 50; 51; 255; 255; 255; 255; 255]
  ++ replicate 128 255.

Definition ENCODE_TABLE : bytes :=
  str "ABCDEFGHIJKLMNOPQRSTUVWXYZabcdefghijklmnopqrstuvwxyz0123456789+/".

(** The padding character ['=']. *)
Definition PAD : Z := 61.

Definition DecodedSize (n : Z) : Z := n / ENCODED_GROUP_BYTES * UNENCODED_GROUP_BYTES.
Definition EncodedSize (n : Z) : Z :=
  ENCODED_GROUP_BYTES * ((n + 2) / UNENCODED_GROUP_BYTES).

(** ** Encode *)

Definition enc (v : Z) : Z := rd ENCODE_TABLE v.

(** The loop over the [len / 3] complete groups. *)
Fixpoint encode_groups (n : nat) (src dest : bytes) : bytes * bytes :=
  match n with
  | O => (src, dest)
  | S n' =>
      let dest := dest ++
        [enc (Z.shiftr (rd src 0) 2);
         enc (Z.lor (Z.shiftl (Z.land (rd src 0) 3) 4) (Z.shiftr (rd src 1) 4));
         enc (Z.lor (Z.shiftl (Z.land (rd src 1) 15) 2) (Z.shiftr (rd src 2) 6));
         enc (Z.land (rd src 2) 63)] in
      encode_groups n' (drop 3 src) dest
  end.

(** The [switch (paddingCnt)] that writes the last, padded group. *)
Definition encode_tail (paddingCnt : Z) (src dest : bytes) : bytes :=
  if paddingCnt =? 1 then
    dest ++ [enc (Z.shiftr (rd src 0) 2);
             enc (Z.lor (Z.shiftl (Z.land (rd src 0) 3) 4) (Z.shiftr (rd src 1) 4));
             enc (Z.shiftl (Z.land (rd src 1) 15) 2);
             PAD]
  else if paddingCnt =? 2 then
    dest ++ [enc (Z.shiftr (rd src 0) 2);
             enc (Z.shiftl (Z.land (rd src 0) 3) 4);
             PAD; PAD]
  else dest.

(** The bytes written to [output]; the returned size is their number. *)
Definition Encode (input : bytes) : bytes :=
  let len := Z.of_nat (length input) in
  if len =? 0 then [] else
  let '(src, dest) := encode_groups (Z.to_nat (len / UNENCODED_GROUP_BYTES)) input [] in
  let remainder := len mod UNENCODED_GROUP_BYTES in
  let paddingCnt := (UNENCODED_GROUP_BYTES - remainder) mod UNENCODED_GROUP_BYTES in
  encode_tail paddingCnt src dest.

(** ** Decode *)

(** The three expressions that combine four sextets into three [char]s. *)
Definition out0 (b : bytes) : Z :=
  u8 (Z.lor (Z.shiftl (rd b 0) 2) (Z.shiftr (Z.land (rd b 1) 48) 4)).
Definition out1 (b : bytes) : Z :=
  u8 (Z.lor (Z.shiftl (rd b 1) 4) (Z.shiftr (Z.land (rd b 2) 60) 2)).
Definition out2 (b : bytes) : Z :=
  u8 (Z.lor (Z.shiftl (rd b 2) 6) (rd b 3)).

(** Loop variables of [Decode]: the group index, the (initially unset) group
    buffer and the output written so far. *)
Record dec_state := DecState { di : Z; base64Chars : bytes; ddest : bytes }.

Definition dec_push (st : dec_state) (v : Z) : dec_state :=
  let chars := wr (base64Chars st) (di st) v in
  let i := di st + 1 in
  if i =? ENCODED_GROUP_BYTES
  then DecState 0 chars (ddest st ++ [out0 chars; out1 chars; out2 chars])
  else DecState i chars (ddest st).

Fixpoint dec_loop (src : bytes) (st : dec_state) : bytes * dec_state :=
  match src with
  | [] => ([], st)
  | c :: src' =>
      if c =? PAD then (src, st) else
      let v := rd DECODE_TABLE c in
      if v =? INVAILD_VALUE then (src, st) else
      dec_loop src' (dec_push st v)
  end.

(** The bytes of an incomplete last group: [i - 1] of them are written. *)
Definition dec_tail (st : dec_state) : bytes :=
  if di st =? 0 then ddest st
  else let b := base64Chars st in
       ddest st ++ take (Z.to_nat (di st - 1)) [out0 b; out1 b; out2 b].

(** [Decode]: the bytes written to [output] (their number is the first
    component of the returned pair) and the [decodedDone] flag. [junk] is the
    uninitialised content of the stack array [base64Chars]. *)
Definition Decode (junk : bytes) (input : bytes) : bytes * bool :=
  let len := Z.of_nat (length input) in
  if (len <? ENCODED_GROUP_BYTES) || negb (len mod ENCODED_GROUP_BYTES =? 0)
  then ([], false) else
  let '(src, st) := dec_loop input (DecState 0 junk []) in
  let len := Z.of_nat (length src) in
  (dec_tail st,
   (len =? 0) || ((len =? 1) && (rd src 0 =? PAD))
   || ((len =? 2) && (rd src 0 =? PAD) && (rd src 1 =? PAD))).

(** ** Facts about the tables and the bit layout, by exhaustion *)

Lemma enc_dec v :
  0 ≤ v < 64 →
  enc v ≠ PAD ∧ rd DECODE_TABLE (enc v) = v ∧ v ≠ INVAILD_VALUE.
Proof.
  intros Hv.
  assert (H : (negb (enc v =? PAD) && (rd DECODE_TABLE (enc v) =? v)) = true).
  { apply (Zrange_forallb 64 (λ v, negb (enc v =? PAD) && (rd DECODE_TABLE (enc v) =? v)));
      [vm_compute; reflexivity|lia]. }
  apply andb_true_iff in H as [H1%negb_true_iff%Z.eqb_neq H2%Z.eqb_eq].
  unfold INVAILD_VALUE. split_and!; [done..|lia].
Qed.

Lemma sextet0 a y :
  0 ≤ a < 256 → 0 ≤ y < 16 →
  0 ≤ Z.shiftr a 2 < 64 ∧
  0 ≤ Z.lor (Z.shiftl (Z.land a 3) 4) y < 64 ∧
  u8 (Z.lor (Z.shiftl (Z.shiftr a 2) 2)
            (Z.shiftr (Z.land (Z.lor (Z.shiftl (Z.land a 3) 4) y) 48) 4)) = a.
Proof.
  intros Ha Hy.
  pose proof (Zrange_forallb2 256 16 (λ a y,
    (Z.shiftr a 2 <? 64) && (0 <=? Z.shiftr a 2) &&
    (Z.lor (Z.shiftl (Z.land a 3) 4) y <? 64) && (0 <=? Z.lor (Z.shiftl (Z.land a 3) 4) y) &&
    (u8 (Z.lor (Z.shiftl (Z.shiftr a 2) 2)
            (Z.shiftr (Z.land (Z.lor (Z.shiftl (Z.land a 3) 4) y) 48) 4)) =? a)) a y
    ltac:(vm_compute; reflexivity) ltac:(lia) ltac:(lia)) as H.
  cbv beta in H. lia.
Qed.

Lemma sextet1 x b z :
  0 ≤ x < 4 → 0 ≤ b < 256 → 0 ≤ z < 4 →
  0 ≤ Z.shiftr b 4 < 16 ∧
  0 ≤ Z.lor (Z.shiftl (Z.land b 15) 2) z < 64 ∧
  u8 (Z.lor (Z.shiftl (Z.lor (Z.shiftl x 4) (Z.shiftr b 4)) 4)
            (Z.shiftr (Z.land (Z.lor (Z.shiftl (Z.land b 15) 2) z) 60) 2)) = b.
Proof.
  intros Hx Hb Hz.
  pose proof (Zrange_forallb2 256 16 (λ b w, let x := Z.shiftr w 2 in let z := Z.land w 3 in
    (Z.shiftr b 4 <? 16) && (0 <=? Z.shiftr b 4) &&
    (Z.lor (Z.shiftl (Z.land b 15) 2) z <? 64) && (0 <=? Z.lor (Z.shiftl (Z.land b 15) 2) z) &&
    (u8 (Z.lor (Z.shiftl (Z.lor (Z.shiftl x 4) (Z.shiftr b 4)) 4)
            (Z.shiftr (Z.land (Z.lor (Z.shiftl (Z.land b 15) 2) z) 60) 2)) =? b))
    b (x * 4 + z) ltac:(vm_compute; reflexivity) ltac:(lia) ltac:(lia)) as H.
  cbv zeta beta in H.
  replace (Z.shiftr (x * 4 + z) 2) with x in H
    by (rewrite Z.shiftr_div_pow2 by lia; change (2 ^ 2) with 4; zdiv).
  replace (Z.land (x * 4 + z) 3) with z in H
    by (change 3 with (Z.ones 2); rewrite Z.land_ones by lia; change (2 ^ 2) with 4; zdiv).
  lia.
Qed.

Lemma sextet2 w c :
  0 ≤ w < 16 → 0 ≤ c < 256 →
  0 ≤ Z.shiftr c 6 < 4 ∧ 0 ≤ Z.land c 63 < 64 ∧
  u8 (Z.lor (Z.shiftl (Z.lor (Z.shiftl w 2) (Z.shiftr c 6)) 6) (Z.land c 63)) = c.
Proof.
  intros Hw Hc.
  pose proof (Zrange_forallb2 16 256 (λ w c,
    (Z.shiftr c 6 <? 4) && (0 <=? Z.shiftr c 6) && (Z.land c 63 <? 64) && (0 <=? Z.land c 63) &&
    (u8 (Z.lor (Z.shiftl (Z.lor (Z.shiftl w 2) (Z.shiftr c 6)) 6) (Z.land c 63)) =? c)) w c
    ltac:(vm_compute; reflexivity) ltac:(lia) ltac:(lia)) as H.
  cbv beta in H. lia.
Qed.

Lemma land_low a n : 0 ≤ n → 0 ≤ Z.land a (Z.ones n) < 2 ^ n.
Proof. intros. rewrite Z.land_ones by done. apply Z.mod_pos_bound. lia. Qed.

(** ** Decoding what [enc] wrote *)

Lemma dec_loop_enc v src st :
  0 ≤ v < 64 → dec_loop (enc v :: src) st = dec_loop src (dec_push st v).
Proof.
  intros (HP & HD & HV)%enc_dec. simpl. rewrite HD.
  apply Z.eqb_neq in HP as ->. by apply Z.eqb_neq in HV as ->.
Qed.

Lemma dec_loop_pad src st : dec_loop (PAD :: src) st = (PAD :: src, st).
Proof. done. Qed.

Definition chars_wf (chars : bytes) : Prop := length chars = 4%nat.

Lemma dec_group e0 e1 e2 e3 src chars dest :
  chars_wf chars →
  0 ≤ e0 < 64 → 0 ≤ e1 < 64 → 0 ≤ e2 < 64 → 0 ≤ e3 < 64 →
  dec_loop (enc e0 :: enc e1 :: enc e2 :: enc e3 :: src) (DecState 0 chars dest) =
  dec_loop src (DecState 0 [e0; e1; e2; e3]
    (dest ++ [out0 [e0; e1; e2; e3]; out1 [e0; e1; e2; e3]; out2 [e0; e1; e2; e3]])).
Proof.
  intros Hc ????. destruct chars as [|c0 [|c1 [|c2 [|c3 [|]]]]]; try done.
  by do 4 rewrite dec_loop_enc by done.
Qed.

Lemma out_group a b c :
  is_byte a → is_byte b → is_byte c →
  let e0 := Z.shiftr a 2 in
  let e1 := Z.lor (Z.shiftl (Z.land a 3) 4) (Z.shiftr b 4) in
  let e2 := Z.lor (Z.shiftl (Z.land b 15) 2) (Z.shiftr c 6) in
  let e3 := Z.land c 63 in
  0 ≤ e0 < 64 ∧ 0 ≤ e1 < 64 ∧ 0 ≤ e2 < 64 ∧ 0 ≤ e3 < 64 ∧
  [out0 [e0; e1; e2; e3]; out1 [e0; e1; e2; e3]; out2 [e0; e1; e2; e3]] = [a; b; c].
Proof.
  intros Ha Hb Hc.
  destruct (sextet2 (Z.land b 15) c) as (? & ? & E2); [apply (land_low b 4); lia|done|].
  destruct (sextet1 (Z.land a 3) b (Z.shiftr c 6)) as (? & ? & E1);
    [apply (land_low a 2); lia|done..|].
  destruct (sextet0 a (Z.shiftr b 4)) as (? & ? & E0); [done..|].
  split_and!; try lia.
  unfold out0, out1, out2, rd; simpl.
  by rewrite E0, E1, E2.
Qed.

(** ** Reference encoder, group by group *)

Fixpoint encode_ref (l : bytes) : bytes :=
  match l with
  | a :: b :: c :: l' =>
      enc (Z.shiftr a 2)
      :: enc (Z.lor (Z.shiftl (Z.land a 3) 4) (Z.shiftr b 4))
      :: enc (Z.lor (Z.shiftl (Z.land b 15) 2) (Z.shiftr c 6))
      :: enc (Z.land c 63) :: encode_ref l'
  | [a; b] =>
      [enc (Z.shiftr a 2); enc (Z.lor (Z.shiftl (Z.land a 3) 4) (Z.shiftr b 4));
       enc (Z.shiftl (Z.land b 15) 2); PAD]
  | [a] => [enc (Z.shiftr a 2); enc (Z.shiftl (Z.land a 3) 4); PAD; PAD]
  | [] => []
  end.

Lemma encode_loop_ref l dest :
  let len := Z.of_nat (length l) in
  let '(s, d) := encode_groups (Z.to_nat (len / 3)) l dest in
  encode_tail ((3 - len mod 3) mod 3) s d = dest ++ encode_ref l.
Proof.
  revert dest. induction l as [|a|a b|a b c l IH] using list_ind3; intros dest;
    [by rewrite app_nil_r|done..|].
  cbn [length].
  replace (Z.to_nat (Z.of_nat (S (S (S (length l)))) / 3))
    with (S (Z.to_nat (Z.of_nat (length l) / 3))) by zdiv.
  replace (Z.of_nat (S (S (S (length l)))) mod 3) with (Z.of_nat (length l) mod 3) by zdiv.
  cbv zeta in *. cbn [encode_groups drop skipn]. rewrite drop_0.
  lazymatch goal with |- context [encode_groups _ l ?d] => specialize (IH d) end.
  destruct (encode_groups _ l _) as [s d]. rewrite IH. by rewrite <- app_assoc.
Qed.

Lemma Encode_ref l : Encode l = encode_ref l.
Proof.
  unfold Encode. destruct (Z.eqb_spec (Z.of_nat (length l)) 0) as [H|_].
  { by destruct l. }
  pose proof (encode_loop_ref l []) as H. cbv zeta in H.
  change UNENCODED_GROUP_BYTES with 3. destruct (encode_groups _ _ _). done.
Qed.

Lemma encode_ref_length l :
  Z.of_nat (length (encode_ref l)) = EncodedSize (Z.of_nat (length l)).
Proof.
  unfold EncodedSize, ENCODED_GROUP_BYTES, UNENCODED_GROUP_BYTES.
  induction l as [|a|a b|a b c l IH] using list_ind3; [done..|].
  cbn [encode_ref length]. zdiv.
Qed.

Definition done_flag (src : bytes) : bool :=
  (Z.of_nat (length src) =? 0) || ((Z.of_nat (length src) =? 1) && (rd src 0 =? PAD))
  || ((Z.of_nat (length src) =? 2) && (rd src 0 =? PAD) && (rd src 1 =? PAD)).

Lemma dec_encode_ref l : ∀ chars dest,
  bytes_wf l → chars_wf chars →
  ∃ src st, dec_loop (encode_ref l) (DecState 0 chars dest) = (src, st) ∧
    dec_tail st = dest ++ l ∧ done_flag src = true.
Proof.
  induction l as [|a|a b|a b c l IH] using list_ind3; intros chars dest Hl Hc.
  - exists [], (DecState 0 chars dest). by rewrite app_nil_r.
  - destruct chars as [|c0 [|c1 [|c2 [|c3 [|]]]]]; try done.
    inversion_clear Hl as [|?? Ha _].
    destruct (sextet0 a 0) as (? & ? & E0); [done|lia|]. rewrite Z.lor_0_r in *.
    eexists _, _. cbn [encode_ref]. do 2 rewrite dec_loop_enc by done.
    rewrite dec_loop_pad. split_and!; [done| |done].
    unfold dec_tail, out0, dec_push, wr, rd; simpl. by rewrite E0.
  - destruct chars as [|c0 [|c1 [|c2 [|c3 [|]]]]]; try done.
    inversion_clear Hl as [|?? Ha Hl']. inversion_clear Hl' as [|?? Hb _].
    destruct (sextet1 (Z.land a 3) b 0) as (? & ? & E1);
      [apply (land_low a 2); lia|done|lia|].
    destruct (sextet0 a (Z.shiftr b 4)) as (? & ? & E0); [done..|]. rewrite Z.lor_0_r in *.
    eexists _, _. cbn [encode_ref]. do 3 rewrite dec_loop_enc by done.
    rewrite dec_loop_pad. split_and!; [done| |done].
    unfold dec_tail, out0, out1, dec_push, wr, rd; simpl. by rewrite E0, E1.
  - inversion_clear Hl as [|?? Ha Hl']. inversion_clear Hl' as [|?? Hb Hl].
    inversion_clear Hl as [|?? Hc' Hl'].
    destruct (out_group a b c) as (? & ? & ? & ? & E); [done..|].
    cbn [encode_ref]. rewrite dec_group by done. rewrite E.
    lazymatch goal with |- context [DecState 0 ?ch ?d] =>
      destruct (IH ch d Hl' eq_refl) as (src & st & E' & Ht & Hd) end.
    exists src, st. split_and!; [done| |done]. by rewrite Ht, <- app_assoc.
Qed.

(** ** Decode on arbitrary input *)

Definition in_alphabet (c : Z) : bool :=
  negb (c =? PAD) && negb (rd DECODE_TABLE c =? INVAILD_VALUE).

(** [dec_loop] consumes the longest prefix of alphabet characters. *)
Lemma dec_loop_split src : ∀ st, ∃ pre,
  src = pre ++ (dec_loop src st).1 ∧
  Forall (λ c, in_alphabet c = true) pre ∧
  (∀ c l, (dec_loop src st).1 = c :: l → in_alphabet c = false) ∧
  (dec_loop src st).2 = foldl dec_push st (rd DECODE_TABLE <$> pre).
Proof.
  induction src as [|c src IH]; intros st; [by exists []|].
  simpl. destruct (c =? PAD) eqn:Hp.
  { exists []. split_and!; [done..| |done]. intros ?? [= <- _].
    unfold in_alphabet. by rewrite Hp. }
  destruct (rd DECODE_TABLE c =? INVAILD_VALUE) eqn:Hv.
  { exists []. split_and!; [done..| |done]. intros ?? [= <- _].
    unfold in_alphabet. by rewrite Hv, andb_false_r. }
  destruct (IH (dec_push st (rd DECODE_TABLE c))) as (pre & Hs & Hp' & Hr & Hf).
  exists (c :: pre). split_and!; [simpl; congruence| |done..].
  constructor; [|done]. unfold in_alphabet. by rewrite Hp, Hv.
Qed.

(** After [n] characters, [n mod 4] of them wait in the group buffer and three
    bytes per complete group have been written. *)
Definition dec_inv (n : Z) (st : dec_state) : Prop :=
  di st = n mod 4 ∧ Z.of_nat (length (ddest st)) = 3 * (n / 4).

Lemma dec_push_inv n st v : 0 ≤ n → dec_inv n st → dec_inv (n + 1) (dec_push st v).
Proof.
  intros Hn [Hi Hd]. unfold dec_inv, dec_push, ENCODED_GROUP_BYTES.
  destruct (Z.eqb_spec (di st + 1) 4) as [E|E]; cbn [di ddest];
    rewrite ?length_app; cbn [length]; zdiv.
Qed.

Lemma dec_fold_inv vs : ∀ n st,
  0 ≤ n → dec_inv n st → dec_inv (n + Z.of_nat (length vs)) (foldl dec_push st vs).
Proof.
  induction vs as [|v vs IH]; intros n st Hn H; simpl; [by rewrite Z.add_0_r|].
  replace (n + Z.of_nat (S (length vs))) with ((n + 1) + Z.of_nat (length vs)) by lia.
  apply IH; [lia|]. by apply dec_push_inv.
Qed.

Lemma dec_tail_length n st :
  0 ≤ n → dec_inv n st → Z.of_nat (length (dec_tail st)) = 3 * (n / 4) + Z.max 0 (n mod 4 - 1).
Proof.
  intros Hn [Hi Hd]. unfold dec_tail. rewrite Hi.
  destruct (Z.eqb_spec (n mod 4) 0) as [E|E]; [rewrite E; lia|].
  rewrite length_app, length_take. cbn [length]. zdiv.
Qed.

(** *** Independence of the uninitialised buffer *)

Definition dec_eq (s1 s2 : dec_state) : Prop :=
  di s1 = di s2 ∧ 0 ≤ di s1 < 4 ∧ ddest s1 = ddest s2 ∧
  chars_wf (base64Chars s1) ∧ chars_wf (base64Chars s2) ∧
  take (Z.to_nat (di s1)) (base64Chars s1) = take (Z.to_nat (di s1)) (base64Chars s2).

Lemma dec_push_eq s1 s2 v : dec_eq s1 s2 → dec_eq (dec_push s1 v) (dec_push s2 v).
Proof.
  destruct s1 as [i c1 d1], s2 as [i2 c2 d2].
  intros (E1 & E2 & E3 & H1 & H2 & H). cbn in E1, E2, E3, H1, H2, H. subst i2 d2.
  destruct c1 as [|? [|? [|? [|? [|]]]]]; try done.
  destruct c2 as [|? [|? [|? [|? [|]]]]]; try done.
  assert (i = 0 ∨ i = 1 ∨ i = 2 ∨ i = 3) as [->|[->|[->| ->]]] by lia;
    simpl in H; simplify_eq; by repeat split.
Qed.

Lemma dec_fold_eq vs : ∀ s1 s2,
  dec_eq s1 s2 → dec_eq (foldl dec_push s1 vs) (foldl dec_push s2 vs).
Proof. induction vs as [|v vs IH]; intros; simpl; [done|]. by apply IH, dec_push_eq. Qed.

Lemma dec_tail_eq s1 s2 : dec_eq s1 s2 → dec_tail s1 = dec_tail s2.
Proof.
  destruct s1 as [i c1 d1], s2 as [i2 c2 d2].
  intros (E1 & E2 & E3 & H1 & H2 & H). cbn in E1, E2, E3, H1, H2, H. subst i2 d2.
  destruct c1 as [|? [|? [|? [|? [|]]]]]; try done.
  destruct c2 as [|? [|? [|? [|? [|]]]]]; try done.
  assert (i = 0 ∨ i = 1 ∨ i = 2 ∨ i = 3) as [->|[->|[->| ->]]] by lia;
    simpl in H; simplify_eq; done.
Qed.

Lemma dec_loop_rest src : ∀ s1 s2, (dec_loop src s1).1 = (dec_loop src s2).1.
Proof. induction src as [|c src IH]; intros; simpl; [done|]. repeat case_match; auto. Qed.

Lemma dec_loop_eq src : ∀ s1 s2, dec_eq s1 s2 → dec_eq (dec_loop src s1).2 (dec_loop src s2).2.
Proof.
  induction src as [|c src IH]; intros s1 s2 H; simpl; [done|].
  repeat case_match; [done..|]. by apply IH, dec_push_eq.
Qed.

(** [Decode] past its length guard. *)
Lemma Decode_guard junk input :
  4 ≤ Z.of_nat (length input) → Z.of_nat (length input) mod 4 = 0 →
  Decode junk input = (dec_tail (dec_loop input (DecState 0 junk [])).2,
                       done_flag (dec_loop input (DecState 0 junk [])).1).
Proof.
  intros H1 H2. unfold Decode. change ENCODED_GROUP_BYTES with 4.
  rewrite H2. replace (_ <? 4) with false by lia. simpl. by destruct (dec_loop _ _).
Qed.

Lemma Decode_refused junk input :
  Z.of_nat (length input) < 4 ∨ Z.of_nat (length input) mod 4 ≠ 0 →
  Decode junk input = ([], false).
Proof.
  intros H. unfold Decode. change ENCODED_GROUP_BYTES with 4.
  replace (_ || _) with true; [done|]. symmetry. lia.
Qed.

Lemma done_flag_iff src :
  done_flag src = true ↔ ∃ pad, (pad ≤ 2)%nat ∧ src = replicate pad PAD.
Proof.
  unfold done_flag. split.
  - destruct src as [|x [|y [|]]]; intros H.
    + exists O. split; [lia|done].
    + exists 1%nat. split; [lia|]. simpl in H. unfold rd in H; simpl in H.
      destruct (Z.eqb_spec x PAD) as [E|]; [by rewrite E|done].
    + exists 2%nat. split; [lia|]. simpl in H. unfold rd in H; simpl in H.
      destruct (Z.eqb_spec x PAD) as [E|]; [|done].
      destruct (Z.eqb_spec y PAD) as [E'|]; [by rewrite E, E'|done].
    + exfalso. revert H. cbn [length].
      do 3 (rewrite (proj2 (Z.eqb_neq (Z.of_nat _) _)) by lia). done.
  - intros (pad & Hp & ->). destruct pad as [|[|[|]]]; [done..|lia].
Qed.

(** Alphabet prefix and rest of the input are determined by the input. *)
Lemma alphabet_split_unique pre1 pre2 (n1 : nat) r :
  Forall (λ c, in_alphabet c = true) pre1 → Forall (λ c, in_alphabet c = true) pre2 →
  (∀ c l, r = c :: l → in_alphabet c = false) →
  pre1 ++ replicate n1 PAD = pre2 ++ r → r = replicate n1 PAD ∧ pre1 = pre2.
Proof.
  revert pre2. induction pre1 as [|c pre1 IH]; intros [|c2 pre2] H1 H2 Hr E; simpl in E.
  - done.
  - exfalso. inversion_clear H2 as [|?? Hc2 _]. destruct n1; simplify_eq/=.
  - exfalso. inversion_clear H1 as [|?? Hc _]. by rewrite (Hr c _ (eq_sym E)) in Hc.
  - inversion_clear H1. inversion_clear H2. injection E as -> E.
    destruct (IH pre2) as [-> ->]; [done..|]. done.
Qed.

Lemma Decode_Encode junk l : chars_wf junk → bytes_wf l → l ≠ [] → Decode junk (Encode l) = (l, true).
Proof.
  intros Hj Hl Hne. rewrite Encode_ref.
  destruct (dec_encode_ref l junk [] Hl Hj) as (src & st & E & Ht & Hd).
  pose proof (encode_ref_length l) as Hlen.
  unfold EncodedSize, ENCODED_GROUP_BYTES, UNENCODED_GROUP_BYTES in Hlen.
  assert (0 < Z.of_nat (length l)) by (destruct l; [done|cbn [length]; lia]).
  rewrite Decode_guard by zdiv. rewrite E. simpl. by rewrite Ht, Hd.
Qed.

(** ** Properties *)

(** Decoding what [Encode] wrote gives back the encoded bytes and reports
    completion, for every non-empty input and whatever the uninitialised group
    buffer holds; the encoding has exactly [EncodedSize] characters. *)
Theorem base64_roundtrip (junk l : bytes) :
  chars_wf junk → bytes_wf l → l ≠ [] →
  Decode junk (Encode l) = (l, true) ∧
  Z.of_nat (length (Encode l)) = EncodedSize (Z.of_nat (length l)).
Proof.
  intros Hj Hl Hne. split; [by apply Decode_Encode|]. rewrite Encode_ref. apply encode_ref_length.
Qed.

Lemma base64_roundtrip_witness :
  Decode [7; 7; 7; 7] (Encode (str "ArkTS")) = (str "ArkTS", true) ∧
  Z.of_nat (length (Encode (str "ArkTS"))) = EncodedSize 5.
Proof.
  apply (base64_roundtrip [7; 7; 7; 7] (str "ArkTS")); [done|apply str_wf|done].
Defined.

(** [Decode] never writes past the [DecodedSize] buffer of its input, and
    its result does not depend on the uninitialised group buffer. *)
Theorem base64_decode_safe (junk1 junk2 input : bytes) :
  chars_wf junk1 → chars_wf junk2 →
  Decode junk1 input = Decode junk2 input ∧
  Z.of_nat (length (Decode junk1 input).1) ≤ DecodedSize (Z.of_nat (length input)).
Proof.
  intros H1 H2.
  destruct (decide (Z.of_nat (length input) < 4 ∨ Z.of_nat (length input) mod 4 ≠ 0)) as [H|H].
  { rewrite !Decode_refused by done. split; [done|].
    unfold DecodedSize, ENCODED_GROUP_BYTES, UNENCODED_GROUP_BYTES. cbn [fst length]. zdiv. }
  rewrite !Decode_guard by lia. split.
  - f_equal; [|by rewrite (dec_loop_rest _ _ (DecState 0 junk2 []))].
    apply dec_tail_eq, dec_loop_eq. by repeat split.
  - cbn [fst]. destruct (dec_loop_split input (DecState 0 junk1 [])) as (pre & Hs & _ & _ & ->).
    rewrite (dec_tail_length (0 + Z.of_nat (length pre))); [|lia|].
    + apply (f_equal length) in Hs. rewrite length_app in Hs.
      unfold DecodedSize, ENCODED_GROUP_BYTES, UNENCODED_GROUP_BYTES. zdiv.
    + rewrite <- (length_fmap (rd DECODE_TABLE) pre). by apply dec_fold_inv.
Qed.

Lemma base64_decode_safe_witness :
  Decode [0; 0; 0; 0] (str "QUI=") = Decode [9; 9; 9; 9] (str "QUI=") ∧
  Z.of_nat (length (Decode [0; 0; 0; 0] (str "QUI=")).1) ≤ DecodedSize 4.
Proof. apply (base64_decode_safe [0; 0; 0; 0] [9; 9; 9; 9] (str "QUI=")); done. Defined.

(** [Decode] reports completion exactly on the inputs made of alphabet
    characters followed by at most two padding characters, whose length is a
    positive multiple of four; it then wrote [3 * len / 4 - pad] bytes. *)
Theorem base64_decode_done (junk input : bytes) :
  chars_wf junk →
  (Decode junk input).2 = true ↔
  ∃ pre pad, input = pre ++ replicate pad PAD ∧ (pad ≤ 2)%nat ∧
    Forall (λ c, in_alphabet c = true) pre ∧
    4 ≤ Z.of_nat (length input) ∧ Z.of_nat (length input) mod 4 = 0 ∧
    Z.of_nat (length (Decode junk input).1) = Z.of_nat (length input) / 4 * 3 - Z.of_nat pad.
Proof.
  intros Hj.
  destruct (decide (Z.of_nat (length input) < 4 ∨ Z.of_nat (length input) mod 4 ≠ 0)) as [H|H].
  { rewrite Decode_refused by done. split; [done|]. intros (? & ? & ?). lia. }
  rewrite Decode_guard by lia. cbn [fst snd].
  destruct (dec_loop_split input (DecState 0 junk [])) as (pre & Hs & Hp & Hr & ->).
  set (r := (dec_loop input (DecState 0 junk [])).1) in *.
  assert (Hlen : Z.of_nat (length (dec_tail (foldl dec_push (DecState 0 junk [])
      (rd DECODE_TABLE <$> pre)))) = 3 * (Z.of_nat (length pre) / 4)
      + Z.max 0 (Z.of_nat (length pre) mod 4 - 1)).
  { apply dec_tail_length; [lia|]. rewrite <- (length_fmap (rd DECODE_TABLE) pre).
    by apply (dec_fold_inv _ 0). }
  rewrite Hlen, done_flag_iff. split.
  - intros (pad & Hpad & Er). exists pre, pad. rewrite Er in Hs.
    split_and!; [done..|lia|lia|]. rewrite Hs, length_app, length_replicate in *. zdiv.
  - intros (pre' & pad & E & Hpad & Hp' & _). exists pad. split; [done|].
    rewrite E in Hs at 1. by apply (alphabet_split_unique pre' pre pad r).
Qed.

Lemma base64_decode_done_witness :
  (Decode [0; 0; 0; 0] (str "QQ==")).2 = true ↔
  ∃ pre pad, str "QQ==" = pre ++ replicate pad PAD ∧ (pad ≤ 2)%nat ∧
    Forall (λ c, in_alphabet c = true) pre ∧
    4 ≤ Z.of_nat (length (str "QQ==")) ∧ Z.of_nat (length (str "QQ==")) mod 4 = 0 ∧
    Z.of_nat (length (Decode [0; 0; 0; 0] (str "QQ==")).1) =
      Z.of_nat (length (str "QQ==")) / 4 * 3 - Z.of_nat pad.
Proof. apply (base64_decode_done [0; 0; 0; 0] (str "QQ==")); done. Defined.

End PtBase64.
