(* ===== verification/WsFrame.v ===== *)
(** * WebSocket frames

    Models websocket/web_socket_frame.h, websocket/frame_builder.{h,cpp} and
    [NetToHostLongLong] of websocket/network.cpp: the frame header, the server
    and client frame builders and the big-endian length fields.
    [std::string::reserve] changes no content and has no counterpart. *)

From S2P Require Import Prelude.
From stdpp Require Import options.
Local Open Scope Z_scope.

(** ** web_socket_frame.h *)

Inductive FrameType := CONTINUATION | TEXT | BINARY | CLOSE | PING | PONG.

#[export] Instance FrameType_eq_dec : EqDecision FrameType.
Proof. solve_decision. Defined.

Definition EnumToNumber (t : FrameType) : Z :=
  match t with
  | CONTINUATION => 0x0 | TEXT => 0x1 | BINARY => 0x2
  | CLOSE => 0x8 | PING => 0x9 | PONG => 0xa
  end.

Definition IsControlFrame (opcode : Z) : bool := EnumToNumber CLOSE <=? opcode.

Definition MASK_LEN : Z := 4.
Definition HEADER_LEN : Z := 2.
Definition ONE_BYTE_LENTH_ENC_LIMIT : Z := 125.
Definition TWO_BYTES_LENTH_ENC : Z := 126.
Definition TWO_BYTES_LENTH : Z := 2.
Definition TWO_BYTES_LENGTH_LIMIT : Z := 65536.
Definition EIGHT_BYTES_LENTH_ENC : Z := 127.
Definition EIGHT_BYTES_LENTH : Z := 8.
Definition MSB_SHIFT_COUNT : Z := 7.

Record WebSocketFrame := mkFrame {
  payloadLen : Z;
  fin : Z;
  opcode : Z;
  mask : Z;
  maskingKey : bytes;
  payload : bytes }.

(** The constructor from the two raw header bytes. *)
Definition WebSocketFrame_of_header (headerRaw : bytes) : WebSocketFrame :=
  {| payloadLen := Z.land (rd headerRaw 1) 0x7f;
     fin := u8 (Z.land (Z.shiftr (rd headerRaw 0) MSB_SHIFT_COUNT) 0x1);
     opcode := u8 (Z.land (rd headerRaw 0) 0xf);
     mask := u8 (Z.land (Z.shiftr (rd headerRaw 1) MSB_SHIFT_COUNT) 0x1);
     maskingKey := replicate 4 0;
     payload := [] |}.

Definition set_payloadLen (f : WebSocketFrame) (n : Z) : WebSocketFrame :=
  mkFrame n (fin f) (opcode f) (mask f) (maskingKey f) (payload f).
Definition set_maskingKey (f : WebSocketFrame) (k : bytes) : WebSocketFrame :=
  mkFrame (payloadLen f) (fin f) (opcode f) (mask f) k (payload f).
Definition set_payload (f : WebSocketFrame) (p : bytes) : WebSocketFrame :=
  mkFrame (payloadLen f) (fin f) (opcode f) (mask f) (maskingKey f) p.

(** ** Big-endian numbers *)

(** [PushNumberPerByte<T>] with [sizeof(T) = bytesCount]: the loop counts the
    remaining iterations and carries [shiftCount], a [size_t]. *)
Fixpoint push_number_loop (n : nat) (shiftCount number : Z) (message : bytes) : bytes :=
  match n with
  | O => message
  | S n' =>
      push_number_loop n' (u64 (shiftCount - 8)) number
        (message ++ [Z.land (Z.shiftr number shiftCount) 0xff])
  end.

Definition PushNumberPerByte (bytesCount : nat) (message : bytes) (number : Z) : bytes :=
  push_number_loop bytesCount ((Z.of_nat bytesCount - 1) * 8) number message.

(** [NetToHostLongLong(buf, len)] on the first [len] bytes of [buf]; the
    accumulator is a [uint64_t]. *)
Fixpoint net_to_host_loop (buf : bytes) (result : Z) : Z :=
  match buf with
  | [] => result
  | [b] => Z.lor result b
  | b :: buf' => net_to_host_loop buf' (u64 (Z.shiftl (Z.lor result b) 8))
  end.

Definition NetToHostLongLong (buf : bytes) (len : Z) : Z :=
  net_to_host_loop (take (Z.to_nat len) buf) 0.

(** ** frame_builder.cpp *)

Record ServerFrameBuilder := mkServerBuilder {
  fin_ : bool;
  opcode_ : FrameType;
  payload_ : bytes }.

Definition new_ServerFrameBuilder (final : bool) (op : FrameType) : ServerFrameBuilder :=
  mkServerBuilder final op [].

Definition SetFinal (b : ServerFrameBuilder) (f : bool) : ServerFrameBuilder :=
  mkServerBuilder f (opcode_ b) (payload_ b).
Definition SetOpcode (b : ServerFrameBuilder) (op : FrameType) : ServerFrameBuilder :=
  mkServerBuilder (fin_ b) op (payload_ b).
Definition SetPayload (b : ServerFrameBuilder) (p : bytes) : ServerFrameBuilder :=
  mkServerBuilder (fin_ b) (opcode_ b) p.
Definition AppendPayload (b : ServerFrameBuilder) (p : bytes) : ServerFrameBuilder :=
  mkServerBuilder (fin_ b) (opcode_ b) (payload_ b ++ p).

Definition PushHeader (b : ServerFrameBuilder) (message : bytes) (payloadLenField : Z) : bytes :=
  let byte := EnumToNumber (opcode_ b) in
  let byte := if fin_ b then Z.lor byte 0x80 else byte in
  message ++ [byte] ++ [Z.land payloadLenField 0x7f].

Definition PushPayloadLength (b : ServerFrameBuilder) (message : bytes)
    (payloadLenField : Z) : bytes :=
  let payloadLen := u64 (Z.of_nat (length (payload_ b))) in
  if payloadLenField =? TWO_BYTES_LENTH_ENC then
    PushNumberPerByte 2 message (u16 payloadLen)
  else if payloadLenField =? EIGHT_BYTES_LENTH_ENC then
    PushNumberPerByte 8 message payloadLen
  else message.

Definition PushFullHeader (b : ServerFrameBuilder) (message : bytes) : bytes :=
  let payloadBytes := Z.of_nat (length (payload_ b)) in
  let payloadLenField :=
    if payloadBytes <=? ONE_BYTE_LENTH_ENC_LIMIT then u8 payloadBytes
    else if payloadBytes <? TWO_BYTES_LENGTH_LIMIT then TWO_BYTES_LENTH_ENC
    else EIGHT_BYTES_LENTH_ENC in
  let message := PushHeader b message payloadLenField in
  PushPayloadLength b message payloadLenField.

Definition PushPayload (b : ServerFrameBuilder) (message : bytes) : bytes :=
  message ++ payload_ b.

Definition ServerBuild (b : ServerFrameBuilder) : bytes :=
  let message := PushFullHeader b [] in
  PushPayload b message.

Record ClientFrameBuilder := mkClientBuilder {
  base_ : ServerFrameBuilder;
  maskingKey_ : bytes }.

(** [SetMask] copies the [MASK_LEN] elements of its argument. *)
Definition SetMask (c : ClientFrameBuilder) (key : bytes) : ClientFrameBuilder :=
  mkClientBuilder (base_ c)
    (foldl (λ k i, wr k i (rd key i)) (maskingKey_ c) [0; 1; 2; 3]).

Definition new_ClientFrameBuilder (final : bool) (op : FrameType) (key : bytes)
    : ClientFrameBuilder :=
  SetMask (mkClientBuilder (new_ServerFrameBuilder final op) (replicate 4 0)) key.

Definition PushMask (c : ClientFrameBuilder) (message : bytes) : bytes :=
  foldl (λ m i, m ++ [rd (maskingKey_ c) i]) message [0; 1; 2; 3].

Definition ClientPushFullHeader (c : ClientFrameBuilder) (message : bytes) : bytes :=
  let message := PushFullHeader (base_ c) message in
  let message := wr message 1 (Z.lor (rd message 1) 0x80) in
  PushMask c message.

(** The xor of every payload byte with the key byte at its index modulo 4,
    shared by the masking and the unmasking loops. *)
Fixpoint xor_mask (key : bytes) (i : Z) (l : bytes) : bytes :=
  match l with
  | [] => []
  | c :: l' => Z.lxor c (rd key (i mod MASK_LEN)) :: xor_mask key (i + 1) l'
  end.

Definition ClientPushPayload (c : ClientFrameBuilder) (message : bytes) : bytes :=
  message ++ xor_mask (maskingKey_ c) 0 (payload_ (base_ c)).

Definition ClientBuild (c : ClientFrameBuilder) : bytes :=
  let message := ClientPushFullHeader c [] in
  ClientPushPayload c message.

(** ** Lemmas: big-endian numbers *)

(** Reference big-endian representation on [n] bytes and its value. *)
Fixpoint be (n : nat) (v : Z) : bytes :=
  match n with
  | O => []
  | S n' => (v / 256 ^ Z.of_nat n') mod 256 :: be n' v
  end.

Fixpoint be_value (l : bytes) : Z :=
  match l with
  | [] => 0
  | b :: l' => b * 256 ^ Z.of_nat (length l') + be_value l'
  end.

Lemma be_length n v : length (be n v) = n.
Proof. induction n; simpl; congruence. Qed.

Lemma be_wf n v : bytes_wf (be n v).
Proof.
  induction n; simpl; constructor; [|done]. unfold is_byte. apply Z.mod_pos_bound. lia.
Qed.

Lemma pow256 n : 256 ^ Z.of_nat n = 2 ^ (8 * Z.of_nat n).
Proof. change 256 with (2 ^ 8). by rewrite <- Z.pow_mul_r by lia. Qed.

Lemma pow256_S n : 256 ^ Z.of_nat (S n) = 256 * 256 ^ Z.of_nat n.
Proof. by rewrite Nat2Z.inj_succ, Z.pow_succ_r by lia. Qed.

Lemma be_value_be n v : be_value (be n v) = v mod 256 ^ Z.of_nat n.
Proof.
  induction n as [|n IH]; simpl; [by rewrite Z.mod_1_r|].
  rewrite be_length, IH, pow256_S. rewrite (Z.mul_comm 256).
  rewrite Z.rem_mul_r by lia. lia.
Qed.

Lemma be_value_bound l : bytes_wf l → 0 ≤ be_value l < 256 ^ Z.of_nat (length l).
Proof.
  induction 1 as [|b l Hb _ IH]; [done|]. cbn [be_value length]. rewrite pow256_S.
  unfold is_byte in Hb. nia.
Qed.

Lemma push_number_loop_be n v m :
  (n ≤ 8)%nat →
  push_number_loop n ((Z.of_nat n - 1) * 8) v m = m ++ be n v.
Proof.
  revert m. induction n as [|n IH]; intros m Hn; simpl; [by rewrite app_nil_r|].
  destruct n as [|n]; [|replace (u64 _) with ((Z.of_nat (S n) - 1) * 8)];
    [|rewrite IH by lia|].
  - simpl. f_equal. f_equal. rewrite Z.shiftr_0_r, Z.div_1_r.
    change 255 with (Z.ones 8). by rewrite Z.land_ones.
  - rewrite <- app_assoc. f_equal. simpl. f_equal.
    rewrite Z.shiftr_div_pow2 by lia. change 255 with (Z.ones 8). rewrite Z.land_ones by lia.
    f_equal. f_equal. rewrite pow256. f_equal. lia.
  - unfold u64. rewrite wrap_small by (change (2 ^ 64) with 18446744073709551616; lia). lia.
Qed.

Lemma PushNumberPerByte_be n m v :
  (n ≤ 8)%nat → PushNumberPerByte n m v = m ++ be n v.
Proof. apply push_number_loop_be. Qed.

Lemma lor_byte a b : 0 ≤ b < 256 → Z.lor (256 * a) b = 256 * a + b.
Proof.
  intros. rewrite Z.mul_comm. change 256 with (2 ^ 8).
  rewrite <- Z.shiftl_mul_pow2, lor_disjoint_add, Z.shiftl_mul_pow2 by lia. done.
Qed.

Lemma net_to_host_loop_value l : ∀ a,
  l ≠ [] → bytes_wf l → 0 ≤ a → (a + 1) * 256 ^ Z.of_nat (length l) ≤ 2 ^ 64 →
  net_to_host_loop l (256 * a) = a * 256 ^ Z.of_nat (length l) + be_value l.
Proof.
  induction l as [|b [|c l] IH]; intros a Hne Hwf Ha Hlt; [done|..];
    inversion_clear Hwf as [|?? Hb Hl]; unfold is_byte in Hb.
  - simpl. rewrite lor_byte by done. lia.
  - change (net_to_host_loop (b :: c :: l) (256 * a))
      with (net_to_host_loop (c :: l) (u64 (Z.shiftl (Z.lor (256 * a) b) 8))).
    rewrite lor_byte, Z.shiftl_mul_pow2 by lia.
    cbn [length] in *. rewrite !pow256_S in Hlt.
    assert (0 < 256 ^ Z.of_nat (length l)) by lia.
    replace (u64 ((256 * a + b) * 2 ^ 8)) with (256 * (256 * a + b))
      by (unfold u64; rewrite wrap_small by nia; lia).
    rewrite IH; [|done|done|lia|cbn [length]; rewrite pow256_S; nia].
    cbn [be_value length]. rewrite !pow256_S. lia.
Qed.

Lemma NetToHostLongLong_be n v l :
  (1 ≤ n ≤ 8)%nat → 0 ≤ v < 256 ^ Z.of_nat n →
  NetToHostLongLong (be n v ++ l) (Z.of_nat n) = v.
Proof.
  intros Hn Hv. unfold NetToHostLongLong.
  rewrite Nat2Z.id, take_app_length' by (by rewrite be_length).
  change 0 with (256 * 0). rewrite net_to_host_loop_value.
  - rewrite be_value_be, Z.mod_small by done. lia.
  - destruct n; [lia|done].
  - apply be_wf.
  - lia.
  - rewrite be_length, Z.add_0_l, Z.mul_1_l, pow256. apply Z.pow_le_mono_r; lia.
Qed.

(** ** Lemmas: header and payload *)

Lemma xor_mask_length k i l : length (xor_mask k i l) = length l.
Proof. revert i. induction l; intros; simpl; auto. Qed.

Lemma xor_mask_involutive k i l : xor_mask k i (xor_mask k i l) = l.
Proof. revert i. induction l as [|c l IH]; intros; simpl; [done|]. by rewrite lxor_cancel, IH. Qed.

Lemma xor_mask_wf k i l : bytes_wf k → bytes_wf l → bytes_wf (xor_mask k i l).
Proof.
  intros Hk Hl. revert i. induction Hl as [|c l Hc _ IH]; intros i; simpl; constructor; [|by apply IH].
  apply is_byte_lxor; [done|]. unfold rd. destruct (nth_in_or_default (Z.to_nat (i mod MASK_LEN)) k 0) as [H| ->].
  - unfold bytes_wf in Hk. rewrite Forall_forall in Hk. apply Hk. by apply list_elem_of_In.
  - unfold is_byte. lia.
Qed.

(** The second header byte and the extended length that announce [n] bytes. *)
Definition len_field (n : Z) : Z :=
  if n <=? 125 then n else if n <? 65536 then 126 else 127.
Definition ext_len (n : Z) : bytes :=
  if n <=? 125 then [] else if n <? 65536 then be 2 n else be 8 n.
Definition first_byte (fin : bool) (op : FrameType) : Z :=
  if fin then Z.lor (EnumToNumber op) 0x80 else EnumToNumber op.

Lemma PushFullHeader_shape b :
  Z.of_nat (length (payload_ b)) < 2 ^ 64 →
  PushFullHeader b [] =
  [first_byte (fin_ b) (opcode_ b); len_field (Z.of_nat (length (payload_ b)))]
  ++ ext_len (Z.of_nat (length (payload_ b))).
Proof.
  intros H. unfold PushFullHeader, PushHeader, PushPayloadLength, len_field, ext_len, first_byte.
  unfold ONE_BYTE_LENTH_ENC_LIMIT, TWO_BYTES_LENGTH_LIMIT, TWO_BYTES_LENTH_ENC, EIGHT_BYTES_LENTH_ENC.
  set (n := Z.of_nat (length (payload_ b))) in *.
  assert (0 ≤ n) by lia.
  unfold u64 at 1 2. rewrite !(wrap_small 64 n) by lia.
  destruct (Z.leb_spec n 125); [|destruct (Z.ltb_spec n 65536)].
  - unfold u8. rewrite (wrap_small 8 n) by lia.
    replace (n =? 126) with false by lia. replace (n =? 127) with false by lia.
    simpl. change 127 with (Z.ones 7). rewrite Z.land_ones by lia.
    by rewrite Z.mod_small by lia.
  - change (126 =? 126) with true. cbv iota.
    rewrite PushNumberPerByte_be by lia. unfold u16. by rewrite wrap_small by lia.
  - change (127 =? 126) with false. change (127 =? 127) with true. cbv iota.
    by rewrite PushNumberPerByte_be by lia.
Qed.

Lemma ServerBuild_shape b :
  Z.of_nat (length (payload_ b)) < 2 ^ 64 →
  ServerBuild b =
  [first_byte (fin_ b) (opcode_ b); len_field (Z.of_nat (length (payload_ b)))]
  ++ ext_len (Z.of_nat (length (payload_ b))) ++ payload_ b.
Proof.
  intros. unfold ServerBuild, PushPayload. rewrite PushFullHeader_shape by done.
  by rewrite <- app_assoc.
Qed.

Lemma new_ClientFrameBuilder_mask fin op key :
  length key = 4%nat →
  new_ClientFrameBuilder fin op key = mkClientBuilder (new_ServerFrameBuilder fin op) key.
Proof. by destruct key as [|? [|? [|? [|? [|]]]]]. Qed.

Lemma ClientBuild_shape b key :
  Z.of_nat (length (payload_ b)) < 2 ^ 64 → length key = 4%nat →
  ClientBuild (mkClientBuilder b key) =
  [first_byte (fin_ b) (opcode_ b);
   Z.lor (len_field (Z.of_nat (length (payload_ b)))) 0x80]
  ++ ext_len (Z.of_nat (length (payload_ b))) ++ key ++ xor_mask key 0 (payload_ b).
Proof.
  intros Hl Hk. unfold ClientBuild, ClientPushPayload, ClientPushFullHeader, PushMask.
  cbn [base_ maskingKey_]. rewrite PushFullHeader_shape by done.
  destruct key as [|k0 [|k1 [|k2 [|k3 [|]]]]]; try done.
  simpl. rewrite <- !app_assoc. done.
Qed.

Lemma first_byte_fields fin op :
  u8 (Z.land (first_byte fin op) 0xf) = EnumToNumber op ∧
  u8 (Z.land (Z.shiftr (first_byte fin op) 7) 1) = (if fin then 1 else 0) ∧
  is_byte (first_byte fin op).
Proof. destruct fin, op; unfold is_byte; vm_compute; repeat split; congruence. Qed.

Lemma len_field_fields n :
  0 ≤ n →
  Z.land (len_field n) 0x7f = len_field n ∧
  u8 (Z.land (Z.shiftr (len_field n) 7) 1) = 0 ∧
  Z.land (Z.lor (len_field n) 0x80) 0x7f = len_field n ∧
  u8 (Z.land (Z.shiftr (Z.lor (len_field n) 0x80) 7) 1) = 1 ∧
  0 ≤ len_field n < 128.
Proof.
  intros Hn. assert (H : 0 ≤ len_field n < 128) by (unfold len_field; repeat case_match; lia).
  pose proof (Zrange_forallb 128 (λ n,
    (Z.land n 0x7f =? n) && (u8 (Z.land (Z.shiftr n 7) 1) =? 0) &&
    (Z.land (Z.lor n 0x80) 0x7f =? n) &&
    (u8 (Z.land (Z.shiftr (Z.lor n 0x80) 7) 1) =? 1)) (len_field n)
    ltac:(vm_compute; reflexivity) H) as E.
  cbv beta in E. lia.
Qed.

(** No frame is empty. *)
Lemma PushFullHeader_length b : (2 ≤ length (PushFullHeader b []))%nat.
Proof.
  unfold PushFullHeader, PushPayloadLength. cbv zeta.
  repeat case_match; rewrite ?PushNumberPerByte_be by lia; rewrite ?length_app; simpl; lia.
Qed.

Lemma ServerBuild_nonempty b : ServerBuild b ≠ [].
Proof.
  intros E%(f_equal length). pose proof (PushFullHeader_length b).
  unfold ServerBuild, PushPayload in E. rewrite length_app in E. simpl in E. lia.
Qed.

Lemma ClientBuild_nonempty c : ClientBuild c ≠ [].
Proof.
  intros E%(f_equal length). unfold ClientBuild, ClientPushPayload, ClientPushFullHeader, PushMask in E.
  cbn [foldl] in E. rewrite !length_app in E. simpl in E. lia.
Qed.
