(* ===== verification/Network.v ===== *)
(** * Socket reads and writes

    Models [Send] and [Recv] of websocket/network.cpp. The operating system is
    an input of the model: the answers of the successive [recv] and [send]
    system calls are lists, so a theorem for all lists covers every way the
    kernel may split, interrupt or fail the transfers. *)

From S2P Require Import Prelude.
From stdpp Require Import options.
Local Open Scope Z_scope.

(** One answer of the [recv] system call. A datagram longer than the requested
    size is delivered in pieces; [RRetry] is [-1] with EINTR or EAGAIN, [RFail]
    is [-1] with any other errno, [REof] is [0]. *)
Inductive recv_ev :=
| RData (bs : bytes)
| RRetry
| RFail
| REof.

Inductive recv_result :=
| RecvDone (buf : bytes) (rest : list recv_ev)
| RecvFalse (rest : list recv_ev)
| RecvBlock.

(** [Recv(client, buf, totalLen, flags)]: the loop needs [need] more bytes and
    has [acc] in the buffer. Without a pending answer the call blocks. *)
Fixpoint Recv_loop (rx : list recv_ev) (need : nat) (acc : bytes) : recv_result :=
  match need with
  | O => RecvDone acc rx
  | S _ =>
      match rx with
      | [] => RecvBlock
      | RRetry :: rx' => Recv_loop rx' need acc
      | RFail :: rx' => RecvFalse rx'
      | REof :: rx' => RecvFalse rx'
      | RData bs :: rx' =>
          if decide (length bs = O) then RecvFalse rx'
          else if decide (length bs ≤ need)%nat
          then Recv_loop rx' (need - length bs) (acc ++ bs)
          else RecvDone (acc ++ take need bs) (RData (drop need bs) :: rx')
      end
  end.

(** The overload on [char* buf, size_t totalLen]. *)
Definition Recv (rx : list recv_ev) (totalLen : nat) : recv_result :=
  Recv_loop rx totalLen [].

(** The overload on [std::string& buffer]: an empty buffer is refused. *)
Definition RecvString (rx : list recv_ev) (size : nat) : recv_result :=
  match size with
  | O => RecvFalse rx
  | S _ => Recv rx size
  end.

(** [Send]: every [send] answers the number of bytes it took, [<= 0] on
    failure; when no answer is left the kernel takes everything that remains.
    The result is the success flag, the bytes that left and the answers left. *)
Fixpoint Send_loop (tx : list Z) (buf out : bytes) : bool * bytes * list Z :=
  match buf with
  | [] => (true, out, tx)
  | _ :: _ =>
      match tx with
      | [] => (true, out ++ buf, [])
      | len :: tx' =>
          if len <=? 0 then (false, out, tx')
          else Send_loop tx' (drop (Z.to_nat len) buf) (out ++ take (Z.to_nat len) buf)
      end
  end.

Definition Send (tx : list Z) (buf : bytes) : bool * bytes * list Z := Send_loop tx buf [].

(** ** Streams that neither fail nor end *)

Definition good_ev (e : recv_ev) : Prop :=
  match e with RData bs => bs ≠ [] | RRetry => True | RFail | REof => False end.
Definition good (rx : list recv_ev) : Prop := Forall good_ev rx.

(** The bytes a stream delivers before it fails, ends or blocks. *)
Fixpoint flat (rx : list recv_ev) : bytes :=
  match rx with
  | RData bs :: rx' => bs ++ flat rx'
  | RRetry :: rx' => flat rx'
  | _ => []
  end.

Lemma Recv_loop_good rx : ∀ need acc,
  good rx → (need ≤ length (flat rx))%nat →
  ∃ rx', Recv_loop rx need acc = RecvDone (acc ++ take need (flat rx)) rx' ∧
    good rx' ∧ flat rx' = drop need (flat rx).
Proof.
  induction rx as [|e rx IH]; intros need acc Hg Hn.
  { destruct need; [|simpl in Hn; lia]. exists []. by rewrite app_nil_r. }
  destruct need as [|need].
  { exists (e :: rx). by rewrite take_0, drop_0, app_nil_r. }
  inversion_clear Hg as [|?? He Hg']. destruct e as [bs| | |]; try done.
  - cbn [Recv_loop flat] in *. rewrite decide_False by (by intros ->%nil_length_inv).
    rewrite length_app in Hn. case_decide as Hl.
    + destruct (IH (S need - length bs)%nat (acc ++ bs) Hg') as (rx' & E & Hg & Hf); [lia|].
      exists rx'. rewrite E, Hf. split_and!; [|done|].
      * rewrite take_app, (take_ge bs), <- app_assoc by lia. done.
      * by rewrite drop_app, (drop_ge bs) by lia.
    + exists (RData (drop (S need) bs) :: rx). split_and!.
      * by rewrite take_app_le by lia.
      * constructor; [|done]. intros H%(f_equal length). rewrite length_drop in H. simpl in H. lia.
      * cbn [flat]. by rewrite drop_app_le by lia.
  - destruct (IH (S need) acc Hg') as (rx' & ?); [done|]. by exists rx'.
Qed.

Lemma Recv_good rx n :
  good rx → (n ≤ length (flat rx))%nat →
  ∃ rx', Recv rx n = RecvDone (take n (flat rx)) rx' ∧ good rx' ∧ flat rx' = drop n (flat rx).
Proof. apply (Recv_loop_good rx n []). Qed.

(** Reading [b] off a stream that starts with [b]. *)
Lemma Recv_app rx b rest :
  good rx → flat rx = b ++ rest →
  ∃ rx', Recv rx (length b) = RecvDone b rx' ∧ good rx' ∧ flat rx' = rest.
Proof.
  intros Hg Hf. destruct (Recv_good rx (length b) Hg) as (rx' & E & Hg' & Hf').
  { rewrite Hf, length_app. lia. }
  exists rx'. rewrite E, Hf', Hf, take_app_length, drop_app_length. done.
Qed.

Lemma Send_loop_spec tx : ∀ buf out,
  let '(ok, out', tx') := Send_loop tx buf out in
  ∃ sent, out' = out ++ sent ∧ sent `prefix_of` buf ∧ (ok = true → sent = buf).
Proof.
  induction tx as [|len tx IH]; intros [|b buf] out; simpl.
  - exists []. by rewrite app_nil_r.
  - exists (b :: buf). done.
  - exists []. by rewrite app_nil_r.
  - destruct (Z.leb_spec len 0).
    + exists []. split_and!; [by rewrite app_nil_r|apply prefix_nil|done].
    + specialize (IH (drop (Z.to_nat len) (b :: buf)) (out ++ take (Z.to_nat len) (b :: buf))).
      destruct (Send_loop _ _ _) as [[ok out'] tx']. destruct IH as (sent & -> & [k Hk] & Hok).
      exists (take (Z.to_nat len) (b :: buf) ++ sent). split_and!.
      * by rewrite <- app_assoc.
      * exists k. rewrite <- app_assoc, <- Hk. by rewrite take_drop.
      * intros ->%Hok. by rewrite take_drop.
Qed.

(** ** Properties *)

(** [Recv] returns the next [totalLen] bytes of the stream and leaves
    exactly the rest, however the kernel splits them into chunks and however
    often it interrupts the call: two streams with the same content give the
    same buffer and the same remaining content. *)
Theorem recv_chunking_irrelevant (rx1 rx2 : list recv_ev) (n : nat) :
  good rx1 → good rx2 → flat rx1 = flat rx2 → (n ≤ length (flat rx1))%nat →
  ∃ buf r1 r2, Recv rx1 n = RecvDone buf r1 ∧ Recv rx2 n = RecvDone buf r2 ∧
    buf = take n (flat rx1) ∧ flat r1 = drop n (flat rx1) ∧ flat r2 = flat r1.
Proof.
  intros H1 H2 E Hn.
  destruct (Recv_good rx1 n H1 Hn) as (r1 & E1 & _ & F1).
  destruct (Recv_good rx2 n H2) as (r2 & E2 & _ & F2); [by rewrite <- E|].
  exists (take n (flat rx1)), r1, r2. rewrite F1, F2, <- E. rewrite <- E in E2. done.
Qed.

Lemma recv_chunking_irrelevant_witness :
  ∃ buf r1 r2,
    Recv [RRetry; RData [1; 2]; RRetry; RData [3; 4; 5]] 3 = RecvDone buf r1 ∧
    Recv [RData [1; 2; 3; 4; 5]] 3 = RecvDone buf r2 ∧
    buf = [1; 2; 3] ∧ flat r1 = [4; 5] ∧ flat r2 = flat r1.
Proof.
  apply (recv_chunking_irrelevant [RRetry; RData [1; 2]; RRetry; RData [3; 4; 5]]
           [RData [1; 2; 3; 4; 5]] 3);
    [repeat constructor; done|repeat constructor; done|done|simpl; lia].
Defined.

(** What [Send] puts on the wire is a prefix of the buffer, and the whole
    buffer when it returns true, for every sequence of partial writes. *)
Theorem send_all_or_fail (tx : list Z) (buf : bytes) :
  let '(ok, out, _) := Send tx buf in
  out `prefix_of` buf ∧ (ok = true → out = buf).
Proof.
  unfold Send. pose proof (Send_loop_spec tx buf []) as H.
  destruct (Send_loop tx buf []) as [[ok out] tx']. destruct H as (sent & -> & Hp & Hok). done.
Qed.
