(* ===== verification/WsBase.v ===== *)
(** * The WebSocket connection

    Models [WebSocketBase] of websocket/websocket_base.{h,cpp}. The state holds
    the members of the class and what the model takes from outside: the answers
    of [recv] and [send], the random bytes, the bytes put on the wire and a
    trace of the user callbacks and of the [shutdown] and [close] system calls.
    The methods that [WebSocketServer] and [WebSocketClient] override are the
    operations of the class [WebSocketImpl]; what they promise to [Decode] is
    the class [WebSocketImplOK]. *)

From S2P Require Import Prelude WsFrame Network.
Local Open Scope Z_scope.
Local Open Scope ark_scope.

(** ** State *)

Inductive ConnectionState := CONNECTING | OPEN | CLOSING | CLOSED.
Inductive ConnectionCloseReason := FAIL | CLOSE_REASON.

#[export] Instance ConnectionState_eq_dec : EqDecision ConnectionState.
Proof. solve_decision. Defined.

Inductive CloseStatusCode :=
| NO_STATUS_CODE | NORMAL | SERVER_GO_AWAY | PROTOCOL_ERROR | UNACCEPTABLE_DATA
| INCONSISTENT_DATA | POLICY_VIOLATION | MESSAGE_TOO_BIG | UNEXPECTED_ERROR.

Definition CloseStatusCode_number (c : CloseStatusCode) : Z :=
  match c with
  | NO_STATUS_CODE => 0 | NORMAL => 1000 | SERVER_GO_AWAY => 1001
  | PROTOCOL_ERROR => 1002 | UNACCEPTABLE_DATA => 1003 | INCONSISTENT_DATA => 1007
  | POLICY_VIOLATION => 1008 | MESSAGE_TOO_BIG => 1009 | UNEXPECTED_ERROR => 1011
  end.

Inductive ws_event := EvCloseCb | EvFailCb | EvOpenCb | EvShutdown (fd : Z) | EvClose (fd : Z).

Record ws := mkWs {
  connectionState_ : ConnectionState;
  connectionFd_ : Z;
  closeCb_ : bool;
  failCb_ : bool;
  rx : list recv_ev;
  tx : list Z;
  sent : bytes;
  rng : list Z;
  trace : list ws_event }.

Definition set_state (c : ConnectionState) (s : ws) : ws :=
  mkWs c (connectionFd_ s) (closeCb_ s) (failCb_ s) (rx s) (tx s) (sent s) (rng s) (trace s).
Definition set_fd (fd : Z) (s : ws) : ws :=
  mkWs (connectionState_ s) fd (closeCb_ s) (failCb_ s) (rx s) (tx s) (sent s) (rng s) (trace s).
Definition set_rx (r : list recv_ev) (s : ws) : ws :=
  mkWs (connectionState_ s) (connectionFd_ s) (closeCb_ s) (failCb_ s) r (tx s) (sent s) (rng s) (trace s).
Definition set_tx (t : list Z) (out : bytes) (s : ws) : ws :=
  mkWs (connectionState_ s) (connectionFd_ s) (closeCb_ s) (failCb_ s) (rx s) t (sent s ++ out) (rng s) (trace s).
Definition set_rng (r : list Z) (s : ws) : ws :=
  mkWs (connectionState_ s) (connectionFd_ s) (closeCb_ s) (failCb_ s) (rx s) (tx s) (sent s) r (trace s).
Definition log (e : ws_event) (s : ws) : ws :=
  mkWs (connectionState_ s) (connectionFd_ s) (closeCb_ s) (failCb_ s) (rx s) (tx s) (sent s) (rng s) (trace s ++ [e]).

(** The members of a freshly constructed object. *)
Definition ws_init : ws := mkWs CLOSED (-1) false false [] [] [] [] [].

Definition SetCloseConnectionCallback (s : ws) : ws :=
  mkWs (connectionState_ s) (connectionFd_ s) true (failCb_ s) (rx s) (tx s) (sent s) (rng s) (trace s).
Definition SetFailConnectionCallback (s : ws) : ws :=
  mkWs (connectionState_ s) (connectionFd_ s) (closeCb_ s) true (rx s) (tx s) (sent s) (rng s) (trace s).

(** ** Accessors of the state *)

Definition IsConnected (s : ws) : bool := bool_decide (connectionState_ s = OPEN).
Definition GetConnectionSocket (s : ws) : Z := connectionFd_ s.
Definition GetConnectionState (s : ws) : ConnectionState := connectionState_ s.
Definition SetConnectionSocket (fd : Z) : M ws () := m_modify (set_fd fd).

(** [exchange]: stores the new state and returns the old one. *)
Definition SetConnectionState (n : ConnectionState) : M ws ConnectionState :=
  λ s, Ret (connectionState_ s) (set_state n s).

(** [compare_exchange_strong(expected, new)]: on failure the second component
    is the state that was found. *)
Definition CompareExchangeConnectionState (expected n : ConnectionState)
    : M ws (bool * ConnectionState) :=
  λ s, if decide (connectionState_ s = expected)
       then Ret (true, expected) (set_state n s)
       else Ret (false, connectionState_ s) s.

(** ** Transfers under the connection lock; a negative descriptor fails. *)

Definition SendUnderLock (message : bytes) : M ws bool :=
  λ s, if connectionFd_ s <? 0 then Ret (bool_decide (message = [])) s
       else let '(ok, out, tx') := Send (tx s) message in
            Ret ok (set_tx tx' out s).

Definition lift_recv (r : recv_result) (s : ws) : outcome ws (option bytes) :=
  match r with
  | RecvDone buf rest => Ret (Some buf) (set_rx rest s)
  | RecvFalse rest => Ret None (set_rx rest s)
  | RecvBlock => Block s
  end.

(** [RecvUnderLock(uint8_t* buf, totalLen)]: the received bytes, or [None] for
    [false]. *)
Definition RecvUnderLock (totalLen : Z) : M ws (option bytes) :=
  λ s, if connectionFd_ s <? 0
       then Ret (if totalLen =? 0 then Some [] else None) s
       else lift_recv (Recv (rx s) (Z.to_nat totalLen)) s.

(** [RecvUnderLock(std::string& message)] on a buffer of [size] bytes. *)
Definition RecvStringUnderLock (size : Z) : M ws (option bytes) :=
  λ s, if connectionFd_ s <? 0 then Ret None s
       else lift_recv (RecvString (rx s) (Z.to_nat size)) s.

(** ** Virtual methods *)

Class WebSocketImpl := {
  ValidateIncomingFrame : WebSocketFrame → bool;
  CreateFrame : bool → FrameType → bytes → M ws bytes;
  DecodeMessage : WebSocketFrame → M ws (bool * WebSocketFrame) }.

(** [buffer.resize(msgLen, 0)], which throws when the string cannot be
    allocated. *)
Definition resize_buffer `{Platform} (msgLen : Z) : M ws () :=
  λ s, if msgLen <=? string_max_size then Ret () s else Throw s.

Definition DECODE_DISCONNECT_MSG : bytes := str "disconnect".
Definition IsDecodeDisconnectMsg (message : bytes) : bool :=
  bool_decide (message = DECODE_DISCONNECT_MSG).

(** [ToString(CloseStatusCode)] *)
Definition CloseStatusCode_ToString (status : CloseStatusCode) : bytes :=
  match status with
  | NO_STATUS_CODE => []
  | _ => PushNumberPerByte 2 [] (CloseStatusCode_number status)
  end.

Section WithImpl.
Context {impl : WebSocketImpl}.

(** ** Sending *)

Definition SendReply (message : bytes) (frameType : FrameType) (isLast : bool) : M ws bool :=
  s <-- m_get ;;
  if decide (connectionState_ s = OPEN) then
    frame <-- CreateFrame isLast frameType message ;;
    SendUnderLock frame
  else m_ret false.

Definition SendPongFrame (pl : bytes) : M ws () :=
  frame <-- CreateFrame true PONG pl ;;
  _ <-- SendUnderLock frame ;; m_ret ().

Definition SendCloseFrame (status : CloseStatusCode) : M ws () :=
  frame <-- CreateFrame true CLOSE (CloseStatusCode_ToString status) ;;
  _ <-- SendUnderLock frame ;; m_ret ().

(** ** Closing *)

Definition OnConnectionClose (status : ConnectionCloseReason) : M ws () :=
  m_modify (λ s, match status with
                 | FAIL => if failCb_ s then log EvFailCb s else s
                 | CLOSE_REASON => if closeCb_ s then log EvCloseCb s else s
                 end).

Definition CloseConnectionSocket (status : ConnectionCloseReason) : M ws () :=
  OnConnectionClose status ;;;
  m_modify (λ s, log (EvShutdown (connectionFd_ s)) s) ;;;
  m_modify (λ s, set_fd (-1) (log (EvClose (connectionFd_ s)) s)) ;;;
  _ <-- CompareExchangeConnectionState CLOSING CLOSED ;; m_ret ().

Definition CloseConnection (status : CloseStatusCode) : M ws bool :=
  r <-- CompareExchangeConnectionState OPEN CLOSING ;;
  if (r : bool * ConnectionState).1 then
    SendCloseFrame status ;;;
    CloseConnectionSocket CLOSE_REASON ;;;
    m_ret true
  else m_ret false.

(** ** Receiving *)

Definition ReadPayload (wsFrame : WebSocketFrame) : M ws (bool * WebSocketFrame) :=
  if payloadLen wsFrame =? TWO_BYTES_LENTH_ENC then
    r <-- RecvUnderLock TWO_BYTES_LENTH ;;
    match r with
    | None => m_ret (false, wsFrame)
    | Some recvbuf =>
        DecodeMessage (set_payloadLen wsFrame (NetToHostLongLong recvbuf TWO_BYTES_LENTH))
    end
  else if payloadLen wsFrame =? EIGHT_BYTES_LENTH_ENC then
    r <-- RecvUnderLock EIGHT_BYTES_LENTH ;;
    match r with
    | None => m_ret (false, wsFrame)
    | Some recvbuf =>
        DecodeMessage (set_payloadLen wsFrame (NetToHostLongLong recvbuf EIGHT_BYTES_LENTH))
    end
  else DecodeMessage wsFrame.

Definition HandleDataFrame (wsFrame : WebSocketFrame) : M ws (bool * WebSocketFrame) :=
  if opcode wsFrame =? EnumToNumber TEXT then ReadPayload wsFrame
  else m_ret (true, wsFrame).

Definition HandleControlFrame (wsFrame : WebSocketFrame) : M ws (bool * WebSocketFrame) :=
  if opcode wsFrame =? EnumToNumber PING then
    r <-- ReadPayload wsFrame ;;
    let '(ok, f) := (r : bool * WebSocketFrame) in
    if ok then SendPongFrame (payload f) ;;; m_ret (true, f)
    else m_ret (false, f)
  else if opcode wsFrame =? EnumToNumber CLOSE then
    _ <-- CloseConnection NO_STATUS_CODE ;; m_ret (true, wsFrame)
  else m_ret (true, wsFrame).

Definition Decode : M ws bytes :=
  s <-- m_get ;;
  if decide (connectionState_ s = OPEN) then
    h <-- RecvUnderLock HEADER_LEN ;;
    match h with
    | None =>
        _ <-- CloseConnection UNEXPECTED_ERROR ;; m_ret DECODE_DISCONNECT_MSG
    | Some recvbuf =>
        let wsFrame := WebSocketFrame_of_header recvbuf in
        if ValidateIncomingFrame wsFrame then
          r <-- (if IsControlFrame (opcode wsFrame) then HandleControlFrame wsFrame
                 else HandleDataFrame wsFrame) ;;
          let '(ok, f) := (r : bool * WebSocketFrame) in
          if ok then m_ret (payload f)
          else _ <-- CloseConnection PROTOCOL_ERROR ;; m_ret DECODE_DISCONNECT_MSG
        else _ <-- CloseConnection PROTOCOL_ERROR ;; m_ret DECODE_DISCONNECT_MSG
    end
  else m_ret [].

End WithImpl.

(** ** Input/output that leaves the connection alone

    [io_only s s']: only the streams differ, not the connection state, the
    descriptor, the callbacks or the trace. *)
Definition io_only (s s' : ws) : Prop :=
  connectionState_ s' = connectionState_ s ∧ connectionFd_ s' = connectionFd_ s ∧
  closeCb_ s' = closeCb_ s ∧ failCb_ s' = failCb_ s ∧ trace s' = trace s.

Definition out_state {A} (o : outcome ws A) : ws :=
  match o with Ret _ s | Block s | Throw s => s end.

Definition io {A} (m : M ws A) : Prop := ∀ s, io_only s (out_state (m s)).

(** ** What an endpoint promises to the base class

    [peer_frame fin op p w]: a conforming peer sends [w] for the frame
    [(fin, op, p)]. The endpoint accepts the header of such a frame, and its
    [DecodeMessage] reads the body of a non-empty one off the stream. *)
Class WebSocketImplOK `{Platform} (impl : WebSocketImpl) := {
  peer_frame : bool → FrameType → bytes → bytes → Prop;
  peer_body : bytes → bytes → Prop;
  peer_frame_header fin op p w :
    peer_frame fin op p w → Z.of_nat (length p) < 2 ^ 64 →
    ∃ h0 h1 body, w = [h0; h1] ++ ext_len (Z.of_nat (length p)) ++ body ∧
      opcode (WebSocketFrame_of_header [h0; h1]) = EnumToNumber op ∧
      payloadLen (WebSocketFrame_of_header [h0; h1]) = len_field (Z.of_nat (length p)) ∧
      ValidateIncomingFrame (WebSocketFrame_of_header [h0; h1]) = true ∧
      peer_body p body;
  DecodeMessage_body p body rest f s :
    peer_body p body → p ≠ [] → Z.of_nat (length p) ≤ string_max_size →
    0 ≤ connectionFd_ s → good (rx s) → flat (rx s) = body ++ rest →
    payloadLen f = Z.of_nat (length p) →
    ∃ f' rx', DecodeMessage f s = Ret (true, f') (set_rx rx' s) ∧
      payload f' = p ∧ good rx' ∧ flat rx' = rest;
  CreateFrame_total fin op p s :
    ∃ w r, CreateFrame fin op p s = Ret w (set_rng r s);
  DecodeMessage_io f : io (DecodeMessage f);
}.

#[export] Instance io_only_preorder : PreOrder io_only.
Proof.
  split; [by intros s|]. intros s1 s2 s3 (? & ? & ? & ? & ?) (? & ? & ? & ? & ?).
  repeat split; congruence.
Qed.

Lemma io_ret {A} (a : A) : io (m_ret a).
Proof. intros s. reflexivity. Qed.

Lemma io_bind {A B} (m : M ws A) (k : A → M ws B) :
  io m → (∀ a, io (k a)) → io (m_bind k m).
Proof.
  intros Hm Hk s. specialize (Hm s). unfold m_bind. destruct (m s) as [a s'| |]; [|done..].
  etransitivity; [exact Hm|apply Hk].
Qed.

Lemma io_recv n : io (RecvUnderLock n).
Proof.
  intros s. unfold RecvUnderLock, lift_recv. repeat case_match; by repeat split.
Qed.

Lemma io_recv_string n : io (RecvStringUnderLock n).
Proof.
  intros s. unfold RecvStringUnderLock, lift_recv. repeat case_match; by repeat split.
Qed.

Lemma io_send m : io (SendUnderLock m).
Proof.
  intros s. unfold SendUnderLock. destruct (_ <? 0); [reflexivity|].
  destruct (Send _ _) as [[??]?]. by repeat split.
Qed.

Lemma io_resize `{Platform} n : io (resize_buffer n).
Proof. intros s. unfold resize_buffer. by case_match. Qed.

#[export] Hint Resolve io_ret io_bind io_recv io_recv_string io_send io_resize : ark.
#[export] Hint Extern 1 (io (DecodeMessage _)) => apply DecodeMessage_io : ark.


(** ** Lemmas *)

Lemma set_rx_id s : set_rx (rx s) s = s.
Proof. by destruct s. Qed.

Lemma set_rx_set_rx r1 r2 s : set_rx r1 (set_rx r2 s) = set_rx r1 s.
Proof. done. Qed.

(** Reading an announced block off a good stream. *)
Lemma RecvUnderLock_good (n : Z) b rest s :
  0 ≤ connectionFd_ s → good (rx s) → flat (rx s) = b ++ rest → n = Z.of_nat (length b) →
  ∃ rx', RecvUnderLock n s = Ret (Some b) (set_rx rx' s) ∧ good rx' ∧ flat rx' = rest.
Proof.
  intros Hfd Hg Hf ->. destruct (Recv_app (rx s) b rest Hg Hf) as (rx' & E & Hg' & Hf').
  exists rx'. unfold RecvUnderLock. replace (_ <? 0) with false by lia.
  rewrite Nat2Z.id, E. done.
Qed.

Lemma RecvStringUnderLock_good (n : Z) b rest s :
  b ≠ [] → 0 ≤ connectionFd_ s → good (rx s) → flat (rx s) = b ++ rest →
  n = Z.of_nat (length b) →
  ∃ rx', RecvStringUnderLock n s = Ret (Some b) (set_rx rx' s) ∧ good rx' ∧ flat rx' = rest.
Proof.
  intros Hne Hfd Hg Hf ->. destruct (Recv_app (rx s) b rest Hg Hf) as (rx' & E & Hg' & Hf').
  exists rx'. unfold RecvStringUnderLock. replace (_ <? 0) with false by lia.
  rewrite Nat2Z.id. unfold RecvString. rewrite E. by destruct b.
Qed.

(** Any send leaves everything but the wire untouched. *)
Lemma SendUnderLock_total m s :
  ∃ ok tx' out, SendUnderLock m s = Ret ok (set_tx tx' out s) ∧ out `prefix_of` m.
Proof.
  unfold SendUnderLock. destruct (_ <? 0).
  - exists (bool_decide (m = [])), (tx s), []. unfold set_tx. rewrite app_nil_r.
    split; [by destruct s|apply prefix_nil].
  - unfold Send. pose proof (Send_loop_spec (tx s) m []) as HS.
    destruct (Send_loop _ _ _) as [[ok out] tx']. destruct HS as (o & -> & Hp & _).
    by exists ok, tx', o.
Qed.

Section ImplLemmas.
Context `{Platform} {impl : WebSocketImpl} {implOK : WebSocketImplOK impl}.

(** The extended length fields that announce the payload are read back. *)
Lemma ReadPayload_ext n body f s :
  0 ≤ connectionFd_ s → good (rx s) → 0 ≤ n < 2 ^ 64 →
  flat (rx s) = ext_len n ++ body → payloadLen f = len_field n →
  ∃ f1 rx1, ReadPayload f s = DecodeMessage f1 (set_rx rx1 s) ∧
    payloadLen f1 = n ∧ good rx1 ∧ flat rx1 = body.
Proof.
  intros Hfd Hg Hn Hflat Hlen. unfold ReadPayload. rewrite Hlen.
  unfold len_field, ext_len, TWO_BYTES_LENTH_ENC, EIGHT_BYTES_LENTH_ENC in *.
  destruct (Z.leb_spec n 125); [|destruct (Z.ltb_spec n 65536)].
  - replace (n =? 126) with false by lia. replace (n =? 127) with false by lia.
    exists f, (rx s). by rewrite set_rx_id.
  - destruct (RecvUnderLock_good 2 (be 2 n) body s) as (rx' & E & Hg' & Hf'); [done..|].
    exists (set_payloadLen f n), rx'. change (126 =? 126) with true. cbv iota.
    unfold TWO_BYTES_LENTH. erewrite m_bind_ret by exact E.
    change 2 with (Z.of_nat 2). rewrite <- (app_nil_r (be 2 n)).
    rewrite NetToHostLongLong_be by (change (256 ^ Z.of_nat 2) with 65536; lia). done.
  - destruct (RecvUnderLock_good 8 (be 8 n) body s) as (rx' & E & Hg' & Hf'); [done..|].
    exists (set_payloadLen f n), rx'.
    change (127 =? 126) with false. change (127 =? 127) with true. cbv iota.
    unfold EIGHT_BYTES_LENTH. erewrite m_bind_ret by exact E.
    change 8 with (Z.of_nat 8). rewrite <- (app_nil_r (be 8 n)).
    rewrite NetToHostLongLong_be by (change (256 ^ Z.of_nat 8) with (2 ^ 64); lia). done.
Qed.

(** A conforming, non-empty frame is read completely. *)
Lemma ReadPayload_frame p body rest f s :
  peer_body p body → p ≠ [] → Z.of_nat (length p) ≤ string_max_size →
  0 ≤ connectionFd_ s → good (rx s) →
  flat (rx s) = ext_len (Z.of_nat (length p)) ++ body ++ rest →
  payloadLen f = len_field (Z.of_nat (length p)) →
  ∃ f' rx', ReadPayload f s = Ret (true, f') (set_rx rx' s) ∧
    payload f' = p ∧ good rx' ∧ flat rx' = rest.
Proof.
  intros Hb Hne Hmax Hfd Hg Hflat Hlen. pose proof string_max_size_64.
  destruct (ReadPayload_ext (Z.of_nat (length p)) (body ++ rest) f s)
    as (f1 & rx1 & E & Hf1 & Hg1 & Hflat1); [done|done|lia|done|done|].
  destruct (DecodeMessage_body p body rest f1 (set_rx rx1 s))
    as (f' & rx' & E' & ?); [done..|].
  exists f', rx'. rewrite E, E', set_rx_set_rx. done.
Qed.

(** The header of a conforming frame gets [Decode] to its frame handler. *)
Lemma Decode_header fin op p w rest s :
  peer_frame fin op p w → Z.of_nat (length p) < 2 ^ 64 →
  connectionState_ s = OPEN → 0 ≤ connectionFd_ s → good (rx s) →
  flat (rx s) = w ++ rest →
  ∃ f rx1 body,
    Decode s =
      m_bind (λ r : bool * WebSocketFrame, let '(ok, f) := r in
              if ok then m_ret (payload f)
              else m_bind (λ _, m_ret DECODE_DISCONNECT_MSG) (CloseConnection PROTOCOL_ERROR))
        (if IsControlFrame (opcode f) then HandleControlFrame f else HandleDataFrame f)
        (set_rx rx1 s) ∧
    opcode f = EnumToNumber op ∧ payloadLen f = len_field (Z.of_nat (length p)) ∧
    payload f = [] ∧ peer_body p body ∧
    good rx1 ∧ flat rx1 = ext_len (Z.of_nat (length p)) ++ body ++ rest ∧
    flat rx1 = drop 2 (w ++ rest).
Proof.
  intros Hp Hlen Ho Hfd Hg Hflat.
  destruct (peer_frame_header fin op p w Hp Hlen) as (h0 & h1 & body & -> & Hop & Hpl & Hv & Hb).
  destruct (RecvUnderLock_good 2 [h0; h1] (ext_len (Z.of_nat (length p)) ++ body ++ rest) s)
    as (rx1 & E & Hg1 & Hf1); [done|done| |done|].
  { by rewrite Hflat, <- !app_assoc. }
  exists (WebSocketFrame_of_header [h0; h1]), rx1, body.
  split_and!; [|done..|by rewrite Hf1, <- !app_assoc].
  unfold Decode. erewrite m_bind_ret by reflexivity. rewrite decide_True by done.
  unfold HEADER_LEN. erewrite m_bind_ret by exact E.
  cbv beta zeta iota. by rewrite Hv.
Qed.

Lemma Decode_text fin p w rest s :
  peer_frame fin TEXT p w → p ≠ [] → Z.of_nat (length p) ≤ string_max_size →
  connectionState_ s = OPEN → 0 ≤ connectionFd_ s → good (rx s) →
  flat (rx s) = w ++ rest →
  ∃ rx', Decode s = Ret p (set_rx rx' s) ∧ good rx' ∧ flat rx' = rest.
Proof.
  intros Hp Hne Hmax Ho Hfd Hg Hflat. pose proof string_max_size_64.
  destruct (Decode_header fin TEXT p w rest s)
    as (f & rx1 & body & E & Hop & Hpl & Hpay & Hb & Hg1 & Hf1 & Hd); [done|lia|done..|].
  destruct (ReadPayload_frame p body rest f (set_rx rx1 s))
    as (f' & rx' & E' & Hp' & Hg' & Hf'); [done..|].
  exists rx'. rewrite E, Hop. change (IsControlFrame _) with false. cbv iota.
  unfold HandleDataFrame. rewrite Hop, Z.eqb_refl.
  erewrite m_bind_ret by exact E'. cbv beta iota. unfold m_ret. by rewrite Hp'.
Qed.

(** A ping is answered by a pong frame with the same payload, and its payload
    is what [Decode] returns. *)
Lemma Decode_ping fin p w rest s :
  peer_frame fin PING p w → p ≠ [] → Z.of_nat (length p) ≤ string_max_size →
  connectionState_ s = OPEN → 0 ≤ connectionFd_ s → good (rx s) →
  flat (rx s) = w ++ rest →
  ∃ rx' r pong ok out tx',
    CreateFrame true PONG p (set_rx rx' s) = Ret pong (set_rng r (set_rx rx' s)) ∧
    Send (tx s) pong = (ok, out, tx') ∧
    Decode s = Ret p (set_tx tx' out (set_rng r (set_rx rx' s))) ∧
    good rx' ∧ flat rx' = rest.
Proof.
  intros Hp Hne Hmax Ho Hfd Hg Hflat. pose proof string_max_size_64.
  destruct (Decode_header fin PING p w rest s)
    as (f & rx1 & body & E & Hop & Hpl & Hpay & Hb & Hg1 & Hf1 & Hd); [done|lia|done..|].
  destruct (ReadPayload_frame p body rest f (set_rx rx1 s))
    as (f' & rx' & E' & Hp' & Hg' & Hf'); [done..|]. rewrite set_rx_set_rx in E'.
  destruct (CreateFrame_total true PONG p (set_rx rx' s)) as (pong & r & Ec).
  destruct (Send (tx s) pong) as [[ok out] tx'] eqn:Es.
  exists rx', r, pong, ok, out, tx'. split_and!; [done..| |done|done].
  rewrite E, Hop. change (IsControlFrame _) with true. cbv iota.
  unfold HandleControlFrame. rewrite Hop, Z.eqb_refl.
  rewrite m_bind_assoc. erewrite m_bind_ret by exact E'. cbv iota beta.
  rewrite Hp'. unfold SendPongFrame. rewrite !m_bind_assoc.
  erewrite m_bind_ret by exact Ec. rewrite !m_bind_assoc.
  erewrite m_bind_ret; [|unfold SendUnderLock; replace (_ <? 0) with false by (cbn; lia);
    cbn [tx set_rng set_rx]; rewrite Es; reflexivity].
  unfold m_ret, m_bind. by rewrite Hp'.
Qed.

(** Frames whose type the endpoint does not handle: only the header has been
    consumed, the extended length, the key and the payload stay on the stream. *)
Lemma Decode_unread fin op p w rest s :
  op = BINARY ∨ op = CONTINUATION ∨ op = PONG →
  peer_frame fin op p w → Z.of_nat (length p) < 2 ^ 64 →
  connectionState_ s = OPEN → 0 ≤ connectionFd_ s → good (rx s) →
  flat (rx s) = w ++ rest →
  ∃ rx', Decode s = Ret [] (set_rx rx' s) ∧ good rx' ∧ flat rx' = drop 2 (w ++ rest).
Proof.
  intros Hop' Hp Hlen Ho Hfd Hg Hflat.
  destruct (Decode_header fin op p w rest s)
    as (f & rx1 & body & E & Hop & Hpl & Hpay & Hb & Hg1 & Hf1 & Hd); [done..|].
  exists rx1. rewrite E, Hop. split_and!; [|done|done].
  destruct Hop' as [->|[->| ->]]; cbv iota;
      unfold HandleDataFrame, HandleControlFrame; rewrite Hop;
      cbn -[m_ret]; unfold m_bind, m_ret; by rewrite Hpay.
Qed.

(** ** Closing the connection *)

Lemma SendCloseFrame_total status s :
  ∃ tx' out r w, SendCloseFrame status s = Ret () (set_tx tx' out (set_rng r s)) ∧
    CreateFrame true CLOSE (CloseStatusCode_ToString status) s = Ret w (set_rng r s) ∧
    out `prefix_of` w.
Proof.
  unfold SendCloseFrame.
  destruct (CreateFrame_total true CLOSE (CloseStatusCode_ToString status) s) as (w & r & Ec).
  erewrite m_bind_ret by exact Ec.
  destruct (SendUnderLock_total w (set_rng r s)) as (ok & tx' & out & Es & Hp).
  erewrite m_bind_ret by exact Es. by exists tx', out, r, w.
Qed.

(** From [CLOSING], [CloseConnectionSocket] runs the callback of the reason,
    shuts the socket down, closes it and ends in [CLOSED] without a descriptor. *)
Definition cb_events (reason : ConnectionCloseReason) (s : ws) : list ws_event :=
  match reason with
  | FAIL => if failCb_ s then [EvFailCb] else []
  | CLOSE_REASON => if closeCb_ s then [EvCloseCb] else []
  end.

Lemma OnConnectionClose_eq reason s :
  OnConnectionClose reason s =
  Ret () (mkWs (connectionState_ s) (connectionFd_ s) (closeCb_ s) (failCb_ s) (rx s) (tx s)
            (sent s) (rng s) (trace s ++ cb_events reason s)).
Proof.
  unfold OnConnectionClose, m_modify, cb_events, log. destruct s as [st fd c f r t sn rg tr].
  destruct reason; cbn [failCb_ closeCb_]; [destruct f|destruct c]; by rewrite ?app_nil_r.
Qed.

Lemma CloseConnectionSocket_closing reason s :
  connectionState_ s = CLOSING →
  CloseConnectionSocket reason s =
  Ret () (mkWs CLOSED (-1) (closeCb_ s) (failCb_ s) (rx s) (tx s) (sent s) (rng s)
      (trace s ++ cb_events reason s ++ [EvShutdown (connectionFd_ s); EvClose (connectionFd_ s)])).
Proof.
  intros Hs. unfold CloseConnectionSocket.
  erewrite m_bind_ret by apply OnConnectionClose_eq.
  erewrite m_bind_ret by reflexivity. erewrite m_bind_ret by reflexivity.
  unfold CompareExchangeConnectionState, m_bind.
  rewrite decide_True by done. unfold m_ret. f_equal.
  unfold set_state, set_fd, log. cbn [connectionState_ connectionFd_ closeCb_ failCb_ rx tx sent rng trace].
  by rewrite <- !app_assoc.
Qed.

(** From [OPEN], [CloseConnection] sends the close frame, runs the close
    callback once and closes the socket once. *)
Lemma CloseConnection_open status s :
  connectionState_ s = OPEN →
  ∃ tx' out r w,
    CloseConnection status s =
    Ret true (mkWs CLOSED (-1) (closeCb_ s) (failCb_ s) (rx s) tx' (sent s ++ out) r
      (trace s ++ cb_events CLOSE_REASON s
       ++ [EvShutdown (connectionFd_ s); EvClose (connectionFd_ s)])) ∧
    CreateFrame true CLOSE (CloseStatusCode_ToString status) (set_state CLOSING s) =
      Ret w (set_rng r (set_state CLOSING s)) ∧
    out `prefix_of` w.
Proof.
  intros Ho.
  destruct (SendCloseFrame_total status (set_state CLOSING s)) as (tx' & out & r & w & Es & Ew & Hp).
  exists tx', out, r, w. split; [|done]. unfold CloseConnection.
  erewrite m_bind_ret; [|unfold CompareExchangeConnectionState; by rewrite decide_True].
  cbn [fst]. erewrite m_bind_ret by exact Es.
  erewrite m_bind_ret by (by apply CloseConnectionSocket_closing). done.
Qed.

Lemma CloseConnection_not_open status s :
  connectionState_ s ≠ OPEN → CloseConnection status s = Ret false s.
Proof.
  intros Ho. unfold CloseConnection, CompareExchangeConnectionState, m_bind.
  by rewrite decide_False by done.
Qed.

(** ** The connection after [Decode] *)

(** The connection was closed exactly once: the close callback ran, then the
    socket was shut down and closed. *)
Definition closed_after (s s' : ws) : Prop :=
  connectionState_ s' = CLOSED ∧ connectionFd_ s' = -1 ∧
  trace s' = trace s ++ cb_events CLOSE_REASON s
             ++ [EvShutdown (connectionFd_ s); EvClose (connectionFd_ s)].

Lemma io_create fin op p : io (CreateFrame fin op p).
Proof.
  intros s. destruct (CreateFrame_total fin op p s) as (w & r & ->). by repeat split.
Qed.
Hint Resolve io_create : ark.

Lemma io_read_payload f : io (ReadPayload f).
Proof.
  unfold ReadPayload. repeat case_match; auto with ark;
    (apply io_bind; [auto with ark|intros []; auto with ark]).
Qed.
Hint Resolve io_read_payload : ark.

Lemma io_pong p : io (SendPongFrame p).
Proof. unfold SendPongFrame. auto with ark. Qed.
Hint Resolve io_pong : ark.

Lemma CloseConnection_closes status s1 s2 :
  connectionState_ s1 = OPEN → io_only s1 s2 →
  ∃ s', CloseConnection status s2 = Ret true s' ∧ closed_after s1 s'.
Proof.
  intros Ho (E1 & E2 & E3 & E4 & E5). rewrite Ho in E1.
  destruct (CloseConnection_open status s2 E1) as (tx' & out & r & w & -> & _).
  eexists. split; [done|]. unfold closed_after, cb_events. cbn. rewrite E2, E3, E5. done.
Qed.

(** The handler of a frame only does input and output, or it is the one of a
    close frame and has closed the connection. *)
Lemma HandleControlFrame_cases f s :
  connectionState_ s = OPEN →
  (io_only s (out_state (HandleControlFrame f s)) ∨
   ∃ s', HandleControlFrame f s = Ret (true, f) s' ∧ closed_after s s' ∧
         opcode f = EnumToNumber CLOSE).
Proof.
  intros Ho. unfold HandleControlFrame. destruct (opcode f =? EnumToNumber PING); [left|].
  { revert s Ho. intros s _. revert s. apply io_bind; [auto with ark|].
    intros [[] f']; [|auto with ark]. apply io_bind; auto with ark. }
  destruct (Z.eqb_spec (opcode f) (EnumToNumber CLOSE)) as [Hc|]; [right|left; reflexivity].
  destruct (CloseConnection_closes NO_STATUS_CODE s s Ho) as (s' & E & H'); [done|].
  exists s'. by erewrite m_bind_ret by exact E.
Qed.

Lemma Decode_cases s :
  connectionState_ s = OPEN →
  match Decode s with
  | Ret m s' =>
      io_only s s' ∨ (closed_after s s' ∧ (m = DECODE_DISCONNECT_MSG ∨ m = []))
  | Block s' | Throw s' => io_only s s'
  end.
Proof.
  intros Ho. unfold Decode. erewrite m_bind_ret by reflexivity. rewrite decide_True by done.
  pose proof (io_recv HEADER_LEN s) as Hr. unfold m_bind at 1.
  destruct (RecvUnderLock HEADER_LEN s) as [[buf|] s1| |]; [|..|done|done]; cbn [out_state] in Hr.
  2:{ destruct (CloseConnection_closes UNEXPECTED_ERROR s s1 Ho Hr) as (s' & E & H').
      erewrite m_bind_ret by exact E. right. auto. }
  assert (Ho1 : connectionState_ s1 = OPEN) by (destruct Hr as [-> _]; done).
  assert (Hfail : ∀ s2, io_only s s2 →
    match m_bind (λ _, m_ret DECODE_DISCONNECT_MSG) (CloseConnection PROTOCOL_ERROR) s2 with
    | Ret m s' => io_only s s' ∨ (closed_after s s' ∧ (m = DECODE_DISCONNECT_MSG ∨ m = []))
    | Block s' | Throw s' => io_only s s'
    end).
  { intros s2 H2. destruct (CloseConnection_closes PROTOCOL_ERROR s s2 Ho H2) as (s' & E & H').
    erewrite m_bind_ret by exact E. right. auto. }
  cbv beta zeta iota. set (f := WebSocketFrame_of_header buf).
  destruct (ValidateIncomingFrame f); [|by apply Hfail].
  assert (Hio : ∀ o : outcome ws (bool * WebSocketFrame), io_only s1 (out_state o) →
    match (match o with
           | Ret (ok, f) s' => (if ok then m_ret (payload f)
              else m_bind (λ _, m_ret DECODE_DISCONNECT_MSG) (CloseConnection PROTOCOL_ERROR)) s'
           | Block s' => Block s' | Throw s' => Throw s' end) with
    | Ret m s' => io_only s s' ∨ (closed_after s s' ∧ (m = DECODE_DISCONNECT_MSG ∨ m = []))
    | Block s' | Throw s' => io_only s s'
    end).
  { intros o H1. assert (H2 : io_only s (out_state o)) by (etransitivity; eassumption).
    destruct o as [[[] f'] s'| |]; [by left|by apply Hfail|done|done]. }
  unfold m_bind at 1. destruct (IsControlFrame (opcode f)).
  - destruct (HandleControlFrame_cases f s1 Ho1) as [H1|(s' & E & H' & _)].
    { specialize (Hio _ H1). by destruct (HandleControlFrame f s1) as [[??]?| |]. }
    rewrite E. right. split; [|by right].
    destruct H' as (? & ? & Ht), Hr as (E1 & E2 & E3 & E4 & E5).
    unfold closed_after, cb_events in *. split_and!; [done..|]. by rewrite Ht, E2, E3, E5.
  - assert (H1 : io_only s1 (out_state (HandleDataFrame f s1))).
    { unfold HandleDataFrame. case_match; [apply io_read_payload|reflexivity]. }
    specialize (Hio _ H1). by destruct (HandleDataFrame f s1) as [[??]?| |].
Qed.

End ImplLemmas.
