(* ===== verification/WsEndpoints.v ===== *)
(** * The frame methods of the two endpoints

    Models the methods [ValidateIncomingFrame], [CreateFrame] and
    [DecodeMessage] that [WebSocketServer] (websocket/server/websocket_server.cpp)
    and [WebSocketClient] (websocket/client/websocket_client.{h,cpp}) override,
    as instances of [WebSocketImpl], and discharges [WebSocketImplOK]: each
    endpoint reads what the other one's frame builder writes. *)

From S2P Require Import Prelude WsFrame Network WsBase.
Local Open Scope Z_scope.
Local Open Scope ark_scope.

(** ** WebSocketServer *)

Definition server_ValidateIncomingFrame (wsFrame : WebSocketFrame) : bool := mask wsFrame =? 1.

Definition server_CreateFrame (isLast : bool) (frameType : FrameType) (p : bytes) : M ws bytes :=
  let builder := new_ServerFrameBuilder isLast frameType in
  m_ret (ServerBuild (SetPayload builder p)).

Definition server_DecodeMessage `{Platform} (wsFrame : WebSocketFrame)
    : M ws (bool * WebSocketFrame) :=
  let msgLen := payloadLen wsFrame in
  if msgLen =? 0 then m_ret (true, wsFrame) else
  resize_buffer msgLen ;;;
  let wsFrame := set_payload wsFrame (replicate (Z.to_nat msgLen) 0) in
  k <-- RecvUnderLock MASK_LEN ;;
  match k with
  | None => m_ret (false, wsFrame)
  | Some key =>
      let wsFrame := set_maskingKey wsFrame key in
      b <-- RecvStringUnderLock msgLen ;;
      match b with
      | None => m_ret (false, set_payload wsFrame [])
      | Some buffer => m_ret (true, set_payload wsFrame (xor_mask key 0 buffer))
      end
  end.

Definition WebSocketServer `{Platform} : WebSocketImpl := {|
  ValidateIncomingFrame := server_ValidateIncomingFrame;
  CreateFrame := server_CreateFrame;
  DecodeMessage := server_DecodeMessage |}.

(** ** WebSocketClient *)

Definition client_ValidateIncomingFrame (wsFrame : WebSocketFrame) : bool := mask wsFrame =? 0.

(** [GenerateMaskKey]: four bytes drawn from the random source (a source that
    ran dry yields zeros). *)
Definition GenerateMaskKey : M ws bytes :=
  λ s, Ret ((λ i, u8 (rd (rng s) i)) <$> [0; 1; 2; 3]) (set_rng (drop 4 (rng s)) s).

Definition client_CreateFrame (isLast : bool) (frameType : FrameType) (p : bytes) : M ws bytes :=
  key <-- GenerateMaskKey ;;
  let builder := new_ClientFrameBuilder isLast frameType key in
  m_ret (ClientBuild (mkClientBuilder (SetPayload (base_ builder) p) (maskingKey_ builder))).

Definition client_DecodeMessage `{Platform} (wsFrame : WebSocketFrame)
    : M ws (bool * WebSocketFrame) :=
  let msgLen := payloadLen wsFrame in
  if msgLen =? 0 then m_ret (true, wsFrame) else
  resize_buffer msgLen ;;;
  b <-- RecvStringUnderLock msgLen ;;
  match b with
  | None => m_ret (false, set_payload wsFrame [])
  | Some buffer => m_ret (true, set_payload wsFrame buffer)
  end.

Definition WebSocketClient `{Platform} : WebSocketImpl := {|
  ValidateIncomingFrame := client_ValidateIncomingFrame;
  CreateFrame := client_CreateFrame;
  DecodeMessage := client_DecodeMessage |}.

(** ** The endpoints keep their promise *)

(** What the client library sends for a frame, for some random key. *)
Definition client_frame (fin : bool) (op : FrameType) (p w : bytes) : Prop :=
  ∃ key, length key = 4%nat ∧
    w = ClientBuild (mkClientBuilder (SetPayload (new_ServerFrameBuilder fin op) p) key).

Definition client_body (p body : bytes) : Prop :=
  ∃ key, length key = 4%nat ∧ body = key ++ xor_mask key 0 p.

Definition server_frame (fin : bool) (op : FrameType) (p w : bytes) : Prop :=
  w = ServerBuild (SetPayload (new_ServerFrameBuilder fin op) p).

Section Endpoints.
Context `{Platform}.

Lemma resize_buffer_fits n s : n ≤ string_max_size → resize_buffer n s = Ret () s.
Proof. intros. unfold resize_buffer. by replace (_ <=? _) with true by lia. Qed.

Lemma server_DecodeMessage_body p body rest f s :
  client_body p body → p ≠ [] → Z.of_nat (length p) ≤ string_max_size →
  0 ≤ connectionFd_ s → good (rx s) → flat (rx s) = body ++ rest →
  payloadLen f = Z.of_nat (length p) →
  ∃ f' rx', server_DecodeMessage f s = Ret (true, f') (set_rx rx' s) ∧
    payload f' = p ∧ good rx' ∧ flat rx' = rest.
Proof.
  intros (key & Hk & ->) Hne Hmax Hfd Hg Hflat Hlen. unfold server_DecodeMessage. rewrite Hlen.
  assert (Hnz : Z.of_nat (length p) ≠ 0) by (destruct p; [done|cbn; lia]).
  rewrite (proj2 (Z.eqb_neq _ _) Hnz). erewrite m_bind_ret by (by apply resize_buffer_fits).
  rewrite <- app_assoc in Hflat.
  destruct (RecvUnderLock_good MASK_LEN key (xor_mask key 0 p ++ rest) s)
    as (rx1 & E1 & Hg1 & Hf1); [done..|by rewrite Hk|].
  erewrite m_bind_ret by exact E1. cbv beta zeta iota.
  destruct (RecvStringUnderLock_good (Z.of_nat (length p)) (xor_mask key 0 p) rest (set_rx rx1 s))
    as (rx2 & E2 & Hg2 & Hf2);
    [by destruct p|done|done|done|by rewrite xor_mask_length|].
  erewrite m_bind_ret by exact E2. eexists _, rx2. split_and!; [done| |done|done].
  cbn. apply xor_mask_involutive.
Qed.

Lemma client_DecodeMessage_body p body rest f s :
  body = p → p ≠ [] → Z.of_nat (length p) ≤ string_max_size →
  0 ≤ connectionFd_ s → good (rx s) → flat (rx s) = body ++ rest →
  payloadLen f = Z.of_nat (length p) →
  ∃ f' rx', client_DecodeMessage f s = Ret (true, f') (set_rx rx' s) ∧
    payload f' = p ∧ good rx' ∧ flat rx' = rest.
Proof.
  intros -> Hne Hmax Hfd Hg Hflat Hlen. unfold client_DecodeMessage. rewrite Hlen.
  assert (Hnz : Z.of_nat (length p) ≠ 0) by (destruct p; [done|cbn; lia]).
  rewrite (proj2 (Z.eqb_neq _ _) Hnz). erewrite m_bind_ret by (by apply resize_buffer_fits).
  destruct (RecvStringUnderLock_good (Z.of_nat (length p)) p rest s)
    as (rx2 & E2 & Hg2 & Hf2); [done..|].
  erewrite m_bind_ret by exact E2. by eexists _, rx2.
Qed.

Lemma client_frame_header fin op p w :
  client_frame fin op p w → Z.of_nat (length p) < 2 ^ 64 →
  ∃ h0 h1 body, w = [h0; h1] ++ ext_len (Z.of_nat (length p)) ++ body ∧
    opcode (WebSocketFrame_of_header [h0; h1]) = EnumToNumber op ∧
    payloadLen (WebSocketFrame_of_header [h0; h1]) = len_field (Z.of_nat (length p)) ∧
    server_ValidateIncomingFrame (WebSocketFrame_of_header [h0; h1]) = true ∧
    client_body p body.
Proof.
  intros (key & Hk & ->) Hlen. rewrite ClientBuild_shape by done. cbn [SetPayload payload_ fin_ opcode_].
  destruct (first_byte_fields fin op) as (E1 & _).
  destruct (len_field_fields (Z.of_nat (length p))) as (_ & _ & E2 & E3 & _); [lia|].
  eexists _, _, _. split; [done|]. split_and!; [exact E1|exact E2| |by exists key].
  unfold server_ValidateIncomingFrame. apply Z.eqb_eq. exact E3.
Qed.

Lemma server_frame_header fin op p w :
  server_frame fin op p w → Z.of_nat (length p) < 2 ^ 64 →
  ∃ h0 h1 body, w = [h0; h1] ++ ext_len (Z.of_nat (length p)) ++ body ∧
    opcode (WebSocketFrame_of_header [h0; h1]) = EnumToNumber op ∧
    payloadLen (WebSocketFrame_of_header [h0; h1]) = len_field (Z.of_nat (length p)) ∧
    client_ValidateIncomingFrame (WebSocketFrame_of_header [h0; h1]) = true ∧
    body = p.
Proof.
  intros -> Hlen. rewrite ServerBuild_shape by done. cbn [SetPayload payload_ fin_ opcode_].
  destruct (first_byte_fields fin op) as (E1 & _).
  destruct (len_field_fields (Z.of_nat (length p))) as (E2 & E3 & _); [lia|].
  eexists _, _, _. split; [done|]. split_and!; [exact E1|exact E2| |done].
  unfold client_ValidateIncomingFrame. apply Z.eqb_eq. exact E3.
Qed.

Lemma client_CreateFrame_eq fin op p s :
  client_CreateFrame fin op p s =
  Ret (ClientBuild (mkClientBuilder (SetPayload (new_ServerFrameBuilder fin op) p)
         ((λ i, u8 (rd (rng s) i)) <$> [0; 1; 2; 3])))
      (set_rng (drop 4 (rng s)) s).
Proof. done. Qed.

(** What [client_CreateFrame] sends is a client frame. *)
Lemma client_CreateFrame_frame fin op p s :
  ∃ w r, client_CreateFrame fin op p s = Ret w (set_rng r s) ∧ client_frame fin op p w.
Proof. rewrite client_CreateFrame_eq. eexists _, _. split; [done|].
  exists ((λ i, u8 (rd (rng s) i)) <$> [0; 1; 2; 3]). done.
Qed.

End Endpoints.

#[export] Instance WebSocketServer_OK `{Platform} : WebSocketImplOK WebSocketServer.
Proof.
  refine {| peer_frame := client_frame; peer_body := client_body |}.
  - apply client_frame_header.
  - apply server_DecodeMessage_body.
  - intros. by exists (ServerBuild (SetPayload (new_ServerFrameBuilder fin op) p)), (rng s); destruct s.
  - intros f. simpl. unfold server_DecodeMessage. case_match; [auto with ark|].
    apply io_bind; [auto with ark|]. intros _.
    apply io_bind; [auto with ark|]. intros []; [|auto with ark].
    apply io_bind; [auto with ark|]. intros []; auto with ark.
Defined.

#[export] Instance WebSocketClient_OK `{Platform} : WebSocketImplOK WebSocketClient.
Proof.
  refine {| peer_frame := server_frame; peer_body := λ p body, body = p |}.
  - apply server_frame_header.
  - apply client_DecodeMessage_body.
  - intros. eexists _, _. apply client_CreateFrame_eq.
  - intros f. simpl. unfold client_DecodeMessage. case_match; [auto with ark|].
    apply io_bind; [auto with ark|]. intros _.
    apply io_bind; [auto with ark|]. intros []; auto with ark.
Defined.
