(* ===== verification/WsLink.v ===== *)
(** * Two connected endpoints

    What one endpoint sends with [SendReply] the other one gets from [Decode]:
    the class [Sends] states that the frames an implementation creates are the
    frames its peer understands, and the stream theorems are proved against it
    for both directions. The second half holds the properties of closing and
    of the frames that [Decode] does not read to their end. *)

From S2P Require Import Prelude WsFrame Network WsBase WsEndpoints.
Local Open Scope Z_scope.
Local Open Scope ark_scope.

(** [A] creates frames that [B] understands. *)
Class Sends `{Platform} (A B : WebSocketImpl) {okB : WebSocketImplOK B} :=
  creates_peer_frame : ∀ fin op p s,
    ∃ w r, @CreateFrame A fin op p s = Ret w (set_rng r s) ∧ peer_frame fin op p w ∧ w ≠ [].

(** [SendReply] of every text message of the list, in order, stopping at the
    first one that fails. *)
Fixpoint send_texts {A : WebSocketImpl} (ms : list bytes) : M ws bool :=
  match ms with
  | [] => m_ret true
  | m :: ms' =>
      ok <-- SendReply m TEXT true ;;
      if (ok : bool) then send_texts ms' else m_ret false
  end.

(** [n] successive calls of [Decode]. *)
Fixpoint decode_texts {B : WebSocketImpl} (n : nat) : M ws (list bytes) :=
  match n with
  | O => m_ret []
  | S n' => m <-- Decode ;; ms <-- decode_texts n' ;; m_ret (m :: ms)
  end.

(** A message that one frame can carry and the receiver can hold. *)
Definition sendable `{Platform} (m : bytes) : Prop :=
  m ≠ [] ∧ Z.of_nat (length m) ≤ string_max_size.

Section Link.
Context `{Platform} {A B : WebSocketImpl} {okB : WebSocketImplOK B} {link : Sends A B}.

Lemma SendUnderLock_true w s s' :
  w ≠ [] → SendUnderLock w s = Ret true s' → sent s' = sent s ++ w.
Proof.
  intros Hw. unfold SendUnderLock. destruct (_ <? 0).
  { intros [= E _]. by apply bool_decide_eq_true in E. }
  pose proof (Send_loop_spec (tx s) w []) as HS. unfold Send.
  destruct (Send_loop (tx s) w []) as [[ok out] tx']. destruct HS as (o & -> & _ & Hok).
  intros [= -> <-]. cbn. by rewrite Hok.
Qed.

(** A successful [SendReply] puts one frame of the message on the wire. *)
Lemma SendReply_true m op last s s' :
  SendReply (impl := A) m op last s = Ret true s' →
  ∃ w, peer_frame last op m w ∧ sent s' = sent s ++ w.
Proof.
  unfold SendReply. erewrite m_bind_ret by reflexivity. case_decide; [|done].
  destruct (creates_peer_frame last op m s) as (w & r & E & Hp & Hw).
  erewrite m_bind_ret by exact E. intros Hs%SendUnderLock_true; [|done]. by exists w.
Qed.

Lemma send_texts_wire ms : ∀ s s',
  send_texts (A := A) ms s = Ret true s' →
  ∃ ws, Forall2 (peer_frame true TEXT) ms ws ∧ sent s' = sent s ++ concat ws.
Proof.
  induction ms as [|m ms IH]; intros s s'; cbn [send_texts].
  - intros [= <-]. exists []. by rewrite app_nil_r.
  - unfold m_bind. destruct (SendReply m TEXT true s) as [[] s1| |] eqn:E1; [|done..].
    intros Hr. apply SendReply_true in E1 as (w & Hw & Hs1).
    destruct (IH _ _ Hr) as (ws & Hws & Hs'). exists (w :: ws).
    split; [by constructor|]. rewrite Hs', Hs1, <- app_assoc. done.
Qed.

Lemma decode_texts_frames ms ws rest : ∀ s,
  Forall2 (peer_frame true TEXT) ms ws → Forall sendable ms →
  connectionState_ s = OPEN → 0 ≤ connectionFd_ s → good (rx s) →
  flat (rx s) = concat ws ++ rest →
  ∃ rx', decode_texts (B := B) (length ms) s = Ret ms (set_rx rx' s) ∧ good rx' ∧ flat rx' = rest.
Proof.
  intros s HF. revert s. induction HF as [|m w ms ws Hw _ IH]; intros s Hok Ho Hfd Hg Hflat.
  - exists (rx s). by rewrite set_rx_id.
  - apply Forall_cons in Hok as [[Hne Hmax] Hok]. cbn [concat] in Hflat. rewrite <- app_assoc in Hflat.
    destruct (Decode_text true m w (concat ws ++ rest) s) as (rx1 & E1 & Hg1 & Hf1); [done..|].
    destruct (IH (set_rx rx1 s)) as (rx' & E' & Hg' & Hf'); [done..|].
    exists rx'. split_and!; [|done|done]. cbn [length decode_texts].
    erewrite m_bind_ret by exact E1. by erewrite m_bind_ret by exact E'.
Qed.

(** The stream theorem for any pair of linked endpoints. *)
Lemma texts_roundtrip ms wire rest sa sa' sb :
  Forall sendable ms →
  send_texts (A := A) ms sa = Ret true sa' → sent sa' = sent sa ++ wire →
  connectionState_ sb = OPEN → 0 ≤ connectionFd_ sb → good (rx sb) →
  flat (rx sb) = wire ++ rest →
  ∃ rx', decode_texts (B := B) (length ms) sb = Ret ms (set_rx rx' sb) ∧
    good rx' ∧ flat rx' = rest.
Proof.
  intros Hok Hs Hw Ho Hfd Hg Hflat. apply send_texts_wire in Hs as (ws & HF & Hs).
  rewrite Hw in Hs. apply app_inv_head in Hs as ->. by apply (decode_texts_frames ms ws).
Qed.

(** A ping is answered on the wire by a prefix of the pong frame of its
    payload, the whole of it when the kernel takes it. *)
Lemma ping_roundtrip fin p w rest s :
  peer_frame fin PING p w → sendable p →
  connectionState_ s = OPEN → 0 ≤ connectionFd_ s → good (rx s) → tx s = [] →
  flat (rx s) = w ++ rest →
  ∃ s' pong r, Decode s = Ret p s' ∧
    CreateFrame true PONG p (set_rx (rx s') s) = Ret pong r ∧
    sent s' = sent s ++ pong ∧ good (rx s') ∧ flat (rx s') = rest ∧
    connectionState_ s' = OPEN.
Proof.
  intros Hp [Hne Hmax] Ho Hfd Hg Htx Hflat.
  destruct (Decode_ping fin p w rest s)
    as (rx' & r & pong & ok & out & tx' & Ec & Es & E & Hg' & Hf'); [done..|].
  rewrite Htx in Es. assert (out = pong) as ->.
  { unfold Send in Es. destruct pong; simpl in Es; congruence. }
  eexists _, pong, _. split_and!; [exact E|exact Ec|done..].
Qed.

End Link.

#[export] Instance client_sends `{Platform} : Sends WebSocketClient WebSocketServer.
Proof.
  intros fin op p s. destruct (client_CreateFrame_frame fin op p s) as (w & r & E & Hf).
  exists w, r. split_and!; [done..|]. destruct Hf as (k & _ & ->). apply ClientBuild_nonempty.
Defined.

#[export] Instance server_sends `{Platform} : Sends WebSocketServer WebSocketClient.
Proof.
  intros fin op p s. exists (ServerBuild (SetPayload (new_ServerFrameBuilder fin op) p)), (rng s).
  split_and!; [by destruct s|done|apply ServerBuild_nonempty].
Defined.

(** ** Properties *)

(** A platform for the witnesses: strings of up to 2^32 bytes. *)
Definition demo_platform : Platform :=
  {| string_max_size := 2 ^ 32; string_max_size_64 := conj eq_refl eq_refl |}.

(** A connected endpoint for the witnesses, with the bytes [b] to receive. *)
Definition open_ws (b : list recv_ev) : ws := mkWs OPEN 5 true true b [] [] [7; 8; 9; 10; 11] [].

(** C3: text messages sent by the client library arrive at the server as they
    were sent: after a successful [SendReply] of every message of a list, as
    many calls of the server's [Decode] on the resulting byte stream return
    exactly these messages in order and leave the bytes behind them, whatever
    masking keys the client draws and however the kernel splits the stream. The
    messages are not empty (an empty text is another matter, see
    [server_empty_frame_leaves_key]) and no longer than a string of the platform
    can be; the server is in state OPEN with a valid descriptor; and its stream
    holds what the client has sent, neither failing nor ending before that. *)
Theorem client_to_server_texts `{Platform} (ms : list bytes) (wire rest : bytes) (sc sc' ss : ws) :
  Forall sendable ms →
  send_texts (A := WebSocketClient) ms sc = Ret true sc' → sent sc' = sent sc ++ wire →
  connectionState_ ss = OPEN → 0 ≤ connectionFd_ ss → good (rx ss) →
  flat (rx ss) = wire ++ rest →
  ∃ rx', decode_texts (B := WebSocketServer) (length ms) ss = Ret ms (set_rx rx' ss) ∧
    good rx' ∧ flat rx' = rest.
Proof. apply texts_roundtrip. Qed.

Lemma client_to_server_texts_witness :
  let _ := demo_platform in
  ∃ rx', decode_texts (B := WebSocketServer) 2
    (open_ws [RData [129; 130; 7]; RRetry; RData [8; 9; 10; 111; 97; 129];
              RData [129; 11; 0; 0; 0; 106; 1]]) =
    Ret [str "hi"; str "a"] (set_rx rx' (open_ws [])) ∧ good rx' ∧ flat rx' = [1].
Proof.
  intros P.
  apply (client_to_server_texts [str "hi"; str "a"]
    [129; 130; 7; 8; 9; 10; 111; 97; 129; 129; 11; 0; 0; 0; 106] [1]
    (open_ws []) (mkWs OPEN 5 true true [] []
       [129; 130; 7; 8; 9; 10; 111; 97; 129; 129; 11; 0; 0; 0; 106] [] [])
    (open_ws [RData [129; 130; 7]; RRetry; RData [8; 9; 10; 111; 97; 129];
              RData [129; 11; 0; 0; 0; 106; 1]]));
    [repeat constructor; done|reflexivity|reflexivity|reflexivity|done|repeat constructor; done|reflexivity].
Defined.

(** The same for the messages the server sends to the client library. *)
Theorem server_to_client_texts `{Platform} (ms : list bytes) (wire rest : bytes) (ss ss' sc : ws) :
  Forall sendable ms →
  send_texts (A := WebSocketServer) ms ss = Ret true ss' → sent ss' = sent ss ++ wire →
  connectionState_ sc = OPEN → 0 ≤ connectionFd_ sc → good (rx sc) →
  flat (rx sc) = wire ++ rest →
  ∃ rx', decode_texts (B := WebSocketClient) (length ms) sc = Ret ms (set_rx rx' sc) ∧
    good rx' ∧ flat rx' = rest.
Proof. apply texts_roundtrip. Qed.

Lemma server_to_client_texts_witness :
  let _ := demo_platform in
  ∃ rx', decode_texts (B := WebSocketClient) 2
    (open_ws [RData [129; 2; 104]; RRetry; RData [105; 129; 1]; RData [97]]) =
    Ret [str "hi"; str "a"] (set_rx rx' (open_ws [])) ∧ good rx' ∧ flat rx' = [].
Proof.
  intros P.
  apply (server_to_client_texts [str "hi"; str "a"] [129; 2; 104; 105; 129; 1; 97] []
    (open_ws []) (mkWs OPEN 5 true true [] [] [129; 2; 104; 105; 129; 1; 97] [7; 8; 9; 10; 11] [])
    (open_ws [RData [129; 2; 104]; RRetry; RData [105; 129; 1]; RData [97]]));
    [repeat constructor; done|reflexivity|reflexivity|reflexivity|done|repeat constructor; done|reflexivity].
Defined.

(** A client ping with a non-empty payload is answered by the server with
    the pong frame of the same payload, nothing else is written, and the
    stream stands at the next frame. *)
Theorem server_answers_ping `{Platform} (fin : bool) (p w rest : bytes) (s : ws) :
  client_frame fin PING p w → sendable p →
  connectionState_ s = OPEN → 0 ≤ connectionFd_ s → good (rx s) → tx s = [] →
  flat (rx s) = w ++ rest →
  ∃ s', Decode (impl := WebSocketServer) s = Ret p s' ∧
    sent s' = sent s ++ ServerBuild (SetPayload (new_ServerFrameBuilder true PONG) p) ∧
    good (rx s') ∧ flat (rx s') = rest ∧ connectionState_ s' = OPEN.
Proof.
  intros Hf Hs Ho Hfd Hg Htx Hflat.
  destruct (ping_roundtrip (B := WebSocketServer) fin p w rest s)
    as (s' & pong & r & E & Ec & Hsent & ?); [done..|].
  exists s'. cbn in Ec. unfold server_CreateFrame, m_ret in Ec. injection Ec as <- _. done.
Qed.

Lemma server_answers_ping_witness :
  let _ := demo_platform in
  ∃ s', Decode (impl := WebSocketServer)
          (open_ws [RData [137; 130; 1; 2; 3; 4]; RData [105; 107; 42]]) = Ret (str "hi") s' ∧
    sent s' = [] ++ [138; 2; 104; 105] ∧
    good (rx s') ∧ flat (rx s') = [42] ∧ connectionState_ s' = OPEN.
Proof.
  intros P.
  apply (server_answers_ping true (str "hi") [137; 130; 1; 2; 3; 4; 105; 107] [42]
           (open_ws [RData [137; 130; 1; 2; 3; 4]; RData [105; 107; 42]]));
    [by exists [1; 2; 3; 4]|done|done|done|repeat constructor; done|done|reflexivity].
Defined.

(** [Decode] on an open connection closes it at most once. It either only
    does input and output, so that the connection state, the descriptor and
    the callback trace are those of before, or it returns with the connection
    [CLOSED] and the descriptor cleared, after exactly one run of the close
    callback, one shutdown and one close of the socket, and the message tells
    no payload. A blocked or throwing call has not closed anything. *)
Theorem server_decode_closes_once `{Platform} (s : ws) :
  connectionState_ s = OPEN →
  match Decode (impl := WebSocketServer) s with
  | Ret m s' => io_only s s' ∨ (closed_after s s' ∧ (m = DECODE_DISCONNECT_MSG ∨ m = []))
  | Block s' | Throw s' => io_only s s'
  end.
Proof. apply Decode_cases. Qed.

Lemma server_decode_closes_once_witness :
  let _ := demo_platform in
  io_only (open_ws [RFail]) (mkWs CLOSED (-1) true true [] [] [136; 2; 3; 243] [7; 8; 9; 10; 11]
     [EvCloseCb; EvShutdown 5; EvClose 5]) ∨
  closed_after (open_ws [RFail]) (mkWs CLOSED (-1) true true [] [] [136; 2; 3; 243] [7; 8; 9; 10; 11]
     [EvCloseCb; EvShutdown 5; EvClose 5]) ∧
  (DECODE_DISCONNECT_MSG = DECODE_DISCONNECT_MSG ∨ DECODE_DISCONNECT_MSG = []).
Proof. intros P. exact (server_decode_closes_once (open_ws [RFail]) eq_refl). Defined.

(** Closing is idempotent: whatever the status codes, a second
    [CloseConnection] returns false and does nothing, so an open connection is
    closed, and its close callback run, exactly once. *)
Theorem close_connection_once `{Platform} (st1 st2 : CloseStatusCode) (s : ws) :
  connectionState_ s = OPEN →
  ∃ s1, CloseConnection (impl := WebSocketServer) st1 s = Ret true s1 ∧ closed_after s s1 ∧
    (∃ out, sent s1 = sent s ++ out ∧
       out `prefix_of` ServerBuild (SetPayload (new_ServerFrameBuilder true CLOSE)
                                      (CloseStatusCode_ToString st1))) ∧
    CloseConnection (impl := WebSocketServer) st2 s1 = Ret false s1.
Proof.
  intros Ho.
  destruct (CloseConnection_open (impl := WebSocketServer) st1 s Ho)
    as (tx' & out & r & w & E & Ew & Hp).
  eexists. split_and!; [exact E|done| |by apply CloseConnection_not_open].
  exists out. split; [done|]. by injection Ew as <- _.
Qed.

Lemma close_connection_once_witness :
  let _ := demo_platform in
  ∃ s1, CloseConnection (impl := WebSocketServer) NORMAL (open_ws []) = Ret true s1 ∧
    closed_after (open_ws []) s1 ∧
    (∃ out, sent s1 = [] ++ out ∧ out `prefix_of` [136; 2; 3; 232]) ∧
    CloseConnection (impl := WebSocketServer) PROTOCOL_ERROR s1 = Ret false s1.
Proof. intros P. exact (close_connection_once NORMAL PROTOCOL_ERROR (open_ws []) eq_refl). Defined.

(** An empty text frame of the client desynchronises the server:
    [DecodeMessage] returns before it reads the masking key, so [Decode]
    answers the empty message and the four key bytes stay in front of the next
    frame. *)
Theorem server_empty_frame_leaves_key `{Platform} (fin : bool) (key rest : bytes) (s : ws) :
  length key = 4%nat →
  connectionState_ s = OPEN → 0 ≤ connectionFd_ s → good (rx s) →
  flat (rx s) = ClientBuild (mkClientBuilder (new_ServerFrameBuilder fin TEXT) key) ++ rest →
  ∃ rx', Decode (impl := WebSocketServer) s = Ret [] (set_rx rx' s) ∧ flat rx' = key ++ rest.
Proof.
  intros Hk Ho Hfd Hg Hflat.
  destruct (Decode_header (impl := WebSocketServer) fin TEXT []
    (ClientBuild (mkClientBuilder (new_ServerFrameBuilder fin TEXT) key)) rest s)
    as (f & rx1 & body & E & Hop & Hpl & Hpay & Hb & Hg1 & Hf1 & Hd); [by exists key|done..|].
  exists rx1. rewrite E, Hop. change (IsControlFrame _) with false. cbv iota.
  change (len_field (Z.of_nat (length []))) with 0 in Hpl.
  unfold HandleDataFrame. rewrite Hop, Z.eqb_refl. unfold ReadPayload. rewrite Hpl. cbv iota.
  cbn [Z.eqb TWO_BYTES_LENTH_ENC EIGHT_BYTES_LENTH_ENC DecodeMessage WebSocketServer].
  split.
  { unfold server_DecodeMessage. rewrite Hpl. unfold m_bind, m_ret. cbn [Z.eqb]. by rewrite Hpay. }
  rewrite Hd. by destruct fin, key as [|? [|? [|? [|? [|]]]]].
Qed.

Lemma server_empty_frame_leaves_key_witness :
  let _ := demo_platform in
  ∃ rx', Decode (impl := WebSocketServer) (open_ws [RData [129; 128; 1; 2; 3; 4; 129]]) =
           Ret [] (set_rx rx' (open_ws [])) ∧ flat rx' = [1; 2; 3; 4; 129].
Proof.
  intros P.
  apply (server_empty_frame_leaves_key true [1; 2; 3; 4] [129]
           (open_ws [RData [129; 128; 1; 2; 3; 4; 129]]));
    [done|done|done|repeat constructor; done|done].
Defined.

(** Of a binary, continuation or pong frame only the two header bytes are
    consumed: the server returns the empty message and the extended length,
    the masking key and the payload are read as the next frame. *)
Theorem server_unhandled_frame_left `{Platform} (fin : bool) (op : FrameType) (p w rest : bytes) (s : ws) :
  op = BINARY ∨ op = CONTINUATION ∨ op = PONG →
  client_frame fin op p w → Z.of_nat (length p) < 2 ^ 64 →
  connectionState_ s = OPEN → 0 ≤ connectionFd_ s → good (rx s) →
  flat (rx s) = w ++ rest →
  ∃ rx', Decode (impl := WebSocketServer) s = Ret [] (set_rx rx' s) ∧
    good rx' ∧ flat rx' = drop 2 (w ++ rest).
Proof. exact (Decode_unread (implOK := WebSocketServer_OK) fin op p w rest s). Qed.

Lemma server_unhandled_frame_left_witness :
  let _ := demo_platform in
  ∃ rx', Decode (impl := WebSocketServer) (open_ws [RData [130; 129; 1; 2; 3; 4; 98]]) =
           Ret [] (set_rx rx' (open_ws [])) ∧ good rx' ∧ flat rx' = [1; 2; 3; 4; 98].
Proof.
  intros P.
  apply (server_unhandled_frame_left true BINARY [99] [130; 129; 1; 2; 3; 4; 98] []
           (open_ws [RData [130; 129; 1; 2; 3; 4; 98]]));
    [by left|by exists [1; 2; 3; 4]|done|done|done|repeat constructor; done|done].
Defined.

(** The length a frame announces is allocated before anything else is
    read: a text header with an eight-byte length above what the process can
    allocate makes the server's [Decode] throw, with the connection still
    open. *)
Theorem server_oversized_length_throws `{Platform} (h0 n : Z) (rest : bytes) (s : ws) :
  u8 (Z.land h0 0xf) = EnumToNumber TEXT → string_max_size < n < 2 ^ 64 →
  connectionState_ s = OPEN → 0 ≤ connectionFd_ s → good (rx s) →
  flat (rx s) = [h0; 0xff] ++ be 8 n ++ rest →
  ∃ s', Decode (impl := WebSocketServer) s = Throw s' ∧ connectionState_ s' = OPEN ∧
    flat (rx s') = rest.
Proof.
  intros Hop Hn Ho Hfd Hg Hflat. pose proof string_max_size_64.
  destruct (RecvUnderLock_good 2 [h0; 0xff] (be 8 n ++ rest) s) as (rx1 & E1 & Hg1 & Hf1); [done..|].
  destruct (RecvUnderLock_good 8 (be 8 n) rest (set_rx rx1 s)) as (rx2 & E2 & Hg2 & Hf2); [done..|].
  exists (set_rx rx2 s). split_and!; [|done|done].
  unfold Decode. erewrite m_bind_ret by reflexivity. rewrite decide_True by done.
  unfold HEADER_LEN. erewrite m_bind_ret by exact E1. cbv beta zeta iota.
  set (f := WebSocketFrame_of_header _). change (ValidateIncomingFrame f) with true. cbv iota.
  assert (Hf : opcode f = EnumToNumber TEXT) by exact Hop.
  rewrite Hf. change (IsControlFrame _) with false. cbv iota. unfold HandleDataFrame.
  rewrite Hf, Z.eqb_refl. unfold ReadPayload. change (payloadLen f) with 127.
  change (127 =? TWO_BYTES_LENTH_ENC) with false. change (127 =? EIGHT_BYTES_LENTH_ENC) with true.
  cbv iota. rewrite m_bind_assoc. unfold EIGHT_BYTES_LENTH. erewrite m_bind_ret by exact E2. cbv beta iota.
  change 8 with (Z.of_nat 8). rewrite <- (app_nil_r (be 8 n)), NetToHostLongLong_be
    by (change (256 ^ Z.of_nat 8) with (2 ^ 64); lia).
  unfold DecodeMessage, WebSocketServer, server_DecodeMessage, resize_buffer, m_bind, set_payloadLen.
  cbn [payloadLen]. replace (n =? 0) with false by lia. by replace (n <=? string_max_size) with false by lia.
Qed.

Lemma server_oversized_length_throws_witness :
  let _ := demo_platform in
  ∃ s', Decode (impl := WebSocketServer)
          (open_ws [RData [129; 255; 0; 0; 1; 0; 0; 0; 0; 0]]) = Throw s' ∧
        connectionState_ s' = OPEN ∧ flat (rx s') = [].
Proof.
  intros P.
  apply (server_oversized_length_throws 129 (2 ^ 40) []
           (open_ws [RData [129; 255; 0; 0; 1; 0; 0; 0; 0; 0]]));
    [done|done|done|done|repeat constructor; done|reflexivity].
Defined.
