(* ===== verification/Regex.v ===== *)
(** * Regular expressions and string search

    The parts of the C++ standard library that websocket/http.cpp uses: whole
    string regular-expression matching ([std::regex_match] in its ECMAScript
    grammar, without the [std::regex] features http.cpp does not use) and the
    search members of [std::string]. The matcher takes derivatives; the
    relation [in_re] is its specification. *)

From S2P Require Import Prelude.
From stdpp Require Import options.
Local Open Scope Z_scope.

(** ** Regular expressions *)

Inductive re :=
| Eps
| Cls (p : Z → bool)
| Cat (r1 r2 : re)
| Alt (r1 r2 : re)
| Star (r : re)
| Nothing.

Inductive in_re : re → bytes → Prop :=
| in_eps : in_re Eps []
| in_cls p c : p c = true → in_re (Cls p) [c]
| in_cat r1 r2 s1 s2 : in_re r1 s1 → in_re r2 s2 → in_re (Cat r1 r2) (s1 ++ s2)
| in_alt_l r1 r2 s : in_re r1 s → in_re (Alt r1 r2) s
| in_alt_r r1 r2 s : in_re r2 s → in_re (Alt r1 r2) s
| in_star_nil r : in_re (Star r) []
| in_star_app r s1 s2 : in_re r s1 → in_re (Star r) s2 → in_re (Star r) (s1 ++ s2).

(** Abbreviations of the grammar: [r?], [r+], a literal string, and a literal
    string under [std::regex_constants::icase]. *)
Definition Opt (r : re) : re := Alt r Eps.
Definition Plus (r : re) : re := Cat r (Star r).
Definition tolower (c : Z) : Z := if (65 <=? c) && (c <=? 90) then c + 32 else c.
Definition Chr (c : Z) : re := Cls (Z.eqb c).
Definition Chr_icase (c : Z) : re := Cls (λ d, tolower c =? tolower d).
Fixpoint Lit (chr : Z → re) (s : bytes) : re :=
  match s with
  | [] => Eps
  | c :: s' => Cat (chr c) (Lit chr s')
  end.
(** [\d] and [.] of the ECMAScript grammar. *)
Definition Digit : re := Cls (λ c, (48 <=? c) && (c <=? 57)).
Definition AnyChar : re := Cls (λ c, negb ((c =? 10) || (c =? 13))).

Fixpoint nullable (r : re) : bool :=
  match r with
  | Eps | Star _ => true
  | Cls _ | Nothing => false
  | Cat r1 r2 => nullable r1 && nullable r2
  | Alt r1 r2 => nullable r1 || nullable r2
  end.

Fixpoint deriv (c : Z) (r : re) : re :=
  match r with
  | Eps | Nothing => Nothing
  | Cls p => if p c then Eps else Nothing
  | Cat r1 r2 =>
      if nullable r1 then Alt (Cat (deriv c r1) r2) (deriv c r2) else Cat (deriv c r1) r2
  | Alt r1 r2 => Alt (deriv c r1) (deriv c r2)
  | Star r => Cat (deriv c r) (Star r)
  end.

Fixpoint regex_match (s : bytes) (r : re) : bool :=
  match s with
  | [] => nullable r
  | c :: s' => regex_match s' (deriv c r)
  end.

(** *** The matcher decides the relation *)

Lemma nullable_spec r : nullable r = true ↔ in_re r [].
Proof.
  split.
  - induction r; simpl; intros E; try done; try by constructor.
    + apply andb_true_iff in E as [E1 E2]. rewrite <- (app_nil_l []). constructor; auto.
    + apply orb_true_iff in E as [E|E]; [apply in_alt_l|apply in_alt_r]; auto.
  - intros Hin. remember [] as s eqn:Es. induction Hin; simpl; try done.
    + apply app_eq_nil in Es as [-> ->]. by rewrite IHHin1, IHHin2.
    + by rewrite IHHin.
    + rewrite IHHin by done. apply orb_true_r.
Qed.

Lemma in_star_cons r c s :
  in_re (Star r) (c :: s) → ∃ s1 s2, s = s1 ++ s2 ∧ in_re r (c :: s1) ∧ in_re (Star r) s2.
Proof.
  intros Hin. remember (Star r) as r' eqn:Er. remember (c :: s) as t eqn:Et.
  revert c s Et. induction Hin as [| | | | | |r0 s1 s2 H1 _ H2 IH]; intros; simplify_eq.
  destruct s1 as [|d s1]; simplify_eq/=.
  - by apply IH.
  - by exists s1, s2.
Qed.

Lemma deriv_spec r : ∀ c s, in_re (deriv c r) s ↔ in_re r (c :: s).
Proof.
  induction r as [|p|r1 IH1 r2 IH2|r1 IH1 r2 IH2|r IH|]; intros c s; simpl.
  - split; inversion 1.
  - destruct (p c) eqn:E; split.
    + inversion 1; subst. by constructor.
    + inversion 1; subst. constructor.
    + inversion 1.
    + inversion 1; congruence.
  - assert (Hcat : in_re (Cat (deriv c r1) r2) s ↔
      ∃ s1 s2, s = s1 ++ s2 ∧ in_re r1 (c :: s1) ∧ in_re r2 s2).
    { split.
      - inversion 1; subst. eexists _, _. split; [done|]. by rewrite <- IH1.
      - intros (s1 & s2 & -> & H1 & H2). constructor; [by apply IH1|done]. }
    split.
    + intros Hin. assert (Hor : in_re (Cat (deriv c r1) r2) s ∨
        (nullable r1 = true ∧ in_re (deriv c r2) s)).
      { destruct (nullable r1); [|by left]. inversion Hin; subst; auto. }
      destruct Hor as [(s1 & s2 & -> & H1 & H2)%Hcat|[Hn H2]].
      * change (c :: s1 ++ s2) with ((c :: s1) ++ s2). by constructor.
      * rewrite <- (app_nil_l (c :: s)). constructor; [by apply nullable_spec|by apply IH2].
    + inversion 1 as [| |? ? s1 s2 H1 H2 E1 E2| | | |]; subst. destruct s1 as [|d s1]; simplify_eq/=.
      * apply nullable_spec in H1 as ->. apply in_alt_r. by apply IH2.
      * assert (in_re (Cat (deriv c r1) r2) (s1 ++ s2)) by (apply Hcat; eauto).
        destruct (nullable r1); [by apply in_alt_l|done].
  - split; inversion 1; subst.
    + apply in_alt_l. by apply IH1.
    + apply in_alt_r. by apply IH2.
    + apply in_alt_l. by apply IH1.
    + apply in_alt_r. by apply IH2.
  - split.
    + inversion 1; subst. change (c :: ?a ++ ?b) with ((c :: a) ++ b). constructor; [by apply IH|done].
    + intros (s1 & s2 & -> & H1 & H2)%in_star_cons. constructor; [by apply IH|done].
  - split; inversion 1.
Qed.

Lemma regex_match_spec s : ∀ r, regex_match s r = true ↔ in_re r s.
Proof.
  induction s as [|c s IH]; intros r; simpl; [apply nullable_spec|]. by rewrite IH, deriv_spec.
Qed.

(** *** Inversion of the abbreviations *)

Lemma in_re_cat r1 r2 s : in_re (Cat r1 r2) s ↔ ∃ s1 s2, s = s1 ++ s2 ∧ in_re r1 s1 ∧ in_re r2 s2.
Proof.
  split; [inversion 1; subst; eauto|]. intros (s1 & s2 & -> & ? & ?). by constructor.
Qed.

Lemma in_re_alt r1 r2 s : in_re (Alt r1 r2) s ↔ in_re r1 s ∨ in_re r2 s.
Proof. split; [inversion 1; auto|]. intros [|]; [by apply in_alt_l|by apply in_alt_r]. Qed.

Lemma in_re_eps s : in_re Eps s ↔ s = [].
Proof. split; [by inversion 1|intros ->; constructor]. Qed.

Lemma in_re_cls p s : in_re (Cls p) s ↔ ∃ c, s = [c] ∧ p c = true.
Proof. split; [inversion 1; eauto|]. intros (c & -> & ?). by constructor. Qed.

Lemma in_re_star_cls p s : in_re (Star (Cls p)) s ↔ Forall (λ c, p c = true) s.
Proof.
  split.
  - intros Hin. remember (Star (Cls p)) as r eqn:Er.
    induction Hin as [| | | | | |r0 s1 s2 H1 _ _ IH]; simplify_eq; [constructor|].
    apply in_re_cls in H1 as (c & -> & Hc). constructor; auto.
  - induction 1 as [|c s Hc _ IH]; [constructor|].
    change (c :: s) with ([c] ++ s). constructor; [by constructor|done].
Qed.

Lemma in_re_plus_cls p s : in_re (Plus (Cls p)) s ↔ s ≠ [] ∧ Forall (λ c, p c = true) s.
Proof.
  unfold Plus. rewrite in_re_cat. split.
  - intros (s1 & s2 & -> & (c & -> & Hc)%in_re_cls & H2%in_re_star_cls). split; [done|by constructor].
  - intros [Hne HF]. destruct s as [|c s]; [done|]. apply Forall_cons in HF as [Hc HF].
    exists [c], s. split_and!; [done|by constructor|by apply in_re_star_cls].
Qed.

Lemma in_re_lit l : ∀ s, in_re (Lit Chr l) s ↔ s = l.
Proof.
  induction l as [|c l IH]; intros s; simpl; [apply in_re_eps|].
  rewrite in_re_cat. split.
  - intros (s1 & s2 & -> & (d & -> & Hd)%in_re_cls & ->%IH). apply Z.eqb_eq in Hd as ->. done.
  - intros ->. exists [c], l. split_and!; [done| |by apply IH]. constructor. apply Z.eqb_refl.
Qed.

Definition lower (s : bytes) : bytes := tolower <$> s.

Lemma in_re_lit_icase l : ∀ s, in_re (Lit Chr_icase l) s ↔ lower s = lower l.
Proof.
  induction l as [|c l IH]; intros s; simpl.
  - rewrite in_re_eps. split; [by intros ->|]. by intros ?%fmap_nil_inv.
  - rewrite in_re_cat. split.
    + intros (s1 & s2 & -> & (d & -> & Hd)%in_re_cls & H2%IH). simpl. by rewrite H2, (proj1 (Z.eqb_eq _ _) Hd).
    + intros E. destruct s as [|d s]; [done|]. simpl in E. injection E as E1 E2.
      exists [d], s. split_and!; [done| |by apply IH]. constructor. by apply Z.eqb_eq.
Qed.

(** ** Searching in strings *)

(** [std::string::find(pat, pos)]; [npos] is [None]. *)
Fixpoint find_from (pat s : bytes) (i : nat) : option nat :=
  if decide (take (length pat) s = pat) then Some i
  else match s with
       | [] => None
       | _ :: s' => find_from pat s' (S i)
       end.

Definition find (s pat : bytes) (pos : nat) : option nat :=
  if decide (pos ≤ length s)%nat then find_from pat (drop pos s) pos else None.

(** [std::string::substr(pos, count)] and, for [count] beyond the end, the
    rest of the string. *)
Definition substr (s : bytes) (pos : nat) (count : option nat) : bytes :=
  match count with
  | Some n => take n (drop pos s)
  | None => drop pos s
  end.

Definition occurs (pat s : bytes) : Prop := ∃ a b, s = a ++ pat ++ b.

Lemma prefix_take (pat s : bytes) : take (length pat) s = pat ↔ ∃ b, s = pat ++ b.
Proof.
  split; [|intros (b & ->); apply take_app_length].
  intros E. exists (drop (length pat) s). by rewrite <- E at 1; rewrite take_drop.
Qed.

Lemma find_from_none pat s : ∀ i, find_from pat s i = None ↔ ¬ occurs pat s.
Proof.
  induction s as [|c s IH]; intros i; simpl; case_decide as Hd.
  - split; [done|]. intros []. apply prefix_take in Hd as (b & ->). by exists [], b.
  - split; [|done]. intros _ (a & b & E). apply Hd. symmetry in E.
    apply app_eq_nil in E as [-> E]. apply app_eq_nil in E as [-> _]. done.
  - split; [done|]. intros []. apply prefix_take in Hd as (b & ->). by exists [], b.
  - rewrite IH. split; intros Hn (a & b & E); apply Hn.
    + destruct a as [|d a]; simplify_eq/=; [|by exists a, b].
      exfalso. apply Hd, prefix_take. by exists b.
    + exists (c :: a), b. by rewrite E.
Qed.

(** The first occurrence after [a]: there is one there and none starts in [a]. *)
Lemma find_from_some a pat b : ∀ i,
  (∀ a1 a2 c, a = a1 ++ a2 → a2 ≠ [] → a2 ++ pat ++ b ≠ pat ++ c) →
  find_from pat (a ++ pat ++ b) i = Some (i + length a)%nat.
Proof.
  induction a as [|c a IH]; intros i Hn.
  - simpl. assert (E : take (length pat) (pat ++ b) = pat) by (rewrite prefix_take; eauto).
    rewrite Nat.add_0_r. destruct (pat ++ b); simpl; by rewrite decide_True.
  - cbn [app find_from]. rewrite decide_False.
    + rewrite IH; [f_equal; simpl; lia|]. intros a1 a2 d -> Hne. by apply (Hn (c :: a1) a2 d).
    + rewrite prefix_take. intros (d & E). by apply (Hn [] (c :: a) d).
Qed.

(** A pattern whose first character is not in [a] is first found behind [a]. *)
Lemma find_from_skip c pat a b i :
  c ∉ a → find_from (c :: pat) (a ++ (c :: pat) ++ b) i = Some (i + length a)%nat.
Proof.
  intros Hc. apply find_from_some. intros a1 a2 d -> Hne E. destruct a2 as [|e a2]; [done|].
  simplify_eq/=. set_solver.
Qed.

(** A pattern without [c] occurs in [x ++ c :: y] only on one side. *)
Lemma occurs_split c pat x y :
  pat ≠ [] → c ∉ pat → occurs pat (x ++ c :: y) → occurs pat x ∨ occurs pat y.
Proof.
  intros Hne Hc (a & b & E). apply app_eq_inv in E as [(k & -> & E)|(k & -> & E)].
  - apply app_eq_inv in E as [(k' & -> & E)|(k' & -> & E)].
    + destruct k' as [|d k']; simplify_eq/=; [|set_solver].
      left. exists a, []. by rewrite !app_nil_r.
    + left. by exists a, k'.
  - destruct k as [|d k]; simplify_eq/=.
    + destruct pat; [done|]. simplify_eq/=. set_solver.
    + right. by exists k, b.
Qed.

(** A pattern that ends in [c] does not reach into a block without [c]. *)
Lemma occurs_block c pat x k :
  c ∉ k → occurs (pat ++ [c]) (x ++ k) → occurs (pat ++ [c]) x.
Proof.
  intros Hc (a & b & E). revert b E. induction k as [|d k IH] using rev_ind; intros b E.
  - rewrite app_nil_r in E. by exists a, b.
  - destruct b as [|e b _] using rev_ind.
    + rewrite app_nil_r, !app_assoc in E. apply app_inj_tail in E as [_ <-]. set_solver.
    + rewrite !app_assoc in E. apply app_inj_tail in E as [E _]. rewrite <- !app_assoc in E.
      apply (IH ltac:(set_solver) b). by rewrite E, <- !app_assoc.
Qed.
