(* ===== verification/Http.v ===== *)
(** * The HTTP handshake messages

    Models websocket/http.{h,cpp} and websocket/string_utils.h: the parsing of
    the upgrade request and of the response, and the check of the Origin
    header. A [std::string::size_type] position is a [nat], [npos] is [None]. *)

From S2P Require Import Prelude Regex.
From stdpp Require Import options.
Local Open Scope Z_scope.

(** ** string_utils.h *)

(** [std::isspace] in the C locale. *)
Definition isspace (c : Z) : bool := ((9 <=? c) && (c <=? 13)) || (c =? 32).

Fixpoint TrimLeft (s : bytes) : bytes :=
  match s with
  | [] => []
  | c :: s' => if isspace c then TrimLeft s' else s
  end.

Definition TrimRight (s : bytes) : bytes := reverse (TrimLeft (reverse s)).
Definition Trim (s : bytes) : bytes := TrimRight (TrimLeft s).
Definition ToLowerCase (s : bytes) : bytes := tolower <$> s.

(** ** HttpBase *)

Definition EOL : bytes := [13; 10].
Definition GET : bytes := str "GET".
Definition CONNECTION : bytes := str "Connection: ".
Definition UPGRADE : bytes := str "Upgrade: ".
Definition ORIGIN : bytes := str "Origin: ".
Definition SEC_WEBSOCKET_ACCEPT : bytes := str "Sec-WebSocket-Accept: ".
Definition SEC_WEBSOCKET_KEY : bytes := str "Sec-WebSocket-Key: ".
Definition SPACE : Z := 32.

(** [pos < end], where [end] may be [npos], the largest position. *)
Definition before_end (pos : nat) (e : option nat) : bool :=
  match e with
  | Some n => bool_decide (pos < n)%nat
  | None => true
  end.

(** [s.substr(pos, end - pos)] *)
Definition substr_to (s : bytes) (pos : nat) (e : option nat) : bytes :=
  substr s pos ((λ n, n - pos)%nat <$> e).

Definition DecodeHeader (headersText headerName : bytes) : bytes :=
  match find headersText headerName 0 with
  | Some startPos =>
      let endOfLinePos := find headersText EOL startPos in
      let startPos := (startPos + length headerName)%nat in
      if bool_decide (startPos < length headersText)%nat && before_end startPos endOfLinePos
      then substr_to headersText startPos endOfLinePos
      else []
  | None => []
  end.

(** ** HttpRequest *)

Record HttpRequest := mkRequest {
  req_version : bytes;
  req_connection : bytes;
  req_upgrade : bytes;
  secWebSocketKey : bytes;
  origin : bytes }.

Definition HttpRequest_init : HttpRequest := mkRequest [] [] [] [] [].

(** [^(https?:\/\/).*] *)
Definition httpPrefixRegex : re :=
  Cat (Cat (Lit Chr (str "http")) (Cat (Opt (Chr 115)) (Lit Chr (str "://")))) (Star AnyChar).

(** [^(https?:\/\/)(localhost|127\.0\.0\.1|\[::1\])(:\d+)?$], ignoring case *)
Definition localUrlRegex : re :=
  Cat (Cat (Lit Chr_icase (str "http")) (Cat (Opt (Chr_icase 115)) (Lit Chr_icase (str "://"))))
    (Cat (Alt (Lit Chr_icase (str "localhost"))
            (Alt (Lit Chr_icase (str "127.0.0.1")) (Lit Chr_icase (str "[::1]"))))
       (Opt (Cat (Chr_icase 58) (Plus Digit)))).

Definition ValidateHttpRequestOrigin (httpRequestOrigin : bytes) : bool :=
  if decide (httpRequestOrigin = []) then true
  else if negb (regex_match httpRequestOrigin httpPrefixRegex) then true
  else regex_match httpRequestOrigin localUrlRegex.

Definition Request_DecodeVersion (request : bytes) (methodStartPos : nat) : bytes :=
  if bool_decide (length request ≤ methodStartPos)%nat then []
  else
    let endOfLinePos := find request EOL methodStartPos in
    let methodStartPos := find request [SPACE] methodStartPos in
    let methodStartPos :=
      match methodStartPos with
      | Some p => find request [SPACE] (p + 1)
      | None => None
      end in
    match methodStartPos with
    | Some p =>
        if bool_decide (p + 1 < length request)%nat && before_end (p + 1) endOfLinePos
        then substr_to request (p + 1) endOfLinePos
        else []
    | None => []
    end.

Definition Request_Decode (request : bytes) (parsed : HttpRequest) : bool * HttpRequest :=
  match find request GET 0 with
  | None => (false, parsed)
  | Some pos =>
      let parsed :=
        {| req_version := Request_DecodeVersion request pos;
           req_connection := DecodeHeader request CONNECTION;
           req_upgrade := DecodeHeader request UPGRADE;
           secWebSocketKey := DecodeHeader request SEC_WEBSOCKET_KEY;
           origin := DecodeHeader request ORIGIN |} in
      (ValidateHttpRequestOrigin (origin parsed), parsed)
  end.

(** ** HttpResponse *)

Record HttpResponse := mkResponse {
  rsp_version : bytes;
  status : bytes;
  rsp_connection : bytes;
  rsp_upgrade : bytes;
  secWebSocketAccept : bytes }.

Definition HttpResponse_init : HttpResponse := mkResponse [] [] [] [] [].

Definition Response_DecodeVersion (response : bytes) (versionStartPos : nat) : bytes :=
  if bool_decide (versionStartPos < length response)%nat then
    match find response [SPACE] versionStartPos with
    | Some versionEndPos => substr response versionStartPos (Some (versionEndPos - versionStartPos)%nat)
    | None => []
    end
  else [].

(** [find_first_not_of(c, pos)] *)
Fixpoint first_not_of (c : Z) (s : bytes) (i : nat) : option nat :=
  match s with
  | [] => None
  | d :: s' => if d =? c then first_not_of c s' (S i) else Some i
  end.

Definition find_first_not_of (s : bytes) (c : Z) (pos : nat) : option nat :=
  first_not_of c (drop pos s) pos.

Definition DecodeStatus (response : bytes) (versionEndPos : nat) : bytes :=
  if bool_decide (versionEndPos < length response)%nat
     && (rd response (Z.of_nat versionEndPos) =? SPACE) then
    match find_first_not_of response SPACE versionEndPos with
    | Some statusStartPos =>
        let statusEndPos := find response [SPACE] statusStartPos in
        let statusEndPos :=
          match statusEndPos with
          | None => find response EOL statusStartPos
          | Some _ => statusEndPos
          end in
        match statusEndPos with
        | Some e => substr response statusStartPos (Some (e - statusStartPos)%nat)
        | None => []
        end
    | None => []
    end
  else [].

Definition Response_Decode (response : bytes) (parsed : HttpResponse) : bool * HttpResponse :=
  match find response (str "HTTP") 0 with
  | None => (false, parsed)
  | Some versionStartPos =>
      let version := Response_DecodeVersion response versionStartPos in
      (true,
       {| rsp_version := version;
          status := DecodeStatus response (versionStartPos + length version);
          rsp_connection := DecodeHeader response CONNECTION;
          rsp_upgrade := DecodeHeader response UPGRADE;
          secWebSocketAccept := DecodeHeader response SEC_WEBSOCKET_ACCEPT |})
  end.

(** ** Lemmas *)

(** A header line is read back up to the end of its line. *)
Lemma DecodeHeader_line pre name v post :
  find (pre ++ name ++ v ++ EOL ++ post) name 0 = Some (length pre) →
  13 ∉ name → 13 ∉ v → v ≠ [] →
  DecodeHeader (pre ++ name ++ v ++ EOL ++ post) name = v.
Proof.
  intros Hf Hn Hv Hne. unfold DecodeHeader. rewrite Hf. set (t := pre ++ name ++ v ++ EOL ++ post) in *.
  assert (He : find t EOL (length pre) = Some (length pre + length name + length v)%nat).
  { unfold find. rewrite decide_True by (unfold t; rewrite !length_app; lia).
    unfold t. rewrite drop_app_length, (app_assoc name v). change (EOL ++ post) with ((13 :: [10]) ++ post).
    unfold EOL. rewrite find_from_skip by (by intros [?|?]%elem_of_app). rewrite length_app. f_equal. lia. }
  rewrite He. assert (length v ≠ 0%nat) by (by destruct v).
  rewrite bool_decide_true by (unfold t; rewrite !length_app; lia).
  unfold before_end. rewrite bool_decide_true by lia. simpl.
  unfold substr_to, substr, t. simpl.
  replace (length pre + length name + length v - (length pre + length name))%nat with (length v) by lia.
  rewrite <- length_app, (app_assoc pre name), drop_app_length. apply take_app_length.
Qed.

Lemma DecodeHeader_absent t name : ¬ occurs name t → DecodeHeader t name = [].
Proof.
  intros Hn. unfold DecodeHeader, find. rewrite decide_True by lia. rewrite drop_0.
  by rewrite (proj2 (find_from_none _ _ _) Hn).
Qed.

(** ** The Origin check *)

(** [http://] or [https://] *)
Definition http_scheme (s : bytes) : Prop := s = str "http://" ∨ s = str "https://".
Definition local_host (s : bytes) : Prop :=
  s = str "localhost" ∨ s = str "127.0.0.1" ∨ s = str "[::1]".
Definition port_suffix (s : bytes) : Prop :=
  s = [] ∨ ∃ ds, s = 58 :: ds ∧ ds ≠ [] ∧ Forall (λ c, 48 ≤ c ≤ 57) ds.
Definition no_newline (s : bytes) : Prop := Forall (λ c, c ≠ 10 ∧ c ≠ 13) s.

Lemma Opt_iff r s : in_re (Opt r) s ↔ in_re r s ∨ s = [].
Proof. unfold Opt. by rewrite in_re_alt, in_re_eps. Qed.

(** The two spellings of the scheme. *)
Lemma httpPrefixRegex_spec o :
  regex_match o httpPrefixRegex = true ↔ ∃ s h, o = s ++ h ∧ http_scheme s ∧ no_newline h.
Proof.
  rewrite regex_match_spec. unfold httpPrefixRegex, http_scheme, no_newline, AnyChar.
  rewrite in_re_cat. split.
  - intros (s & h & -> & Hs & Hh%in_re_star_cls). exists s, h. split_and!; [done| |].
    + apply in_re_cat in Hs as (s1 & s2 & -> & ->%in_re_lit & (s3 & s4 & -> & H3 & ->%in_re_lit)%in_re_cat).
      apply Opt_iff in H3 as [(c & -> & Hc)%in_re_cls| ->]; [|by left].
      apply Z.eqb_eq in Hc as <-. by right.
    + eapply Forall_impl; [exact Hh|]. intros c Hc. simpl in Hc. lia.
  - intros (s & h & -> & Hs & Hh). exists s, h. split_and!; [done| |].
    + destruct Hs as [-> | ->].
      * apply (in_cat _ _ (str "http") (str "://")); [by apply in_re_lit|].
        apply (in_cat _ _ [] (str "://")); [apply in_alt_r; constructor|by apply in_re_lit].
      * apply (in_cat _ _ (str "http") (str "s://")); [by apply in_re_lit|].
        apply (in_cat _ _ [115] (str "://")); [by apply in_alt_l; constructor|by apply in_re_lit].
    + apply in_re_star_cls. eapply Forall_impl; [exact Hh|]. intros c Hc. simpl in *. lia.
Qed.

Lemma lower_app a b : lower (a ++ b) = lower a ++ lower b.
Proof. apply fmap_app. Qed.

Lemma tolower_digit c d : 48 ≤ c ≤ 58 → tolower d = c ↔ d = c.
Proof. intros Hc. unfold tolower. destruct (_ && _) eqn:E; lia. Qed.

Lemma lower_digits ds es :
  Forall (λ c, 48 ≤ c ≤ 57) ds → lower es = ds ↔ es = ds.
Proof.
  intros HF. split.
  - revert es. induction HF as [|c ds Hc _ IH]; intros [|e es]; try done.
    cbn [lower fmap list_fmap]. intros [= He Hes].
    apply tolower_digit in He as ->; [|lia]. f_equal. by apply IH.
  - intros ->. induction HF as [|c ds Hc _ IH]; [done|].
    cbn [lower fmap list_fmap]. f_equal; [|exact IH]. by apply tolower_digit; [lia|].
Qed.

Lemma localUrlRegex_spec o :
  regex_match o localUrlRegex = true ↔
  ∃ s h p, lower o = s ++ h ++ p ∧ http_scheme s ∧ local_host h ∧ port_suffix p.
Proof.
  rewrite regex_match_spec. unfold localUrlRegex, Digit.
  split.
  - rewrite in_re_cat. intros (s & t & -> & Hs & Ht).
    apply in_re_cat in Ht as (h & p & -> & Hh & Hp).
    exists (lower s), (lower h), (lower p). rewrite !lower_app. split_and!; [done|..].
    + apply in_re_cat in Hs as (s1 & s2 & -> & H1%in_re_lit_icase &
        (s3 & s4 & -> & H3 & H4%in_re_lit_icase)%in_re_cat).
      rewrite !lower_app, H1, H4. apply Opt_iff in H3 as [(c & -> & Hc)%in_re_cls| ->]; [|by left].
      apply Z.eqb_eq in Hc. right. cbn [lower fmap list_fmap]. by rewrite <- Hc.
    + rewrite !in_re_alt, !in_re_lit_icase in Hh. destruct Hh as [-> |[-> | ->]]; by vm_compute; auto.
    + apply Opt_iff in Hp as [(c & ds & -> & (d & -> & Hd)%in_re_cls & (Hne & HF)%in_re_plus_cls)%in_re_cat| ->];
        [right|by left].
      apply Z.eqb_eq in Hd. cbn [lower fmap list_fmap app]. rewrite <- Hd. exists ds.
      assert (HF' : Forall (λ c, 48 ≤ c ≤ 57) ds) by (eapply Forall_impl; [exact HF|]; simpl; lia).
      split_and!; [|done|done]. change (tolower 58) with 58. f_equal. by apply lower_digits.
  - intros (s & h & p & E & Hs & Hh & Hp).
    apply fmap_app_inv in E as (s' & t' & -> & E & ->). symmetry in E.
    apply fmap_app_inv in E as (h' & p' & -> & -> & ->).
    apply in_cat; [|apply in_cat].
    + assert (Hsplit : ∀ a b, lower s' = a ++ b → ∃ a' b', s' = a' ++ b' ∧ lower a' = a ∧ lower b' = b).
      { intros a b (a' & b' & -> & -> & ->)%fmap_app_inv. eauto. }
      destruct Hs as [Hs|Hs].
      * destruct (Hsplit (str "http") (str "://")) as (a & b & -> & Ha & Hb); [exact Hs|].
        apply in_cat; [by apply in_re_lit_icase|]. apply (in_cat _ _ [] b);
          [apply in_alt_r; constructor|by apply in_re_lit_icase].
      * destruct (Hsplit (str "http") (str "s://")) as (a & b & -> & Ha & Hb); [exact Hs|].
        destruct b as [|c b]; [done|]. injection Hb as Hc Hb.
        apply in_cat; [by apply in_re_lit_icase|]. apply (in_cat _ _ [c] b);
          [apply in_alt_l; constructor; by rewrite Hc|by apply in_re_lit_icase].
    + rewrite !in_re_alt, !in_re_lit_icase. destruct Hh as [Hh|[Hh|Hh]]; unfold lower; rewrite Hh; auto.
    + apply Opt_iff. destruct Hp as [Hp|(ds & Hp & Hne & HF)].
      { right. by apply fmap_nil_inv in Hp. }
      left. destruct p' as [|c p']; [done|]. cbn [lower fmap list_fmap] in Hp. injection Hp as Hc Hp.
      apply (lower_digits ds p' HF) in Hp as ->. change (c :: ds) with ([c] ++ ds). constructor.
      * constructor. by rewrite Hc.
      * apply in_re_plus_cls. split; [done|]. eapply Forall_impl; [exact HF|]. simpl. lia.
Qed.

(** *** Header lines *)

(** The text of a list of lines. *)
Fixpoint http_lines (ls : list bytes) : bytes :=
  match ls with
  | [] => []
  | l :: ls' => l ++ EOL ++ http_lines ls'
  end.

Lemma http_lines_app a b : http_lines (a ++ b) = http_lines a ++ http_lines b.
Proof. induction a as [|l a IH]; [done|]. simpl. by rewrite IH, <- !app_assoc. Qed.

(** A name without line terminators occurs in the text only inside a line. *)
Lemma occurs_http_lines name ls :
  name ≠ [] → 13 ∉ name → 10 ∉ name → occurs name (http_lines ls) → Exists (occurs name) ls.
Proof.
  intros Hne H13 H10. induction ls as [|l ls IH]; simpl.
  - intros (a & b & E). symmetry in E. apply app_eq_nil in E as [_ E]. by apply app_eq_nil in E as [-> _].
  - intros [Hl|Hr]%occurs_split; [by left| |done|done]. right. apply IH.
    change (10 :: http_lines ls) with ([] ++ 10 :: http_lines ls) in Hr.
    apply occurs_split in Hr as [(a & b & E)|Hr]; [|done..].
    symmetry in E. apply app_eq_nil in E as [_ E]. by apply app_eq_nil in E as [-> _].
Qed.

(** No occurrence of the name starts inside the lines before. *)
Lemma http_lines_first name before post :
  name ≠ [] → 13 ∉ name → 10 ∉ name → Forall (λ l, ¬ occurs name l) before →
  find (http_lines before ++ name ++ post) name 0 = Some (length (http_lines before)).
Proof.
  intros Hne H13 H10 HF. unfold find. rewrite decide_True by lia. rewrite drop_0.
  apply find_from_some. intros a1 a2 c Ea Ha2 E.
  assert (Hocc : ¬ occurs name (http_lines before)).
  { intros Ho%occurs_http_lines; [|done..]. apply Exists_exists in Ho as (l & Hl & Ho).
    rewrite Forall_forall in HF. by apply (HF l). }
  apply app_eq_inv in E as [(k & -> & E)|(k & -> & E)].
  { apply Hocc. rewrite Ea. by exists a1, k. }
  destruct before as [|l before _] using rev_ind.
  { simpl in Ea. symmetry in Ea. by apply app_eq_nil in Ea as [_ ->]. }
  rewrite http_lines_app in Ea. cbn [http_lines] in Ea.
  assert (H10' : ∃ a2', a2 = a2' ++ [10]).
  { destruct a2 as [|d a2' _] using rev_ind; [done|]. exists a2'. f_equal.
    rewrite (app_nil_r EOL) in Ea. unfold EOL in Ea. change ([13; 10]) with ([13] ++ [10]) in Ea.
    rewrite !app_assoc in Ea. apply app_inj_tail in Ea as [_ <-]. done. }
  destruct H10' as (a2' & ->). set_solver.
Qed.

(** [DecodeHeader] reads the value of the first line that carries the header. *)
Lemma DecodeHeader_lines name v before post :
  name ≠ [] → 13 ∉ name → 10 ∉ name → v ≠ [] → 13 ∉ v →
  Forall (λ l, ¬ occurs name l) before →
  DecodeHeader (http_lines before ++ name ++ v ++ EOL ++ post) name = v.
Proof.
  intros Hne H13 H10 Hv Hv13 HF. apply DecodeHeader_line; [|done..]. by apply http_lines_first.
Qed.

(** *** Start lines *)

Lemma find_skip c pat a b :
  c ∉ a → find (a ++ (c :: pat) ++ b) (c :: pat) 0 = Some (length a).
Proof. intros Hc. unfold find. rewrite decide_True by lia. by rewrite drop_0, find_from_skip. Qed.

Lemma find_after c pat x a b n :
  n = length x → c ∉ a → find (x ++ a ++ (c :: pat) ++ b) (c :: pat) n = Some (n + length a)%nat.
Proof.
  intros -> Hc. unfold find. rewrite decide_True by (rewrite length_app; lia).
  by rewrite drop_app_length, find_from_skip.
Qed.

(** The version is the third word of the request line. *)
Lemma Request_DecodeVersion_line meth path v post :
  SPACE ∉ meth → SPACE ∉ path → 13 ∉ meth ++ [SPACE] ++ path ++ [SPACE] ++ v → v ≠ [] →
  Request_DecodeVersion (meth ++ [SPACE] ++ path ++ [SPACE] ++ v ++ EOL ++ post) 0 = v.
Proof.
  intros Hm Hp H13 Hv. unfold Request_DecodeVersion.
  rewrite bool_decide_false by (rewrite !length_app; simpl; lia).
  rewrite (find_skip SPACE [] meth (path ++ [SPACE] ++ v ++ EOL ++ post)) by done.
  set (t := meth ++ [SPACE] ++ path ++ [SPACE] ++ v ++ EOL ++ post).
  assert (He : find t EOL 0 = Some (length meth + length path + length v + 2)%nat).
  { unfold t, EOL. pose proof (find_skip 13 [10] (meth ++ [SPACE] ++ path ++ [SPACE] ++ v) post H13) as E.
    rewrite <- !app_assoc in E. rewrite E. f_equal. rewrite !length_app. simpl. lia. }
  assert (Hs : find t [SPACE] (length meth + 1) = Some (length meth + 1 + length path)%nat).
  { pose proof (find_after SPACE [] (meth ++ [SPACE]) path (v ++ EOL ++ post) (length meth + 1)) as E.
    rewrite <- !app_assoc in E. apply E; [by rewrite length_app|done]. }
  rewrite He, Hs. unfold before_end. assert (length v ≠ 0%nat) by (by destruct v).
  rewrite !bool_decide_true by (unfold t; rewrite ?length_app; simpl; lia). simpl.
  unfold substr_to, substr, t. simpl.
  assert (Ed : drop (length meth + 1 + length path + 1)
    ((meth ++ [SPACE] ++ path ++ [SPACE]) ++ v ++ EOL ++ post) = v ++ EOL ++ post).
  { apply drop_app_length'. rewrite !length_app. simpl. lia. }
  rewrite <- !app_assoc in Ed. etransitivity; [apply f_equal, Ed|].
  apply take_app_length'. lia.
Qed.

(** Version and status code are the first two words of the status line. *)
Lemma Response_version_status v st post :
  SPACE ∉ v → v ≠ [] → SPACE ∉ st → st ≠ [] →
  let t := v ++ [SPACE] ++ st ++ [SPACE] ++ post in
  Response_DecodeVersion t 0 = v ∧ DecodeStatus t (length v) = st.
Proof.
  intros Hv Hvne Hst Hstne t. split.
  - unfold Response_DecodeVersion. rewrite bool_decide_true by (unfold t; rewrite !length_app; simpl; lia).
    unfold t. rewrite (find_skip SPACE [] v (st ++ [SPACE] ++ post)) by done.
    unfold substr. rewrite Nat.sub_0_r, drop_0. apply take_app_length.
  - unfold DecodeStatus. rewrite bool_decide_true by (unfold t; rewrite !length_app; simpl; lia).
    assert (Erd : rd t (Z.of_nat (length v)) = SPACE).
    { unfold rd, t. rewrite Nat2Z.id, app_nth2, Nat.sub_diag by lia. done. }
    rewrite Erd, Z.eqb_refl. cbn [andb].
    assert (Ef : find_first_not_of t SPACE (length v) = Some (length v + 1)%nat).
    { unfold find_first_not_of, t. rewrite drop_app_length. cbn [app first_not_of].
      rewrite Z.eqb_refl. destruct st as [|d st]; [done|]. cbn [app first_not_of].
      rewrite (proj2 (Z.eqb_neq d SPACE)) by set_solver. f_equal. lia. }
    rewrite Ef. pose proof (find_after SPACE [] (v ++ [SPACE]) st post (length v + 1)) as Es.
    rewrite <- !app_assoc in Es. unfold t. rewrite Es; [|by rewrite length_app|done].
    unfold substr. replace (length v + 1 + length st - (length v + 1))%nat with (length st) by lia.
    pose proof (drop_app_length' (v ++ [SPACE]) (st ++ [SPACE] ++ post) (length v + 1)) as Ed.
    rewrite <- !app_assoc in Ed. rewrite Ed by (by rewrite length_app). apply take_app_length.
Qed.

(** Trimming text without white space. *)
Lemma TrimLeft_nospace s : Forall (λ c, isspace c = false) s → TrimLeft s = s.
Proof. intros HF. destruct HF as [|c s Hc _]; [done|]. simpl. by rewrite Hc. Qed.

Lemma Trim_nospace s : Forall (λ c, isspace c = false) s → Trim s = s.
Proof.
  intros HF. unfold Trim, TrimRight. rewrite (TrimLeft_nospace s) by done.
  rewrite TrimLeft_nospace by (by apply Forall_reverse). apply reverse_involutive.
Qed.

(** ** Properties *)

(** The Origin check, which protects against cross-site requests, accepts
    exactly the headers that are no [http://] or [https://] URL on one line and
    the URLs, in any case, whose host is localhost, 127.0.0.1 or [::1],
    optionally followed by a numeric port and by nothing else. *)
Theorem origin_accepted_iff (o : bytes) :
  ValidateHttpRequestOrigin o = true ↔
  (¬ ∃ s h, o = s ++ h ∧ http_scheme s ∧ no_newline h) ∨
  (∃ s h p, lower o = s ++ h ++ p ∧ http_scheme s ∧ local_host h ∧ port_suffix p).
Proof.
  unfold ValidateHttpRequestOrigin. rewrite <- httpPrefixRegex_spec, <- localUrlRegex_spec.
  case_decide as Ho; [subst o; split; [by left|done]|].
  destruct (regex_match o httpPrefixRegex); simpl; split; auto.
  intros [H|H]; [by destruct H|done].
Qed.

(** The scheme is compared with regard to case when it decides whether the
    header is checked at all: a header with an upper-case scheme is accepted
    for every host, and so is one with a trailing line feed. *)
Theorem origin_check_skipped (host : bytes) :
  ValidateHttpRequestOrigin (str "HTTP://" ++ host) = true ∧
  ValidateHttpRequestOrigin (str "http://" ++ host ++ [10]) = true.
Proof.
  assert (Hskip : ∀ o, o ≠ [] → (¬ ∃ s h, o = s ++ h ∧ http_scheme s ∧ no_newline h) →
    ValidateHttpRequestOrigin o = true).
  { intros o Ho Hn. unfold ValidateHttpRequestOrigin. rewrite decide_False by done.
    rewrite <- httpPrefixRegex_spec in Hn. by apply not_true_is_false in Hn as ->. }
  split; apply Hskip; [done| |done|]; intros (s & h & E & Hs & Hh).
  - by destruct Hs as [-> | ->].
  - assert (Hin : 10 ∈ h).
    { destruct h as [|d h _] using rev_ind.
      - rewrite app_nil_r in E. apply (f_equal last) in E. rewrite app_assoc, last_snoc in E.
        by destruct Hs as [-> | ->].
      - rewrite !app_assoc in E. apply app_inj_tail in E as [_ <-]. set_solver. }
    unfold no_newline in Hh. rewrite Forall_forall in Hh. naive_solver.
Qed.

(** [DecodeHeader] returns the value of the first line that carries the
    header, for any lines around it. *)
Theorem http_header_read_back (name v : bytes) (before after : list bytes) :
  name ≠ [] → 13 ∉ name → 10 ∉ name → v ≠ [] → 13 ∉ v →
  Forall (λ l, ¬ occurs name l) before →
  DecodeHeader (http_lines (before ++ [name ++ v] ++ after)) name = v.
Proof.
  intros. rewrite http_lines_app. cbn [app http_lines].
  rewrite <- app_assoc. by apply DecodeHeader_lines.
Qed.

Lemma http_header_read_back_witness :
  DecodeHeader (http_lines ([str "GET / HTTP/1.1"; str "Host: a"] ++ [UPGRADE ++ str "websocket"]
                            ++ [str "Upgrade: other"])) UPGRADE = str "websocket".
Proof.
  apply (http_header_read_back UPGRADE (str "websocket") [str "GET / HTTP/1.1"; str "Host: a"]
           [str "Upgrade: other"]); [done|..|];
    try (by apply (bool_decide_eq_true_1 _); vm_compute).
  repeat constructor; apply (find_from_none _ _ 0); vm_compute; reflexivity.
Defined.
