(* ===== verification/Handshake.v ===== *)
(** * The WebSocket key and the upgrade response

    Models websocket/handshake_helper.{h,cpp} and [GetBase64EncodingLength] of
    websocket/network.h. OpenSSL is third-party: its functions are the operations
    of the class [OpenSSL] and what the code relies on of their documentation is
    the class [OpenSSLOK]. *)

From S2P Require Import Prelude Regex Http.
Local Open Scope Z_scope.

(** ** OpenSSL

    [SHA1] writes its digest; [EVP_EncodeBlock] writes the base64 text and a
    terminating NUL and returns the length of the text; [RAND_bytes] is an
    answer of the environment, [None] when it does not return 1. *)
Class OpenSSL := {
  SHA1 : bytes → bytes;
  EVP_EncodeBlock : bytes → bytes }.

Definition SHA_DIGEST_LENGTH : Z := 20.

(** The characters of base64 text, [=] included. *)
Definition is_base64_char (c : Z) : Prop :=
  65 ≤ c ≤ 90 ∨ 97 ≤ c ≤ 122 ∨ 48 ≤ c ≤ 57 ∨ c = 43 ∨ c = 47 ∨ c = 61.

Class OpenSSLOK (ssl : OpenSSL) : Prop := {
  SHA1_length m : Z.of_nat (length (SHA1 m)) = SHA_DIGEST_LENGTH;
  EVP_EncodeBlock_length b : Z.of_nat (length (EVP_EncodeBlock b)) = (Z.of_nat (length b) + 2) / 3 * 4;
  EVP_EncodeBlock_chars b : Forall is_base64_char (EVP_EncodeBlock b) }.

(** ** WebSocketKeyEncoder *)

Definition GetBase64EncodingLength (inputLength : Z) : Z := (inputLength + 2) / 3 * 4.
Definition WEB_SOCKET_GUID : bytes := str "258EAFA5-E914-47DA-95CA-C5AB0DC85B11".
Definition SEC_WEBSOCKET_KEY_BYTES_LEN : Z := 16.
Definition KEY_LENGTH : Z := GetBase64EncodingLength SEC_WEBSOCKET_KEY_BYTES_LEN.
Definition ENCODED_KEY_LEN : Z := GetBase64EncodingLength SHA_DIGEST_LENGTH.

Section KeyEncoder.
Context `{OpenSSL}.

(** [GenerateRandomSecWSKey]: the success flag and what the destination holds
    before its first NUL afterwards; [old] is what it held before. *)
Definition GenerateRandomSecWSKey (rand : option bytes) (old : bytes) : bool * bytes :=
  match rand with
  | None => (false, old)
  | Some bs =>
      let encoded := EVP_EncodeBlock bs in
      let encodedBytes := Z.of_nat (length encoded) in
      if negb (encodedBytes =? KEY_LENGTH) then (false, [])
      else (true, encoded)
  end.

(** The private overload on [source, length]; [None] is [false]. *)
Definition EncodeKey_source (source : bytes) : option bytes :=
  let hash := SHA1 source in
  let destination := EVP_EncodeBlock hash in
  let encodedBytes := Z.of_nat (length destination) in
  if negb (encodedBytes =? ENCODED_KEY_LEN) then None else Some destination.

(** The overloads on a string view and on a key buffer of [KEY_LENGTH]
    characters. *)
Definition EncodeKey_view (key : bytes) : option bytes := EncodeKey_source (key ++ WEB_SOCKET_GUID).
Definition EncodeKey_array (key : bytes) : option bytes :=
  EncodeKey_source (take (Z.to_nat KEY_LENGTH) key ++ WEB_SOCKET_GUID).

End KeyEncoder.

(** ** ProtocolUpgradeBuilder

    The response is assembled by indexed writes into a buffer of fixed size. *)

Definition SWITCHING_PROTOCOLS : bytes := str "HTTP/1.1 101 Switching Protocols".
Definition CONNECTION_UPGRADE : bytes := str "Connection: Upgrade".
Definition UPGRADE_WEBSOCKET : bytes := str "Upgrade: websocket".
Definition ACCEPT_KEY : bytes := str "Sec-WebSocket-Accept: ".
Definition KEY_START : Z :=
  Z.of_nat (length SWITCHING_PROTOCOLS) + Z.of_nat (length CONNECTION_UPGRADE)
  + Z.of_nat (length UPGRADE_WEBSOCKET) + Z.of_nat (length ACCEPT_KEY) + 3 * Z.of_nat (length EOL).
Definition MESSAGE_LENGTH : Z := KEY_START + ENCODED_KEY_LEN + 2 * Z.of_nat (length EOL).

(** [CopyStringToBuffer(source, startIndex)]: the buffer and the next index. *)
Fixpoint CopyStringToBuffer (source : bytes) (p : bytes * Z) : bytes * Z :=
  match source with
  | [] => p
  | c :: source' => let '(buf, startIndex) := p in
      CopyStringToBuffer source' (wr buf startIndex c, startIndex + 1)
  end.

Definition new_ProtocolUpgradeBuilder : bytes :=
  let p := (replicate (Z.to_nat (MESSAGE_LENGTH + 1)) 0, 0) in
  let p := CopyStringToBuffer SWITCHING_PROTOCOLS p in
  let p := CopyStringToBuffer EOL p in
  let p := CopyStringToBuffer CONNECTION_UPGRADE p in
  let p := CopyStringToBuffer EOL p in
  let p := CopyStringToBuffer UPGRADE_WEBSOCKET p in
  let p := CopyStringToBuffer EOL p in
  let p := CopyStringToBuffer ACCEPT_KEY p in
  let p := (p.1, p.2 + ENCODED_KEY_LEN) in
  let p := CopyStringToBuffer EOL p in
  let p := CopyStringToBuffer EOL p in
  p.1.

(** [SetKey] copies the key without its NUL. *)
Definition SetKey (buf : bytes) (encodedKey : bytes) : bytes :=
  (CopyStringToBuffer (take (Z.to_nat ENCODED_KEY_LEN) encodedKey) (buf, KEY_START)).1.

Definition ProtocolUpgradeBuilder (encodedKey : bytes) : bytes :=
  SetKey new_ProtocolUpgradeBuilder encodedKey.

(** The [GetLength()] bytes at [GetUpgradeMessage()]. *)
Definition GetUpgradeMessage (buf : bytes) : bytes := take (Z.to_nat MESSAGE_LENGTH) buf.

(** ** Lemmas *)

Lemma wr_middle a o b c : wr (a ++ o :: b) (Z.of_nat (length a)) c = a ++ c :: b.
Proof. unfold wr. rewrite Nat2Z.id. induction a as [|d a IH]; [done|]. cbn. by f_equal. Qed.

(** Copying over a block of the buffer replaces that block. *)
Lemma CopyStringToBuffer_block src : ∀ a b old,
  length old = length src →
  CopyStringToBuffer src (a ++ old ++ b, Z.of_nat (length a)) =
  (a ++ src ++ b, Z.of_nat (length a) + Z.of_nat (length src)).
Proof.
  induction src as [|c src IH]; intros a b old Hl; destruct old as [|o old]; try done.
  - simpl. by rewrite Z.add_0_r.
  - cbn [CopyStringToBuffer]. simpl in Hl. injection Hl as Hl. cbn [app]. rewrite wr_middle.
    replace (Z.of_nat (length a) + 1) with (Z.of_nat (length (a ++ [c])))
      by (rewrite length_app; simpl; lia).
    replace (a ++ c :: old ++ b) with ((a ++ [c]) ++ old ++ b) by (by rewrite <- app_assoc).
    etransitivity; [apply (IH (a ++ [c]) b old Hl)|].
    rewrite <- app_assoc, length_app. f_equal. simpl. lia.
Qed.

(** The response as a text. *)
Definition upgrade_response (key : bytes) : bytes :=
  http_lines [SWITCHING_PROTOCOLS; CONNECTION_UPGRADE; UPGRADE_WEBSOCKET; ACCEPT_KEY ++ key; []].

Lemma ProtocolUpgradeBuilder_text key :
  Z.of_nat (length key) = ENCODED_KEY_LEN →
  GetUpgradeMessage (ProtocolUpgradeBuilder key) = upgrade_response key.
Proof.
  intros Hk. change ENCODED_KEY_LEN with 28 in Hk.
  unfold ProtocolUpgradeBuilder, SetKey. rewrite take_ge by (change ENCODED_KEY_LEN with 28; lia).
  set (a := http_lines [SWITCHING_PROTOCOLS; CONNECTION_UPGRADE; UPGRADE_WEBSOCKET] ++ ACCEPT_KEY).
  assert (E : new_ProtocolUpgradeBuilder = a ++ replicate 28 0 ++ EOL ++ EOL ++ [0]) by reflexivity.
  rewrite E. change KEY_START with (Z.of_nat (length a)).
  pose proof (CopyStringToBuffer_block key a (EOL ++ EOL ++ [0]) (replicate 28 0)) as Hc.
  rewrite length_replicate in Hc. erewrite (f_equal fst) by (apply Hc; lia). cbn [fst].
  unfold GetUpgradeMessage, upgrade_response.
  rewrite !app_assoc, take_app_length'.
  - unfold a. cbn [http_lines]. by rewrite <- !app_assoc.
  - change MESSAGE_LENGTH with 129. rewrite !length_app.
    change (length a) with 97%nat. simpl. lia.
Qed.

Section KeyLemmas.
Context `{ssl : OpenSSL} {sslOK : OpenSSLOK ssl}.

(** Encoding never fails, and gives [ENCODED_KEY_LEN] base64 characters. *)
Lemma EncodeKey_source_total m :
  ∃ k, EncodeKey_source m = Some k ∧ Z.of_nat (length k) = ENCODED_KEY_LEN ∧ Forall is_base64_char k.
Proof.
  exists (EVP_EncodeBlock (SHA1 m)). unfold EncodeKey_source.
  assert (El : Z.of_nat (length (EVP_EncodeBlock (SHA1 m))) = ENCODED_KEY_LEN).
  { rewrite EVP_EncodeBlock_length, SHA1_length. done. }
  rewrite El, Z.eqb_refl. split_and!; [done|done|apply EVP_EncodeBlock_chars].
Qed.

(** The two overloads agree on a full key. *)
Lemma EncodeKey_overloads key :
  Z.of_nat (length key) = KEY_LENGTH → EncodeKey_array key = EncodeKey_view key.
Proof.
  intros Hk. unfold EncodeKey_array, EncodeKey_view. rewrite take_ge by lia. done.
Qed.

Lemma GenerateRandomSecWSKey_some bs old :
  Z.of_nat (length bs) = SEC_WEBSOCKET_KEY_BYTES_LEN →
  ∃ k, GenerateRandomSecWSKey (Some bs) old = (true, k) ∧ Z.of_nat (length k) = KEY_LENGTH ∧
       Forall is_base64_char k.
Proof.
  intros Hb. exists (EVP_EncodeBlock bs). unfold GenerateRandomSecWSKey.
  assert (El : Z.of_nat (length (EVP_EncodeBlock bs)) = KEY_LENGTH).
  { rewrite EVP_EncodeBlock_length, Hb. done. }
  rewrite El. split_and!; [done|done|apply EVP_EncodeBlock_chars].
Qed.

End KeyLemmas.

Lemma base64_no_char c k : ¬ is_base64_char c → Forall is_base64_char k → c ∉ k.
Proof. intros Hc HF Hin. rewrite Forall_forall in HF. by apply Hc, HF. Qed.
