(* ===== verification/WsServer.v ===== *)
(** * WebSocketServer: handshake and connection life cycle

    Models the rest of websocket/server/websocket_server.{h,cpp}: the upgrade
    handshake, [AcceptNewConnection], the initialisers and [Close]. The answers
    of the system calls are arguments ([init_answers], the accepted descriptor,
    the states that [WaitConnectingStateEnds] observes while another thread
    runs); a [recv] of the handshake takes its answer from the stream [rx] of the
    connection. The platform is POSIX: the Windows branches are not modelled. *)

From S2P Require Import Prelude WsFrame Network WsBase WsEndpoints Regex Http Handshake.
Local Open Scope Z_scope.
Local Open Scope ark_scope.

(** ** One [recv] of the handshake

    [msgLen = recv(fd, msgBuf, max, 0)] repeated while it is interrupted:
    [Some bs] for [msgLen > 0], [None] otherwise; at most [max] bytes are taken
    off the stream. *)
Fixpoint recv_once (max : nat) (rx : list recv_ev) : option (option bytes * list recv_ev) :=
  match rx with
  | [] => None
  | RRetry :: rx' => recv_once max rx'
  | RFail :: rx' | REof :: rx' => Some (None, rx')
  | RData bs :: rx' =>
      if decide (bs = []) then Some (None, rx')
      else if decide (length bs ≤ max)%nat then Some (Some bs, rx')
      else Some (Some (take max bs), RData (drop max bs) :: rx')
  end.

Definition HTTP_HANDSHAKE_MAX_LEN : Z := 1024.

Definition RecvHandshake : M ws (option bytes) :=
  λ s, if connectionFd_ s <? 0 then Ret None s
       else match recv_once (Z.to_nat HTTP_HANDSHAKE_MAX_LEN) (rx s) with
            | Some (r, rx') => Ret r (set_rx rx' s)
            | None => Block s
            end.

(** ** State *)

Record server := mkServer {
  base : ws;
  serverUp_ : bool;
  serverFd_ : Z;
  validateCb_ : option (HttpRequest → bool);
  openCb_ : bool }.

Definition server_init : server := mkServer ws_init false (-1) None false.

Definition set_base (b : ws) (s : server) : server :=
  mkServer b (serverUp_ s) (serverFd_ s) (validateCb_ s) (openCb_ s).
Definition set_serverUp (b : bool) (s : server) : server :=
  mkServer (base s) b (serverFd_ s) (validateCb_ s) (openCb_ s).
Definition set_serverFd (fd : Z) (s : server) : server :=
  mkServer (base s) (serverUp_ s) fd (validateCb_ s) (openCb_ s).
Definition SetValidateConnectionCallback (cb : HttpRequest → bool) (s : server) : server :=
  mkServer (base s) (serverUp_ s) (serverFd_ s) (Some cb) (openCb_ s).
Definition SetOpenConnectionCallback (s : server) : server :=
  mkServer (base s) (serverUp_ s) (serverFd_ s) (validateCb_ s) true.

(** A method of the base class run on the server object. *)
Definition on_base {A} (m : M ws A) : M server A :=
  λ s, match m (base s) with
       | Ret a b => Ret a (set_base b s)
       | Block b => Block (set_base b s)
       | Throw b => Throw (set_base b s)
       end.

(** ** Handshake *)

Definition ValidateHandShakeMessage (req : HttpRequest) : bool :=
  let upgradeHeaderValue := ToLowerCase (req_upgrade req) in
  let connectionValue := ToLowerCase (req_connection req) in
  bool_decide (find connectionValue (str "upgrade") 0 ≠ None)
  && bool_decide (find upgradeHeaderValue (str "websocket") 0 ≠ None)
  && bool_decide (req_version req = str "HTTP/1.1").

Definition BAD_REQUEST_RESPONSE : bytes := str "HTTP/1.1 400 Bad Request" ++ EOL ++ EOL.

Section Server.
Context `{OpenSSL}.

Definition ProtocolUpgrade (req : HttpRequest) : M ws bool :=
  match EncodeKey_view (secWebSocketKey req) with
  | None => m_ret false
  | Some encodedKey => SendUnderLock (GetUpgradeMessage (ProtocolUpgradeBuilder encodedKey))
  end.

Definition ResponseInvalidHandShake : M ws bool := SendUnderLock BAD_REQUEST_RESPONSE.

Definition HttpHandShake (validateCb : option (HttpRequest → bool)) : M ws bool :=
  msg <-- RecvHandshake ;;
  match msg with
  | None => m_ret false
  | Some msgBuf =>
      let '(ok, req) := Request_Decode msgBuf HttpRequest_init in
      if negb ok then m_ret false
      else if match validateCb with Some cb => negb (cb req) | None => false end then m_ret false
      else if ValidateHandShakeMessage req then ProtocolUpgrade req
      else _ <-- ResponseInvalidHandShake ;; m_ret false
  end.

(** ** Accepting a connection *)

Definition MoveToConnectingState : M server bool :=
  s <-- m_get ;;
  if negb (serverUp_ s) then m_ret false else
  r <-- on_base (CompareExchangeConnectionState CLOSED CONNECTING) ;;
  if negb (r : bool * ConnectionState).1 then m_ret false else
  s <-- m_get ;;
  if negb (serverUp_ s) then _ <-- on_base (SetConnectionState CLOSED) ;; m_ret false
  else m_ret true.

Definition OnNewConnection : M server () :=
  m_modify (λ s, if openCb_ s then set_base (log EvOpenCb (base s)) s else s) ;;;
  _ <-- on_base (SetConnectionState OPEN) ;; m_ret ().

(** The handshake and what follows it, on success and on failure. *)
Definition FinishConnecting : M server bool :=
  s <-- m_get ;;
  ok <-- on_base (HttpHandShake (validateCb_ s)) ;;
  if negb ok then
    _ <-- on_base (SetConnectionState CLOSING) ;;
    on_base (CloseConnectionSocket FAIL) ;;;
    m_ret false
  else OnNewConnection ;;; m_ret true.

Definition SOCKET_SUCCESS : Z := 0.

Definition AcceptNewConnection (accept_answer : Z) : M server bool :=
  ok <-- MoveToConnectingState ;;
  if negb ok then m_ret false else
  let newConnectionFd := accept_answer in
  if newConnectionFd <? SOCKET_SUCCESS then
    _ <-- on_base (SetConnectionState CLOSED) ;; m_ret false
  else
    on_base (SetConnectionSocket newConnectionFd) ;;;
    FinishConnecting.

Definition ConnectUnixWebSocketBySocketpair : M server bool :=
  ok <-- MoveToConnectingState ;;
  if negb ok then m_ret false else FinishConnecting.

(** ** Initialisation *)

(** The answers of the calls an initialiser makes: the descriptor of [socket],
    and whether each of the others succeeds. *)
Record init_answers := {
  a_socket : Z;
  a_reuseaddr : bool;
  a_sndtimeo : bool;
  a_rcvtimeo : bool;
  a_inet_pton : bool;
  a_memset : bool;
  a_strcpy : bool;
  a_bind : bool;
  a_listen : bool;
  a_getfl : bool;
  a_connect : bool }.

Definition SetWebSocketTimeOut (a : init_answers) (timeoutLimit : Z) : bool :=
  if 0 <? timeoutLimit then
    if negb (a_sndtimeo a) then false
    else if negb (a_rcvtimeo a) then false else true
  else true.

Definition CloseServerSocket : M server () :=
  m_modify (λ s, set_serverFd (-1) (set_base (log (EvClose (serverFd_ s)) (base s)) s)).

Definition BindAndListenTcpWebSocket (a : init_answers) : M server bool :=
  if negb (a_inet_pton a) then m_ret false
  else if negb (a_bind a && a_listen a) then CloseServerSocket ;;; m_ret false
  else m_modify (set_serverUp true) ;;; m_ret true.

Definition InitTcpWebSocket (a : init_answers) (port timeoutLimit : Z) : M server bool :=
  if port <? 0 then m_ret false else
  s <-- m_get ;;
  if serverUp_ s then m_ret true else
  m_modify (set_serverFd (a_socket a)) ;;;
  if a_socket a <? SOCKET_SUCCESS then m_ret false
  else if negb (a_reuseaddr a) then CloseServerSocket ;;; m_ret false
  else if negb (SetWebSocketTimeOut a timeoutLimit) then CloseServerSocket ;;; m_ret false
  else BindAndListenTcpWebSocket a.

Definition InitUnixWebSocket (a : init_answers) (timeoutLimit : Z) : M server bool :=
  s <-- m_get ;;
  if serverUp_ s then m_ret true else
  m_modify (set_serverFd (a_socket a)) ;;;
  if a_socket a <? SOCKET_SUCCESS then m_ret false
  else if negb (SetWebSocketTimeOut a timeoutLimit) then CloseServerSocket ;;; m_ret false
  else if negb (a_memset a) then CloseServerSocket ;;; m_ret false
  else if negb (a_strcpy a) then CloseServerSocket ;;; m_ret false
  else if negb (a_bind a) then CloseServerSocket ;;; m_ret false
  else if negb (a_listen a) then CloseServerSocket ;;; m_ret false
  else m_modify (set_serverUp true) ;;; m_ret true.

(** The overload on an open socket. *)
Definition InitUnixWebSocket_fd (a : init_answers) (socketfd : Z) : M server bool :=
  s <-- m_get ;;
  if serverUp_ s then m_ret true else
  if socketfd <? SOCKET_SUCCESS then m_ret false else
  on_base (SetConnectionSocket socketfd) ;;;
  if negb (a_getfl a) then m_ret false
  else m_modify (set_serverUp true) ;;; m_ret true.

(** ** Closing the server *)

(** [WaitConnectingStateEnds]: [obs] are the states the successive loads
    return; the loop waits as long as they are [CONNECTING]. The connection
    socket is shut down once, as soon as there is one. *)
Fixpoint WaitConnectingStateEnds (connection : ConnectionState) (wasShutdown : bool)
    (obs : list ConnectionState) : M server ConnectionState :=
  if decide (connection = CONNECTING) then
    s <-- m_get ;;
    (if negb wasShutdown && negb (connectionFd_ (base s) =? -1)
     then m_modify (λ s, set_base (log (EvShutdown (connectionFd_ (base s))) (base s)) s)
     else m_ret ()) ;;;
    match obs with
    | [] => λ s, Block s
    | c :: obs' =>
        WaitConnectingStateEnds c (wasShutdown || negb (connectionFd_ (base s) =? -1)) obs'
    end
  else m_ret connection.

Definition is_closing (c : ConnectionState) : bool := bool_decide (c = CLOSING ∨ c = CLOSED).

Definition Close `{Platform} (obs : list ConnectionState) : M server () :=
  s <-- m_get ;;
  m_modify (set_serverUp false) ;;;
  if negb (serverUp_ s) then m_ret () else
  m_modify (λ s, set_base (log (EvShutdown (serverFd_ s)) (base s)) s) ;;;
  let connection := connectionState_ (base s) in
  if is_closing connection then CloseServerSocket else
  connection <-- WaitConnectingStateEnds connection false obs ;;
  CloseServerSocket ;;;
  if is_closing connection then m_ret () else
  _ <-- on_base (CloseConnection (impl := WebSocketServer) SERVER_GO_AWAY) ;; m_ret ().

(** The destructor closes a server socket that is still open. *)
Definition server_destructor : M server () :=
  s <-- m_get ;;
  if negb (serverFd_ s =? -1) then CloseServerSocket else m_ret ().

End Server.
