(* ===== verification/WsClient.v ===== *)
(** * WebSocketClient: handshake and connection life cycle

    Models the rest of websocket/client/websocket_client.{h,cpp}: the
    initialisers, the upgrade request and the check of the response. The
    answers of the system calls and of [RAND_bytes] are arguments. *)

From S2P Require Import Prelude WsFrame Network WsBase WsEndpoints Regex Http Handshake WsServer.
Local Open Scope Z_scope.
Local Open Scope ark_scope.

Record client := mkClient {
  cbase : ws;
  secWebSocketKey_ : bytes }.

Definition client_init : client := mkClient ws_init [].

Definition on_cbase {A} (m : M ws A) : M client A :=
  λ c, match m (cbase c) with
       | Ret a b => Ret a (mkClient b (secWebSocketKey_ c))
       | Block b => Block (mkClient b (secWebSocketKey_ c))
       | Throw b => Throw (mkClient b (secWebSocketKey_ c))
       end.

Definition CLIENT_WS_UPGRADE_REQ_BEFORE_KEY : bytes :=
  str "GET / HTTP/1.1" ++ EOL ++ str "Connection: Upgrade" ++ EOL
  ++ str "Pragma: no-cache" ++ EOL ++ str "Cache-Control: no-cache" ++ EOL
  ++ str "Upgrade: websocket" ++ EOL ++ str "Sec-WebSocket-Version: 13" ++ EOL
  ++ str "Accept-Encoding: gzip, deflate, br" ++ EOL ++ str "Sec-WebSocket-Key: ".
Definition CLIENT_WS_UPGRADE_REQ_AFTER_KEY : bytes :=
  EOL ++ str "Sec-WebSocket-Extensions: permessage-deflate" ++ EOL ++ EOL.

Definition upgradeReq (key : bytes) : bytes :=
  CLIENT_WS_UPGRADE_REQ_BEFORE_KEY ++ key ++ CLIENT_WS_UPGRADE_REQ_AFTER_KEY.

Definition CloseOnInitFailure : M client () :=
  _ <-- on_cbase (CompareExchangeConnectionState CONNECTING CLOSING) ;;
  on_cbase (CloseConnectionSocket FAIL).

(** ** Initialisation *)

Definition InitToolchainWebSocketForPort (a : init_answers) (timeoutLimit : Z) : M client bool :=
  c <-- m_get ;;
  if negb (bool_decide (connectionState_ (cbase c) = CLOSED)) then m_ret true
  else if a_socket a <? SOCKET_SUCCESS then m_ret false
  else
    on_cbase (SetConnectionSocket (a_socket a)) ;;;
    if negb (SetWebSocketTimeOut a timeoutLimit) then CloseOnInitFailure ;;; m_ret false
    else if negb (a_memset a) then CloseOnInitFailure ;;; m_ret false
    else if negb (a_inet_pton a) then CloseOnInitFailure ;;; m_ret false
    else if negb (a_connect a) then CloseOnInitFailure ;;; m_ret false
    else _ <-- on_cbase (SetConnectionState CONNECTING) ;; m_ret true.

Definition InitToolchainWebSocketForSockName (a : init_answers) (timeoutLimit : Z) : M client bool :=
  c <-- m_get ;;
  if negb (bool_decide (connectionState_ (cbase c) = CLOSED)) then m_ret true
  else if a_socket a <? SOCKET_SUCCESS then m_ret false
  else
    on_cbase (SetConnectionSocket (a_socket a)) ;;;
    if negb (SetWebSocketTimeOut a timeoutLimit) then CloseOnInitFailure ;;; m_ret false
    else if negb (a_memset a) then CloseOnInitFailure ;;; m_ret false
    else if negb (a_strcpy a) then CloseOnInitFailure ;;; m_ret false
    else if negb (a_connect a) then CloseOnInitFailure ;;; m_ret false
    else _ <-- on_cbase (SetConnectionState CONNECTING) ;; m_ret true.

(** ** Handshake *)

Section Client.
Context `{OpenSSL}.

Definition ValidateServerHandShake (key : bytes) (response : HttpResponse) : bool :=
  if negb (bool_decide (status response = str "101")) then false
  else if negb (bool_decide (ToLowerCase (rsp_upgrade response) = str "websocket")) then false
  else if negb (bool_decide (ToLowerCase (rsp_connection response) = str "upgrade")) then false
  else
    match EncodeKey_view key with
    | None => false
    | Some expectedSecWebSocketAccept =>
        let accept := Trim (secWebSocketAccept response) in
        if negb (Z.of_nat (length accept) =? ENCODED_KEY_LEN)
           || negb (bool_decide (accept = expectedSecWebSocketAccept))
        then false else true
    end.

Definition ClientSendWSUpgradeReq (rand : option bytes) : M client bool :=
  c <-- m_get ;;
  let state := connectionState_ (cbase c) in
  if is_closing state then m_ret false
  else if bool_decide (state = OPEN) then m_ret true
  else
    let '(ok, key) := GenerateRandomSecWSKey rand (secWebSocketKey_ c) in
    m_modify (λ c, mkClient (cbase c) key) ;;;
    if negb ok then m_ret false
    else
      sent <-- on_cbase (SendUnderLock (upgradeReq key)) ;;
      if negb sent then CloseOnInitFailure ;;; m_ret false
      else m_ret true.

Definition ClientRecvWSUpgradeRsp : M client bool :=
  c <-- m_get ;;
  let state := connectionState_ (cbase c) in
  if is_closing state then m_ret false
  else if bool_decide (state = OPEN) then m_ret true
  else
    msg <-- on_cbase RecvHandshake ;;
    match msg with
    | None => CloseOnInitFailure ;;; m_ret false
    | Some msgBuf =>
        let '(ok, response) := Response_Decode msgBuf HttpResponse_init in
        if negb (ok && ValidateServerHandShake (secWebSocketKey_ c) response)
        then CloseOnInitFailure ;;; m_ret false
        else _ <-- on_cbase (SetConnectionState OPEN) ;; m_ret true
    end.

End Client.

Definition GetSocketStateString (c : client) : bytes :=
  match connectionState_ (cbase c) with
  | CONNECTING => str "connecting"
  | OPEN => str "open"
  | CLOSING => str "closing"
  | CLOSED => str "closed"
  end.

Definition client_Close `{Platform} : M client () :=
  _ <-- on_cbase (CloseConnection (impl := WebSocketClient) SERVER_GO_AWAY) ;; m_ret ().
