(* ===== verification/WsHandshake.v ===== *)
(** * The handshake of client and server

    The upgrade request of [WebSocketClient] is accepted by [WebSocketServer]
    and the response of the server by the client; the life cycle of a server
    connection. *)

From S2P Require Import Prelude WsFrame Network WsBase WsEndpoints WsLink Regex Http Handshake WsServer WsClient.
Local Open Scope Z_scope.
Local Open Scope ark_scope.

(** Decides that a concrete line does not contain a concrete name, and that a
    concrete string does not contain a concrete character. *)
Ltac no_occur := apply (find_from_none _ _ 0); vm_compute; reflexivity.
Ltac no_char := apply (bool_decide_eq_true_1 _); vm_compute; reflexivity.

(** The base64 alphabet has no white space and no line terminators. *)
Lemma base64_no_cr k : Forall is_base64_char k → 13 ∉ k.
Proof. apply base64_no_char. unfold is_base64_char. lia. Qed.
Lemma base64_no_space k : Forall is_base64_char k → SPACE ∉ k.
Proof. apply base64_no_char. unfold is_base64_char, SPACE. lia. Qed.
Lemma base64_Trim k : Forall is_base64_char k → Trim k = k.
Proof.
  intros HF. apply Trim_nospace. eapply Forall_impl; [exact HF|]. intros c.
  unfold is_base64_char, isspace. lia.
Qed.

(** ** The request *)

Definition request_head : list bytes :=
  [str "GET / HTTP/1.1"; str "Connection: Upgrade"; str "Pragma: no-cache";
   str "Cache-Control: no-cache"; str "Upgrade: websocket"; str "Sec-WebSocket-Version: 13";
   str "Accept-Encoding: gzip, deflate, br"].
Definition request_tail : list bytes := [str "Sec-WebSocket-Extensions: permessage-deflate"; []].

Lemma upgradeReq_lines key :
  upgradeReq key = http_lines (request_head ++ [SEC_WEBSOCKET_KEY ++ key] ++ request_tail).
Proof.
  rewrite http_lines_app. unfold upgradeReq. change CLIENT_WS_UPGRADE_REQ_BEFORE_KEY
    with (http_lines request_head ++ SEC_WEBSOCKET_KEY).
  change CLIENT_WS_UPGRADE_REQ_AFTER_KEY with (EOL ++ http_lines request_tail).
  cbn [app http_lines]. by rewrite <- !app_assoc.
Qed.

Lemma request_no_origin key :
  Forall is_base64_char key → ¬ occurs ORIGIN (upgradeReq key).
Proof.
  intros HF. rewrite upgradeReq_lines. intros Ho. apply occurs_http_lines in Ho; [|done|no_char|no_char].
  apply Exists_app in Ho as [Ho|Ho].
  { revert Ho. apply Forall_not_Exists. repeat constructor; no_occur. }
  apply Exists_app in Ho as [Ho|Ho].
  - apply Exists_cons in Ho as [Ho|Ho]; [|by apply Exists_nil in Ho].
    change ORIGIN with (str "Origin:" ++ [32]) in Ho.
    apply occurs_block in Ho; [|by apply base64_no_space].
    revert Ho. no_occur.
  - revert Ho. apply Forall_not_Exists. repeat constructor; no_occur.
Qed.

(** What the server makes of the client's request. *)
Lemma Request_Decode_upgradeReq key old :
  Forall is_base64_char key → key ≠ [] →
  Request_Decode (upgradeReq key) old =
  (true, mkRequest (str "HTTP/1.1") (str "Upgrade") (str "websocket") key []).
Proof.
  intros HF Hne. unfold Request_Decode.
  assert (Eg : find (upgradeReq key) GET 0 = Some 0%nat) by reflexivity.
  rewrite Eg. rewrite (DecodeHeader_absent (upgradeReq key) ORIGIN) by (by apply request_no_origin).
  pose proof (base64_no_cr key HF) as Hcr.
  rewrite upgradeReq_lines. set (rest := [SEC_WEBSOCKET_KEY ++ key] ++ request_tail).
  assert (Ev : Request_DecodeVersion (http_lines (request_head ++ rest)) 0 = str "HTTP/1.1").
  { apply (Request_DecodeVersion_line (str "GET") (str "/") (str "HTTP/1.1")
             (http_lines (tail request_head ++ rest))); no_char || done. }
  assert (Ec : DecodeHeader (http_lines (request_head ++ rest)) CONNECTION = str "Upgrade").
  { apply (DecodeHeader_lines CONNECTION (str "Upgrade") (take 1 request_head)
             (http_lines (drop 2 request_head ++ rest))); try done; try no_char.
    repeat constructor; no_occur. }
  assert (Eu : DecodeHeader (http_lines (request_head ++ rest)) UPGRADE = str "websocket").
  { apply (DecodeHeader_lines UPGRADE (str "websocket") (take 4 request_head)
             (http_lines (drop 5 request_head ++ rest))); try done; try no_char.
    repeat constructor; no_occur. }
  assert (Ek : DecodeHeader (http_lines (request_head ++ rest)) SEC_WEBSOCKET_KEY = key).
  { unfold rest. rewrite http_lines_app. cbn [app http_lines]. rewrite <- app_assoc.
    apply (DecodeHeader_lines SEC_WEBSOCKET_KEY key request_head); try done; try no_char.
    repeat constructor; no_occur. }
  rewrite Ev, Ec, Eu, Ek. done.
Qed.

(** ** The response *)

Lemma Response_Decode_upgrade key extra old :
  Forall is_base64_char key → key ≠ [] →
  Response_Decode (upgrade_response key ++ extra) old =
  (true, mkResponse (str "HTTP/1.1") (str "101") (str "Upgrade") (str "websocket") key).
Proof.
  intros HF Hne. unfold Response_Decode. set (t := upgrade_response key ++ extra).
  assert (Eh : find t (str "HTTP") 0 = Some 0%nat) by reflexivity. rewrite Eh.
  destruct (Response_version_status (str "HTTP/1.1") (str "101") (drop 13 t)) as [Ev Es];
    [no_char|done|no_char|done|].
  assert (Et : t = str "HTTP/1.1" ++ [SPACE] ++ str "101" ++ [SPACE] ++ drop 13 t) by reflexivity.
  rewrite <- Et in Ev, Es. rewrite Ev. change (0 + length (str "HTTP/1.1"))%nat with (length (str "HTTP/1.1")).
  rewrite Es.
  assert (Ec : DecodeHeader t CONNECTION = str "Upgrade").
  { apply (DecodeHeader_lines CONNECTION (str "Upgrade") [SWITCHING_PROTOCOLS]
      (http_lines [UPGRADE_WEBSOCKET; ACCEPT_KEY ++ key; []] ++ extra)); try done; try no_char.
    repeat constructor; no_occur. }
  assert (Eu : DecodeHeader t UPGRADE = str "websocket").
  { apply (DecodeHeader_lines UPGRADE (str "websocket") [SWITCHING_PROTOCOLS; CONNECTION_UPGRADE]
      (http_lines [ACCEPT_KEY ++ key; []] ++ extra)); try done; try no_char.
    repeat constructor; no_occur. }
  assert (Ek : DecodeHeader t SEC_WEBSOCKET_ACCEPT = key).
  { unfold t, upgrade_response. set (before := [SWITCHING_PROTOCOLS; CONNECTION_UPGRADE; UPGRADE_WEBSOCKET]).
    change [SWITCHING_PROTOCOLS; CONNECTION_UPGRADE; UPGRADE_WEBSOCKET; ACCEPT_KEY ++ key; []]
      with (before ++ [ACCEPT_KEY ++ key] ++ [[]]).
    rewrite http_lines_app. cbn [app http_lines]. rewrite <- !app_assoc.
    apply (DecodeHeader_lines SEC_WEBSOCKET_ACCEPT key before); try done; try no_char;
      [by apply base64_no_cr|]. repeat constructor; no_occur. }
  by rewrite Ec, Eu, Ek.
Qed.

(** ** The two sides *)

Lemma recv_once_retries max n bs rest :
  bs ≠ [] → (length bs ≤ max)%nat →
  recv_once max (replicate n RRetry ++ RData bs :: rest) = Some (Some bs, rest).
Proof.
  intros Hne Hl. induction n as [|n IH]; [|done].
  simpl. rewrite decide_False by done. by rewrite decide_True.
Qed.

Lemma RecvHandshake_retries n bs rest s :
  0 ≤ connectionFd_ s → bs ≠ [] → (length bs ≤ 1024)%nat →
  rx s = replicate n RRetry ++ RData bs :: rest →
  RecvHandshake s = Ret (Some bs) (set_rx rest s).
Proof.
  intros Hfd Hne Hl Hrx. unfold RecvHandshake. replace (_ <? 0) with false by lia.
  rewrite Hrx, recv_once_retries by done. done.
Qed.

(** The kernel takes the whole message at once. *)
Lemma SendUnderLock_all m s :
  0 ≤ connectionFd_ s → tx s = [] → SendUnderLock m s = Ret true (set_tx [] m s).
Proof.
  intros Hfd Htx. unfold SendUnderLock. replace (_ <? 0) with false by lia.
  rewrite Htx. unfold Send. by destruct m.
Qed.

Section Handshake.
Context `{ssl : OpenSSL} {sslOK : OpenSSLOK ssl}.

Definition good_key (key : bytes) : Prop :=
  Z.of_nat (length key) = KEY_LENGTH ∧ Forall is_base64_char key.

Lemma good_key_ne key : good_key key → key ≠ [].
Proof. by intros [Hl _] ->. Qed.

Lemma upgradeReq_length key : good_key key → (length (upgradeReq key) ≤ 1024)%nat.
Proof.
  intros [Hl _]. change KEY_LENGTH with 24 in Hl. unfold upgradeReq. rewrite !length_app.
  change (length CLIENT_WS_UPGRADE_REQ_BEFORE_KEY) with 182%nat.
  change (length CLIENT_WS_UPGRADE_REQ_AFTER_KEY) with 50%nat. lia.
Qed.

(** The accept token of a key. *)
Lemma accept_token key :
  ∃ tok, EncodeKey_view key = Some tok ∧ Z.of_nat (length tok) = ENCODED_KEY_LEN ∧
         Forall is_base64_char tok ∧ tok ≠ [].
Proof.
  destruct (EncodeKey_source_total (key ++ WEB_SOCKET_GUID)) as (tok & E & Hl & HF).
  exists tok. split_and!; [done..|]. by intros ->.
Qed.

Lemma HttpHandShake_accepts n key tok rest s :
  good_key key → EncodeKey_view key = Some tok →
  0 ≤ connectionFd_ s → tx s = [] →
  rx s = replicate n RRetry ++ RData (upgradeReq key) :: rest →
  HttpHandShake None s = Ret true (set_tx [] (upgrade_response tok) (set_rx rest s)).
Proof.
  intros Hk Et Hfd Htx Hrx. pose proof (good_key_ne key Hk). unfold HttpHandShake.
  erewrite m_bind_ret by (apply (RecvHandshake_retries n (upgradeReq key)); [done|done|by apply upgradeReq_length|done]).
  cbv beta iota. rewrite Request_Decode_upgradeReq; [|apply Hk|done]. cbn [negb].
  set (req := mkRequest _ _ _ _ _).
  assert (Ev : ValidateHandShakeMessage req = true) by reflexivity.
  rewrite Ev. unfold ProtocolUpgrade. cbn [req secWebSocketKey]. rewrite Et.
  rewrite ProtocolUpgradeBuilder_text.
  - apply SendUnderLock_all; done.
  - destruct (accept_token key) as (tok' & E' & Hl & _). by rewrite Et in E'; simplify_eq.
Qed.

(** The client accepts the response to its key, whatever follows it. *)
Lemma ValidateServerHandShake_accepts key tok :
  EncodeKey_view key = Some tok → Z.of_nat (length tok) = ENCODED_KEY_LEN → Forall is_base64_char tok →
  ValidateServerHandShake key
    (mkResponse (str "HTTP/1.1") (str "101") (str "Upgrade") (str "websocket") tok) = true.
Proof.
  intros Et Hl HF. unfold ValidateServerHandShake.
  cbn [status rsp_upgrade rsp_connection secWebSocketAccept].
  rewrite !bool_decide_true by done. cbn [negb]. rewrite Et, base64_Trim by done.
  rewrite Hl. by rewrite bool_decide_true.
Qed.

Lemma ClientRecv_accepts n key tok extra rest c :
  secWebSocketKey_ c = key → EncodeKey_view key = Some tok →
  connectionState_ (cbase c) = CONNECTING → 0 ≤ connectionFd_ (cbase c) →
  rx (cbase c) = replicate n RRetry ++ RData (upgrade_response tok ++ extra) :: rest →
  (length (upgrade_response tok ++ extra) ≤ 1024)%nat →
  ClientRecvWSUpgradeRsp c = Ret true (mkClient (set_state OPEN (set_rx rest (cbase c))) key).
Proof.
  intros Hk Et Hs Hfd Hrx Hl. destruct (accept_token key) as (tok' & E' & Htl & HF & Hne).
  rewrite Et in E'. injection E' as <-. unfold ClientRecvWSUpgradeRsp.
  erewrite m_bind_ret by reflexivity. rewrite Hs. cbn [is_closing bool_decide].
  change (is_closing CONNECTING) with false. change (bool_decide (CONNECTING = OPEN)) with false. cbv iota.
  pose proof (RecvHandshake_retries n (upgrade_response tok ++ extra) rest (cbase c) Hfd
    ltac:(done) Hl Hrx) as Er.
  erewrite m_bind_ret; [|unfold on_cbase; rewrite Er; reflexivity].
  cbv beta iota. rewrite Response_Decode_upgrade by done. rewrite Hk.
  rewrite ValidateServerHandShake_accepts by done. cbn [negb andb]. subst key. done.
Qed.

End Handshake.

(** ** The life cycle of a server connection *)

Lemma io_recv_handshake : io RecvHandshake.
Proof.
  intros s. unfold RecvHandshake. repeat case_match; by repeat split.
Qed.
#[export] Hint Resolve io_recv_handshake : ark.

Lemma io_upgrade `{OpenSSL} req : io (ProtocolUpgrade req).
Proof. unfold ProtocolUpgrade. case_match; auto with ark. Qed.
Lemma io_invalid_handshake : io ResponseInvalidHandShake.
Proof. apply io_send. Qed.
#[export] Hint Resolve io_upgrade io_invalid_handshake : ark.

Lemma io_handshake `{OpenSSL} cb : io (HttpHandShake cb).
Proof.
  unfold HttpHandShake. apply io_bind; [auto with ark|]. intros [msgBuf|]; [|auto with ark].
  destruct (Request_Decode _ _) as [ok req]. repeat case_match; auto with ark.
Qed.

(** Neither the receives nor the sends of the handshake throw. *)
Definition nothrow {S A} (m : M S A) : Prop := ∀ s s', m s ≠ Throw s'.

Lemma nothrow_ret {S A} (a : A) : nothrow (S := S) (m_ret a).
Proof. done. Qed.
Lemma nothrow_bind {S A B} (m : M S A) (k : A → M S B) :
  nothrow m → (∀ a, nothrow (k a)) → nothrow (m_bind k m).
Proof.
  intros Hm Hk s s'. unfold m_bind. destruct (m s) as [a s1| |s1] eqn:E;
    [apply Hk|done|]. by destruct (Hm s s1).
Qed.
Lemma nothrow_send m : nothrow (SendUnderLock m).
Proof. intros s s'. by destruct (SendUnderLock_total m s) as (? & ? & ? & -> & _). Qed.
Lemma nothrow_recv_handshake : nothrow RecvHandshake.
Proof. intros s s'. unfold RecvHandshake. repeat case_match; done. Qed.
#[export] Hint Resolve nothrow_ret nothrow_bind nothrow_send nothrow_recv_handshake : ark.

Lemma handshake_no_throw `{OpenSSL} cb : nothrow (HttpHandShake cb).
Proof.
  unfold HttpHandShake. apply nothrow_bind; [auto with ark|]. intros [msgBuf|]; [|auto with ark].
  destruct (Request_Decode _ _) as [ok req].
  assert (nothrow (ProtocolUpgrade req)) by (unfold ProtocolUpgrade; case_match; auto with ark).
  assert (nothrow ResponseInvalidHandShake) by apply nothrow_send.
  repeat case_match; auto with ark.
Qed.

Lemma MoveToConnectingState_eq s :
  MoveToConnectingState s =
  if serverUp_ s && bool_decide (connectionState_ (base s) = CLOSED)
  then Ret true (set_base (set_state CONNECTING (base s)) s) else Ret false s.
Proof.
  unfold MoveToConnectingState. erewrite m_bind_ret by reflexivity.
  destruct (serverUp_ s) eqn:Hup; [|done]. cbn [negb andb].
  unfold on_base, CompareExchangeConnectionState, m_bind. case_decide as Hc.
  - rewrite bool_decide_true by done. cbn. by rewrite Hup.
  - rewrite bool_decide_false by done. cbn. by destruct s.
Qed.

(** Events of a successful and of a failed handshake. *)
Definition open_events (s : server) : list ws_event := if openCb_ s then [EvOpenCb] else [].

Lemma FinishConnecting_cases `{OpenSSL} s :
  connectionState_ (base s) = CONNECTING →
  match FinishConnecting s with
  | Ret true s' =>
      connectionState_ (base s') = OPEN ∧ connectionFd_ (base s') = connectionFd_ (base s) ∧
      trace (base s') = trace (base s) ++ open_events s ∧ serverUp_ s' = serverUp_ s
  | Ret false s' =>
      connectionState_ (base s') = CLOSED ∧ connectionFd_ (base s') = -1 ∧
      trace (base s') = trace (base s) ++ cb_events FAIL (base s)
        ++ [EvShutdown (connectionFd_ (base s)); EvClose (connectionFd_ (base s))] ∧
      serverUp_ s' = serverUp_ s
  | Block s' => io_only (base s) (base s')
  | Throw s' => False
  end.
Proof.
  intros Hs. unfold FinishConnecting. erewrite m_bind_ret by reflexivity.
  pose proof (io_handshake (validateCb_ s) (base s)) as Hio.
  pose proof (handshake_no_throw (validateCb_ s) (base s)) as Hth.
  unfold m_bind at 1, on_base at 1.
  destruct (HttpHandShake (validateCb_ s) (base s)) as [[] b|b|b]; cbn [out_state] in Hio.
  - cbn [negb]. unfold OnNewConnection, m_bind, m_modify, on_base, SetConnectionState, m_ret, open_events.
    destruct Hio as (E1 & E2 & E3 & E4 & E5). destruct s as [b0 up fd v o]. cbn in *.
    destruct o; cbn; rewrite ?app_nil_r; split_and!; try done; by rewrite E5.
  - cbn [negb]. erewrite m_bind_ret by reflexivity. unfold m_bind at 1, on_base.
    rewrite CloseConnectionSocket_closing by done. cbn.
    destruct Hio as (E1 & E2 & E3 & E4 & E5). unfold cb_events. cbn. rewrite E2, E4, E5. done.
  - done.
  - by destruct (Hth b).
Qed.

(** The two halves of the handshake on the whole objects. *)
Lemma ClientSend_sends `{ssl : OpenSSL} `{!OpenSSLOK ssl} bs c :
  Z.of_nat (length bs) = SEC_WEBSOCKET_KEY_BYTES_LEN →
  connectionState_ (cbase c) = CONNECTING → 0 ≤ connectionFd_ (cbase c) → tx (cbase c) = [] →
  ∃ key, good_key key ∧
    ClientSendWSUpgradeReq (Some bs) c = Ret true (mkClient (set_tx [] (upgradeReq key) (cbase c)) key).
Proof.
  intros Hbs Hs Hfd Htx.
  destruct (GenerateRandomSecWSKey_some bs (secWebSocketKey_ c) Hbs) as (key & Eg & Hk).
  exists key. split; [done|]. unfold ClientSendWSUpgradeReq. erewrite m_bind_ret by reflexivity.
  rewrite Hs, Eg.
  change (is_closing CONNECTING) with false. change (bool_decide (CONNECTING = OPEN)) with false.
  cbv iota. erewrite m_bind_ret by reflexivity. cbn [negb].
  erewrite m_bind_ret; [|unfold on_cbase; rewrite SendUnderLock_all by done; reflexivity]. done.
Qed.

Lemma Accept_accepts `{ssl : OpenSSL} `{!OpenSSLOK ssl} fd n key tok rest s :
  good_key key → EncodeKey_view key = Some tok →
  serverUp_ s = true → connectionState_ (base s) = CLOSED → 0 ≤ fd → tx (base s) = [] →
  validateCb_ s = None → rx (base s) = replicate n RRetry ++ RData (upgradeReq key) :: rest →
  ∃ s', AcceptNewConnection fd s = Ret true s' ∧ connectionState_ (base s') = OPEN ∧
    connectionFd_ (base s') = fd ∧ rx (base s') = rest ∧
    sent (base s') = sent (base s) ++ upgrade_response tok.
Proof.
  intros Hk Et Hup Hss Hfd Htx Hcb Hrx.
  set (b0 := set_fd fd (set_state CONNECTING (base s))).
  pose proof (HttpHandShake_accepts n key tok rest b0 Hk Et Hfd Htx Hrx) as Hsrv.
  assert (Hon : ∀ S, base S = b0 → on_base (HttpHandShake None) S =
    Ret true (set_base (set_tx [] (upgrade_response tok) (set_rx rest b0)) S)).
  { intros S HS. unfold on_base. by rewrite HS, Hsrv. }
  eexists. split.
  - unfold AcceptNewConnection.
    erewrite m_bind_ret; [|rewrite MoveToConnectingState_eq, Hup, bool_decide_true by exact Hss; reflexivity].
    cbn [negb]. replace (fd <? SOCKET_SUCCESS) with false by (unfold SOCKET_SUCCESS; lia).
    erewrite m_bind_ret by reflexivity. unfold FinishConnecting.
    erewrite m_bind_ret by reflexivity. cbn [validateCb_ set_base]. rewrite Hcb.
    erewrite m_bind_ret by (by apply Hon). cbn [negb]. reflexivity.
  - destruct s as [b up sfd v []]; by split_and!.
Qed.

Lemma upgrade_response_length tok :
  Z.of_nat (length tok) = ENCODED_KEY_LEN → length (upgrade_response tok) = 129%nat.
Proof.
  intros Htl. change ENCODED_KEY_LEN with 28 in Htl. unfold upgrade_response.
  cbn [http_lines]. rewrite !length_app.
  change (length SWITCHING_PROTOCOLS) with 32%nat. change (length CONNECTION_UPGRADE) with 19%nat.
  change (length UPGRADE_WEBSOCKET) with 18%nat. change (length ACCEPT_KEY) with 22%nat. simpl. lia.
Qed.

(** ** Closing the server *)

(** Waiting changes nothing but the trace, and nothing at all unless the
    connection is being opened. *)
Lemma WaitConnectingStateEnds_up obs : ∀ conn w s c s',
  WaitConnectingStateEnds conn w obs s = Ret c s' → serverUp_ s' = serverUp_ s.
Proof.
  induction obs as [|o obs IH]; intros conn w s c s'; cbn [WaitConnectingStateEnds];
    (case_decide; [|by intros [= _ <-]]); unfold m_bind; cbn [m_get];
    destruct (negb w && _); cbn [m_modify m_ret]; try done; intros E; by apply IH in E.
Qed.

Lemma WaitConnectingStateEnds_not conn w obs s :
  conn ≠ CONNECTING → WaitConnectingStateEnds conn w obs s = Ret conn s.
Proof. intros. by destruct obs; cbn [WaitConnectingStateEnds]; rewrite decide_False. Qed.

(** The last step of [Close]: the server socket is closed, then the connection
    if it is open. *)
Definition close_tail `{Platform} (connection : ConnectionState) : M server () :=
  CloseServerSocket ;;;
  if is_closing connection then m_ret () else
  _ <-- on_base (CloseConnection (impl := WebSocketServer) SERVER_GO_AWAY) ;; m_ret ().

Lemma close_tail_spec `{Platform} connection s :
  ∃ s', close_tail connection s = Ret () s' ∧ serverUp_ s' = serverUp_ s ∧ serverFd_ s' = -1 ∧
    (connection = OPEN → connectionState_ (base s) = OPEN →
     connectionState_ (base s') = CLOSED ∧ connectionFd_ (base s') = -1 ∧
     trace (base s') = trace (base s) ++ [EvClose (serverFd_ s)] ++ cb_events CLOSE_REASON (base s)
       ++ [EvShutdown (connectionFd_ (base s)); EvClose (connectionFd_ (base s))]).
Proof.
  unfold close_tail. erewrite m_bind_ret by reflexivity.
  destruct (is_closing connection) eqn:Ec.
  { eexists. split_and!; [reflexivity|done..|]. by intros ->. }
  set (b := log (EvClose (serverFd_ s)) (base s)).
  assert (Hon : ∀ S ok b', base S = b → CloseConnection (impl := WebSocketServer) SERVER_GO_AWAY b = Ret ok b' →
    m_bind (λ _, m_ret ()) (on_base (CloseConnection (impl := WebSocketServer) SERVER_GO_AWAY)) S =
    Ret () (set_base b' S)).
  { intros S ok b' HS E. unfold m_bind, on_base. by rewrite HS, E. }
  destruct (decide (connectionState_ (base s) = OPEN)) as [Ho|Ho].
  - destruct (CloseConnection_open (impl := WebSocketServer) SERVER_GO_AWAY b Ho)
      as (tx' & out & r & w & E & _).
    eexists. split; [by eapply Hon|]. split_and!; [done..|]. intros _ _. cbn.
    split_and!; [done..|]. by rewrite <- app_assoc.
  - eexists. split; [eapply Hon; [done|by apply CloseConnection_not_open]|]. by split_and!.
Qed.

(** ** Initialisation of the server *)

Lemma CloseServerSocket_eq s :
  CloseServerSocket s = Ret () (set_serverFd (-1) (set_base (log (EvClose (serverFd_ s)) (base s)) s)).
Proof. done. Qed.

(** ** Properties *)

(** A random-looking but concrete OpenSSL for the witnesses: the digest is the
    first twenty bytes of the padded message, the encoding spells the nibbles. *)
Definition demo_ssl : OpenSSL := {|
  SHA1 m := take 20 (m ++ replicate 20 0);
  EVP_EncodeBlock b := take (Z.to_nat ((Z.of_nat (length b) + 2) / 3 * 4))
    (((λ c, 65 + c mod 16) <$> b) ++ replicate (S (length b) * 4) 61) |}.

Lemma demo_ssl_ok : OpenSSLOK demo_ssl.
Proof.
  split.
  - intros m. cbn [SHA1 demo_ssl]. rewrite length_take, length_app, length_replicate.
    unfold SHA_DIGEST_LENGTH. lia.
  - intros b. cbn [EVP_EncodeBlock demo_ssl].
    rewrite length_take, length_app, length_fmap, length_replicate. zdiv.
  - intros b. apply Forall_take, Forall_app. split.
    + apply Forall_fmap, Forall_true. intros c. cbn. unfold is_base64_char. zdiv.
    + apply Forall_replicate. unfold is_base64_char. lia.
Defined.

(** C31: the upgrade handshake completes. A client in [CONNECTING] whose random
    source delivers sixteen bytes sends its request; a server that is up and
    has no connection accepts it on the new socket, answers and is [OPEN]; the
    client accepts this answer and is [OPEN] too. It holds for every SHA-1 and
    base64 implementation with outputs of the documented size and alphabet, for
    every random key and for any number of interrupted [recv] calls. *)
Theorem upgrade_handshake `{ssl : OpenSSL} `{!OpenSSLOK ssl} (bs : bytes) (c : client) (s : server)
    (fd : Z) (nc ns : nat) (rxc rxs : list recv_ev) :
  Z.of_nat (length bs) = SEC_WEBSOCKET_KEY_BYTES_LEN →
  connectionState_ (cbase c) = CONNECTING → 0 ≤ connectionFd_ (cbase c) → tx (cbase c) = [] →
  serverUp_ s = true → connectionState_ (base s) = CLOSED → 0 ≤ fd → tx (base s) = [] →
  validateCb_ s = None →
  ∃ c1 s1 c2 req rsp,
    ClientSendWSUpgradeReq (Some bs) c = Ret true c1 ∧
    sent (cbase c1) = sent (cbase c) ++ req ∧
    AcceptNewConnection fd
      (set_base (set_rx (replicate ns RRetry ++ RData req :: rxs) (base s)) s) = Ret true s1 ∧
    sent (base s1) = sent (base s) ++ rsp ∧
    connectionState_ (base s1) = OPEN ∧ connectionFd_ (base s1) = fd ∧ rx (base s1) = rxs ∧
    ClientRecvWSUpgradeRsp
      (mkClient (set_rx (replicate nc RRetry ++ RData rsp :: rxc) (cbase c1)) (secWebSocketKey_ c1)) =
      Ret true c2 ∧
    connectionState_ (cbase c2) = OPEN ∧ rx (cbase c2) = rxc.
Proof.
  intros Hbs Hcs Hcfd Hctx Hup Hss Hfd Hstx Hcb.
  destruct (ClientSend_sends bs c) as (key & Hk & Esend); [done..|].
  destruct (accept_token key) as (tok & Et & Htl & HFt & Hne).
  destruct (Accept_accepts fd ns key tok rxs
    (set_base (set_rx (replicate ns RRetry ++ RData (upgradeReq key) :: rxs) (base s)) s))
    as (s1 & Eacc & Ho & Hf & Hr & Hsent); [done..|].
  pose proof (ClientRecv_accepts nc key tok [] rxc (mkClient (set_rx (replicate nc RRetry
    ++ RData (upgrade_response tok) :: rxc) (set_tx [] (upgradeReq key) (cbase c))) key)) as Hrecv.
  rewrite app_nil_r, upgrade_response_length in Hrecv by done.
  eexists _, s1, _, (upgradeReq key), (upgrade_response tok).
  split_and!; [exact Esend|done|exact Eacc|exact Hsent|done..|apply Hrecv; done || lia|done|done].
Qed.

Definition demo_client : client :=
  mkClient (mkWs CONNECTING 3 false false [] [] [] [] []) [].
Definition demo_server : server := mkServer ws_init true 4 None true.

Lemma upgrade_handshake_witness :
  ∃ c1 s1 c2 req rsp,
    ClientSendWSUpgradeReq (H := demo_ssl) (Some (Zrange 16)) demo_client = Ret true c1 ∧
    sent (cbase c1) = [] ++ req ∧
    AcceptNewConnection (H := demo_ssl) 7
      (set_base (set_rx ([RRetry] ++ [RData req]) ws_init) demo_server) = Ret true s1 ∧
    sent (base s1) = [] ++ rsp ∧
    connectionState_ (base s1) = OPEN ∧ connectionFd_ (base s1) = 7 ∧ rx (base s1) = [] ∧
    ClientRecvWSUpgradeRsp (H := demo_ssl)
      (mkClient (set_rx ([] ++ [RData rsp; REof]) (cbase c1)) (secWebSocketKey_ c1)) = Ret true c2 ∧
    connectionState_ (cbase c2) = OPEN ∧ rx (cbase c2) = [REof].
Proof.
  apply (@upgrade_handshake demo_ssl demo_ssl_ok (Zrange 16) demo_client demo_server 7 0 1 [REof] []);
    (reflexivity || (cbn; lia)).
Defined.

(** The outcomes of [AcceptNewConnection] from any state. It succeeds only
    on a server that is up and has no connection, and then the connection is
    [OPEN] on the accepted socket and the open callback has run once. A refused
    or failed accept leaves the server as it was. After a failed handshake the
    accepted socket has been shut down and closed once, after the fail
    callback, and the connection is [CLOSED] again. While the request has not
    arrived the connection stays [CONNECTING]; nothing throws. *)
Theorem accept_outcomes `{OpenSSL} (fd : Z) (s : server) :
  let can := serverUp_ s = true ∧ connectionState_ (base s) = CLOSED in
  match AcceptNewConnection fd s with
  | Ret true s' =>
      can ∧ 0 ≤ fd ∧ connectionState_ (base s') = OPEN ∧ connectionFd_ (base s') = fd ∧
      trace (base s') = trace (base s) ++ open_events s ∧ serverUp_ s' = true
  | Ret false s' =>
      ((¬ can ∨ fd < 0) ∧ s' = s) ∨
      (can ∧ 0 ≤ fd ∧ connectionState_ (base s') = CLOSED ∧ connectionFd_ (base s') = -1 ∧
       trace (base s') = trace (base s) ++ cb_events FAIL (base s) ++ [EvShutdown fd; EvClose fd])
  | Block s' =>
      can ∧ 0 ≤ fd ∧ connectionState_ (base s') = CONNECTING ∧ connectionFd_ (base s') = fd
  | Throw _ => False
  end.
Proof.
  intros can. unfold AcceptNewConnection, m_bind at 1. rewrite MoveToConnectingState_eq.
  destruct (serverUp_ s) eqn:Hup; cbn [andb]; [|left; split; [left; by intros [? _]|done]].
  destruct (decide (connectionState_ (base s) = CLOSED)) as [Hc|Hc];
    [rewrite bool_decide_true by done|rewrite bool_decide_false by done; left; split; [left; by intros [_ ?]|done]].
  cbn [negb]. unfold SOCKET_SUCCESS. destruct (Z.ltb_spec fd 0).
  { left. split; [by right|]. cbn. destruct s as [b ? ? ? ?]. cbn in *. unfold set_base, set_state. cbn.
    rewrite <- Hc. by destruct b. }
  erewrite m_bind_ret by reflexivity.
  pose proof (FinishConnecting_cases (set_base (set_fd fd (set_state CONNECTING (base s))) s) eq_refl) as HF.
  destruct (FinishConnecting _) as [[] s'|s'|s'].
  - destruct HF as (E1 & E2 & E3 & E4). rewrite E4. done.
  - right. by destruct HF as (E1 & E2 & E3 & E4).
  - destruct HF as (E1 & E2 & _). done.
  - done.
Qed.

(** [Close] stops the server for good: afterwards it is not up, its socket
    is closed, and [AcceptNewConnection] refuses without touching anything. A
    connection that was [OPEN] has been closed once, with its callback. *)
Theorem close_stops_server `{OpenSSL} `{Platform} (obs : list ConnectionState) (s s' : server) (fd : Z) :
  serverUp_ s = true → Close obs s = Ret () s' →
  serverUp_ s' = false ∧ serverFd_ s' = -1 ∧ AcceptNewConnection fd s' = Ret false s' ∧
  (connectionState_ (base s) = OPEN →
   connectionState_ (base s') = CLOSED ∧ connectionFd_ (base s') = -1 ∧
   trace (base s') = trace (base s) ++ [EvShutdown (serverFd_ s); EvClose (serverFd_ s)]
     ++ cb_events CLOSE_REASON (base s)
     ++ [EvShutdown (connectionFd_ (base s)); EvClose (connectionFd_ (base s))]).
Proof.
  intros Hup HC.
  assert (Hacc : ∀ s0, serverUp_ s0 = false → AcceptNewConnection fd s0 = Ret false s0).
  { intros s0 Hs0. unfold AcceptNewConnection, m_bind at 1. by rewrite MoveToConnectingState_eq, Hs0. }
  revert HC. unfold Close. erewrite m_bind_ret by reflexivity.
  erewrite m_bind_ret by reflexivity. rewrite Hup. cbn [negb]. erewrite m_bind_ret by reflexivity.
  destruct (is_closing (connectionState_ (base s))) eqn:Ec.
  { cbn. intros [= <-]. split_and!; [done|done|by apply Hacc|]. intros Ho. by rewrite Ho in Ec. }
  set (s1 := set_base _ _). unfold m_bind at 1.
  destruct (WaitConnectingStateEnds _ _ _ s1) as [c s2| |] eqn:Ew; [|done..].
  destruct (close_tail_spec c s2) as (s3 & E3 & Hup3 & Hfd3 & Ho3).
  unfold close_tail in E3. rewrite E3. intros [= <-].
  pose proof (WaitConnectingStateEnds_up _ _ _ _ _ _ Ew) as Hup2.
  assert (serverUp_ s3 = false) by (by rewrite Hup3, Hup2).
  split_and!; [done|done|by apply Hacc|]. intros Ho.
  rewrite WaitConnectingStateEnds_not in Ew by (by rewrite Ho). injection Ew as <- <-.
  destruct (Ho3 Ho Ho) as (E4 & E5 & E6). split_and!; [done..|]. rewrite E6. cbn. by rewrite <- app_assoc.
Qed.

Lemma close_stops_server_witness :
  let _ := demo_platform in
  let s := mkServer (open_ws []) true 4 None true in
  let s' := mkServer (mkWs CLOSED (-1) true true [] [] [136; 2; 3; 233] [7; 8; 9; 10; 11]
     [EvShutdown 4; EvClose 4; EvCloseCb; EvShutdown 5; EvClose 5]) false (-1) None true in
  serverUp_ s' = false ∧ serverFd_ s' = -1 ∧ AcceptNewConnection (H := demo_ssl) 9 s' = Ret false s' ∧
  (connectionState_ (base s) = OPEN →
   connectionState_ (base s') = CLOSED ∧ connectionFd_ (base s') = -1 ∧
   trace (base s') = [] ++ [EvShutdown 4; EvClose 4] ++ [EvCloseCb] ++ [EvShutdown 5; EvClose 5]).
Proof.
  intros P s s'. exact (close_stops_server (H := demo_ssl) [] s s' 9 eq_refl eq_refl).
Defined.

(** A client whose connection attempt or handshake fails is left
    [CLOSED] with its socket closed once and the fail callback run, except when
    no socket could be created, where nothing has changed; on success it is
    [CONNECTING] on the new socket. *)
Theorem client_init_outcomes (a : init_answers) (timeoutLimit : Z) (c : client) :
  connectionState_ (cbase c) = CLOSED →
  ∃ ok c', InitToolchainWebSocketForPort a timeoutLimit c = Ret ok c' ∧
    secWebSocketKey_ c' = secWebSocketKey_ c ∧
    if ok then 0 ≤ a_socket a ∧ connectionState_ (cbase c') = CONNECTING ∧
               connectionFd_ (cbase c') = a_socket a ∧ trace (cbase c') = trace (cbase c)
    else (a_socket a < 0 ∧ c' = c) ∨
         (0 ≤ a_socket a ∧ connectionState_ (cbase c') = CLOSED ∧ connectionFd_ (cbase c') = -1 ∧
          trace (cbase c') = trace (cbase c) ++ cb_events FAIL (cbase c)
            ++ [EvShutdown (a_socket a); EvClose (a_socket a)]).
Proof.
  intros Hc. destruct c as [b k]. cbn in Hc.
  assert (Hf : ∀ b', connectionState_ b' = CLOSED → connectionFd_ b' = a_socket a →
     trace b' = trace b → failCb_ b' = failCb_ b → 0 ≤ a_socket a →
    ∃ b'', m_bind (λ _, m_ret false) CloseOnInitFailure (mkClient b' k) = Ret false (mkClient b'' k) ∧
      connectionState_ b'' = CLOSED ∧ connectionFd_ b'' = -1 ∧
      trace b'' = trace b ++ cb_events FAIL b ++ [EvShutdown (a_socket a); EvClose (a_socket a)]).
  { intros b' H1 H2 H3 H4 H5. unfold CloseOnInitFailure, m_bind, on_cbase, CompareExchangeConnectionState.
    cbn [cbase]. rewrite decide_False by (by rewrite H1). cbn [cbase secWebSocketKey_].
    unfold CloseConnectionSocket, m_bind. rewrite OnConnectionClose_eq. cbn.
    unfold CompareExchangeConnectionState. cbn. rewrite decide_False by (by rewrite H1). cbn.
    eexists. split; [done|]. cbn. rewrite H1, H2, H3. split_and!; [done..|].
    unfold cb_events. rewrite H4. by rewrite <- !app_assoc. }
  unfold InitToolchainWebSocketForPort. erewrite m_bind_ret by reflexivity. cbn [cbase].
  rewrite bool_decide_true by done. cbn [negb]. unfold SOCKET_SUCCESS.
  destruct (Z.ltb_spec (a_socket a) 0).
  { eexists false, _. split; [done|]. split; [done|]. left. done. }
  erewrite m_bind_ret by reflexivity. cbn [cbase].
  destruct (Hf (set_fd (a_socket a) b)) as (b'' & E & H1 & H2 & H3); [done..|].
  repeat (destruct (negb _);
    [eexists false, (mkClient b'' k); split; [exact E|]; split; [done|]; right; done|]).
  eexists true, _. split; [done|]. cbn. done.
Qed.

Definition demo_answers (ok : bool) : init_answers := {|
  a_socket := 6; a_reuseaddr := true; a_sndtimeo := true; a_rcvtimeo := true; a_inet_pton := true;
  a_memset := true; a_strcpy := true; a_bind := true; a_listen := true; a_getfl := true; a_connect := ok |}.

Lemma client_init_outcomes_witness :
  ∃ ok c', InitToolchainWebSocketForPort (demo_answers false) 5 client_init = Ret ok c' ∧
    secWebSocketKey_ c' = [] ∧
    if ok then 0 ≤ 6 ∧ connectionState_ (cbase c') = CONNECTING ∧
               connectionFd_ (cbase c') = 6 ∧ trace (cbase c') = []
    else (6 < 0 ∧ c' = client_init) ∨
         (0 ≤ 6 ∧ connectionState_ (cbase c') = CLOSED ∧ connectionFd_ (cbase c') = -1 ∧
          trace (cbase c') = [] ++ cb_events FAIL ws_init ++ [EvShutdown 6; EvClose 6]).
Proof. exact (client_init_outcomes (demo_answers false) 5 client_init eq_refl). Defined.

(** The client reads the response with a single [recv] and keeps nothing
    of what follows it: frames that arrive in the same segment as the response
    are lost, although the handshake succeeds. *)
Theorem client_handshake_drops_frames `{ssl : OpenSSL} `{!OpenSSLOK ssl}
    (key tok frames : bytes) (rest : list recv_ev) (c : client) :
  secWebSocketKey_ c = key → EncodeKey_view key = Some tok →
  connectionState_ (cbase c) = CONNECTING → 0 ≤ connectionFd_ (cbase c) →
  rx (cbase c) = RData (upgrade_response tok ++ frames) :: rest →
  (length frames ≤ 895)%nat →
  ∃ c', ClientRecvWSUpgradeRsp c = Ret true c' ∧ connectionState_ (cbase c') = OPEN ∧
        rx (cbase c') = rest.
Proof.
  intros Hk Et Hs Hfd Hrx Hl. eexists. split; [|split].
  - apply (ClientRecv_accepts 0 key tok frames rest); try done.
    destruct (accept_token key) as (tok' & E' & Htl & _). rewrite Et in E'. injection E' as <-.
    rewrite length_app, upgrade_response_length by done. lia.
  - done.
  - done.
Qed.

Lemma client_handshake_drops_frames_witness :
  ∃ c', ClientRecvWSUpgradeRsp (H := demo_ssl)
      (mkClient (mkWs CONNECTING 3 false false
        [RData (upgrade_response (default [] (EncodeKey_view (H := demo_ssl) (str "key"))) ++ [129; 1; 65])]
        [] [] [] []) (str "key")) = Ret true c' ∧
    connectionState_ (cbase c') = OPEN ∧ rx (cbase c') = [].
Proof.
  apply (@client_handshake_drops_frames demo_ssl demo_ssl_ok (str "key")
    (default [] (EncodeKey_view (H := demo_ssl) (str "key"))) [129; 1; 65] []);
    (reflexivity || (cbn; lia)).
Defined.

(** When no random key can be drawn the request is not sent and
    [ClientSendWSUpgradeReq] returns false, but unlike after the other failures
    the client stays [CONNECTING] with its socket open. *)
Theorem client_rand_failure_keeps_socket `{OpenSSL} (c : client) :
  connectionState_ (cbase c) = CONNECTING →
  ClientSendWSUpgradeReq None c = Ret false c.
Proof.
  intros Hs. unfold ClientSendWSUpgradeReq. erewrite m_bind_ret by reflexivity. rewrite Hs.
  change (is_closing CONNECTING) with false. change (bool_decide (CONNECTING = OPEN)) with false.
  cbn. by destruct c.
Qed.

Lemma client_rand_failure_keeps_socket_witness :
  ClientSendWSUpgradeReq (H := demo_ssl) None demo_client = Ret false demo_client.
Proof. exact (client_rand_failure_keeps_socket (H := demo_ssl) demo_client eq_refl). Defined.
