(* ===== verification/ServerThreads.v ===== *)
(** * The threads of a websocket server

    A debugger connection has two threads: one runs the server (it accepts a
    connection and reads messages until the connection ends), another one stops it.
    This file models both as one transition system, with each access to an atomic
    variable, each critical section and each system call as a step:
    WebSocketServer::AcceptNewConnection, ConnectUnixWebSocketBySocketpair,
    MoveToConnectingState, WaitConnectingStateEnds and Close
    (src/websocket/server/websocket_server.cpp), CloseConnection and
    CloseConnectionSocket (src/websocket/websocket_base.cpp), RunServer,
    ContinueRunserver and StopServer of WsServer (src/inspector/ws_server.cpp) and of
    ConnectServer (src/inspector/connect_server.cpp).

    The state space is finite: [states] computes everything that is reachable, and
    the properties are checked on it by evaluation. *)

From S2P Require Import Prelude WsFrame Network WsBase.

(** ** The state *)

(** A descriptor: -1, open, or shut down (so that a blocked call on it returns). *)
Inductive fd := FdNone | FdOpen | FdShut.

(** The thread of the server. *)
Inductive apc :=
| AStart | AMake | ATid | AInit
| ALoop
| AUp1 | ACas | AUp2 | AUndo
| AAccept | AFail | ASetFd | AHand | AHandBad | AOpen
| ADec | ARecv | ACloseConn
| ACl1 (failed : bool) | ACl2 (failed : bool) | ACl3 (failed : bool)
| ADone.

(** The thread that stops it. *)
Inductive cpc :=
| CIdle
| CUp | CShut | CRead | CCloseRet
| CWait (shut : bool) | CYield (shut : bool)
| CCloseS (c : ConnectionState) | CConn
| CCl1 | CCl2 | CCl3
| CJoin | CFree | CEnd.

#[export] Instance fd_eq_dec : EqDecision fd. Proof. solve_decision. Defined.
#[export] Instance apc_eq_dec : EqDecision apc. Proof. solve_decision. Defined.
#[export] Instance cpc_eq_dec : EqDecision cpc. Proof. solve_decision. Defined.

(** The atomic members of WebSocketServer, its descriptors, the members of the
    owner (WsServer or ConnectServer), whether the two objects exist, whether the
    server has ever been up, and whether something undefined has happened: a call on
    an object that is gone, an accept on a closed descriptor, a join of a thread that
    is not known. *)
Record tstate := mkT {
  serverUp : bool;
  connState : ConnectionState;
  serverFd : fd;
  connFd : fd;
  terminateExecution : bool;
  tid_known : bool;
  ws_exists : bool;
  owner_exists : bool;
  was_up : bool;
  misuse : bool;
  server_at : apc;
  stopper_at : cpc }.

#[export] Instance tstate_eq_dec : EqDecision tstate. Proof. solve_decision. Defined.

Definition set_up v s := mkT v (connState s) (serverFd s) (connFd s) (terminateExecution s) (tid_known s) (ws_exists s) (owner_exists s) (was_up s) (misuse s) (server_at s) (stopper_at s).
Definition set_state v s := mkT (serverUp s) v (serverFd s) (connFd s) (terminateExecution s) (tid_known s) (ws_exists s) (owner_exists s) (was_up s) (misuse s) (server_at s) (stopper_at s).
Definition set_sfd v s := mkT (serverUp s) (connState s) v (connFd s) (terminateExecution s) (tid_known s) (ws_exists s) (owner_exists s) (was_up s) (misuse s) (server_at s) (stopper_at s).
Definition set_cfd v s := mkT (serverUp s) (connState s) (serverFd s) v (terminateExecution s) (tid_known s) (ws_exists s) (owner_exists s) (was_up s) (misuse s) (server_at s) (stopper_at s).
Definition set_term v s := mkT (serverUp s) (connState s) (serverFd s) (connFd s) v (tid_known s) (ws_exists s) (owner_exists s) (was_up s) (misuse s) (server_at s) (stopper_at s).
Definition set_tid v s := mkT (serverUp s) (connState s) (serverFd s) (connFd s) (terminateExecution s) v (ws_exists s) (owner_exists s) (was_up s) (misuse s) (server_at s) (stopper_at s).
Definition set_ws v s := mkT (serverUp s) (connState s) (serverFd s) (connFd s) (terminateExecution s) (tid_known s) v (owner_exists s) (was_up s) (misuse s) (server_at s) (stopper_at s).
Definition set_owner v s := mkT (serverUp s) (connState s) (serverFd s) (connFd s) (terminateExecution s) (tid_known s) (ws_exists s) v (was_up s) (misuse s) (server_at s) (stopper_at s).
Definition set_was_up s := mkT (serverUp s) (connState s) (serverFd s) (connFd s) (terminateExecution s) (tid_known s) (ws_exists s) (owner_exists s) true (misuse s) (server_at s) (stopper_at s).
Definition set_misuse s := mkT (serverUp s) (connState s) (serverFd s) (connFd s) (terminateExecution s) (tid_known s) (ws_exists s) (owner_exists s) (was_up s) true (server_at s) (stopper_at s).
Definition goA p s := mkT (serverUp s) (connState s) (serverFd s) (connFd s) (terminateExecution s) (tid_known s) (ws_exists s) (owner_exists s) (was_up s) (misuse s) p (stopper_at s).
Definition goC p s := mkT (serverUp s) (connState s) (serverFd s) (connFd s) (terminateExecution s) (tid_known s) (ws_exists s) (owner_exists s) (was_up s) (misuse s) (server_at s) p.

Definition is_state (c : ConnectionState) (s : tstate) : bool := bool_decide (connState s = c).
Definition shutdown (f : fd) : fd := match f with FdNone => FdNone | _ => FdShut end.

(** [connectionMutex_] is held shared while data is received. *)
Definition receiving (s : tstate) : bool := match server_at s with AHand | ARecv => true | _ => false end.

Section threads.

(** [guarded]: the owner is WsServer, whose mutex covers the beginning of RunServer
    and of StopServer and whose thread is known before it can be stopped; otherwise
    it is ConnectServer. [pair]: the connection is one end of a socket pair. [peer]:
    the other end of the connection acts, or the system reports an error on its own;
    without it an accept or a receive on a descriptor that is open waits, and only one
    that has been shut down lets it return. The websocket is not shared with the static
    debugger. *)
Variables guarded pair peer : bool.

Definition thread_init : tstate := mkT false CLOSED FdNone FdNone false guarded false true false false AStart CIdle.

(** The initialisation of the socket. It may fail: before there is a descriptor or
    with the descriptor closed again; with the descriptor of the server left open,
    when the address cannot be converted; and behind the assignment of the
    connection's descriptor. *)
Definition init_socket (s : tstate) : list tstate :=
  let s' := if pair then set_cfd FdOpen s else set_sfd FdOpen s in
  [goA ALoop (set_was_up (set_up true s')); goA ADone s; goA ADone s'].

(** The mutex of WsServer is held from the assignment of the flag to the end of
    Close. *)
Definition stopper_holds_mutex (s : tstate) : bool :=
  guarded && match stopper_at s with CIdle | CJoin | CFree | CEnd => false | _ => true end.

(** CloseConnectionSocket: shut down, close and forget the descriptor (with
    [connectionMutex_] held alone), and leave CLOSING. *)
Definition close_exclusive (s : tstate) : tstate := set_cfd FdNone s.
Definition leave_closing (s : tstate) : tstate := if is_state CLOSING s then set_state CLOSED s else s.

(** AcceptNewConnection and ConnectUnixWebSocketBySocketpair. *)
Definition accepting (s : tstate) : list tstate :=
  match server_at s with
  | AUp1 => [goA (if serverUp s then ACas else ADone) s]
  | ACas => [if is_state CLOSED s then goA AUp2 (set_state CONNECTING s) else goA ADone s]
  | AUp2 => [goA (if serverUp s then (if pair then AHand else AAccept) else AUndo) s]
  | AUndo => [goA ADone (set_state CLOSED s)]
  | AAccept =>
      match serverFd s with
      | FdNone => [goA AFail (set_misuse s)]
      | FdOpen => if peer then [goA ASetFd s; goA AFail s] else []
      | FdShut => if peer then [goA ASetFd s; goA AFail s] else [goA AFail s]
      end
  | AFail => [goA ADone (set_state CLOSED s)]
  | ASetFd => [goA AHand (set_cfd FdOpen s)]
  | AHand => match connFd s with FdOpen => if peer then [goA AOpen s; goA AHandBad s] else [] | _ => [goA AHandBad s] end
  | AHandBad => [goA (ACl1 true) (set_state CLOSING s)]
  | AOpen => [goA ADec (set_state OPEN s)]
  | _ => []
  end.

(** The loop over the messages, and CloseConnection when one cannot be read. *)
Definition reading (s : tstate) : list tstate :=
  match server_at s with
  | ADec => [goA (if is_state OPEN s then ARecv else ALoop) s]
  | ARecv =>
      match connFd s with
      | FdNone => [goA ACloseConn s]
      | FdOpen => if peer then [goA ADec s; goA ACloseConn s] else []
      | FdShut => if peer then [goA ADec s; goA ACloseConn s] else [goA ACloseConn s]
      end
  | ACloseConn => [if is_state OPEN s then goA (ACl1 false) (set_state CLOSING s) else goA ADec s]
  | ACl1 f => [goA (ACl2 f) (set_cfd (shutdown (connFd s)) s)]
  | ACl2 f => [goA (ACl3 f) (close_exclusive s)]
  | ACl3 f => [goA (if f then ADone else ADec) (leave_closing s)]
  | _ => []
  end.

(** RunServer. *)
Definition running (s : tstate) : list tstate :=
  match server_at s with
  | AStart =>
      if guarded then
        if stopper_holds_mutex s then []
        else if terminateExecution s then [goA ADone s] else init_socket (set_ws true s)
      else [goA AMake (set_term false s)]
  | AMake => [goA ATid (set_ws true s)]
  | ATid => [goA AInit (set_tid true s)]
  | AInit => init_socket s
  | ALoop => [goA (if terminateExecution s then ADone else AUp1) s]
  | _ => []
  end.

(** A thread whose object has been deleted does something undefined. *)
Definition server_step (s : tstate) : list tstate :=
  match server_at s with
  | ADone => []
  | _ => if owner_exists s then running s ++ accepting s ++ reading s else [goA ADone (set_misuse s)]
  end.

(** Where Close ends: WsServer joins, and so does ConnectServer behind Close. *)
Definition closed_to (s : tstate) : tstate := goC CJoin s.

(** WebSocketServer::Close, WaitConnectingStateEnds and CloseConnection. *)
Definition closing (s : tstate) : list tstate :=
  match stopper_at s with
  | CUp => [if serverUp s then goC CShut (set_up false s) else closed_to s]
  | CShut => [goC CRead (set_sfd (shutdown (serverFd s)) s)]
  | CRead =>
      [match connState s with
       | CLOSING | CLOSED => goC CCloseRet s
       | CONNECTING => goC (CWait false) s
       | OPEN => goC (CCloseS OPEN) s
       end]
  | CCloseRet => [closed_to (set_sfd FdNone s)]
  | CWait shut =>
      [if shut then goC (CYield true) s
       else match connFd s with FdNone => goC (CYield false) s | _ => goC (CYield true) (set_cfd FdShut s) end]
  | CYield shut => [if is_state CONNECTING s then goC (CWait shut) s else goC (CCloseS (connState s)) s]
  | CCloseS c =>
      let s' := set_sfd FdNone s in
      [match c with CLOSING | CLOSED => closed_to s' | _ => goC CConn s' end]
  | CConn => [if is_state OPEN s then goC CCl1 (set_state CLOSING s) else closed_to s]
  | CCl1 => [goC CCl2 (set_cfd (shutdown (connFd s)) s)]
  | CCl2 => if receiving s then [] else [goC CCl3 (close_exclusive s)]
  | CCl3 => [closed_to (leave_closing s)]
  | _ => []
  end.

(** StopServer, and the deletion of the owner behind it. The destructors of the
    websocket close what is still open. *)
Definition stopping (s : tstate) : list tstate :=
  match stopper_at s with
  | CIdle =>
      let s' := set_term true s in
      [if ws_exists s then goC CUp s' else if guarded then goC CJoin s' else goC CFree s']
  | CJoin =>
      if tid_known s then (if bool_decide (server_at s = ADone) then [goC CFree s] else [])
      else [goC CFree (set_misuse s)]
  | CFree => [goC CEnd (set_owner false (set_ws false (set_sfd FdNone (set_cfd FdNone s))))]
  | _ => []
  end.

Definition stopper_step (s : tstate) : list tstate := stopping s ++ closing s.
Definition thread_step (s : tstate) : list tstate := server_step s ++ stopper_step s.

Inductive threads_reach : tstate → Prop :=
| threads_start : threads_reach thread_init
| threads_next s t : threads_reach s → t ∈ thread_step s → threads_reach t.

(** ** All states *)






(** A run that takes the given successors. *)
Fixpoint follow (choices : list nat) (s : tstate) : option tstate :=
  match choices with
  | [] => Some s
  | n :: ns => thread_step s !! n ≫= follow ns
  end.
Lemma follow_reach choices : ∀ s t, threads_reach s → follow choices s = Some t → threads_reach t.
Proof.
  induction choices as [|n ns IH]; intros s t Hs Hf; [by injection Hf as <-|]. cbn [follow] in Hf.
  destruct (thread_step s !! n) as [u|] eqn:E; [|done]. eapply IH; [|exact Hf]. eapply threads_next; [exact Hs|]. by eapply list_elem_of_lookup_2.
Qed.

End threads.

(** ** Stopping *)




(** The destructor has something to close: a server whose initialisation failed with
    the descriptor open, and an end of a socket pair when the server is stopped between
    its initialisation and the handshake. *)
Lemma left_to_destructor :
  (∃ s, threads_reach true false true s ∧ stopper_at s = CFree ∧ serverFd s = FdOpen) ∧
  (∃ s, threads_reach true true true s ∧ stopper_at s = CFree ∧ was_up s = true ∧ connFd s = FdOpen).
Proof.
  split.
  - assert (E : ∃ s, follow true false true [2; 0; 0; 0]%nat (thread_init true) = Some s ∧ stopper_at s = CFree ∧ serverFd s = FdOpen) by (eexists; vm_compute; done).
    destruct E as (s & E & Hs). exists s. split; [|done]. eapply follow_reach; [constructor|exact E].
  - assert (E : ∃ s, follow true true true [0; 1; 1; 1; 1; 1; 0; 0]%nat (thread_init true) = Some s ∧ stopper_at s = CFree ∧ was_up s = true ∧ connFd s = FdOpen).
    { eexists. vm_compute. done. }
    destruct E as (s & E & Hs). exists s. split; [|done]. eapply follow_reach; [constructor|exact E].
Qed.

(** ConnectServer has no such guard: when it is stopped before its thread has
    made the websocket, StopServer does not wait for the thread, and the thread runs
    on the deleted object; when it is stopped just behind that, it joins a thread
    whose number has not been stored. *)
Theorem connect_server_races (pair : bool) :
  (∃ s, threads_reach false pair true s ∧ owner_exists s = false ∧ server_at s = AStart) ∧
  (∃ s, threads_reach false pair true s ∧ misuse s = true ∧ tid_known s = false ∧ server_at s = ATid).
Proof.
  split.
  - assert (E : ∃ s, follow false pair true [1; 1]%nat (thread_init false) = Some s ∧ owner_exists s = false ∧ server_at s = AStart).
    { eexists. destruct pair; vm_compute; done. }
    destruct E as (s & E & H). exists s. split; [|done]. eapply follow_reach; [constructor|exact E].
  - assert (E : ∃ s, follow false pair true [0; 0; 1; 1; 1]%nat (thread_init false) = Some s ∧ misuse s = true ∧ tid_known s = false ∧ server_at s = ATid).
    { eexists. destruct pair; vm_compute; done. }
    destruct E as (s & E & H). exists s. split; [|done]. eapply follow_reach; [constructor|exact E].
Qed.

