(* ===== verification/CppLib.v ===== *)
(** * The C and C++ library routines of the protocol layer

    [std::to_string], [strtoll] and [strtoul] in base ten, C strings, and
    [double] as far as the protocol uses it: conversions from and to integers and
    to text; sums and narrowing conversions of [int32_t]. *)

From S2P Require Import Prelude Regex Http.
From stdpp Require Import options.
Local Open Scope Z_scope.

(** ** C strings *)

(** The characters before the first NUL, what [c_str()] shows to C. *)
Fixpoint c_str (s : bytes) : bytes :=
  match s with
  | [] => []
  | c :: s' => if c =? 0 then [] else c :: c_str s'
  end.

Definition nul_free (s : bytes) : Prop := 0 ∉ s.

Lemma c_str_nul_free s : nul_free s → c_str s = s.
Proof.
  unfold nul_free. induction s as [|c s IH]; [done|]. simpl. intros Hn.
  rewrite (proj2 (Z.eqb_neq c 0)) by set_solver. by rewrite IH by set_solver.
Qed.

Lemma c_str_idemp s : c_str (c_str s) = c_str s.
Proof.
  induction s as [|c s IH]; [done|]. simpl. destruct (c =? 0) eqn:E; [done|]. simpl. by rewrite E, IH.
Qed.

(** ** Decimal numbers *)

(** The digits of [n], most significant first, in front of [acc]; at most
    [fuel] of them. *)
Fixpoint digits (fuel : nat) (n : Z) (acc : bytes) : bytes :=
  match fuel with
  | O => acc
  | S f =>
      let acc := (48 + n mod 10) :: acc in
      if n <? 10 then acc else digits f (n / 10) acc
  end.

(** [std::to_string] of an integer of at most 64 bits: twenty digits are enough
    for its absolute value. *)
Definition to_string (z : Z) : bytes :=
  if z <? 0 then 45 :: digits 20 (- z) [] else digits 20 z [].

Definition isdigit (c : Z) : bool := (48 <=? c) && (c <=? 57).

(** The digit loop of [strtoll]: the value and the rest of the text. *)
Fixpoint strto_digits (s : bytes) (acc : Z) : Z * bytes :=
  match s with
  | c :: s' => if isdigit c then strto_digits s' (acc * 10 + (c - 48)) else (acc, s)
  | [] => (acc, [])
  end.

(** White space, an optional sign, digits: [None] when there is no digit, where
    the end pointer is the start of the text; otherwise sign, magnitude, rest. *)
Definition strto (s : bytes) : option (bool * Z * bytes) :=
  let s := TrimLeft s in
  let '(neg, s) :=
    match s with
    | c :: s' => if c =? 45 then (true, s') else if c =? 43 then (false, s') else (false, s)
    | [] => (false, [])
    end in
  match s with
  | c :: _ => if isdigit c then let '(v, rest) := strto_digits s 0 in Some (neg, v, rest) else None
  | [] => None
  end.

Definition LLONG_MAX : Z := 2 ^ 63 - 1.
Definition LLONG_MIN : Z := - 2 ^ 63.
Definition ULONG_MAX : Z := 2 ^ 64 - 1.

(** [strtoll(s, &end, 10)] saturates; [strtoul] saturates the magnitude and
    negates it modulo 2^64. *)
Definition strtoll (s : bytes) : option (Z * bytes) :=
  match strto s with
  | Some (neg, v, rest) => Some (Z.max LLONG_MIN (Z.min LLONG_MAX (if neg then - v else v)), rest)
  | None => None
  end.

Definition strtoul (s : bytes) : option (Z * bytes) :=
  match strto s with
  | Some (neg, v, rest) =>
      Some (if ULONG_MAX <? v then ULONG_MAX else if neg then wrap 64 (- v) else v, rest)
  | None => None
  end.

(** *** Printing and reading decimals *)

Lemma strto_digits_app ds : ∀ acc rest,
  Forall (λ c, isdigit c = true) ds →
  match rest with c :: _ => isdigit c = false | [] => True end →
  strto_digits (ds ++ rest) acc = (foldl (λ a c, a * 10 + (c - 48)) acc ds, rest).
Proof.
  induction ds as [|c ds IH]; intros acc rest HF Hr.
  - destruct rest as [|c rest]; [done|]. simpl. by rewrite Hr.
  - apply Forall_cons in HF as [Hc HF]. simpl. rewrite Hc. by apply IH.
Qed.

Lemma digits_app f : ∀ n acc, digits f n acc = digits f n [] ++ acc.
Proof.
  induction f as [|f IH]; intros n acc; [done|]. cbn [digits]. destruct (n <? 10); [done|].
  rewrite IH, (IH _ [_]). by rewrite <- app_assoc.
Qed.

(** [digits] prints the value and only digits. *)
Lemma digits_value f : ∀ n,
  0 ≤ n < 10 ^ Z.of_nat f →
  foldl (λ a c, a * 10 + (c - 48)) 0 (digits f n []) = n ∧
  Forall (λ c, isdigit c = true) (digits f n []) ∧ (f ≠ O → digits f n [] ≠ []).
Proof.
  induction f as [|f IH]; intros n Hn; [simpl in *; split_and!; [lia|done|done]|].
  rewrite Nat2Z.inj_succ, Z.pow_succ_r in Hn by lia. cbn [digits].
  assert (Hd : isdigit (48 + n mod 10) = true) by (unfold isdigit; zdiv).
  destruct (Z.ltb_spec n 10).
  - split_and!; [simpl; zdiv|by constructor|done].
  - destruct (IH (n / 10)) as (E & HF & _); [zdiv|]. rewrite digits_app. split_and!.
    + rewrite foldl_app, E. simpl. zdiv.
    + apply Forall_app. split; [done|by constructor].
    + intros _ E'. by apply app_eq_nil in E' as [_ ?].
Qed.

(** Reading back a printed number, with any text that is no digit behind it. *)
Lemma strto_to_string z rest :
  - 2 ^ 64 < z < 2 ^ 64 →
  match rest with c :: _ => isdigit c = false | [] => True end →
  strto (to_string z ++ rest) = Some (z <? 0, Z.abs z, rest).
Proof.
  intros Hz Hr. unfold strto, to_string.
  destruct (digits_value 20 (Z.abs z)) as (E & HF & Hne).
  { change (10 ^ Z.of_nat 20) with 100000000000000000000. lia. }
  specialize (Hne ltac:(done)).
  assert (Hdig : ∀ c l, digits 20 (Z.abs z) [] = c :: l → 48 ≤ c ≤ 57).
  { intros c l El. rewrite El in HF. apply Forall_cons in HF as [Hc _]. unfold isdigit in Hc. lia. }
  destruct (Z.ltb_spec z 0).
  - replace (- z) with (Z.abs z) by lia.
    destruct (digits 20 (Z.abs z) []) as [|c l] eqn:El; [done|].
    pose proof (Hdig c l eq_refl). cbn [app TrimLeft]. change (isspace 45) with false.
    cbv iota. change (45 =? 45) with true. cbv iota.
    replace (isdigit c) with true by (unfold isdigit; lia).
    pose proof (strto_digits_app (c :: l) 0 rest HF Hr) as Ed. rewrite E in Ed. cbn [app] in Ed.
    rewrite Ed. done.
  - assert (digits 20 z [] = digits 20 (Z.abs z) []) as -> by (f_equal; lia).
    destruct (digits 20 (Z.abs z) []) as [|c l] eqn:El; [done|].
    pose proof (Hdig c l eq_refl). cbn [app TrimLeft].
    replace (isspace c) with false by (unfold isspace; lia). cbv iota.
    replace (c =? 45) with false by lia. replace (c =? 43) with false by lia. cbv iota.
    replace (isdigit c) with true by (unfold isdigit; lia).
    pose proof (strto_digits_app (c :: l) 0 rest HF Hr) as Ed. rewrite E in Ed. cbn [app] in Ed.
    rewrite Ed. done.
Qed.

Lemma to_string_nul_free z : - 2 ^ 64 < z < 2 ^ 64 → nul_free (to_string z).
Proof.
  intros Hz. unfold nul_free, to_string.
  destruct (digits_value 20 (Z.abs z)) as (_ & HF & _).
  { change (10 ^ Z.of_nat 20) with 100000000000000000000. lia. }
  assert (Hn : 0 ∉ digits 20 (Z.abs z) []).
  { rewrite Forall_forall in HF. intros Hin. by specialize (HF _ Hin). }
  destruct (Z.ltb_spec z 0).
  - replace (- z) with (Z.abs z) by lia. by intros [?|?]%elem_of_cons.
  - assert (digits 20 z [] = digits 20 (Z.abs z) []) as -> by (f_equal; lia). done.
Qed.

(** ** [double]

    A finite value [m * 2^e], an infinity or a NaN. *)
Inductive double :=
| DFin (m e : Z)
| DInf (neg : bool)
| DNaN.

#[export] Instance double_eq_dec : EqDecision double.
Proof. solve_decision. Defined.

(** Conversion of an integer: exact up to 53 bits, otherwise rounded to the
    nearest value with 53 bits, ties to even. *)
Definition double_of_Z (z : Z) : double :=
  if Z.abs z <=? 2 ^ 53 then DFin z 0
  else
    let s := Z.log2 (Z.abs z) - 52 in
    let q := Z.abs z / 2 ^ s in
    let r := Z.abs z mod 2 ^ s in
    let up := (2 ^ (s - 1) <? r) || ((r =? 2 ^ (s - 1)) && Z.odd q) in
    DFin (Z.sgn z * (if up then q + 1 else q)) s.

(** The value with its fraction discarded; [None] when there is none. *)
Definition double_trunc (d : double) : option Z :=
  match d with
  | DFin m e => Some (if 0 <=? e then m * 2 ^ e else Z.quot m (2 ^ (- e)))
  | _ => None
  end.

(** What the compiled code yields for a cast whose result does not fit the
    integer type, which the language leaves undefined. *)
Class CastOob := cast_oob : Z → bool → double → Z.

Definition double_to_int `{CastOob} (width : Z) (sgn : bool) (d : double) : Z :=
  let lo := if sgn then - 2 ^ (width - 1) else 0 in
  let hi := if sgn then 2 ^ (width - 1) else 2 ^ width in
  match double_trunc d with
  | Some z => if (lo <=? z) && (z <? hi) then z else cast_oob width sgn d
  | None => cast_oob width sgn d
  end.

Definition double_to_int32 `{CastOob} : double → Z := double_to_int 32 true.
Definition double_to_int64 `{CastOob} : double → Z := double_to_int 64 true.
Definition double_to_uint32 `{CastOob} : double → Z := double_to_int 32 false.
Definition double_to_uint64 `{CastOob} : double → Z := double_to_int 64 false.

Lemma double_trunc_of_Z z : Z.abs z ≤ 2 ^ 53 → double_trunc (double_of_Z z) = Some z.
Proof.
  intros Hz. unfold double_of_Z. replace (_ <=? _) with true by lia. simpl. f_equal. lia.
Qed.

Lemma double_int32 `{CastOob} z : is_int32 z → double_to_int32 (double_of_Z z) = z.
Proof.
  intros Hz. unfold is_int32 in Hz. unfold double_to_int32, double_to_int.
  rewrite double_trunc_of_Z by lia. change (2 ^ (32 - 1)) with (2 ^ 31).
  by replace (_ && _) with true by lia.
Qed.

Lemma double_uint32 `{CastOob} z : is_uint32 z → double_to_uint32 (double_of_Z z) = z.
Proof.
  intros Hz. unfold is_uint32 in Hz. unfold double_to_uint32, double_to_int.
  rewrite double_trunc_of_Z by lia. by replace (_ && _) with true by lia.
Qed.

Lemma double_int64 `{CastOob} z : Z.abs z ≤ 2 ^ 53 → double_to_int64 (double_of_Z z) = z.
Proof.
  intros Hz. unfold double_to_int64, double_to_int. rewrite double_trunc_of_Z by lia.
  change (2 ^ (64 - 1)) with (2 ^ 63). by replace (_ && _) with true by lia.
Qed.

(** [std::to_string] of a [double]: six digits behind the point, of the exact
    value rounded to the nearest, ties to even. *)
Definition div_even (n d : Z) : Z :=
  let q := n / d in
  let r := n mod d in
  if (d <? 2 * r) || ((2 * r =? d) && Z.odd q) then q + 1 else q.

Definition double_text (d : double) : bytes :=
  match d with
  | DFin m e =>
      let n := if 0 <=? e then Z.abs m * 2 ^ e * 10 ^ 6 else div_even (Z.abs m * 10 ^ 6) (2 ^ (- e)) in
      (if m <? 0 then [45] else []) ++ digits 400 (n / 10 ^ 6) [] ++ [46]
        ++ ((λ i, 48 + n / 10 ^ i mod 10) <$> [5; 4; 3; 2; 1; 0])
  | DInf neg => if neg then str "-inf" else str "inf"
  | DNaN => str "nan"
  end.

Example double_text_quarter : double_text (DFin (-9) (-2)) = str "-2.250000".
Proof. reflexivity. Qed.

(** ** [int32_t]

    The sum of two [int32_t]; what an overflow gives is left open by the language. *)
Class SignedOverflow := add_overflow : Z → Z → Z.
Definition int32_add `{SignedOverflow} (a b : Z) : Z :=
  if (- 2 ^ 31 <=? a + b) && (a + b <? 2 ^ 31) then a + b else add_overflow a b.

(** The conversion of a wider integer keeps the low 32 bits. *)
Definition i32 (z : Z) : Z := (z + 2 ^ 31) mod 2 ^ 32 - 2 ^ 31.

Lemma i32_range z : is_int32 (i32 z).
Proof. unfold is_int32, i32. pose proof (Z.mod_pos_bound (z + 2 ^ 31) (2 ^ 32)). lia. Qed.

Lemma i32_small z : is_int32 z → i32 z = z.
Proof. unfold is_int32, i32. intros Hz. rewrite Z.mod_small by lia. lia. Qed.
