(* ===== verification/Utils.v ===== *)
(** * String utilities

    Models the string functions of tooling/dynamic/utils/utils.cpp. A position is
    a [Z] with [npos = 2^64 - 1]; a function that returns [false] leaves its out
    parameter alone and is [None] here. [GetCurrentTime] and [RealPath] only
    call the operating system and are not modelled. *)

From S2P Require Import Prelude Regex Http CppLib.
From stdpp Require Import options.
Local Open Scope Z_scope.

(** ** Numbers *)

Definition INT_MAX : Z := 2 ^ 31 - 1.
Definition INT_MIN : Z := - 2 ^ 31.

(** Both overloads of [StrToInt32]. *)
Definition StrToInt32 (s : bytes) : option Z :=
  match strtoll (c_str s) with
  | None => None
  | Some (num, rest) =>
      if negb (bool_decide (rest = [])) || (INT_MAX <? num) || (num <? INT_MIN) then None
      else Some num
  end.

(** [StrToUInt]: the [unsigned long] is stored in a [uint32_t]; the flag is the
    returned value, the number is written in any case. *)
Definition StrToUInt (content : bytes) : bool * Z :=
  match strtoul content with
  | None => (false, 0)
  | Some (v, rest) => (bool_decide (rest = []), wrap 32 v)
  end.

Fixpoint skip_zeros (s : bytes) : bytes :=
  match s with
  | c :: s' => if c =? 48 then skip_zeros s' else s
  | [] => []
  end.

Definition IsNumber (s : bytes) : bool :=
  let tmpStr := skip_zeros s in
  if (9 <? Z.of_nat (length tmpStr)) then false
  else forallb isdigit tmpStr.

(** ** Splitting *)

Definition npos : Z := 2 ^ 64 - 1.

(** The index of the first character with [p], from [i]. *)
Fixpoint first_index (p : Z → bool) (s : bytes) (i : Z) : Z :=
  match s with
  | [] => npos
  | c :: s' => if p c then i else first_index p s' (i + 1)
  end.

Definition in_set (d : bytes) (c : Z) : bool := bool_decide (c ∈ d).

Definition str_find_first_of (s d : bytes) (pos : Z) : Z :=
  if Z.of_nat (length s) <=? pos then npos
  else first_index (in_set d) (drop (Z.to_nat pos) s) pos.
Definition str_find_first_not_of (s d : bytes) (pos : Z) : Z :=
  if Z.of_nat (length s) <=? pos then npos
  else first_index (λ c, negb (in_set d c)) (drop (Z.to_nat pos) s) pos.

Definition str_substr (s : bytes) (pos count : Z) : bytes :=
  take (Z.to_nat (Z.min count (Z.of_nat (length s)))) (drop (Z.to_nat pos) s).

(** The loop of [SplitString]; every iteration passes at least one character,
    so [fuel = length str + 1] is enough. *)
Fixpoint split_loop (fuel : nat) (s delimiter : bytes) (strIndex pos : Z) (value : list bytes)
    : Z * Z * list bytes :=
  match fuel with
  | O => (strIndex, pos, value)
  | S f =>
      if (pos <? Z.of_nat (length s)) && (strIndex <? pos) then
        let value := value ++ [str_substr s strIndex (pos - strIndex)] in
        let strIndex := str_find_first_not_of s delimiter pos in
        let pos := str_find_first_of s delimiter strIndex in
        split_loop f s delimiter strIndex pos value
      else (strIndex, pos, value)
  end.

Definition SplitString (s delimiter : bytes) : list bytes :=
  let pos := str_find_first_of s delimiter 0 in
  let '(strIndex, pos, value) := split_loop (S (length s)) s delimiter 0 pos [] in
  if strIndex <? pos then
    let subStr := str_substr s strIndex (pos - strIndex) in
    if bool_decide (subStr = []) then value else value ++ [subStr]
  else value.

(** ** Lemmas: numbers *)

(** Printing an [int32_t] and reading it back. *)
Lemma StrToInt32_to_string z : is_int32 z → StrToInt32 (to_string z) = Some z.
Proof.
  intros Hz. unfold is_int32 in Hz. unfold StrToInt32.
  rewrite c_str_nul_free by (apply to_string_nul_free; lia).
  pose proof (strto_to_string z [] ltac:(lia) I) as E. rewrite app_nil_r in E.
  unfold strtoll. rewrite E. rewrite bool_decide_true by done.
  assert (Ev : Z.max LLONG_MIN (Z.min LLONG_MAX (if z <? 0 then - Z.abs z else Z.abs z)) = z).
  { unfold LLONG_MIN, LLONG_MAX. destruct (Z.ltb_spec z 0); lia. }
  rewrite Ev. unfold INT_MAX, INT_MIN. by replace (_ || _ || _) with false by lia.
Qed.

(** ** Lemmas: splitting *)

(** The specification: the maximal non-empty runs without delimiters. *)
Fixpoint tokens (d s cur : bytes) : list bytes :=
  match s with
  | [] => if decide (cur = []) then [] else [cur]
  | c :: s' =>
      if in_set d c then (if decide (cur = []) then tokens d s' [] else cur :: tokens d s' [])
      else tokens d s' (cur ++ [c])
  end.

Lemma tokens_run d run : ∀ rest cur,
  Forall (λ c, in_set d c = false) run → tokens d (run ++ rest) cur = tokens d rest (cur ++ run).
Proof.
  induction run as [|c run IH]; intros rest cur HF; [by rewrite app_nil_r|].
  apply Forall_cons in HF as [Hc HF]. simpl. rewrite Hc, IH by done. by rewrite <- app_assoc.
Qed.

Lemma tokens_seps d seps : ∀ rest,
  Forall (λ c, in_set d c = true) seps → tokens d (seps ++ rest) [] = tokens d rest [].
Proof.
  induction seps as [|c seps IH]; intros rest HF; [done|].
  apply Forall_cons in HF as [Hc HF]. simpl. rewrite Hc. by apply IH.
Qed.

(** Every string is a run without [p] followed by nothing or by a [p]. *)
Lemma span p (s : bytes) :
  ∃ a b, s = a ++ b ∧ Forall (λ c, p c = false) a ∧
    match b with [] => True | c :: _ => p c = true end.
Proof.
  induction s as [|c s (a & b & -> & Ha & Hb)]; [by exists [], []|].
  destruct (p c) eqn:Hc; [by exists [], (c :: a ++ b)|]. exists (c :: a), b. by auto.
Qed.

Lemma first_index_span p a b i :
  Forall (λ c, p c = false) a → match b with [] => True | c :: _ => p c = true end →
  first_index p (a ++ b) i = match b with [] => npos | _ => i + Z.of_nat (length a) end.
Proof.
  intros Ha Hb. revert i. induction Ha as [|c a Hc _ IH]; intros i.
  - destruct b as [|c b]; [done|]. simpl. rewrite Hb. lia.
  - simpl. rewrite Hc, IH. destruct b; [done|]. lia.
Qed.

(** The delimiters behind a token and what follows them. *)
Lemma span_seps d c after :
  in_set d c = true →
  ∃ seps rest, c :: after = seps ++ rest ∧ (0 < length seps)%nat ∧
    Forall (λ c, negb (in_set d c) = false) seps ∧
    match rest with [] => True | c :: _ => negb (in_set d c) = true end ∧
    (∀ run, run ≠ [] → Forall (λ c, in_set d c = false) run →
            tokens d (run ++ c :: after) [] = run :: tokens d rest []).
Proof.
  intros Hc. destruct (span (λ c, negb (in_set d c)) (c :: after)) as (seps & rest & E & Hseps & Hrest).
  exists seps, rest. split_and!; try done.
  - destruct seps; [|simpl; lia]. simpl in E. subst rest. by rewrite Hc in Hrest.
  - intros run Hne Hrun. rewrite tokens_run by done. simpl. rewrite Hc, decide_False by done. f_equal.
    destruct seps as [|x seps]; simpl in E; [subst rest; by rewrite Hc in Hrest|].
    injection E as -> ->. apply tokens_seps. apply Forall_cons in Hseps as [_ Hs].
    eapply Forall_impl; [exact Hs|]. intros y Hy. by apply negb_false_iff.
Qed.

(** The last token, behind [pre]. *)
Lemma last_token d pre run (value : list bytes) :
  run ≠ [] → Forall (λ c, in_set d c = false) run → Z.of_nat (length run) < npos - Z.of_nat (length pre) →
  let subStr := str_substr (pre ++ run) (Z.of_nat (length pre)) (npos - Z.of_nat (length pre)) in
  (if bool_decide (subStr = []) then value else value ++ [subStr]) = value ++ tokens d run [].
Proof.
  intros Hne Hrun Hl. cbv zeta. assert (Hsub : str_substr (pre ++ run) (Z.of_nat (length pre))
    (npos - Z.of_nat (length pre)) = run).
  { unfold str_substr. rewrite Nat2Z.id, drop_app_length, length_app. apply take_ge. lia. }
  rewrite Hsub, bool_decide_false by done.
  pose proof (tokens_run d run [] [] Hrun) as E. rewrite app_nil_r in E. rewrite E. simpl.
  by rewrite decide_False.
Qed.

(** The loop, from a token that starts behind [pre]. *)
Lemma split_loop_tokens d n : ∀ s pre rest value fuel,
  s = pre ++ rest → (length rest ≤ n)%nat → (n < fuel)%nat → rest ≠ [] →
  Z.of_nat (length s) < npos →
  match rest with [] => True | c :: _ => in_set d c = false end →
  let '(i, pos, v) :=
    split_loop fuel s d (Z.of_nat (length pre)) (str_find_first_of s d (Z.of_nat (length pre))) value in
  (if i <? pos then
     let subStr := str_substr s i (pos - i) in
     if bool_decide (subStr = []) then v else v ++ [subStr]
   else v) = value ++ tokens d rest [].
Proof.
  induction n as [|n IH]; intros s pre rest value fuel -> Hn Hf Hne Hsz Hd;
    [destruct rest; simpl in *; [done|lia]|].
  destruct fuel as [|fuel]; [lia|].
  destruct (span (in_set d) rest) as (run & after & -> & Hrun & Hafter).
  assert (Hrn : run ≠ []) by (intros ->; destruct after; simpl in *; congruence).
  assert (Hlr : (0 < length run)%nat) by (destruct run; [done|simpl; lia]).
  rewrite !length_app in Hn. rewrite !length_app, !Nat2Z.inj_add in Hsz.
  unfold str_find_first_of at 1. rewrite !length_app.
  zfalse (_ <=? _).
  rewrite Nat2Z.id, drop_app_length, first_index_span by done.
  assert (Hsub : str_substr (pre ++ run ++ after) (Z.of_nat (length pre)) (Z.of_nat (length run)) = run).
  { unfold str_substr. rewrite Z.min_l by (rewrite !length_app; lia). rewrite !Nat2Z.id, drop_app_length. apply take_app_length. }
  destruct after as [|c after].
  - cbn [split_loop]. rewrite app_nil_r in *. rewrite length_app. zfalse (npos <? _).
    cbn [andb]. ztrue (_ <? npos). apply last_token; [done..|lia].
  - cbn [split_loop]. rewrite !length_app. cbn [length] in *.
    ztrue (_ + _ <? _). ztrue (_ <? _). cbn [andb]. cbv zeta.
    replace (Z.of_nat (length pre) + Z.of_nat (length run) - Z.of_nat (length pre))
      with (Z.of_nat (length run)) by lia. rewrite Hsub.
    destruct (span_seps d c after Hafter) as (seps & rest' & E & Hls & Hseps & Hrest' & Etok).
    rewrite Etok by done. assert (El : length (c :: after) = (length seps + length rest')%nat).
    { by rewrite E, length_app. } cbn [length] in El.
    unfold str_find_first_not_of. rewrite !length_app. cbn [length].
    zfalse (_ <=? _).
    rewrite <- Nat2Z.inj_add, Nat2Z.id, app_assoc, <- length_app, drop_app_length, E.
    rewrite (first_index_span (λ c, negb (in_set d c)) seps rest') by done.
    destruct rest' as [|x rest'].
    + unfold str_find_first_of. rewrite !length_app in *. simpl in *. ztrue (_ <=? npos).
      assert (Estop : ∀ f v, split_loop f ((pre ++ run) ++ seps ++ []) d npos npos v = (npos, npos, v)).
      { intros [|f] v; [done|]. cbn [split_loop]. by rewrite Z.ltb_irrefl, andb_false_r. }
      rewrite Estop, Z.ltb_irrefl. done.
    + specialize (IH ((pre ++ run) ++ seps ++ x :: rest') ((pre ++ run) ++ seps) (x :: rest')
        (value ++ [run]) fuel).
      rewrite !length_app in IH. rewrite !length_app.
      replace (Z.of_nat (length pre + length run) + Z.of_nat (length seps))
        with (Z.of_nat (length pre + length run + length seps)) by lia.
      specialize (IH ltac:(by rewrite <- !app_assoc)). cbn [length] in IH, El, Hn.
      specialize (IH ltac:(lia) ltac:(lia) ltac:(done) ltac:(lia)
        ltac:(by apply negb_true_iff)).
      rewrite <- (app_assoc value) in IH. exact IH.
Qed.

(** ** Properties *)

(** [SplitString] returns exactly the maximal non-empty runs without
    delimiter characters, in order, of a text that does not start with one. *)
Theorem split_string_tokens (s d : bytes) :
  Z.of_nat (length s) < npos →
  match s with [] => True | c :: _ => c ∉ d end →
  SplitString s d = tokens d s [].
Proof.
  intros Hsz Hd. destruct s as [|c s]; [done|].
  pose proof (split_loop_tokens d (length (c :: s)) (c :: s) [] (c :: s) [] (S (length (c :: s)))
    eq_refl ltac:(lia) ltac:(lia) ltac:(done) Hsz) as HL.
  specialize (HL ltac:(unfold in_set; by rewrite bool_decide_false)).
  unfold SplitString. change (Z.of_nat (length [])) with 0 in HL. cbn [length] in HL |- *.
  destruct (split_loop _ _ _ _ _ _) as [[i pos] v]. exact HL.
Qed.

Lemma split_string_tokens_witness :
  SplitString (str "b  main.ets 12 ") (str " ") = [str "b"; str "main.ets"; str "12"].
Proof.
  apply (split_string_tokens (str "b  main.ets 12 ") (str " "));
    [reflexivity|apply (bool_decide_eq_true_1 _); vm_compute; reflexivity].
Defined.

(** A text that starts with a delimiter is not split at all: the loop does
    not run and the result is empty, whatever follows. *)
Theorem split_string_leading_delimiter (c : Z) (s d : bytes) :
  c ∈ d → SplitString (c :: s) d = [].
Proof.
  intros Hc. assert (E : in_set d c = true) by (unfold in_set; by rewrite bool_decide_true).
  assert (Ep : str_find_first_of (c :: s) d 0 = 0).
  { unfold str_find_first_of. cbn [length]. zfalse (_ <=? 0). simpl. by rewrite E. }
  unfold SplitString. rewrite Ep.
  cbn [split_loop]. by rewrite Z.ltb_irrefl, andb_false_r.
Qed.

Lemma split_string_leading_delimiter_witness : SplitString (32 :: str "list") (str " ") = [].
Proof.
  apply (split_string_leading_delimiter 32 (str "list") (str " ")).
  apply (bool_decide_eq_true_1 _). vm_compute. reflexivity.
Defined.

(** [StrToInt32] accepts only numbers in the range of [int32_t], and the
    decimal text of every [int32_t] is converted back to it. *)
Theorem str_to_int32_exact (s : bytes) (z : Z) :
  (StrToInt32 s = Some z → is_int32 z) ∧ (is_int32 z → StrToInt32 (to_string z) = Some z).
Proof.
  split; [|apply StrToInt32_to_string]. unfold StrToInt32, is_int32, INT_MAX, INT_MIN.
  destruct (strtoll _) as [[num rest]|]; [|done].
  destruct (negb _ || _ || _) eqn:E; [done|]. intros [= <-]. lia.
Qed.

(** [StrToUInt] has no range check: a decimal text above the range of
    [uint32_t] is accepted and stored modulo 2^32. *)
Theorem str_to_uint_wraps (n : Z) :
  0 ≤ n < 2 ^ 64 → StrToUInt (to_string n) = (true, n mod 2 ^ 32).
Proof.
  intros Hn. unfold StrToUInt, strtoul.
  pose proof (strto_to_string n [] ltac:(lia) I) as E. rewrite app_nil_r in E. rewrite E.
  unfold ULONG_MAX. zfalse (_ <? Z.abs n). zfalse (n <? 0).
  rewrite bool_decide_true by done. by rewrite Z.abs_eq by lia.
Qed.

Lemma str_to_uint_wraps_witness : StrToUInt (str "4294967297") = (true, 1).
Proof. apply (str_to_uint_wraps 4294967297). lia. Defined.
