(* ===== verification/PtJson.v ===== *)
(** * JSON values of the protocol

    Models [PtJson] of tooling/dynamic/base/pt_json.{h,cpp}, a wrapper of the
    third-party library cJSON. The functions of cJSON are the operations of the
    class [CJson]; what the code relies on of their documentation is [CJsonOK],
    stated through the JSON value [view] that a node represents. A [cJSON*] is an
    [option] of a node. Nodes are immutable here: an operation that changes a
    node returns the new one. This agrees with the program as long as a node is
    not changed after it has been added to another one, which holds for all the
    modelled callers. *)

From S2P Require Import Prelude Regex Http CppLib.
Local Open Scope Z_scope.

(** ** JSON values *)

#[warnings="-register-all"]
Inductive jval :=
| JNull
| JBool (b : bool)
| JNum (d : double)
| JStr (s : bytes)
| JArr (items : list jval)
| JObj (fields : list (string * jval)).

(** ** cJSON *)

Class CJson := {
  cjson : Type;
  cJSON_CreateObject : option cjson;
  cJSON_CreateArray : option cjson;
  cJSON_CreateBool : bool → option cjson;
  cJSON_CreateNumber : double → option cjson;
  cJSON_CreateString : bytes → option cjson;
  (** [None] when the call returns 0. *)
  cJSON_AddItemToObject : option cjson → string → cjson → option cjson;
  cJSON_AddItemToArray : option cjson → cjson → option cjson;
  cJSON_DeleteItemFromObject : option cjson → string → option cjson;
  cJSON_GetObjectItem : option cjson → string → option cjson;
  cJSON_GetObjectItemCaseSensitive : option cjson → string → option cjson;
  cJSON_GetArraySize : option cjson → Z;
  cJSON_GetArrayItem : option cjson → Z → option cjson;
  cJSON_IsBool : option cjson → bool;
  cJSON_IsTrue : option cjson → bool;
  cJSON_IsNumber : option cjson → bool;
  cJSON_IsString : option cjson → bool;
  cJSON_IsObject : option cjson → bool;
  cJSON_IsArray : option cjson → bool;
  cJSON_IsNull : option cjson → bool;
  valuedouble : cjson → double;
  valuestring : cjson → bytes;
  cJSON_ParseWithLength : bytes → option cjson;
  cJSON_PrintUnformatted : cjson → option bytes;
  (** The keys of the children of a node, in order. *)
  child_keys : cjson → list string }.

(** Keys are compared without regard to case by [cJSON_GetObjectItem]. *)
Fixpoint str_lower (s : string) : string :=
  match s with
  | EmptyString => EmptyString
  | String c s' =>
      let n := Ascii.N_of_ascii c in
      String (if (65 <=? n)%N && (n <=? 90)%N then Ascii.ascii_of_N (n + 32) else c) (str_lower s')
  end.
Definition key_eq_icase (a b : string) : bool := bool_decide (str_lower a = str_lower b).

(** The first field with a key that satisfies [p]. *)
Definition find_field (p : string → bool) (fs : list (string * jval)) : option jval :=
  snd <$> (list_find (λ f, p f.1 = true) fs ≫= λ r, Some r.2).

Definition get_item (v : jval) (key : string) : option jval :=
  match v with JObj fs => find_field (key_eq_icase key) fs | _ => None end.
Definition get_item_exact (v : jval) (key : string) : option jval :=
  match v with JObj fs => find_field (String.eqb key) fs | _ => None end.

(** What the code relies on: allocation succeeds, and the functions do on the
    represented values what their documentation says. *)
Class CJsonOK (cj : CJson) := {
  view : cjson → jval;
  CreateObject_view : ∃ n, cJSON_CreateObject = Some n ∧ view n = JObj [];
  CreateArray_view : ∃ n, cJSON_CreateArray = Some n ∧ view n = JArr [];
  CreateBool_view b : ∃ n, cJSON_CreateBool b = Some n ∧ view n = JBool b;
  CreateNumber_view d : ∃ n, cJSON_CreateNumber d = Some n ∧ view n = JNum d;
  CreateString_view s : ∃ n, cJSON_CreateString s = Some n ∧ view n = JStr s;
  AddItemToObject_view o key n fs : view o = JObj fs →
    ∃ o', cJSON_AddItemToObject (Some o) key n = Some o' ∧ view o' = JObj (fs ++ [(key, view n)]);
  AddItemToArray_view o n vs : view o = JArr vs →
    ∃ o', cJSON_AddItemToArray (Some o) n = Some o' ∧ view o' = JArr (vs ++ [view n]);
  GetObjectItem_view o key : view <$> cJSON_GetObjectItem (Some o) key = get_item (view o) key;
  GetObjectItemCaseSensitive_view o key :
    view <$> cJSON_GetObjectItemCaseSensitive (Some o) key = get_item_exact (view o) key;
  GetArraySize_view o vs : view o = JArr vs → cJSON_GetArraySize (Some o) = Z.of_nat (length vs);
  GetArrayItem_view o vs i : view o = JArr vs → 0 ≤ i →
    view <$> cJSON_GetArrayItem (Some o) i = vs !! Z.to_nat i;
  IsBool_view o : cJSON_IsBool (Some o) = match view o with JBool _ => true | _ => false end;
  IsTrue_view o : cJSON_IsTrue (Some o) = match view o with JBool b => b | _ => false end;
  IsNumber_view o : cJSON_IsNumber (Some o) = match view o with JNum _ => true | _ => false end;
  IsString_view o : cJSON_IsString (Some o) = match view o with JStr _ => true | _ => false end;
  IsObject_view o : cJSON_IsObject (Some o) = match view o with JObj _ => true | _ => false end;
  IsObject_null : cJSON_IsObject None = false;
  IsArray_view o : cJSON_IsArray (Some o) = match view o with JArr _ => true | _ => false end;
  valuedouble_view o d : view o = JNum d → valuedouble o = d;
  valuestring_view o s : view o = JStr s → valuestring o = s }.

(** ** PtJson *)

Definition PtJson `{CJson} : Type := option cjson.

(** [Result], with the value that a successful call stores. *)
Inductive Result (A : Type) := SUCCESS (v : A) | NOT_EXIST | TYPE_ERROR.
Arguments SUCCESS {A} v.
Arguments NOT_EXIST {A}.
Arguments TYPE_ERROR {A}.

Section PtJson.
Context `{CJson}.

Definition CreateObject : PtJson := cJSON_CreateObject.
Definition CreateArray : PtJson := cJSON_CreateArray.
Definition Parse (data : bytes) : PtJson := cJSON_ParseWithLength data.
Definition Stringify (p : PtJson) : bytes :=
  match p with
  | None => []
  | Some o => match cJSON_PrintUnformatted o with None => [] | Some s => c_str s end
  end.

Definition Contains (p : PtJson) (key : string) : bool :=
  match cJSON_GetObjectItemCaseSensitive p key with Some _ => true | None => false end.

(** The common part of the [Add] overloads: a key that is present is refused. *)
Definition AddNode (p : PtJson) (key : string) (node : option cjson) : bool * PtJson :=
  if Contains p key then (false, p) else
  match node with
  | None => (false, p)
  | Some n =>
      match cJSON_AddItemToObject p key n with
      | None => (false, p)
      | Some o => (true, Some o)
      end
  end.

Definition AddBool (p : PtJson) (key : string) (value : bool) : bool * PtJson :=
  AddNode p key (cJSON_CreateBool value).
Definition AddDouble (p : PtJson) (key : string) (value : double) : bool * PtJson :=
  AddNode p key (cJSON_CreateNumber value).
(** The [int32_t], [int64_t] and [uint32_t] overloads cast to [double]. *)
Definition AddInt (p : PtJson) (key : string) (value : Z) : bool * PtJson :=
  AddDouble p key (double_of_Z value).
Definition AddString (p : PtJson) (key : string) (value : bytes) : bool * PtJson :=
  AddNode p key (cJSON_CreateString value).
Definition AddJson (p : PtJson) (key : string) (value : PtJson) : bool * PtJson :=
  AddNode p key value.

Definition PushNode (p : PtJson) (node : option cjson) : bool * PtJson :=
  match node with
  | None => (false, p)
  | Some n =>
      match cJSON_AddItemToArray p n with
      | None => (false, p)
      | Some o => (true, Some o)
      end
  end.

Definition PushBool (p : PtJson) (value : bool) : bool * PtJson := PushNode p (cJSON_CreateBool value).
Definition PushDouble (p : PtJson) (value : double) : bool * PtJson := PushNode p (cJSON_CreateNumber value).
Definition PushInt (p : PtJson) (value : Z) : bool * PtJson := PushDouble p (double_of_Z value).
Definition PushString (p : PtJson) (value : bytes) : bool * PtJson := PushNode p (cJSON_CreateString value).
Definition PushJson (p : PtJson) (value : PtJson) : bool * PtJson := PushNode p value.

Definition Remove (p : PtJson) (key : string) : bool * PtJson :=
  if negb (Contains p key) then (false, p)
  else (true, cJSON_DeleteItemFromObject p key).

Definition GetKeysArray (p : PtJson) : list bytes :=
  match p with None => [] | Some o => str <$> child_keys o end.

(** *** Accessors of the node itself *)

Definition IsBool (p : PtJson) : bool := cJSON_IsBool p.
Definition IsNumber (p : PtJson) : bool := cJSON_IsNumber p.
Definition IsString (p : PtJson) : bool := cJSON_IsString p.
Definition IsObject (p : PtJson) : bool := cJSON_IsObject p.
Definition IsArray (p : PtJson) : bool := cJSON_IsArray p.
Definition IsNull (p : PtJson) : bool := cJSON_IsNull p.

Definition node_double (p : PtJson) : double :=
  match p with Some o => valuedouble o | None => DFin 0 0 end.

Definition AsBool (p : PtJson) (defaultValue : bool) : bool :=
  if negb (IsBool p) then defaultValue else cJSON_IsTrue p.
Definition AsInt `{CastOob} (p : PtJson) (defaultValue : Z) : Z :=
  if negb (IsNumber p) then defaultValue else double_to_int32 (node_double p).
Definition AsInt64 `{CastOob} (p : PtJson) (defaultValue : Z) : Z :=
  if negb (IsNumber p) then defaultValue else double_to_int64 (node_double p).
Definition AsUInt `{CastOob} (p : PtJson) (defaultValue : Z) : Z :=
  if negb (IsNumber p) then defaultValue else double_to_uint32 (node_double p).
Definition AsUInt64 `{CastOob} (p : PtJson) (defaultValue : Z) : Z :=
  if negb (IsNumber p) then defaultValue else double_to_uint64 (node_double p).
Definition AsDouble (p : PtJson) (defaultValue : double) : double :=
  if negb (IsNumber p) then defaultValue else node_double p.
Definition AsString (p : PtJson) : bytes :=
  if negb (IsString p) then [] else match p with Some o => valuestring o | None => [] end.

Definition GetSize (p : PtJson) : Z := cJSON_GetArraySize p.
Definition Get (p : PtJson) (index : Z) : PtJson := cJSON_GetArrayItem p index.

(** *** Accessors of the children *)

Definition GetBool (p : PtJson) (key : string) : Result bool :=
  match cJSON_GetObjectItem p key with
  | None => NOT_EXIST
  | Some item => if negb (cJSON_IsBool (Some item)) then TYPE_ERROR
                 else SUCCESS (cJSON_IsTrue (Some item))
  end.

Definition GetDouble (p : PtJson) (key : string) : Result double :=
  match cJSON_GetObjectItem p key with
  | None => NOT_EXIST
  | Some item => if negb (cJSON_IsNumber (Some item)) then TYPE_ERROR
                 else SUCCESS (valuedouble item)
  end.

Definition map_result {A B} (f : A → B) (r : Result A) : Result B :=
  match r with SUCCESS v => SUCCESS (f v) | NOT_EXIST => NOT_EXIST | TYPE_ERROR => TYPE_ERROR end.

Definition GetInt `{CastOob} (p : PtJson) (key : string) : Result Z :=
  map_result double_to_int32 (GetDouble p key).
Definition GetInt64 `{CastOob} (p : PtJson) (key : string) : Result Z :=
  map_result double_to_int64 (GetDouble p key).
Definition GetUInt `{CastOob} (p : PtJson) (key : string) : Result Z :=
  map_result double_to_uint32 (GetDouble p key).
Definition GetUInt64 `{CastOob} (p : PtJson) (key : string) : Result Z :=
  map_result double_to_uint64 (GetDouble p key).

Definition GetString (p : PtJson) (key : string) : Result bytes :=
  match cJSON_GetObjectItem p key with
  | None => NOT_EXIST
  | Some item => if negb (cJSON_IsString (Some item)) then TYPE_ERROR
                 else SUCCESS (valuestring item)
  end.

Definition GetObject (p : PtJson) (key : string) : Result PtJson :=
  match cJSON_GetObjectItem p key with
  | None => NOT_EXIST
  | Some item => if negb (cJSON_IsObject (Some item)) then TYPE_ERROR else SUCCESS (Some item)
  end.

Definition GetArray (p : PtJson) (key : string) : Result PtJson :=
  match cJSON_GetObjectItem p key with
  | None => NOT_EXIST
  | Some item => if negb (cJSON_IsArray (Some item)) then TYPE_ERROR else SUCCESS (Some item)
  end.

Definition GetAny (p : PtJson) (key : string) : Result PtJson :=
  match cJSON_GetObjectItem p key with
  | None => NOT_EXIST
  | Some item => SUCCESS (Some item)
  end.

End PtJson.

(** ** Nodes that represent a value *)

(** An object written as its possible fields in order, the absent ones
    [None]: the shape of everything the [ToJson] methods build. *)
Definition present (fs : list (string * option jval)) : list (string * jval) :=
  omap (λ f, pair f.1 <$> f.2) fs.

(** The field a lookup without regard to case finds. *)
Fixpoint field (key : string) (fs : list (string * option jval)) : option jval :=
  match fs with
  | [] => None
  | (k, v) :: fs' => if key_eq_icase key k then v else field key fs'
  end.

(** The keys are different, even without regard to case. *)
Definition keys_ok (fs : list (string * option jval)) : bool :=
  bool_decide (NoDup (str_lower <$> fs.*1)).

Definition fresh (key : string) (fs : list (string * option jval)) : bool :=
  bool_decide (key ∉ fs.*1).

Lemma present_app a b : present (a ++ b) = present a ++ present b.
Proof. apply omap_app. Qed.

Lemma find_field_app p a b :
  find_field p (a ++ b) = match find_field p a with Some v => Some v | None => find_field p b end.
Proof.
  unfold find_field. induction a as [|f a IH]; [done|]. simpl. case_decide; [done|].
  destruct (list_find (λ f, p f.1 = true) a) as [[i x]|] eqn:E; simpl in *;
    destruct (list_find (λ f, p f.1 = true) (a ++ b)) as [[j y]|] eqn:E'; simpl in *; try done;
    destruct (list_find (λ f, p f.1 = true) b) as [[l z]|]; simpl in *; congruence.
Qed.

Lemma find_field_none p fs : Forall (λ f, p f.1 = false) fs → find_field p fs = None.
Proof.
  unfold find_field. induction 1 as [|f fs Hf _ IH]; [done|]. simpl.
  rewrite decide_False by congruence. by destruct (list_find _ fs) as [[]|].
Qed.

Lemma find_field_cons p k v fs :
  find_field p ((k, v) :: fs) = if p k then Some v else find_field p fs.
Proof.
  change ((k, v) :: fs) with ([(k, v)] ++ fs). rewrite find_field_app. unfold find_field at 1.
  simpl. case_decide as Hd; [by rewrite Hd|]. simpl. by apply not_true_is_false in Hd as ->.
Qed.

Lemma find_field_present key fs :
  keys_ok fs = true → find_field (key_eq_icase key) (present fs) = field key fs.
Proof.
  unfold keys_ok. intros HN%bool_decide_eq_true_1. revert HN.
  induction fs as [|[k v] fs IH]; intros HN; [done|].
  rewrite !fmap_cons in HN. apply NoDup_cons in HN as [Hk HN]. cbn [field].
  assert (Hrest : key_eq_icase key k = true → find_field (key_eq_icase key) (present fs) = None).
  { intros Hkey. apply find_field_none. apply Forall_forall. intros [k' v'] Hin.
    unfold present in Hin. apply list_elem_of_omap in Hin as ([k2 o] & Hin & E).
    destruct o; [|done]. simpl in E. injection E as -> ->. simpl.
    unfold key_eq_icase in *. apply bool_decide_eq_true_1 in Hkey.
    apply bool_decide_eq_false_2. intros E2. apply Hk. cbn [fst]. rewrite <- Hkey, E2.
    apply list_elem_of_fmap_2, (list_elem_of_fmap_2 fst _ _ Hin). }
  destruct v as [v|]; simpl.
  - rewrite find_field_cons. destruct (key_eq_icase key k); [done|by apply IH].
  - destruct (key_eq_icase key k); [by apply Hrest|by apply IH].
Qed.

Section Represents.
Context `{cj : CJson} {cjOK : CJsonOK cj}.

Definition rep (p : PtJson) (v : jval) : Prop := ∃ n, p = Some n ∧ view n = v.
Definition obj (p : PtJson) (fs : list (string * option jval)) : Prop := rep p (JObj (present fs)).
Definition arr (p : PtJson) (vs : list jval) : Prop := rep p (JArr vs).

Lemma CreateObject_obj : obj CreateObject [].
Proof. apply CreateObject_view. Qed.
Lemma CreateArray_arr : arr CreateArray [].
Proof. apply CreateArray_view. Qed.

Lemma Contains_fresh p fs key : obj p fs → fresh key fs = true → Contains p key = false.
Proof.
  intros (n & -> & Hn) Hk. apply bool_decide_eq_true_1 in Hk. unfold Contains.
  pose proof (GetObjectItemCaseSensitive_view n key) as E. rewrite Hn in E. cbn [get_item_exact] in E.
  rewrite find_field_none in E; [by destruct (cJSON_GetObjectItemCaseSensitive (Some n) key)|].
  apply Forall_forall. intros [k v] Hin. simpl. apply String.eqb_neq. intros <-. apply Hk.
  unfold present in Hin. apply list_elem_of_omap in Hin as ([k2 o] & Hin & E2).
  destruct o; [|done]. simpl in E2. injection E2 as -> ->. exact (list_elem_of_fmap_2 fst _ _ Hin).
Qed.

Lemma AddNode_obj p fs key node v :
  obj p fs → fresh key fs = true → rep node v →
  obj (AddNode p key node).2 (fs ++ [(key, Some v)]).
Proof.
  intros Ho Hk (m & -> & Hm). unfold AddNode. rewrite (Contains_fresh p fs) by done.
  destruct Ho as (n & -> & Hn).
  destruct (AddItemToObject_view n key m _ Hn) as (o & E & Ho). rewrite E. exists o. split; [done|].
  rewrite Ho, Hm, present_app. done.
Qed.

Lemma PushNode_arr p vs node v : arr p vs → rep node v → arr (PushNode p node).2 (vs ++ [v]).
Proof.
  intros (n & -> & Hn) (m & -> & Hm). unfold PushNode.
  destruct (AddItemToArray_view n m vs Hn) as (o & E & Ho). rewrite E. exists o. by rewrite Ho, Hm.
Qed.

(** *** What the accessors of an object return *)

Lemma item_obj p fs key :
  obj p fs → keys_ok fs = true →
  match field key fs with
  | Some v => ∃ m, cJSON_GetObjectItem p key = Some m ∧ view m = v
  | None => cJSON_GetObjectItem p key = None
  end.
Proof.
  intros (n & -> & Hn) Hk. pose proof (GetObjectItem_view n key) as E. rewrite Hn in E.
  cbn [get_item] in E. rewrite find_field_present in E by done.
  destruct (cJSON_GetObjectItem (Some n) key) as [m|], (field key fs); simplify_eq/=; eauto.
Qed.

(** [SUCCESS] with the value of a field, [NOT_EXIST] without one. *)
Definition of_opt {A} (o : option A) : Result A :=
  match o with Some v => SUCCESS v | None => NOT_EXIST end.

Lemma GetString_obj p fs key o :
  obj p fs → keys_ok fs = true → field key fs = JStr <$> o → GetString p key = of_opt o.
Proof.
  intros Ho Hk Hf. pose proof (item_obj p fs key Ho Hk) as Hi. rewrite Hf in Hi. unfold GetString.
  destruct o as [s|]; cbn [fmap option_fmap option_map] in Hi; [|by rewrite Hi].
  destruct Hi as (m & -> & Hm). rewrite IsString_view, Hm. cbn [negb of_opt]. f_equal.
  by apply valuestring_view.
Qed.

Lemma GetDouble_obj p fs key o :
  obj p fs → keys_ok fs = true → field key fs = JNum <$> o → GetDouble p key = of_opt o.
Proof.
  intros Ho Hk Hf. pose proof (item_obj p fs key Ho Hk) as Hi. rewrite Hf in Hi. unfold GetDouble.
  destruct o as [d|]; cbn [fmap option_fmap option_map] in Hi; [|by rewrite Hi].
  destruct Hi as (m & -> & Hm). rewrite IsNumber_view, Hm. cbn [negb of_opt]. f_equal.
  by apply valuedouble_view.
Qed.

Lemma GetBool_obj p fs key o :
  obj p fs → keys_ok fs = true → field key fs = JBool <$> o → GetBool p key = of_opt o.
Proof.
  intros Ho Hk Hf. pose proof (item_obj p fs key Ho Hk) as Hi. rewrite Hf in Hi. unfold GetBool.
  destruct o as [b|]; cbn [fmap option_fmap option_map] in Hi; [|by rewrite Hi].
  destruct Hi as (m & -> & Hm). rewrite IsBool_view, IsTrue_view, Hm. done.
Qed.

Lemma GetObject_obj p fs key o :
  obj p fs → keys_ok fs = true → field key fs = (λ gs, JObj (present gs)) <$> o →
  match o with
  | Some gs => ∃ q, GetObject p key = SUCCESS q ∧ obj q gs
  | None => GetObject p key = NOT_EXIST
  end.
Proof.
  intros Ho Hk Hf. pose proof (item_obj p fs key Ho Hk) as Hi. rewrite Hf in Hi. unfold GetObject.
  destruct o as [gs|]; cbn [fmap option_fmap option_map] in Hi; [|by rewrite Hi].
  destruct Hi as (m & -> & Hm). rewrite IsObject_view, Hm. cbn [negb]. exists (Some m).
  split; [done|]. by exists m.
Qed.

Lemma GetArray_obj p fs key o :
  obj p fs → keys_ok fs = true → field key fs = JArr <$> o →
  match o with
  | Some vs => ∃ q, GetArray p key = SUCCESS q ∧ arr q vs
  | None => GetArray p key = NOT_EXIST
  end.
Proof.
  intros Ho Hk Hf. pose proof (item_obj p fs key Ho Hk) as Hi. rewrite Hf in Hi. unfold GetArray.
  destruct o as [vs|]; cbn [fmap option_fmap option_map] in Hi; [|by rewrite Hi].
  destruct Hi as (m & -> & Hm). rewrite IsArray_view, Hm. cbn [negb]. exists (Some m).
  split; [done|]. by exists m.
Qed.

(** *** What the accessors of an array return *)

Lemma GetSize_arr p vs : arr p vs → GetSize p = Z.of_nat (length vs).
Proof. intros (n & -> & Hn). by apply GetArraySize_view. Qed.

Lemma Get_arr p vs i v : arr p vs → vs !! i = Some v → rep (Get p (Z.of_nat i)) v.
Proof.
  intros (n & -> & Hn) Hi. unfold Get. pose proof (GetArrayItem_view n vs (Z.of_nat i) Hn ltac:(lia)) as E.
  rewrite Nat2Z.id, Hi in E. destruct (cJSON_GetArrayItem (Some n) (Z.of_nat i)) as [m|]; [|done].
  simpl in E. exists m. split; [done|congruence].
Qed.

End Represents.

(** ** A cJSON for the witnesses

    Nodes are the values themselves; the parser and the printer, on which there
    are no laws, are parameters. *)
Definition tree_cjson_with (parse : bytes → option jval) (print : jval → option bytes) : CJson := {|
  cjson := jval;
  cJSON_CreateObject := Some (JObj []);
  cJSON_CreateArray := Some (JArr []);
  cJSON_CreateBool b := Some (JBool b);
  cJSON_CreateNumber d := Some (JNum d);
  cJSON_CreateString s := Some (JStr s);
  cJSON_AddItemToObject o key n :=
    match o with Some (JObj fs) => Some (JObj (fs ++ [(key, n)])) | _ => None end;
  cJSON_AddItemToArray o n :=
    match o with Some (JArr vs) => Some (JArr (vs ++ [n])) | _ => None end;
  cJSON_DeleteItemFromObject o key :=
    match o with
    | Some (JObj fs) => Some (JObj (filter (λ f, key_eq_icase key f.1 = false) fs))
    | _ => o
    end;
  cJSON_GetObjectItem o key := o ≫= λ v, get_item v key;
  cJSON_GetObjectItemCaseSensitive o key := o ≫= λ v, get_item_exact v key;
  cJSON_GetArraySize o := match o with Some (JArr vs) => Z.of_nat (length vs) | _ => 0 end;
  cJSON_GetArrayItem o i := match o with Some (JArr vs) => vs !! Z.to_nat i | _ => None end;
  cJSON_IsBool o := match o with Some (JBool _) => true | _ => false end;
  cJSON_IsTrue o := match o with Some (JBool b) => b | _ => false end;
  cJSON_IsNumber o := match o with Some (JNum _) => true | _ => false end;
  cJSON_IsString o := match o with Some (JStr _) => true | _ => false end;
  cJSON_IsObject o := match o with Some (JObj _) => true | _ => false end;
  cJSON_IsArray o := match o with Some (JArr _) => true | _ => false end;
  cJSON_IsNull o := match o with Some JNull => true | _ => false end;
  valuedouble v := match v with JNum d => d | _ => DFin 0 0 end;
  valuestring v := match v with JStr s => s | _ => [] end;
  cJSON_ParseWithLength := parse;
  cJSON_PrintUnformatted := print;
  child_keys v := match v with JObj fs => fs.*1 | _ => [] end |}.

Definition tree_cjson_with_ok parse print : CJsonOK (tree_cjson_with parse print).
Proof.
  refine {| view := (λ v, v) : @cjson (tree_cjson_with parse print) → jval |}; simpl; intros; subst; eauto;
    try (by destruct o); try (by destruct (get_item _ _)); try (by destruct (get_item_exact _ _)).
  by destruct (vs !! _).
Defined.

(** The one without a parser and a printer. *)
Definition tree_cjson : CJson := tree_cjson_with (λ _, None) (λ _, None).
Definition tree_cjson_ok : CJsonOK tree_cjson := tree_cjson_with_ok _ _.
