(* ===== verification/HybridFrames.v ===== *)
(** * Frames of hybrid stacks

    Models src/tooling/hybrid_step/{frame_info.h, frame_info_extractor.{h,cpp}}:
    what the static and the dynamic debugger tell each other about a frame, and
    the registry of the providers that tell it. The lock makes every operation
    atomic; a frame is an opaque pointer of the machine that made it. *)

From S2P Require Import Prelude Regex Http CppLib PtJson.
Local Open Scope Z_scope.

(** ** Data *)

Inductive UnifiedType :=
| U_UNDEFINED | U_NULL_VALUE | U_BOOLEAN | U_NUMBER | U_STRING | U_OBJECT | U_FUNCTION | U_ARRAY.

Record UnifiedRemoteObject := mkUnifiedRemoteObject {
  uo_type : UnifiedType;
  uo_className : bytes;
  uo_objectId : option Z;
  uo_description : option bytes;
  uo_booleanValue : option bool;
  uo_numberValue : option double;
  uo_stringValue : option bytes }.

Inductive UnifiedScopeType := US_GLOBAL | US_LOCAL | US_CLOSURE | US_WITH | US_CATCH | US_BLOCK | US_MODULE.

Record UnifiedScope := mkUnifiedScope {
  us_type : UnifiedScopeType;
  us_object : UnifiedRemoteObject;
  us_name : option bytes }.

Record UnifiedFrameInfo := mkUnifiedFrameInfo {
  uf_methodName : bytes;
  uf_sourceFile : bytes;
  uf_lineNumber : Z;
  uf_columnNumber : Z;
  uf_isStaticFrame : bool;
  uf_hasInfo : bool;
  uf_scopeChain : list UnifiedScope;
  uf_thisObject : option UnifiedRemoteObject;
  uf_returnValue : option UnifiedRemoteObject }.

(** A default-initialised [UnifiedFrameInfo]. *)
Definition UnifiedFrameInfo_new : UnifiedFrameInfo := mkUnifiedFrameInfo [] [] 0 0 false false [] None None.

Definition set_frame_flags (isStaticFrame hasInfo : bool) (i : UnifiedFrameInfo) : UnifiedFrameInfo :=
  mkUnifiedFrameInfo (uf_methodName i) (uf_sourceFile i) (uf_lineNumber i) (uf_columnNumber i) isStaticFrame hasInfo
    (uf_scopeChain i) (uf_thisObject i) (uf_returnValue i).

(** ** The registry *)

Module FrameInfoExtractor.
Section extractor.
(** The addresses of machines, and the frames of both kinds. *)
Context {V F : Type} `{EqDecision V}.

(** [IFrameInfoProvider::ExtractFrameInfo]. *)
Definition provider : Type := F → UnifiedFrameInfo → bool * UnifiedFrameInfo.

Record extractor := mkExtractor {
  staticProvider_ : option provider;
  (** A map: the first entry of a machine counts, and there is one. *)
  dynamicProviders_ : list (V * option provider) }.

Definition extractor_init : extractor := mkExtractor None [].

Definition UnregisterProvider (vm : V) (e : extractor) : extractor :=
  mkExtractor (staticProvider_ e) (filter (λ p, p.1 ≠ vm) (dynamicProviders_ e)).

Definition RegisterProvider (isStaticFrame : bool) (vm : V) (p : option provider) (e : extractor) : extractor :=
  if isStaticFrame then mkExtractor p (dynamicProviders_ e)
  else mkExtractor (staticProvider_ e) ((vm, p) :: dynamicProviders_ (UnregisterProvider vm e)).

Definition find_provider (vm : V) (e : extractor) : option provider :=
  match list_find (λ p : V * option provider, p.1 = vm) (dynamicProviders_ e) with
  | Some (_, (_, p)) => p
  | None => None
  end.

Definition ExtractFrameInfo (vm : option V) (framePtr : F) (isStaticFrame : bool) (info : UnifiedFrameInfo) (e : extractor)
    : bool * UnifiedFrameInfo :=
  let info := set_frame_flags isStaticFrame (uf_hasInfo info) info in
  match if isStaticFrame then staticProvider_ e else vm ≫= λ vm, find_provider vm e with
  | Some p => p framePtr info
  | None => (false, set_frame_flags isStaticFrame false info)
  end.
Definition ExtractStaticFrameInfo (framePtr : F) (info : UnifiedFrameInfo) (e : extractor) : bool * UnifiedFrameInfo :=
  ExtractFrameInfo None framePtr true info e.
Definition ExtractDynamicFrameInfo (vm : V) (framePtr : F) (info : UnifiedFrameInfo) (e : extractor) : bool * UnifiedFrameInfo :=
  ExtractFrameInfo (Some vm) framePtr false info e.

(** A frame of a machine is read by the provider that was registered for it last,
    until it is unregistered; the other machines are not affected. *)
Lemma find_provider_register vm vm' p e :
  find_provider vm' (RegisterProvider false vm p e) = if decide (vm = vm') then p else find_provider vm' e.
Proof.
  unfold find_provider, RegisterProvider. simpl. destruct (decide (vm = vm')) as [->|Hne]; [done|].
  induction (dynamicProviders_ e) as [|[v q] l IH]; simpl in *; [done|]. rewrite filter_cons. simpl.
  destruct (decide (v ≠ vm)) as [Hv|Hv]; simpl.
  - destruct (decide (v = vm')); [done|]. destruct (list_find _ (filter _ l)) as [[? [? ?]]|], (list_find _ l) as [[? [? ?]]|];
      simpl in *; congruence.
  - apply dec_stable in Hv as ->. rewrite (decide_False (P := vm = vm')) by done.
    destruct (list_find _ (filter _ l)) as [[? [? ?]]|], (list_find _ l) as [[? [? ?]]|]; simpl in *; congruence.
Qed.
End extractor.
End FrameInfoExtractor.
