(* ===== verification/PtCodec.v ===== *)
(** * Reading and writing protocol objects

    The idioms the [Create] and [ToJson] methods of tooling/dynamic/base are
    written in. A [Create] reads its members one after the other and appends a
    message to the string [error] for every member that is missing or
    ill-formed; it returns null when [error] is not empty. A [ToJson] adds its
    members to a new object, the optional ones only when they are set. *)

From S2P Require Import Prelude Regex Http CppLib Utils PtJson.
Local Open Scope Z_scope.

(** ** Creating an object *)

(** The result of a [Create]: the object, a null pointer with the errors that
    are logged, an exception, or the recursion bound of the model reached. *)
Inductive created (A : Type) :=
| Created (a : A)
| Rejected (error : string)
| Thrown
| NoFuel.
Arguments Created {A} a.
Arguments Rejected {A} error.
Arguments Thrown {A}.
Arguments NoFuel {A}.

(** A step of a [Create]: it extends [error] and yields the new value of a
    member, or leaves by an exception. *)
Inductive step (A : Type) :=
| SOk (a : A) (error : string)
| SThrow
| SFuel.
Arguments SOk {A} a error.
Arguments SThrow {A}.
Arguments SFuel {A}.

Definition P (A : Type) : Type := string → step A.
Definition p_ret {A} (a : A) : P A := λ e, SOk a e.
Definition p_bind {A B} (k : A → P B) (m : P A) : P B :=
  λ e, match m e with SOk a e' => k a e' | SThrow => SThrow | SFuel => SFuel end.
Notation "x <- m ;; k" := (p_bind (λ x, k) m)
  (at level 100, m at next level, right associativity) : ark_scope.

(** [if (!error.empty()) { log; return nullptr; } return object;] *)
Definition finish {A} (m : P A) : created A :=
  match m ""%string with
  | SOk a e => if String.eqb e "" then Created a else Rejected e
  | SThrow => Thrown
  | SFuel => NoFuel
  end.

(** [if (ret == SUCCESS) member = value; else error += msg;] where [d] is the
    initial value of the member. *)
Definition need {A} (ret : Result A) (d : A) (msg : string) : P A := λ e,
  match ret with
  | SUCCESS v => SOk v e
  | _ => SOk d (e +:+ msg)
  end.

(** [if (ret == SUCCESS) member = value; else if (ret == TYPE_ERROR) error += msg;] *)
Definition want {A} (ret : Result A) (d : option A) (msg : string) : P (option A) := λ e,
  match ret with
  | SUCCESS v => SOk (Some v) e
  | TYPE_ERROR => SOk d (e +:+ msg)
  | NOT_EXIST => SOk d e
  end.

(** The same with a conversion of the value, which appends [bad] on failure. *)
Definition convert {A B} (conv : A → created B) (v : A) (d : B) (bad : string) : P B := λ e,
  match conv v with
  | Created b => SOk b e
  | Rejected _ => SOk d (e +:+ bad)
  | Thrown => SThrow
  | NoFuel => SFuel
  end.

Definition need_as {A B} (conv : A → created B) (ret : Result A) (d : B) (bad msg : string) : P B := λ e,
  match ret with
  | SUCCESS v => convert conv v d bad e
  | _ => SOk d (e +:+ msg)
  end.

Definition some_as {A B} (conv : A → created B) (v : A) : created (option B) :=
  match conv v with
  | Created b => Created (Some b)
  | Rejected e => Rejected e
  | Thrown => Thrown
  | NoFuel => NoFuel
  end.

Definition want_as {A B} (conv : A → created B) (ret : Result A) (d : option B) (bad msg : string)
    : P (option B) := λ e,
  match ret with
  | SUCCESS v => convert (some_as conv) v d bad e
  | TYPE_ERROR => SOk d (e +:+ msg)
  | NOT_EXIST => SOk d e
  end.

(** [ToolchainUtils::StrToInt32(value, member)] and the [Valid] checks. *)
Definition to_int32 (s : bytes) : created Z :=
  match StrToInt32 s with Some z => Created z | None => Rejected "" end.
Definition if_valid (valid : bytes → bool) (s : bytes) : created bytes :=
  if valid s then Created s else Rejected "".

Section Codec.
Context `{CJson}.

(** The loop over the elements of an array: every element is converted and
    appended; a failure appends [bad]. *)
Fixpoint each_from {B} (q : PtJson) (conv : PtJson → created B) (bad : string)
    (i n : nat) (acc : list B) : P (list B) :=
  match n with
  | O => p_ret acc
  | S n' => λ e,
      match conv (Get q (Z.of_nat i)) with
      | Created b => each_from q conv bad (S i) n' (acc ++ [b]) e
      | Rejected _ => each_from q conv bad (S i) n' acc (e +:+ bad)
      | Thrown => SThrow
      | NoFuel => SFuel
      end
  end.

Definition each {B} (conv : PtJson → created B) (bad : string) (q : PtJson) : P (list B) :=
  each_from q conv bad 0 (Z.to_nat (GetSize q)) [].

(** A mandatory array member that is filled element by element. *)
Definition need_each {B} (conv : PtJson → created B) (ret : Result PtJson) (bad msg : string)
    : P (list B) := λ e,
  match ret with
  | SUCCESS q => each conv bad q e
  | _ => SOk [] (e +:+ msg)
  end.

(** An optional array member that is emptied first and then filled. *)
Definition want_each {B} (conv : PtJson → created B) (ret : Result PtJson) (d : option (list B))
    (bad msg : string) : P (option (list B)) := λ e,
  match ret with
  | SUCCESS q => p_bind (λ l, p_ret (Some l)) (each conv bad q) e
  | TYPE_ERROR => SOk d (e +:+ msg)
  | NOT_EXIST => SOk d e
  end.

(** An optional array member that is filled through [member.value()] without
    having been set: the first element throws [std::bad_optional_access]. *)
Definition want_each_unset {B} (conv : PtJson → created B) (ret : Result PtJson)
    (bad msg : string) : P (option (list B)) := λ e,
  match ret with
  | SUCCESS q =>
      match each conv bad q e with
      | SOk [] e' => SOk None e'
      | SOk _ _ => SThrow
      | SThrow => SThrow
      | SFuel => SFuel
      end
  | TYPE_ERROR => SOk None (e +:+ msg)
  | NOT_EXIST => SOk None e
  end.

(** [Get(i)->GetInt()] and [Get(i)->GetString()] never fail. *)
Definition as_int `{CastOob} (q : PtJson) : created Z := Created (AsInt q 0).
Definition as_string (q : PtJson) : created bytes := Created (AsString q).

(** ** Writing an object

    A statement [result->Add(key, value);]; the returned flag is not used. *)
Definition addS (key : string) (value : bytes) (result : PtJson) : PtJson :=
  (AddString result key (c_str value)).2.
Definition addI (key : string) (value : Z) (result : PtJson) : PtJson := (AddInt result key value).2.
Definition addB (key : string) (value : bool) (result : PtJson) : PtJson := (AddBool result key value).2.
Definition addD (key : string) (value : double) (result : PtJson) : PtJson := (AddDouble result key value).2.
Definition addJ (key : string) (value : PtJson) (result : PtJson) : PtJson := (AddJson result key value).2.

(** [if (member) { ... member.value() ... }] *)
Definition ifSome {A} (o : option A) (f : A → PtJson → PtJson) (result : PtJson) : PtJson :=
  match o with Some v => f v result | None => result end.

Definition ifTrue (b : bool) (f : PtJson → PtJson) (result : PtJson) : PtJson :=
  if b then f result else result.

(** An array filled by [Push] in a loop. *)
Definition pushAll {A} (push : PtJson → A → PtJson) (l : list A) : PtJson := foldl push CreateArray l.
Definition pushJ (a : PtJson) (v : PtJson) : PtJson := (PushJson a v).2.
Definition pushI (a : PtJson) (v : Z) : PtJson := (PushInt a v).2.
Definition pushS (a : PtJson) (v : bytes) : PtJson := (PushString a (c_str v)).2.

End Codec.

Notation "p ▷ f" := (f p) (at level 50, left associativity, only parsing) : ark_scope.

(** ** Lemmas *)

Lemma p_bind_ok {A B} (k : A → P B) (m : P A) e a e' : m e = SOk a e' → p_bind k m e = k a e'.
Proof. unfold p_bind. by intros ->. Qed.

(** A step is accepted when it adds nothing to an empty [error]. Every step only
    appends to [error], so a sequence is accepted when all its steps are. *)
Definition accepts {A} (m : P A) (a : A) : Prop := m EmptyString = SOk a EmptyString.
Definition appends {A} (m : P A) : Prop :=
  ∀ e a e', m e = SOk a e' → e ≠ EmptyString → e' ≠ EmptyString.

Lemma finish_created {A} (m : P A) a : finish m = Created a ↔ accepts m a.
Proof.
  unfold finish, accepts. destruct (m _) as [b e| |]; [|done..].
  destruct (String.eqb_spec e EmptyString) as [->|]; naive_solver.
Qed.

Lemma append_ne (a b : string) : a ≠ EmptyString → a +:+ b ≠ EmptyString.
Proof. by destruct a. Qed.
Lemma append_ne_r (a b : string) : b ≠ EmptyString → a +:+ b ≠ EmptyString.
Proof. by destruct a. Qed.

Lemma accepts_bind {A B} (k : A → P B) (m : P A) b :
  (∀ a, appends (k a)) → accepts (p_bind k m) b ↔ ∃ a, accepts m a ∧ accepts (k a) b.
Proof.
  intros Hk. unfold accepts, p_bind. split; [|by intros (a & -> & ?)].
  destruct (m _) as [a e| |]; [|done..]. intros E. exists a.
  destruct (decide (e = EmptyString)) as [->|He]; [done|]. by destruct (Hk a e b EmptyString E He).
Qed.

Lemma appends_bind {A B} (k : A → P B) (m : P A) :
  appends m → (∀ a, appends (k a)) → appends (p_bind k m).
Proof.
  intros Hm Hk e b e' E He. unfold p_bind in E. destruct (m e) as [a e1| |] eqn:Em; [|done..].
  eapply Hk; [exact E|]. by eapply Hm.
Qed.
Lemma appends_ret {A} (a : A) : appends (p_ret a).
Proof. intros e b e' [= _ <-]. done. Qed.
Lemma appends_need {A} (ret : Result A) d msg : appends (need ret d msg).
Proof. intros e a e'. destruct ret; intros [= _ <-]; eauto using append_ne. Qed.
Lemma appends_want {A} (ret : Result A) d msg : appends (want ret d msg).
Proof. intros e a e'. destruct ret; intros [= _ <-]; eauto using append_ne. Qed.
Lemma appends_need_as {A B} (conv : A → created B) ret d bad msg : appends (need_as conv ret d bad msg).
Proof.
  intros e a e'. unfold need_as, convert.
  destruct ret as [v| |]; [destruct (conv v)|..]; intros [= _ <-]; eauto using append_ne.
Qed.

Lemma need_accepts {A} (ret : Result A) d msg a :
  msg ≠ EmptyString → accepts (need ret d msg) a ↔ ret = SUCCESS a.
Proof. intros Hm. unfold accepts, need. destruct ret; naive_solver. Qed.
Lemma want_accepts {A} (ret : Result A) msg a :
  msg ≠ EmptyString →
  accepts (want ret None msg) a ↔ (ret = NOT_EXIST ∧ a = None) ∨ ∃ v, ret = SUCCESS v ∧ a = Some v.
Proof. intros Hm. unfold accepts, want. destruct ret; naive_solver. Qed.
Lemma need_id_accepts (ret : Result bytes) d bad msg z :
  bad ≠ EmptyString ∧ msg ≠ EmptyString →
  accepts (need_as to_int32 ret d bad msg) z ↔ ∃ s, ret = SUCCESS s ∧ StrToInt32 s = Some z.
Proof.
  intros [Hb Hm]. unfold accepts, need_as, convert, to_int32.
  destruct ret as [s| |]; [destruct (StrToInt32 s) eqn:E|..]; naive_solver.
Qed.

(** A [Create] without nested objects returns: it neither throws nor runs out of
    the recursion bound. *)
Definition returns {A} (m : P A) : Prop := ∀ e, ∃ a e', m e = SOk a e'.

Lemma finish_returns {A} (m : P A) : returns m → finish m ≠ Thrown ∧ finish m ≠ NoFuel.
Proof.
  intros Hm. unfold finish. destruct (Hm EmptyString) as (a & e & ->). by destruct (String.eqb _ _).
Qed.
Lemma returns_bind {A B} (k : A → P B) (m : P A) :
  returns m → (∀ a, returns (k a)) → returns (p_bind k m).
Proof. intros Hm Hk e. destruct (Hm e) as (a & e' & E). unfold p_bind. rewrite E. apply Hk. Qed.
Lemma returns_ret {A} (a : A) : returns (p_ret a).
Proof. intros e. by exists a, e. Qed.
Lemma returns_need {A} (ret : Result A) d msg : returns (need ret d msg).
Proof. intros e. destruct ret; eexists _, _; reflexivity. Qed.
Lemma returns_want {A} (ret : Result A) d msg : returns (want ret d msg).
Proof. intros e. destruct ret; eexists _, _; reflexivity. Qed.
Lemma returns_need_id (ret : Result bytes) d bad msg : returns (need_as to_int32 ret d bad msg).
Proof.
  intros e. unfold need_as, convert, to_int32.
  destruct ret as [s| |]; [destruct (StrToInt32 s)|..]; eexists _, _; reflexivity.
Qed.

Create HintDb ark_steps discriminated.
#[export] Hint Resolve appends_ret appends_need appends_want appends_need_as
  returns_ret returns_need returns_want returns_need_id : ark_steps.
Ltac accepts_step := intros; repeat (apply appends_bind; [|intros]); eauto with ark_steps.
Ltac returns_step := first [apply returns_bind | eauto with ark_steps].

(** The members that are written with [c_str] keep their text when it has no
    NUL. *)
Definition opt_ok {A} (Q : A → Prop) (o : option A) : Prop := ∀ a, o = Some a → Q a.

Lemma opt_ok_None {A} (Q : A → Prop) : opt_ok Q None.
Proof. done. Qed.
Lemma opt_ok_Some {A} (Q : A → Prop) a : Q a → opt_ok Q (Some a).
Proof. by intros ? ? [= <-]. Qed.
#[export] Hint Resolve opt_ok_None opt_ok_Some : ark.

Lemma opt_ok_fmap {A B} (f g : A → B) (Q : A → Prop) o :
  opt_ok Q o → (∀ a, Q a → f a = g a) → f <$> o = g <$> o.
Proof. intros Ho Hf. destruct o as [a|]; [|done]. simpl. f_equal. by apply Hf, Ho. Qed.

Section CodecLemmas.
Context `{cj : CJson} {cjOK : CJsonOK cj} `{CastOob}.

(** *** Writing *)

Lemma addS_obj key s p fs :
  obj p fs → fresh key fs = true → obj (addS key s p) (fs ++ [(key, Some (JStr (c_str s)))]).
Proof. intros. apply AddNode_obj; [done..|apply CreateString_view]. Qed.
Lemma addI_obj key z p fs :
  obj p fs → fresh key fs = true → obj (addI key z p) (fs ++ [(key, Some (JNum (double_of_Z z)))]).
Proof. intros. apply AddNode_obj; [done..|apply CreateNumber_view]. Qed.
Lemma addD_obj key d p fs :
  obj p fs → fresh key fs = true → obj (addD key d p) (fs ++ [(key, Some (JNum d))]).
Proof. intros. apply AddNode_obj; [done..|apply CreateNumber_view]. Qed.
Lemma addB_obj key b p fs :
  obj p fs → fresh key fs = true → obj (addB key b p) (fs ++ [(key, Some (JBool b))]).
Proof. intros. apply AddNode_obj; [done..|apply CreateBool_view]. Qed.
Lemma addJ_obj key q gs p fs :
  obj p fs → fresh key fs = true → obj q gs →
  obj (addJ key q p) (fs ++ [(key, Some (JObj (present gs)))]).
Proof. intros. by apply AddNode_obj. Qed.
Lemma addJ_arr key q vs p fs :
  obj p fs → fresh key fs = true → arr q vs → obj (addJ key q p) (fs ++ [(key, Some (JArr vs))]).
Proof. intros. by apply AddNode_obj. Qed.

Lemma obj_skip key p fs : obj p fs → obj p (fs ++ [(key, None)]).
Proof. unfold obj. by rewrite present_app, app_nil_r. Qed.

(** An optional member. *)
Lemma ifSome_obj {A} (o : option A) (f : A → PtJson → PtJson) (g : A → jval) key p fs :
  obj p fs → (∀ a q, obj q fs → obj (f a q) (fs ++ [(key, Some (g a))])) →
  obj (ifSome o f p) (fs ++ [(key, g <$> o)]).
Proof. intros Hp Hf. destruct o as [a|]; [by apply Hf|by apply obj_skip]. Qed.

Lemma ifTrue_obj (b : bool) (f : PtJson → PtJson) v key p fs :
  obj p fs → (∀ q, obj q fs → obj (f q) (fs ++ [(key, Some v)])) →
  obj (ifTrue b f p) (fs ++ [(key, if b then Some v else None)]).
Proof. intros Hp Hf. destruct b; [by apply Hf|by apply obj_skip]. Qed.

Lemma obj_eq p fs fs' : obj p fs → fs = fs' → obj p fs'.
Proof. by intros ? <-. Qed.

Lemma pushAll_arr {A} (push : PtJson → A → PtJson) (g : A → jval) (l : list A) :
  (∀ a p vs, arr p vs → arr (push p a) (vs ++ [g a])) → arr (pushAll push l) (g <$> l).
Proof.
  intros Hpush. unfold pushAll.
  assert (Hgen : ∀ p vs, arr p vs → arr (foldl push p l) (vs ++ (g <$> l))).
  { induction l as [|a l IH]; intros p vs Hp; simpl; [by rewrite app_nil_r|].
    rewrite cons_middle, app_assoc. by apply IH, Hpush. }
  apply (Hgen _ []), CreateArray_arr.
Qed.

Lemma pushI_arr z p vs : arr p vs → arr (pushI p z) (vs ++ [JNum (double_of_Z z)]).
Proof. intros. apply PushNode_arr; [done|apply CreateNumber_view]. Qed.
Lemma pushS_arr s p vs : arr p vs → arr (pushS p s) (vs ++ [JStr (c_str s)]).
Proof. intros. apply PushNode_arr; [done|apply CreateString_view]. Qed.
Lemma pushJ_arr q gs p vs : arr p vs → obj q gs → arr (pushJ p q) (vs ++ [JObj (present gs)]).
Proof. intros. by apply PushNode_arr. Qed.

End CodecLemmas.

Section ReadLemmas.
Context `{cj : CJson} {cjOK : CJsonOK cj} `{CastOob}.
Variables (p : PtJson) (fs : list (string * option jval)).
Hypotheses (Hobj : obj p fs) (Hkeys : keys_ok fs = true).

(** *** Reading mandatory members *)

Lemma need_string key s d m e :
  field key fs = Some (JStr (c_str s)) → nul_free s → need (GetString p key) d m e = SOk s e.
Proof.
  intros Hf Hn. rewrite (c_str_nul_free s Hn) in Hf. by rewrite (GetString_obj p fs key (Some s)).
Qed.

Lemma need_int key z d m e :
  field key fs = Some (JNum (double_of_Z z)) → is_int32 z → need (GetInt p key) d m e = SOk z e.
Proof.
  intros Hf Hz. unfold GetInt. rewrite (GetDouble_obj p fs key (Some (double_of_Z z))) by done.
  cbn. by rewrite double_int32.
Qed.

Lemma need_int64 key z d m e :
  field key fs = Some (JNum (double_of_Z z)) → Z.abs z ≤ 2 ^ 53 → need (GetInt64 p key) d m e = SOk z e.
Proof.
  intros Hf Hz. unfold GetInt64. rewrite (GetDouble_obj p fs key (Some (double_of_Z z))) by done.
  cbn. by rewrite double_int64.
Qed.

Lemma need_bool key b d m e :
  field key fs = Some (JBool b) → need (GetBool p key) d m e = SOk b e.
Proof. intros Hf. by rewrite (GetBool_obj p fs key (Some b)). Qed.

Lemma need_id key z d m1 m2 e :
  field key fs = Some (JStr (c_str (to_string z))) → is_int32 z →
  need_as to_int32 (GetString p key) d m1 m2 e = SOk z e.
Proof.
  intros Hf Hz. rewrite c_str_nul_free in Hf by (apply to_string_nul_free; unfold is_int32 in Hz; lia).
  rewrite (GetString_obj p fs key (Some (to_string z))) by done. cbn.
  unfold convert, to_int32. by rewrite StrToInt32_to_string.
Qed.

Lemma need_valid valid key s d m1 m2 e :
  field key fs = Some (JStr (c_str s)) → nul_free s → valid s = true →
  need_as (if_valid valid) (GetString p key) d m1 m2 e = SOk s e.
Proof.
  intros Hf Hn Hv. rewrite (c_str_nul_free s Hn) in Hf. rewrite (GetString_obj p fs key (Some s)) by done.
  cbn. unfold convert, if_valid. by rewrite Hv.
Qed.

Lemma need_obj {X} (flds : X → list (string * option jval)) (conv : PtJson → created X) key x d m1 m2 e :
  field key fs = Some (JObj (present (flds x))) → (∀ q, obj q (flds x) → conv q = Created x) →
  need_as conv (GetObject p key) d m1 m2 e = SOk x e.
Proof.
  intros Hf Hc. destruct (GetObject_obj p fs key (Some (flds x)) Hobj Hkeys Hf) as (q & E & Hq).
  rewrite E. cbn. unfold convert. by rewrite Hc.
Qed.

(** *** Reading optional members; [d] is kept when the member is absent *)

Lemma want_string key o m e :
  field key fs = (λ s, JStr (c_str s)) <$> o → opt_ok nul_free o →
  want (GetString p key) None m e = SOk o e.
Proof.
  intros Hf Hn. rewrite (opt_ok_fmap _ JStr nul_free o Hn) in Hf.
  - rewrite (GetString_obj p fs key o) by done. by destruct o.
  - intros s Hs. by rewrite c_str_nul_free.
Qed.

Lemma want_int key o m e :
  field key fs = (λ z, JNum (double_of_Z z)) <$> o → opt_ok is_int32 o →
  want (GetInt p key) None m e = SOk o e.
Proof.
  intros Hf Hz. unfold GetInt. rewrite (GetDouble_obj p fs key (double_of_Z <$> o)).
  - destruct o as [z|]; [|done]. cbn. by rewrite double_int32 by (by apply Hz).
  - done.
  - done.
  - rewrite Hf. by destruct o.
Qed.

(** A member whose initial value is not empty keeps it when it is absent. *)
Lemma want_int_default key z d m e :
  field key fs = Some (JNum (double_of_Z z)) → is_int32 z → want (GetInt p key) d m e = SOk (Some z) e.
Proof.
  intros Hf Hz. unfold GetInt. rewrite (GetDouble_obj p fs key (Some (double_of_Z z))) by done.
  cbn. by rewrite double_int32.
Qed.

Lemma want_int_init key o d m e :
  field key fs = (λ z, JNum (double_of_Z z)) <$> o → opt_ok is_int32 o →
  want (GetInt p key) (Some d) m e = SOk (Some (default d o)) e.
Proof.
  intros Hf Hz. destruct o as [z|]; [by apply want_int_default; [|apply Hz]|].
  unfold GetInt. by rewrite (GetDouble_obj p fs key None).
Qed.

Lemma want_string_default key s d m e :
  field key fs = Some (JStr (c_str s)) → nul_free s → want (GetString p key) d m e = SOk (Some s) e.
Proof.
  intros Hf Hn. rewrite (c_str_nul_free s Hn) in Hf. by rewrite (GetString_obj p fs key (Some s)).
Qed.

Lemma want_bool key o m e :
  field key fs = JBool <$> o → want (GetBool p key) None m e = SOk o e.
Proof. intros Hf. rewrite (GetBool_obj p fs key o) by done. by destruct o. Qed.

Lemma want_id key o m1 m2 e :
  field key fs = (λ z, JStr (c_str (to_string z))) <$> o → opt_ok is_int32 o →
  want_as to_int32 (GetString p key) None m1 m2 e = SOk o e.
Proof.
  intros Hf Hz. rewrite (opt_ok_fmap _ (λ z, JStr (to_string z)) is_int32 o Hz) in Hf.
  - rewrite (GetString_obj p fs key (to_string <$> o)); [|done|done|rewrite Hf; by destruct o].
    destruct o as [z|]; [|done]. cbn. unfold convert, some_as, to_int32.
    by rewrite StrToInt32_to_string by (by apply Hz).
  - intros z Hz'. rewrite c_str_nul_free; [done|]. apply to_string_nul_free. unfold is_int32 in Hz'. lia.
Qed.

Lemma want_valid valid key o m1 m2 e :
  field key fs = (λ s, JStr (c_str s)) <$> o → opt_ok nul_free o → opt_ok (λ s, valid s = true) o →
  want_as (if_valid valid) (GetString p key) None m1 m2 e = SOk o e.
Proof.
  intros Hf Hn Hv. rewrite (opt_ok_fmap _ JStr nul_free o Hn) in Hf.
  - rewrite (GetString_obj p fs key o) by done. destruct o as [s|]; [|done].
    cbn. unfold convert, some_as, if_valid. by rewrite (Hv s eq_refl).
  - intros s Hs. by rewrite c_str_nul_free.
Qed.

Lemma want_obj {X} (flds : X → list (string * option jval)) (conv : PtJson → created X) key o m1 m2 e :
  field key fs = (λ x, JObj (present (flds x))) <$> o →
  (∀ x q, o = Some x → obj q (flds x) → conv q = Created x) →
  want_as conv (GetObject p key) None m1 m2 e = SOk o e.
Proof.
  intros Hf Hc. pose proof (GetObject_obj p fs key (flds <$> o) Hobj Hkeys) as HG.
  destruct o as [x|]; cbn in *.
  - destruct HG as (q & E & Hq); [done|]. rewrite E. cbn. unfold convert, some_as. by rewrite (Hc x q).
  - by rewrite HG.
Qed.

(** *** Reading arrays *)

(** Every element of an array is converted, or the first one that throws ends
    the loop. *)
Lemma each_read {X Y} (conv : PtJson → created Y) (g : X → jval) (f : X → Y) (throws : X → bool)
    (xs : list X) q bad e :
  arr q (g <$> xs) →
  (∀ x n, x ∈ xs → rep n (g x) → conv n = if throws x then Thrown else Created (f x)) →
  each conv bad q e = if existsb throws xs then SThrow else SOk (f <$> xs) e.
Proof.
  intros Hq Hc. unfold each. rewrite (GetSize_arr q (g <$> xs)) by done.
  rewrite Nat2Z.id, length_fmap.
  assert (Hgen : ∀ ys acc i, drop i xs = ys → each_from q conv bad i (length ys) acc e =
    if existsb throws ys then SThrow else SOk (acc ++ (f <$> ys)) e).
  { induction ys as [|y ys IH]; intros acc i Hd; [by rewrite app_nil_r|].
    cbn [length each_from]. assert (Hi : xs !! i = Some y).
    { rewrite <- (Nat.add_0_r i), <- lookup_drop, Hd. done. }
    rewrite (Hc y) ; [|by eapply list_elem_of_lookup_2|].
    - cbn [existsb]. destruct (throws y); [done|].
      rewrite IH; [by rewrite <- app_assoc|]. rewrite <- (Nat.add_1_r i), <- drop_drop, Hd. done.
    - apply (Get_arr q (g <$> xs)); [done|]. by rewrite list_lookup_fmap, Hi. }
  apply (Hgen xs [] 0%nat). by rewrite drop_0.
Qed.

Lemma each_ok {X} (conv : PtJson → created X) (g : X → jval) (xs : list X) q bad e :
  arr q (g <$> xs) → (∀ x n, x ∈ xs → rep n (g x) → conv n = Created x) →
  each conv bad q e = SOk xs e.
Proof.
  intros Hq Hc. rewrite (each_read conv g id (λ _, false) xs q bad e Hq) by done.
  rewrite list_fmap_id. replace (existsb _ xs) with false; [done|]. clear. by induction xs.
Qed.

Lemma need_each_obj {X} (flds : X → list (string * option jval)) (conv : PtJson → created X) key xs m1 m2 e :
  field key fs = Some (JArr ((λ x, JObj (present (flds x))) <$> xs)) →
  (∀ x q, x ∈ xs → obj q (flds x) → conv q = Created x) →
  need_each conv (GetArray p key) m1 m2 e = SOk xs e.
Proof.
  intros Hf Hc. destruct (GetArray_obj p fs key (Some ((λ x, JObj (present (flds x))) <$> xs))
    Hobj Hkeys Hf) as (q & E & Hq).
  rewrite E. cbn. by apply (each_ok conv (λ x, JObj (present (flds x)))).
Qed.

Lemma need_each_wf {X} (flds : X → list (string * option jval)) (wf : X → Prop)
    (conv : PtJson → created X) key xs m1 m2 e :
  field key fs = Some (JArr ((λ x, JObj (present (flds x))) <$> xs)) → Forall wf xs →
  (∀ x q, wf x → obj q (flds x) → conv q = Created x) →
  need_each conv (GetArray p key) m1 m2 e = SOk xs e.
Proof.
  intros Hf Hwf Hc. rewrite Forall_forall in Hwf.
  apply (need_each_obj flds); [done|]. intros x q Hx. by apply Hc, Hwf.
Qed.

Lemma want_each_string key o m1 m2 e :
  field key fs = (λ l, JArr ((λ s, JStr (c_str s)) <$> l)) <$> o → opt_ok (Forall nul_free) o →
  want_each as_string (GetArray p key) None m1 m2 e = SOk o e.
Proof.
  intros Hf Hn. pose proof (GetArray_obj p fs key ((λ l : list bytes, (λ s, JStr (c_str s)) <$> l) <$> o) Hobj Hkeys) as HG.
  destruct o as [l|]; cbn in *; [|by rewrite HG].
  destruct HG as (q & E & Hq); [done|]. rewrite E. unfold want_each.
  erewrite p_bind_ok; [reflexivity|]. apply (each_ok as_string (λ s, JStr (c_str s))); [done|].
  intros s n Hs (o & -> & Ho). specialize (Hn l eq_refl). rewrite Forall_forall in Hn.
  rewrite c_str_nul_free in Ho by (by apply Hn). unfold as_string, AsString, IsString.
  rewrite IsString_view, Ho. cbn. f_equal. by apply valuestring_view.
Qed.

(** An array of integers that is read through an optional that is not set. *)
Lemma want_unset_int key o m1 m2 e :
  field key fs = (λ l, JArr ((λ z, JNum (double_of_Z z)) <$> l)) <$> o → opt_ok (Forall is_int32) o →
  want_each_unset as_int (GetArray p key) m1 m2 e =
  match o with Some (_ :: _) => SThrow | _ => SOk None e end.
Proof.
  intros Hf Hz. pose proof (GetArray_obj p fs key ((λ l : list Z, (λ z, JNum (double_of_Z z)) <$> l) <$> o)
    Hobj Hkeys) as HG.
  destruct o as [l|]; cbn in *; [|by rewrite HG].
  destruct HG as (q & E & Hq); [done|]. rewrite E. unfold want_each_unset.
  rewrite (each_ok as_int (λ z, JNum (double_of_Z z)) l q m1 e Hq).
  - by destruct l.
  - intros z n Hin (o & -> & Ho). specialize (Hz l eq_refl). rewrite Forall_forall in Hz.
    unfold as_int, AsInt, IsNumber, node_double. rewrite IsNumber_view, Ho. cbn [negb].
    f_equal. rewrite (valuedouble_view o _ Ho). apply double_int32. by apply Hz.
Qed.

Lemma want_unset_obj {X} (flds : X → list (string * option jval)) (conv : PtJson → created X) key o m1 m2 e :
  field key fs = (λ l, JArr ((λ x, JObj (present (flds x))) <$> l)) <$> o →
  (∀ l x q, o = Some l → x ∈ l → obj q (flds x) → conv q = Created x) →
  want_each_unset conv (GetArray p key) m1 m2 e =
  match o with Some (_ :: _) => SThrow | _ => SOk None e end.
Proof.
  intros Hf Hc. pose proof (GetArray_obj p fs key ((λ l : list X, (λ x, JObj (present (flds x))) <$> l) <$> o)
    Hobj Hkeys) as HG.
  destruct o as [l|]; cbn in *; [|by rewrite HG].
  destruct HG as (q & E & Hq); [done|]. rewrite E. unfold want_each_unset.
  rewrite (each_ok conv (λ x, JObj (present (flds x))) l q m1 e Hq).
  - by destruct l.
  - intros x n Hin Hn. by apply (Hc l).
Qed.

End ReadLemmas.

(** *** The JSON form of members *)

Definition fS (key : string) (s : bytes) : string * option jval := (key, Some (JStr (c_str s))).
Definition fI (key : string) (z : Z) : string * option jval := (key, Some (JNum (double_of_Z z))).
Definition fB (key : string) (b : bool) : string * option jval := (key, Some (JBool b)).
Definition fO {X} (flds : X → list (string * option jval)) (key : string) (x : X) : string * option jval :=
  (key, Some (JObj (present (flds x)))).
Definition fA {X} (flds : X → list (string * option jval)) (key : string) (xs : list X)
    : string * option jval :=
  (key, Some (JArr ((λ x, JObj (present (flds x))) <$> xs))).
Definition oS (key : string) (o : option bytes) : string * option jval :=
  (key, (λ s, JStr (c_str s)) <$> o).
Definition oI (key : string) (o : option Z) : string * option jval :=
  (key, (λ z, JNum (double_of_Z z)) <$> o).
Definition oB (key : string) (o : option bool) : string * option jval := (key, JBool <$> o).
Definition oId (key : string) (o : option Z) : string * option jval :=
  (key, (λ z, JStr (c_str (to_string z))) <$> o).
Definition oO {X} (flds : X → list (string * option jval)) (key : string) (o : option X)
    : string * option jval :=
  (key, (λ x, JObj (present (flds x))) <$> o).
Definition oStrs (key : string) (o : option (list bytes)) : string * option jval :=
  (key, (λ l, JArr ((λ s, JStr (c_str s)) <$> l)) <$> o).
Definition oA {X} (flds : X → list (string * option jval)) (key : string) (o : option (list X))
    : string * option jval :=
  (key, (λ l, JArr ((λ x, JObj (present (flds x))) <$> l)) <$> o).
Definition oInts (key : string) (o : option (list Z)) : string * option jval :=
  (key, (λ l, JArr ((λ z, JNum (double_of_Z z)) <$> l)) <$> o).

(** *** Automation *)

(** [obj (CreateObject ▷ stmt ▷ ... ▷ stmt) fs]: one lemma per statement; the
    list of fields is computed. [build_obj] expects the lemmas about the
    [ToJson] methods of the nested objects in the database [ark_json]. *)
Create HintDb ark_json discriminated.
Ltac decide_keys := vm_compute; reflexivity.
Ltac build_arr :=
  lazymatch goal with
  | |- arr (pushAll _ _) _ =>
      eapply pushAll_arr; intros ? ? ? ?;
      first [ apply pushI_arr; assumption | apply pushS_arr; assumption
            | unshelve (eapply pushJ_arr); [..|eauto with ark_json nocore]; assumption ]
  end.
Ltac build_fields :=
  lazymatch goal with
  | |- obj CreateObject _ => apply CreateObject_obj
  | |- obj (addS _ _ _) _ => eapply addS_obj; [build_fields|decide_keys]
  | |- obj (addI _ _ _) _ => eapply addI_obj; [build_fields|decide_keys]
  | |- obj (addB _ _ _) _ => eapply addB_obj; [build_fields|decide_keys]
  | |- obj (addD _ _ _) _ => eapply addD_obj; [build_fields|decide_keys]
  | |- obj (addJ _ (pushAll _ _) _) _ => eapply addJ_arr; [build_fields|decide_keys|build_arr]
  | |- obj (addJ _ _ _) _ => eapply addJ_obj; [build_fields|decide_keys|eauto with ark_json nocore]
  | |- obj (ifSome _ _ _) _ => eapply ifSome_obj; [build_fields|intros ? ? ?; build_fields]
  | |- obj (ifTrue _ _ _) _ => eapply ifTrue_obj; [build_fields|intros ? ?; build_fields]
  | _ => eassumption
  end.
Ltac head_of t := lazymatch t with ?f _ => head_of f | _ => t end.
Ltac build_obj :=
  lazymatch goal with |- obj ?t _ => let h := head_of t in unfold h end;
  eapply obj_eq; [build_fields|reflexivity].

(** The next member of a [Create] is read with the lemma [L]. *)
Ltac read L :=
  erewrite p_bind_ok by (eapply L; [eassumption|decide_keys|reflexivity|..]; eauto with ark).
