(* ===== verification/PtTypes.v ===== *)
(** * Protocol types: debugger and runtime

    Models the data members, [Create] and [ToJson] of the classes of
    tooling/dynamic/base/pt_types.{h,cpp} of the Debugger and Runtime domains. A
    [std::unique_ptr] that must not be null (an [ASSERT] of the code) is a plain
    value, a [std::optional] is an [option]. The members that hold values of the
    JavaScript engine ([value_] of RemoteObject and CallArgument) are not part of
    the JSON form and are left out, as are the factories that read engine values.
    For every class, [X_fields] is the JSON form, [X_wf] states what the round
    trip needs (numbers in range, text without NUL, valid names). *)

From S2P Require Import Prelude Regex Http CppLib Utils PtJson PtCodec.
Local Open Scope Z_scope.
Local Open Scope ark_scope.

(** ** Breakpoint ids *)

Record BreakpointDetails := mkBreakpointDetails {
  bd_line_ : Z;
  bd_column_ : Z;
  bd_url_ : bytes }.

Definition COLON : Z := 58.

Definition BreakpointDetails_ToString (metaData : BreakpointDetails) : bytes :=
  str "id:" ++ to_string (bd_line_ metaData) ++ [COLON] ++ to_string (bd_column_ metaData) ++ [COLON]
  ++ bd_url_ metaData.

(** [ParseBreakpointId]: the flag and the details as they were left. *)
Definition ParseBreakpointId (id : bytes) (metaData : BreakpointDetails) : bool * BreakpointDetails :=
  match find id [COLON] 0 with
  | None => (false, metaData)
  | Some lineStart =>
      match find id [COLON] (lineStart + 1) with
      | None => (false, metaData)
      | Some columnStart =>
          match find id [COLON] (columnStart + 1) with
          | None => (false, metaData)
          | Some urlStart =>
              let lineStr := substr id (lineStart + 1) (Some (columnStart - lineStart - 1)%nat) in
              let columnStr := substr id (columnStart + 1) (Some (urlStart - columnStart - 1)%nat) in
              let url := substr id (urlStart + 1) None in
              match StrToInt32 lineStr with
              | None => (false, metaData)
              | Some line =>
                  let metaData := mkBreakpointDetails line (bd_column_ metaData) (bd_url_ metaData) in
                  match StrToInt32 columnStr with
                  | None => (false, metaData)
                  | Some column => (true, mkBreakpointDetails line column url)
                  end
              end
          end
      end
  end.

(** ** RemoteObject *)

Definition one_of (names : list bytes) (s : bytes) : bool := bool_decide (s ∈ names).

Definition ObjectType_Valid : bytes → bool :=
  one_of (str <$> ["object"; "function"; "undefined"; "string"; "number"; "boolean"; "symbol";
                   "bigint"; "wasm"]%string).
Definition ObjectSubType_Valid : bytes → bool :=
  one_of (str <$> ["array"; "null"; "node"; "regexp"; "map"; "set"; "weakmap"; "iterator"; "generator";
                   "error"; "proxy"; "promise"; "typedarray"; "arraybuffer"; "dataview"; "i32"; "i64";
                   "f32"; "f64"; "v128"; "externref"]%string).

Record RemoteObject := mkRemoteObject {
  ro_type_ : bytes;
  ro_subType_ : option bytes;
  ro_className_ : option bytes;
  ro_unserializableValue_ : option bytes;
  ro_description_ : option bytes;
  ro_objectId_ : option Z;
  ro_arrayOrContainer_ : option bytes }.

Section Types.
Context `{cj : CJson} {cjOK : CJsonOK cj} `{CastOob}.

Definition RemoteObject_Create (params : PtJson) : created RemoteObject := finish (
  type <- need_as (if_valid ObjectType_Valid) (GetString params "type") []
            "'type' is invalid;" "Unknown or wrong type of 'type';" ;;
  subType <- want_as (if_valid ObjectSubType_Valid) (GetString params "subtype") None
            "'subtype' is invalid;" "Wrong type of 'subtype';" ;;
  className <- want (GetString params "className") None "Wrong type of 'className';" ;;
  unserializableValue <- want (GetString params "unserializableValue") None
            "Wrong type of 'unserializableValue';" ;;
  description <- want (GetString params "description") None "Wrong type of 'description';" ;;
  objectId <- want_as to_int32 (GetString params "objectId") None
            "Failed to convert 'objectId' from string to int;" "Wrong type of 'objectId';" ;;
  p_ret (mkRemoteObject type subType className unserializableValue description objectId None)).

Definition RemoteObject_ToJson (x : RemoteObject) : PtJson :=
  CreateObject
  ▷ addS "type" (ro_type_ x)
  ▷ ifSome (ro_subType_ x) (addS "subtype")
  ▷ ifSome (ro_className_ x) (addS "className")
  ▷ ifSome (ro_unserializableValue_ x) (addS "unserializableValue")
  ▷ ifSome (ro_description_ x) (addS "description")
  ▷ ifSome (ro_objectId_ x) (λ id, addS "objectId" (to_string id))
  ▷ ifSome (ro_arrayOrContainer_ x) (λ s, if bool_decide (s = []) then id else addS "arrayOrContainer" s).

Definition nonempty (o : option bytes) : option bytes := match o with Some [] => None | _ => o end.

Definition RemoteObject_fields (x : RemoteObject) : list (string * option jval) :=
  [fS "type" (ro_type_ x); oS "subtype" (ro_subType_ x); oS "className" (ro_className_ x);
   oS "unserializableValue" (ro_unserializableValue_ x); oS "description" (ro_description_ x);
   oId "objectId" (ro_objectId_ x); oS "arrayOrContainer" (nonempty (ro_arrayOrContainer_ x))].

(** [arrayOrContainer] is written but not read. *)
Definition RemoteObject_wf (x : RemoteObject) : Prop :=
  (ObjectType_Valid (ro_type_ x) = true ∧ nul_free (ro_type_ x)) ∧
  opt_ok nul_free (ro_subType_ x) ∧ opt_ok (λ s, ObjectSubType_Valid s = true) (ro_subType_ x) ∧
  opt_ok nul_free (ro_className_ x) ∧ opt_ok nul_free (ro_unserializableValue_ x) ∧
  opt_ok nul_free (ro_description_ x) ∧ opt_ok is_int32 (ro_objectId_ x) ∧
  ro_arrayOrContainer_ x = None.

Lemma RemoteObject_obj x : obj (RemoteObject_ToJson x) (RemoteObject_fields x).
Proof.
  unfold RemoteObject_ToJson.
  assert (Hn : ∀ o p, ifSome o (λ s, if bool_decide (s = []) then id else addS "arrayOrContainer" s) p
     = ifSome (nonempty o) (addS "arrayOrContainer") p) by (by intros [[|? ?]|] q).
  rewrite Hn. eapply obj_eq; [build_fields|reflexivity].
Qed.
Hint Resolve RemoteObject_obj : ark_json.

Lemma RemoteObject_read x p :
  RemoteObject_wf x → obj p (RemoteObject_fields x) → RemoteObject_Create p = Created x.
Proof.
  intros ((? & ?) & ? & ? & ? & ? & ? & ? & Ha) Hp. unfold RemoteObject_Create, finish.
  read need_valid. read want_valid. read want_string. read want_string. read want_string. read want_id.
  destruct x. simpl in *. by subst.
Qed.
Hint Resolve RemoteObject_read : ark.

(** ** ExceptionDetails *)

Record ExceptionDetails := mkExceptionDetails {
  ed_exceptionId_ : Z;
  ed_text_ : bytes;
  ed_lineNumber_ : Z;
  ed_columnNumber_ : Z;
  ed_scriptId_ : option Z;
  ed_url_ : option bytes;
  ed_exception_ : option RemoteObject;
  ed_executionContextId_ : option Z }.

Definition ExceptionDetails_Create (params : PtJson) : created ExceptionDetails := finish (
  exceptionId <- need (GetInt params "exceptionId") 0 "Unknown or wrong type of 'exceptionId';" ;;
  text <- need (GetString params "text") [] "Unknown or wrong type of 'text';" ;;
  lineNumber <- need (GetInt params "lineNumber") 0 "Unknown or wrong type of 'lineNumber';" ;;
  columnNumber <- need (GetInt params "columnNumber") 0 "Unknown or wrong type of 'columnNumber';" ;;
  scriptId <- want_as to_int32 (GetString params "scriptId") None
            "Failed to convert 'scriptId' from string to int;" "Wrong type of 'scriptId';" ;;
  url <- want (GetString params "url") None "Wrong type of 'url';" ;;
  exception <- want_as RemoteObject_Create (GetObject params "exception") None
            "'exception' format error;" "Wrong type of 'exception';" ;;
  executionContextId <- want (GetInt params "executionContextId") (Some 0)
            "Wrong type of 'executionContextId';" ;;
  p_ret (mkExceptionDetails exceptionId text lineNumber columnNumber scriptId url exception
           executionContextId)).

Definition ExceptionDetails_ToJson (x : ExceptionDetails) : PtJson :=
  CreateObject
  ▷ addI "exceptionId" (ed_exceptionId_ x)
  ▷ addS "text" (ed_text_ x)
  ▷ addI "lineNumber" (ed_lineNumber_ x)
  ▷ addI "columnNumber" (ed_columnNumber_ x)
  ▷ ifSome (ed_scriptId_ x) (λ id, addS "scriptId" (to_string id))
  ▷ ifSome (ed_url_ x) (addS "url")
  ▷ ifSome (ed_exception_ x) (λ e, addJ "exception" (RemoteObject_ToJson e))
  ▷ ifSome (ed_executionContextId_ x) (addI "executionContextId").

Definition ExceptionDetails_fields (x : ExceptionDetails) : list (string * option jval) :=
  [fI "exceptionId" (ed_exceptionId_ x); fS "text" (ed_text_ x); fI "lineNumber" (ed_lineNumber_ x);
   fI "columnNumber" (ed_columnNumber_ x); oId "scriptId" (ed_scriptId_ x); oS "url" (ed_url_ x);
   oO RemoteObject_fields "exception" (ed_exception_ x);
   oI "executionContextId" (ed_executionContextId_ x)].

(** An absent [executionContextId] is read as its initial value 0. *)
Definition ExceptionDetails_wf (x : ExceptionDetails) : Prop :=
  is_int32 (ed_exceptionId_ x) ∧ nul_free (ed_text_ x) ∧ is_int32 (ed_lineNumber_ x) ∧
  is_int32 (ed_columnNumber_ x) ∧ opt_ok is_int32 (ed_scriptId_ x) ∧ opt_ok nul_free (ed_url_ x) ∧
  opt_ok RemoteObject_wf (ed_exception_ x) ∧
  ∃ id, ed_executionContextId_ x = Some id ∧ is_int32 id.

Lemma ExceptionDetails_obj x : obj (ExceptionDetails_ToJson x) (ExceptionDetails_fields x).
Proof. build_obj. Qed.

Lemma ExceptionDetails_read x p :
  ExceptionDetails_wf x → obj p (ExceptionDetails_fields x) → ExceptionDetails_Create p = Created x.
Proof.
  intros (? & ? & ? & ? & ? & ? & ? & id & Hid & ?) Hp. unfold ExceptionDetails_Create, finish.
  read need_int. read need_string. read need_int. read need_int. read want_id. read want_string.
  read want_obj.
  erewrite p_bind_ok by (eapply (want_int_default p _ Hp); [decide_keys| |eassumption];
    cbn -[double_of_Z]; rewrite Hid; reflexivity).
  destruct x. simpl in *. by subst.
Qed.

Definition with_context_id (id : option Z) (x : ExceptionDetails) : ExceptionDetails :=
  mkExceptionDetails (ed_exceptionId_ x) (ed_text_ x) (ed_lineNumber_ x) (ed_columnNumber_ x) (ed_scriptId_ x) (ed_url_ x)
    (ed_exception_ x) id.

Lemma ExceptionDetails_read_default x : ExceptionDetails_wf x →
  ExceptionDetails_Create (ExceptionDetails_ToJson (with_context_id None x)) = Created (with_context_id (Some 0) x).
Proof.
  intros Hx. pose proof (ExceptionDetails_obj (with_context_id None x)) as Hp.
  destruct Hx as (? & ? & ? & ? & ? & ? & ? & _). unfold with_context_id in *. destruct x; simpl in *.
  unfold ExceptionDetails_Create, finish.
  read need_int. read need_string. read need_int. read need_int. read want_id. read want_string. read want_obj.
  by erewrite p_bind_ok by (eapply (want_int_init _ _ Hp) with (o := None); [decide_keys|reflexivity|done]).
Qed.

(** ** Property descriptors *)

Record InternalPropertyDescriptor := mkInternalPropertyDescriptor {
  ipd_name_ : bytes;
  ipd_value_ : option RemoteObject }.

Definition InternalPropertyDescriptor_Create (params : PtJson) : created InternalPropertyDescriptor := finish (
  name <- need (GetString params "name") [] "Unknown or wrong type of 'name';" ;;
  value <- want_as RemoteObject_Create (GetObject params "value") None
            "'value' format error;" "Wrong type of 'value';" ;;
  p_ret (mkInternalPropertyDescriptor name value)).

Definition InternalPropertyDescriptor_ToJson (x : InternalPropertyDescriptor) : PtJson :=
  CreateObject
  ▷ addS "name" (ipd_name_ x)
  ▷ ifSome (ipd_value_ x) (λ v, addJ "value" (RemoteObject_ToJson v)).

Definition InternalPropertyDescriptor_fields (x : InternalPropertyDescriptor) : list (string * option jval) :=
  [fS "name" (ipd_name_ x); oO RemoteObject_fields "value" (ipd_value_ x)].
Definition InternalPropertyDescriptor_wf (x : InternalPropertyDescriptor) : Prop :=
  nul_free (ipd_name_ x) ∧ opt_ok RemoteObject_wf (ipd_value_ x).

Lemma InternalPropertyDescriptor_obj x :
  obj (InternalPropertyDescriptor_ToJson x) (InternalPropertyDescriptor_fields x).
Proof. build_obj. Qed.

Lemma InternalPropertyDescriptor_read x p :
  InternalPropertyDescriptor_wf x → obj p (InternalPropertyDescriptor_fields x) →
  InternalPropertyDescriptor_Create p = Created x.
Proof.
  intros (? & ?) Hp. unfold InternalPropertyDescriptor_Create, finish.
  read need_string. read want_obj. by destruct x.
Qed.

Record PrivatePropertyDescriptor := mkPrivatePropertyDescriptor {
  ppd_name_ : bytes;
  ppd_value_ : option RemoteObject;
  ppd_get_ : option RemoteObject;
  ppd_set_ : option RemoteObject }.

Definition PrivatePropertyDescriptor_Create (params : PtJson) : created PrivatePropertyDescriptor := finish (
  name <- need (GetString params "name") [] "Unknown or wrong type of 'name';" ;;
  value <- want_as RemoteObject_Create (GetObject params "value") None
            "'value' format error;" "Wrong type of 'value';" ;;
  get <- want_as RemoteObject_Create (GetObject params "get") None
            "'get' format error;" "Wrong type of 'get';" ;;
  set <- want_as RemoteObject_Create (GetObject params "set") None
            "'set' format error;" "Wrong type of 'set';" ;;
  p_ret (mkPrivatePropertyDescriptor name value get set)).

Definition PrivatePropertyDescriptor_ToJson (x : PrivatePropertyDescriptor) : PtJson :=
  CreateObject
  ▷ addS "name" (ppd_name_ x)
  ▷ ifSome (ppd_value_ x) (λ v, addJ "value" (RemoteObject_ToJson v))
  ▷ ifSome (ppd_get_ x) (λ v, addJ "get" (RemoteObject_ToJson v))
  ▷ ifSome (ppd_set_ x) (λ v, addJ "set" (RemoteObject_ToJson v)).

Definition PrivatePropertyDescriptor_fields (x : PrivatePropertyDescriptor) : list (string * option jval) :=
  [fS "name" (ppd_name_ x); oO RemoteObject_fields "value" (ppd_value_ x);
   oO RemoteObject_fields "get" (ppd_get_ x); oO RemoteObject_fields "set" (ppd_set_ x)].
Definition PrivatePropertyDescriptor_wf (x : PrivatePropertyDescriptor) : Prop :=
  nul_free (ppd_name_ x) ∧ opt_ok RemoteObject_wf (ppd_value_ x) ∧
  opt_ok RemoteObject_wf (ppd_get_ x) ∧ opt_ok RemoteObject_wf (ppd_set_ x).

Lemma PrivatePropertyDescriptor_obj x :
  obj (PrivatePropertyDescriptor_ToJson x) (PrivatePropertyDescriptor_fields x).
Proof. build_obj. Qed.

Lemma PrivatePropertyDescriptor_read x p :
  PrivatePropertyDescriptor_wf x → obj p (PrivatePropertyDescriptor_fields x) →
  PrivatePropertyDescriptor_Create p = Created x.
Proof.
  intros (? & ? & ? & ?) Hp. unfold PrivatePropertyDescriptor_Create, finish.
  read need_string. read want_obj. read want_obj. read want_obj. by destruct x.
Qed.

Record PropertyDescriptor := mkPropertyDescriptor {
  pd_name_ : bytes;
  pd_value_ : option RemoteObject;
  pd_writable_ : option bool;
  pd_get_ : option RemoteObject;
  pd_set_ : option RemoteObject;
  pd_configurable_ : bool;
  pd_enumerable_ : bool;
  pd_wasThrown_ : option bool;
  pd_isOwn_ : option bool;
  pd_symbol_ : option RemoteObject }.

(** [configurable] and [enumerable] have no [optional] member: they keep their
    initial value [false] when they are absent. *)
Definition PropertyDescriptor_Create (params : PtJson) : created PropertyDescriptor := finish (
  name <- need (GetString params "name") [] "Unknown or wrong type of 'name';" ;;
  value <- want_as RemoteObject_Create (GetObject params "value") None
            "'value' format error;" "Wrong type of 'value';" ;;
  writable <- want (GetBool params "writable") None "Wrong type of 'writable';" ;;
  get <- want_as RemoteObject_Create (GetObject params "get") None
            "'get' format error;" "Wrong type of 'get';" ;;
  set <- want_as RemoteObject_Create (GetObject params "set") None
            "'set' format error;" "Wrong type of 'set';" ;;
  configurable <- want (GetBool params "configurable") None "Wrong type of 'configurable';" ;;
  enumerable <- want (GetBool params "enumerable") None "Wrong type of 'enumerable';" ;;
  wasThrown <- want (GetBool params "wasThrown") None "Wrong type of 'wasThrown';" ;;
  isOwn <- want (GetBool params "isOwn") None "Wrong type of 'isOwn';" ;;
  symbol <- want_as RemoteObject_Create (GetObject params "symbol") None
            "'symbol' format error;" "Wrong type of 'symbol';" ;;
  p_ret (mkPropertyDescriptor name value writable get set (default false configurable)
           (default false enumerable) wasThrown isOwn symbol)).

Definition PropertyDescriptor_ToJson (x : PropertyDescriptor) : PtJson :=
  CreateObject
  ▷ addS "name" (pd_name_ x)
  ▷ ifSome (pd_value_ x) (λ v, addJ "value" (RemoteObject_ToJson v))
  ▷ ifSome (pd_writable_ x) (addB "writable")
  ▷ ifSome (pd_get_ x) (λ v, addJ "get" (RemoteObject_ToJson v))
  ▷ ifSome (pd_set_ x) (λ v, addJ "set" (RemoteObject_ToJson v))
  ▷ addB "configurable" (pd_configurable_ x)
  ▷ addB "enumerable" (pd_enumerable_ x)
  ▷ ifSome (pd_wasThrown_ x) (addB "wasThrown")
  ▷ ifSome (pd_isOwn_ x) (addB "isOwn")
  ▷ ifSome (pd_symbol_ x) (λ v, addJ "symbol" (RemoteObject_ToJson v)).

Definition PropertyDescriptor_fields (x : PropertyDescriptor) : list (string * option jval) :=
  [fS "name" (pd_name_ x); oO RemoteObject_fields "value" (pd_value_ x); oB "writable" (pd_writable_ x);
   oO RemoteObject_fields "get" (pd_get_ x); oO RemoteObject_fields "set" (pd_set_ x);
   fB "configurable" (pd_configurable_ x); fB "enumerable" (pd_enumerable_ x);
   oB "wasThrown" (pd_wasThrown_ x); oB "isOwn" (pd_isOwn_ x);
   oO RemoteObject_fields "symbol" (pd_symbol_ x)].
Definition PropertyDescriptor_wf (x : PropertyDescriptor) : Prop :=
  nul_free (pd_name_ x) ∧ opt_ok RemoteObject_wf (pd_value_ x) ∧ opt_ok RemoteObject_wf (pd_get_ x) ∧
  opt_ok RemoteObject_wf (pd_set_ x) ∧ opt_ok RemoteObject_wf (pd_symbol_ x).

Lemma PropertyDescriptor_obj x : obj (PropertyDescriptor_ToJson x) (PropertyDescriptor_fields x).
Proof. build_obj. Qed.

Lemma PropertyDescriptor_read x p :
  PropertyDescriptor_wf x → obj p (PropertyDescriptor_fields x) →
  PropertyDescriptor_Create p = Created x.
Proof.
  intros (? & ? & ? & ? & ?) Hp. unfold PropertyDescriptor_Create, finish.
  read need_string. read want_obj. read want_bool. read want_obj. read want_obj.
  erewrite p_bind_ok
    by (eapply want_bool with (o := Some (pd_configurable_ x)); [eassumption|decide_keys|reflexivity]).
  erewrite p_bind_ok
    by (eapply want_bool with (o := Some (pd_enumerable_ x)); [eassumption|decide_keys|reflexivity]).
  read want_bool. read want_bool. read want_obj. by destruct x.
Qed.

(** ** CallArgument *)

Record CallArgument := mkCallArgument {
  ca_unserializableValue_ : option bytes;
  ca_objectId_ : option Z }.

Definition CallArgument_Create (params : PtJson) : created CallArgument := finish (
  unserializableValue <- want (GetString params "unserializableValue") None
            "Wrong type of 'unserializableValue';" ;;
  objectId <- want_as to_int32 (GetString params "objectId") None
            "Failed to convert 'objectId' from string to int;" "Wrong type of 'objectId';" ;;
  p_ret (mkCallArgument unserializableValue objectId)).

Definition CallArgument_ToJson (x : CallArgument) : PtJson :=
  CreateObject
  ▷ ifSome (ca_unserializableValue_ x) (addS "unserializableValue")
  ▷ ifSome (ca_objectId_ x) (λ id, addS "objectId" (to_string id)).

Definition CallArgument_fields (x : CallArgument) : list (string * option jval) :=
  [oS "unserializableValue" (ca_unserializableValue_ x); oId "objectId" (ca_objectId_ x)].
Definition CallArgument_wf (x : CallArgument) : Prop :=
  opt_ok nul_free (ca_unserializableValue_ x) ∧ opt_ok is_int32 (ca_objectId_ x).

Lemma CallArgument_obj x : obj (CallArgument_ToJson x) (CallArgument_fields x).
Proof. build_obj. Qed.

Lemma CallArgument_read x p :
  CallArgument_wf x → obj p (CallArgument_fields x) → CallArgument_Create p = Created x.
Proof.
  intros (? & ?) Hp. unfold CallArgument_Create, finish.
  read want_string. read want_id. by destruct x.
Qed.

(** ** Locations *)

Record Location := mkLocation {
  loc_scriptId_ : Z;
  loc_lineNumber_ : Z;
  loc_columnNumber_ : option Z }.

Definition Location_Create (params : PtJson) : created Location := finish (
  scriptId <- need_as to_int32 (GetString params "scriptId") 0
            "Failed to convert 'scriptId' from string to int;" "Unknown or wrong type of 'scriptId';" ;;
  lineNumber <- need (GetInt params "lineNumber") 0 "Unknown or wrong type of 'lineNumber';" ;;
  columnNumber <- want (GetInt params "columnNumber") None "Wrong type of 'columnNumber';" ;;
  p_ret (mkLocation scriptId lineNumber columnNumber)).

Definition Location_ToJson (x : Location) : PtJson :=
  CreateObject
  ▷ addS "scriptId" (to_string (loc_scriptId_ x))
  ▷ addI "lineNumber" (loc_lineNumber_ x)
  ▷ ifSome (loc_columnNumber_ x) (addI "columnNumber").

Definition Location_fields (x : Location) : list (string * option jval) :=
  [fS "scriptId" (to_string (loc_scriptId_ x)); fI "lineNumber" (loc_lineNumber_ x);
   oI "columnNumber" (loc_columnNumber_ x)].
Definition Location_wf (x : Location) : Prop :=
  is_int32 (loc_scriptId_ x) ∧ is_int32 (loc_lineNumber_ x) ∧ opt_ok is_int32 (loc_columnNumber_ x).

Lemma Location_obj x : obj (Location_ToJson x) (Location_fields x).
Proof. build_obj. Qed.
Hint Resolve Location_obj : ark_json.

Lemma Location_read x p : Location_wf x → obj p (Location_fields x) → Location_Create p = Created x.
Proof.
  intros (? & ? & ?) Hp. unfold Location_Create, finish.
  read need_id. read need_int. read want_int. by destruct x.
Qed.
Hint Resolve Location_read : ark.

Record ScriptPosition := mkScriptPosition {
  sp_lineNumber_ : Z;
  sp_columnNumber_ : Z }.

Definition ScriptPosition_Create (params : PtJson) : created ScriptPosition := finish (
  lineNumber <- need (GetInt params "lineNumber") 0 "Unknown or wrong type of 'lineNumber';" ;;
  columnNumber <- need (GetInt params "columnNumber") 0 "Unknown or wrong type of 'columnNumber';" ;;
  p_ret (mkScriptPosition lineNumber columnNumber)).

Definition ScriptPosition_ToJson (x : ScriptPosition) : PtJson :=
  CreateObject
  ▷ addI "lineNumber" (sp_lineNumber_ x)
  ▷ addI "columnNumber" (sp_columnNumber_ x).

Definition ScriptPosition_fields (x : ScriptPosition) : list (string * option jval) :=
  [fI "lineNumber" (sp_lineNumber_ x); fI "columnNumber" (sp_columnNumber_ x)].
Definition ScriptPosition_wf (x : ScriptPosition) : Prop :=
  is_int32 (sp_lineNumber_ x) ∧ is_int32 (sp_columnNumber_ x).

Lemma ScriptPosition_obj x : obj (ScriptPosition_ToJson x) (ScriptPosition_fields x).
Proof. build_obj. Qed.
Hint Resolve ScriptPosition_obj : ark_json.

Lemma ScriptPosition_read x p :
  ScriptPosition_wf x → obj p (ScriptPosition_fields x) → ScriptPosition_Create p = Created x.
Proof.
  intros (? & ?) Hp. unfold ScriptPosition_Create, finish. read need_int. read need_int. by destruct x.
Qed.
Hint Resolve ScriptPosition_read : ark.

Record SearchMatch := mkSearchMatch {
  sm_lineNumber_ : Z;
  sm_lineContent_ : bytes }.

Definition SearchMatch_Create (params : PtJson) : created SearchMatch := finish (
  lineNumber <- need (GetInt params "lineNumber") 0 "Unknown or wrong type of 'lineNumber';" ;;
  lineContent <- need (GetString params "lineContent") [] "Unknown or wrong type of 'lineContent';" ;;
  p_ret (mkSearchMatch lineNumber lineContent)).

Definition SearchMatch_ToJson (x : SearchMatch) : PtJson :=
  CreateObject
  ▷ addI "lineNumber" (sm_lineNumber_ x)
  ▷ addS "lineContent" (sm_lineContent_ x).

Definition SearchMatch_fields (x : SearchMatch) : list (string * option jval) :=
  [fI "lineNumber" (sm_lineNumber_ x); fS "lineContent" (sm_lineContent_ x)].
Definition SearchMatch_wf (x : SearchMatch) : Prop :=
  is_int32 (sm_lineNumber_ x) ∧ nul_free (sm_lineContent_ x).

Lemma SearchMatch_obj x : obj (SearchMatch_ToJson x) (SearchMatch_fields x).
Proof. build_obj. Qed.

Lemma SearchMatch_read x p :
  SearchMatch_wf x → obj p (SearchMatch_fields x) → SearchMatch_Create p = Created x.
Proof.
  intros (? & ?) Hp. unfold SearchMatch_Create, finish. read need_int. read need_string. by destruct x.
Qed.

Record LocationRange := mkLocationRange {
  lr_scriptId_ : Z;
  lr_start_ : ScriptPosition;
  lr_end_ : ScriptPosition }.

(** Pointer members that are null until they are read start with a default
    value here; an object in which one stayed null is rejected. *)
Definition ScriptPosition_init : ScriptPosition := mkScriptPosition 0 0.

Definition LocationRange_Create (params : PtJson) : created LocationRange := finish (
  scriptId <- need_as to_int32 (GetString params "scriptId") 0
            "Failed to convert 'scriptId' from string to int;" "Unknown or wrong type of 'scriptId';" ;;
  start <- need_as ScriptPosition_Create (GetObject params "start") ScriptPosition_init
            "'start' format error;" "Unknown or wrong type of 'start';" ;;
  end' <- need_as ScriptPosition_Create (GetObject params "end") ScriptPosition_init
            "'end' format error;" "Unknown or wrong type of 'end';" ;;
  p_ret (mkLocationRange scriptId start end')).

Definition LocationRange_ToJson (x : LocationRange) : PtJson :=
  CreateObject
  ▷ addS "scriptId" (to_string (lr_scriptId_ x))
  ▷ addJ "start" (ScriptPosition_ToJson (lr_start_ x))
  ▷ addJ "end" (ScriptPosition_ToJson (lr_end_ x)).

Definition LocationRange_fields (x : LocationRange) : list (string * option jval) :=
  [fS "scriptId" (to_string (lr_scriptId_ x)); fO ScriptPosition_fields "start" (lr_start_ x);
   fO ScriptPosition_fields "end" (lr_end_ x)].
Definition LocationRange_wf (x : LocationRange) : Prop :=
  is_int32 (lr_scriptId_ x) ∧ ScriptPosition_wf (lr_start_ x) ∧ ScriptPosition_wf (lr_end_ x).

Lemma LocationRange_obj x : obj (LocationRange_ToJson x) (LocationRange_fields x).
Proof. build_obj. Qed.

Lemma LocationRange_read x p :
  LocationRange_wf x → obj p (LocationRange_fields x) → LocationRange_Create p = Created x.
Proof.
  intros (? & ? & ?) Hp. unfold LocationRange_Create, finish.
  read need_id. read need_obj. read need_obj. by destruct x.
Qed.

Record NativeRange := mkNativeRange {
  nr_start_ : Z;
  nr_end_ : Z }.

Definition NativeRange_Create (params : PtJson) : created NativeRange := finish (
  start <- need (GetUInt64 params "start") 0 "Unknown 'start';" ;;
  end' <- need (GetUInt64 params "end") 0 "Unknown 'end';" ;;
  p_ret (mkNativeRange start end')).

Definition BreakType_Valid : bytes → bool :=
  one_of (str <$> ["debuggerStatement"; "call"; "return"]%string).

Record BreakLocation := mkBreakLocation {
  bl_scriptId_ : Z;
  bl_lineNumber_ : Z;
  bl_columnNumber_ : option Z;
  bl_type_ : option bytes }.

Definition BreakLocation_Create (params : PtJson) : created BreakLocation := finish (
  scriptId <- need_as to_int32 (GetString params "scriptId") 0
            "Failed to convert 'scriptId' from string to int;" "Unknown or wrong type of 'scriptId';" ;;
  lineNumber <- need (GetInt params "lineNumber") 0 "Unknown or wrong type of 'lineNumber';" ;;
  columnNumber <- want (GetInt params "columnNumber") None "Wrong type of 'columnNumber';" ;;
  type <- want_as (if_valid BreakType_Valid) (GetString params "type") None
            "'type' is invalid;" "type 'scriptId';" ;;
  p_ret (mkBreakLocation scriptId lineNumber columnNumber type)).

Definition BreakLocation_ToJson (x : BreakLocation) : PtJson :=
  CreateObject
  ▷ addS "scriptId" (to_string (bl_scriptId_ x))
  ▷ addI "lineNumber" (bl_lineNumber_ x)
  ▷ ifSome (bl_columnNumber_ x) (addI "columnNumber")
  ▷ ifSome (bl_type_ x) (addS "type").

Definition BreakLocation_fields (x : BreakLocation) : list (string * option jval) :=
  [fS "scriptId" (to_string (bl_scriptId_ x)); fI "lineNumber" (bl_lineNumber_ x);
   oI "columnNumber" (bl_columnNumber_ x); oS "type" (bl_type_ x)].
Definition BreakLocation_wf (x : BreakLocation) : Prop :=
  is_int32 (bl_scriptId_ x) ∧ is_int32 (bl_lineNumber_ x) ∧ opt_ok is_int32 (bl_columnNumber_ x) ∧
  opt_ok nul_free (bl_type_ x) ∧ opt_ok (λ s, BreakType_Valid s = true) (bl_type_ x).

Lemma BreakLocation_obj x : obj (BreakLocation_ToJson x) (BreakLocation_fields x).
Proof. build_obj. Qed.

Lemma BreakLocation_read x p :
  BreakLocation_wf x → obj p (BreakLocation_fields x) → BreakLocation_Create p = Created x.
Proof.
  intros (? & ? & ? & ? & ?) Hp. unfold BreakLocation_Create, finish.
  read need_id. read need_int. read want_int. read want_valid. by destruct x.
Qed.

(** ** Scopes and call frames *)

Definition ScopeType_Valid : bytes → bool :=
  one_of (str <$> ["global"; "local"; "with"; "closure"; "catch"; "block"; "script"; "eval"; "module";
                   "wasm-expression-stack"]%string).

Record Scope := mkScope {
  sc_type_ : bytes;
  sc_object_ : RemoteObject;
  sc_name_ : option bytes;
  sc_startLocation_ : option Location;
  sc_endLocation_ : option Location }.

Definition RemoteObject_init : RemoteObject := mkRemoteObject [] None None None None None None.

Definition Scope_Create (params : PtJson) : created Scope := finish (
  type <- need_as (if_valid ScopeType_Valid) (GetString params "type") []
            "'type' is invalid;" "Unknown or wrong type of 'type';" ;;
  object <- need_as RemoteObject_Create (GetObject params "object") RemoteObject_init
            "'object' format error;" "Unknown or wrong type of 'object';" ;;
  name <- want (GetString params "name") None "Wrong type of 'name';" ;;
  startLocation <- want_as Location_Create (GetObject params "startLocation") None
            "'startLocation' format error;" "Wrong type of 'startLocation';" ;;
  endLocation <- want_as Location_Create (GetObject params "endLocation") None
            "'endLocation' format error;" "Wrong type of 'endLocation';" ;;
  p_ret (mkScope type object name startLocation endLocation)).

Definition Scope_ToJson (x : Scope) : PtJson :=
  CreateObject
  ▷ addS "type" (sc_type_ x)
  ▷ addJ "object" (RemoteObject_ToJson (sc_object_ x))
  ▷ ifSome (sc_name_ x) (addS "name")
  ▷ ifSome (sc_startLocation_ x) (λ l, addJ "startLocation" (Location_ToJson l))
  ▷ ifSome (sc_endLocation_ x) (λ l, addJ "endLocation" (Location_ToJson l)).

Definition Scope_fields (x : Scope) : list (string * option jval) :=
  [fS "type" (sc_type_ x); fO RemoteObject_fields "object" (sc_object_ x); oS "name" (sc_name_ x);
   oO Location_fields "startLocation" (sc_startLocation_ x);
   oO Location_fields "endLocation" (sc_endLocation_ x)].
Definition Scope_wf (x : Scope) : Prop :=
  (ScopeType_Valid (sc_type_ x) = true ∧ nul_free (sc_type_ x)) ∧ RemoteObject_wf (sc_object_ x) ∧
  opt_ok nul_free (sc_name_ x) ∧ opt_ok Location_wf (sc_startLocation_ x) ∧
  opt_ok Location_wf (sc_endLocation_ x).

Lemma Scope_obj x : obj (Scope_ToJson x) (Scope_fields x).
Proof. build_obj. Qed.
Hint Resolve Scope_obj : ark_json.

Lemma Scope_read x p : Scope_wf x → obj p (Scope_fields x) → Scope_Create p = Created x.
Proof.
  intros ((? & ?) & ? & ? & ? & ?) Hp. unfold Scope_Create, finish.
  read need_valid. read need_obj. read want_string. read want_obj. read want_obj. by destruct x.
Qed.
Hint Resolve Scope_read : ark.

Record CallFrame := mkCallFrame {
  cf_callFrameId_ : Z;
  cf_functionName_ : bytes;
  cf_functionLocation_ : option Location;
  cf_location_ : Location;
  cf_url_ : bytes;
  cf_scopeChain_ : list Scope;
  cf_this_ : option RemoteObject;
  cf_returnValue_ : option RemoteObject;
  cf_isStaticFrame_ : bool }.

Definition Location_init : Location := mkLocation 0 0 None.

(** [this_] is a pointer that may stay null; [isStaticFrame_] is not read. *)
Definition CallFrame_Create (params : PtJson) : created CallFrame := finish (
  callFrameId <- need_as to_int32 (GetString params "callFrameId") 0
            "Failed to convert 'callFrameId' from string to int;"
            "Unknown or wrong type of 'callFrameId';" ;;
  functionName <- need (GetString params "functionName") [] "Unknown or wrong type of 'functionName';" ;;
  functionLocation <- want_as Location_Create (GetObject params "functionLocation") None
            "'functionLocation' format error;" "Wrong type of 'functionLocation';" ;;
  location <- need_as Location_Create (GetObject params "location") Location_init
            "'location' format error;" "Unknown or wrong type of 'location';" ;;
  url <- need (GetString params "url") [] "Unknown or wrong type of 'url';" ;;
  scopeChain <- need_each Scope_Create (GetArray params "scopeChain")
            "'scopeChain' format error;" "Unknown or wrong type of 'scopeChain';" ;;
  this <- need_as (some_as RemoteObject_Create) (GetObject params "this") None
            "'this' format error;" "Unknown or wrong type of 'this';" ;;
  returnValue <- want_as RemoteObject_Create (GetObject params "returnValue") None
            "'returnValue' format error;" "Wrong type of 'returnValue';" ;;
  p_ret (mkCallFrame callFrameId functionName functionLocation location url scopeChain this
           returnValue false)).

Definition undefinedThis : PtJson := CreateObject ▷ addS "type" (str "undefined").

Definition CallFrame_ToJson (x : CallFrame) : PtJson :=
  CreateObject
  ▷ addS "callFrameId" (to_string (cf_callFrameId_ x))
  ▷ addS "functionName" (cf_functionName_ x)
  ▷ ifSome (cf_functionLocation_ x) (λ l, addJ "functionLocation" (Location_ToJson l))
  ▷ addJ "location" (Location_ToJson (cf_location_ x))
  ▷ addS "url" (cf_url_ x)
  ▷ addJ "scopeChain" (pushAll (λ values s, pushJ values (Scope_ToJson s)) (cf_scopeChain_ x))
  ▷ addJ "this" (match cf_this_ x with Some t => RemoteObject_ToJson t | None => undefinedThis end)
  ▷ ifSome (cf_returnValue_ x) (λ v, addJ "returnValue" (RemoteObject_ToJson v))
  ▷ ifTrue (cf_isStaticFrame_ x) (addB "isStaticFrame" true).

(** The object that stands for an undefined [this]. *)
Definition undefined_object : RemoteObject :=
  mkRemoteObject (str "undefined") None None None None None None.

Definition CallFrame_fields (x : CallFrame) : list (string * option jval) :=
  [fS "callFrameId" (to_string (cf_callFrameId_ x)); fS "functionName" (cf_functionName_ x);
   oO Location_fields "functionLocation" (cf_functionLocation_ x);
   fO Location_fields "location" (cf_location_ x); fS "url" (cf_url_ x);
   fA Scope_fields "scopeChain" (cf_scopeChain_ x);
   fO RemoteObject_fields "this" (default undefined_object (cf_this_ x));
   oO RemoteObject_fields "returnValue" (cf_returnValue_ x);
   ("isStaticFrame"%string, if cf_isStaticFrame_ x then Some (JBool true) else None)].

Definition CallFrame_wf (x : CallFrame) : Prop :=
  is_int32 (cf_callFrameId_ x) ∧ nul_free (cf_functionName_ x) ∧
  opt_ok Location_wf (cf_functionLocation_ x) ∧ Location_wf (cf_location_ x) ∧ nul_free (cf_url_ x) ∧
  Forall Scope_wf (cf_scopeChain_ x) ∧ opt_ok RemoteObject_wf (cf_this_ x) ∧
  opt_ok RemoteObject_wf (cf_returnValue_ x).

Lemma this_obj o :
  obj (match o with Some t => RemoteObject_ToJson t | None => undefinedThis end)
      (RemoteObject_fields (default undefined_object o)).
Proof.
  destruct o as [t|]; [apply RemoteObject_obj|].
  assert (E : obj undefinedThis [fS "type" (str "undefined")]) by build_obj. exact E.
Qed.
Hint Resolve this_obj : ark_json.

Lemma CallFrame_obj x : obj (CallFrame_ToJson x) (CallFrame_fields x).
Proof. build_obj. Qed.

(** What reading back keeps: everything but the flag of static frames; a null
    [this] comes back as the undefined object. *)
Definition CallFrame_kept (x : CallFrame) : CallFrame :=
  mkCallFrame (cf_callFrameId_ x) (cf_functionName_ x) (cf_functionLocation_ x) (cf_location_ x)
    (cf_url_ x) (cf_scopeChain_ x) (Some (default undefined_object (cf_this_ x))) (cf_returnValue_ x) false.

Lemma undefined_object_wf : RemoteObject_wf undefined_object.
Proof. repeat split; try done. apply (bool_decide_eq_true_1 _). vm_compute. reflexivity. Qed.

Lemma CallFrame_read x p :
  CallFrame_wf x → obj p (CallFrame_fields x) → CallFrame_Create p = Created (CallFrame_kept x).
Proof.
  intros (? & ? & ? & ? & ? & Hsc & Hthis & ?) Hp. unfold CallFrame_Create, finish.
  read need_id. read need_string. read want_obj. read need_obj. read need_string.
  rewrite Forall_forall in Hsc. read need_each_obj.
  assert (Hwf : RemoteObject_wf (default undefined_object (cf_this_ x))).
  { destruct (cf_this_ x) as [t|]; [by apply Hthis|apply undefined_object_wf]. }
  erewrite p_bind_ok.
  2:{ eapply (need_obj p _ Hp) with (flds := λ o, RemoteObject_fields (default undefined_object o))
        (x := Some (default undefined_object (cf_this_ x))); [decide_keys|reflexivity|].
      intros q Hq. unfold some_as. erewrite RemoteObject_read; [reflexivity| |exact Hq]. exact Hwf. }
  read want_obj. done.
Qed.

(** ** Breakpoint requests *)

Record BreakpointInfo := mkBreakpointInfo {
  bi_lineNumber_ : Z;
  bi_columnNumber_ : Z;
  bi_url_ : bytes;
  bi_condition_ : option bytes;
  bi_urlRegex_ : option bytes;
  bi_scriptHash_ : option bytes;
  bi_restrictToFunction_ : option bool }.

Definition BreakpointInfo_Create (params : PtJson) : created BreakpointInfo := finish (
  lineNumber <- need (GetInt params "lineNumber") 0 "Unknown or wrong type of 'lineNumber';" ;;
  columnNumber <- need (GetInt params "columnNumber") 0 "Unknown or wrong type of 'columnNumber';" ;;
  url <- need (GetString params "url") [] "Unknown or wrong type of 'url';" ;;
  condition <- want (GetString params "condition") None "Wrong type of 'condition';" ;;
  urlRegex <- want (GetString params "urlRegex") None "Wrong type of 'urlRegex';" ;;
  scriptHash <- want (GetString params "scriptHash") None "Wrong type of 'scriptHash';" ;;
  restrictToFunction <- want (GetBool params "restrictToFunction") None
            "Wrong type of 'restrictToFunction';" ;;
  p_ret (mkBreakpointInfo lineNumber columnNumber url condition urlRegex scriptHash restrictToFunction)).

Definition BreakpointInfo_CreateAsSharedPtr (line column : Z) (url condition : bytes) : BreakpointInfo :=
  mkBreakpointInfo line column url (Some condition) None None None.

Definition BreakpointInfo_ToJson (x : BreakpointInfo) : PtJson :=
  CreateObject
  ▷ addI "lineNumber" (bi_lineNumber_ x)
  ▷ addI "columnNumber" (bi_columnNumber_ x)
  ▷ addS "url" (bi_url_ x)
  ▷ ifSome (bi_condition_ x) (addS "condition")
  ▷ ifSome (bi_urlRegex_ x) (addS "urlRegex")
  ▷ ifSome (bi_scriptHash_ x) (addS "scriptHash")
  ▷ ifSome (bi_restrictToFunction_ x) (addB "restrictToFunction").

Definition BreakpointInfo_fields (x : BreakpointInfo) : list (string * option jval) :=
  [fI "lineNumber" (bi_lineNumber_ x); fI "columnNumber" (bi_columnNumber_ x); fS "url" (bi_url_ x);
   oS "condition" (bi_condition_ x); oS "urlRegex" (bi_urlRegex_ x); oS "scriptHash" (bi_scriptHash_ x);
   oB "restrictToFunction" (bi_restrictToFunction_ x)].
Definition BreakpointInfo_wf (x : BreakpointInfo) : Prop :=
  is_int32 (bi_lineNumber_ x) ∧ is_int32 (bi_columnNumber_ x) ∧ nul_free (bi_url_ x) ∧
  opt_ok nul_free (bi_condition_ x) ∧ opt_ok nul_free (bi_urlRegex_ x) ∧
  opt_ok nul_free (bi_scriptHash_ x).

Lemma BreakpointInfo_obj x : obj (BreakpointInfo_ToJson x) (BreakpointInfo_fields x).
Proof. build_obj. Qed.

Lemma BreakpointInfo_read x p :
  BreakpointInfo_wf x → obj p (BreakpointInfo_fields x) → BreakpointInfo_Create p = Created x.
Proof.
  intros (? & ? & ? & ? & ? & ?) Hp. unfold BreakpointInfo_Create, finish.
  read need_int. read need_int. read need_string. read want_string. read want_string. read want_string.
  read want_bool. by destruct x.
Qed.

Record BreakpointReturnInfo := mkBreakpointReturnInfo {
  br_lineNumber_ : Z;
  br_columnNumber_ : Z;
  br_id_ : bytes;
  br_scriptId_ : Z }.

(** Only the line number is mandatory; the other members keep their initial
    values when they are absent. *)
Definition BreakpointReturnInfo_Create (params : PtJson) : created BreakpointReturnInfo := finish (
  lineNumber <- need (GetInt params "lineNumber") 0 "Wrong type of 'lineNumber';" ;;
  columnNumber <- want (GetInt params "columnNumber") (Some 0) "Wrong type of 'columnNumber';" ;;
  id <- want (GetString params "id") (Some []) "Wrong type of 'id';" ;;
  scriptId <- want (GetInt params "scriptId") (Some 0) "Wrong type of 'scriptId';" ;;
  p_ret (mkBreakpointReturnInfo lineNumber (default 0 columnNumber) (default [] id) (default 0 scriptId))).

Definition BreakpointReturnInfo_ToJson (x : BreakpointReturnInfo) : PtJson :=
  CreateObject
  ▷ addI "lineNumber" (br_lineNumber_ x)
  ▷ addI "columnNumber" (br_columnNumber_ x)
  ▷ addS "id" (br_id_ x)
  ▷ addI "scriptId" (br_scriptId_ x).

Definition BreakpointReturnInfo_fields (x : BreakpointReturnInfo) : list (string * option jval) :=
  [fI "lineNumber" (br_lineNumber_ x); fI "columnNumber" (br_columnNumber_ x); fS "id" (br_id_ x);
   fI "scriptId" (br_scriptId_ x)].
Definition BreakpointReturnInfo_wf (x : BreakpointReturnInfo) : Prop :=
  is_int32 (br_lineNumber_ x) ∧ is_int32 (br_columnNumber_ x) ∧ nul_free (br_id_ x) ∧
  is_int32 (br_scriptId_ x).

Lemma BreakpointReturnInfo_obj x : obj (BreakpointReturnInfo_ToJson x) (BreakpointReturnInfo_fields x).
Proof. build_obj. Qed.

Lemma BreakpointReturnInfo_read x p :
  BreakpointReturnInfo_wf x → obj p (BreakpointReturnInfo_fields x) →
  BreakpointReturnInfo_Create p = Created x.
Proof.
  intros (? & ? & ? & ?) Hp. unfold BreakpointReturnInfo_Create, finish.
  read need_int. read want_int_default. read want_string_default. read want_int_default. by destruct x.
Qed.

End Types.

(** ** Properties *)

Lemma COLON_not_in_number z : - 2 ^ 64 < z < 2 ^ 64 → COLON ∉ to_string z.
Proof.
  intros Hz Hin. assert (HF : Forall (λ c, isdigit c = true ∨ c = 45) (to_string z)).
  { unfold to_string. destruct (digits_value 20 (Z.abs z)) as (_ & HF & _).
    { change (10 ^ Z.of_nat 20) with 100000000000000000000. lia. }
    destruct (Z.ltb_spec z 0).
    - replace (- z) with (Z.abs z) by lia. constructor; [by right|].
      eapply Forall_impl; [exact HF|]. by left.
    - replace (Z.abs z) with z in HF by lia. eapply Forall_impl; [exact HF|]. by left. }
  rewrite Forall_forall in HF. by destruct (HF _ Hin).
Qed.

(** A breakpoint id that was printed is parsed back to the same line,
    column and url, whatever the url is: it may contain further colons. *)
Lemma breakpoint_id_roundtrip (bd metaData : BreakpointDetails) :
  is_int32 (bd_line_ bd) → is_int32 (bd_column_ bd) →
  ParseBreakpointId (BreakpointDetails_ToString bd) metaData = (true, bd).
Proof.
  destruct bd as [line column url]. simpl. intros Hl Hc. unfold BreakpointDetails_ToString. simpl bd_line_.
  simpl bd_column_. simpl bd_url_.
  assert (Nl : COLON ∉ to_string line) by (apply COLON_not_in_number; unfold is_int32 in *; lia).
  assert (Nc : COLON ∉ to_string column) by (apply COLON_not_in_number; unfold is_int32 in *; lia).
  remember (to_string line) as L eqn:EL. remember (to_string column) as C eqn:EC.
  set (id := str "id:" ++ _).
  assert (E1 : id = str "id" ++ [COLON] ++ (L ++ [COLON] ++ C ++ [COLON] ++ url)) by done.
  assert (E2 : id = str "id:" ++ L ++ [COLON] ++ (C ++ [COLON] ++ url)) by done.
  assert (E3 : id = (str "id:" ++ L ++ [COLON]) ++ C ++ [COLON] ++ url)
    by (by rewrite E2, <- !app_assoc).
  assert (E4 : id = (str "id:" ++ L ++ [COLON] ++ C ++ [COLON]) ++ url)
    by (by rewrite E2, <- !app_assoc).
  unfold ParseBreakpointId.
  assert (F1 : find id [COLON] 0 = Some 2%nat).
  { rewrite E1. apply (find_skip COLON [] (str "id")). apply (bool_decide_eq_true_1 _). done. }
  assert (F2 : find id [COLON] 3 = Some (3 + length L)%nat).
  { rewrite E2. apply (find_after COLON []); done. }
  assert (F3 : find id [COLON] (3 + length L + 1) = Some (3 + length L + 1 + length C)%nat).
  { rewrite E3. apply (find_after COLON []); [|done]. rewrite !length_app. simpl. lia. }
  assert (S1 : substr id 3 (Some (length L)) = L).
  { unfold substr. rewrite E2. by rewrite (drop_app_length (str "id:")), take_app_length. }
  assert (S2 : substr id (3 + length L + 1) (Some (length C)) = C).
  { unfold substr. rewrite E3. rewrite drop_app_length', take_app_length; [done|].
    rewrite !length_app. simpl. lia. }
  assert (S3 : substr id (3 + length L + 1 + length C + 1) None = url).
  { unfold substr. rewrite E4. apply drop_app_length'. rewrite !length_app. simpl. lia. }
  rewrite F1. change (2 + 1)%nat with 3%nat. rewrite F2, F3, S3.
  replace (3 + length L - 2 - 1)%nat with (length L) by lia.
  replace (3 + length L + 1 + length C - (3 + length L) - 1)%nat with (length C) by lia.
  rewrite S1, S2. subst L C. by rewrite !StrToInt32_to_string.
Qed.

Section TypeProperties.
Context `{cj : CJson} {cjOK : CJsonOK cj} `{CastOob}.

(** A call frame that is written as JSON and read again is the same frame,
    with its scopes, locations and remote objects, except for two members: the
    flag of static frames is lost, and a null [this] is read as the undefined
    object. *)
Theorem call_frame_roundtrip (x : CallFrame) :
  CallFrame_wf x → CallFrame_Create (CallFrame_ToJson x) = Created (CallFrame_kept x).
Proof. intros Hx. by apply CallFrame_read, CallFrame_obj. Qed.

(** What a successful read says about the fields of the object. *)
Lemma GetString_field p fs key :
  obj p fs → keys_ok fs = true →
  GetString p key = match field key fs with
                    | Some (JStr s) => SUCCESS s | Some _ => TYPE_ERROR | None => NOT_EXIST
                    end.
Proof.
  intros Ho Hk. pose proof (item_obj p fs key Ho Hk) as Hi. unfold GetString.
  destruct (field key fs) as [v|]; [|by rewrite Hi]. destruct Hi as (m & -> & Hm).
  rewrite IsString_view, Hm. destruct v; try done. cbn. f_equal. by apply valuestring_view.
Qed.

Lemma GetInt_field p fs key :
  obj p fs → keys_ok fs = true →
  GetInt p key = match field key fs with
                 | Some (JNum d) => SUCCESS (double_to_int32 d) | Some _ => TYPE_ERROR | None => NOT_EXIST
                 end.
Proof.
  intros Ho Hk. pose proof (item_obj p fs key Ho Hk) as Hi. unfold GetInt, GetDouble.
  destruct (field key fs) as [v|]; [|by rewrite Hi]. destruct Hi as (m & -> & Hm).
  rewrite IsNumber_view, Hm. destruct v; try done. cbn. do 2 f_equal. by apply valuedouble_view.
Qed.

(** A location is accepted exactly when [scriptId] is a string that holds a
    decimal [int32_t], [lineNumber] is a number and [columnNumber] is a number
    or absent; every other object is rejected with a message. *)
Theorem location_accepted_iff (p : PtJson) (fs : list (string * option jval)) :
  obj p fs → keys_ok fs = true →
  (∀ x, Location_Create p = Created x ↔
     (∃ s, field "scriptId" fs = Some (JStr s) ∧ StrToInt32 s = Some (loc_scriptId_ x)) ∧
     (∃ d, field "lineNumber" fs = Some (JNum d) ∧ loc_lineNumber_ x = double_to_int32 d) ∧
     (field "columnNumber" fs = None ∧ loc_columnNumber_ x = None ∨
      ∃ d, field "columnNumber" fs = Some (JNum d) ∧ loc_columnNumber_ x = Some (double_to_int32 d))) ∧
  (Location_Create p ≠ Thrown ∧ Location_Create p ≠ NoFuel).
Proof.
  intros Ho Hk. split; [intros [sid ln cn]|by apply finish_returns; repeat (intros; returns_step)].
  unfold Location_Create. rewrite finish_created, (GetString_field p fs), !(GetInt_field p fs) by done.
  rewrite accepts_bind by accepts_step. setoid_rewrite need_id_accepts; [|done].
  setoid_rewrite accepts_bind; [|accepts_step..]. setoid_rewrite need_accepts; [|done].
  setoid_rewrite accepts_bind; [|accepts_step..]. setoid_rewrite want_accepts; [|done].
  unfold accepts, p_ret. simpl.
  split.
  - intros (s & (t & Es & Et) & l & El & c & Ec & [= <- <- <-]).
    destruct (field "scriptId" fs) as [[]|]; simplify_eq. destruct (field "lineNumber" fs) as [[]|]; simplify_eq.
    split_and!; [eauto..|]. destruct Ec as [[Ec ->]|(v & Ec & ->)];
      destruct (field "columnNumber" fs) as [[]|]; simplify_eq; eauto.
  - intros ((s & -> & Es) & (d & -> & ->) & Hc). exists sid. split; [eauto|].
    eexists. split; [done|]. exists cn. split; [|done].
    destruct Hc as [[-> ->]|(v & -> & ->)]; eauto.
Qed.

(** A remote object whose texts can be written as they are. *)
Definition RemoteObject_clean (x : RemoteObject) : Prop :=
  ObjectType_Valid (ro_type_ x) = true ∧ nul_free (ro_type_ x) ∧ opt_ok nul_free (ro_subType_ x) ∧
  opt_ok nul_free (ro_className_ x) ∧ opt_ok nul_free (ro_unserializableValue_ x) ∧
  opt_ok nul_free (ro_description_ x) ∧ opt_ok is_int32 (ro_objectId_ x).

(** [arrayOrContainer] is written but not read. *)
Definition RemoteObject_kept (x : RemoteObject) : RemoteObject :=
  mkRemoteObject (ro_type_ x) (ro_subType_ x) (ro_className_ x) (ro_unserializableValue_ x) (ro_description_ x)
    (ro_objectId_ x) None.

Lemma RemoteObject_read_kept x : RemoteObject_clean x → opt_ok (λ s, ObjectSubType_Valid s = true) (ro_subType_ x) →
  RemoteObject_Create (RemoteObject_ToJson x) = Created (RemoteObject_kept x).
Proof.
  intros (? & ? & ? & ? & ? & ? & ?) ?. pose proof (RemoteObject_obj x) as Hp. unfold RemoteObject_Create, finish.
  read need_valid. read want_valid. read want_string. read want_string. read want_string. read want_id. done.
Qed.

(** An object with another sub type is rejected as a whole. *)
Lemma RemoteObject_rejected x sub : RemoteObject_clean x →
  ro_subType_ x = Some sub → ObjectSubType_Valid sub = false →
  RemoteObject_Create (RemoteObject_ToJson x) = Rejected "'subtype' is invalid;".
Proof.
  intros (? & ? & Hs & ? & ? & ? & ?) Es Hv. pose proof (RemoteObject_obj x) as Hp.
  unfold RemoteObject_Create, finish. read need_valid.
  assert (Ef : GetString (RemoteObject_ToJson x) "subtype" = SUCCESS sub).
  { rewrite (GetString_field _ _ _ Hp) by decide_keys. cbn -[c_str]. rewrite Es. cbn -[c_str].
    by rewrite (c_str_nul_free sub) by (by apply Hs). }
  erewrite (p_bind_ok _ (want_as _ _ _ _ _)).
  2:{ rewrite Ef. unfold want_as, convert, some_as, if_valid. by rewrite Hv. }
  read want_string. read want_string. read want_string. read want_id. done.
Qed.

(** C40: the other debugger and runtime types of the protocol are read back from
    their JSON form as they were written, with these conditions on every type:
    texts hold no NUL byte, numbers and ids are 32-bit, type names are those of
    the protocol. A remote object comes back without its [arrayOrContainer], which
    is written but not read; when its sub type is not one that the reader knows,
    as for the "date" and "weakset" that the code itself writes, it is rejected.
    The other types hold remote objects of known sub type and without
    [arrayOrContainer]. Exception details without a context id come back with the
    id 0. *)
Theorem debugger_types_roundtrip :
  (∀ x, RemoteObject_clean x → RemoteObject_Create (RemoteObject_ToJson x) =
     match ro_subType_ x with
     | Some sub => if ObjectSubType_Valid sub then Created (RemoteObject_kept x) else Rejected "'subtype' is invalid;"
     | None => Created (RemoteObject_kept x)
     end) ∧
  (∀ x, RemoteObject_wf x → RemoteObject_Create (RemoteObject_ToJson x) = Created x) ∧
  (ObjectSubType_Valid (str "date") = false ∧ ObjectSubType_Valid (str "weakset") = false) ∧
  (∀ x, ExceptionDetails_wf x → ExceptionDetails_Create (ExceptionDetails_ToJson x) = Created x) ∧
  (∀ x, ExceptionDetails_wf x →
     ExceptionDetails_Create (ExceptionDetails_ToJson (with_context_id None x)) = Created (with_context_id (Some 0) x)) ∧
  (∀ x, PropertyDescriptor_wf x → PropertyDescriptor_Create (PropertyDescriptor_ToJson x) = Created x) ∧
  (∀ x, InternalPropertyDescriptor_wf x →
        InternalPropertyDescriptor_Create (InternalPropertyDescriptor_ToJson x) = Created x) ∧
  (∀ x, PrivatePropertyDescriptor_wf x →
        PrivatePropertyDescriptor_Create (PrivatePropertyDescriptor_ToJson x) = Created x) ∧
  (∀ x, CallArgument_wf x → CallArgument_Create (CallArgument_ToJson x) = Created x) ∧
  (∀ x, SearchMatch_wf x → SearchMatch_Create (SearchMatch_ToJson x) = Created x) ∧
  (∀ x, LocationRange_wf x → LocationRange_Create (LocationRange_ToJson x) = Created x) ∧
  (∀ x, BreakLocation_wf x → BreakLocation_Create (BreakLocation_ToJson x) = Created x) ∧
  (∀ x, BreakpointInfo_wf x → BreakpointInfo_Create (BreakpointInfo_ToJson x) = Created x) ∧
  (∀ x, BreakpointReturnInfo_wf x →
        BreakpointReturnInfo_Create (BreakpointReturnInfo_ToJson x) = Created x).
Proof.
  split_and!; [..|done|done| | | | | | | | | | |].
  - intros x Hx. destruct (ro_subType_ x) as [sub|] eqn:Es; [destruct (ObjectSubType_Valid sub) eqn:Ev|].
    + apply RemoteObject_read_kept; [done|]. intros ? [= <-]%(eq_trans (eq_sym Es)). done.
    + by eapply RemoteObject_rejected.
    + apply RemoteObject_read_kept; [done|]. by rewrite Es.
  - intros x Hx. by apply RemoteObject_read, RemoteObject_obj.
  - intros x Hx. by apply ExceptionDetails_read, ExceptionDetails_obj.
  - apply ExceptionDetails_read_default.
  - intros x Hx. by apply PropertyDescriptor_read, PropertyDescriptor_obj.
  - intros x Hx. by apply InternalPropertyDescriptor_read, InternalPropertyDescriptor_obj.
  - intros x Hx. by apply PrivatePropertyDescriptor_read, PrivatePropertyDescriptor_obj.
  - intros x Hx. by apply CallArgument_read, CallArgument_obj.
  - intros x Hx. by apply SearchMatch_read, SearchMatch_obj.
  - intros x Hx. by apply LocationRange_read, LocationRange_obj.
  - intros x Hx. by apply BreakLocation_read, BreakLocation_obj.
  - intros x Hx. by apply BreakpointInfo_read, BreakpointInfo_obj.
  - intros x Hx. by apply BreakpointReturnInfo_read, BreakpointReturnInfo_obj.
Qed.

End TypeProperties.

(** *** Witnesses *)

(** A compiler that yields 0 for a cast that is out of range. *)
Definition demo_oob : CastOob := λ _ _ _, 0.
#[local] Existing Instance tree_cjson.
#[local] Existing Instance tree_cjson_ok.
#[local] Existing Instance demo_oob.

Definition demo_object : RemoteObject :=
  mkRemoteObject (str "object") (Some (str "map")) (Some (str "Map")) None (Some (str "Map(2)")) (Some 7) None.
Definition demo_scope : Scope :=
  mkScope (str "local") demo_object None (Some (mkLocation 3 10 None)) (Some (mkLocation 3 20 (Some 1))).
Definition demo_frame : CallFrame :=
  mkCallFrame 0 (str "onCreate") None (mkLocation 3 14 (Some 8)) (str "entry/Index.ets") [demo_scope] None
    (Some demo_object) true.

(** Decides the well-formedness of a concrete protocol object. *)
Ltac solve_wf :=
  repeat match goal with
         | |- _ ∧ _ => split
         | |- opt_ok _ _ => intros ? ?; simplify_eq/=
         | |- Forall _ _ => constructor
         | |- nul_free _ => apply (bool_decide_eq_true_1 _); vm_compute; reflexivity
         | |- _ = true => vm_compute; reflexivity
         | |- is_int32 _ => unfold is_int32; simpl; lia
         | |- ?P => let h := head_of P in unfold h
         | |- _ = _ => reflexivity
         end.

Lemma call_frame_roundtrip_witness :
  CallFrame_Create (CallFrame_ToJson demo_frame) = Created (CallFrame_kept demo_frame).
Proof. apply (call_frame_roundtrip demo_frame). solve_wf. Defined.

Lemma debugger_types_roundtrip_witness :
  RemoteObject_Create (RemoteObject_ToJson demo_object) = Created demo_object.
Proof. apply (proj1 (proj2 debugger_types_roundtrip)). solve_wf. Defined.

Lemma location_accepted_iff_witness :
  Location_Create (Location_ToJson (mkLocation 3 10 None)) = Created (mkLocation 3 10 None).
Proof.
  apply (location_accepted_iff _ _ (Location_obj (mkLocation 3 10 None)) eq_refl).
  split_and!.
  - exists (str "3"). split; vm_compute; reflexivity.
  - exists (DFin 10 0). split; vm_compute; reflexivity.
  - left. split; vm_compute; reflexivity.
Defined.

