(* ===== verification/RemoteObjects.v ===== *)
(** * Remote objects of JavaScript values

    Models the first part of src/tooling/dynamic/base/pt_types.cpp: how
    RemoteObject::FromTagged describes a value of the dynamic machine to a client
    (its type, subtype and class, the text that is shown for it, and whether it is an
    array or a container). What the code asks of a value is the class [TaggedApi];
    which kinds a value may have at the same time is left open, and the chains of
    tests are kept in their order. The preview of an object is set but read nowhere,
    and is left out.

    The agents use [FromTagged] of the class [EcmaVm]; what their theorems rely on,
    that a new description has no identifier, is [from_tagged_plain]. *)

From S2P Require Import Prelude Regex Http CppLib Utils PtJson PtCodec PtTypes.
Local Open Scope Z_scope.

(** ** Values *)

Inductive tagged_kind :=
| IsNull | IsUndefined | IsBoolean | IsNumber | IsBigInt | IsString | IsSymbol | IsProxy | IsGeneratorFunction | IsFunction
| IsArray | IsRegExp | IsDate | IsMap | IsWeakMap | IsSet | IsWeakSet | IsDataView | IsError | IsPromise | IsArrayBuffer
| IsSharedArrayBuffer | IsArrayIterator | IsStringIterator | IsSetIterator | IsMapIterator
| IsUint8Array | IsUint8ClampedArray | IsInt8Array | IsUint16Array | IsInt16Array | IsUint32Array | IsInt32Array
| IsFloat32Array | IsBigInt64Array | IsBigUint64Array | IsFloat64Array
| IsJSPrimitiveRef | IsJSPrimitiveNumber | IsJSPrimitiveString | IsJSPrimitiveBoolean | IsGeneratorObject | IsWeakRef
| IsJSLocale | IsJSDateTimeFormat | IsJSRelativeTimeFormat | IsJSIntl | IsJSNumberFormat | IsJSCollator | IsJSPluralRules
| IsJSListFormat | IsArrayList | IsDeque | IsHashMap | IsHashSet | IsLightWeightMap | IsLightWeightSet | IsLinkedList | IsList
| IsPlainArray | IsQueue | IsStack | IsTreeMap | IsTreeSet | IsVector | IsObject | IsNativePointer.

Inductive collection := CMap | CWeakMap | CSet | CWeakSet.

Class TaggedApi (V : Type) := {
  has_kind : tagged_kind → V → bool;
  IsTrue : V → bool;
  IsHole : V → bool;
  IsInSharedHeap : V → bool;
  IsNative : V → bool;
  (** [ToString(ecmaVm)->ToString(ecmaVm)] and [ToString(ecmaVm)->DebuggerToString(ecmaVm)] *)
  text : V → bytes;
  debugger_text : V → bytes;
  (** A debugger manager is there that does not run test cases. *)
  shows_hash : bool;
  GetObjectHash : V → Z;
  (** [None]: the text is left as it was. *)
  GetObjectClassName : V → option bytes;
  Array_Length : V → Z;
  ByteLength : V → Z;
  (** How the stream writes a pointer. *)
  pointer_text : V → bytes;
  GetOriginalSource : V → bytes;
  GetOriginalFlags : V → bytes;
  GetTotalElements : collection → V → Z;
  GetSize : collection → V → Z;
  GetKey : collection → V → Z → V;
  GetValue : collection → V → Z → V;
  Get : V → string → V;
  GetGeneratorState : V → V;
  GetGeneratorFunction : V → V;
  Symbol_GetDescription : V → bytes;
  GetName : V → bytes }.

(** ** Texts *)

Definition hex_digit (n : Z) : Z := if n <? 10 then 48 + n else 87 + n.
(** [std::hex]: eight digits are enough for 32 bits. *)
Fixpoint hex_digits (fuel : nat) (n : Z) (acc : bytes) : bytes :=
  match fuel with
  | O => acc
  | S f => let acc := hex_digit (n mod 16) :: acc in if n <? 16 then acc else hex_digits f (n / 16) acc
  end.
Definition to_hex (z : Z) : bytes := hex_digits 8 (wrap 32 z) [].

Definition counted (name : string) (n : Z) : bytes := str name ++ str "(" ++ to_string n ++ str ")".

Lemma str_inj s t : str s = str t → s = t.
Proof.
  unfold str. intros E. assert (El : String.list_ascii_of_string s = String.list_ascii_of_string t).
  { revert E. generalize (String.list_ascii_of_string t). induction (String.list_ascii_of_string s) as [|a l IH]; intros [|b l']; try done.
    rewrite !fmap_cons. intros [= Ea El]. f_equal; [|by apply IH].
    rewrite <- (Ascii.ascii_N_embedding a), <- (Ascii.ascii_N_embedding b). f_equal. lia. }
  rewrite <- (String.string_of_list_ascii_of_string s), <- (String.string_of_list_ascii_of_string t). by f_equal.
Qed.

Section values.
Context {V : Type} `{TaggedApi V}.

Definition AppendingHashToDescription (x : V) (description : bytes) : bytes :=
  if shows_hash then if GetObjectHash x =? 0 then description else description ++ str "@" ++ to_hex (GetObjectHash x)
  else description.

Definition AppendingSendableDescription (x : V) (description : bytes) : bytes :=
  if IsInSharedHeap x then description ++ str " [Sendable]" else description.

Definition ResolveClassNameToDescription (x : V) : bytes :=
  if negb (has_kind IsObject x) then str "Object"
  else match default (str "Object") (GetObjectClassName x) with [] => str "Object" | description => description end.

Definition DescriptionForSymbol (x : V) : bytes := str "Symbol(" ++ Symbol_GetDescription x ++ str ")".
Definition source_code (x : V) : bytes := if IsNative x then str "[native code]" else str "[js code]".
Definition DescriptionForFunction (x : V) : bytes := str "function " ++ GetName x ++ str "( { " ++ source_code x ++ str " }".
Definition DescriptionForGeneratorFunction (x : V) : bytes := str "function* " ++ GetName x ++ str "( { " ++ source_code x ++ str " }".

Definition DescriptionForNativePointer (x : V) : bytes := str "[External: " ++ pointer_text x ++ str "]".
Definition DescriptionForArray (x : V) : bytes := counted "Array" (Array_Length x).
Definition DescriptionForRegexp (x : V) : bytes := str "/" ++ GetOriginalSource x ++ str "/" ++ GetOriginalFlags x.
Definition DescriptionForDate (x : V) : bytes := text x.

(** *** Maps and sets *)

Definition element_text (x : V) : bytes :=
  if has_kind IsObject x then str "Object"
  else if has_kind IsString x then str "'" ++ debugger_text x ++ str "'"
  else debugger_text x.

(** The value that is tested for a hole, and the text of an entry. *)
Definition entry_probe (c : collection) (x : V) (i : Z) : V :=
  match c with CMap | CWeakMap => GetKey c x i | CSet | CWeakSet => GetValue c x i end.
Definition entry_text (c : collection) (x : V) (i : Z) : bytes :=
  match c with
  | CMap | CWeakMap => element_text (GetKey c x i) ++ str " => " ++ element_text (GetValue c x i)
  | CSet | CWeakSet => element_text (GetValue c x i)
  end.

(** The loop over the places of the table from [i] on, [n] of which are left. *)
Fixpoint entries_from (c : collection) (x : V) (n : nat) (i index : Z) (description : bytes) : bytes :=
  match n with
  | O => description
  | S n' =>
      if IsHole (entry_probe c x i) then entries_from c x n' (i + 1) index description
      else
        let description := description ++ entry_text c x i in
        if (index =? GetSize c x - 1) || (4 <=? index) then description ++ (if 5 <? GetSize c x then str ", ..." else [])
        else entries_from c x n' (i + 1) (index + 1) (description ++ str ", ")
  end.

Definition DescriptionForCollection (c : collection) (name : string) (x : V) : bytes :=
  let len := GetTotalElements c x in
  let description := counted name (GetSize c x) in
  if len =? 0 then description
  else entries_from c x (Z.to_nat len) 0 0 (description ++ str " {") ++ str "}".
Definition DescriptionForMap : V → bytes := DescriptionForCollection CMap "Map".
Definition DescriptionForWeakMap : V → bytes := DescriptionForCollection CWeakMap "WeakMap".
Definition DescriptionForSet : V → bytes := DescriptionForCollection CSet "Set".
Definition DescriptionForWeakSet : V → bytes := DescriptionForCollection CWeakSet "WeakSet".

Definition DescriptionForDataView (x : V) : bytes := counted "DataView" (ByteLength x).
Definition DescriptionForError (x : V) : bytes :=
  let strName := text (Get x "name") in
  let strMessage := debugger_text (Get x "message") in
  match strMessage with [] => strName | _ => strName ++ str ": " ++ strMessage end.
Definition DescriptionForArrayBuffer (x : V) : bytes := counted "Arraybuffer" (ByteLength x).
Definition DescriptionForSharedArrayBuffer (x : V) : bytes := counted "SharedArrayBuffer" (ByteLength x).

Definition DescriptionForUint8Array (x : V) : bytes := counted "Uint8Array" (ByteLength x).
Definition DescriptionForUint8ClampedArray (x : V) : bytes := counted "Uint8ClampedArray" (ByteLength x).
Definition DescriptionForInt8Array (x : V) : bytes := counted "Int8Array" (ByteLength x).
Definition DescriptionForUint16Array (x : V) : bytes := counted "Uint16Array" (ByteLength x / 2).
Definition DescriptionForInt16Array (x : V) : bytes := counted "Int16Array" (ByteLength x / 2).
Definition DescriptionForInt32Array (x : V) : bytes := counted "Int32Array" (ByteLength x / 4).
Definition DescriptionForUint32Array (x : V) : bytes := counted "Uint32Array" (ByteLength x / 4).
Definition DescriptionForFloat32Array (x : V) : bytes := counted "Float32Array" (ByteLength x / 4).
Definition DescriptionForBigInt64Array (x : V) : bytes := counted "BigInt64Array" (ByteLength x / 8).
Definition DescriptionForBigUint64Array (x : V) : bytes := counted "BigUint64Array" (ByteLength x / 8).
Definition DescriptionForFloat64Array (x : V) : bytes := counted "Float64Array" (ByteLength x / 8).

Definition DescriptionForPrimitiveNumber (x : V) : bytes := str "Number{[[PrimitiveValue]]: " ++ text x ++ str "}".
Definition DescriptionForPrimitiveString (x : V) : bytes := str "String{[[PrimitiveValue]]: " ++ debugger_text x ++ str "}".
Definition DescriptionForPrimitiveBoolean (x : V) : bytes := str "Boolean{[[PrimitiveValue]]: " ++ text x ++ str "}".
Definition DescriptionForGeneratorObject (x : V) : bytes :=
  text (Get (GetGeneratorFunction x) "name") ++ str " {<" ++ text (GetGeneratorState x) ++ str ">}".

(** *** Objects *)

Inductive marker := NoMarker | ArrayMarker | ContainerMarker.
Definition marker_text (m : marker) : bytes :=
  match m with NoMarker => [] | ArrayMarker => str "Array" | ContainerMarker => str "Container" end.

(** The chain of tests of DescriptionForObject: what is tested, what is noted in
    [arrayOrContainer], and the text. *)
Definition plain (k : tagged_kind) (m : marker) (f : V → bytes) : (V → bool) * marker * (V → bytes) := (has_kind k, m, f).
Definition named (k : tagged_kind) (m : marker) (name : string) : (V → bool) * marker * (V → bytes) := plain k m (λ _, str name).
Definition boxed (k : tagged_kind) (f : V → bytes) : (V → bool) * marker * (V → bytes) :=
  (λ x, has_kind IsJSPrimitiveRef x && has_kind k x, NoMarker, f).

Definition format_rules : list ((V → bool) * marker * (V → bytes)) := [
  named IsWeakRef NoMarker "WeakRef {}";
  named IsJSLocale NoMarker "Locale {}";
  named IsJSDateTimeFormat NoMarker "DateTimeFormat {}";
  named IsJSRelativeTimeFormat NoMarker "RelativeTimeFormat {}";
  named IsJSIntl NoMarker "Intl";
  named IsJSNumberFormat NoMarker "NumberFormat {}";
  named IsJSCollator NoMarker "Collator {}";
  named IsJSPluralRules NoMarker "PluralRules {}";
  named IsJSListFormat NoMarker "ListFormat {}"].

Definition container_rules : list ((V → bool) * marker * (V → bytes)) := [
  named IsArrayList ContainerMarker "ArrayList";
  named IsDeque ContainerMarker "Deque";
  named IsHashMap ContainerMarker "HashMap";
  named IsHashSet ContainerMarker "HashSet";
  named IsLightWeightMap ContainerMarker "LightWeightMap";
  named IsLightWeightSet ContainerMarker "LightWeightSet";
  named IsLinkedList ContainerMarker "LinkedList";
  named IsList ContainerMarker "List";
  named IsPlainArray ContainerMarker "PlainArray";
  named IsQueue ContainerMarker "Queue";
  named IsStack ContainerMarker "Stack";
  named IsTreeMap ContainerMarker "TreeMap";
  named IsTreeSet ContainerMarker "TreeSet";
  named IsVector ContainerMarker "Vector"].

Definition object_rules : list ((V → bool) * marker * (V → bytes)) := [
  named IsProxy NoMarker "Proxy";
  plain IsArray ArrayMarker DescriptionForArray;
  plain IsRegExp NoMarker DescriptionForRegexp;
  plain IsDate NoMarker DescriptionForDate;
  plain IsMap ContainerMarker DescriptionForMap;
  plain IsWeakMap ContainerMarker DescriptionForWeakMap;
  plain IsSet ContainerMarker DescriptionForSet;
  plain IsWeakSet ContainerMarker DescriptionForWeakSet;
  plain IsDataView NoMarker DescriptionForDataView;
  plain IsError NoMarker DescriptionForError;
  named IsPromise NoMarker "Promise";
  named IsArrayIterator NoMarker "ArrayIterator{}";
  named IsStringIterator NoMarker "StringIterator";
  named IsSetIterator NoMarker "SetIterator{}";
  named IsMapIterator NoMarker "MapIterator{}";
  plain IsArrayBuffer NoMarker DescriptionForArrayBuffer;
  plain IsSharedArrayBuffer NoMarker DescriptionForSharedArrayBuffer;
  plain IsUint8Array ArrayMarker DescriptionForUint8Array;
  plain IsUint8ClampedArray ArrayMarker DescriptionForUint8ClampedArray;
  plain IsInt8Array ArrayMarker DescriptionForInt8Array;
  plain IsUint16Array ArrayMarker DescriptionForUint16Array;
  plain IsInt16Array ArrayMarker DescriptionForInt16Array;
  plain IsUint32Array ArrayMarker DescriptionForUint32Array;
  plain IsInt32Array ArrayMarker DescriptionForInt32Array;
  plain IsFloat32Array ArrayMarker DescriptionForFloat32Array;
  plain IsBigInt64Array ArrayMarker DescriptionForBigInt64Array;
  plain IsBigUint64Array ArrayMarker DescriptionForBigUint64Array;
  plain IsFloat64Array ArrayMarker DescriptionForFloat64Array;
  boxed IsJSPrimitiveNumber DescriptionForPrimitiveNumber;
  boxed IsJSPrimitiveString DescriptionForPrimitiveString;
  boxed IsJSPrimitiveBoolean DescriptionForPrimitiveBoolean;
  plain IsGeneratorObject NoMarker DescriptionForGeneratorObject] ++ format_rules ++ container_rules ++ [
  plain IsNativePointer NoMarker DescriptionForNativePointer].

(** The first rule whose test succeeds. *)
Fixpoint first_rule {A} (rules : list ((V → bool) * A)) (x : V) : option A :=
  match rules with
  | [] => None
  | (test, a) :: rest => if test x then Some a else first_rule rest x
  end.

Definition DescriptionForObject (x : V) : bytes * marker :=
  match first_rule ((λ r, (r.1.1, (r.1.2, r.2))) <$> object_rules) x with
  | Some (m, f) => (f x, m)
  | None => (ResolveClassNameToDescription x, NoMarker)
  end.

(** ** The constructors of the subclasses *)

Definition PrimitiveRemoteObject (x : V) : RemoteObject :=
  let shown type description := mkRemoteObject type None None (Some description) (Some description) None None in
  if has_kind IsNull x then mkRemoteObject (str "object") (Some (str "null")) None None None None None
  else if has_kind IsBoolean x then shown (str "boolean") (str (if IsTrue x then "true" else "false"))
  else if has_kind IsUndefined x then mkRemoteObject (str "undefined") None None None None None None
  else if has_kind IsNumber x then shown (str "number") (text x)
  else if has_kind IsBigInt x then shown (str "bigint") (text x ++ str "n")
  else RemoteObject_init.

Definition StringRemoteObject (x : V) : RemoteObject :=
  mkRemoteObject (str "string") None None (Some (debugger_text x)) (Some (debugger_text x)) None None.

Definition decorated (x : V) (description : bytes) : bytes :=
  AppendingSendableDescription x (AppendingHashToDescription x description).

Definition SymbolRemoteObject (x : V) : RemoteObject :=
  let description := decorated x (DescriptionForSymbol x) in
  mkRemoteObject (str "symbol") None None (Some description) (Some description) None None.
Definition FunctionRemoteObject (x : V) : RemoteObject :=
  let description := decorated x (DescriptionForFunction x) in
  mkRemoteObject (str "function") None (Some (str "Function")) (Some description) (Some description) None None.
Definition GeneratorFunctionRemoteObject (x : V) : RemoteObject :=
  let description := decorated x (DescriptionForGeneratorFunction x) in
  mkRemoteObject (str "function") None (Some (str "Generator")) (Some description) (Some description) None None.

(** Both constructors; without a subtype none is set. *)
Definition ObjectRemoteObject (classname : string) (subtype : option string) (x : V) : RemoteObject :=
  let '(text, m) := DescriptionForObject x in
  let description := decorated x text in
  mkRemoteObject (str "object") (str <$> subtype) (Some (str classname)) (Some description) (Some description) None (Some (marker_text m)).

Definition object_classes : list ((V → bool) * (string * option string)) := [
  (has_kind IsArray, ("Array", Some "array"));
  (has_kind IsRegExp, ("RegExp", Some "regexp"));
  (has_kind IsDate, ("Date", Some "date"));
  (has_kind IsMap, ("Map", Some "map"));
  (has_kind IsWeakMap, ("Weakmap", Some "weakmap"));
  (has_kind IsSet, ("Set", Some "set"));
  (has_kind IsWeakSet, ("Weakset", Some "weakset"));
  (has_kind IsDataView, ("Dataview", Some "dataview"));
  (has_kind IsError, ("Error", Some "error"));
  (has_kind IsPromise, ("Promise", Some "promise"));
  (has_kind IsArrayBuffer, ("Arraybuffer", Some "arraybuffer"));
  (has_kind IsArrayIterator, ("ArrayIterator", None));
  (has_kind IsStringIterator, ("StringIterator", None));
  (has_kind IsSetIterator, ("SetIterator", Some "iterator"));
  (has_kind IsMapIterator, ("MapIterator", Some "iterator"))]%string ++
  ((λ k, (has_kind k, ("Object"%string, None))) <$>
    [IsArrayList; IsDeque; IsHashMap; IsHashSet; IsLightWeightMap; IsLightWeightSet; IsLinkedList; IsList; IsPlainArray;
     IsQueue; IsStack; IsTreeMap; IsTreeSet; IsVector; IsObject; IsNativePointer]).

Definition RemoteObject_FromTagged (x : V) : RemoteObject :=
  if has_kind IsNull x || has_kind IsUndefined x || has_kind IsBoolean x || has_kind IsNumber x || has_kind IsBigInt x
  then PrimitiveRemoteObject x
  else if has_kind IsString x then StringRemoteObject x
  else if has_kind IsSymbol x then SymbolRemoteObject x
  else if has_kind IsProxy x then ObjectRemoteObject "Object" (Some "proxy"%string) x
  else if has_kind IsGeneratorFunction x then GeneratorFunctionRemoteObject x
  else if has_kind IsFunction x then FunctionRemoteObject x
  else match first_rule object_classes x with
       | Some (classname, subtype) => ObjectRemoteObject classname subtype x
       | None => mkRemoteObject (str "undefined") None None None None None None
       end.

(** ** Maps and sets: the text in one piece *)

(** The places of the table that hold an entry, and texts with commas between. *)
Definition filled (c : collection) (x : V) (i n : Z) : list Z := filter (λ j, IsHole (entry_probe c x j) = false) (seqZ i n).
Fixpoint separated (l : list bytes) : bytes :=
  match l with
  | [] => []
  | [t] => t
  | t :: rest => t ++ str ", " ++ separated rest
  end.
Definition more_text (size : Z) : bytes := if 5 <? size then str ", ..." else [].

Lemma filled_cons c x i (n : nat) :
  filled c x i (Z.of_nat (S n)) =
    if IsHole (entry_probe c x i) then filled c x (i + 1) (Z.of_nat n) else i :: filled c x (i + 1) (Z.of_nat n).
Proof.
  unfold filled. rewrite seqZ_cons by lia. replace (Z.succ i) with (i + 1) by lia. replace (Z.pred (Z.of_nat (S n))) with (Z.of_nat n) by lia.
  rewrite filter_cons. by destruct (IsHole (entry_probe c x i)).
Qed.

Lemma entries_from_spec c x n : ∀ i index d,
  0 ≤ index ≤ 4 → GetSize c x = index + Z.of_nat (length (filled c x i (Z.of_nat n))) →
  entries_from c x n i index d =
    d ++ separated (take (Z.to_nat (5 - index)) (entry_text c x <$> filled c x i (Z.of_nat n))) ++ more_text (GetSize c x).
Proof.
  induction n as [|n IH]; intros i index d Hi Hs.
  - change (filled c x i (Z.of_nat 0)) with (@nil Z) in Hs |- *. cbn [length] in Hs. unfold more_text. zfalse (5 <? GetSize c x).
    cbn [entries_from]. rewrite fmap_nil, take_nil. cbn. by rewrite app_nil_r.
  - rewrite filled_cons in Hs |- *. cbn [entries_from]. destruct (IsHole (entry_probe c x i)); [by apply IH|].
    cbn [length] in Hs. rewrite fmap_cons. replace (Z.to_nat (5 - index)) with (S (Z.to_nat (4 - index))) by lia. cbn [take].
    destruct (Z.eqb_spec index (GetSize c x - 1)) as [He|He]; cbn [orb].
    { assert (Hn : filled c x (i + 1) (Z.of_nat n) = []) by (apply nil_length_inv; lia). rewrite Hn. cbn. rewrite take_nil. by rewrite <- app_assoc. }
    destruct (Z.leb_spec 4 index) as [H4|H4].
    { replace (Z.to_nat (4 - index)) with 0%nat by lia. cbn. by rewrite <- app_assoc. }
    rewrite IH by lia. replace (5 - (index + 1)) with (4 - index) by lia. destruct (filled c x (i + 1) (Z.of_nat n)) as [|j l]; [cbn in *; lia|].
    replace (Z.to_nat (4 - index)) with (S (Z.to_nat (3 - index))) by lia. cbn. by rewrite <- !app_assoc.
Qed.

(** C33: the text that is shown for a map or a set, weak or not: its name with its
    size, and, unless the table has no places, in braces the first five entries with
    commas between and dots when there are more. Places from which an entry was
    deleted are skipped. *)
Theorem described_collections (c : collection) (name : string) (x : V) :
  0 ≤ GetTotalElements c x → GetSize c x = Z.of_nat (length (filled c x 0 (GetTotalElements c x))) →
  DescriptionForCollection c name x =
    counted name (GetSize c x) ++
    (if GetTotalElements c x =? 0 then []
     else str " {" ++ separated (take 5 (entry_text c x <$> filled c x 0 (GetTotalElements c x))) ++ more_text (GetSize c x) ++ str "}").
Proof.
  intros Hl Hs. unfold DescriptionForCollection. destruct (Z.eqb_spec (GetTotalElements c x) 0); [by rewrite app_nil_r|].
  assert (Hn : Z.of_nat (Z.to_nat (GetTotalElements c x)) = GetTotalElements c x) by lia.
  rewrite entries_from_spec; rewrite ?Hn; [|lia|lia]. by rewrite <- !app_assoc.
Qed.

(** ** Types, classes and texts *)

(** What the agents rely on: a description has no identifier of its own. *)
Lemma from_tagged_plain (x : V) : ro_objectId_ (RemoteObject_FromTagged x) = None.
Proof. unfold RemoteObject_FromTagged, PrimitiveRemoteObject, ObjectRemoteObject. by repeat case_match. Qed.

Lemma class_rule x cls sub : first_rule object_classes x = Some (cls, sub) →
  ∀ s, sub = Some s → str s ≠ str "null" ∧ (ObjectSubType_Valid (str s) = true ∨ str s = str "date" ∨ str s = str "weakset").
Proof.
  unfold object_classes. cbn [app fmap list_fmap first_rule]. intros E s ->.
  repeat (case_match; [first [discriminate E|injection E as <- <-; split; [discriminate|first [by left|by right; left|by right; right]]]|]). discriminate E.
Qed.

(** A description whose type, subtype and class are given. *)
Ltac shape_leaf :=
  cbn; split_and!;
    [done|done
    |split; [intros [? ?]; first [done | by right | left; split; [done|intros [=]]] | intros [[? Hne]|?]; first [done | by eexists | by destruct Hne]]
    |intros ? [=]; subst; by left].

(** The type is one of the protocol, values that are shown have the same text in
    both members, and exactly objects and functions have a class. *)
Theorem remote_object_shape (x : V) :
  let o := RemoteObject_FromTagged x in
  ObjectType_Valid (ro_type_ o) = true ∧ ro_unserializableValue_ o = ro_description_ o ∧
  (is_Some (ro_className_ o) ↔ (ro_type_ o = str "object" ∧ ro_subType_ o ≠ Some (str "null")) ∨ ro_type_ o = str "function") ∧
  (∀ s, ro_subType_ o = Some s → ObjectSubType_Valid s = true ∨ s = str "date" ∨ s = str "weakset").
Proof.
  intros o. subst o. unfold RemoteObject_FromTagged.
  destruct (_ || has_kind IsBigInt x) eqn:Hp.
  { unfold PrimitiveRemoteObject.
    destruct (has_kind IsNull x), (has_kind IsBoolean x), (has_kind IsUndefined x), (has_kind IsNumber x), (has_kind IsBigInt x);
      try discriminate Hp; shape_leaf. }
  do 5 (case_match; [unfold ObjectRemoteObject; try destruct (DescriptionForObject x); shape_leaf|]).
  destruct (first_rule object_classes x) as [[cls sub]|] eqn:Hr; [|shape_leaf].
  unfold ObjectRemoteObject. destruct (DescriptionForObject x) as [t m]. cbn. split_and!; [done|done| |].
  - split; [intros _; left; split; [done|]|by intros _]. destruct sub as [s|]; [|done]. intros [= Hs]. by destruct (class_rule _ _ _ Hr _ eq_refl).
  - intros s. destruct sub as [r|]; [|done]. intros [= <-]. by destruct (class_rule _ _ _ Hr _ eq_refl).
Qed.

(** The classes with a text of their own: the two chains of tests agree on them. *)
Definition class_texts : list (string * (V → bytes) * marker) := [
  ("Array", DescriptionForArray, ArrayMarker); ("RegExp", DescriptionForRegexp, NoMarker); ("Date", DescriptionForDate, NoMarker);
  ("Map", DescriptionForMap, ContainerMarker); ("Weakmap", DescriptionForWeakMap, ContainerMarker);
  ("Set", DescriptionForSet, ContainerMarker); ("Weakset", DescriptionForWeakSet, ContainerMarker);
  ("Dataview", DescriptionForDataView, NoMarker); ("Error", DescriptionForError, NoMarker)]%string.

Lemma class_text_name cls f m : (cls, f, m) ∈ class_texts → cls ∉ ["Object"; "Function"; "Generator"]%string.
Proof. intros Hin. unfold class_texts in Hin. rewrite list_elem_of_In in Hin. rewrite list_elem_of_In. cbn in *. intuition congruence. Qed.

(** Such a class comes from the chain of object tests. *)
Lemma class_from_chain x cls :
  cls ∉ ["Object"; "Function"; "Generator"]%string → ro_className_ (RemoteObject_FromTagged x) = Some (str cls) →
  has_kind IsProxy x = false ∧ ∃ sub, first_rule object_classes x = Some (cls, sub) ∧
    RemoteObject_FromTagged x = ObjectRemoteObject cls sub x.
Proof.
  intros Hn. unfold RemoteObject_FromTagged. destruct (_ || has_kind IsBigInt x).
  { unfold PrimitiveRemoteObject. by repeat case_match. }
  do 2 (case_match; [done|]).
  case_match; [unfold ObjectRemoteObject; destruct (DescriptionForObject x); cbn [ro_className_]; intros [= <-%str_inj]; set_solver|].
  do 2 (case_match; [cbv [GeneratorFunctionRemoteObject FunctionRemoteObject ro_className_]; intros [= <-%str_inj]; set_solver|]).
  destruct (first_rule object_classes x) as [[c sub]|] eqn:Hr; [|done]. intros E. split; [done|]. exists sub.
  assert (c = cls) as -> by (unfold ObjectRemoteObject in E; destruct (DescriptionForObject x); by injection E as ?%str_inj). done.
Qed.

(** The texts of the chain of object tests. *)
Lemma text_from_chain x cls sub f m :
  has_kind IsProxy x = false → first_rule object_classes x = Some (cls, sub) → (cls, f, m) ∈ class_texts → DescriptionForObject x = (f x, m).
Proof.
  intros Hp Hr Hin. unfold DescriptionForObject, object_rules, format_rules, container_rules.
  cbn [app fmap list_fmap first_rule plain named boxed fst snd]. rewrite Hp.
  unfold object_classes in Hr. cbn [app fmap list_fmap first_rule] in Hr. unfold class_texts in Hin.
  rewrite list_elem_of_In in Hin. cbn [In] in Hin.
  do 9 (case_match; [injection Hr as <- <-; destruct_or! Hin; first [discriminate Hin|by injection Hin as <- <-|done]|]). exfalso. clear Hp.
  repeat (case_match; [injection Hr as <- <-; destruct_or! Hin; first [discriminate Hin|done]|]). done.
Qed.

(** An object of one of these classes is shown with the text of its class. *)
Theorem class_matches_text (x : V) (cls : string) (f : V → bytes) (m : marker) :
  (cls, f, m) ∈ class_texts → ro_className_ (RemoteObject_FromTagged x) = Some (str cls) →
  ro_description_ (RemoteObject_FromTagged x) = Some (decorated x (f x)) ∧
  ro_arrayOrContainer_ (RemoteObject_FromTagged x) = Some (marker_text m).
Proof.
  intros Hin Hc. destruct (class_from_chain x cls (class_text_name _ _ _ Hin) Hc) as (Hp & sub & Hr & ->).
  unfold ObjectRemoteObject. by rewrite (text_from_chain x cls sub f m Hp Hr Hin).
Qed.
End values.

(** ** Examples *)

(** Values by number: 0 a hole, 1 a map with three places of which the second is
    empty, 2 a date, strings from 10 on, other numbers from 20 on. *)
#[local] Instance demo_tagged : TaggedApi Z := {|
  has_kind k v := match k with
    | IsMap => v =? 1 | IsDate => v =? 2 | IsObject => (0 <? v) && (v <? 10) | IsString => (10 <=? v) && (v <? 20)
    | IsNumber => 20 <=? v | _ => false end;
  IsTrue _ := false; IsHole v := v =? 0; IsInSharedHeap _ := false; IsNative _ := false;
  text := to_string; debugger_text := to_string; shows_hash := true; GetObjectHash v := v;
  GetObjectClassName _ := None; Array_Length _ := 0; ByteLength _ := 0; pointer_text _ := []; GetOriginalSource _ := [];
  GetOriginalFlags _ := []; GetTotalElements _ _ := 3; GetSize _ _ := 2; GetKey _ _ i := if i =? 1 then 0 else 10 + i;
  GetValue _ _ i := 20 + i; Get v _ := v; GetGeneratorState v := v; GetGeneratorFunction v := v;
  Symbol_GetDescription _ := []; GetName _ := [] |}.

Lemma described_collections_witness : DescriptionForMap 1 = str "Map(2) {'10' => 20, '12' => 22}".
Proof.
  etransitivity; [refine (described_collections (V := Z) CMap "Map" 1 _ _); [vm_compute; intros [=]|reflexivity]|vm_compute; reflexivity].
Defined.

(** The subtype of a date is missing in the list that RemoteObject::Create accepts:
    a client that reads the description of a date back rejects it. *)
Lemma date_not_read_back `{CastOob} :
  ro_description_ (RemoteObject_FromTagged 2) = Some (str "2@2") ∧
  match RemoteObject_Create (cj := tree_cjson) (RemoteObject_ToJson (cj := tree_cjson) (RemoteObject_FromTagged 2)) with
  | Created _ => False | _ => True end.
Proof. split; [by vm_compute|]. vm_compute. done. Qed.
