(* ===== verification/PtProfile.v ===== *)
(** * Protocol types: heap profiler, profiler and tracing

    Models the classes of tooling/dynamic/base/pt_types.{h,cpp} of the
    HeapProfiler, Profiler and Tracing domains: their [Create] and [ToJson], and
    the factories that copy the structures of the engine. Of a structure of the
    engine the records below have the members that the factories read. A heap
    profile node has child nodes of the same class, so its [Create] recurses on
    the JSON text: the model bounds the depth by [fuel] and
    [sampling_node_terminates] shows that the depth of the text is enough. *)

From S2P Require Import Prelude Regex Http CppLib Utils PtJson PtCodec PtTypes.
Local Open Scope Z_scope.
Local Open Scope ark_scope.

(** ** Data *)

Record SamplingHeapProfileSample := mkSample {
  hs_size_ : Z;
  hs_nodeId_ : Z;
  hs_ordinal_ : Z }.

Record RuntimeCallFrame := mkRuntimeCallFrame {
  rf_functionName_ : bytes;
  rf_moduleName_ : bytes;
  rf_scriptId_ : bytes;
  rf_url_ : bytes;
  rf_lineNumber_ : Z;
  rf_columnNumber_ : Z }.

#[warnings="-register-all"]
Inductive SamplingHeapProfileNode :=
  mkSamplingNode (callFrame_ : RuntimeCallFrame) (selfSize_ id_ : Z)
    (children_ : list SamplingHeapProfileNode).

Definition sn_children (x : SamplingHeapProfileNode) : list SamplingHeapProfileNode :=
  match x with mkSamplingNode _ _ _ c => c end.

Record SamplingHeapProfile := mkSamplingHeapProfile {
  hp_head_ : SamplingHeapProfileNode;
  hp_samples_ : list SamplingHeapProfileSample }.

Record PositionTickInfo := mkPositionTickInfo {
  pt_line_ : Z;
  pt_ticks_ : Z }.

Record ProfileNode := mkProfileNode {
  pn_id_ : Z;
  pn_callFrame_ : RuntimeCallFrame;
  pn_hitCount_ : option Z;
  pn_children_ : option (list Z);
  pn_positionTicks_ : option (list PositionTickInfo);
  pn_deoptReason_ : option bytes }.

Record Profile := mkProfile {
  pf_tid_ : Z;
  pf_startTime_ : Z;
  pf_endTime_ : Z;
  pf_gcTime_ : Z;
  pf_cInterpreterTime_ : Z;
  pf_asmInterpreterTime_ : Z;
  pf_aotTime_ : Z;
  pf_builtinTime_ : Z;
  pf_napiTime_ : Z;
  pf_arkuiEngineTime_ : Z;
  pf_runtimeTime_ : Z;
  pf_otherTime_ : Z;
  pf_nodes_ : list ProfileNode;
  pf_samples_ : option (list Z);
  pf_timeDeltas_ : option (list Z) }.

Record Coverage := mkCoverage {
  cv_startOffset_ : Z;
  cv_endOffset_ : Z;
  cv_count_ : Z }.

Record FunctionCoverage := mkFunctionCoverage {
  fc_functionName_ : bytes;
  fc_ranges_ : list Coverage;
  fc_isBlockCoverage_ : bool }.

Record ScriptCoverage := mkScriptCoverage {
  sv_scriptId_ : bytes;
  sv_url_ : bytes;
  sv_functions_ : list FunctionCoverage }.

Record TypeObject := mkTypeObject { to_name_ : bytes }.

Record TypeProfileEntry := mkTypeProfileEntry {
  te_offset_ : Z;
  te_types_ : list TypeObject }.

Record ScriptTypeProfile := mkScriptTypeProfile {
  st_scriptId_ : bytes;
  st_url_ : bytes;
  st_entries_ : list TypeProfileEntry }.

(** ** What the factories read of the engine's structures *)

Record FrameInfo := mkFrameInfo {
  fi_functionName : bytes;
  fi_moduleName : bytes;
  fi_scriptId : Z;
  fi_columnNumber : Z;
  fi_lineNumber : Z;
  fi_url : bytes }.

Record CpuProfileNode := mkCpuProfileNode {
  cn_id : Z;
  cn_hitCount : Z;
  cn_children : list Z;
  cn_codeEntry : FrameInfo }.

(** [nodes] is an array; the factory reads its first [nodeCount] elements. *)
Record ProfileInfo := mkProfileInfo {
  pi_tid : Z;
  pi_startTime : Z;
  pi_stopTime : Z;
  pi_gcTime : Z;
  pi_cInterpreterTime : Z;
  pi_asmInterpreterTime : Z;
  pi_aotTime : Z;
  pi_builtinTime : Z;
  pi_napiTime : Z;
  pi_arkuiEngineTime : Z;
  pi_runtimeTime : Z;
  pi_otherTime : Z;
  pi_samples : list Z;
  pi_timeDeltas : list Z;
  pi_nodeCount : nat;
  pi_nodes : list CpuProfileNode }.

Definition RuntimeCallFrame_FromFrameInfo (f : FrameInfo) : RuntimeCallFrame :=
  mkRuntimeCallFrame (fi_functionName f) (fi_moduleName f) (to_string (fi_scriptId f)) (fi_url f)
    (fi_lineNumber f) (fi_columnNumber f).

Definition ProfileNode_FromCpuProfileNode (n : CpuProfileNode) : ProfileNode :=
  mkProfileNode (cn_id n) (RuntimeCallFrame_FromFrameInfo (cn_codeEntry n)) (Some (cn_hitCount n))
    (Some (cn_children n)) None None.

(** The times are unsigned in the engine and are cast to [int64_t]. *)
Definition to_int64 (z : Z) : Z := wrap 64 (z + 2 ^ 63) - 2 ^ 63.

Definition Profile_FromProfileInfo (i : ProfileInfo) : Profile :=
  mkProfile (to_int64 (pi_tid i)) (to_int64 (pi_startTime i)) (to_int64 (pi_stopTime i))
    (to_int64 (pi_gcTime i)) (to_int64 (pi_cInterpreterTime i)) (to_int64 (pi_asmInterpreterTime i))
    (to_int64 (pi_aotTime i)) (to_int64 (pi_builtinTime i)) (to_int64 (pi_napiTime i))
    (to_int64 (pi_arkuiEngineTime i)) (to_int64 (pi_runtimeTime i)) (to_int64 (pi_otherTime i))
    (ProfileNode_FromCpuProfileNode <$> take (pi_nodeCount i) (pi_nodes i))
    (Some (pi_samples i)) (Some (pi_timeDeltas i)).

(** ** Reading *)

Section Profile.
Context `{cj : CJson} `{CastOob}.

Definition SamplingHeapProfileSample_Create (params : PtJson) : created SamplingHeapProfileSample := finish (
  size <- need (GetInt params "size") 0 "Unknown or wrong type of 'size';" ;;
  nodeId <- need (GetInt params "nodeId") 0 "Unknown or wrong type of 'nodeId';" ;;
  ordinal <- need (GetInt params "ordinal") 0 "Unknown or wrong type of 'ordinal';" ;;
  p_ret (mkSample size nodeId ordinal)).

Definition RuntimeCallFrame_Create (params : PtJson) : created RuntimeCallFrame := finish (
  functionName <- need (GetString params "functionName") [] "Unknown or wrong type of 'functionName';" ;;
  moduleName <- need (GetString params "moduleName") [] "Unknown or wrong type of 'moduleName';" ;;
  scriptId <- need (GetString params "scriptId") [] "Unknown or wrong type of 'scriptId';" ;;
  url <- need (GetString params "url") [] "Unknown or wrong type of 'url';" ;;
  lineNumber <- need (GetInt params "lineNumber") 0 "Unknown or wrong type of 'lineNumber';" ;;
  columnNumber <- need (GetInt params "columnNumber") 0 "Unknown or wrong type of 'columnNumber';" ;;
  p_ret (mkRuntimeCallFrame functionName moduleName scriptId url lineNumber columnNumber)).

Definition RuntimeCallFrame_init : RuntimeCallFrame := mkRuntimeCallFrame [] [] [] [] 0 0.

Fixpoint SamplingHeapProfileNode_Create (fuel : nat) (params : PtJson) : created SamplingHeapProfileNode :=
  match fuel with
  | O => NoFuel
  | S f => finish (
      callFrame <- need_as RuntimeCallFrame_Create (GetObject params "callFrame") RuntimeCallFrame_init
                "'callFrame' format invalid;" "Unknown or wrong type of 'callFrame';" ;;
      selfSize <- need (GetInt params "selfSize") 0 "Unknown or wrong type of 'selfSize';" ;;
      id <- need (GetInt params "id") 0 "Unknown or wrong type of 'id';" ;;
      children <- need_each (SamplingHeapProfileNode_Create f) (GetArray params "children")
                "'children' format invalid;" "Unknown or wrong type of 'children';" ;;
      p_ret (mkSamplingNode callFrame selfSize id children))
  end.

Definition SamplingNode_init : SamplingHeapProfileNode := mkSamplingNode RuntimeCallFrame_init 0 0 [].

Definition SamplingHeapProfile_Create (fuel : nat) (params : PtJson) : created SamplingHeapProfile := finish (
  head <- need_as (SamplingHeapProfileNode_Create fuel) (GetObject params "head") SamplingNode_init
            "'sample' format invalid;" "Unknown or wrong type of 'head';" ;;
  samples <- need_each SamplingHeapProfileSample_Create (GetArray params "samples")
            "'sample' format invalid;" "Unknown or wrong type of 'samples';" ;;
  p_ret (mkSamplingHeapProfile head samples)).

Definition PositionTickInfo_Create (params : PtJson) : created PositionTickInfo := finish (
  line <- need (GetInt params "line") 0 "Unknown or wrong type of 'line';" ;;
  ticks <- need (GetInt params "ticks") 0 "Unknown or wrong type of 'ticks';" ;;
  p_ret (mkPositionTickInfo line ticks)).

(** [children_] and [positionTicks_] are filled through [value()] and are never
    set before. *)
Definition ProfileNode_Create (params : PtJson) : created ProfileNode := finish (
  id <- need (GetInt params "id") 0 "Unknown or wrong type of 'id';" ;;
  callFrame <- need_as RuntimeCallFrame_Create (GetObject params "callFrame") RuntimeCallFrame_init
            "'callFrame' format invalid;" "Unknown or wrong type of 'callFrame';" ;;
  hitCount <- want (GetInt params "hitCount") (Some 0) "Wrong type of 'hitCount';" ;;
  children <- want_each_unset as_int (GetArray params "children") "" "Wrong type of 'children';" ;;
  positionTicks <- want_each_unset PositionTickInfo_Create (GetArray params "positionTicks")
            "'positionTicks' format invalid;" "Wrong type of 'positionTicks';" ;;
  deoptReason <- want (GetString params "deoptReason") None "Wrong type of 'deoptReason';" ;;
  p_ret (mkProfileNode id callFrame hitCount children positionTicks deoptReason)).

Definition Profile_Create (params : PtJson) : created Profile := finish (
  nodes <- need_each ProfileNode_Create (GetArray params "nodes")
            "'nodes' format invalid;" "Unknown or wrong type of 'nodes';" ;;
  tid <- need (GetInt64 params "tid") 0 "Unknown or wrong type of 'tid';" ;;
  startTime <- need (GetInt64 params "startTime") 0 "Unknown or wrong type of 'startTime';" ;;
  endTime <- need (GetInt64 params "endTime") 0 "Unknown or wrong type of 'endTime';" ;;
  gcTime <- need (GetInt64 params "gcTime") 0 "Unknown or wrong type of 'gcTime';" ;;
  cInterpreterTime <- need (GetInt64 params "cInterpreterTime") 0
            "Unknown or wrong type of 'cInterpreterTime';" ;;
  asmInterpreterTime <- need (GetInt64 params "asmInterpreterTime") 0
            "Unknown or wrong type of 'asmInterpreterTime';" ;;
  aotTime <- need (GetInt64 params "aotTime") 0 "Unknown or wrong type of 'aotTime';" ;;
  builtinTime <- need (GetInt64 params "builtinTime") 0 "Unknown or wrong type of 'builtinTime';" ;;
  napiTime <- need (GetInt64 params "napiTime") 0 "Unknown or wrong type of 'napiTime';" ;;
  arkuiEngineTime <- need (GetInt64 params "arkuiEngineTime") 0
            "Unknown or wrong type of 'arkuiEngineTime';" ;;
  runtimeTime <- need (GetInt64 params "runtimeTime") 0 "Unknown or wrong type of 'runtimeTime';" ;;
  otherTime <- need (GetInt64 params "otherTime") 0 "Unknown or wrong type of 'otherTime';" ;;
  samples <- want_each_unset as_int (GetArray params "samples") "" "Wrong type of 'samples';" ;;
  timeDeltas <- want_each_unset as_int (GetArray params "timeDeltas") "" "Wrong type of 'timeDeltas';" ;;
  p_ret (mkProfile tid startTime endTime gcTime cInterpreterTime asmInterpreterTime aotTime builtinTime
           napiTime arkuiEngineTime runtimeTime otherTime nodes samples timeDeltas)).

Definition Coverage_Create (params : PtJson) : created Coverage := finish (
  startOffset <- need (GetInt params "startOffset") 0 "Unknown or wrong type of 'startOffset';" ;;
  endOffset <- need (GetInt params "endOffset") 0 "Unknown or wrong type of 'endOffset';" ;;
  count <- need (GetInt params "count") 0 "Unknown or wrong type of 'count';" ;;
  p_ret (mkCoverage startOffset endOffset count)).

Definition FunctionCoverage_Create (params : PtJson) : created FunctionCoverage := finish (
  functionName <- need (GetString params "functionName") [] "Unknown or wrong type of 'functionName';" ;;
  ranges <- need_each Coverage_Create (GetArray params "ranges")
            "'ranges' format invalid;" "Unknown or wrong type of 'ranges';" ;;
  isBlockCoverage <- need (GetBool params "isBlockCoverage") false
            "Unknown or wrong type of 'isBlockCoverage';" ;;
  p_ret (mkFunctionCoverage functionName ranges isBlockCoverage)).

Definition ScriptCoverage_Create (params : PtJson) : created ScriptCoverage := finish (
  scriptId <- need (GetString params "scriptId") [] "Unknown or wrong type of 'scriptId';" ;;
  url <- need (GetString params "url") [] "Unknown or wrong type of 'url';" ;;
  functions <- need_each FunctionCoverage_Create (GetArray params "functions")
            "'functions' format invalid;" "Unknown or wrong type of 'functions';" ;;
  p_ret (mkScriptCoverage scriptId url functions)).

Definition TypeObject_Create (params : PtJson) : created TypeObject := finish (
  name <- need (GetString params "name") [] "Unknown or wrong type of 'name';" ;;
  p_ret (mkTypeObject name)).

Definition TypeProfileEntry_Create (params : PtJson) : created TypeProfileEntry := finish (
  offset <- need (GetInt params "offset") 0 "Unknown or wrong type of 'offset';" ;;
  types <- need_each TypeObject_Create (GetArray params "types")
            "'types' format invalid;" "Unknown or wrong type of 'types';" ;;
  p_ret (mkTypeProfileEntry offset types)).

Definition ScriptTypeProfile_Create (params : PtJson) : created ScriptTypeProfile := finish (
  scriptId <- need (GetString params "scriptId") [] "Unknown or wrong type of 'scriptId';" ;;
  url <- need (GetString params "url") [] "Unknown or wrong type of 'url';" ;;
  entries <- need_each TypeProfileEntry_Create (GetArray params "entries")
            "'entries' format invalid;" "Unknown or wrong type of 'entries';" ;;
  p_ret (mkScriptTypeProfile scriptId url entries)).

(** [MemoryDumpConfig] is a JSON object that is kept as it is. *)
Record TraceConfig := mkTraceConfig {
  tc_recordMode_ : option bytes;
  tc_enableSampling_ : option bool;
  tc_enableSystrace_ : option bool;
  tc_enableArgumentFilter_ : option bool;
  tc_includedCategories_ : option (list bytes);
  tc_excludedCategories_ : option (list bytes);
  tc_syntheticDelays_ : option (list bytes);
  tc_memoryDumpConfig_ : option PtJson }.

Definition RecordMode_Valid : bytes → bool :=
  one_of (str <$> ["recordUntilFull"; "recordContinuously"; "recordAsMuchAsPossible"; "echoToConsole"]%string).

Definition TraceConfig_Create (params : PtJson) : created TraceConfig := finish (
  recordMode <- want_as (if_valid RecordMode_Valid) (GetString params "recordMode") None
            "'recordMode' is invalid;" "Wrong type of 'recordMode';" ;;
  enableSampling <- want (GetBool params "enableSampling") None "Wrong type of 'enableSampling';" ;;
  enableSystrace <- want (GetBool params "enableSystrace") None "Wrong type of 'enableSystrace';" ;;
  enableArgumentFilter <- want (GetBool params "enableArgumentFilter") None
            "Wrong type of 'enableArgumentFilter';" ;;
  includedCategories <- want_each as_string (GetArray params "includedCategories") None ""
            "Wrong type of 'includedCategories';" ;;
  excludedCategories <- want_each as_string (GetArray params "excludedCategories") None ""
            "Wrong type of 'excludedCategories';" ;;
  syntheticDelays <- want_each as_string (GetArray params "syntheticDelays") None ""
            "Wrong type of 'syntheticDelays';" ;;
  memoryDumpConfig <- want (GetObject params "memoryDumpConfig") None "Wrong type of 'memoryDumpConfig';" ;;
  p_ret (mkTraceConfig recordMode enableSampling enableSystrace enableArgumentFilter includedCategories
           excludedCategories syntheticDelays memoryDumpConfig)).

End Profile.

(** ** Writing *)

Section ProfileWrite.
Context `{cj : CJson}.

Definition SamplingHeapProfileSample_ToJson (x : SamplingHeapProfileSample) : PtJson :=
  CreateObject
  ▷ addI "size" (hs_size_ x)
  ▷ addI "nodeId" (hs_nodeId_ x)
  ▷ addI "ordinal" (hs_ordinal_ x).

Definition RuntimeCallFrame_ToJson (x : RuntimeCallFrame) : PtJson :=
  CreateObject
  ▷ addS "functionName" (rf_functionName_ x)
  ▷ addS "moduleName" (rf_moduleName_ x)
  ▷ addS "scriptId" (rf_scriptId_ x)
  ▷ addS "url" (rf_url_ x)
  ▷ addI "lineNumber" (rf_lineNumber_ x)
  ▷ addI "columnNumber" (rf_columnNumber_ x).

Fixpoint SamplingHeapProfileNode_ToJson (x : SamplingHeapProfileNode) : PtJson :=
  match x with
  | mkSamplingNode callFrame_ selfSize_ id_ children_ =>
      CreateObject
      ▷ addJ "callFrame" (RuntimeCallFrame_ToJson callFrame_)
      ▷ addI "selfSize" selfSize_
      ▷ addI "id" id_
      ▷ addJ "children"
          (pushAll (λ childrens c, pushJ childrens (SamplingHeapProfileNode_ToJson c)) children_)
  end.

Definition SamplingHeapProfile_ToJson (x : SamplingHeapProfile) : PtJson :=
  CreateObject
  ▷ addJ "head" (SamplingHeapProfileNode_ToJson (hp_head_ x))
  ▷ addJ "samples"
      (pushAll (λ samples s, pushJ samples (SamplingHeapProfileSample_ToJson s)) (hp_samples_ x)).

Definition PositionTickInfo_ToJson (x : PositionTickInfo) : PtJson :=
  CreateObject
  ▷ addI "line" (pt_line_ x)
  ▷ addI "ticks" (pt_ticks_ x).

Definition ProfileNode_ToJson (x : ProfileNode) : PtJson :=
  CreateObject
  ▷ addI "id" (pn_id_ x)
  ▷ addJ "callFrame" (RuntimeCallFrame_ToJson (pn_callFrame_ x))
  ▷ ifSome (pn_hitCount_ x) (addI "hitCount")
  ▷ ifSome (pn_children_ x) (λ l, addJ "children" (pushAll pushI l))
  ▷ ifSome (pn_positionTicks_ x) (λ l, addJ "positionTicks"
      (pushAll (λ positionTicks t, pushJ positionTicks (PositionTickInfo_ToJson t)) l))
  ▷ ifSome (pn_deoptReason_ x) (addS "deoptReason").

Definition Profile_ToJson (x : Profile) : PtJson :=
  CreateObject
  ▷ addI "tid" (pf_tid_ x)
  ▷ addI "startTime" (pf_startTime_ x)
  ▷ addI "endTime" (pf_endTime_ x)
  ▷ addI "gcTime" (pf_gcTime_ x)
  ▷ addI "cInterpreterTime" (pf_cInterpreterTime_ x)
  ▷ addI "asmInterpreterTime" (pf_asmInterpreterTime_ x)
  ▷ addI "aotTime" (pf_aotTime_ x)
  ▷ addI "builtinTime" (pf_builtinTime_ x)
  ▷ addI "napiTime" (pf_napiTime_ x)
  ▷ addI "arkuiEngineTime" (pf_arkuiEngineTime_ x)
  ▷ addI "runtimeTime" (pf_runtimeTime_ x)
  ▷ addI "otherTime" (pf_otherTime_ x)
  ▷ addJ "nodes" (pushAll (λ nodes n, pushJ nodes (ProfileNode_ToJson n)) (pf_nodes_ x))
  ▷ ifSome (pf_samples_ x) (λ l, addJ "samples" (pushAll pushI l))
  ▷ ifSome (pf_timeDeltas_ x) (λ l, addJ "timeDeltas" (pushAll pushI l)).

Definition Coverage_ToJson (x : Coverage) : PtJson :=
  CreateObject
  ▷ addI "startOffset" (cv_startOffset_ x)
  ▷ addI "endOffset" (cv_endOffset_ x)
  ▷ addI "count" (cv_count_ x).

Definition FunctionCoverage_ToJson (x : FunctionCoverage) : PtJson :=
  CreateObject
  ▷ addS "functionName" (fc_functionName_ x)
  ▷ addJ "ranges" (pushAll (λ ranges c, pushJ ranges (Coverage_ToJson c)) (fc_ranges_ x))
  ▷ addB "isBlockCoverage" (fc_isBlockCoverage_ x).

Definition ScriptCoverage_ToJson (x : ScriptCoverage) : PtJson :=
  CreateObject
  ▷ addS "scriptId" (sv_scriptId_ x)
  ▷ addS "url" (sv_url_ x)
  ▷ addJ "functions" (pushAll (λ functions f, pushJ functions (FunctionCoverage_ToJson f)) (sv_functions_ x)).

Definition TypeObject_ToJson (x : TypeObject) : PtJson := CreateObject ▷ addS "name" (to_name_ x).

Definition TypeProfileEntry_ToJson (x : TypeProfileEntry) : PtJson :=
  CreateObject
  ▷ addI "offset" (te_offset_ x)
  ▷ addJ "types" (pushAll (λ types t, pushJ types (TypeObject_ToJson t)) (te_types_ x)).

Definition ScriptTypeProfile_ToJson (x : ScriptTypeProfile) : PtJson :=
  CreateObject
  ▷ addS "scriptId" (st_scriptId_ x)
  ▷ addS "url" (st_url_ x)
  ▷ addJ "entries" (pushAll (λ entries t, pushJ entries (TypeProfileEntry_ToJson t)) (st_entries_ x)).

(** The memory dump configuration is added under the key "functionLocation". *)
Definition TraceConfig_ToJson (x : TraceConfig) : PtJson :=
  CreateObject
  ▷ ifSome (tc_recordMode_ x) (addS "recordMode")
  ▷ ifSome (tc_enableSampling_ x) (addB "enableSampling")
  ▷ ifSome (tc_enableSystrace_ x) (addB "enableSystrace")
  ▷ ifSome (tc_enableArgumentFilter_ x) (addB "enableArgumentFilter")
  ▷ ifSome (tc_includedCategories_ x) (λ l, addJ "includedCategories" (pushAll pushS l))
  ▷ ifSome (tc_excludedCategories_ x) (λ l, addJ "excludedCategories" (pushAll pushS l))
  ▷ ifSome (tc_syntheticDelays_ x) (λ l, addJ "syntheticDelays" (pushAll pushS l))
  ▷ ifSome (tc_memoryDumpConfig_ x) (addJ "functionLocation").

End ProfileWrite.

(** ** JSON forms *)

Definition fields := list (string * option jval).

Definition Sample_fields (x : SamplingHeapProfileSample) : fields :=
  [fI "size" (hs_size_ x); fI "nodeId" (hs_nodeId_ x); fI "ordinal" (hs_ordinal_ x)].
Definition RuntimeCallFrame_fields (x : RuntimeCallFrame) : fields :=
  [fS "functionName" (rf_functionName_ x); fS "moduleName" (rf_moduleName_ x);
   fS "scriptId" (rf_scriptId_ x); fS "url" (rf_url_ x); fI "lineNumber" (rf_lineNumber_ x);
   fI "columnNumber" (rf_columnNumber_ x)].
Fixpoint SamplingNode_fields (x : SamplingHeapProfileNode) : fields :=
  match x with
  | mkSamplingNode cf sz id cs =>
      [fO RuntimeCallFrame_fields "callFrame" cf; fI "selfSize" sz; fI "id" id;
       fA SamplingNode_fields "children" cs]
  end.
Definition SamplingHeapProfile_fields (x : SamplingHeapProfile) : fields :=
  [fO SamplingNode_fields "head" (hp_head_ x); fA Sample_fields "samples" (hp_samples_ x)].
Definition PositionTickInfo_fields (x : PositionTickInfo) : fields :=
  [fI "line" (pt_line_ x); fI "ticks" (pt_ticks_ x)].
Definition ProfileNode_fields (x : ProfileNode) : fields :=
  [fI "id" (pn_id_ x); fO RuntimeCallFrame_fields "callFrame" (pn_callFrame_ x);
   oI "hitCount" (pn_hitCount_ x); oInts "children" (pn_children_ x);
   oA PositionTickInfo_fields "positionTicks" (pn_positionTicks_ x); oS "deoptReason" (pn_deoptReason_ x)].
Definition Profile_fields (x : Profile) : fields :=
  [fI "tid" (pf_tid_ x); fI "startTime" (pf_startTime_ x); fI "endTime" (pf_endTime_ x);
   fI "gcTime" (pf_gcTime_ x); fI "cInterpreterTime" (pf_cInterpreterTime_ x);
   fI "asmInterpreterTime" (pf_asmInterpreterTime_ x); fI "aotTime" (pf_aotTime_ x);
   fI "builtinTime" (pf_builtinTime_ x); fI "napiTime" (pf_napiTime_ x);
   fI "arkuiEngineTime" (pf_arkuiEngineTime_ x); fI "runtimeTime" (pf_runtimeTime_ x);
   fI "otherTime" (pf_otherTime_ x); fA ProfileNode_fields "nodes" (pf_nodes_ x);
   oInts "samples" (pf_samples_ x); oInts "timeDeltas" (pf_timeDeltas_ x)].
Definition Coverage_fields (x : Coverage) : fields :=
  [fI "startOffset" (cv_startOffset_ x); fI "endOffset" (cv_endOffset_ x); fI "count" (cv_count_ x)].
Definition FunctionCoverage_fields (x : FunctionCoverage) : fields :=
  [fS "functionName" (fc_functionName_ x); fA Coverage_fields "ranges" (fc_ranges_ x);
   fB "isBlockCoverage" (fc_isBlockCoverage_ x)].
Definition ScriptCoverage_fields (x : ScriptCoverage) : fields :=
  [fS "scriptId" (sv_scriptId_ x); fS "url" (sv_url_ x);
   fA FunctionCoverage_fields "functions" (sv_functions_ x)].
Definition TypeObject_fields (x : TypeObject) : fields := [fS "name" (to_name_ x)].
Definition TypeProfileEntry_fields (x : TypeProfileEntry) : fields :=
  [fI "offset" (te_offset_ x); fA TypeObject_fields "types" (te_types_ x)].
Definition ScriptTypeProfile_fields (x : ScriptTypeProfile) : fields :=
  [fS "scriptId" (st_scriptId_ x); fS "url" (st_url_ x);
   fA TypeProfileEntry_fields "entries" (st_entries_ x)].

(** ** Well-formed values *)

Definition Sample_wf (x : SamplingHeapProfileSample) : Prop :=
  is_int32 (hs_size_ x) ∧ is_int32 (hs_nodeId_ x) ∧ is_int32 (hs_ordinal_ x).
Definition RuntimeCallFrame_wf (x : RuntimeCallFrame) : Prop :=
  nul_free (rf_functionName_ x) ∧ nul_free (rf_moduleName_ x) ∧ nul_free (rf_scriptId_ x) ∧
  nul_free (rf_url_ x) ∧ is_int32 (rf_lineNumber_ x) ∧ is_int32 (rf_columnNumber_ x).
#[warnings="-register-all"]
Inductive SamplingNode_wf : SamplingHeapProfileNode → Prop :=
| SamplingNode_wf_intro cf sz id cs :
    RuntimeCallFrame_wf cf → is_int32 sz → is_int32 id → Forall SamplingNode_wf cs →
    SamplingNode_wf (mkSamplingNode cf sz id cs).
Definition SamplingHeapProfile_wf (x : SamplingHeapProfile) : Prop :=
  SamplingNode_wf (hp_head_ x) ∧ Forall Sample_wf (hp_samples_ x).
Definition PositionTickInfo_wf (x : PositionTickInfo) : Prop :=
  is_int32 (pt_line_ x) ∧ is_int32 (pt_ticks_ x).
Definition ProfileNode_wf (x : ProfileNode) : Prop :=
  is_int32 (pn_id_ x) ∧ RuntimeCallFrame_wf (pn_callFrame_ x) ∧ opt_ok is_int32 (pn_hitCount_ x) ∧
  opt_ok (Forall is_int32) (pn_children_ x) ∧ opt_ok (Forall PositionTickInfo_wf) (pn_positionTicks_ x) ∧
  opt_ok nul_free (pn_deoptReason_ x).
(** A time that a [double] holds exactly. *)
Definition is_time (z : Z) : Prop := Z.abs z ≤ 2 ^ 53.
Definition Profile_wf (x : Profile) : Prop :=
  is_time (pf_tid_ x) ∧ is_time (pf_startTime_ x) ∧ is_time (pf_endTime_ x) ∧ is_time (pf_gcTime_ x) ∧
  is_time (pf_cInterpreterTime_ x) ∧ is_time (pf_asmInterpreterTime_ x) ∧ is_time (pf_aotTime_ x) ∧
  is_time (pf_builtinTime_ x) ∧ is_time (pf_napiTime_ x) ∧ is_time (pf_arkuiEngineTime_ x) ∧
  is_time (pf_runtimeTime_ x) ∧ is_time (pf_otherTime_ x) ∧ Forall ProfileNode_wf (pf_nodes_ x) ∧
  opt_ok (Forall is_int32) (pf_samples_ x) ∧ opt_ok (Forall is_int32) (pf_timeDeltas_ x).
Definition Coverage_wf (x : Coverage) : Prop :=
  is_int32 (cv_startOffset_ x) ∧ is_int32 (cv_endOffset_ x) ∧ is_int32 (cv_count_ x).
Definition FunctionCoverage_wf (x : FunctionCoverage) : Prop :=
  nul_free (fc_functionName_ x) ∧ Forall Coverage_wf (fc_ranges_ x).
Definition ScriptCoverage_wf (x : ScriptCoverage) : Prop :=
  nul_free (sv_scriptId_ x) ∧ nul_free (sv_url_ x) ∧ Forall FunctionCoverage_wf (sv_functions_ x).
Definition TypeObject_wf (x : TypeObject) : Prop := nul_free (to_name_ x).
Definition TypeProfileEntry_wf (x : TypeProfileEntry) : Prop :=
  is_int32 (te_offset_ x) ∧ Forall TypeObject_wf (te_types_ x).
Definition ScriptTypeProfile_wf (x : ScriptTypeProfile) : Prop :=
  nul_free (st_scriptId_ x) ∧ nul_free (st_url_ x) ∧ Forall TypeProfileEntry_wf (st_entries_ x).

(** ** Round trips *)

Section ProfileLemmas.
Context `{cj : CJson} {cjOK : CJsonOK cj} `{CastOob}.

Lemma Sample_obj x : obj (SamplingHeapProfileSample_ToJson x) (Sample_fields x).
Proof. build_obj. Qed.
Lemma RuntimeCallFrame_obj x : obj (RuntimeCallFrame_ToJson x) (RuntimeCallFrame_fields x).
Proof. build_obj. Qed.
Lemma PositionTickInfo_obj x : obj (PositionTickInfo_ToJson x) (PositionTickInfo_fields x).
Proof. build_obj. Qed.
Lemma Coverage_obj x : obj (Coverage_ToJson x) (Coverage_fields x).
Proof. build_obj. Qed.
Lemma TypeObject_obj x : obj (TypeObject_ToJson x) (TypeObject_fields x).
Proof. build_obj. Qed.
Hint Resolve Sample_obj RuntimeCallFrame_obj PositionTickInfo_obj Coverage_obj TypeObject_obj : ark_json.
Lemma ProfileNode_obj x : obj (ProfileNode_ToJson x) (ProfileNode_fields x).
Proof. build_obj. Qed.
Lemma FunctionCoverage_obj x : obj (FunctionCoverage_ToJson x) (FunctionCoverage_fields x).
Proof. build_obj. Qed.
Lemma TypeProfileEntry_obj x : obj (TypeProfileEntry_ToJson x) (TypeProfileEntry_fields x).
Proof. build_obj. Qed.
Hint Resolve ProfileNode_obj FunctionCoverage_obj TypeProfileEntry_obj : ark_json.
Lemma Profile_obj x : obj (Profile_ToJson x) (Profile_fields x).
Proof. build_obj. Qed.
Lemma ScriptCoverage_obj x : obj (ScriptCoverage_ToJson x) (ScriptCoverage_fields x).
Proof. build_obj. Qed.
Lemma ScriptTypeProfile_obj x : obj (ScriptTypeProfile_ToJson x) (ScriptTypeProfile_fields x).
Proof. build_obj. Qed.

(** Induction on a node and its children. *)
Lemma SamplingNode_ind' (Q : SamplingHeapProfileNode → Prop) :
  (∀ cf sz id cs, Forall Q cs → Q (mkSamplingNode cf sz id cs)) → ∀ x, Q x.
Proof.
  intros HQ. fix IH 1. intros [cf sz id cs]. apply HQ.
  induction cs as [|c cs IHcs]; constructor; [apply IH|apply IHcs].
Qed.

Lemma pushAll_arr_in {A} (push : PtJson → A → PtJson) (g : A → jval) (l : list A) :
  Forall (λ a, ∀ p vs, arr p vs → arr (push p a) (vs ++ [g a])) l → arr (pushAll push l) (g <$> l).
Proof.
  intros Hpush. unfold pushAll.
  assert (Hgen : ∀ p vs, arr p vs → arr (foldl push p l) (vs ++ (g <$> l))).
  { induction Hpush as [|a l Ha _ IH]; intros p vs Hp; simpl; [by rewrite app_nil_r|].
    rewrite cons_middle, app_assoc. by apply IH, Ha. }
  apply (Hgen _ []), CreateArray_arr.
Qed.

Lemma SamplingNode_obj x : obj (SamplingHeapProfileNode_ToJson x) (SamplingNode_fields x).
Proof.
  induction x as [cf sz id cs IH] using SamplingNode_ind'.
  cbn [SamplingHeapProfileNode_ToJson SamplingNode_fields]. eapply obj_eq.
  - eapply addJ_arr; [build_fields|decide_keys|].
    apply (pushAll_arr_in _ (λ c, JObj (present (SamplingNode_fields c)))).
    eapply Forall_impl; [exact IH|]. intros c Hc p vs Hp. by apply pushJ_arr.
  - reflexivity.
Qed.
Hint Resolve SamplingNode_obj : ark_json.
Lemma SamplingHeapProfile_obj x : obj (SamplingHeapProfile_ToJson x) (SamplingHeapProfile_fields x).
Proof. build_obj. Qed.

Lemma Sample_read x p :
  Sample_wf x → obj p (Sample_fields x) → SamplingHeapProfileSample_Create p = Created x.
Proof.
  intros (? & ? & ?) Hp. unfold SamplingHeapProfileSample_Create, finish.
  read need_int. read need_int. read need_int. by destruct x.
Qed.
Lemma RuntimeCallFrame_read x p :
  RuntimeCallFrame_wf x → obj p (RuntimeCallFrame_fields x) → RuntimeCallFrame_Create p = Created x.
Proof.
  intros (? & ? & ? & ? & ? & ?) Hp. unfold RuntimeCallFrame_Create, finish.
  read need_string. read need_string. read need_string. read need_string. read need_int. read need_int.
  by destruct x.
Qed.
Lemma PositionTickInfo_read x p :
  PositionTickInfo_wf x → obj p (PositionTickInfo_fields x) → PositionTickInfo_Create p = Created x.
Proof.
  intros (? & ?) Hp. unfold PositionTickInfo_Create, finish. read need_int. read need_int. by destruct x.
Qed.
Lemma Coverage_read x p : Coverage_wf x → obj p (Coverage_fields x) → Coverage_Create p = Created x.
Proof.
  intros (? & ? & ?) Hp. unfold Coverage_Create, finish. read need_int. read need_int. read need_int.
  by destruct x.
Qed.
Lemma TypeObject_read x p : TypeObject_wf x → obj p (TypeObject_fields x) → TypeObject_Create p = Created x.
Proof. intros ? Hp. unfold TypeObject_Create, finish. read need_string. by destruct x. Qed.
Hint Resolve Sample_read RuntimeCallFrame_read PositionTickInfo_read Coverage_read TypeObject_read : ark.
Lemma FunctionCoverage_read x p :
  FunctionCoverage_wf x → obj p (FunctionCoverage_fields x) → FunctionCoverage_Create p = Created x.
Proof.
  intros (? & ?) Hp. unfold FunctionCoverage_Create, finish.
  read need_string. read need_each_wf. read need_bool. by destruct x.
Qed.
Lemma TypeProfileEntry_read x p :
  TypeProfileEntry_wf x → obj p (TypeProfileEntry_fields x) → TypeProfileEntry_Create p = Created x.
Proof.
  intros (? & ?) Hp. unfold TypeProfileEntry_Create, finish.
  read need_int. read need_each_wf. by destruct x.
Qed.
Hint Resolve FunctionCoverage_read TypeProfileEntry_read : ark.
Lemma ScriptCoverage_read x p :
  ScriptCoverage_wf x → obj p (ScriptCoverage_fields x) → ScriptCoverage_Create p = Created x.
Proof.
  intros (? & ? & ?) Hp. unfold ScriptCoverage_Create, finish.
  read need_string. read need_string. read need_each_wf. by destruct x.
Qed.
Lemma ScriptTypeProfile_read x p :
  ScriptTypeProfile_wf x → obj p (ScriptTypeProfile_fields x) → ScriptTypeProfile_Create p = Created x.
Proof.
  intros (? & ? & ?) Hp. unfold ScriptTypeProfile_Create, finish.
  read need_string. read need_string. read need_each_wf. by destruct x.
Qed.

(** The number of levels of a tree of nodes. *)
Fixpoint height (x : SamplingHeapProfileNode) : nat :=
  match x with mkSamplingNode _ _ _ cs => S (foldr Nat.max O (map height cs)) end.

Lemma height_child c cs : c ∈ cs → (height c ≤ foldr Nat.max O (map height cs))%nat.
Proof.
  induction cs as [|d cs IH]; [by intros ?%elem_of_nil|].
  intros [->|Hc]%elem_of_cons; simpl; [lia|]. specialize (IH Hc). lia.
Qed.

Lemma SamplingNode_read x : ∀ fuel p,
  (height x ≤ fuel)%nat → SamplingNode_wf x → obj p (SamplingNode_fields x) →
  SamplingHeapProfileNode_Create fuel p = Created x.
Proof.
  induction x as [cf sz id cs IH] using SamplingNode_ind'. intros [|fuel] p Hh Hwf Hp; [simpl in Hh; lia|].
  inversion Hwf as [? ? ? ? ? ? ? Hcs]. subst. cbn [SamplingHeapProfileNode_Create]. unfold finish.
  read need_obj. read need_int. read need_int. rewrite Forall_forall in IH, Hcs.
  erewrite p_bind_ok by (eapply (need_each_obj p _ Hp) with (flds := SamplingNode_fields); [decide_keys|reflexivity|];
    intros c q Hc Hq; apply IH; [done| |by apply Hcs|done];
    pose proof (height_child c cs Hc); simpl in Hh; lia).
  done.
Qed.

(** A JSON value has finitely many levels; a node is read with as much fuel. *)
Fixpoint jdepth (v : jval) : nat :=
  match v with
  | JArr vs => S (foldr Nat.max O (map jdepth vs))
  | JObj fs => S (foldr Nat.max O (map (λ f, jdepth f.2) fs))
  | _ => 1%nat
  end.

Lemma max_elem (l : list nat) n : n ∈ l → (n ≤ foldr Nat.max O l)%nat.
Proof.
  induction l as [|m l IH]; [by intros ?%elem_of_nil|].
  intros [->|Hn]%elem_of_cons; simpl; [lia|]. specialize (IH Hn). lia.
Qed.

Lemma jdepth_item vs v : v ∈ vs → (jdepth v < jdepth (JArr vs))%nat.
Proof. intros Hv. simpl. apply (list_elem_of_fmap_2 jdepth), max_elem in Hv. change (map jdepth vs) with (jdepth <$> vs). lia. Qed.

Lemma jdepth_field key v w : get_item v key = Some w → (jdepth w < jdepth v)%nat.
Proof.
  destruct v as [| | | | |fs]; try done. unfold get_item, find_field. intros E.
  destruct (list_find _ fs) as [[i [k u]]|] eqn:EF; [|done]. simpl in E. injection E as <-.
  apply list_find_Some in EF as (Hi & _). apply list_elem_of_lookup_2 in Hi.
  simpl. apply (list_elem_of_fmap_2 (λ f, jdepth f.2)), max_elem in Hi.
  change (map (λ f : string * jval, jdepth f.2) fs) with ((λ f : string * jval, jdepth f.2) <$> fs).
  simpl in Hi. lia.
Qed.

Lemma GetArray_rep p v key q :
  rep p v → GetArray p key = SUCCESS q → ∃ vs, arr q vs ∧ (jdepth (JArr vs) < jdepth v)%nat.
Proof.
  intros (n & -> & <-). unfold GetArray. pose proof (GetObjectItem_view n key) as Hv.
  destruct (cJSON_GetObjectItem (Some n) key) as [m|]; [|done]. rewrite IsArray_view.
  destruct (view m) eqn:Em; try done. intros [= <-]. simpl in Hv. rewrite Em in Hv. eexists. split.
  - by exists m.
  - by apply (jdepth_field key).
Qed.

Lemma each_returns {B} (conv : PtJson → created B) bad q vs e :
  arr q vs → (∀ n v, v ∈ vs → rep n v → conv n ≠ Thrown ∧ conv n ≠ NoFuel) →
  ∃ l e', each conv bad q e = SOk l e'.
Proof.
  intros Hq Hc. unfold each. rewrite (GetSize_arr q vs Hq), Nat2Z.id.
  assert (Hgen : ∀ k i acc e, (i + k = length vs)%nat → ∃ l e', each_from q conv bad i k acc e = SOk l e').
  { induction k as [|k IH]; intros i acc e' Hk; [by eexists _, _|]. cbn [each_from].
    destruct (lookup_lt_is_Some_2 vs i ltac:(lia)) as [v Hv].
    pose proof (Hc _ v (list_elem_of_lookup_2 _ _ _ Hv) (Get_arr q vs i v Hq Hv)) as [Hn1 Hn2].
    destruct (conv _); try done; by apply IH; lia. }
  by apply Hgen.
Qed.

Lemma RuntimeCallFrame_returns p : RuntimeCallFrame_Create p ≠ Thrown ∧ RuntimeCallFrame_Create p ≠ NoFuel.
Proof. apply finish_returns. repeat (intros; returns_step). Qed.

(** *** Profiles *)

Definition nonnil {A} (o : option (list A)) : bool := match o with Some (_ :: _) => true | _ => false end.

(** A node whose children or ticks are not empty cannot be read. *)
Definition ProfileNode_throws (x : ProfileNode) : bool := nonnil (pn_children_ x) || nonnil (pn_positionTicks_ x).
Definition ProfileNode_kept (x : ProfileNode) : ProfileNode :=
  mkProfileNode (pn_id_ x) (pn_callFrame_ x) (Some (default 0 (pn_hitCount_ x))) None None (pn_deoptReason_ x).

Lemma ProfileNode_read x p :
  ProfileNode_wf x → obj p (ProfileNode_fields x) →
  ProfileNode_Create p = if ProfileNode_throws x then Thrown else Created (ProfileNode_kept x).
Proof.
  intros (? & ? & Hhit & ? & Hticks & ?) Hp. unfold ProfileNode_Create, finish.
  read need_int. read need_obj.
  read want_int_init.
  pose proof (want_unset_int p _ Hp ltac:(decide_keys) "children" (pn_children_ x) "" "Wrong type of 'children';"
    "" eq_refl ltac:(done)) as Ech.
  assert (Etk : ∀ m1 m2 e, want_each_unset PositionTickInfo_Create (GetArray p "positionTicks") m1 m2 e =
     match pn_positionTicks_ x with Some (_ :: _) => SThrow | _ => SOk None e end).
  { intros. apply (want_unset_obj p _ Hp ltac:(decide_keys) PositionTickInfo_fields); [done|].
    intros l y q Hl Hy Hq. apply PositionTickInfo_read; [|done].
    specialize (Hticks l Hl). rewrite Forall_forall in Hticks. by apply Hticks. }
  unfold ProfileNode_throws. unfold p_bind at 1. rewrite Ech.
  destruct (pn_children_ x) as [[|c cs]|]; cbn [nonnil orb]; try done;
    unfold p_bind at 1; rewrite Etk; destruct (pn_positionTicks_ x) as [[|t ts]|]; cbn [nonnil]; try done;
    read want_string; done.
Qed.

Definition Profile_throws (x : Profile) : bool :=
  existsb ProfileNode_throws (pf_nodes_ x) || nonnil (pf_samples_ x) || nonnil (pf_timeDeltas_ x).
Definition Profile_kept (x : Profile) : Profile :=
  mkProfile (pf_tid_ x) (pf_startTime_ x) (pf_endTime_ x) (pf_gcTime_ x) (pf_cInterpreterTime_ x)
    (pf_asmInterpreterTime_ x) (pf_aotTime_ x) (pf_builtinTime_ x) (pf_napiTime_ x) (pf_arkuiEngineTime_ x)
    (pf_runtimeTime_ x) (pf_otherTime_ x) (ProfileNode_kept <$> pf_nodes_ x) None None.

Lemma Profile_read x p :
  Profile_wf x → obj p (Profile_fields x) →
  Profile_Create p = if Profile_throws x then Thrown else Created (Profile_kept x).
Proof.
  unfold Profile_wf, is_time.
  intros (? & ? & ? & ? & ? & ? & ? & ? & ? & ? & ? & ? & Hn & ? & ?) Hp. unfold Profile_Create, finish.
  assert (En : ∀ m1 m2 e, need_each ProfileNode_Create (GetArray p "nodes") m1 m2 e =
    if existsb ProfileNode_throws (pf_nodes_ x) then SThrow else SOk (ProfileNode_kept <$> pf_nodes_ x) e).
  { intros. destruct (GetArray_obj p _ "nodes" (Some ((λ n, JObj (present (ProfileNode_fields n))) <$> pf_nodes_ x))
      Hp ltac:(decide_keys) ltac:(reflexivity)) as (q & E & Hq).
    rewrite E. unfold need_each. rewrite Forall_forall in Hn.
    apply (each_read ProfileNode_Create (λ n, JObj (present (ProfileNode_fields n)))); [done|].
    intros n m Hin Hm. apply ProfileNode_read; [by apply Hn|done]. }
  assert (Es : ∀ m1 m2 e, want_each_unset as_int (GetArray p "samples") m1 m2 e =
     match pf_samples_ x with Some (_ :: _) => SThrow | _ => SOk None e end)
    by (intros; by apply (want_unset_int p _ Hp ltac:(decide_keys))).
  assert (Et : ∀ m1 m2 e, want_each_unset as_int (GetArray p "timeDeltas") m1 m2 e =
     match pf_timeDeltas_ x with Some (_ :: _) => SThrow | _ => SOk None e end)
    by (intros; by apply (want_unset_int p _ Hp ltac:(decide_keys))).
  unfold Profile_throws. unfold p_bind at 1. rewrite En.
  destruct (existsb ProfileNode_throws (pf_nodes_ x)); [done|]. cbn [orb].
  do 12 (read need_int64). unfold p_bind at 1. rewrite Es.
  destruct (pf_samples_ x) as [[|c cs]|]; cbn [nonnil orb]; try done;
    unfold p_bind at 1; rewrite Et; by destruct (pf_timeDeltas_ x) as [[|t ts]|].
Qed.

(** *** Trace configurations *)

(** The JSON form; [v] is the value of the memory dump configuration. *)
Definition TraceConfig_fields (x : TraceConfig) (v : option jval) : fields :=
  [oS "recordMode" (tc_recordMode_ x); oB "enableSampling" (tc_enableSampling_ x);
   oB "enableSystrace" (tc_enableSystrace_ x); oB "enableArgumentFilter" (tc_enableArgumentFilter_ x);
   oStrs "includedCategories" (tc_includedCategories_ x);
   oStrs "excludedCategories" (tc_excludedCategories_ x); oStrs "syntheticDelays" (tc_syntheticDelays_ x);
   ("functionLocation"%string, v)].

Definition TraceConfig_wf (x : TraceConfig) : Prop :=
  opt_ok nul_free (tc_recordMode_ x) ∧ opt_ok (λ s, RecordMode_Valid s = true) (tc_recordMode_ x) ∧
  opt_ok (Forall nul_free) (tc_includedCategories_ x) ∧
  opt_ok (Forall nul_free) (tc_excludedCategories_ x) ∧ opt_ok (Forall nul_free) (tc_syntheticDelays_ x) ∧
  opt_ok (λ q, ∃ v, rep q v) (tc_memoryDumpConfig_ x).

Lemma TraceConfig_obj x :
  opt_ok (λ q, ∃ v, rep q v) (tc_memoryDumpConfig_ x) →
  ∃ v, obj (TraceConfig_ToJson x) (TraceConfig_fields x v).
Proof.
  intros Hm. unfold TraceConfig_ToJson.
  destruct (tc_memoryDumpConfig_ x) as [q|].
  - destruct (Hm q eq_refl) as (v & Hv). exists (Some v). cbn [ifSome]. eapply obj_eq.
    + apply AddNode_obj; [build_fields|decide_keys|exact Hv].
    + reflexivity.
  - exists None. cbn [ifSome]. eapply obj_eq; [apply obj_skip; build_fields|reflexivity].
Qed.

Definition TraceConfig_kept (x : TraceConfig) : TraceConfig :=
  mkTraceConfig (tc_recordMode_ x) (tc_enableSampling_ x) (tc_enableSystrace_ x) (tc_enableArgumentFilter_ x)
    (tc_includedCategories_ x) (tc_excludedCategories_ x) (tc_syntheticDelays_ x) None.

Lemma TraceConfig_read x v p :
  TraceConfig_wf x → obj p (TraceConfig_fields x v) → TraceConfig_Create p = Created (TraceConfig_kept x).
Proof.
  intros (? & ? & ? & ? & ? & _) Hp. unfold TraceConfig_Create, finish.
  read want_valid. read want_bool. read want_bool. read want_bool. read want_each_string.
  read want_each_string. read want_each_string.
  pose proof (GetObject_obj p _ "memoryDumpConfig" None Hp ltac:(decide_keys) ltac:(reflexivity)) as E.
  cbn beta iota in E. rewrite E. done.
Qed.

End ProfileLemmas.

(** ** Properties *)

Section ProfileProperties.
Context `{cj : CJson} {cjOK : CJsonOK cj} `{CastOob}.

(** A heap profile, a tree of nodes of any depth with its samples, is read
    back from its JSON form as it was written. *)
Theorem heap_profile_roundtrip (x : SamplingHeapProfile) (fuel : nat) :
  SamplingHeapProfile_wf x → (height (hp_head_ x) ≤ fuel)%nat →
  SamplingHeapProfile_Create fuel (SamplingHeapProfile_ToJson x) = Created x.
Proof.
  intros (Hh & ?) Hf. pose proof (SamplingHeapProfile_obj x) as Hp. unfold SamplingHeapProfile_Create, finish.
  erewrite p_bind_ok by (eapply (need_obj _ _ Hp) with (flds := SamplingNode_fields);
    [decide_keys|reflexivity|]; intros q Hq; by apply SamplingNode_read).
  erewrite p_bind_ok by (eapply (need_each_wf _ _ Hp); [decide_keys|reflexivity|eassumption|apply Sample_read]).
  by destruct x.
Qed.

(** Reading a heap profile node terminates on every JSON value: a recursion
    as deep as the value has levels is enough, and no exception is thrown. *)
Theorem sampling_node_terminates (fuel : nat) : ∀ (p : PtJson) (v : jval),
  rep p v → (jdepth v ≤ fuel)%nat →
  SamplingHeapProfileNode_Create fuel p ≠ Thrown ∧ SamplingHeapProfileNode_Create fuel p ≠ NoFuel.
Proof.
  induction fuel as [|fuel IH]; intros p v Hp Hd; [by destruct v; simpl in Hd; lia|].
  cbn [SamplingHeapProfileNode_Create]. apply finish_returns.
  apply returns_bind; [|intros; apply returns_bind; [apply returns_need|]; intros;
    apply returns_bind; [apply returns_need|]; intros; apply returns_bind; [|intros; apply returns_ret]].
  - intros e. unfold need_as, convert. destruct (GetObject p "callFrame") as [q| |]; eauto.
    pose proof (RuntimeCallFrame_returns q) as [? ?]. destruct (RuntimeCallFrame_Create q); eauto; done.
  - intros e. unfold need_each. destruct (GetArray p "children") as [q| |] eqn:EA; [|eauto..].
    destruct (GetArray_rep p v "children" q Hp EA) as (vs & Hq & Hlt).
    apply (each_returns _ _ _ vs); [done|]. intros n w Hw Hn. apply (IH n w Hn).
    pose proof (jdepth_item vs w Hw). lia.
Qed.

(** What reading back a written CPU profile gives. It is the profile without
    empty lists as long as no list is filled; as soon as a node has children or
    ticks, or the profile has samples or time deltas, the list is filled through
    an empty optional and the call leaves by an exception. *)
Theorem cpu_profile_read_back (x : Profile) :
  Profile_wf x →
  Profile_Create (Profile_ToJson x) = if Profile_throws x then Thrown else Created (Profile_kept x).
Proof. intros Hx. by apply Profile_read, Profile_obj. Qed.

(** The coverage and type profiles are read back as they were written. *)
Theorem profiler_types_roundtrip :
  (∀ x, ScriptCoverage_wf x → ScriptCoverage_Create (ScriptCoverage_ToJson x) = Created x) ∧
  (∀ x, ScriptTypeProfile_wf x → ScriptTypeProfile_Create (ScriptTypeProfile_ToJson x) = Created x) ∧
  (∀ x, RuntimeCallFrame_wf x → RuntimeCallFrame_Create (RuntimeCallFrame_ToJson x) = Created x) ∧
  (∀ x, PositionTickInfo_wf x → PositionTickInfo_Create (PositionTickInfo_ToJson x) = Created x).
Proof.
  split_and!; intros x Hx.
  - by apply ScriptCoverage_read, ScriptCoverage_obj.
  - by apply ScriptTypeProfile_read, ScriptTypeProfile_obj.
  - by apply RuntimeCallFrame_read, RuntimeCallFrame_obj.
  - by apply PositionTickInfo_read, PositionTickInfo_obj.
Qed.

(** A trace configuration is read back as it was written except for its
    memory dump configuration, which is written under another member's name and
    is always lost. *)
Theorem trace_config_loses_dump (x : TraceConfig) :
  TraceConfig_wf x → TraceConfig_Create (TraceConfig_ToJson x) = Created (TraceConfig_kept x).
Proof.
  intros Hx. destruct (TraceConfig_obj x) as (v & Hv); [apply Hx|]. by apply (TraceConfig_read x v).
Qed.

End ProfileProperties.

(** *** Witnesses *)

#[local] Existing Instance tree_cjson.
#[local] Existing Instance tree_cjson_ok.
#[local] Existing Instance demo_oob.

Definition demo_rframe (f : string) : RuntimeCallFrame :=
  mkRuntimeCallFrame (str f) (str "entry") (str "3") (str "Index.ets") 12 4.
Definition demo_tree : SamplingHeapProfileNode :=
  mkSamplingNode (demo_rframe "root") 0 1
    [mkSamplingNode (demo_rframe "a") 64 2 [mkSamplingNode (demo_rframe "b") 32 3 []];
     mkSamplingNode (demo_rframe "c") 16 4 []].
Definition demo_heap : SamplingHeapProfile := mkSamplingHeapProfile demo_tree [mkSample 64 2 1; mkSample 32 3 2].

Lemma heap_profile_roundtrip_witness :
  SamplingHeapProfile_Create 3 (SamplingHeapProfile_ToJson demo_heap) = Created demo_heap.
Proof.
  apply (heap_profile_roundtrip demo_heap 3); [|vm_compute; lia].
  split; [|solve_wf]. repeat (constructor; solve_wf).
Defined.

Lemma sampling_node_terminates_witness :
  SamplingHeapProfileNode_Create 7 (Some (JObj [("children"%string, JArr [JArr []; JNull])])) ≠ Thrown ∧
  SamplingHeapProfileNode_Create 7 (Some (JObj [("children"%string, JArr [JArr []; JNull])])) ≠ NoFuel.
Proof.
  apply (sampling_node_terminates 7 _ (JObj [("children"%string, JArr [JArr []; JNull])])).
  - by eexists.
  - simpl. lia.
Defined.

Definition demo_profile (samples : list Z) : Profile :=
  mkProfile 1 2 3 4 5 6 7 8 9 10 11 12
    [mkProfileNode 1 (demo_rframe "main") (Some 3) (Some []) None (Some (str "none"))] (Some samples) None.

Lemma cpu_profile_read_back_witness :
  Profile_Create (Profile_ToJson (demo_profile [])) = Created (Profile_kept (demo_profile [])) ∧
  Profile_Create (Profile_ToJson (demo_profile [1; 1])) = Thrown.
Proof.
  split.
  - apply (cpu_profile_read_back (demo_profile [])). unfold Profile_wf, is_time. simpl. split_and!; try lia; solve_wf.
  - apply (cpu_profile_read_back (demo_profile [1; 1])). unfold Profile_wf, is_time. simpl.
    split_and!; try lia; solve_wf.
Defined.

Definition demo_coverage : ScriptCoverage :=
  mkScriptCoverage (str "3") (str "Index.ets") [mkFunctionCoverage (str "main") [mkCoverage 0 10 2] true].

Lemma profiler_types_roundtrip_witness :
  ScriptCoverage_Create (ScriptCoverage_ToJson demo_coverage) = Created demo_coverage.
Proof. apply profiler_types_roundtrip. solve_wf. Defined.

Definition demo_trace : TraceConfig :=
  mkTraceConfig (Some (str "recordUntilFull")) (Some true) None None (Some [str "ark"]) None None
    (Some (Some (JObj []))).

Lemma trace_config_loses_dump_witness :
  TraceConfig_Create (TraceConfig_ToJson demo_trace) = Created (TraceConfig_kept demo_trace).
Proof.
  apply (trace_config_loses_dump demo_trace).
  unfold TraceConfig_wf. simpl. split_and!; try (intros ? ?; simplify_eq/=; by eexists _, _). all: solve_wf.
Defined.
