(* ===== verification/PtSchema.v ===== *)
(** * Schemas of protocol objects

    A declarative description of the JSON values that a [Create] accepts, and
    the lemmas that relate the steps of PtCodec to it. A schema lists the members
    of an object with their types and says which are mandatory; [fits] decides
    whether a value has the shape. [decides] states that a [Create] accepts
    exactly the values that fit, and reports an error for all others: it neither
    throws nor runs out of the recursion bound.

    The file also holds the two forms of array loops that only the parameters of
    requests use (tooling/dynamic/base/pt_params.cpp). *)

From S2P Require Import Prelude Regex Http CppLib Utils PtJson PtCodec.
Local Open Scope Z_scope.

(** ** Types of members *)

#[warnings="-register-all"]
Inductive ktype :=
| KAny
| KString
| KNumber
| KBool
| KId
| KOneOf (valid : bytes → bool)
| KPositive
| KArray (item : ktype)
| KObject (members : ktype)
| KFields (fields : list (string * bool * ktype)).

(** The order on doubles as far as it is needed: [d <= 0]. *)
Definition double_nonpos (d : double) : bool :=
  match d with DFin m _ => m <=? 0 | DInf neg => neg | DNaN => false end.

Fixpoint fits (t : ktype) (v : jval) {struct t} : bool :=
  match t with
  | KAny => true
  | KString => match v with JStr _ => true | _ => false end
  | KNumber => match v with JNum _ => true | _ => false end
  | KBool => match v with JBool _ => true | _ => false end
  | KId => match v with JStr s => bool_decide (is_Some (StrToInt32 s)) | _ => false end
  | KOneOf valid => match v with JStr s => valid s | _ => false end
  | KPositive => match v with JNum d => negb (double_nonpos d) | _ => false end
  | KArray item => match v with JArr vs => forallb (fits item) vs | _ => false end
  | KObject members => match v with JObj _ => fits members v | _ => false end
  | KFields fields =>
      forallb (λ '(key, mandatory, t'),
        match get_item v key with Some w => fits t' w | None => negb mandatory end) fields
  end.

(** A mandatory and an optional member of the value [v]. *)
Definition needs (t : ktype) (v : jval) (key : string) : bool :=
  match get_item v key with Some w => fits t w | None => false end.
Definition wants (t : ktype) (v : jval) (key : string) : bool :=
  match get_item v key with Some w => fits t w | None => true end.

Notation "key ':!' t" := (key%string, true, t) (at level 60) : ark_scope.
Notation "key ':?' t" := (key%string, false, t) (at level 60) : ark_scope.

(** ** Array loops of the request parameters *)

Section Loops.
Context `{CJson}.

(** The loop that appends the converted elements and leaves at the first one
    that is not valid. *)
Fixpoint until_from {B} (q : PtJson) (conv : PtJson → created B) (bad : string)
    (i n : nat) (acc : list B) : P (list B) :=
  match n with
  | O => p_ret acc
  | S n' => λ e,
      match conv (Get q (Z.of_nat i)) with
      | Created b => until_from q conv bad (S i) n' (acc ++ [b]) e
      | Rejected _ => SOk acc (e +:+ bad)
      | Thrown => SThrow
      | NoFuel => SFuel
      end
  end.

Definition until {B} (conv : PtJson → created B) (bad : string) (q : PtJson) : P (list B) :=
  until_from q conv bad 0 (Z.to_nat (GetSize q)) [].

(** [if (list.size()) member = std::move(list);] *)
Definition unless_empty {B} (l : list B) : option (list B) :=
  match l with [] => None | _ => Some l end.

Definition want_until {B} (conv : PtJson → created B) (ret : Result PtJson) (bad msg : string)
    : P (option (list B)) := λ e,
  match ret with
  | SUCCESS q => p_bind (λ l, p_ret (unless_empty l)) (until conv bad q) e
  | TYPE_ERROR => SOk None (e +:+ msg)
  | NOT_EXIST => SOk None e
  end.

End Loops.

(** ** Steps that check a condition

    The step returns, whatever [error] holds, and appends something to it exactly
    when the condition is false. *)
Definition checks {A} (m : P A) (b : bool) : Prop :=
  ∀ e, ∃ a x, m e = SOk a (e +:+ x) ∧ (x = EmptyString ↔ b = true).

Lemma append_nil_r (e : string) : e +:+ EmptyString = e.
Proof. induction e as [|c e IH]; [done|]. change (String c (e +:+ EmptyString) = String c e). by rewrite IH. Qed.
Lemma append_app_assoc (a b c : string) : (a +:+ b) +:+ c = a +:+ (b +:+ c).
Proof. induction a as [|x a IH]; [done|]. change (String x ((a +:+ b) +:+ c) = String x (a +:+ (b +:+ c))). by rewrite IH. Qed.
Lemma append_empty (a b : string) : a +:+ b = EmptyString ↔ a = EmptyString ∧ b = EmptyString.
Proof. destruct a; simpl; naive_solver. Qed.

Lemma checks_ok {A} (m : P A) a : (∀ e, m e = SOk a e) → checks m true.
Proof. intros Hm e. exists a, EmptyString. by rewrite append_nil_r. Qed.
Lemma checks_fail {A} (m : P A) a msg :
  msg ≠ EmptyString → (∀ e, m e = SOk a (e +:+ msg)) → checks m false.
Proof. intros Hn Hm e. exists a, msg. by rewrite Hm. Qed.
Lemma checks_if {A} (m : P A) (b : bool) a a' msg :
  msg ≠ EmptyString → (∀ e, m e = if b then SOk a e else SOk a' (e +:+ msg)) → checks m b.
Proof. destruct b; eauto using checks_ok, checks_fail. Qed.
Lemma checks_eq {A} (m : P A) b c : checks m b → b = c → checks m c.
Proof. by intros ? <-. Qed.

Lemma checks_ret {A} (a : A) : checks (p_ret a) true.
Proof. by apply (checks_ok _ a). Qed.

Lemma checks_bind {A B} (k : A → P B) (m : P A) b c :
  checks m b → (∀ a, checks (k a) c) → checks (p_bind k m) (b && c).
Proof.
  intros Hm Hk e. destruct (Hm e) as (a & x & E & Hx). destruct (Hk a (e +:+ x)) as (a' & y & E' & Hy).
  exists a', (x +:+ y). unfold p_bind. rewrite E, E', append_app_assoc. split; [done|].
  rewrite append_empty, andb_true_iff. tauto.
Qed.

Lemma checks_ext {A} (m m' : P A) b : (∀ e, m e = m' e) → checks m' b → checks m b.
Proof. intros E Hm e. destruct (Hm e) as (a & x & ? & ?). exists a, x. by rewrite E. Qed.

(** The [Create] made of such steps. *)
Definition verdict {A} (r : created A) (b : bool) : Prop :=
  if b then ∃ x, r = Created x else ∃ error, r = Rejected error ∧ error ≠ EmptyString.

Lemma finish_verdict {A} (m : P A) b : checks m b → verdict (finish m) b.
Proof.
  intros Hm. unfold finish. destruct (Hm EmptyString) as (a & x & E & Hx).
  change (EmptyString +:+ x) with x in E. rewrite E.
  destruct (String.eqb_spec x EmptyString) as [->|Hne].
  - destruct b; [by exists a|]. by apply proj1 in Hx; specialize (Hx eq_refl).
  - destruct b; [by destruct Hne; apply Hx|]. by exists x.
Qed.

(** A conversion that succeeds exactly on the values that fit. *)
Section Decides.
Context `{cj : CJson} {cjOK : CJsonOK cj} `{CastOob}.

Definition decides {A} (create : PtJson → created A) (t : ktype) : Prop :=
  ∀ p v, rep p v → verdict (create p) (fits t v).

Lemma decides_finish {A} (m : PtJson → P A) t :
  (∀ p v, rep p v → checks (m p) (fits t v)) → decides (λ p, finish (m p)) t.
Proof. intros Hm p v Hp. apply finish_verdict, Hm, Hp. Qed.

Lemma decides_weaken {A} (create : PtJson → created A) t : decides create t →
  ∀ p v, rep p v → create p ≠ Thrown ∧ create p ≠ NoFuel.
Proof.
  intros Hd p v Hp. specialize (Hd p v Hp). unfold verdict in Hd.
  destruct (fits t v); [destruct Hd as (x & ->)|destruct Hd as (e & -> & _)]; done.
Qed.

(** *** What the accessors return *)

Lemma item_view p v key : rep p v →
  match get_item v key with
  | Some w => ∃ m, cJSON_GetObjectItem p key = Some m ∧ view m = w
  | None => cJSON_GetObjectItem p key = None
  end.
Proof.
  intros (n & -> & <-). pose proof (GetObjectItem_view n key) as E.
  destruct (cJSON_GetObjectItem (Some n) key) as [m|], (get_item (view n) key); simplify_eq/=; eauto.
Qed.

Lemma GetString_rep p v key : rep p v →
  GetString p key = match get_item v key with
                    | Some (JStr s) => SUCCESS s | Some _ => TYPE_ERROR | None => NOT_EXIST
                    end.
Proof.
  intros Hp. pose proof (item_view p v key Hp) as Hi. unfold GetString.
  destruct (get_item v key) as [w|]; [|by rewrite Hi]. destruct Hi as (m & -> & Hm).
  rewrite IsString_view, Hm. destruct w; try done. cbn. f_equal. by apply valuestring_view.
Qed.

Lemma GetDouble_view p v key : rep p v →
  GetDouble p key = match get_item v key with
                    | Some (JNum d) => SUCCESS d | Some _ => TYPE_ERROR | None => NOT_EXIST
                    end.
Proof.
  intros Hp. pose proof (item_view p v key Hp) as Hi. unfold GetDouble.
  destruct (get_item v key) as [w|]; [|by rewrite Hi]. destruct Hi as (m & -> & Hm).
  rewrite IsNumber_view, Hm. destruct w; try done. cbn. f_equal. by apply valuedouble_view.
Qed.

Lemma GetBool_view p v key : rep p v →
  GetBool p key = match get_item v key with
                  | Some (JBool b) => SUCCESS b | Some _ => TYPE_ERROR | None => NOT_EXIST
                  end.
Proof.
  intros Hp. pose proof (item_view p v key Hp) as Hi. unfold GetBool.
  destruct (get_item v key) as [w|]; [|by rewrite Hi]. destruct Hi as (m & -> & Hm).
  rewrite IsBool_view, IsTrue_view, Hm. by destruct w.
Qed.

Lemma GetObject_rep p v key : rep p v →
  match get_item v key with
  | Some (JObj fs) => ∃ q, GetObject p key = SUCCESS q ∧ rep q (JObj fs)
  | Some _ => GetObject p key = TYPE_ERROR
  | None => GetObject p key = NOT_EXIST
  end.
Proof.
  intros Hp. pose proof (item_view p v key Hp) as Hi. unfold GetObject.
  destruct (get_item v key) as [w|]; [|by rewrite Hi]. destruct Hi as (m & -> & Hm).
  rewrite IsObject_view, Hm. destruct w; try done. exists (Some m). split; [done|]. by exists m.
Qed.

Lemma GetArray_view p v key : rep p v →
  match get_item v key with
  | Some (JArr vs) => ∃ q, GetArray p key = SUCCESS q ∧ arr q vs
  | Some _ => GetArray p key = TYPE_ERROR
  | None => GetArray p key = NOT_EXIST
  end.
Proof.
  intros Hp. pose proof (item_view p v key Hp) as Hi. unfold GetArray.
  destruct (get_item v key) as [w|]; [|by rewrite Hi]. destruct Hi as (m & -> & Hm).
  rewrite IsArray_view, Hm. destruct w; try done. exists (Some m). split; [done|]. by exists m.
Qed.

(** *** Steps *)

Lemma checks_need {A} (ret : Result A) d msg b :
  msg ≠ EmptyString → b = match ret with SUCCESS _ => true | _ => false end → checks (need ret d msg) b.
Proof.
  intros Hm ->. destruct ret as [a| |]; [by apply (checks_ok _ a)|by apply (checks_fail _ d msg)..].
Qed.
Lemma checks_want {A} (ret : Result A) d msg b :
  msg ≠ EmptyString → b = match ret with TYPE_ERROR => false | _ => true end → checks (want ret d msg) b.
Proof.
  intros Hm ->. destruct ret as [a| |]; [by apply (checks_ok _ (Some a))|by apply (checks_ok _ d)|].
  by apply (checks_fail _ d msg).
Qed.
(** A conversion of a value that has been read; its own message is not used. *)
Definition converts {A} (r : created A) (b : bool) : Prop :=
  if b then ∃ x, r = Created x else ∃ error, r = Rejected error.
Lemma verdict_converts {A} (r : created A) b : verdict r b → converts r b.
Proof. destruct b; simpl; naive_solver. Qed.

Lemma checks_convert {A B} (conv : A → created B) v d bad b :
  bad ≠ EmptyString → converts (conv v) b → checks (convert conv v d bad) b.
Proof.
  intros Hb Hv. unfold convert. destruct b; simpl in Hv.
  - destruct Hv as (x & E). apply (checks_ok _ x). intros e. by rewrite E.
  - destruct Hv as (er & E). apply (checks_fail _ d bad); [done|]. intros e. by rewrite E.
Qed.

Lemma converts_some {A B} (conv : A → created B) v b :
  converts (conv v) b → converts (some_as conv v) b.
Proof. unfold converts, some_as. destruct b; intros (x & ->); by eexists. Qed.
Lemma converts_id s : converts (to_int32 s) (fits KId (JStr s)).
Proof.
  unfold to_int32, converts. cbn [fits]. destruct (StrToInt32 s) as [z|]; simpl; by eexists.
Qed.
Lemma converts_valid valid s : converts (if_valid valid s) (fits (KOneOf valid) (JStr s)).
Proof. unfold if_valid, converts. simpl. destruct (valid s); by eexists. Qed.

(** A step that checks the converted value of a member that has been found. *)
Lemma checks_need_as {A B} (conv : A → created B) (ret : Result A) d bad msg b :
  msg ≠ EmptyString →
  match ret with SUCCESS v => checks (convert conv v d bad) b | _ => b = false end →
  checks (need_as conv ret d bad msg) b.
Proof.
  intros Hm. destruct ret as [v| |]; [|intros ->; by apply (checks_fail _ d msg)..].
  intros Hc. by eapply checks_ext, Hc.
Qed.
Lemma checks_want_as {A B} (conv : A → created B) (ret : Result A) d bad msg b :
  msg ≠ EmptyString →
  match ret with
  | SUCCESS v => checks (convert (some_as conv) v d bad) b
  | TYPE_ERROR => b = false
  | NOT_EXIST => b = true
  end →
  checks (want_as conv ret d bad msg) b.
Proof.
  intros Hm. destruct ret as [v| |]; [|intros ->; by apply (checks_ok _ d)|intros ->; by apply (checks_fail _ d msg)].
  intros Hc. by eapply checks_ext, Hc.
Qed.

(** *** Loops *)

Lemma Get_item p vs i v : arr p vs → vs !! i = Some v → rep (Get p (Z.of_nat i)) v.
Proof. apply Get_arr. Qed.

Lemma checks_each {B} (conv : PtJson → created B) t bad q vs :
  bad ≠ EmptyString → decides conv t → arr q vs → checks (each conv bad q) (forallb (fits t) vs).
Proof.
  intros Hb Hd Hq. unfold each. rewrite (GetSize_arr q vs) by done. rewrite Nat2Z.id.
  assert (Hgen : ∀ ws acc i, drop i vs = ws → checks (each_from q conv bad i (length ws) acc) (forallb (fits t) ws)).
  { induction ws as [|w ws IH]; intros acc i Hdr; [apply checks_ret|].
    assert (Hi : vs !! i = Some w) by (rewrite <- (Nat.add_0_r i), <- lookup_drop, Hdr; done).
    assert (Hn : drop (S i) vs = ws) by (rewrite <- (Nat.add_1_r i), <- drop_drop, Hdr; done).
    specialize (Hd _ _ (Get_item q vs i w Hq Hi)). cbn [length each_from forallb]. unfold verdict in Hd.
    destruct (fits t w); [destruct Hd as (x & E)|destruct Hd as (er & E & _)]; cbn [andb].
    - eapply checks_ext, (IH (acc ++ [x]) (S i) Hn). intros e. by rewrite E.
    - eapply checks_eq; [|apply andb_false_l].
      eapply checks_ext, (checks_bind (λ _ : unit, each_from q conv bad (S i) (length ws) acc) (λ e, SOk tt (e +:+ bad)) false (forallb (fits t) ws)).
      + intros e. unfold p_bind. by rewrite E.
      + by apply (checks_fail _ tt bad).
      + intros _. by apply IH. }
  apply (Hgen vs [] 0%nat). apply drop_0.
Qed.

Lemma checks_until {B} (conv : PtJson → created B) t bad q vs :
  bad ≠ EmptyString → decides conv t → arr q vs → checks (until conv bad q) (forallb (fits t) vs).
Proof.
  intros Hb Hd Hq. unfold until. rewrite (GetSize_arr q vs) by done. rewrite Nat2Z.id.
  assert (Hgen : ∀ ws acc i, drop i vs = ws → checks (until_from q conv bad i (length ws) acc) (forallb (fits t) ws)).
  { induction ws as [|w ws IH]; intros acc i Hdr; [apply checks_ret|].
    assert (Hi : vs !! i = Some w) by (rewrite <- (Nat.add_0_r i), <- lookup_drop, Hdr; done).
    assert (Hn : drop (S i) vs = ws) by (rewrite <- (Nat.add_1_r i), <- drop_drop, Hdr; done).
    specialize (Hd _ _ (Get_item q vs i w Hq Hi)). cbn [length until_from forallb]. unfold verdict in Hd.
    destruct (fits t w); [destruct Hd as (x & E)|destruct Hd as (er & E & _)]; cbn [andb].
    - eapply checks_ext, (IH (acc ++ [x]) (S i) Hn). intros e. by rewrite E.
    - apply (checks_fail _ acc bad); [done|]. intros e. by rewrite E. }
  apply (Hgen vs [] 0%nat). apply drop_0.
Qed.

(** *** Members *)

Section Members.
Context (p : PtJson) (v : jval) (Hp : rep p v) (key : string) (msg : string) (Hmsg : msg ≠ EmptyString).

Ltac by_item :=
  unfold needs, wants, GetInt, GetInt64, GetUInt, GetUInt64;
  rewrite ?(GetString_rep p v key Hp), ?(GetDouble_view p v key Hp), ?(GetBool_view p v key Hp);
  destruct (get_item v key) as [[]|]; try done.

Lemma checks_need_string d : checks (need (GetString p key) d msg) (needs KString v key).
Proof. apply checks_need; [done|by_item]. Qed.
Lemma checks_want_string d : checks (want (GetString p key) d msg) (wants KString v key).
Proof. apply checks_want; [done|by_item]. Qed.
Lemma checks_need_bool d : checks (need (GetBool p key) d msg) (needs KBool v key).
Proof. apply checks_need; [done|by_item]. Qed.
Lemma checks_want_bool d : checks (want (GetBool p key) d msg) (wants KBool v key).
Proof. apply checks_want; [done|by_item]. Qed.
Lemma checks_need_int d : checks (need (GetInt p key) d msg) (needs KNumber v key).
Proof. apply checks_need; [done|by_item]. Qed.
Lemma checks_want_int d : checks (want (GetInt p key) d msg) (wants KNumber v key).
Proof. apply checks_want; [done|by_item]. Qed.
Lemma checks_need_uint64 d : checks (need (GetUInt64 p key) d msg) (needs KNumber v key).
Proof. apply checks_need; [done|by_item]. Qed.
Lemma checks_want_uint d : checks (want (GetUInt p key) d msg) (wants KNumber v key).
Proof. apply checks_want; [done|by_item]. Qed.
Lemma checks_want_double d : checks (want (GetDouble p key) d msg) (wants KNumber v key).
Proof. apply checks_want; [done|by_item]. Qed.

(** A value that is stored in another form. *)
Lemma checks_need_string_map {A} (f : bytes → A) d :
  checks (need (map_result f (GetString p key)) d msg) (needs KString v key).
Proof. apply checks_need; [done|by_item]. Qed.
Lemma checks_need_bool_map {A} (f : bool → A) d :
  checks (need (map_result f (GetBool p key)) d msg) (needs KBool v key).
Proof. apply checks_need; [done|by_item]. Qed.

Lemma checks_want_object (d : option PtJson) :
  checks (want (GetObject p key) d msg) (wants (KObject KAny) v key).
Proof.
  apply checks_want; [done|]. pose proof (GetObject_rep p v key Hp) as Hg. unfold wants.
  destruct (get_item v key) as [[]|]; try by rewrite Hg. by destruct Hg as (q & -> & _).
Qed.

Section Converted.
Context (bad : string) (Hbad : bad ≠ EmptyString).

Lemma checks_need_id d : checks (need_as to_int32 (GetString p key) d bad msg) (needs KId v key).
Proof. apply checks_need_as; [done|]. by_item. apply checks_convert; [done|apply converts_id]. Qed.
Lemma checks_want_id d : checks (want_as to_int32 (GetString p key) d bad msg) (wants KId v key).
Proof. apply checks_want_as; [done|]. by_item. apply checks_convert; [done|apply converts_some, converts_id]. Qed.
Lemma checks_need_valid valid d :
  checks (need_as (if_valid valid) (GetString p key) d bad msg) (needs (KOneOf valid) v key).
Proof. apply checks_need_as; [done|]. by_item. apply checks_convert; [done|apply converts_valid]. Qed.
Lemma checks_want_valid valid d :
  checks (want_as (if_valid valid) (GetString p key) d bad msg) (wants (KOneOf valid) v key).
Proof.
  apply checks_want_as; [done|]. by_item. apply checks_convert; [done|apply converts_some, converts_valid].
Qed.

Lemma checks_need_obj {A} (conv : PtJson → created A) t d :
  decides conv t → checks (need_as conv (GetObject p key) d bad msg) (needs (KObject t) v key).
Proof.
  intros Hd. apply checks_need_as; [done|]. pose proof (GetObject_rep p v key Hp) as Hg. unfold needs.
  destruct (get_item v key) as [[]|]; try by rewrite Hg. destruct Hg as (q & -> & Hq).
  apply checks_convert; [done|]. apply verdict_converts, Hd, Hq.
Qed.
Lemma checks_want_obj {A} (conv : PtJson → created A) t d :
  decides conv t → checks (want_as conv (GetObject p key) d bad msg) (wants (KObject t) v key).
Proof.
  intros Hd. apply checks_want_as; [done|]. pose proof (GetObject_rep p v key Hp) as Hg. unfold wants.
  destruct (get_item v key) as [[]|]; try by rewrite Hg. destruct Hg as (q & -> & Hq).
  apply checks_convert; [done|]. apply converts_some, verdict_converts, Hd, Hq.
Qed.

(** A step on the array that has been found. *)
Lemma checks_array {A} (f : Result PtJson → P A) (absent : bool) t :
  checks (f TYPE_ERROR) false → checks (f NOT_EXIST) absent →
  (∀ q vs, arr q vs → checks (f (SUCCESS q)) (forallb (fits t) vs)) →
  checks (f (GetArray p key))
    match get_item v key with Some w => fits (KArray t) w | None => absent end.
Proof.
  intros Ht Hn Hs. pose proof (GetArray_view p v key Hp) as Hg.
  destruct (get_item v key) as [[]|]; try by rewrite Hg. destruct Hg as (q & -> & Hq). by apply Hs.
Qed.

Lemma checks_need_each {A} (conv : PtJson → created A) t :
  decides conv t → checks (need_each conv (GetArray p key) bad msg) (needs (KArray t) v key).
Proof.
  intros Hd. apply (checks_array (λ r, need_each conv r bad msg) false t);
    [by apply (checks_fail _ [] msg)..|]. intros q vs Hq. by eapply checks_ext, checks_each.
Qed.
Lemma checks_want_until {A} (conv : PtJson → created A) t :
  decides conv t → checks (want_until conv (GetArray p key) bad msg) (wants (KArray t) v key).
Proof.
  intros Hd. apply (checks_array (λ r, want_until conv r bad msg) true t);
    [by apply (checks_fail _ None msg)|by apply (checks_ok _ None)|].
  intros q vs Hq. eapply checks_ext; [intros e; reflexivity|]. rewrite <- (andb_true_r (forallb _ _)).
  apply checks_bind; [by apply checks_until|intros; apply checks_ret].
Qed.
End Converted.

(** An array that is read as a whole. *)
Lemma checks_want_array_map {A} (f : PtJson → A) (d : option A) :
  checks (want (map_result f (GetArray p key)) d msg) (wants (KArray KAny) v key).
Proof.
  apply (checks_array (λ r, want (map_result f r) d msg) true KAny);
    [by apply (checks_fail _ d msg)|by apply (checks_ok _ d)|].
  intros q vs Hq. replace (forallb (fits KAny) vs) with true by (symmetry; apply forallb_forall; done).
  by apply (checks_ok _ (Some (f q))).
Qed.

(** An array whose elements are all taken. *)
Lemma checks_want_each_any {A} (conv : PtJson → created A) (d : option (list A)) bad :
  (∀ q, ∃ x, conv q = Created x) →
  checks (want_each conv (GetArray p key) d bad msg) (wants (KArray KAny) v key).
Proof.
  intros Hc. apply (checks_array (λ r, want_each conv r d bad msg) true KAny);
    [by apply (checks_fail _ d msg)|by apply (checks_ok _ d)|].
  intros q vs Hq. replace (forallb (fits KAny) vs) with true by (symmetry; apply forallb_forall; done).
  assert (Hgen : ∀ n i acc, checks (each_from q conv bad i n acc) true).
  { induction n as [|n IH]; intros i acc; [apply checks_ret|]. cbn [each_from].
    destruct (Hc (Get q (Z.of_nat i))) as (x & E).
    eapply checks_ext, (IH (S i) (acc ++ [x])). intros e. by rewrite E. }
  eapply checks_ext; [intros e; reflexivity|]. rewrite <- (andb_true_r true).
  apply checks_bind; [apply Hgen|intros; apply checks_ret].
Qed.
End Members.

End Decides.

(** The steps of a [Create] in order; the conversions of nested objects are
    found in the database [ark_schema]. *)
Create HintDb ark_schema discriminated.
Ltac check_member :=
  first
    [ eapply checks_ret
    | eapply checks_need_string; [eassumption|done] | eapply checks_want_string; [eassumption|done]
    | eapply checks_need_bool; [eassumption|done] | eapply checks_want_bool; [eassumption|done]
    | eapply checks_need_int; [eassumption|done] | eapply checks_want_int; [eassumption|done]
    | eapply checks_need_uint64; [eassumption|done] | eapply checks_want_uint; [eassumption|done]
    | eapply checks_want_double; [eassumption|done] | eapply checks_want_object; [eassumption|done]
    | eapply checks_need_string_map; [eassumption|done] | eapply checks_need_bool_map; [eassumption|done]
    | eapply checks_want_array_map; [eassumption|done]
    | eapply checks_need_id; [eassumption|done|done] | eapply checks_want_id; [eassumption|done|done]
    | eapply checks_need_valid; [eassumption|done|done] | eapply checks_want_valid; [eassumption|done|done]
    | eapply checks_need_obj; [eassumption|done|done|solve [eauto with ark_schema nocore]]
    | eapply checks_want_obj; [eassumption|done|done|solve [eauto with ark_schema nocore]]
    | eapply checks_need_each; [eassumption|done|done|solve [eauto with ark_schema nocore]]
    | eapply checks_want_until; [eassumption|done|done|solve [eauto with ark_schema nocore]]
    | eapply checks_want_each_any; [eassumption|done|intros; by eexists]
    | solve [eauto with ark_schema nocore] ].
Ltac check_members := repeat (eapply checks_bind; [check_member|intros ?]); check_member.
Ltac decide_create :=
  lazymatch goal with |- decides ?f _ => let h := head_of f in unfold h end;
  apply decides_finish; intros p v Hp; eapply checks_eq; [check_members|reflexivity].

(** ** Written objects

    [typed p fields]: the node is an object that has exactly the listed members,
    the mandatory ones among them, with values of their types. *)
Section Typed.
Context `{cj : CJson} {cjOK : CJsonOK cj}.

Definition fields_fit (schema : list (string * bool * ktype)) (fs : list (string * option jval)) : bool :=
  bool_decide (fs.*1 = schema.*1.*1) &&
  forallb (λ '(key, mandatory, t),
    match field key fs with Some w => fits t w | None => negb mandatory end) schema.

Definition typed (p : PtJson) (schema : list (string * bool * ktype)) : Prop :=
  ∃ fs, obj p fs ∧ keys_ok fs = true ∧ fields_fit schema fs = true.

(** A typed object fits the schema, so a reader that decides it accepts it. *)
Lemma typed_fits p schema : typed p schema → ∃ v, rep p v ∧ fits (KFields schema) v = true.
Proof.
  intros (fs & Ho & Hk & Hf). exists (JObj (present fs)). split; [exact Ho|].
  apply andb_true_iff in Hf as [_ Hf]. cbn [fits]. rewrite forallb_forall in Hf. apply forallb_forall.
  intros [[key m] t] Hin. specialize (Hf _ Hin). simpl in Hf. cbn [get_item].
  by rewrite find_field_present.
Qed.

Lemma typed_object p schema v : typed p schema → rep p v → ∃ fs, v = JObj fs.
Proof. intros (fs & (n & -> & Hn) & _) (m & [= <-] & <-). by exists (present fs). Qed.

Lemma fits_array {A} t (f : A → jval) (l : list A) :
  (∀ x, fits t (f x) = true) → fits (KArray t) (JArr (f <$> l)) = true.
Proof. intros Hf. cbn [fits]. induction l as [|x l IH]; [done|]. rewrite fmap_cons. cbn [forallb]. by rewrite Hf, IH. Qed.

Lemma fits_id z : is_int32 z → fits KId (JStr (c_str (to_string z))) = true.
Proof.
  intros Hz. rewrite c_str_nul_free by (apply to_string_nul_free; unfold is_int32 in Hz; lia).
  cbn [fits]. by rewrite StrToInt32_to_string.
Qed.

End Typed.

Ltac compare_keys :=
  repeat match goal with
         | |- context [key_eq_icase ?a ?b] =>
             let r := eval vm_compute in (key_eq_icase a b) in change (key_eq_icase a b) with r
         end.
Ltac fit_one :=
  cbv iota beta;
  lazymatch goal with
  | |- context [match ?f <$> ?o with Some _ => _ | None => _ end] => destruct o; cbn [fmap option_fmap option_map]
  | |- context [match if ?b then _ else _ with Some _ => _ | None => _ end] => destruct b
  | _ => idtac
  end;
  first [reflexivity | apply fits_id; assumption | apply fits_array; intros; reflexivity].
(** Decides [fields_fit] for a list of members whose keys are known. *)
Ltac fit_members :=
  unfold fields_fit; apply andb_true_iff; split; [vm_compute; reflexivity|];
  cbn [forallb field app]; compare_keys; cbv iota; cbn [negb];
  repeat (apply andb_true_iff; split); fit_one.
