(* ===== verification/PtParams.v ===== *)
(** * Parameters of the protocol requests

    The parameter classes of tooling/dynamic/base/pt_params.{h,cpp}: one record
    per class, with its members, and its [Create], which reads the [params]
    object of a request. The agents call [Create] before they act on a request,
    so a request with a member of the wrong type is answered with an error and
    has no other effect. The schemas at the end say which objects are accepted. *)

From S2P Require Import Prelude Regex Http CppLib Utils PtJson PtCodec PtTypes PtProfile PtSchema.
Local Open Scope Z_scope.
Local Open Scope ark_scope.

(** ** Data *)

Record EnableParams := mkEnableParams {
  en_maxScriptsCacheSize_ : option double;
  en_enableOptionList_ : option (list bytes) }.

Record EvaluateOnCallFrameParams := mkEvaluateOnCallFrameParams {
  ev_callFrameId_ : Z;
  ev_expression_ : bytes;
  ev_objectGroup_ : option bytes;
  ev_includeCommandLineAPI_ : option bool;
  ev_silent_ : option bool;
  ev_returnByValue_ : option bool;
  ev_generatePreview_ : option bool;
  ev_throwOnSideEffect_ : option bool }.

Record ContinueToLocationParams := mkContinueToLocationParams {
  ctl_location_ : Location;
  ctl_targetCallFrames_ : bytes }.

Record GetPossibleBreakpointsParams := mkGetPossibleBreakpointsParams {
  gpb_start_ : Location;
  gpb_end_ : option Location;
  gpb_restrictToFunction_ : option bool }.

Record GetScriptSourceParams := mkGetScriptSourceParams { gss_scriptId_ : Z }.
Record RemoveBreakpointParams := mkRemoveBreakpointParams { rbp_breakpointId_ : bytes }.
Record RemoveBreakpointsByUrlParams := mkRemoveBreakpointsByUrlParams { rbu_url_ : option bytes }.
Record ResumeParams := mkResumeParams { re_terminateOnResume_ : option bool }.
Record SetAsyncCallStackDepthParams := mkSetAsyncCallStackDepthParams { sad_maxDepth_ : Z }.
Record SetBlackboxPatternsParams := mkSetBlackboxPatternsParams { sbb_patterns_ : list bytes }.

Record SetBreakpointByUrlParams := mkSetBreakpointByUrlParams {
  sbu_lineNumber_ : Z;
  sbu_url_ : option bytes;
  sbu_urlRegex_ : option bytes;
  sbu_scriptHash_ : option bytes;
  sbu_columnNumber_ : option Z;
  sbu_condition_ : option bytes }.

Record SetBreakpointsActiveParams := mkSetBreakpointsActiveParams { sba_breakpointsState_ : option bool }.
Record SetSkipAllPausesParams := mkSetSkipAllPausesParams { ssp_skipAllPausesState_ : option bool }.
Record GetPossibleAndSetBreakpointParams := mkGetPossibleAndSetBreakpointParams {
  gps_breakpointsList_ : option (list BreakpointInfo) }.

Inductive PauseOnExceptionsState := POE_NONE | POE_UNCAUGHT | POE_ALL.
#[export] Instance PauseOnExceptionsState_eq_dec : EqDecision PauseOnExceptionsState.
Proof. solve_decision. Defined.
Record SetPauseOnExceptionsParams := mkSetPauseOnExceptionsParams { spe_state_ : PauseOnExceptionsState }.

Record StepIntoParams := mkStepIntoParams {
  si_breakOnAsyncCall_ : option bool;
  si_skipList_ : option (list LocationRange) }.
Record SmartStepIntoParams := mkSmartStepIntoParams { ssi_sbpParams_ : SetBreakpointByUrlParams }.
Record StepOverParams := mkStepOverParams { so_skipList_ : option (list LocationRange) }.
Record DropFrameParams := mkDropFrameParams { df_droppedDepth_ : option Z }.
Record SetNativeRangeParams := mkSetNativeRangeParams { snr_nativeRange_ : list NativeRange }.
Record ResetSingleStepperParams := mkResetSingleStepperParams { rss_resetSingleStepper_ : bool }.
Record SetMixedDebugParams := mkSetMixedDebugParams {
  smd_enabled_ : bool;
  smd_mixedStackEnabled_ : bool }.
Record ReplyNativeCallingParams := mkReplyNativeCallingParams { rnc_userCode_ : bool }.

Record GetPropertiesParams := mkGetPropertiesParams {
  gp_objectId_ : Z;
  gp_ownProperties_ : option bool;
  gp_accessorPropertiesOnly_ : option bool;
  gp_generatePreview_ : option bool;
  gp_startIndex_ : option Z;
  gp_groupCount_ : option Z }.

Record CallFunctionOnParams := mkCallFunctionOnParams {
  cfo_callFrameId_ : Z;
  cfo_functionDeclaration_ : bytes;
  cfo_objectId_ : option Z;
  cfo_arguments_ : option (list CallArgument);
  cfo_silent_ : option bool;
  cfo_returnByValue_ : option bool;
  cfo_generatePreview_ : option bool;
  cfo_userGesture_ : option bool;
  cfo_awaitPromise_ : option bool;
  cfo_executionContextId_ : option Z;
  cfo_objectGroup_ : option bytes;
  cfo_throwOnSideEffect_ : option bool }.

Record StartSamplingParams := mkStartSamplingParams { ss_samplingInterval_ : option double }.
Record StartTrackingHeapObjectsParams := mkStartTrackingHeapObjectsParams {
  sth_trackAllocations_ : option bool }.
Record StopTrackingHeapObjectsParams := mkStopTrackingHeapObjectsParams {
  pth_reportProgress_ : option bool;
  pth_treatGlobalObjectsAsRoots_ : option bool;
  pth_captureNumericValue_ : option bool;
  pth_nativeAddrToNodeIdMap_ : option Z }.
Record AddInspectedHeapObjectParams := mkAddInspectedHeapObjectParams { aih_heapObjectId_ : Z }.
Record GetHeapObjectIdParams := mkGetHeapObjectIdParams { gho_objectId_ : Z }.
Record GetObjectByHeapObjectIdParams := mkGetObjectByHeapObjectIdParams {
  gob_objectId_ : Z;
  gob_objectGroup_ : option bytes }.
Record StartPreciseCoverageParams := mkStartPreciseCoverageParams {
  spc_callCount_ : option bool;
  spc_detailed_ : option bool;
  spc_allowTriggeredUpdates_ : option bool }.
Record SetSamplingIntervalParams := mkSetSamplingIntervalParams { ssv_interval_ : Z }.
Record RecordClockSyncMarkerParams := mkRecordClockSyncMarkerParams { rcs_syncId_ : bytes }.
Record RequestMemoryDumpParams := mkRequestMemoryDumpParams {
  rmd_deterministic_ : option bool;
  rmd_levelOfDetail_ : option bytes }.
Record SeriliazationTimeoutCheckEnableParams := mkSeriliazationTimeoutCheckEnableParams {
  stc_threshold_ : Z }.
Record SaveAllPossibleBreakpointsParams := mkSaveAllPossibleBreakpointsParams {
  sap_breakpointsMap_ : gmap bytes (list BreakpointInfo) }.
Record SetSymbolicBreakpointsParams := mkSetSymbolicBreakpointsParams {
  ssb_functionNamesSet_ : option (gset bytes) }.
Record RemoveSymbolicBreakpointsParams := mkRemoveSymbolicBreakpointsParams {
  rsb_functionNamesSet_ : option (gset bytes) }.

(** The enumerations of the tracing domain. *)
Definition TransferMode_Valid : bytes → bool := one_of (str <$> ["ReportEvents"; "ReturnAsStream"]%string).
Definition MemoryDumpLevelOfDetail_Valid : bytes → bool :=
  one_of (str <$> ["background"; "light"; "detailed"]%string).
Definition StreamCompression_Valid : bytes → bool := one_of (str <$> ["none"; "gzip"]%string).
Definition StreamFormat_Valid : bytes → bool := one_of (str <$> ["json"; "proto"]%string).
Definition TracingBackend_Valid : bytes → bool := one_of (str <$> ["auto"; "chrome"; "system"]%string).

(** ** Accessors that compute *)

(** The result is returned beside the new value of [state_]. *)
Definition StoreState (state : bytes) (state_ : PauseOnExceptionsState) : bool * PauseOnExceptionsState :=
  if bool_decide (state = str "none") then (true, POE_NONE)
  else if bool_decide (state = str "uncaught") then (true, POE_UNCAUGHT)
  else if bool_decide (state = str "all") then (true, POE_ALL)
  else (false, state_).

Definition IsValidRequestUsingRange (x : GetPropertiesParams) : bool :=
  match gp_startIndex_ x, gp_groupCount_ x with
  | Some start, Some count => (0 <=? start) && (0 <? count)
  | _, _ => false
  end.

Section Params.
Context `{cj : CJson} `{CastOob}.

(** ** Reading: the debugger domain *)

(** Elements of [options] that are not strings are left out. *)
Definition string_items (q : PtJson) : list bytes :=
  omap (λ i, let option := Get q i in if IsString option then Some (AsString option) else None)
    (seqZ 0 (GetSize q)).

Definition EnableParams_Create (params : PtJson) : created EnableParams := finish (
  maxScriptsCacheSize <- want (GetDouble params "maxScriptsCacheSize") None
            "Wrong type of 'maxScriptsCacheSize';" ;;
  options <- want (map_result string_items (GetArray params "options")) None "Wrong type of 'options';" ;;
  p_ret (mkEnableParams maxScriptsCacheSize options)).

Definition EvaluateOnCallFrameParams_Create (params : PtJson) : created EvaluateOnCallFrameParams := finish (
  callFrameId <- need_as to_int32 (GetString params "callFrameId") 0
            "Failed to convert 'callFrameId' from string to int;" "Unknown or wrong type of 'callFrameId';" ;;
  expression <- need (GetString params "expression") [] "Unknown or wrong type of 'expression';" ;;
  objectGroup <- want (GetString params "objectGroup") None "Wrong type of 'objectGroup';" ;;
  includeCommandLineAPI <- want (GetBool params "includeCommandLineAPI") None
            "Wrong type of 'includeCommandLineAPI';" ;;
  silent <- want (GetBool params "silent") None "Wrong type of 'silent';" ;;
  returnByValue <- want (GetBool params "returnByValue") None "Wrong type of 'returnByValue';" ;;
  generatePreview <- want (GetBool params "generatePreview") None "Wrong type of 'generatePreview';" ;;
  throwOnSideEffect <- want (GetBool params "throwOnSideEffect") None "Wrong type of 'throwOnSideEffect';" ;;
  p_ret (mkEvaluateOnCallFrameParams callFrameId expression objectGroup includeCommandLineAPI silent
           returnByValue generatePreview throwOnSideEffect)).

Definition ContinueToLocationParams_Create (params : PtJson) : created ContinueToLocationParams := finish (
  location <- need_as Location_Create (GetObject params "location") Location_init
            "'location' is invalid;" "Unknown or wrong type of 'location';" ;;
  targetCallFrames <- need (GetString params "targetCallFrames") [] "Unknown 'targetCallFrames';" ;;
  p_ret (mkContinueToLocationParams location targetCallFrames)).

Definition GetPossibleBreakpointsParams_Create (params : PtJson) : created GetPossibleBreakpointsParams := finish (
  start <- need_as Location_Create (GetObject params "start") Location_init
            "'start' is invalid;" "Unknown or wrong type of 'start';" ;;
  end' <- want_as Location_Create (GetObject params "end") None "'end' is invalid;" "Wrong type of 'end';" ;;
  restrictToFunction <- want (GetBool params "restrictToFunction") None
            "Wrong type of 'restrictToFunction';" ;;
  p_ret (mkGetPossibleBreakpointsParams start end' restrictToFunction)).

Definition GetScriptSourceParams_Create (params : PtJson) : created GetScriptSourceParams := finish (
  scriptId <- need_as to_int32 (GetString params "scriptId") 0
            "Failed to convert 'scriptId' from string to int;" "Unknown or wrong type of'scriptId';" ;;
  p_ret (mkGetScriptSourceParams scriptId)).

Definition RemoveBreakpointParams_Create (params : PtJson) : created RemoveBreakpointParams := finish (
  breakpointId <- need (GetString params "breakpointId") [] "Unknown or wrong type of 'breakpointId';" ;;
  p_ret (mkRemoveBreakpointParams breakpointId)).

Definition RemoveBreakpointsByUrlParams_Create (params : PtJson) : created RemoveBreakpointsByUrlParams := finish (
  url <- need (map_result Some (GetString params "url")) None "Wrong or unknown type of 'url'" ;;
  p_ret (mkRemoveBreakpointsByUrlParams url)).

Definition ResumeParams_Create (params : PtJson) : created ResumeParams := finish (
  terminateOnResume <- want (GetBool params "terminateOnResume") None "Wrong type of 'terminateOnResume';" ;;
  p_ret (mkResumeParams terminateOnResume)).

Definition SetAsyncCallStackDepthParams_Create (params : PtJson) : created SetAsyncCallStackDepthParams := finish (
  maxDepth <- need (GetInt params "maxDepth") 0 "Unknown or wrong type of 'maxDepth';" ;;
  p_ret (mkSetAsyncCallStackDepthParams maxDepth)).

(** An element of [patterns]; the message is the one that is appended. *)
Definition pattern_item (item : PtJson) : created bytes :=
  if IsString item then Created (AsString item) else Rejected "'patterns' items should be a String;".

Definition SetBlackboxPatternsParams_Create (params : PtJson) : created SetBlackboxPatternsParams := finish (
  patterns <- need_each pattern_item (GetArray params "patterns")
            "'patterns' items should be a String;" "Unknown or wrong type of 'patterns';" ;;
  p_ret (mkSetBlackboxPatternsParams patterns)).

Definition SetBreakpointByUrlParams_Create (params : PtJson) : created SetBreakpointByUrlParams := finish (
  lineNumber <- need (GetInt params "lineNumber") 0 "Unknown or wrong type of 'lineNumber';" ;;
  url <- want (GetString params "url") None "Wrong type of 'url';" ;;
  urlRegex <- want (GetString params "urlRegex") None "Wrong type of 'urlRegex';" ;;
  scriptHash <- want (GetString params "scriptHash") None "Wrong type of 'scriptHash';" ;;
  columnNumber <- want (GetInt params "columnNumber") (Some 0) "Wrong type of 'columnNumber';" ;;
  condition <- want (GetString params "condition") None "Wrong type of 'condition';" ;;
  p_ret (mkSetBreakpointByUrlParams lineNumber url urlRegex scriptHash columnNumber condition)).

Definition SetBreakpointsActiveParams_Create (params : PtJson) : created SetBreakpointsActiveParams := finish (
  breakpointsState <- need (map_result Some (GetBool params "active")) None "Unknown or wrong type of 'active';" ;;
  p_ret (mkSetBreakpointsActiveParams breakpointsState)).

Definition SetSkipAllPausesParams_Create (params : PtJson) : created SetSkipAllPausesParams := finish (
  skipAllPausesState <- need (map_result Some (GetBool params "skip")) None "Unknown or wrong type of 'skip';" ;;
  p_ret (mkSetSkipAllPausesParams skipAllPausesState)).

Definition GetPossibleAndSetBreakpointParams_Create (params : PtJson)
    : created GetPossibleAndSetBreakpointParams := finish (
  breakpointsList <- want_until BreakpointInfo_Create (GetArray params "locations")
            "'breakpoints' items BreakpointInfo is invaild;" "Wrong type of 'breakpoints';" ;;
  p_ret (mkGetPossibleAndSetBreakpointParams breakpointsList)).

(** The result of [StoreState] is not looked at. *)
Definition SetPauseOnExceptionsParams_Create (params : PtJson) : created SetPauseOnExceptionsParams := finish (
  state <- need (map_result (λ s, (StoreState s POE_ALL).2) (GetString params "state")) POE_ALL
            "Unknown or wrong type of'state';" ;;
  p_ret (mkSetPauseOnExceptionsParams state)).

Definition StepIntoParams_Create (params : PtJson) : created StepIntoParams := finish (
  breakOnAsyncCall <- want (GetBool params "breakOnAsyncCall") None "Wrong type of 'breakOnAsyncCall';" ;;
  skipList <- want_until LocationRange_Create (GetArray params "skipList")
            "'skipList' items LocationRange is invalid;" "Wrong type of 'skipList';" ;;
  p_ret (mkStepIntoParams breakOnAsyncCall skipList)).

(** [if (!params.Contains(key)) params.Add(key, ...);] *)
Definition unless_contains (key : string) (add : string → PtJson → PtJson) (params : PtJson) : PtJson :=
  if negb (Contains params key) then add key params else params.

(** Adds the members that are missing to the object of the request, which the
    copy of the [PtJson] shares. *)
Definition AddRequireParams (params : PtJson) : PtJson :=
  params
  ▷ unless_contains "urlRegex" (λ key, addS key [])
  ▷ unless_contains "scriptHash" (λ key, addS key [])
  ▷ unless_contains "columnNumber" (λ key, addI key 0)
  ▷ unless_contains "condition" (λ key, addS key []).

Definition SmartStepIntoParams_Create (params : PtJson) : created SmartStepIntoParams :=
  match SetBreakpointByUrlParams_Create (AddRequireParams params) with
  | Created sbpObject => Created (mkSmartStepIntoParams sbpObject)
  | Rejected e => Rejected e
  | Thrown => Thrown
  | NoFuel => NoFuel
  end.

Definition StepOverParams_Create (params : PtJson) : created StepOverParams := finish (
  skipList <- want_until LocationRange_Create (GetArray params "skipList")
            "'skipList' items LocationRange is invalid;" "Wrong type of 'skipList';" ;;
  p_ret (mkStepOverParams skipList)).

Definition DropFrameParams_Create (params : PtJson) : created DropFrameParams := finish (
  droppedDepth <- want (GetUInt params "droppedDepth") None "Wrong type of 'droppedDepth';" ;;
  p_ret (mkDropFrameParams droppedDepth)).

Definition SetNativeRangeParams_Create (params : PtJson) : created SetNativeRangeParams := finish (
  nativeRange <- want_until NativeRange_Create (GetArray params "nativeRange")
            "'nativeRange' is invalid;" "Unknown 'nativeRange';" ;;
  p_ret (mkSetNativeRangeParams (default [] nativeRange))).

Definition SetMixedDebugParams_Create (params : PtJson) : created SetMixedDebugParams := finish (
  enabled <- want (GetBool params "enabled") (Some false) "Wrong type of 'enabled';" ;;
  mixedStackEnabled <- want (GetBool params "mixedStackEnabled") (Some false) "Wrong type of 'enabled';" ;;
  p_ret (mkSetMixedDebugParams (default false enabled) (default false mixedStackEnabled))).

Definition ResetSingleStepperParams_Create (params : PtJson) : created ResetSingleStepperParams := finish (
  resetSingleStepper <- want (GetBool params "resetSingleStepper") (Some false)
            "Wrong type of 'resetSingleStepper';" ;;
  p_ret (mkResetSingleStepperParams (default false resetSingleStepper))).

Definition ReplyNativeCallingParams_Create (params : PtJson) : created ReplyNativeCallingParams := finish (
  userCode <- want (GetBool params "userCode") (Some false) "Wrong type of 'userCode';" ;;
  p_ret (mkReplyNativeCallingParams (default false userCode))).

(** ** Reading: the runtime and the heap profiler *)

Definition GetPropertiesParams_Create (params : PtJson) : created GetPropertiesParams := finish (
  objectId <- need_as to_int32 (GetString params "objectId") 0
            "Failed to convert 'objectId' from string to int;" "Unknown or wrong type of 'objectId';" ;;
  ownProperties <- want (GetBool params "ownProperties") None "Wrong type of 'ownProperties';" ;;
  accessorPropertiesOnly <- want (GetBool params "accessorPropertiesOnly") None
            "Wrong type of 'accessorPropertiesOnly';" ;;
  generatePreview <- want (GetBool params "generatePreview") None "Wrong type of 'generatePreview';" ;;
  startIndex <- want (GetInt params "start") None "Wrong type of 'start';" ;;
  groupCount <- want (GetInt params "count") None "Wrong type of 'count';" ;;
  p_ret (mkGetPropertiesParams objectId ownProperties accessorPropertiesOnly generatePreview startIndex
           groupCount)).

Definition CallFunctionOnParams_Create (params : PtJson) : created CallFunctionOnParams := finish (
  callFrameId <- need_as to_int32 (GetString params "callFrameId") 0
            "Failed to convert 'callFrameId' from string to int;" "Unknown or wrong type of 'callFrameId';" ;;
  functionDeclaration <- need (GetString params "functionDeclaration") []
            "Unknown or wrong type of 'functionDeclaration';" ;;
  objectId <- want_as to_int32 (GetString params "objectId") None
            "Failed to convert 'objectId' from string to int;" "Wrong type of 'objectId';" ;;
  arguments <- want_until CallArgument_Create (GetArray params "arguments")
            "'arguments' items CallArgument is invaild;" "Wrong type of 'arguments';" ;;
  silent <- want (GetBool params "silent") None "Wrong type of 'silent';" ;;
  returnByValue <- want (GetBool params "returnByValue") None "Wrong type of 'returnByValue';" ;;
  generatePreview <- want (GetBool params "generatePreview") None "Wrong type of 'generatePreview';" ;;
  userGesture <- want (GetBool params "userGesture") None "Wrong type of 'userGesture';" ;;
  awaitPromise <- want (GetBool params "awaitPromise") None "Wrong type of 'awaitPromise';" ;;
  executionContextId <- want (GetInt params "executionContextId") None
            "Wrong type of 'executionContextId';" ;;
  objectGroup <- want (GetString params "objectGroup") None "Wrong type of 'objectGroup';" ;;
  throwOnSideEffect <- want (GetBool params "throwOnSideEffect") None "Wrong type of 'throwOnSideEffect';" ;;
  p_ret (mkCallFunctionOnParams callFrameId functionDeclaration objectId arguments silent returnByValue
           generatePreview userGesture awaitPromise executionContextId objectGroup throwOnSideEffect)).

Definition positive_interval (d : double) : created double :=
  if double_nonpos d then Rejected "Invalid SamplingInterval" else Created d.

Definition StartSamplingParams_Create (params : PtJson) : created StartSamplingParams := finish (
  samplingInterval <- want_as positive_interval (GetDouble params "samplingInterval") (Some (DFin 32768 0))
            "Invalid SamplingInterval" "Wrong type of 'samplingInterval';" ;;
  p_ret (mkStartSamplingParams samplingInterval)).

Definition StartTrackingHeapObjectsParams_Create (params : PtJson)
    : created StartTrackingHeapObjectsParams := finish (
  trackAllocations <- want (GetBool params "trackAllocations") None "Wrong type of 'trackAllocations';" ;;
  p_ret (mkStartTrackingHeapObjectsParams trackAllocations)).

Definition StopTrackingHeapObjectsParams_Create (params : PtJson)
    : created StopTrackingHeapObjectsParams := finish (
  reportProgress <- want (GetBool params "reportProgress") None "Wrong type of 'reportProgress';" ;;
  treatGlobalObjectsAsRoots <- want (GetBool params "treatGlobalObjectsAsRoots") None
            "Wrong type of 'treatGlobalObjectsAsRoots';" ;;
  captureNumericValue <- want (GetBool params "captureNumericValue") None
            "Wrong type of 'captureNumericValue';" ;;
  nativeAddrToNodeIdMap <- want (GetInt params "nativeAddrToNodeIdMap") None
            "Wrong type of 'nativeAddrToNodeIdMap';" ;;
  p_ret (mkStopTrackingHeapObjectsParams reportProgress treatGlobalObjectsAsRoots captureNumericValue
           nativeAddrToNodeIdMap)).

Definition AddInspectedHeapObjectParams_Create (params : PtJson)
    : created AddInspectedHeapObjectParams := finish (
  heapObjectId <- need_as to_int32 (GetString params "heapObjectId") 0
            "Failed to convert 'heapObjectId' from string to int;" "Unknown or wrong type of 'heapObjectId';" ;;
  p_ret (mkAddInspectedHeapObjectParams heapObjectId)).

(** The id keeps its initial value 0 when it is absent. *)
Definition GetHeapObjectIdParams_Create (params : PtJson) : created GetHeapObjectIdParams := finish (
  objectId <- want_as to_int32 (GetString params "objectId") (Some 0)
            "Failed to convert 'objectId' from string to int;" "Wrong type of 'objectId';" ;;
  p_ret (mkGetHeapObjectIdParams (default 0 objectId))).

Definition GetObjectByHeapObjectIdParams_Create (params : PtJson)
    : created GetObjectByHeapObjectIdParams := finish (
  objectId <- want_as to_int32 (GetString params "objectId") (Some 0)
            "Failed to convert 'objectId' from string to int;" "Wrong type of 'objectId';" ;;
  objectGroup <- want (GetString params "objectGroup") None "Wrong type of 'objectGroup';" ;;
  p_ret (mkGetObjectByHeapObjectIdParams (default 0 objectId) objectGroup)).

(** ** Reading: the profiler and tracing *)

Definition StartPreciseCoverageParams_Create (params : PtJson) : created StartPreciseCoverageParams := finish (
  callCount <- want (GetBool params "callCount") None "Wrong type of 'callCount';" ;;
  detailed <- want (GetBool params "detailed") None "Wrong type of 'detailed';" ;;
  allowTriggeredUpdates <- want (GetBool params "allowTriggeredUpdates") None
            "Wrong type of 'allowTriggeredUpdates';" ;;
  p_ret (mkStartPreciseCoverageParams callCount detailed allowTriggeredUpdates)).

Definition SetSamplingIntervalParams_Create (params : PtJson) : created SetSamplingIntervalParams := finish (
  interval <- need (GetInt params "interval") 0 "Unknown or wrong type of 'interval';" ;;
  p_ret (mkSetSamplingIntervalParams interval)).

Definition RecordClockSyncMarkerParams_Create (params : PtJson) : created RecordClockSyncMarkerParams := finish (
  syncId <- need (GetString params "syncId") [] "Unknown or wrong type of 'syncId';" ;;
  p_ret (mkRecordClockSyncMarkerParams syncId)).

Definition RequestMemoryDumpParams_Create (params : PtJson) : created RequestMemoryDumpParams := finish (
  deterministic <- want (GetBool params "deterministic") None "Wrong type of 'deterministic';" ;;
  levelOfDetail <- want_as (if_valid MemoryDumpLevelOfDetail_Valid) (GetString params "levelOfDetail") None
            "'levelOfDetail' is invalid;" "Wrong type of 'levelOfDetail';" ;;
  p_ret (mkRequestMemoryDumpParams deterministic levelOfDetail)).

Record StartParams := mkStartParams {
  st_categories_ : option bytes;
  st_options_ : option bytes;
  st_bufferUsageReportingInterval_ : option Z;
  st_transferMode_ : option bytes;
  st_streamFormat_ : option bytes;
  st_streamCompression_ : option bytes;
  st_traceConfig_ : option TraceConfig;
  st_perfettoConfig_ : option bytes;
  st_tracingBackend_ : option bytes }.

Definition StartParams_Create (params : PtJson) : created StartParams := finish (
  categories <- want (GetString params "categories") None "Wrong type of 'categories';" ;;
  options <- want (GetString params "options") None "Wrong type of 'options';" ;;
  bufferUsageReportingInterval <- want (GetInt params "bufferUsageReportingInterval") None
            "Wrong type of 'bufferUsageReportingInterval';" ;;
  transferMode <- want_as (if_valid TransferMode_Valid) (GetString params "transferMode") None
            "'transferMode' is invalid;" "Wrong type of 'transferMode';" ;;
  streamFormat <- want_as (if_valid StreamFormat_Valid) (GetString params "streamFormat") None
            "'streamFormat' is invalid;" "Wrong type of 'streamFormat';" ;;
  streamCompression <- want_as (if_valid StreamCompression_Valid) (GetString params "streamCompression") None
            "'streamCompression' is invalid;" "Wrong type of 'streamCompression';" ;;
  traceConfig <- want_as TraceConfig_Create (GetObject params "traceConfig") None
            "'traceConfig' format is invalid;" "Wrong type of 'traceConfig';" ;;
  perfettoConfig <- want (GetString params "perfettoConfig") None "Wrong type of 'perfettoConfig';" ;;
  tracingBackend <- want_as (if_valid TracingBackend_Valid) (GetString params "tracingBackend") None
            "'tracingBackend' is invalid;" "Wrong type of 'tracingBackend';" ;;
  p_ret (mkStartParams categories options bufferUsageReportingInterval transferMode streamFormat
           streamCompression traceConfig perfettoConfig tracingBackend)).

Definition SeriliazationTimeoutCheckEnableParams_Create (params : PtJson)
    : created SeriliazationTimeoutCheckEnableParams := finish (
  threshold <- need (GetInt params "threshold") 8 "Unknown or wrong type of 'threshold';" ;;
  p_ret (mkSeriliazationTimeoutCheckEnableParams threshold)).

(** ** Reading: breakpoints of many files, symbolic breakpoints

    [json.Add("url", key)] changes the element itself. [GetArray] finds the first
    array whose key agrees with [key] up to case, so the url that an element has
    when it is read is the one that was added first, under the first such key. *)
Definition first_key (keys : list string) (key : string) : string :=
  default key (snd <$> list_find (λ k, key_eq_icase key k = true) keys).

Fixpoint save_keys (locationList : PtJson) (all keys : list string) (breakpointMap : gmap bytes (list BreakpointInfo))
    : P (gmap bytes (list BreakpointInfo)) :=
  match keys with
  | [] => p_ret breakpointMap
  | key :: keys' => λ e,
      match GetArray locationList key with
      | SUCCESS breakpoints =>
          p_bind (λ breakpointList, save_keys locationList all keys' (<[str key := breakpointList]> breakpointMap))
            (until (λ json, BreakpointInfo_Create (addS "url" (str (first_key all key)) json))
               "'breakpoints' items BreakpointInfo is invalid;" breakpoints) e
      | TYPE_ERROR => save_keys locationList all keys' breakpointMap (e +:+ "Wrong type of 'breakpoints'")
      | NOT_EXIST => save_keys locationList all keys' breakpointMap e
      end
  end.

Definition keys_of (p : PtJson) : list string := match p with None => [] | Some o => child_keys o end.

Definition SaveAllPossibleBreakpointsParams_Create (params : PtJson) : created SaveAllPossibleBreakpointsParams :=
  match GetObject params "locations" with
  | SUCCESS locationList => finish (
      breakpointMap <- save_keys locationList (keys_of locationList) (keys_of locationList) ∅ ;;
      p_ret (mkSaveAllPossibleBreakpointsParams breakpointMap))
  | _ => Rejected EmptyString
  end.

Fixpoint function_names_from (q : PtJson) (i n : nat) (functionNamesSet : gset bytes) : P (gset bytes) :=
  match n with
  | O => p_ret functionNamesSet
  | S n' => λ e,
      match GetString (Get q (Z.of_nat i)) "functionName" with
      | SUCCESS functionName => function_names_from q (S i) n' ({[functionName]} ∪ functionNamesSet) e
      | TYPE_ERROR => function_names_from q (S i) n' functionNamesSet (e +:+ "Wrong type of 'functionName';")
      | NOT_EXIST => function_names_from q (S i) n' functionNamesSet (e +:+ "'functionName' no exists;")
      end
  end.

Definition SetSymbolicBreakpointsParams_Create (params : PtJson) : created SetSymbolicBreakpointsParams :=
  match GetArray params "symbolicBreakpoints" with
  | SUCCESS symbolicBreakpoints => finish (
      functionNamesSet <- function_names_from symbolicBreakpoints 0 (Z.to_nat (GetSize symbolicBreakpoints)) ∅ ;;
      p_ret (mkSetSymbolicBreakpointsParams (Some functionNamesSet)))
  | _ => Rejected EmptyString
  end.

Definition RemoveSymbolicBreakpointsParams_Create (params : PtJson) : created RemoveSymbolicBreakpointsParams :=
  match GetArray params "symbolicBreakpoints" with
  | SUCCESS symbolicBreakpoints => finish (
      functionNamesSet <- function_names_from symbolicBreakpoints 0 (Z.to_nat (GetSize symbolicBreakpoints)) ∅ ;;
      p_ret (mkRemoveSymbolicBreakpointsParams (Some functionNamesSet)))
  | _ => Rejected EmptyString
  end.

End Params.

(** ** Schemas *)

Definition Location_schema : ktype :=
  KFields ["scriptId" :! KId; "lineNumber" :! KNumber; "columnNumber" :? KNumber].
Definition ScriptPosition_schema : ktype := KFields ["lineNumber" :! KNumber; "columnNumber" :! KNumber].
Definition LocationRange_schema : ktype :=
  KFields ["scriptId" :! KId; "start" :! KObject ScriptPosition_schema; "end" :! KObject ScriptPosition_schema].
Definition NativeRange_schema : ktype := KFields ["start" :! KNumber; "end" :! KNumber].
Definition BreakpointInfo_schema : ktype :=
  KFields ["lineNumber" :! KNumber; "columnNumber" :! KNumber; "url" :! KString; "condition" :? KString;
           "urlRegex" :? KString; "scriptHash" :? KString; "restrictToFunction" :? KBool].
Definition CallArgument_schema : ktype := KFields ["unserializableValue" :? KString; "objectId" :? KId].
Definition TraceConfig_schema : ktype :=
  KFields ["recordMode" :? KOneOf RecordMode_Valid; "enableSampling" :? KBool; "enableSystrace" :? KBool;
           "enableArgumentFilter" :? KBool; "includedCategories" :? KArray KAny;
           "excludedCategories" :? KArray KAny; "syntheticDelays" :? KArray KAny;
           "memoryDumpConfig" :? KObject KAny].
Definition SetBreakpointByUrl_schema : ktype :=
  KFields ["lineNumber" :! KNumber; "url" :? KString; "urlRegex" :? KString; "scriptHash" :? KString;
           "columnNumber" :? KNumber; "condition" :? KString].
Definition skipList_schema : list (string * bool * ktype) := ["skipList" :? KArray LocationRange_schema].

Section Schemas.
Context `{cj : CJson} {cjOK : CJsonOK cj} `{CastOob}.

Lemma Location_decides : decides Location_Create Location_schema.
Proof. decide_create. Qed.
Lemma ScriptPosition_decides : decides ScriptPosition_Create ScriptPosition_schema.
Proof. decide_create. Qed.
Hint Resolve Location_decides ScriptPosition_decides : ark_schema.
Lemma LocationRange_decides : decides LocationRange_Create LocationRange_schema.
Proof. decide_create. Qed.
Lemma NativeRange_decides : decides NativeRange_Create NativeRange_schema.
Proof. decide_create. Qed.
Lemma BreakpointInfo_decides : decides BreakpointInfo_Create BreakpointInfo_schema.
Proof. decide_create. Qed.
Lemma CallArgument_decides : decides CallArgument_Create CallArgument_schema.
Proof. decide_create. Qed.
Lemma TraceConfig_decides : decides TraceConfig_Create TraceConfig_schema.
Proof. decide_create. Qed.
Lemma pattern_item_decides : decides pattern_item KString.
Proof.
  intros p v (n & -> & <-). unfold pattern_item, IsString. rewrite IsString_view.
  destruct (view n); simpl; by eexists.
Qed.
Hint Resolve LocationRange_decides NativeRange_decides BreakpointInfo_decides CallArgument_decides
  TraceConfig_decides pattern_item_decides : ark_schema.

Lemma checks_sampling p v : rep p v →
  checks (want_as positive_interval (GetDouble p "samplingInterval") (Some (DFin 32768 0))
    "Invalid SamplingInterval" "Wrong type of 'samplingInterval';") (wants KPositive v "samplingInterval").
Proof.
  intros Hp. apply checks_want_as; [done|]. rewrite (GetDouble_view p v _ Hp). unfold wants.
  destruct (get_item v "samplingInterval") as [[]|]; try done. apply checks_convert; [done|].
  apply converts_some. unfold converts, positive_interval. cbn [fits].
  destruct (double_nonpos d); by eexists.
Qed.
Hint Resolve checks_sampling : ark_schema.

Lemma SetBreakpointByUrl_decides : decides SetBreakpointByUrlParams_Create SetBreakpointByUrl_schema.
Proof. decide_create. Qed.

(** C36: the readers of the parameters of the debugger domain accept exactly
    the objects that have the shape their schema gives, and report an error for
    every other object; none of them throws. In particular "url" is optional in
    a breakpoint request, and any text is accepted as the state of
    setPauseOnExceptions. *)
Theorem debugger_params_accepted :
  decides EnableParams_Create
    (KFields ["maxScriptsCacheSize" :? KNumber; "options" :? KArray KAny]) ∧
  decides EvaluateOnCallFrameParams_Create
    (KFields ["callFrameId" :! KId; "expression" :! KString; "objectGroup" :? KString;
              "includeCommandLineAPI" :? KBool; "silent" :? KBool; "returnByValue" :? KBool;
              "generatePreview" :? KBool; "throwOnSideEffect" :? KBool]) ∧
  decides ContinueToLocationParams_Create
    (KFields ["location" :! KObject Location_schema; "targetCallFrames" :! KString]) ∧
  decides GetPossibleBreakpointsParams_Create
    (KFields ["start" :! KObject Location_schema; "end" :? KObject Location_schema;
              "restrictToFunction" :? KBool]) ∧
  decides GetScriptSourceParams_Create (KFields ["scriptId" :! KId]) ∧
  decides RemoveBreakpointParams_Create (KFields ["breakpointId" :! KString]) ∧
  decides RemoveBreakpointsByUrlParams_Create (KFields ["url" :! KString]) ∧
  decides ResumeParams_Create (KFields ["terminateOnResume" :? KBool]) ∧
  decides SetAsyncCallStackDepthParams_Create (KFields ["maxDepth" :! KNumber]) ∧
  decides SetBlackboxPatternsParams_Create (KFields ["patterns" :! KArray KString]) ∧
  decides SetBreakpointByUrlParams_Create SetBreakpointByUrl_schema ∧
  decides SetBreakpointsActiveParams_Create (KFields ["active" :! KBool]) ∧
  decides SetSkipAllPausesParams_Create (KFields ["skip" :! KBool]) ∧
  decides GetPossibleAndSetBreakpointParams_Create (KFields ["locations" :? KArray BreakpointInfo_schema]) ∧
  decides SetPauseOnExceptionsParams_Create (KFields ["state" :! KString]) ∧
  decides StepIntoParams_Create (KFields (("breakOnAsyncCall" :? KBool) :: skipList_schema)) ∧
  decides StepOverParams_Create (KFields skipList_schema) ∧
  decides DropFrameParams_Create (KFields ["droppedDepth" :? KNumber]) ∧
  decides SetNativeRangeParams_Create (KFields ["nativeRange" :? KArray NativeRange_schema]) ∧
  decides SetMixedDebugParams_Create (KFields ["enabled" :? KBool; "mixedStackEnabled" :? KBool]) ∧
  decides ResetSingleStepperParams_Create (KFields ["resetSingleStepper" :? KBool]) ∧
  decides ReplyNativeCallingParams_Create (KFields ["userCode" :? KBool]).
Proof. split_and!; decide_create. Qed.

(** The same for the parameters of the other domains. *)
Theorem other_params_accepted :
  decides GetPropertiesParams_Create
    (KFields ["objectId" :! KId; "ownProperties" :? KBool; "accessorPropertiesOnly" :? KBool;
              "generatePreview" :? KBool; "start" :? KNumber; "count" :? KNumber]) ∧
  decides CallFunctionOnParams_Create
    (KFields ["callFrameId" :! KId; "functionDeclaration" :! KString; "objectId" :? KId;
              "arguments" :? KArray CallArgument_schema; "silent" :? KBool; "returnByValue" :? KBool;
              "generatePreview" :? KBool; "userGesture" :? KBool; "awaitPromise" :? KBool;
              "executionContextId" :? KNumber; "objectGroup" :? KString; "throwOnSideEffect" :? KBool]) ∧
  decides StartSamplingParams_Create (KFields ["samplingInterval" :? KPositive]) ∧
  decides StartTrackingHeapObjectsParams_Create (KFields ["trackAllocations" :? KBool]) ∧
  decides StopTrackingHeapObjectsParams_Create
    (KFields ["reportProgress" :? KBool; "treatGlobalObjectsAsRoots" :? KBool;
              "captureNumericValue" :? KBool; "nativeAddrToNodeIdMap" :? KNumber]) ∧
  decides AddInspectedHeapObjectParams_Create (KFields ["heapObjectId" :! KId]) ∧
  decides GetHeapObjectIdParams_Create (KFields ["objectId" :? KId]) ∧
  decides GetObjectByHeapObjectIdParams_Create (KFields ["objectId" :? KId; "objectGroup" :? KString]) ∧
  decides StartPreciseCoverageParams_Create
    (KFields ["callCount" :? KBool; "detailed" :? KBool; "allowTriggeredUpdates" :? KBool]) ∧
  decides SetSamplingIntervalParams_Create (KFields ["interval" :! KNumber]) ∧
  decides RecordClockSyncMarkerParams_Create (KFields ["syncId" :! KString]) ∧
  decides RequestMemoryDumpParams_Create
    (KFields ["deterministic" :? KBool; "levelOfDetail" :? KOneOf MemoryDumpLevelOfDetail_Valid]) ∧
  decides StartParams_Create
    (KFields ["categories" :? KString; "options" :? KString; "bufferUsageReportingInterval" :? KNumber;
              "transferMode" :? KOneOf TransferMode_Valid; "streamFormat" :? KOneOf StreamFormat_Valid;
              "streamCompression" :? KOneOf StreamCompression_Valid;
              "traceConfig" :? KObject TraceConfig_schema; "perfettoConfig" :? KString;
              "tracingBackend" :? KOneOf TracingBackend_Valid]) ∧
  decides SeriliazationTimeoutCheckEnableParams_Create (KFields ["threshold" :! KNumber]).
Proof. split_and!; decide_create. Qed.

(** *** Members that the server adds *)

Lemma Contains_view p fs key : rep p (JObj fs) →
  Contains p key = bool_decide (is_Some (find_field (String.eqb key) fs)).
Proof.
  intros (n & -> & Hn). unfold Contains. pose proof (GetObjectItemCaseSensitive_view n key) as E.
  rewrite Hn in E. cbn [get_item_exact] in E. rewrite <- E.
  by destruct (cJSON_GetObjectItemCaseSensitive (Some n) key).
Qed.

Lemma add_member p fs key node w : rep p (JObj fs) → rep node w →
  Contains p key = false → rep (AddNode p key node).2 (JObj (fs ++ [(key, w)])).
Proof.
  intros (n & -> & Hn) (m & -> & <-) Hc. unfold AddNode. rewrite Hc.
  destruct (AddItemToObject_view n key m _ Hn) as (o & -> & Ho). by exists o.
Qed.

(** The object is extended at its end, so what was found before is still found. *)
Definition extends (v v' : jval) : Prop :=
  ∃ fs new, v = JObj fs ∧ v' = JObj (fs ++ new) ∧
    Forall (λ f : string * jval, f.1 ∈ ["urlRegex"; "scriptHash"; "condition"]%string ∧ f.2 = JStr [] ∨
                   f.1 = "columnNumber"%string ∧ f.2 = JNum (DFin 0 0)) new.

Lemma extends_trans v1 v2 v3 : extends v1 v2 → extends v2 v3 → extends v1 v3.
Proof.
  intros (fs & n1 & -> & -> & H1) (? & n2 & [= <-] & -> & H2). exists fs, (n1 ++ n2).
  rewrite <- app_assoc. split_and!; [done..|]. by apply Forall_app.
Qed.

Lemma unless_contains_extends p v key add w :
  rep p v → (∃ fs, v = JObj fs) → (∀ q, add key q = (AddNode q key (if w is JNum d then cJSON_CreateNumber d else cJSON_CreateString [])).2) →
  key ∈ ["urlRegex"; "scriptHash"; "condition"]%string ∧ w = JStr [] ∨ key = "columnNumber"%string ∧ w = JNum (DFin 0 0) →
  ∃ v', rep (unless_contains key add p) v' ∧ extends v v'.
Proof.
  intros Hp (fs & ->) Ha Hk. unfold unless_contains. destruct (Contains p key) eqn:Ec; simpl.
  - exists (JObj fs). split; [done|]. exists fs, []. by rewrite app_nil_r.
  - exists (JObj (fs ++ [(key, w)])). split.
    + rewrite Ha. apply add_member; [done| |done].
      destruct Hk as [[_ ->]|[_ ->]]; [apply CreateString_view|apply CreateNumber_view].
    + exists fs, [(key, w)]. split_and!; [done..|]. constructor; [by destruct Hk; [left|right]|done].
Qed.

Lemma AddRequireParams_extends p fs : rep p (JObj fs) →
  ∃ v', rep (AddRequireParams p) v' ∧ extends (JObj fs) v'.
Proof.
  intros Hp. unfold AddRequireParams.
  destruct (unless_contains_extends p _ "urlRegex" (λ key, addS key []) (JStr []) Hp) as (v1 & H1 & E1);
    [by eexists|done|left; split; [set_solver|done]|].
  destruct (unless_contains_extends _ _ "scriptHash" (λ key, addS key []) (JStr []) H1) as (v2 & H2 & E2);
    [destruct E1 as (? & ? & _ & -> & _); by eexists|done|left; split; [set_solver|done]|].
  destruct (unless_contains_extends _ _ "columnNumber" (λ key, addI key 0) (JNum (DFin 0 0)) H2) as (v3 & H3 & E3);
    [destruct E2 as (? & ? & _ & -> & _); by eexists|done|by right|].
  destruct (unless_contains_extends _ _ "condition" (λ key, addS key []) (JStr []) H3) as (v4 & H4 & E4);
    [destruct E3 as (? & ? & _ & -> & _); by eexists|done|left; split; [set_solver|done]|].
  exists v4. eauto using extends_trans.
Qed.

Lemma find_field_Some p fs w : find_field p fs = Some w → ∃ k, (k, w) ∈ fs ∧ p k = true.
Proof.
  induction fs as [|[k x] fs IH]; [done|]. rewrite find_field_cons. destruct (p k) eqn:Ek.
  - intros [= ->]. exists k. split; [left|done].
  - intros (k' & ? & ?)%IH. exists k'. split; [by right|done].
Qed.

(** The members that are added fit their types. *)
Lemma extends_wants v v' key t :
  extends v v' →
  (∀ k w, key_eq_icase key k = true →
     k ∈ ["urlRegex"; "scriptHash"; "condition"]%string ∧ w = JStr [] ∨ k = "columnNumber"%string ∧ w = JNum (DFin 0 0) →
     fits t w = true) →
  wants t v' key = wants t v key.
Proof.
  intros (fs & new & -> & -> & Hn) Ht. unfold wants. cbn [get_item]. rewrite find_field_app.
  destruct (find_field (key_eq_icase key) fs); [done|].
  destruct (find_field (key_eq_icase key) new) as [w|] eqn:E; [|done].
  apply find_field_Some in E as (k & Hin & Hk). rewrite Forall_forall in Hn. by apply (Ht k), (Hn _ Hin).
Qed.

Lemma extends_needs v v' key t :
  extends v v' →
  (∀ k, key_eq_icase key k = true → k ∉ ["urlRegex"; "scriptHash"; "condition"; "columnNumber"]%string) →
  needs t v' key = needs t v key ∧ wants t v' key = wants t v key.
Proof.
  intros Hx Hk. assert (E : get_item v' key = get_item v key).
  { destruct Hx as (fs & new & -> & -> & Hn). cbn [get_item]. rewrite find_field_app.
    destruct (find_field (key_eq_icase key) fs); [done|]. apply find_field_none.
    eapply Forall_impl; [exact Hn|]. intros [k w] Hw. apply not_true_iff_false. intros Ek.
    specialize (Hk k Ek). destruct Hw as [[Hw _]|[Hw _]]; set_solver. }
  unfold needs, wants. by rewrite E.
Qed.

Lemma extends_fits v v' :
  extends v v' → fits SetBreakpointByUrl_schema v' = fits SetBreakpointByUrl_schema v.
Proof.
  intros Hx. assert (E : ∀ v, fits SetBreakpointByUrl_schema v =
    needs KNumber v "lineNumber" && (wants KString v "url" && (wants KString v "urlRegex" &&
    (wants KString v "scriptHash" && (wants KNumber v "columnNumber" && (wants KString v "condition" && true))))))
    by done.
  rewrite !E. clear E.
  assert (Hk : ∀ key t, key ∈ ["lineNumber"; "url"]%string →
    needs t v' key = needs t v key ∧ wants t v' key = wants t v key).
  { intros key t Hkey. apply (extends_needs _ _ _ _ Hx). intros k Ek Hin.
    repeat (apply elem_of_cons in Hkey as [->|Hkey]); [..|by apply elem_of_nil in Hkey];
      (repeat (apply elem_of_cons in Hin as [->|Hin]); [done..|by apply elem_of_nil in Hin]). }
  assert (Hs : ∀ key, key ∈ ["urlRegex"; "scriptHash"; "condition"]%string →
    wants KString v' key = wants KString v key).
  { intros key Hkey. apply (extends_wants _ _ _ _ Hx). intros k w Ek [[_ ->]|[-> ->]]; [done|].
    repeat (apply elem_of_cons in Hkey as [->|Hkey]); [done..|by apply elem_of_nil in Hkey]. }
  rewrite (proj1 (Hk "lineNumber"%string KNumber ltac:(set_solver))),
    (proj2 (Hk "url"%string KString ltac:(set_solver))), !Hs by set_solver.
  rewrite (extends_wants v v' "columnNumber" KNumber Hx); [done|].
  intros k w Ek [[Hin ->]|[-> ->]]; [|done].
  repeat (apply elem_of_cons in Hin as [->|Hin]); [done..|by apply elem_of_nil in Hin].
Qed.

(** A request to step into a chosen function is accepted exactly when it would
    be accepted as a breakpoint: the members the server adds change nothing. *)
Theorem smart_step_accepted p fs : rep p (JObj fs) →
  verdict (SmartStepIntoParams_Create p) (fits SetBreakpointByUrl_schema (JObj fs)).
Proof.
  intros Hp. destruct (AddRequireParams_extends p fs Hp) as (v' & Hv' & Hx).
  pose proof (SetBreakpointByUrl_decides _ _ Hv') as Hd. rewrite (extends_fits _ _ Hx) in Hd.
  unfold SmartStepIntoParams_Create, verdict in *.
  destruct (fits _ _); [destruct Hd as (x & ->)|destruct Hd as (e & -> & ?)]; by eexists.
Qed.

(** *** Symbolic breakpoints *)

Lemma function_names_checks q vs : arr q vs → ∀ ws i names, drop i vs = ws →
  checks (function_names_from q i (length ws) names) (forallb (fits (KFields ["functionName" :! KString])) ws).
Proof.
  intros Hq. induction ws as [|w ws IH]; intros i names Hdr; [apply checks_ret|].
  assert (Hi : vs !! i = Some w) by (rewrite <- (Nat.add_0_r i), <- lookup_drop, Hdr; done).
  assert (Hn : drop (S i) vs = ws) by (rewrite <- (Nat.add_1_r i), <- drop_drop, Hdr; done).
  assert (Hbad : ∀ msg, msg ≠ EmptyString → checks
     (λ e, function_names_from q (S i) (length ws) names (e +:+ msg)) false).
  { intros msg Hm. eapply checks_eq; [|apply (andb_false_l (forallb (fits (KFields ["functionName" :! KString])) ws))].
    eapply checks_ext, (checks_bind (λ _ : unit, function_names_from q (S i) (length ws) names)
      (λ e, SOk tt (e +:+ msg)) false); [done|by apply (checks_fail _ tt msg)|intros _; by apply IH]. }
  cbn [length function_names_from forallb fits]. rewrite (GetString_rep _ w _ (Get_item q vs i w Hq Hi)).
  destruct (get_item w "functionName") as [[]|]; simpl; try by apply Hbad. by apply IH.
Qed.

Definition symbolic_schema : ktype :=
  KFields ["symbolicBreakpoints" :! KArray (KFields ["functionName" :! KString])].

(** The requests about symbolic breakpoints are accepted when every element of
    the array has a function name. *)
Theorem symbolic_params_accepted p v : rep p v →
  converts (SetSymbolicBreakpointsParams_Create p) (fits symbolic_schema v) ∧
  converts (RemoveSymbolicBreakpointsParams_Create p) (fits symbolic_schema v).
Proof.
  intros Hp. unfold SetSymbolicBreakpointsParams_Create, RemoveSymbolicBreakpointsParams_Create.
  pose proof (GetArray_view p v "symbolicBreakpoints" Hp) as Hg. unfold symbolic_schema.
  cbn [fits forallb]. rewrite andb_true_r.
  destruct (get_item v "symbolicBreakpoints") as [[]|]; try (rewrite Hg; split; by eexists).
  destruct Hg as (q & -> & Hq).
  rewrite (GetSize_arr q items) by done. rewrite Nat2Z.id.
  split; apply verdict_converts, finish_verdict; rewrite <- (andb_true_r (forallb _ _));
    (apply checks_bind; [apply (function_names_checks q items Hq); apply drop_0|intros; apply checks_ret]).
Qed.

End Schemas.

(** *** Witnesses *)

#[local] Existing Instance tree_cjson.
#[local] Existing Instance tree_cjson_ok.
#[local] Existing Instance demo_oob.

(** A breakpoint request without a url, and one whose line is text. *)
Definition demo_no_url : jval := JObj [("lineNumber"%string, JNum (DFin 12 0))].
Definition demo_bad_line : jval := JObj [("lineNumber"%string, JStr (str "12"))].

Definition demo_request (v : jval) : PtJson := Some v.

Lemma debugger_params_accepted_witness :
  (∃ x, SetBreakpointByUrlParams_Create (demo_request demo_no_url) = Created x) ∧
  (∃ error, SetBreakpointByUrlParams_Create (demo_request demo_bad_line) = Rejected error ∧ error ≠ EmptyString).
Proof.
  pose proof (proj1 (proj2 (proj2 (proj2 (proj2 (proj2 (proj2 (proj2 (proj2 (proj2 (proj2
      debugger_params_accepted))))))))))) as Hd.
  split; [apply (Hd _ demo_no_url)|apply (Hd _ demo_bad_line)]; by eexists.
Defined.

Lemma smart_step_accepted_witness : ∃ x, SmartStepIntoParams_Create (demo_request demo_no_url) = Created x.
Proof.
  apply (smart_step_accepted (demo_request demo_no_url) [("lineNumber"%string, JNum (DFin 12 0))]).
  by eexists.
Defined.
