(* ===== verification/PtEvents.v ===== *)
(** * Protocol events

    The notifications the server sends: the classes of
    tooling/dynamic/base/pt_events.{h,cpp} with their [ToJson]. Every event is an
    object with the members "method", the name of the event, and "params".
    [AsyncStack], [StackFrame] and [TraceEvent] are classes of the virtual
    machine; of them only the members that [ToJson] reads are modelled, and the
    chain of parents of an asynchronous stack, which ends where the weak pointer
    to the parent has expired, is finite. *)

From S2P Require Import Prelude Regex Http CppLib Utils PtJson PtCodec PtTypes PtProfile PtSchema.
Local Open Scope Z_scope.
Local Open Scope ark_scope.

(** ** Data *)

Record BreakpointResolved := mkBreakpointResolved {
  ber_breakpointId_ : bytes;
  ber_location_ : Location }.

Record StackFrame := mkStackFrame {
  sf_functionName : bytes;
  sf_url : bytes;
  sf_scriptId : Z;
  sf_lineNumber : Z;
  sf_columnNumber : Z }.

#[warnings="-register-all"]
Inductive AsyncStack := mkAsyncStack (frames : list StackFrame) (description : bytes) (parent : option AsyncStack).

Inductive PauseReason :=
| AMBIGUOUS | ASSERT | DEBUGCOMMAND | DOM | EVENTLISTENER | EXCEPTION | INSTRUMENTATION | OOM | OTHER
| PROMISEREJECTION | XHR | BREAK_ON_START | STEP | DEBUGGERSTMT | NATIVE_OUT | SYMBOL.
#[export] Instance PauseReason_eq_dec : EqDecision PauseReason.
Proof. solve_decision. Defined.

Definition GetReasonString (reason : PauseReason) : bytes :=
  str match reason with
      | AMBIGUOUS => "ambiguous"
      | ASSERT => "assert"
      | DEBUGCOMMAND => "debugCommand"
      | DOM => "DOM"
      | EVENTLISTENER => "EventListener"
      | EXCEPTION => "exception"
      | INSTRUMENTATION => "instrumentation"
      | OOM => "OOM"
      | OTHER => "other"
      | PROMISEREJECTION => "promiseRejection"
      | XHR => "XHR"
      | BREAK_ON_START => "Break on start"
      | DEBUGGERSTMT => "Debugger statement"
      | STEP => "Step"
      | NATIVE_OUT => "Native out"
      | SYMBOL => "Symbol"
      end.

Record Paused := mkPaused {
  pa_callFrames_ : list CallFrame;
  pa_asyncStack_ : option AsyncStack;
  pa_reason_ : bytes;
  pa_data_ : option RemoteObject;
  pa_hitBreakpoints_ : option (list bytes);
  pa_asyncCallChainDepth_ : Z }.

Record NativeCalling := mkNativeCalling {
  nc_nativeAddress_ : Z;
  nc_isStepInto_ : option bool }.
Record MixedStack := mkMixedStack {
  ms_nativePointer_ : list Z;
  ms_callFrames_ : list CallFrame }.

Record ScriptFailedToParse := mkScriptFailedToParse {
  sfp_scriptId_ : Z;
  sfp_url_ : bytes;
  sfp_startLine_ : Z;
  sfp_startColumn_ : Z;
  sfp_endLine_ : Z;
  sfp_endColumn_ : Z;
  sfp_executionContextId_ : Z;
  sfp_hash_ : bytes;
  sfp_sourceMapUrl_ : option bytes;
  sfp_hasSourceUrl_ : option bool;
  sfp_isModule_ : option bool;
  sfp_length_ : option Z;
  sfp_codeOffset_ : option Z;
  sfp_scriptLanguage_ : option bytes;
  sfp_embedderName_ : option bytes }.

Record ScriptParsed := mkScriptParsed {
  sp_scriptId_ : Z;
  sp_url_ : bytes;
  sp_startLine_ : Z;
  sp_startColumn_ : Z;
  sp_endLine_ : Z;
  sp_endColumn_ : Z;
  sp_executionContextId_ : Z;
  sp_hash_ : bytes;
  sp_isLiveEdit_ : option bool;
  sp_sourceMapUrl_ : option bytes;
  sp_hasSourceUrl_ : option bool;
  sp_isModule_ : option bool;
  sp_length_ : option Z;
  sp_codeOffset_ : option Z;
  sp_scriptLanguage_ : option bytes;
  sp_embedderName_ : option bytes;
  sp_locations_ : list BreakpointReturnInfo }.

Record AddHeapSnapshotChunk := mkAddHeapSnapshotChunk { ahc_chunk_ : bytes }.
Record AddHeapSnapshotExtraInfo := mkAddHeapSnapshotExtraInfo { ahe_extraInfo_ : bytes }.
Record ConsoleProfileFinished := mkConsoleProfileFinished {
  cpf_id_ : bytes;
  cpf_location_ : Location;
  cpf_profile_ : Profile;
  cpf_title_ : option bytes }.
Record ConsoleProfileStarted := mkConsoleProfileStarted {
  cps_id_ : bytes;
  cps_location_ : Location;
  cps_title_ : option bytes }.
Record PreciseCoverageDeltaUpdate := mkPreciseCoverageDeltaUpdate {
  pcd_timestamp_ : Z;
  pcd_occasion_ : bytes;
  pcd_result_ : list ScriptCoverage }.
Record HeapStatsUpdate := mkHeapStatsUpdate { hsu_statsUpdate_ : list Z }.
Record LastSeenObjectId := mkLastSeenObjectId {
  lso_lastSeenObjectId_ : Z;
  lso_timestamp_ : double }.
Record ReportHeapSnapshotProgress := mkReportHeapSnapshotProgress {
  rhs_done_ : Z;
  rhs_total_ : Z;
  rhs_finished_ : option bool }.
Record BufferUsage := mkBufferUsage {
  bu_percentFull_ : option double;
  bu_eventCount_ : option Z;
  bu_value_ : option double }.
Record TraceEvent := mkTraceEvent {
  tev_args_ : bytes;
  tev_cat_ : bytes;
  tev_dur_ : Z;
  tev_id_ : bytes;
  tev_name_ : bytes;
  tev_ph_ : bytes;
  tev_pid_ : Z;
  tev_s_ : bytes;
  tev_tdur_ : Z;
  tev_tid_ : Z;
  tev_ts_ : Z;
  tev_tts_ : Z }.
Record DataCollected := mkDataCollected { dc_traceEvents_ : list TraceEvent }.
Record TracingComplete := mkTracingComplete {
  tcm_dataLossOccurred_ : bool;
  tcm_traceFormat_ : option bytes;
  tcm_streamCompression_ : option bytes }.

(** ** Writing *)

Section Events.
Context `{cj : CJson}.

(** The last statements of every [ToJson]. *)
Definition notification (name : string) (result : PtJson) : PtJson :=
  CreateObject ▷ addS "method" (str name) ▷ addJ "params" result.

Definition BreakpointResolved_ToJson (x : BreakpointResolved) : PtJson :=
  notification "Debugger.breakpointResolved" (
    CreateObject
    ▷ addS "breakpointId" (ber_breakpointId_ x)
    ▷ addJ "location" (Location_ToJson (ber_location_ x))).

Definition StackFrame_ToJson (x : StackFrame) : PtJson :=
  CreateObject
  ▷ addS "functionName" (sf_functionName x)
  ▷ addI "scriptId" (sf_scriptId x)
  ▷ addS "url" (sf_url x)
  ▷ addI "lineNumber" (sf_lineNumber x)
  ▷ addI "columnNumber" (sf_columnNumber x).

(** [if (parent && depth) { depth--; ... }]: a depth that is negative does not
    stop the recursion. *)
Fixpoint AsyncStack_ToJson (x : AsyncStack) (asyncCallChainDepth : Z) : PtJson :=
  let 'mkAsyncStack frames description parent := x in
  CreateObject
  ▷ addJ "callFrames" (pushAll (λ array f, pushJ array (StackFrame_ToJson f)) frames)
  ▷ addS "description" description
  ▷ match parent with
    | Some sharedAsyncStack =>
        ifTrue (negb (asyncCallChainDepth =? 0))
          (addJ "parent" (AsyncStack_ToJson sharedAsyncStack (asyncCallChainDepth - 1)))
    | None => id
    end.

Definition Paused_ToJson (x : Paused) : PtJson :=
  notification "Debugger.paused" (
    CreateObject
    ▷ addJ "callFrames" (pushAll (λ array f, pushJ array (CallFrame_ToJson f)) (pa_callFrames_ x))
    ▷ addS "reason" (pa_reason_ x)
    ▷ ifSome (pa_data_ x) (λ data, addJ "data" (RemoteObject_ToJson data))
    ▷ ifSome (pa_hitBreakpoints_ x) (λ l, addJ "hitBreakpoints" (pushAll pushS l))
    ▷ ifSome (pa_asyncStack_ x) (λ asyncStack,
        ifTrue (negb (pa_asyncCallChainDepth_ x =? 0))
          (addJ "asyncStackTrace" (AsyncStack_ToJson asyncStack (pa_asyncCallChainDepth_ x - 1))))).

Definition Resumed_ToJson : PtJson := notification "Debugger.resumed" CreateObject.

Definition NativeCalling_ToJson (x : NativeCalling) : PtJson :=
  notification "Debugger.nativeCalling" (
    CreateObject
    ▷ addI "nativeAddress" (nc_nativeAddress_ x)
    ▷ addB "isStepInto" (default false (nc_isStepInto_ x))).

Definition MixedStack_ToJson (x : MixedStack) : PtJson :=
  notification "Debugger.mixedStack" (
    CreateObject
    ▷ addJ "nativePointer" (pushAll pushI (ms_nativePointer_ x))
    ▷ addJ "callFrames" (pushAll (λ array f, pushJ array (CallFrame_ToJson f)) (ms_callFrames_ x))).

Definition ScriptFailedToParse_ToJson (x : ScriptFailedToParse) : PtJson :=
  notification "Debugger.scriptFailedToParse" (
    CreateObject
    ▷ addS "scriptId" (to_string (sfp_scriptId_ x))
    ▷ addS "url" (sfp_url_ x)
    ▷ addI "startLine" (sfp_startLine_ x)
    ▷ addI "startColumn" (sfp_startColumn_ x)
    ▷ addI "endLine" (sfp_endLine_ x)
    ▷ addI "endColumn" (sfp_endColumn_ x)
    ▷ addI "executionContextId" (sfp_executionContextId_ x)
    ▷ addS "hash" (sfp_hash_ x)
    ▷ ifSome (sfp_sourceMapUrl_ x) (addS "sourceMapURL")
    ▷ ifSome (sfp_hasSourceUrl_ x) (addB "hasSourceURL")
    ▷ ifSome (sfp_isModule_ x) (addB "isModule")
    ▷ ifSome (sfp_length_ x) (addI "length")
    ▷ ifSome (sfp_codeOffset_ x) (addI "codeOffset")
    ▷ ifSome (sfp_scriptLanguage_ x) (addS "scriptLanguage")
    ▷ ifSome (sfp_embedderName_ x) (addS "embedderName")).

Definition ScriptParsed_ToJson (x : ScriptParsed) : PtJson :=
  notification "Debugger.scriptParsed" (
    CreateObject
    ▷ addS "scriptId" (to_string (sp_scriptId_ x))
    ▷ addS "url" (sp_url_ x)
    ▷ addI "startLine" (sp_startLine_ x)
    ▷ addI "startColumn" (sp_startColumn_ x)
    ▷ addI "endLine" (sp_endLine_ x)
    ▷ addI "endColumn" (sp_endColumn_ x)
    ▷ addI "executionContextId" (sp_executionContextId_ x)
    ▷ addS "hash" (sp_hash_ x)
    ▷ ifSome (sp_isLiveEdit_ x) (addB "isLiveEdit")
    ▷ ifSome (sp_sourceMapUrl_ x) (addS "sourceMapURL")
    ▷ ifSome (sp_hasSourceUrl_ x) (addB "hasSourceURL")
    ▷ ifSome (sp_isModule_ x) (addB "isModule")
    ▷ ifSome (sp_length_ x) (addI "length")
    ▷ ifSome (sp_codeOffset_ x) (addI "codeOffset")
    ▷ ifSome (sp_scriptLanguage_ x) (addS "scriptLanguage")
    ▷ ifSome (sp_embedderName_ x) (addS "embedderName")
    ▷ addJ "locations" (pushAll (λ array l, pushJ array (BreakpointReturnInfo_ToJson l)) (sp_locations_ x))).

Definition AddHeapSnapshotChunk_ToJson (x : AddHeapSnapshotChunk) : PtJson :=
  notification "HeapProfiler.addHeapSnapshotChunk" (CreateObject ▷ addS "chunk" (ahc_chunk_ x)).
Definition AddHeapSnapshotExtraInfo_ToJson (x : AddHeapSnapshotExtraInfo) : PtJson :=
  notification "HeapProfiler.addHeapSnapshotExtraInfo" (CreateObject ▷ addS "extraInfo" (ahe_extraInfo_ x)).

Definition ConsoleProfileFinished_ToJson (x : ConsoleProfileFinished) : PtJson :=
  notification "Profile.ConsoleProfileFinished" (
    CreateObject
    ▷ addS "id" (cpf_id_ x)
    ▷ addJ "location" (Location_ToJson (cpf_location_ x))
    ▷ addJ "profile" (Profile_ToJson (cpf_profile_ x))
    ▷ ifSome (cpf_title_ x) (addS "title")).

Definition ConsoleProfileStarted_ToJson (x : ConsoleProfileStarted) : PtJson :=
  notification "Profile.ConsoleProfileStarted" (
    CreateObject
    ▷ addS "id" (cps_id_ x)
    ▷ addJ "location" (Location_ToJson (cps_location_ x))
    ▷ ifSome (cps_title_ x) (addS "title")).

Definition PreciseCoverageDeltaUpdate_ToJson (x : PreciseCoverageDeltaUpdate) : PtJson :=
  notification "Profile.PreciseCoverageDeltaUpdate" (
    CreateObject
    ▷ addI "timestamp" (pcd_timestamp_ x)
    ▷ addS "occasion" (pcd_occasion_ x)
    ▷ addJ "result" (pushAll (λ array r, pushJ array (ScriptCoverage_ToJson r)) (pcd_result_ x))).

Definition HeapStatsUpdate_ToJson (x : HeapStatsUpdate) : PtJson :=
  notification "HeapProfiler.heapStatsUpdate" (
    CreateObject ▷ addJ "statsUpdate" (pushAll pushI (hsu_statsUpdate_ x))).

Definition LastSeenObjectId_ToJson (x : LastSeenObjectId) : PtJson :=
  notification "HeapProfiler.lastSeenObjectId" (
    CreateObject
    ▷ addI "lastSeenObjectId" (lso_lastSeenObjectId_ x)
    ▷ addD "timestamp" (lso_timestamp_ x)).

Definition ReportHeapSnapshotProgress_ToJson (x : ReportHeapSnapshotProgress) : PtJson :=
  notification "HeapProfiler.reportHeapSnapshotProgress" (
    CreateObject
    ▷ addI "done" (rhs_done_ x)
    ▷ addI "total" (rhs_total_ x)
    ▷ ifSome (rhs_finished_ x) (addB "finished")).

Definition BufferUsage_ToJson (x : BufferUsage) : PtJson :=
  notification "Tracing.bufferUsage" (
    CreateObject
    ▷ ifSome (bu_percentFull_ x) (addD "percentFull")
    ▷ ifSome (bu_eventCount_ x) (addI "eventCount")
    ▷ ifSome (bu_value_ x) (addD "value")).

(** [if (!text.empty())] and [if (number != 0)]. *)
Definition filled (s : bytes) : bool := negb (bool_decide (s = [])).
Definition nonzero (z : Z) : bool := negb (z =? 0).

Definition TraceEventToJson (x : TraceEvent) : PtJson :=
  CreateObject
  ▷ addJ "args" (Parse (tev_args_ x))
  ▷ addS "cat" (tev_cat_ x)
  ▷ ifTrue (nonzero (tev_dur_ x)) (addI "dur" (tev_dur_ x))
  ▷ ifTrue (filled (tev_id_ x)) (addS "id" (tev_id_ x))
  ▷ addS "name" (tev_name_ x)
  ▷ addS "ph" (tev_ph_ x)
  ▷ addI "pid" (tev_pid_ x)
  ▷ ifTrue (filled (tev_s_ x)) (addS "s" (tev_s_ x))
  ▷ ifTrue (nonzero (tev_tdur_ x)) (addI "tdur" (tev_tdur_ x))
  ▷ addI "tid" (tev_tid_ x)
  ▷ addI "ts" (tev_ts_ x)
  ▷ ifTrue (nonzero (tev_tts_ x)) (addI "tts" (tev_tts_ x)).

Definition DataCollected_ToJson (x : DataCollected) : PtJson :=
  notification "Tracing.dataCollected" (
    CreateObject
    ▷ addJ "value" (pushAll (λ traceEvents e, pushJ traceEvents (TraceEventToJson e)) (dc_traceEvents_ x))).

Definition TracingComplete_ToJson (x : TracingComplete) : PtJson :=
  notification "Tracing.tracingComplete" (
    CreateObject
    ▷ addB "dataLossOccurred" (tcm_dataLossOccurred_ x)
    ▷ ifSome (tcm_traceFormat_ x) (addS "traceFormat")
    ▷ ifSome (tcm_streamCompression_ x) (addS "streamCompression")).

End Events.

(** ** Properties *)

Section EventProperties.
Context `{cj : CJson} {cjOK : CJsonOK cj} `{CastOob}.
#[local] Hint Resolve Location_obj RemoteObject_obj CallFrame_obj BreakpointReturnInfo_obj Profile_obj
  ScriptCoverage_obj : ark_json.

(** The event is an object with the name and the parameters, which are typed. *)
Definition event_typed (p : PtJson) (name : string) (schema : list (string * bool * ktype)) : Prop :=
  ∃ fs, obj p [fS "method" (str name); ("params"%string, Some (JObj (present fs)))] ∧
    keys_ok fs = true ∧ fields_fit schema fs = true.

Lemma notification_typed name result schema :
  typed result schema → event_typed (notification name result) name schema.
Proof.
  intros (fs & Ho & Hk & Hf). exists fs. split; [|done]. unfold notification.
  eapply (addJ_obj "params" result fs _ [fS "method" (str name)]); [|done|done].
  eapply (addS_obj "method" (str name) _ []); [apply CreateObject_obj|done].
Qed.

(** *** Asynchronous stacks *)

Definition StackFrame_fields (x : StackFrame) : list (string * option jval) :=
  [fS "functionName" (sf_functionName x); fI "scriptId" (sf_scriptId x); fS "url" (sf_url x);
   fI "lineNumber" (sf_lineNumber x); fI "columnNumber" (sf_columnNumber x)].
Lemma StackFrame_obj x : obj (StackFrame_ToJson x) (StackFrame_fields x).
Proof. build_obj. Qed.
#[local] Hint Resolve StackFrame_obj : ark_json.

(** The stack and its parents, and the JSON value of such a chain. *)
Fixpoint async_chain (x : AsyncStack) : list (list StackFrame * bytes) :=
  let 'mkAsyncStack frames description parent := x in
  (frames, description) :: match parent with Some p => async_chain p | None => [] end.

Fixpoint chain_fields (frames : list StackFrame) (description : bytes) (l : list (list StackFrame * bytes))
    : list (string * option jval) :=
  [fA StackFrame_fields "callFrames" frames; fS "description" description;
   ("parent"%string, match l with
                     | [] => None
                     | (f, d) :: l' => Some (JObj (present (chain_fields f d l')))
                     end)].

(** The part of a chain that is written: a depth that is negative is no bound. *)
Definition levels_written (depth : Z) (l : list (list StackFrame * bytes)) : list (list StackFrame * bytes) :=
  if depth <? 0 then l else take (Z.to_nat depth) l.

Lemma levels_cons depth x l :
  levels_written depth (x :: l) = if depth =? 0 then [] else x :: levels_written (depth - 1) l.
Proof.
  unfold levels_written. destruct (Z.ltb_spec depth 0), (Z.ltb_spec (depth - 1) 0), (Z.eqb_spec depth 0);
    try lia; [done|by subst|].
  replace (Z.to_nat depth) with (S (Z.to_nat (depth - 1))) by lia. done.
Qed.

Definition chain_json (l : list (list StackFrame * bytes)) : option jval :=
  match l with [] => None | (f, d) :: l' => Some (JObj (present (chain_fields f d l'))) end.

Lemma AsyncStack_obj x : ∀ depth,
  match async_chain x with
  | (f, d) :: l => obj (AsyncStack_ToJson x depth) (chain_fields f d (levels_written depth l))
  | [] => False
  end.
Proof.
  revert x. fix IH 1. intros [frames description [parent|]] depth; cbn [async_chain AsyncStack_ToJson].
  - specialize (IH parent (depth - 1)). destruct parent as [f' d' pp]. cbn [async_chain] in *.
    set (rest := match pp with Some p => async_chain p | None => [] end) in *.
    rewrite levels_cons. destruct (Z.eqb_spec depth 0) as [->|Hd]; cbn [negb ifTrue].
    + eapply obj_eq; [eapply (obj_skip "parent"); build_fields|reflexivity].
    + eapply obj_eq; [eapply (addJ_obj "parent" _ _ _ _); [build_fields|decide_keys|exact IH]|reflexivity].
  - cbn [id]. replace (levels_written depth []) with (@nil (list StackFrame * bytes)).
    + eapply obj_eq; [eapply (obj_skip "parent"); build_fields|reflexivity].
    + unfold levels_written. destruct (depth <? 0); [done|by rewrite take_nil].
Qed.

Definition Paused_fields (x : Paused) : list (string * option jval) :=
  [fA CallFrame_fields "callFrames" (pa_callFrames_ x); fS "reason" (pa_reason_ x);
   oO RemoteObject_fields "data" (pa_data_ x); oStrs "hitBreakpoints" (pa_hitBreakpoints_ x);
   ("asyncStackTrace"%string,
    pa_asyncStack_ x ≫= λ s, chain_json (levels_written (pa_asyncCallChainDepth_ x) (async_chain s)))].

(** The notification of a pause holds the call frames, the reason, the hit
    breakpoints and, nested, the asynchronous stack with its parents: as many
    levels as the depth that the client has set allows. A negative depth, which
    the request that sets it accepts, is no bound: the whole chain is written. *)
Theorem paused_event_fields (x : Paused) :
  obj (Paused_ToJson x)
    [fS "method" (str "Debugger.paused"); ("params"%string, Some (JObj (present (Paused_fields x))))].
Proof.
  unfold Paused_ToJson, notification.
  eapply (addJ_obj "params" _ (Paused_fields x) _ [fS "method" (str "Debugger.paused")]);
    [eapply (addS_obj "method" _ _ []); [apply CreateObject_obj|done]|done|].
  assert (Hs : ∀ p fs, fs.*1 = ["callFrames"; "reason"; "data"; "hitBreakpoints"]%string → obj p fs →
    obj (ifSome (pa_asyncStack_ x) (λ asyncStack, ifTrue (negb (pa_asyncCallChainDepth_ x =? 0))
          (addJ "asyncStackTrace" (AsyncStack_ToJson asyncStack (pa_asyncCallChainDepth_ x - 1)))) p)
      (fs ++ [("asyncStackTrace"%string,
        pa_asyncStack_ x ≫= λ s, chain_json (levels_written (pa_asyncCallChainDepth_ x) (async_chain s)))])).
  { intros p fs Hk Hp. destruct (pa_asyncStack_ x) as [s|]; cbn [ifSome mbind option_bind]; [|by apply obj_skip].
    pose proof (AsyncStack_obj s (pa_asyncCallChainDepth_ x - 1)) as Ha.
    destruct (async_chain s) as [|[f d] l]; [done|]. rewrite levels_cons.
    destruct (Z.eqb_spec (pa_asyncCallChainDepth_ x) 0); cbn [negb ifTrue]; [by apply obj_skip|].
    apply addJ_obj; [done| |done]. unfold fresh. by rewrite Hk. }
  eapply obj_eq; [apply Hs; cycle 1; [build_fields|reflexivity]|reflexivity].
Qed.

(** *** The members of the other events *)

Ltac by_members := eexists; split; [build_fields|split; [decide_keys|fit_members]].

Definition TraceEvent_fields (x : TraceEvent) : list (string * option jval) :=
  let unless_zero key z := (key, if nonzero z then Some (JNum (double_of_Z z)) else None) in
  let unless_nil key t := (key, if filled t then Some (JStr (c_str t)) else None) in
  [("args", view <$> Parse (tev_args_ x)); fS "cat" (tev_cat_ x); unless_zero "dur" (tev_dur_ x);
   unless_nil "id" (tev_id_ x); fS "name" (tev_name_ x); fS "ph" (tev_ph_ x); fI "pid" (tev_pid_ x);
   unless_nil "s" (tev_s_ x); unless_zero "tdur" (tev_tdur_ x); fI "tid" (tev_tid_ x);
   fI "ts" (tev_ts_ x); unless_zero "tts" (tev_tts_ x)]%string.

Lemma TraceEvent_obj x : obj (TraceEventToJson x) (TraceEvent_fields x).
Proof.
  assert (Ha : obj (addJ "args" (Parse (tev_args_ x)) CreateObject) [("args"%string, view <$> Parse (tev_args_ x))]).
  { destruct (Parse (tev_args_ x)) as [n|] eqn:E.
    - apply (AddNode_obj _ [] "args" (Some n) (view n)); [apply CreateObject_obj|done|by exists n].
    - apply (obj_skip "args" _ []). unfold addJ, AddJson, AddNode.
      destruct (Contains CreateObject "args"); apply CreateObject_obj. }
  unfold TraceEventToJson. generalize dependent (addJ "args" (Parse (tev_args_ x)) CreateObject). intros p Ha.
  eapply obj_eq; [build_fields|reflexivity].
Qed.
#[local] Hint Resolve TraceEvent_obj : ark_json.

(** The members of the events about scripts. *)
Definition script_schema : list (string * bool * ktype) :=
  ["scriptId" :! KId; "url" :! KString; "startLine" :! KNumber; "startColumn" :! KNumber;
   "endLine" :! KNumber; "endColumn" :! KNumber; "executionContextId" :! KNumber; "hash" :! KString].

(** C37: the other events are objects with the name of the event and an object
    with exactly the listed members, each of its type; the marked ones may be
    absent. *)
Theorem event_types :
  (∀ x, event_typed (BreakpointResolved_ToJson x) "Debugger.breakpointResolved"
     ["breakpointId" :! KString; "location" :! KObject KAny]) ∧
  event_typed Resumed_ToJson "Debugger.resumed" [] ∧
  (∀ x, event_typed (NativeCalling_ToJson x) "Debugger.nativeCalling"
     ["nativeAddress" :! KNumber; "isStepInto" :! KBool]) ∧
  (∀ x, event_typed (MixedStack_ToJson x) "Debugger.mixedStack"
     ["nativePointer" :! KArray KNumber; "callFrames" :! KArray (KObject KAny)]) ∧
  (∀ x, is_int32 (sfp_scriptId_ x) → event_typed (ScriptFailedToParse_ToJson x) "Debugger.scriptFailedToParse"
     (script_schema ++ ["sourceMapURL" :? KString; "hasSourceURL" :? KBool; "isModule" :? KBool;
       "length" :? KNumber; "codeOffset" :? KNumber; "scriptLanguage" :? KString; "embedderName" :? KString])) ∧
  (∀ x, is_int32 (sp_scriptId_ x) → event_typed (ScriptParsed_ToJson x) "Debugger.scriptParsed"
     (script_schema ++ ["isLiveEdit" :? KBool; "sourceMapURL" :? KString; "hasSourceURL" :? KBool;
       "isModule" :? KBool; "length" :? KNumber; "codeOffset" :? KNumber; "scriptLanguage" :? KString;
       "embedderName" :? KString; "locations" :! KArray (KObject KAny)])) ∧
  (∀ x, event_typed (AddHeapSnapshotChunk_ToJson x) "HeapProfiler.addHeapSnapshotChunk" ["chunk" :! KString]) ∧
  (∀ x, event_typed (AddHeapSnapshotExtraInfo_ToJson x) "HeapProfiler.addHeapSnapshotExtraInfo"
     ["extraInfo" :! KString]) ∧
  (∀ x, event_typed (ConsoleProfileFinished_ToJson x) "Profile.ConsoleProfileFinished"
     ["id" :! KString; "location" :! KObject KAny; "profile" :! KObject KAny; "title" :? KString]) ∧
  (∀ x, event_typed (ConsoleProfileStarted_ToJson x) "Profile.ConsoleProfileStarted"
     ["id" :! KString; "location" :! KObject KAny; "title" :? KString]) ∧
  (∀ x, event_typed (PreciseCoverageDeltaUpdate_ToJson x) "Profile.PreciseCoverageDeltaUpdate"
     ["timestamp" :! KNumber; "occasion" :! KString; "result" :! KArray (KObject KAny)]) ∧
  (∀ x, event_typed (HeapStatsUpdate_ToJson x) "HeapProfiler.heapStatsUpdate"
     ["statsUpdate" :! KArray KNumber]) ∧
  (∀ x, event_typed (LastSeenObjectId_ToJson x) "HeapProfiler.lastSeenObjectId"
     ["lastSeenObjectId" :! KNumber; "timestamp" :! KNumber]) ∧
  (∀ x, event_typed (ReportHeapSnapshotProgress_ToJson x) "HeapProfiler.reportHeapSnapshotProgress"
     ["done" :! KNumber; "total" :! KNumber; "finished" :? KBool]) ∧
  (∀ x, event_typed (BufferUsage_ToJson x) "Tracing.bufferUsage"
     ["percentFull" :? KNumber; "eventCount" :? KNumber; "value" :? KNumber]) ∧
  (∀ x, event_typed (DataCollected_ToJson x) "Tracing.dataCollected" ["value" :! KArray (KObject KAny)]) ∧
  (∀ x, event_typed (TracingComplete_ToJson x) "Tracing.tracingComplete"
     ["dataLossOccurred" :! KBool; "traceFormat" :? KString; "streamCompression" :? KString]).
Proof.
  unfold script_schema. split_and!; intros; apply notification_typed; by_members.
Qed.

End EventProperties.

(** *** Witnesses *)

#[local] Existing Instance tree_cjson.
#[local] Existing Instance tree_cjson_ok.
#[local] Existing Instance demo_oob.

(** A stop with a chain of two stacks, for a depth of one and for a negative one. *)
Definition demo_chain : AsyncStack :=
  mkAsyncStack [] (str "await") (Some (mkAsyncStack [] (str "then") None)).
Definition demo_paused (depth : Z) : Paused :=
  mkPaused [] (Some demo_chain) (str "other") None None depth.

Lemma paused_event_fields_witness :
  obj (Paused_ToJson (demo_paused 1)) [fS "method" (str "Debugger.paused");
    ("params"%string, Some (JObj [("callFrames"%string, JArr []); ("reason"%string, JStr (str "other"));
      ("asyncStackTrace"%string, JObj [("callFrames"%string, JArr []); ("description"%string, JStr (str "await"))])]))] ∧
  levels_written (-1) (async_chain demo_chain) = async_chain demo_chain.
Proof. split; [apply (paused_event_fields (demo_paused 1))|reflexivity]. Defined.

Definition demo_parsed : ScriptParsed :=
  mkScriptParsed 1 (str "a.ets") 0 0 9 0 0 [] None None None None None None None None [].

Lemma event_types_witness :
  event_typed (ScriptParsed_ToJson demo_parsed) "Debugger.scriptParsed"
    (script_schema ++ ["isLiveEdit" :? KBool; "sourceMapURL" :? KString; "hasSourceURL" :? KBool;
       "isModule" :? KBool; "length" :? KNumber; "codeOffset" :? KNumber; "scriptLanguage" :? KString;
       "embedderName" :? KString; "locations" :! KArray (KObject KAny)]).
Proof.
  apply (proj1 (proj2 (proj2 (proj2 (proj2 (proj2 event_types)))))). unfold is_int32. simpl. lia.
Defined.
