(* ===== verification/PtReturns.v ===== *)
(** * Results of the protocol requests

    The classes of tooling/dynamic/base/pt_returns.{h,cpp} with their [ToJson]:
    the object that a response carries as its "result". *)

From S2P Require Import Prelude Regex Http CppLib Utils PtJson PtCodec PtTypes PtProfile PtSchema.
Local Open Scope Z_scope.
Local Open Scope ark_scope.

(** ** Data *)

Record DebuggerEnableReturns := mkDebuggerEnableReturns {
  der_debuggerId_ : Z;
  der_protocols_ : list bytes }.
Record EnableReturns := mkEnableReturns { enr_protocols_ : list bytes }.
Record SetBreakpointByUrlReturns := mkSetBreakpointByUrlReturns {
  sbr_id_ : bytes;
  sbr_locations_ : list Location }.
Record GetPossibleAndSetBreakpointByUrlReturns := mkGetPossibleAndSetBreakpointByUrlReturns {
  gpr_locations_ : list BreakpointReturnInfo }.
Record EvaluateOnCallFrameReturns := mkEvaluateOnCallFrameReturns {
  evr_result_ : RemoteObject;
  evr_exceptionDetails_ : option ExceptionDetails }.
Record GetPossibleBreakpointsReturns := mkGetPossibleBreakpointsReturns {
  gpbr_locations_ : list BreakLocation }.
Record GetScriptSourceReturns := mkGetScriptSourceReturns {
  gsr_scriptSource_ : bytes;
  gsr_bytecode_ : option bytes }.
Record RestartFrameReturns := mkRestartFrameReturns { rfr_callFrames_ : list CallFrame }.
Record SearchInContentReturns := mkSearchInContentReturns { sir_result_ : list SearchMatch }.
Record SetBreakpointReturns := mkSetBreakpointReturns {
  sbpr_breakpointId_ : bytes;
  sbpr_location_ : Location }.
Record SetInstrumentationBreakpointReturns := mkSetInstrumentationBreakpointReturns {
  sibr_breakpointId_ : bytes }.
Record SetScriptSourceReturns := mkSetScriptSourceReturns {
  ssr_callFrames_ : option (list CallFrame);
  ssr_stackChanged_ : option bool;
  ssr_exceptionDetails_ : option ExceptionDetails }.
Record GetPropertiesReturns := mkGetPropertiesReturns {
  gprr_result_ : list PropertyDescriptor;
  gprr_internalPropertyDescripties_ : option (list InternalPropertyDescriptor);
  gprr_privateProperties_ : option (list PrivatePropertyDescriptor);
  gprr_exceptionDetails_ : option ExceptionDetails }.
Record CallFunctionOnReturns := mkCallFunctionOnReturns {
  cfr_result_ : RemoteObject;
  cfr_exceptionDetails_ : option ExceptionDetails }.
Record StopSamplingReturns := mkStopSamplingReturns { stsr_profile_ : SamplingHeapProfile }.
Record GetHeapObjectIdReturns := mkGetHeapObjectIdReturns { ghr_heapSnapshotObjectId_ : Z }.
Record GetObjectByHeapObjectIdReturns := mkGetObjectByHeapObjectIdReturns {
  gobr_remoteObjectResult_ : RemoteObject }.
Record StopReturns := mkStopReturns { stpr_profile_ : Profile }.
Record GetHeapUsageReturns := mkGetHeapUsageReturns {
  hur_usedSize_ : double;
  hur_totalSize_ : double }.
Record GetBestEffortCoverageReturns := mkGetBestEffortCoverageReturns { ber_result_ : list ScriptCoverage }.
Record StartPreciseCoverageReturns := mkStartPreciseCoverageReturns { spr_timestamp_ : Z }.
Record TakePreciseCoverageReturns := mkTakePreciseCoverageReturns {
  tpr_result_ : list ScriptCoverage;
  tpr_timestamp_ : Z }.
Record TakeTypeProfileReturns := mkTakeTypeProfileReturns { ttr_result_ : list ScriptTypeProfile }.
Record GetCategoriesReturns := mkGetCategoriesReturns { gcr_categories_ : list bytes }.
Record RequestMemoryDumpReturns := mkRequestMemoryDumpReturns {
  rmr_dumpGuid_ : bytes;
  rmr_success_ : bool }.

(** [PtBaseReturns] and its subclasses; the base class itself is an empty
    result. *)
Inductive PtBaseReturns :=
| BaseReturns
| OfDebuggerEnable (x : DebuggerEnableReturns)
| OfEnable (x : EnableReturns)
| OfSetBreakpointByUrl (x : SetBreakpointByUrlReturns)
| OfGetPossibleAndSetBreakpointByUrl (x : GetPossibleAndSetBreakpointByUrlReturns)
| OfEvaluateOnCallFrame (x : EvaluateOnCallFrameReturns)
| OfGetPossibleBreakpoints (x : GetPossibleBreakpointsReturns)
| OfGetScriptSource (x : GetScriptSourceReturns)
| OfGetProperties (x : GetPropertiesReturns)
| OfCallFunctionOn (x : CallFunctionOnReturns)
| OfStopSampling (x : StopSamplingReturns)
| OfGetHeapObjectId (x : GetHeapObjectIdReturns)
| OfGetObjectByHeapObjectId (x : GetObjectByHeapObjectIdReturns)
| OfStop (x : StopReturns)
| OfGetHeapUsage (x : GetHeapUsageReturns)
| OfGetCategories (x : GetCategoriesReturns)
| OfRequestMemoryDump (x : RequestMemoryDumpReturns)
| OfGetNavigationHistory.

(** ** Writing *)

Section Returns.
Context `{cj : CJson}.

Definition DebuggerEnableReturns_ToJson (x : DebuggerEnableReturns) : PtJson :=
  CreateObject
  ▷ addS "debuggerId" (to_string (der_debuggerId_ x))
  ▷ addJ "protocols" (pushAll pushS (der_protocols_ x)).

Definition EnableReturns_ToJson (x : EnableReturns) : PtJson :=
  CreateObject ▷ addJ "protocols" (pushAll pushS (enr_protocols_ x)).

Definition SetBreakpointByUrlReturns_ToJson (x : SetBreakpointByUrlReturns) : PtJson :=
  CreateObject
  ▷ addS "breakpointId" (sbr_id_ x)
  ▷ addJ "locations" (pushAll (λ array l, pushJ array (Location_ToJson l)) (sbr_locations_ x)).

Definition GetPossibleAndSetBreakpointByUrlReturns_ToJson (x : GetPossibleAndSetBreakpointByUrlReturns) : PtJson :=
  CreateObject
  ▷ addJ "locations" (pushAll (λ array l, pushJ array (BreakpointReturnInfo_ToJson l)) (gpr_locations_ x)).

Definition EvaluateOnCallFrameReturns_ToJson (x : EvaluateOnCallFrameReturns) : PtJson :=
  CreateObject
  ▷ addJ "result" (RemoteObject_ToJson (evr_result_ x))
  ▷ ifSome (evr_exceptionDetails_ x) (λ d, addJ "exceptionDetails" (ExceptionDetails_ToJson d)).

Definition GetPossibleBreakpointsReturns_ToJson (x : GetPossibleBreakpointsReturns) : PtJson :=
  CreateObject
  ▷ addJ "locations" (pushAll (λ array l, pushJ array (BreakLocation_ToJson l)) (gpbr_locations_ x)).

Definition GetScriptSourceReturns_ToJson (x : GetScriptSourceReturns) : PtJson :=
  CreateObject
  ▷ addS "scriptSource" (gsr_scriptSource_ x)
  ▷ ifSome (gsr_bytecode_ x) (addS "bytecode").

Definition RestartFrameReturns_ToJson (x : RestartFrameReturns) : PtJson :=
  CreateObject
  ▷ addJ "callFrames" (pushAll (λ array f, pushJ array (CallFrame_ToJson f)) (rfr_callFrames_ x)).

Definition SearchInContentReturns_ToJson (x : SearchInContentReturns) : PtJson :=
  CreateObject
  ▷ addJ "result" (pushAll (λ array r, pushJ array (SearchMatch_ToJson r)) (sir_result_ x)).

Definition SetBreakpointReturns_ToJson (x : SetBreakpointReturns) : PtJson :=
  CreateObject
  ▷ addS "breakpointId" (sbpr_breakpointId_ x)
  ▷ addJ "actualLocation" (Location_ToJson (sbpr_location_ x)).

Definition SetInstrumentationBreakpointReturns_ToJson (x : SetInstrumentationBreakpointReturns) : PtJson :=
  CreateObject ▷ addS "breakpointId" (sibr_breakpointId_ x).

Definition SetScriptSourceReturns_ToJson (x : SetScriptSourceReturns) : PtJson :=
  CreateObject
  ▷ ifSome (ssr_callFrames_ x) (λ l,
      addJ "callFrames" (pushAll (λ array f, pushJ array (CallFrame_ToJson f)) l))
  ▷ ifSome (ssr_stackChanged_ x) (addB "stackChanged")
  ▷ ifSome (ssr_exceptionDetails_ x) (λ d, addJ "exceptionDetails" (ExceptionDetails_ToJson d)).

Definition GetPropertiesReturns_ToJson (x : GetPropertiesReturns) : PtJson :=
  CreateObject
  ▷ addJ "result" (pushAll (λ array p, pushJ array (PropertyDescriptor_ToJson p)) (gprr_result_ x))
  ▷ ifSome (gprr_internalPropertyDescripties_ x) (λ l,
      addJ "internalProperties" (pushAll (λ array p, pushJ array (InternalPropertyDescriptor_ToJson p)) l))
  ▷ ifSome (gprr_privateProperties_ x) (λ l,
      addJ "privateProperties" (pushAll (λ array p, pushJ array (PrivatePropertyDescriptor_ToJson p)) l))
  ▷ ifSome (gprr_exceptionDetails_ x) (λ d, addJ "exceptionDetails" (ExceptionDetails_ToJson d)).

Definition CallFunctionOnReturns_ToJson (x : CallFunctionOnReturns) : PtJson :=
  CreateObject
  ▷ addJ "result" (RemoteObject_ToJson (cfr_result_ x))
  ▷ ifSome (cfr_exceptionDetails_ x) (λ d, addJ "exceptionDetails" (ExceptionDetails_ToJson d)).

Definition StopSamplingReturns_ToJson (x : StopSamplingReturns) : PtJson :=
  CreateObject ▷ addJ "profile" (SamplingHeapProfile_ToJson (stsr_profile_ x)).

Definition GetHeapObjectIdReturns_ToJson (x : GetHeapObjectIdReturns) : PtJson :=
  CreateObject ▷ addS "heapSnapshotObjectId" (to_string (ghr_heapSnapshotObjectId_ x)).

Definition GetObjectByHeapObjectIdReturns_ToJson (x : GetObjectByHeapObjectIdReturns) : PtJson :=
  CreateObject ▷ addJ "result" (RemoteObject_ToJson (gobr_remoteObjectResult_ x)).

Definition StopReturns_ToJson (x : StopReturns) : PtJson :=
  CreateObject ▷ addJ "profile" (Profile_ToJson (stpr_profile_ x)).

Definition GetHeapUsageReturns_ToJson (x : GetHeapUsageReturns) : PtJson :=
  CreateObject
  ▷ addD "usedSize" (hur_usedSize_ x)
  ▷ addD "totalSize" (hur_totalSize_ x).

Definition GetHeapUsageReturns_Create (params : PtJson) : created GetHeapUsageReturns := finish (
  usedSize <- need (GetDouble params "usedSize") (DFin 0 0) "Unknown 'usedSize';" ;;
  totalSize <- need (GetDouble params "totalSize") (DFin 0 0) "Unknown 'totalSize';" ;;
  p_ret (mkGetHeapUsageReturns usedSize totalSize)).

Definition GetBestEffortCoverageReturns_ToJson (x : GetBestEffortCoverageReturns) : PtJson :=
  CreateObject
  ▷ addJ "result" (pushAll (λ array r, pushJ array (ScriptCoverage_ToJson r)) (ber_result_ x)).

Definition StartPreciseCoverageReturns_ToJson (x : StartPreciseCoverageReturns) : PtJson :=
  CreateObject ▷ addI "timestamp" (spr_timestamp_ x).

Definition TakePreciseCoverageReturns_ToJson (x : TakePreciseCoverageReturns) : PtJson :=
  CreateObject
  ▷ addJ "result" (pushAll (λ array r, pushJ array (ScriptCoverage_ToJson r)) (tpr_result_ x))
  ▷ addI "timestamp" (tpr_timestamp_ x).

Definition TakeTypeProfileReturns_ToJson (x : TakeTypeProfileReturns) : PtJson :=
  CreateObject
  ▷ addJ "result" (pushAll (λ array r, pushJ array (ScriptTypeProfile_ToJson r)) (ttr_result_ x)).

Definition GetCategoriesReturns_ToJson (x : GetCategoriesReturns) : PtJson :=
  CreateObject ▷ addJ "categories" (pushAll pushS (gcr_categories_ x)).

Definition RequestMemoryDumpReturns_ToJson (x : RequestMemoryDumpReturns) : PtJson :=
  CreateObject
  ▷ addS "dumpGuid" (rmr_dumpGuid_ x)
  ▷ addB "success" (rmr_success_ x).

(** One entry that is an empty object. *)
Definition GetNavigationHistoryReturns_ToJson : PtJson :=
  CreateObject
  ▷ addI "currentIndex" 0
  ▷ addJ "entries" (pushAll (λ array (_ : unit), pushJ array CreateObject) [()]).

(** The virtual [ToJson]. *)
Definition PtBaseReturns_ToJson (r : PtBaseReturns) : PtJson :=
  match r with
  | BaseReturns => CreateObject
  | OfDebuggerEnable x => DebuggerEnableReturns_ToJson x
  | OfEnable x => EnableReturns_ToJson x
  | OfSetBreakpointByUrl x => SetBreakpointByUrlReturns_ToJson x
  | OfGetPossibleAndSetBreakpointByUrl x => GetPossibleAndSetBreakpointByUrlReturns_ToJson x
  | OfEvaluateOnCallFrame x => EvaluateOnCallFrameReturns_ToJson x
  | OfGetPossibleBreakpoints x => GetPossibleBreakpointsReturns_ToJson x
  | OfGetScriptSource x => GetScriptSourceReturns_ToJson x
  | OfGetProperties x => GetPropertiesReturns_ToJson x
  | OfCallFunctionOn x => CallFunctionOnReturns_ToJson x
  | OfStopSampling x => StopSamplingReturns_ToJson x
  | OfGetHeapObjectId x => GetHeapObjectIdReturns_ToJson x
  | OfGetObjectByHeapObjectId x => GetObjectByHeapObjectIdReturns_ToJson x
  | OfStop x => StopReturns_ToJson x
  | OfGetHeapUsage x => GetHeapUsageReturns_ToJson x
  | OfGetCategories x => GetCategoriesReturns_ToJson x
  | OfRequestMemoryDump x => RequestMemoryDumpReturns_ToJson x
  | OfGetNavigationHistory => GetNavigationHistoryReturns_ToJson
  end.

End Returns.

(** ** Properties *)

Section ReturnProperties.
Context `{cj : CJson} {cjOK : CJsonOK cj} `{CastOob}.
#[local] Hint Resolve Location_obj RemoteObject_obj CallFrame_obj BreakpointReturnInfo_obj BreakLocation_obj
  ExceptionDetails_obj PropertyDescriptor_obj InternalPropertyDescriptor_obj PrivatePropertyDescriptor_obj
  SearchMatch_obj Profile_obj ScriptCoverage_obj ScriptTypeProfile_obj SamplingHeapProfile_obj
  CreateObject_obj : ark_json.

Ltac by_members :=
  lazymatch goal with |- typed ?p _ => let h := head_of p in unfold h end;
  eexists; split; [build_fields|split; [decide_keys|fit_members]].

(** The result of every request of the debugger and the runtime is an object
    with exactly the listed members, each of its type; the marked ones may be
    absent. *)
Theorem debugger_return_types :
  (∀ x, is_int32 (der_debuggerId_ x) →
     typed (DebuggerEnableReturns_ToJson x) ["debuggerId" :! KId; "protocols" :! KArray KString]) ∧
  (∀ x, typed (EnableReturns_ToJson x) ["protocols" :! KArray KString]) ∧
  (∀ x, typed (SetBreakpointByUrlReturns_ToJson x)
     ["breakpointId" :! KString; "locations" :! KArray (KObject KAny)]) ∧
  (∀ x, typed (GetPossibleAndSetBreakpointByUrlReturns_ToJson x) ["locations" :! KArray (KObject KAny)]) ∧
  (∀ x, typed (EvaluateOnCallFrameReturns_ToJson x)
     ["result" :! KObject KAny; "exceptionDetails" :? KObject KAny]) ∧
  (∀ x, typed (GetPossibleBreakpointsReturns_ToJson x) ["locations" :! KArray (KObject KAny)]) ∧
  (∀ x, typed (GetScriptSourceReturns_ToJson x) ["scriptSource" :! KString; "bytecode" :? KString]) ∧
  (∀ x, typed (RestartFrameReturns_ToJson x) ["callFrames" :! KArray (KObject KAny)]) ∧
  (∀ x, typed (SearchInContentReturns_ToJson x) ["result" :! KArray (KObject KAny)]) ∧
  (∀ x, typed (SetBreakpointReturns_ToJson x) ["breakpointId" :! KString; "actualLocation" :! KObject KAny]) ∧
  (∀ x, typed (SetInstrumentationBreakpointReturns_ToJson x) ["breakpointId" :! KString]) ∧
  (∀ x, typed (SetScriptSourceReturns_ToJson x)
     ["callFrames" :? KArray (KObject KAny); "stackChanged" :? KBool; "exceptionDetails" :? KObject KAny]) ∧
  (∀ x, typed (GetPropertiesReturns_ToJson x)
     ["result" :! KArray (KObject KAny); "internalProperties" :? KArray (KObject KAny);
      "privateProperties" :? KArray (KObject KAny); "exceptionDetails" :? KObject KAny]) ∧
  (∀ x, typed (CallFunctionOnReturns_ToJson x)
     ["result" :! KObject KAny; "exceptionDetails" :? KObject KAny]).
Proof. split_and!; intros; by_members. Qed.

(** The same for the profilers and tracing. *)
Theorem profiler_return_types :
  (∀ x, typed (StopSamplingReturns_ToJson x) ["profile" :! KObject KAny]) ∧
  (∀ x, is_int32 (ghr_heapSnapshotObjectId_ x) →
     typed (GetHeapObjectIdReturns_ToJson x) ["heapSnapshotObjectId" :! KId]) ∧
  (∀ x, typed (GetObjectByHeapObjectIdReturns_ToJson x) ["result" :! KObject KAny]) ∧
  (∀ x, typed (StopReturns_ToJson x) ["profile" :! KObject KAny]) ∧
  (∀ x, typed (GetHeapUsageReturns_ToJson x) ["usedSize" :! KNumber; "totalSize" :! KNumber]) ∧
  (∀ x, typed (GetBestEffortCoverageReturns_ToJson x) ["result" :! KArray (KObject KAny)]) ∧
  (∀ x, typed (StartPreciseCoverageReturns_ToJson x) ["timestamp" :! KNumber]) ∧
  (∀ x, typed (TakePreciseCoverageReturns_ToJson x)
     ["result" :! KArray (KObject KAny); "timestamp" :! KNumber]) ∧
  (∀ x, typed (TakeTypeProfileReturns_ToJson x) ["result" :! KArray (KObject KAny)]) ∧
  (∀ x, typed (GetCategoriesReturns_ToJson x) ["categories" :! KArray KString]) ∧
  (∀ x, typed (RequestMemoryDumpReturns_ToJson x) ["dumpGuid" :! KString; "success" :! KBool]) ∧
  typed GetNavigationHistoryReturns_ToJson ["currentIndex" :! KNumber; "entries" :! KArray (KObject KAny)].
Proof. split_and!; intros; by_members. Qed.

(** The heap usage is read back as it was written. *)
Theorem heap_usage_roundtrip x : GetHeapUsageReturns_Create (GetHeapUsageReturns_ToJson x) = Created x.
Proof.
  assert (Hp : obj (GetHeapUsageReturns_ToJson x)
    [("usedSize"%string, Some (JNum (hur_usedSize_ x))); ("totalSize"%string, Some (JNum (hur_totalSize_ x)))]).
  { unfold GetHeapUsageReturns_ToJson. eapply obj_eq; [build_fields|reflexivity]. }
  unfold GetHeapUsageReturns_Create, finish.
  rewrite (GetDouble_obj _ _ "usedSize" (Some (hur_usedSize_ x)) Hp) by done.
  rewrite (GetDouble_obj _ _ "totalSize" (Some (hur_totalSize_ x)) Hp) by done. by destruct x.
Qed.

End ReturnProperties.

(** *** Witnesses *)

#[local] Existing Instance tree_cjson.
#[local] Existing Instance tree_cjson_ok.
#[local] Existing Instance demo_oob.

Lemma debugger_return_types_witness :
  typed (DebuggerEnableReturns_ToJson (mkDebuggerEnableReturns 0 [str "dropFrame"]))
    ["debuggerId" :! KId; "protocols" :! KArray KString].
Proof. apply (proj1 debugger_return_types). unfold is_int32. simpl. lia. Defined.
