(* ===== verification/Dispatcher.v ===== *)
(** * Requests, responses and the dispatcher

    Models [DispatchRequest], [DispatchResponse], [DispatcherBase] and
    [Dispatcher] of tooling/dynamic/dispatcher.{h,cpp}. A message of the client
    is parsed into a request; the dispatcher hands it to the handler of its
    domain. The handlers are the agents of tooling/dynamic/agent: here they are
    the operations of the class [Agents], state transformers that return the
    reply text for cross-language debugging. *)

From S2P Require Import Prelude Regex Http CppLib Utils PtJson PtCodec PtTypes.
Local Open Scope Z_scope.
Local Open Scope ark_scope.

(** ** Requests *)

Inductive RequestCode :=
| RC_OK | RC_NOK | JSON_PARSE_ERROR | PARSE_ID_ERROR | ID_FORMAT_ERROR | PARSE_METHOD_ERROR
| METHOD_FORMAT_ERROR | PARSE_PARAMS_ERROR | PARAMS_FORMAT_ERROR.

#[export] Instance RequestCode_eq_dec : EqDecision RequestCode.
Proof. solve_decision. Defined.

Definition DOT : Z := 46.

(** [find_first_of('.', 0)]. *)
Definition find_dot (s : bytes) : option nat := fst <$> list_find (λ c, c = DOT) s.

(** ** Responses *)

Inductive ResponseCode := RSP_OK | RSP_NOK.

#[export] Instance ResponseCode_eq_dec : EqDecision ResponseCode.
Proof. solve_decision. Defined.

Definition response_code (c : ResponseCode) : Z := match c with RSP_OK => 0 | RSP_NOK => 1 end.

Record DispatchResponse := mkDispatchResponse {
  rsp_code_ : ResponseCode;
  rsp_errorMsg_ : bytes }.

Definition DispatchResponse_Create_code (code : ResponseCode) (msg : bytes) : DispatchResponse :=
  mkDispatchResponse code msg.
Definition DispatchResponse_Create_error (error : option bytes) : DispatchResponse :=
  match error with Some e => mkDispatchResponse RSP_NOK e | None => mkDispatchResponse RSP_OK [] end.
Definition DispatchResponse_Ok : DispatchResponse := mkDispatchResponse RSP_OK [].
Definition DispatchResponse_Fail (message : bytes) : DispatchResponse := mkDispatchResponse RSP_NOK message.
Definition IsOk (response : DispatchResponse) : bool := bool_decide (rsp_code_ response = RSP_OK).

(** ** The table of domains *)

Inductive Domain :=
| Profiler | HeapProfiler | Tracing | Runtime | Debugger | DOM | CSS | Overlay | Target | Page | Animation.

#[export] Instance Domain_eq_dec : EqDecision Domain.
Proof. solve_decision. Defined.

(** The compile-time switches ECMASCRIPT_SUPPORT_{CPUPROFILER,HEAPPROFILER,TRACING}. *)
Class Build := { support_cpuprofiler : bool; support_heapprofiler : bool; support_tracing : bool }.

(** [dispatchers_] after the constructor. *)
Definition dispatchers_ `{Build} : list (bytes * Domain) :=
  (if support_cpuprofiler then [(str "Profiler", Profiler)] else []) ++
  (if support_heapprofiler then [(str "HeapProfiler", HeapProfiler)] else []) ++
  (if support_tracing then [(str "Tracing", Tracing)] else []) ++
  [(str "Runtime", Runtime); (str "Debugger", Debugger); (str "DOM", DOM); (str "CSS", CSS);
   (str "Overlay", Overlay); (str "Target", Target); (str "Page", Page); (str "Animation", Animation)].

Definition find_dispatcher `{Build} (domain : bytes) : option Domain :=
  snd <$> (snd <$> list_find (λ d, d.1 = domain) dispatchers_).

(** What [Dispatch] does: it returns the text of a handler, or aborts the
    process on the request "Test.fail". *)
Inductive dispatched (S : Type) :=
| Returned (text : option bytes) (s : S)
| Aborted.
Arguments Returned {S} text s.
Arguments Aborted {S}.

Section Dispatch.
Context `{cj : CJson} `{CastOob}.

(** ** Reading a request *)

Record DispatchRequest := mkDispatchRequest {
  dr_callId_ : Z;
  dr_domain_ : bytes;
  dr_method_ : bytes;
  dr_params_ : PtJson;
  dr_code_ : RequestCode }.

Definition IsValid (request : DispatchRequest) : bool := bool_decide (dr_code_ request = RC_OK).

(** The constructor; every early return leaves the members as they are.
    [PtJson::Parse] returns an object for every message, one around a null node
    when the text is not JSON, so the first test of the constructor
    ([json == nullptr]) fails and such a message is stopped by the second. *)
Definition new_DispatchRequest (message : bytes) : DispatchRequest :=
  let json := Parse message in
  if negb (IsObject json) then mkDispatchRequest (-1) [] [] None PARAMS_FORMAT_ERROR
  else
    match GetInt json "id" with
    | SUCCESS callId =>
        match GetString json "method" with
        | SUCCESS wholeMethod =>
            if bool_decide (wholeMethod = []) then mkDispatchRequest callId [] [] None PARSE_METHOD_ERROR
            else
              match find_dot wholeMethod with
              | None => mkDispatchRequest callId [] [] None METHOD_FORMAT_ERROR
              | Some indexPoint =>
                  if (indexPoint =? 0)%nat || (indexPoint =? length wholeMethod - 1)%nat then
                    mkDispatchRequest callId [] [] None METHOD_FORMAT_ERROR
                  else
                    let domain := substr wholeMethod 0 (Some indexPoint) in
                    let method := substr wholeMethod (indexPoint + 1) (Some (length wholeMethod)) in
                    match GetObject json "params" with
                    | NOT_EXIST => mkDispatchRequest callId domain method None RC_OK
                    | TYPE_ERROR => mkDispatchRequest callId domain method None PARAMS_FORMAT_ERROR
                    | SUCCESS params => mkDispatchRequest callId domain method params RC_OK
                    end
              end
        | _ => mkDispatchRequest callId [] [] None PARSE_METHOD_ERROR
        end
    | _ => mkDispatchRequest (-1) [] [] None PARSE_ID_ERROR
    end.

(** ** Writing a response *)

Definition DispatchResponseToJson (response : DispatchResponse) : PtJson :=
  CreateObject
  ▷ ifTrue (negb (IsOk response)) (λ result, result
      ▷ addI "code" (response_code (rsp_code_ response))
      ▷ addS "message" (rsp_errorMsg_ response)).

(** [result] is the JSON form of the returned object, [None] for a null
    pointer. *)
Definition ReturnsValueToString (callId : Z) (response : DispatchResponse) (result : option PtJson) : bytes :=
  let resultObj := match result with
                   | Some r => if IsOk response then r else DispatchResponseToJson response
                   | None => DispatchResponseToJson response
                   end in
  Stringify (CreateObject ▷ addI "id" callId ▷ addJ "result" resultObj).

(** ** The dispatcher *)

Class Agents (S : Type) := agent_dispatch : Domain → DispatchRequest → bool → S → option bytes * S.

Definition Dispatch `{Build} {S} `{Agents S} (request : DispatchRequest) (crossLanguageDebug : bool) (s : S)
    : dispatched S :=
  if negb (IsValid request) then Returned None s
  else
    match find_dispatcher (dr_domain_ request) with
    | Some d => let '(text, s') := agent_dispatch d request crossLanguageDebug s in Returned text s'
    | None =>
        if bool_decide (dr_domain_ request = str "Test") && bool_decide (dr_method_ request = str "fail")
        then Aborted
        else Returned None s
    end.

End Dispatch.

(** ** Lemmas *)

Lemma find_dot_some s i :
  find_dot s = Some i ↔ ∃ a b, s = a ++ (DOT :: b) ∧ (DOT ∉ a) ∧ length a = i.
Proof.
  unfold find_dot. split.
  - destruct (list_find _ s) as [[j c]|] eqn:E; [|done]. intros [= <-].
    apply list_find_Some in E as (Hl & -> & Hlt). exists (take j s), (drop (S j) s). split_and!.
    + by rewrite take_drop_middle.
    + intros (k & Hk)%list_elem_of_lookup_1. apply lookup_take_Some in Hk as [Hk Hkj]. by apply (Hlt k DOT).
    + rewrite length_take_le; [done|]. apply lookup_lt_Some in Hl. lia.
  - intros (a & b & -> & Ha & <-).
    assert (E : list_find (λ c, c = DOT) (a ++ DOT :: b) = Some (length a, DOT)).
    { apply list_find_Some. split_and!; [by rewrite list_lookup_middle|done|].
      intros k c Hk Hlt ->. rewrite lookup_app_l in Hk by lia. apply list_elem_of_lookup_2 in Hk. by apply Ha. }
    by rewrite E.
Qed.

Lemma find_dot_none s : find_dot s = None → DOT ∉ s.
Proof.
  unfold find_dot. destruct (list_find _ s) as [[]|] eqn:E; [done|]. intros _ Hin.
  apply list_find_None in E. rewrite Forall_forall in E. by apply (E DOT).
Qed.

Section DispatchLemmas.
Context `{cj : CJson} {cjOK : CJsonOK cj} `{CastOob}.

Lemma GetInt_view j key :
  GetInt (Some j) key = match get_item (view j) key with
                        | Some (JNum d) => SUCCESS (double_to_int32 d)
                        | Some _ => TYPE_ERROR
                        | None => NOT_EXIST
                        end.
Proof.
  unfold GetInt, GetDouble. rewrite <- GetObjectItem_view.
  destruct (cJSON_GetObjectItem (Some j) key) as [m|]; [|done]. simpl. rewrite IsNumber_view.
  destruct (view m) eqn:E; try done. simpl. by rewrite (valuedouble_view m d).
Qed.

Lemma GetString_view j key :
  GetString (Some j) key = match get_item (view j) key with
                           | Some (JStr s) => SUCCESS s
                           | Some _ => TYPE_ERROR
                           | None => NOT_EXIST
                           end.
Proof.
  unfold GetString. rewrite <- GetObjectItem_view.
  destruct (cJSON_GetObjectItem (Some j) key) as [m|]; [|done]. simpl. rewrite IsString_view.
  destruct (view m) eqn:E; try done. simpl. by rewrite (valuestring_view m s).
Qed.

(** [GetObject] succeeds on an object, and with nothing else. *)
Lemma GetObject_view j key :
  match GetObject (Some j) key with
  | SUCCESS q => ∃ ps, get_item (view j) key = Some (JObj ps) ∧ rep q (JObj ps)
  | TYPE_ERROR => ∃ v, get_item (view j) key = Some v ∧ ∀ ps, v ≠ JObj ps
  | NOT_EXIST => get_item (view j) key = None
  end.
Proof.
  unfold GetObject. rewrite <- GetObjectItem_view.
  destruct (cJSON_GetObjectItem (Some j) key) as [m|]; [|done]. simpl. rewrite IsObject_view.
  destruct (view m) eqn:E; simpl; try (eexists; split; [done|congruence]).
  eexists. split; [done|]. by exists m.
Qed.

End DispatchLemmas.

(** ** Properties *)

(** The domain names, as they appear in front of the dot of a method. *)
Definition domain_name (d : Domain) : bytes :=
  str match d with
      | Profiler => "Profiler" | HeapProfiler => "HeapProfiler" | Tracing => "Tracing"
      | Runtime => "Runtime" | Debugger => "Debugger" | DOM => "DOM" | CSS => "CSS"
      | Overlay => "Overlay" | Target => "Target" | Page => "Page" | Animation => "Animation"
      end.

Definition domain_built `{Build} (d : Domain) : bool :=
  match d with
  | Profiler => support_cpuprofiler | HeapProfiler => support_heapprofiler | Tracing => support_tracing
  | _ => true
  end.

Section DispatchProperties.
Context `{cj : CJson} {cjOK : CJsonOK cj} `{CastOob}.

(** The text of a valid request, in terms of the JSON value of the message. *)
Definition well_formed (v : jval) (r : DispatchRequest) : Prop :=
  (∃ fs, v = JObj fs) ∧
  (∃ d, get_item v "id" = Some (JNum d) ∧ dr_callId_ r = double_to_int32 d) ∧
  get_item v "method" = Some (JStr (dr_domain_ r ++ DOT :: dr_method_ r)) ∧
  ((DOT ∉ dr_domain_ r) ∧ dr_domain_ r ≠ [] ∧ dr_method_ r ≠ []) ∧
  (get_item v "params" = None ∧ dr_params_ r = None ∨
   ∃ ps, get_item v "params" = Some (JObj ps) ∧ rep (dr_params_ r) (JObj ps)).

(** A message that parses is a valid request exactly when it is well formed. *)
Lemma parsed_valid_iff (message : bytes) (j : cjson) :
  Parse message = Some j →
  (IsValid (new_DispatchRequest message) = true ↔ well_formed (view j) (new_DispatchRequest message)).
Proof.
  intros HP. unfold new_DispatchRequest. rewrite HP. unfold IsObject. rewrite IsObject_view, GetInt_view, GetString_view.
  unfold well_formed, IsValid.
  destruct (view j) as [| | | | |fs] eqn:Ev; cbn [negb];
    try (rewrite bool_decide_eq_true; split; [done|intros ((? & ?) & _); done]).
  rewrite <- Ev. destruct (get_item (view j) "id") as [[]|] eqn:Eid;
    try (rewrite bool_decide_eq_true; split; [done|naive_solver]).
  destruct (get_item (view j) "method") as [[| | |m| |]|] eqn:Em;
    try (rewrite bool_decide_eq_true; split; [done|naive_solver]).
  destruct (bool_decide (m = [])); [rewrite bool_decide_eq_true; split; [done|naive_solver]|].
  destruct (find_dot m) as [i|] eqn:Ed; [|rewrite bool_decide_eq_true; split; [done|naive_solver]].
  apply find_dot_some in Ed as (a & b & -> & Ha & <-). rewrite length_app. cbn [length].
  destruct ((length a =? 0)%nat || _) eqn:Ei; [rewrite bool_decide_eq_true; split; [done|naive_solver]|].
  apply orb_false_iff in Ei as [Ea%Nat.eqb_neq Eb%Nat.eqb_neq].
  assert (Es1 : substr (a ++ DOT :: b) 0 (Some (length a)) = a)
    by (unfold substr; by rewrite drop_0, take_app_length).
  assert (Es2 : substr (a ++ DOT :: b) (length a + 1) (Some (length a + S (length b))%nat) = b).
  { unfold substr. rewrite cons_middle, app_assoc, drop_app_length' by (rewrite length_app; simpl; lia).
    apply take_ge. lia. }
  rewrite Es1, Es2. assert (a ≠ [] ∧ b ≠ []) as [? ?].
  { split; intros ->; simpl in *; lia. }
  pose proof (GetObject_view j "params") as Hpar. fold (PtJson).
  destruct (GetObject (Some j) "params") as [q| |]; rewrite bool_decide_eq_true; simpl.
  - destruct Hpar as (ps & Ep & Hq). rewrite Ep. split; [|done]. intros _. split_and!; eauto.
  - rewrite Hpar. split; [|done]. intros _. split_and!; eauto.
  - destruct Hpar as (v & Ep & Hv). rewrite Ep. split; [done|]. intros (_ & _ & _ & _ & [[? _]|(ps & E & _)]); [done|].
    simplify_eq. by destruct (Hv ps).
Qed.

(** C39: a message is a valid request exactly when it is the text of a JSON object
    with a numeric "id", a string "method" that is split at its first dot into a
    domain and a method that are both not empty, and "params" that is an object
    or absent; the request then holds these parts. A text that is not JSON gives
    the code of a format error, JSON_PARSE_ERROR is never set. *)
Theorem request_valid_iff (message : bytes) :
  (IsValid (new_DispatchRequest message) = true ↔
   ∃ j, Parse message = Some j ∧ well_formed (view j) (new_DispatchRequest message)) ∧
  (Parse message = None → dr_code_ (new_DispatchRequest message) = PARAMS_FORMAT_ERROR) ∧
  dr_code_ (new_DispatchRequest message) ≠ JSON_PARSE_ERROR.
Proof.
  assert (Hnone : Parse message = None → dr_code_ (new_DispatchRequest message) = PARAMS_FORMAT_ERROR).
  { intros HP. unfold new_DispatchRequest, IsObject. by rewrite HP, IsObject_null. }
  split_and!; [|done|].
  - destruct (Parse message) as [j|] eqn:HP.
    + rewrite (parsed_valid_iff _ _ HP). split; [by exists j|]. by intros (? & [= ->] & ?).
    + unfold IsValid. rewrite Hnone by done. split; [done|]. by intros (? & ? & _).
  - unfold new_DispatchRequest. by repeat case_match.
Qed.

(** [Dispatch] runs the agent of the request's domain, and only that one; an
    invalid request and a request of an unknown domain change nothing and are
    not answered; only "Test.fail" aborts. *)
Theorem dispatch_outcomes `{Build} {S} `{!Agents S} (r : DispatchRequest) (cross : bool) (s : S) :
  (IsValid r = false → Dispatch r cross s = Returned None s) ∧
  (∀ d, IsValid r = true → dr_domain_ r = domain_name d → domain_built d = true →
        Dispatch r cross s = let '(text, s') := agent_dispatch d r cross s in Returned text s') ∧
  (IsValid r = true → (∀ d, domain_built d = true → dr_domain_ r ≠ domain_name d) →
   dr_domain_ r ≠ str "Test" ∨ dr_method_ r ≠ str "fail" → Dispatch r cross s = Returned None s) ∧
  (Dispatch r cross s = Aborted →
   IsValid r = true ∧ dr_domain_ r = str "Test" ∧ dr_method_ r = str "fail").
Proof.
  assert (Hreg : ∀ d, domain_built d = true → find_dispatcher (domain_name d) = Some d).
  { intros d. unfold find_dispatcher, dispatchers_, domain_built.
    destruct d, support_cpuprofiler, support_heapprofiler, support_tracing; try done; intros _;
      vm_compute; reflexivity. }
  assert (Hin : ∀ n d, find_dispatcher n = Some d → n = domain_name d ∧ domain_built d = true).
  { intros n d. unfold find_dispatcher. destruct (list_find _ dispatchers_) as [[i [k d']]|] eqn:E; [|done].
    intros [= <-]. apply list_find_Some in E as (Hl & <- & _). apply list_elem_of_lookup_2 in Hl.
    unfold dispatchers_, domain_built in *. simpl.
    destruct support_cpuprofiler, support_heapprofiler, support_tracing; set_solver. }
  unfold Dispatch. split_and!.
  - by intros ->.
  - intros d -> Hd Hb. cbn [negb]. by rewrite Hd, Hreg.
  - intros -> Hn Ht. cbn [negb]. destruct (find_dispatcher (dr_domain_ r)) as [d|] eqn:E.
    { apply Hin in E as [E Eb]. by destruct (Hn d Eb). }
    destruct (bool_decide (dr_domain_ r = str "Test")) eqn:E1; [|done].
    destruct (bool_decide (dr_method_ r = str "fail")) eqn:E2; [|done].
    apply bool_decide_eq_true in E1. apply bool_decide_eq_true in E2. naive_solver.
  - destruct (IsValid r); [|done]. cbn [negb].
    destruct (find_dispatcher (dr_domain_ r)) as [d|]; [by destruct (agent_dispatch _ _ _ _)|].
    destruct (bool_decide (dr_domain_ r = str "Test")) eqn:E1; [|done].
    destruct (bool_decide (dr_method_ r = str "fail")) eqn:E2; [|done].
    apply bool_decide_eq_true in E1. by apply bool_decide_eq_true in E2.
Qed.

End DispatchProperties.

(** *** Witnesses *)

Definition demo_request_text : bytes := str "{id:7,method:Debugger.enable}".
Definition demo_request_json : jval :=
  JObj [("id"%string, JNum (DFin 7 0)); ("method"%string, JStr (str "Debugger.enable"))].
Definition demo_parser : CJson :=
  tree_cjson_with (λ t, if bool_decide (t = demo_request_text) then Some demo_request_json else None) (λ _, None).
Definition demo_parser_ok : CJsonOK demo_parser := tree_cjson_with_ok _ _.

Lemma request_valid_iff_witness :
  @IsValid demo_parser (@new_DispatchRequest demo_parser demo_oob demo_request_text) = true.
Proof.
  apply (@request_valid_iff demo_parser demo_parser_ok demo_oob demo_request_text).
  exists demo_request_json. split; [reflexivity|]. split_and!.
  - by eexists.
  - exists (DFin 7 0). split; reflexivity.
  - reflexivity.
  - apply (bool_decide_eq_true_1 _). vm_compute. reflexivity.
  - vm_compute. discriminate.
  - vm_compute. discriminate.
  - left. split; reflexivity.
Defined.
