(* ===== verification/ProtocolHandler.v ===== *)
(** * The protocol handler

    Models tooling/dynamic/protocol_handler.{h,cpp}: the queue between the thread
    that receives the messages of the client ([DispatchCommand]) and the thread
    of the virtual machine ([ProcessCommand], [WaitForDebugger]). The state has
    the members of the class and the activation records of [ProcessCommand]: a
    command that stops the program makes the handler call [WaitForDebugger],
    which runs [ProcessCommand] again inside the running one. The transitions
    are the critical sections and the calls; [exec] runs one and [reachable] is
    every interleaving of both threads. What a command does besides calling
    back into the channel is left open: any sequence of calls is possible. *)

From S2P Require Import Prelude Regex Http CppLib Utils PtJson PtCodec PtTypes Dispatcher.
Local Open Scope Z_scope.
Local Open Scope ark_scope.

(** ** Replies *)

Section Replies.
Context `{cj : CJson}.

Definition CreateErrorReply (response : DispatchResponse) : PtJson :=
  CreateObject
  ▷ ifTrue (negb (IsOk response)) (λ result, result
      ▷ addI "code" (response_code (rsp_code_ response))
      ▷ addS "message" (rsp_errorMsg_ response)).

(** The texts that [callback_] gets: none when the reply cannot be printed. *)
Definition SendReply (reply : PtJson) : list bytes :=
  let s := Stringify reply in if bool_decide (s = []) then [] else [s].

Definition response_json (callId : Z) (response : DispatchResponse) (result : PtJson) : PtJson :=
  CreateObject
  ▷ addI "id" callId
  ▷ addJ "result" (if IsOk response then result else CreateErrorReply response).

Definition SendResponse (request : DispatchRequest) (response : DispatchResponse) (result : PtJson) : list bytes :=
  SendReply (response_json (dr_callId_ request) response result).
Definition SendNotification (event : PtJson) : list bytes := SendReply event.

End Replies.

(** ** The two threads *)

(** Where an activation of [ProcessCommand] is: before it takes the lock, in
    [requestQueueCond_.wait] (signalled or not), in the loop over
    [dispatchingQueue], or in [Dispatch] of a message. *)
Inductive pc :=
| AtLock
| Asleep (signalled : bool)
| Draining
| InDispatch (msg : bytes).

Record frame := mkFrame {
  f_pc : pc;
  dispatchingQueue : list bytes }.

(** [sent] and [handled] are the messages accepted by [DispatchCommand] and
    those passed to [Dispatch], in order; the program does not store them. *)
Record handler := mkHandler {
  requestQueue_ : list bytes;
  waitingForDebugger_ : bool;
  isDispatchingMessage_ : bool;
  activations : list frame;
  sent : list bytes;
  handled : list bytes }.

Definition handler_init : handler := mkHandler [] false false [] [] [].

Inductive event :=
| DispatchCommand (msg : bytes)
| ProcessCommand
| WaitForDebugger
| RunIfWaitingForDebugger
| Lock
| Wake
| Take
| Drained
| Return.

(** The thread of the virtual machine may call the handler when no activation
    is running or from inside [Dispatch]. *)
Definition may_call (h : handler) : bool :=
  match activations h with
  | [] => true
  | f :: _ => match f_pc f with InDispatch _ => true | _ => false end
  end.

Definition set_stack (st : list frame) (h : handler) : handler :=
  mkHandler (requestQueue_ h) (waitingForDebugger_ h) (isDispatchingMessage_ h) st (sent h) (handled h).
Definition set_waiting (b : bool) (h : handler) : handler :=
  mkHandler (requestQueue_ h) b (isDispatchingMessage_ h) (activations h) (sent h) (handled h).

(** [notify_one] *)
Definition notify (st : list frame) : list frame :=
  match st with
  | mkFrame (Asleep _) q :: st' => mkFrame (Asleep true) q :: st'
  | _ => st
  end.

(** [requestQueue_.swap(dispatchingQueue); isDispatchingMessage_ = true;] *)
Definition swap_queues (q : list bytes) (st : list frame) (h : handler) : handler :=
  mkHandler q (waitingForDebugger_ h) true (mkFrame Draining (requestQueue_ h) :: st) (sent h) (handled h).

Definition exec (e : event) (h : handler) : option handler :=
  match e with
  | DispatchCommand msg =>
      Some (mkHandler (requestQueue_ h ++ [msg]) (waitingForDebugger_ h) (isDispatchingMessage_ h)
              (notify (activations h)) (sent h ++ [msg]) (handled h))
  | ProcessCommand =>
      if may_call h then Some (set_stack (mkFrame AtLock [] :: activations h) h) else None
  | WaitForDebugger =>
      if may_call h then Some (set_waiting true (set_stack (mkFrame AtLock [] :: activations h) h)) else None
  | RunIfWaitingForDebugger => if may_call h then Some (set_waiting false h) else None
  | Lock =>
      match activations h with
      | mkFrame AtLock q :: st =>
          match requestQueue_ h with
          | [] => if negb (waitingForDebugger_ h) then Some (set_stack st h)
                  else Some (set_stack (mkFrame (Asleep false) q :: st) h)
          | _ :: _ => Some (swap_queues q st h)
          end
      | _ => None
      end
  | Wake =>
      match activations h with
      | mkFrame (Asleep _) q :: st => Some (swap_queues q st h)
      | _ => None
      end
  | Take =>
      match activations h with
      | mkFrame Draining (m :: q) :: st =>
          Some (mkHandler (requestQueue_ h) (waitingForDebugger_ h) (isDispatchingMessage_ h)
                  (mkFrame (InDispatch m) q :: st) (sent h) (handled h ++ [m]))
      | _ => None
      end
  | Drained =>
      match activations h with
      | mkFrame Draining [] :: st =>
          Some (mkHandler (requestQueue_ h) (waitingForDebugger_ h) false
                  (mkFrame AtLock [] :: st) (sent h) (handled h))
      | _ => None
      end
  | Return =>
      match activations h with
      | mkFrame (InDispatch _) q :: st => Some (set_stack (mkFrame Draining q :: st) h)
      | _ => None
      end
  end.

Inductive DispatchStatus := UNKNOWN | DISPATCHING | DISPATCHED.

Definition GetDispatchStatus (h : handler) : DispatchStatus :=
  if isDispatchingMessage_ h || waitingForDebugger_ h then DISPATCHING
  else match requestQueue_ h with [] => DISPATCHED | _ => UNKNOWN end.

(** A run of events, and the states that runs reach. [allowed] restricts the
    events that may happen in a state. *)
Fixpoint run (es : list event) (h : handler) : option handler :=
  match es with
  | [] => Some h
  | e :: es' => exec e h ≫= run es'
  end.

Inductive reaches (allowed : handler → event → Prop) : handler → Prop :=
| reaches_init : reaches allowed handler_init
| reaches_step e h h' : reaches allowed h → allowed h e → exec e h = Some h' → reaches allowed h'.

Definition any_event (h : handler) (e : event) : Prop := True.
Definition reachable : handler → Prop := reaches any_event.

(** The program does not stop while messages of the same batch are pending. *)
Definition calls_at_end (h : handler) (e : event) : Prop :=
  (e = ProcessCommand ∨ e = WaitForDebugger) →
  match activations h with f :: _ => dispatchingQueue f = [] | [] => True end.
(** The program does not stop inside a command at all. *)
Definition no_nesting (h : handler) (e : event) : Prop :=
  (e = ProcessCommand ∨ e = WaitForDebugger) → activations h = [].

(** ** Invariants *)

Definition pending (h : handler) : list bytes := concat (dispatchingQueue <$> activations h).

Definition in_dispatch (f : frame) : Prop := ∃ m, f_pc f = InDispatch m.

(** Nothing is lost or duplicated. *)
Definition conserved (h : handler) : Prop := sent h ≡ₚ handled h ++ pending h ++ requestQueue_ h.
(** All activations but the innermost one are inside [Dispatch]; one that is
    not in its inner loop has an empty local queue; one that sleeps without a
    signal sleeps on an empty queue, so no wake-up is lost. *)
Definition shaped (h : handler) : Prop :=
  match activations h with
  | [] => True
  | f :: st =>
      Forall in_dispatch st ∧
      match f_pc f with
      | AtLock => dispatchingQueue f = []
      | Asleep b => dispatchingQueue f = [] ∧ waitingForDebugger_ h = true ∧ (b = false → requestQueue_ h = [])
      | _ => True
      end
  end.

Lemma may_call_shaped h f :
  may_call h = true → shaped h → activations (set_stack (f :: activations h) h) = f :: activations h ∧
  Forall in_dispatch (activations h).
Proof.
  unfold may_call, shaped. intros Hc Hs. split; [done|]. destruct (activations h) as [|[p q] st]; [done|].
  simpl in *. destruct p; try done. destruct Hs as [Hs _]. constructor; [by eexists|done].
Qed.

Lemma exec_shaped e h h' : exec e h = Some h' → shaped h → shaped h'.
Proof.
  intros He Hs. destruct e; cbn [exec] in He.
  - injection He as <-. unfold shaped in *. simpl.
    destruct (activations h) as [|[[|b| |m] q] st]; simpl in *; naive_solver.
  - destruct (may_call h) eqn:Hc; [|done]. injection He as <-.
    destruct (may_call_shaped h (mkFrame AtLock []) Hc Hs) as [_ HF]. by split.
  - destruct (may_call h) eqn:Hc; [|done]. injection He as <-.
    destruct (may_call_shaped h (mkFrame AtLock []) Hc Hs) as [_ HF]. by split.
  - destruct (may_call h) eqn:Hc; [|done]. injection He as <-. unfold shaped, may_call in *. simpl in *.
    destruct (activations h) as [|[[] q] st]; simpl in *; naive_solver.
  - unfold shaped in *. destruct (activations h) as [|[[|b| |m] q] st]; try done. simpl in *.
    destruct Hs as [HF ->]. destruct (requestQueue_ h) eqn:Eq.
    + destruct (waitingForDebugger_ h) eqn:Ew; injection He as <-; simpl.
      * done.
      * destruct st as [|f st]; [done|]. apply Forall_cons in HF as [[m Hm] HF]. by rewrite Hm.
    + injection He as <-. done.
  - unfold shaped in *. destruct (activations h) as [|[[|b| |m] q] st]; try done. injection He as <-.
    simpl in *. naive_solver.
  - unfold shaped in *. destruct (activations h) as [|[[|b| |m] [|m' q]] st]; try done. injection He as <-.
    simpl in *. naive_solver.
  - unfold shaped in *. destruct (activations h) as [|[[|b| |m] [|m' q]] st]; try done. injection He as <-.
    simpl in *. naive_solver.
  - unfold shaped in *. destruct (activations h) as [|[[|b| |m] q] st]; try done. injection He as <-.
    simpl in *. naive_solver.
Qed.

Lemma pending_notify st : concat (dispatchingQueue <$> notify st) = concat (dispatchingQueue <$> st).
Proof. by destruct st as [|[[] q] st]. Qed.

Lemma exec_conserved e h h' : exec e h = Some h' → shaped h → conserved h → conserved h'.
Proof.
  unfold conserved, pending. intros He Hs Hc. destruct e; cbn [exec] in He.
  - injection He as <-. simpl. rewrite pending_notify, Hc, <- !app_assoc. done.
  - destruct (may_call h); [|done]. by injection He as <-.
  - destruct (may_call h); [|done]. by injection He as <-.
  - destruct (may_call h); [|done]. by injection He as <-.
  - unfold shaped in Hs. destruct (activations h) as [|[[|b| |m] q] st]; try done. simpl in *.
    destruct Hs as [_ ->]. destruct (requestQueue_ h) eqn:Eq.
    + destruct (waitingForDebugger_ h); injection He as <-; simpl; by rewrite Hc, Eq.
    + injection He as <-. simpl. rewrite Hc, Eq, app_nil_r. by solve_Permutation.
  - unfold shaped in Hs. destruct (activations h) as [|[[|b| |m] q] st]; try done. simpl in *.
    destruct Hs as [_ [-> _]]. injection He as <-. simpl. rewrite Hc, app_nil_r. by solve_Permutation.
  - destruct (activations h) as [|[[|b| |m] [|m' q]] st]; try done. injection He as <-. simpl in *.
    rewrite Hc, <- !app_assoc. done.
  - destruct (activations h) as [|[[|b| |m] [|m' q]] st]; try done. by injection He as <-.
  - destruct (activations h) as [|[[|b| |m] q] st]; try done. injection He as <-. exact Hc.
Qed.

Lemma reaches_inv allowed h : reaches allowed h → shaped h ∧ conserved h.
Proof.
  induction 1 as [|e h h' _ [Hs Hc] _ He]; [by split; [|unfold conserved]|].
  split; [by eapply exec_shaped|by eapply exec_conserved].
Qed.

(** ** The drain of a batch *)

(** The events of a command that returns at once. *)
Definition serve (ms : list bytes) : list event := ms ≫= λ _, [Take; Return].

Lemma run_app es es' h : run (es ++ es') h = run es h ≫= run es'.
Proof.
  revert h. induction es as [|e es IH]; intros h; [done|]. simpl. destruct (exec e h); [|done]. apply IH.
Qed.

Lemma run_serve ms : ∀ q w d st snt hd,
  run (serve ms) (mkHandler q w d (mkFrame Draining ms :: st) snt hd) =
  Some (mkHandler q w d (mkFrame Draining [] :: st) snt (hd ++ ms)).
Proof.
  induction ms as [|m ms IH]; intros; [by rewrite app_nil_r|].
  change (serve (m :: ms)) with ([Take; Return] ++ serve ms). rewrite run_app.
  transitivity (run (serve ms) (mkHandler q w d (mkFrame Draining ms :: st) snt (hd ++ [m]))); [done|].
  by rewrite IH, <- app_assoc.
Qed.

(** Every event of a run is allowed where it happens. *)
Fixpoint run_allowed (allowed : handler → event → Prop) (es : list event) (h : handler) : Prop :=
  match es with
  | [] => True
  | e :: es' => allowed h e ∧ match exec e h with Some h' => run_allowed allowed es' h' | None => True end
  end.

Lemma run_reaches allowed es : ∀ h h',
  reaches allowed h → run_allowed allowed es h → run es h = Some h' → reaches allowed h'.
Proof.
  induction es as [|e es IH]; intros h h' Hr; simpl; [by intros _ [= <-]|]. intros [Ha Hes].
  destruct (exec e h) as [h1|] eqn:E; [|done]. apply IH; [|done]. by eapply reaches_step.
Qed.

Lemma run_reachable es h h' : reachable h → run es h = Some h' → reachable h'.
Proof.
  intros Hr. apply run_reaches; [done|]. clear Hr h'. revert h.
  induction es as [|e es IH]; intros h; [done|]. split; [done|]. by destruct (exec e h).
Qed.

Lemma run_send l : ∀ q snt,
  run (DispatchCommand <$> l) (mkHandler q false false [] snt []) =
  Some (mkHandler (q ++ l) false false [] (snt ++ l) []).
Proof.
  induction l as [|m l IH]; intros; [by rewrite !app_nil_r|]. rewrite fmap_cons.
  transitivity (run (DispatchCommand <$> l) (mkHandler (q ++ [m]) false false [] (snt ++ [m]) [])); [done|].
  by rewrite IH, <- !app_assoc.
Qed.

Lemma messages_in_order_lemma h :
  reaches calls_at_end h → sent h = handled h ++ pending h ++ requestQueue_ h.
Proof.
  intros Hr.
  assert (H : sent h = handled h ++ pending h ++ requestQueue_ h ∧
    match activations h with _ :: st => Forall (λ f, dispatchingQueue f = []) st | [] => True end);
    [|by apply H].
  induction Hr as [|e h h' Hr [IH HF] Ha He]; [by split|].
  destruct (reaches_inv _ _ Hr) as [Hs _]. unfold pending, shaped, calls_at_end in *.
  assert (Hnil : ∀ st, Forall (λ f, dispatchingQueue f = []) st → concat (list_fmap _ _ dispatchingQueue st) = []).
  { intros st. induction 1 as [|f st Hf _ IHst]; [done|]. simpl. by rewrite Hf. }
  destruct e; cbn [exec] in He.
  - injection He as <-. simpl. rewrite pending_notify, IH, <- !app_assoc. split; [done|].
    by destruct (activations h) as [|[[] q] st].
  - destruct (may_call h); [|done]. injection He as <-. simpl. split; [done|].
    specialize (Ha ltac:(by left)). destruct (activations h); [done|by constructor].
  - destruct (may_call h); [|done]. injection He as <-. simpl. split; [done|].
    specialize (Ha ltac:(by right)). destruct (activations h); [done|by constructor].
  - destruct (may_call h); [|done]. by injection He as <-.
  - destruct (activations h) as [|[[|b| |m] q] st]; try done. simpl in *. destruct Hs as [_ ->].
    specialize (Hnil _ HF). destruct (requestQueue_ h) eqn:Eq.
    + destruct (waitingForDebugger_ h); injection He as <-; simpl; rewrite IH, Eq; split; try done.
      by destruct HF.
    + injection He as <-. simpl in *. rewrite IH, Eq, Hnil, !app_nil_r. done.
  - destruct (activations h) as [|[[|b| |m] q] st]; try done. simpl in *. destruct Hs as [_ [-> _]].
    specialize (Hnil _ HF). injection He as <-. simpl in *. rewrite IH, Hnil, !app_nil_r. done.
  - destruct (activations h) as [|[[|b| |m] [|m' q]] st]; try done. injection He as <-. simpl in *.
    rewrite IH, <- !app_assoc. done.
  - destruct (activations h) as [|[[|b| |m] [|m' q]] st]; try done. by injection He as <-.
  - destruct (activations h) as [|[[|b| |m] q] st]; try done. injection He as <-. by split.
Qed.

(** Without nesting there is at most one activation, and the flag is set while
    it serves a batch. *)
Definition single (h : handler) : Prop :=
  match activations h with
  | [] => True
  | [f] => match f_pc f with
           | Draining | InDispatch _ => isDispatchingMessage_ h = true
           | _ => True
           end
  | _ => False
  end.

Lemma single_activation h : reaches no_nesting h → single h.
Proof.
  induction 1 as [|e h h' Hr IH Ha He]; [done|]. unfold no_nesting, single in *.
  destruct e; cbn [exec] in He.
  - injection He as <-. simpl. by destruct (activations h) as [|[[] q] [|]].
  - destruct (may_call h); [|done]. injection He as <-. simpl. by rewrite Ha by (by left).
  - destruct (may_call h); [|done]. injection He as <-. simpl. by rewrite Ha by (by right).
  - destruct (may_call h); [|done]. by injection He as <-.
  - destruct (activations h) as [|[[|b| |m] q] [|]]; try done. destruct (requestQueue_ h).
    + by destruct (waitingForDebugger_ h); injection He as <-.
    + by injection He as <-.
  - destruct (activations h) as [|[[|b| |m] q] [|]]; try done. by injection He as <-.
  - destruct (activations h) as [|[[|b| |m] [|m' q]] [|]]; try done. by injection He as <-.
  - destruct (activations h) as [|[[|b| |m] [|m' q]] [|]]; try done. by injection He as <-.
  - destruct (activations h) as [|[[|b| |m] q] [|]]; try done. by injection He as <-.
Qed.

(** ** Properties *)

(** C14: in every interleaving of both threads, with commands that stop the
    program and are stopped again, no message is lost or handled twice: the
    accepted messages are the handled ones, those in the local queues of the
    activations and those in the queue. *)
Theorem messages_conserved (h : handler) :
  reachable h → sent h ≡ₚ handled h ++ pending h ++ requestQueue_ h.
Proof. intros Hr. by apply (reaches_inv any_event). Qed.

(** No wake-up is lost: when the thread of the virtual machine sleeps
    without a signal, the queue is empty, and the next message signals it and
    is in the batch it then takes. *)
Theorem no_lost_wakeup (h : handler) (f : frame) (st : list frame) (m : bytes) :
  reachable h → activations h = f :: st → f_pc f = Asleep false →
  requestQueue_ h = [] ∧
  ∃ h', run [DispatchCommand m; Wake; Take] h = Some h' ∧ handled h' = handled h ++ [m] ∧
        activations h' = mkFrame (InDispatch m) [] :: st.
Proof.
  intros Hr Hst Hpc. destruct (reaches_inv _ _ Hr) as [Hs _]. unfold shaped in Hs.
  rewrite Hst, Hpc in Hs. destruct Hs as (_ & Hq & _ & Hemp). specialize (Hemp eq_refl).
  split; [done|]. destruct f as [p q]. simpl in *. subst p q. unfold run. simpl. rewrite Hst, Hemp. simpl.
  eexists. split; [done|]. done.
Qed.

(** C25: as long as no command stops the program while messages of its batch
    are pending, the messages are handled in the order they were accepted. *)
Theorem messages_in_order (h : handler) :
  reaches calls_at_end h → sent h = handled h ++ pending h ++ requestQueue_ h.
Proof. apply messages_in_order_lemma. Qed.

(** [ProcessCommand] handles everything that is in the queue, in order, and
    returns when the program does not wait for the debugger: the messages are
    taken in one batch and served by commands that return. *)
Theorem process_command_drains (h : handler) :
  may_call h = true → waitingForDebugger_ h = false → requestQueue_ h ≠ [] →
  run ([ProcessCommand; Lock] ++ serve (requestQueue_ h) ++ [Drained; Lock]) h =
  Some (mkHandler [] false false (activations h) (sent h) (handled h ++ requestQueue_ h)).
Proof.
  destruct h as [[|m ms] w d st snt hd]; simpl requestQueue_; simpl waitingForDebugger_; intros Hc -> Hq; [done|].
  assert (E : run [ProcessCommand; Lock] (mkHandler (m :: ms) false d st snt hd) =
    Some (mkHandler [] false true (mkFrame Draining (m :: ms) :: st) snt hd)).
  { unfold run. cbn [exec]. by rewrite Hc. }
  rewrite run_app, E. cbn [mbind option_bind]. by rewrite run_app, run_serve.
Qed.

(** When a command stops the program while other messages of its batch are
    pending, these are not handled by the inner activation: it sleeps on the
    empty queue while they wait in the outer one, and nothing but a further
    message (or a spurious wake-up) lets it go on. *)
Theorem nested_wait_starves (m1 m2 : bytes) (ms : list bytes) :
  ∃ h, reachable h ∧ handled h = [m1] ∧ requestQueue_ h = [] ∧ waitingForDebugger_ h = true ∧
       activations h = [mkFrame (Asleep false) []; mkFrame (InDispatch m1) (m2 :: ms)] ∧
       ∀ e, (∀ m, e ≠ DispatchCommand m) → e ≠ Wake → exec e h = None.
Proof.
  eexists. split.
  - eapply (run_reachable ((DispatchCommand <$> m1 :: m2 :: ms) ++
      [ProcessCommand; Lock; Take; WaitForDebugger; Lock])); [apply reaches_init|].
    unfold handler_init. rewrite run_app, run_send. reflexivity.
  - split_and!; try done. intros e Hd Hw. destruct e; try done. by destruct (Hd msg).
Qed.

(** As long as no command stops the program, [GetDispatchStatus] is right:
    it answers "dispatched" only when every accepted message has been handled
    and no command is running. *)
Theorem dispatch_status_sound (h : handler) :
  reaches no_nesting h → GetDispatchStatus h = DISPATCHED →
  handled h = sent h ∧ Forall (λ f, f_pc f = AtLock) (activations h).
Proof.
  intros Hr Hst.
  pose proof (single_activation h Hr) as Hone. unfold single in Hone.
  assert (Hord : reaches calls_at_end h).
  { clear Hst Hone. induction Hr as [|e h h' Hr IH Ha He]; [apply reaches_init|].
    eapply reaches_step; [exact IH| |exact He]. intros Hc. by rewrite (Ha Hc). }
  destruct (reaches_inv _ _ Hr) as [Hs _]. apply messages_in_order_lemma in Hord.
  unfold GetDispatchStatus in Hst. destruct (isDispatchingMessage_ h) eqn:Ed; [done|].
  destruct (waitingForDebugger_ h) eqn:Ew; [done|]. simpl in Hst. destruct (requestQueue_ h) eqn:Eq; [|done].
  unfold shaped, pending in *.
  destruct (activations h) as [|[p q] [|]]; simpl in *; [|destruct p|done]; try done.
  - by rewrite Hord, !app_nil_r.
  - destruct Hs as [_ ->]. rewrite Hord, !app_nil_r. split; [done|by constructor].
  - destruct Hs as (_ & _ & Hw & _). congruence.
Qed.

(** After a command that stopped the program has been stopped and resumed,
    the flag of the outer activation is gone: [GetDispatchStatus] answers
    "dispatched" while a command of the outer batch is running and a message
    behind it has not been handled. *)
Theorem dispatch_status_wrong_after_pause (m1 m2 m3 resume : bytes) :
  ∃ h, reachable h ∧ GetDispatchStatus h = DISPATCHED ∧
       activations h = [mkFrame (InDispatch m2) [m3]] ∧ handled h = [m1; resume; m2] ∧
       sent h = [m1; m2; m3; resume].
Proof.
  exists (mkHandler [] false false [mkFrame (InDispatch m2) [m3]] [m1; m2; m3; resume] [m1; resume; m2]).
  split; [|by split_and!].
  eapply (run_reachable [DispatchCommand m1; DispatchCommand m2; DispatchCommand m3; ProcessCommand; Lock; Take;
    WaitForDebugger; Lock; DispatchCommand resume; Wake; Take; RunIfWaitingForDebugger; Return; Drained; Lock;
    Return; Take]); [apply reaches_init|reflexivity].
Qed.

(** *** Witnesses *)

Lemma messages_conserved_witness :
  ∃ h, reachable h ∧ handled h = [str "a"] ∧ [str "a"; str "b"] ≡ₚ handled h ++ pending h ++ requestQueue_ h.
Proof.
  assert (Hr : ∃ h, reachable h ∧ handled h = [str "a"] ∧ sent h = [str "a"; str "b"]).
  { eexists. split; [eapply (run_reachable [DispatchCommand (str "a"); ProcessCommand; Lock; Take;
      DispatchCommand (str "b")]); [apply reaches_init|reflexivity]|done]. }
  destruct Hr as (h & Hr & Hh & Hs). exists h. split_and!; [done..|]. rewrite <- Hs.
  exact (messages_conserved h Hr).
Defined.

Lemma no_lost_wakeup_witness :
  let h := mkHandler [] true false [mkFrame (Asleep false) []] [] [] in
  ∃ h', run [DispatchCommand (str "resume"); Wake; Take] h = Some h' ∧ handled h' = [str "resume"].
Proof.
  intros h. assert (Hr : reachable h).
  { eapply (run_reachable [WaitForDebugger; Lock]); [apply reaches_init|reflexivity]. }
  destruct (no_lost_wakeup h (mkFrame (Asleep false) []) [] (str "resume") Hr eq_refl eq_refl)
    as (_ & h' & ? & ? & _).
  by exists h'.
Defined.

Lemma messages_in_order_witness :
  let h := mkHandler [str "b"] false false [] [str "a"; str "b"] [str "a"] in
  sent h = handled h ++ pending h ++ requestQueue_ h.
Proof.
  intros h. apply (messages_in_order h).
  eapply (run_reaches _ [DispatchCommand (str "a"); ProcessCommand; Lock; Take; Return; Drained; Lock;
    DispatchCommand (str "b")]); [apply reaches_init| |reflexivity].
  simpl. unfold calls_at_end. simpl. naive_solver.
Defined.

Lemma process_command_drains_witness :
  let h := mkHandler [str "a"; str "b"] false false [] [str "a"; str "b"] [] in
  run ([ProcessCommand; Lock] ++ serve [str "a"; str "b"] ++ [Drained; Lock]) h =
  Some (mkHandler [] false false [] [str "a"; str "b"] [str "a"; str "b"]).
Proof.
  intros h. exact (process_command_drains h eq_refl eq_refl ltac:(discriminate)).
Defined.

Lemma dispatch_status_sound_witness :
  let h := mkHandler [] false false [] [str "a"] [str "a"] in
  GetDispatchStatus h = DISPATCHED ∧ handled h = sent h.
Proof.
  intros h. split; [reflexivity|]. apply (dispatch_status_sound h); [|reflexivity].
  eapply (run_reaches _ [DispatchCommand (str "a"); ProcessCommand; Lock; Take; Return; Drained; Lock]);
    [apply reaches_init| |reflexivity].
  simpl. unfold no_nesting. simpl. naive_solver.
Defined.
