(* ===== verification/StaticBreakpoints.v ===== *)
(** * Breakpoints of the static debugger

    Models tooling/static/debugger/{breakpoint_base.h, breakpoint.{h,cpp},
    conditional_breakpoint.{h,cpp}, breakpoint_storage.{h,cpp}}. The reader-writer
    lock makes every operation of the storage atomic. The answer of
    [DebugInfoCache::GetBreakpointLocations], the tables of the debug
    information of a file and the evaluation of a condition are arguments.
    [breakpointLocations_] is a multimap: a list of pairs. *)

From S2P Require Import Prelude.
Local Open Scope Z_scope.

(** ** Data *)

(** A location is constructed from a file name, a method and an offset and is
    only compared. *)
Record PtLocation := mkPtLocation {
  loc_file : bytes;
  loc_method : Z;
  loc_offset : Z }.

#[export] Instance PtLocation_eq_dec : EqDecision PtLocation.
Proof. solve_decision. Defined.

(** What evaluating a condition in the top frame gives. *)
Inductive eval_result := EvalError | EvalException | EvalValue (b : bool).
Class EvaluationEngine := EvaluateExpression : bytes → eval_result.

Inductive BreakpointBase :=
| Breakpoint (resolved_ : bool) (locations_ : list PtLocation) (sourceFileFilter_ : bytes → bytes → bool)
    (lineNumber_ : Z)
| ConditionalBreakpoint (resolved_ : bool) (location_ : option PtLocation)
    (sourceFileFilter_ : bytes → bytes → bool) (lineNumber_ : Z) (bytecode_ : bytes).

Definition IsResolved (b : BreakpointBase) : bool :=
  match b with Breakpoint r _ _ _ => r | ConditionalBreakpoint r _ _ _ _ => r end.

(** The locations that [EnumerateLocations] visits. *)
Definition EnumerateLocations (b : BreakpointBase) : list PtLocation :=
  match b with
  | Breakpoint _ ls _ _ => ls
  | ConditionalBreakpoint _ l _ _ _ => match l with Some l => [l] | None => [] end
  end.

Definition Breakpoint_ShouldStopAt (resolved_ : bool) (locations_ : list PtLocation) (location : PtLocation) : bool :=
  if negb resolved_ then false else existsb (λ loc, bool_decide (loc = location)) locations_.

Definition ConditionalBreakpoint_ShouldStopAt `{EvaluationEngine} (location_ : option PtLocation)
    (bytecode_ : bytes) (location : PtLocation) : bool :=
  match location_ with
  | None => false
  | Some l =>
      if negb (bool_decide (l = location)) then false
      else match EvaluateExpression bytecode_ with
           | EvalError => false
           | EvalException => false
           | EvalValue v => v
           end
  end.

Definition ShouldStopAt `{EvaluationEngine} (b : BreakpointBase) (location : PtLocation) : bool :=
  match b with
  | Breakpoint r ls _ _ => Breakpoint_ShouldStopAt r ls location
  | ConditionalBreakpoint _ l _ _ code => ConditionalBreakpoint_ShouldStopAt l code location
  end.

(** ** Setting the locations of a breakpoint

    [locations] is the answer of the debug information cache; the result is the
    returned flag, the breakpoint and the multimap. *)
Definition multimap := list (PtLocation * Z).

Definition Breakpoint_SetLocations (id : Z) (resolved_ : bool) (f : bytes → bytes → bool) (line : Z)
    (locations : list PtLocation) (m : multimap) : bool * BreakpointBase * multimap :=
  match locations with
  | [] => (false, Breakpoint resolved_ [] f line, m)
  | _ => (true, Breakpoint true locations f line, m ++ ((λ l, (l, id)) <$> locations))
  end.

Definition ConditionalBreakpoint_SetLocations (id : Z) (resolved_ : bool) (location_ : option PtLocation)
    (f : bytes → bytes → bool) (line : Z) (code : bytes) (locations : list PtLocation) (m : multimap)
    : bool * BreakpointBase * multimap :=
  match locations with
  | _ :: _ :: _ => (false, ConditionalBreakpoint resolved_ location_ f line code, m)
  | [] => (true, ConditionalBreakpoint resolved_ location_ f line code, m)
  | [loc] => (true, ConditionalBreakpoint true (Some loc) f line code, m ++ [(loc, id)])
  end.

Definition SetLocations (id : Z) (b : BreakpointBase) (locations : list PtLocation) (m : multimap)
    : bool * BreakpointBase * multimap :=
  match b with
  | Breakpoint r _ f line => Breakpoint_SetLocations id r f line locations m
  | ConditionalBreakpoint r l f line code => ConditionalBreakpoint_SetLocations id r l f line code locations m
  end.

(** ** Resolving on a newly loaded file *)

Record method_info := mkMethodInfo {
  mi_id : Z;
  mi_source : bytes;
  mi_lines : list (Z * Z) }.

(** The first offset of the line in the table of a method. *)
Definition first_offset (line : Z) (m : method_info) : option Z :=
  snd <$> (snd <$> list_find (λ e : Z * Z, e.1 = line) (mi_lines m)).

(** The location found in one method, when the filter accepts its source. *)
Definition method_location (file : bytes) (f : bytes → bytes → bool) (line : Z) (m : method_info)
    : option PtLocation :=
  if f (mi_source m) file then mkPtLocation file (mi_id m) <$> first_offset line m else None.

Definition set_add (l : PtLocation) (ls : list PtLocation) : list PtLocation :=
  if decide (l ∈ ls) then ls else ls ++ [l].

(** The loop over the methods: every location found is added to the breakpoint
    and to the multimap. *)
Fixpoint resolve_methods (id : Z) (file : bytes) (ms : list method_info) (b : BreakpointBase) (mm : multimap)
    : BreakpointBase * multimap :=
  match ms with
  | [] => (b, mm)
  | m :: ms' =>
      match b with
      | Breakpoint r ls f line =>
          match method_location file f line m with
          | Some loc => resolve_methods id file ms' (Breakpoint true (set_add loc ls) f line) (mm ++ [(loc, id)])
          | None => resolve_methods id file ms' b mm
          end
      | ConditionalBreakpoint r l f line code =>
          match method_location file f line m with
          | Some loc =>
              resolve_methods id file ms' (ConditionalBreakpoint true (Some loc) f line code) (mm ++ [(loc, id)])
          | None => resolve_methods id file ms' b mm
          end
      end
  end.

Definition TryResolve (id : Z) (file : bytes) (ms : list method_info) (b : BreakpointBase) (mm : multimap)
    : BreakpointBase * multimap :=
  match b with
  | ConditionalBreakpoint true _ _ _ _ => (b, mm)
  | _ => resolve_methods id file ms b mm
  end.

(** ** The storage *)

Record BreakpointStorage := mkStorage {
  breakpointsActive_ : bool;
  nextBreakpointId_ : Z;
  breakpointLocations_ : multimap;
  breakpointStorage_ : gmap Z BreakpointBase }.

Definition storage_init : BreakpointStorage := mkStorage true 0 [] ∅.

Definition GetBreakpointsByLocation (s : BreakpointStorage) (location : PtLocation) : list Z :=
  snd <$> filter (λ p, p.1 = location) (breakpointLocations_ s).

(** The loop over the breakpoints of a location; [None] when a breakpoint is
    not in the table, where the code dereferences a null pointer. *)
Fixpoint stop_loop `{EvaluationEngine} (t : gmap Z BreakpointBase) (location : PtLocation) (ids : list Z)
    : option bool :=
  match ids with
  | [] => Some false
  | id :: ids' =>
      match t !! id with
      | None => None
      | Some b => if ShouldStopAt b location then Some true else stop_loop t location ids'
      end
  end.

Definition ShouldStopAtBreakpoint `{EvaluationEngine} (s : BreakpointStorage) (location : PtLocation) : option bool :=
  if negb (breakpointsActive_ s) then Some false
  else stop_loop (breakpointStorage_ s) location (GetBreakpointsByLocation s location).

Definition SetBreakpoint (filter : bytes → bytes → bool) (lineNumber : Z) (condition : option bytes)
    (locations : list PtLocation) (s : BreakpointStorage) : option Z * BreakpointStorage :=
  let id := nextBreakpointId_ s in
  let bbp := match condition with
             | None => Breakpoint false [] filter lineNumber
             | Some code => ConditionalBreakpoint false None filter lineNumber code
             end in
  match SetLocations id bbp locations (breakpointLocations_ s) with
  | (false, _, mm) => (None, mkStorage (breakpointsActive_ s) id mm (breakpointStorage_ s))
  | (true, b, mm) =>
      (Some id, mkStorage (breakpointsActive_ s) (u64 (id + 1)) mm (<[id := b]> (breakpointStorage_ s)))
  end.

Definition RemoveBreakpoint (id : Z) (s : BreakpointStorage) : BreakpointStorage :=
  mkStorage (breakpointsActive_ s) (nextBreakpointId_ s)
    (filter (λ p, p.2 ≠ id) (breakpointLocations_ s)) (delete id (breakpointStorage_ s)).

Definition RemoveBreakpoints (f : PtLocation → bool) (s : BreakpointStorage) : BreakpointStorage :=
  let breakpointsToRemove := snd <$> filter (λ p, f p.1 = true) (breakpointLocations_ s) in
  foldl (λ s id, RemoveBreakpoint id s) s breakpointsToRemove.

Definition Reset (s : BreakpointStorage) : BreakpointStorage := storage_init.
Definition SetBreakpointsActive (active : bool) (s : BreakpointStorage) : BreakpointStorage :=
  mkStorage active (nextBreakpointId_ s) (breakpointLocations_ s) (breakpointStorage_ s).

(** [ResolveBreakpoints]: every breakpoint of the table, in some order. *)
Definition resolve_one (file : bytes) (ms : list method_info) (id : Z) (s : BreakpointStorage) : BreakpointStorage :=
  match breakpointStorage_ s !! id with
  | None => s
  | Some b =>
      let '(b', mm) := TryResolve id file ms b (breakpointLocations_ s) in
      mkStorage (breakpointsActive_ s) (nextBreakpointId_ s) mm (<[id := b']> (breakpointStorage_ s))
  end.

Definition ResolveBreakpoints (file : bytes) (ms : list method_info) (s : BreakpointStorage) : BreakpointStorage :=
  foldl (λ s id, resolve_one file ms id s) s (map_to_list (breakpointStorage_ s)).*1.

(** ** The invariant *)

(** Every location of the multimap belongs to a breakpoint of the table, every
    location of a breakpoint is in the multimap and the breakpoint is resolved,
    and the identifiers in use are below the next one. *)
Record storage_wf (s : BreakpointStorage) : Prop := {
  wf_entry loc id : (loc, id) ∈ breakpointLocations_ s → is_Some (breakpointStorage_ s !! id);
  wf_id id b : breakpointStorage_ s !! id = Some b → 0 ≤ id < nextBreakpointId_ s;
  wf_location id b loc : breakpointStorage_ s !! id = Some b → loc ∈ EnumerateLocations b →
    (loc, id) ∈ breakpointLocations_ s ∧ IsResolved b = true;
  wf_next : 0 ≤ nextBreakpointId_ s < 2 ^ 64 }.

Lemma storage_init_wf : storage_wf storage_init.
Proof. split; simpl; [set_solver|by intros ? ? ?%lookup_empty_Some|by intros ? ? ? ?%lookup_empty_Some|lia]. Qed.

(** What a breakpoint with its entries in the multimap satisfies; kept by
    [SetLocations] and by the resolution. *)
Definition bp_wf (id : Z) (b : BreakpointBase) (mm : multimap) : Prop :=
  ∀ loc, loc ∈ EnumerateLocations b → (loc, id) ∈ mm ∧ IsResolved b = true.
(** The multimap only grows, by entries of [id]. *)
Definition extends (id : Z) (mm mm' : multimap) : Prop :=
  (∀ e, e ∈ mm → e ∈ mm') ∧ (∀ e, e ∈ mm' → e ∈ mm ∨ e.2 = id).

Lemma SetLocations_wf id b locations mm ok b' mm' :
  EnumerateLocations b = [] → SetLocations id b locations mm = (ok, b', mm') →
  bp_wf id b' mm' ∧ extends id mm mm' ∧ (ok = false → mm' = mm).
Proof.
  intros He E. unfold bp_wf, extends.
  destruct b as [r ls f line|r l f line code]; simpl in *.
  - destruct locations as [|loc locs]; injection E as <- <- <-; [set_solver|].
    split_and!; [|set_solver|set_solver|done].
    intros loc' Hl. split; [|done]. apply elem_of_app. right.
    exact (list_elem_of_fmap_2 (λ l, (l, id)) (loc :: locs) loc' Hl).
  - destruct l as [l|]; [done|]. destruct locations as [|loc [|loc' locs]]; injection E as <- <- <-; set_solver.
Qed.

Lemma resolve_methods_wf id file ms : ∀ b mm b' mm',
  bp_wf id b mm → resolve_methods id file ms b mm = (b', mm') → bp_wf id b' mm' ∧ extends id mm mm'.
Proof.
  induction ms as [|m ms IH]; intros b mm b' mm' Hb E; simpl in E.
  { injection E as <- <-. split; [done|]. unfold extends. naive_solver. }
  assert (Hstep : ∀ loc b1, (∀ l, l ∈ EnumerateLocations b1 → l ∈ EnumerateLocations b ∨ l = loc) →
    IsResolved b1 = true → resolve_methods id file ms b1 (mm ++ [(loc, id)]) = (b', mm') →
    bp_wf id b' mm' ∧ extends id mm mm').
  { intros loc b1 Hsub Hr E1. apply IH in E1 as [Hb' [He1 He2]].
    - split; [done|]. split; [set_solver|]. intros e He. apply He2 in He. set_solver.
    - intros l Hl. split; [|done]. destruct (Hsub l Hl) as [Hl'| ->]; [|set_solver].
      apply elem_of_app. left. by apply Hb. }
  destruct b as [r ls f line|r l f line code]; destruct (method_location file f line m) as [loc|];
    try (by apply IH in E).
  - apply (Hstep loc) in E; [done| |done]. intros l. simpl. unfold set_add. case_decide; set_solver.
  - apply (Hstep loc) in E; [done| |done]. simpl. set_solver.
Qed.

Lemma TryResolve_wf id file ms b mm b' mm' :
  bp_wf id b mm → TryResolve id file ms b mm = (b', mm') → bp_wf id b' mm' ∧ extends id mm mm'.
Proof.
  intros Hb E. unfold TryResolve in E.
  destruct b as [r ls f line|[] l f line code]; try (by eapply resolve_methods_wf).
  injection E as <- <-. split; [done|]. unfold extends. naive_solver.
Qed.

Lemma SetBreakpoint_wf f line cond locs s :
  storage_wf s → nextBreakpointId_ s + 1 < 2 ^ 64 → storage_wf (SetBreakpoint f line cond locs s).2.
Proof.
  intros Hs Hn. unfold SetBreakpoint. set (bbp := match cond with None => _ | Some _ => _ end).
  destruct (SetLocations _ bbp locs (breakpointLocations_ s)) as [[ok b] mm] eqn:E.
  apply SetLocations_wf in E as (Hb & [He1 He2] & Hno); [|by destruct cond].
  pose proof (wf_next _ Hs). destruct ok; simpl.
  - unfold u64. rewrite wrap_small by lia. split; simpl; [| | |lia].
    + intros loc id Hin. destruct (He2 _ Hin) as [Hin'|Hid]; simpl in *.
      * apply (wf_entry _ Hs) in Hin'. destruct (decide (id = nextBreakpointId_ s)) as [->|].
        { rewrite lookup_insert_eq. by eexists. }
        by rewrite lookup_insert_ne.
      * rewrite Hid, lookup_insert_eq. by eexists.
    + intros id b1. rewrite lookup_insert_Some. intros [[<- _]|[Hne Hl]]; [lia|].
      apply (wf_id _ Hs) in Hl. lia.
    + intros id b1 loc. rewrite lookup_insert_Some. intros [[<- <-]|[Hne Hl]] Hloc; [by apply Hb|].
      destruct (wf_location _ Hs id b1 loc Hl Hloc). split; [by apply He1|done].
  - rewrite Hno by done. destruct Hs. by split.
Qed.

Lemma RemoveBreakpoint_wf id s : storage_wf s → storage_wf (RemoveBreakpoint id s).
Proof.
  intros Hs. split; simpl.
  - intros loc id' Hin. apply list_elem_of_filter in Hin as [Hne Hin]. simpl in Hne.
    rewrite lookup_delete_ne by done. by apply (wf_entry _ Hs) in Hin.
  - intros id' b Hl. apply lookup_delete_Some in Hl as [_ Hl]. by apply (wf_id _ Hs) in Hl.
  - intros id' b loc Hl Hloc. apply lookup_delete_Some in Hl as [Hne Hl].
    destruct (wf_location _ Hs id' b loc Hl Hloc). split; [|done]. by apply list_elem_of_filter.
  - apply (wf_next _ Hs).
Qed.

Lemma foldl_wf {A} (op : BreakpointStorage → A → BreakpointStorage) l : ∀ s,
  (∀ s a, storage_wf s → storage_wf (op s a)) → storage_wf s → storage_wf (foldl op s l).
Proof. induction l as [|a l IH]; intros s Hop Hs; [done|]. simpl. apply IH; [done|]. by apply Hop. Qed.

Lemma resolve_one_wf file ms id s : storage_wf s → storage_wf (resolve_one file ms id s).
Proof.
  intros Hs. unfold resolve_one. destruct (breakpointStorage_ s !! id) as [b|] eqn:Eb; [|done].
  destruct (TryResolve id file ms b (breakpointLocations_ s)) as [b' mm] eqn:E.
  apply TryResolve_wf in E as [Hb' [He1 He2]]; [|by intros loc; apply (wf_location _ Hs)].
  split; simpl.
  - intros loc id' Hin. destruct (decide (id' = id)) as [->|Hne]; [rewrite lookup_insert_eq; by eexists|].
    rewrite lookup_insert_ne by done. destruct (He2 _ Hin) as [Hin'|?]; [|done].
    by apply (wf_entry _ Hs) in Hin'.
  - intros id' b1. rewrite lookup_insert_Some. intros [[<- _]|[_ Hl]]; by eapply (wf_id _ Hs).
  - intros id' b1 loc. rewrite lookup_insert_Some. intros [[<- <-]|[Hne Hl]] Hloc; [by apply Hb'|].
    destruct (wf_location _ Hs id' b1 loc Hl Hloc). split; [by apply He1|done].
  - apply (wf_next _ Hs).
Qed.

(** ** Properties *)

(** C28: every operation of the storage preserves its invariant: the multimap
    and the table agree, and identifiers are not reused as long as fewer than
    2^64 breakpoints have been set. *)
Theorem storage_invariant (s : BreakpointStorage) :
  storage_wf s →
  (∀ f line cond locs, nextBreakpointId_ s + 1 < 2 ^ 64 → storage_wf (SetBreakpoint f line cond locs s).2) ∧
  (∀ id, storage_wf (RemoveBreakpoint id s)) ∧
  (∀ f, storage_wf (RemoveBreakpoints f s)) ∧
  (∀ file ms, storage_wf (ResolveBreakpoints file ms s)) ∧
  (∀ active, storage_wf (SetBreakpointsActive active s)) ∧
  storage_wf (Reset s).
Proof.
  intros Hs. split_and!; intros.
  - by apply SetBreakpoint_wf.
  - by apply RemoveBreakpoint_wf.
  - apply foldl_wf; [|done]. intros. by apply RemoveBreakpoint_wf.
  - apply foldl_wf; [|done]. intros. by apply resolve_one_wf.
  - destruct Hs. by split.
  - apply storage_init_wf.
Qed.

(** When a breakpoint stops the program at a location. *)
Definition stops `{EvaluationEngine} (b : BreakpointBase) (loc : PtLocation) : Prop :=
  match b with
  | Breakpoint _ ls _ _ => loc ∈ ls
  | ConditionalBreakpoint _ l _ _ code => l = Some loc ∧ EvaluateExpression code = EvalValue true
  end.

Lemma ShouldStopAt_spec `{EvaluationEngine} b loc :
  (∀ l, l ∈ EnumerateLocations b → IsResolved b = true) → ShouldStopAt b loc = true ↔ stops b loc.
Proof.
  intros Hr. destruct b as [r ls f line|r l f line code]; simpl in *.
  - unfold Breakpoint_ShouldStopAt. split.
    + destruct r; [|done]. simpl. rewrite existsb_exists. intros (l & Hin & E%bool_decide_eq_true). subst.
      by apply list_elem_of_In.
    + intros Hin. rewrite (Hr loc Hin). simpl. apply existsb_exists. exists loc.
      split; [by apply list_elem_of_In|by apply bool_decide_eq_true].
  - unfold ConditionalBreakpoint_ShouldStopAt. destruct l as [l|]; [|naive_solver].
    destruct (bool_decide (l = loc)) eqn:E; simpl.
    + apply bool_decide_eq_true in E as ->. destruct (EvaluateExpression code) as [| |[]]; naive_solver.
    + apply bool_decide_eq_false in E. naive_solver.
Qed.

(** C24: with the invariant, looking for a breakpoint never dereferences a missing
    one, and it stops the program exactly when breakpoints are active and some
    breakpoint of the table has the location and, if it has a condition, the
    condition evaluates to true. *)
Theorem should_stop_iff `{EvaluationEngine} (s : BreakpointStorage) (loc : PtLocation) :
  storage_wf s →
  ∃ r, ShouldStopAtBreakpoint s loc = Some r ∧
       (r = true ↔ breakpointsActive_ s = true ∧
                   ∃ id b, breakpointStorage_ s !! id = Some b ∧ stops b loc).
Proof.
  intros Hs. unfold ShouldStopAtBreakpoint. destruct (breakpointsActive_ s); simpl; [|by eexists; naive_solver].
  assert (Hids : ∀ ids, (∀ id, id ∈ ids → is_Some (breakpointStorage_ s !! id)) →
    ∃ r, stop_loop (breakpointStorage_ s) loc ids = Some r ∧
         (r = true ↔ ∃ id b, id ∈ ids ∧ breakpointStorage_ s !! id = Some b ∧ stops b loc)).
  { induction ids as [|id ids IH]; intros Hin.
    { exists false. split; [done|]. set_solver. }
    simpl. destruct (Hin id) as [b Hb]; [set_solver|]. rewrite Hb.
    assert (Hst : ShouldStopAt b loc = true ↔ stops b loc)
      by (apply ShouldStopAt_spec; intros l Hl; by eapply (wf_location _ Hs)).
    destruct (ShouldStopAt b loc).
    { exists true. split; [done|]. split; [|done]. intros _. exists id, b. split_and!; [set_solver|done|by apply Hst]. }
    destruct IH as (r & -> & Hr); [set_solver|]. exists r. split; [done|]. rewrite Hr. split.
    - intros (id' & b' & ? & ? & ?). exists id', b'. set_solver.
    - intros (id' & b' & [->|Hi]%elem_of_cons & Hb' & Hs'); [|by exists id', b'].
      simplify_eq. by apply Hst in Hs'. }
  destruct (Hids (GetBreakpointsByLocation s loc)) as (r & -> & Hr).
  { intros id (p & -> & Hp)%list_elem_of_fmap. apply list_elem_of_filter in Hp as [_ Hp].
    destruct p as [l id]. by apply (wf_entry _ Hs) in Hp. }
  exists r. split; [done|]. rewrite Hr. split.
  - intros (id & b & _ & ? & ?). eauto.
  - intros (_ & id & b & Hb & Hst). exists id, b. split_and!; [|done..].
    unfold GetBreakpointsByLocation. apply list_elem_of_fmap. exists (loc, id). split; [done|].
    apply list_elem_of_filter. split; [done|]. apply (wf_location _ Hs id b loc Hb).
    destruct b as [? ls ? ?|? l ? ? ?]; simpl in *; [done|]. destruct Hst as [-> _]. set_solver.
Qed.

(** A breakpoint whose line has no location yet is kept pending only when it
    has a condition; one without a condition is dropped and never hit, although
    it is reported as pending. *)
Theorem pending_breakpoint_dropped (f : bytes → bytes → bool) (line : Z) (s : BreakpointStorage) :
  SetBreakpoint f line None [] s = (None, s) ∧
  (∀ code, (SetBreakpoint f line (Some code) [] s).1 = Some (nextBreakpointId_ s) ∧
     breakpointStorage_ (SetBreakpoint f line (Some code) [] s).2 !! nextBreakpointId_ s =
       Some (ConditionalBreakpoint false None f line code)).
Proof.
  split; [by destruct s|]. intros code. simpl. split; [done|apply lookup_insert_eq].
Qed.

(** *** Witnesses *)

Definition demo_loc : PtLocation := mkPtLocation (str "entry.abc") 7 12.
Definition demo_engine : EvaluationEngine := λ _, EvalValue true.
Definition demo_storage : BreakpointStorage :=
  (SetBreakpoint (λ _ _, true) 10 (Some (str "x > 1")) [demo_loc] storage_init).2.

Lemma storage_invariant_witness :
  storage_wf (SetBreakpoint (λ _ _, true) 10 (Some (str "x > 1")) [demo_loc] storage_init).2.
Proof. apply (storage_invariant storage_init storage_init_wf). simpl. lia. Defined.

Lemma should_stop_iff_witness :
  ∃ r, @ShouldStopAtBreakpoint demo_engine demo_storage demo_loc = Some r ∧ r = true.
Proof.
  destruct (@should_stop_iff demo_engine demo_storage demo_loc) as (r & E & Hr).
  - apply SetBreakpoint_wf; [apply storage_init_wf|simpl; lia].
  - exists r. split; [exact E|]. apply Hr. split; [reflexivity|].
    exists 0, (ConditionalBreakpoint true (Some demo_loc) (λ _ _, true) 10 (str "x > 1")).
    split; [reflexivity|split; reflexivity].
Defined.
