(* ===== verification/ThreadState.v ===== *)
(** * Stepping in the static debugger

    Models tooling/static/debugger/thread_state.{h,cpp} and the flags of
    tooling/hybrid_step/hybrid_single_stepper.{h,cpp} through which the static
    and the dynamic debugger hand a step over to each other. An operation is a
    function on the state of a thread and the flags. The assertion [!paused_] of
    the notifications is a precondition: a paused thread does not run. *)

From S2P Require Import Prelude StaticBreakpoints.
Local Open Scope Z_scope.

(** ** The hybrid stepper *)

Inductive HybridStepDirection := DYNAMIC_TO_STATIC | STATIC_TO_DYNAMIC.

Record HybridSingleStepper := mkHybrid {
  dynamicToStatic_ : bool;
  staticToDynamic_ : bool }.

Definition GetHybridSingleStepFlag (d : HybridStepDirection) (h : HybridSingleStepper) : bool :=
  match d with DYNAMIC_TO_STATIC => dynamicToStatic_ h | STATIC_TO_DYNAMIC => staticToDynamic_ h end.
Definition SetHybridSingleStepFlag (d : HybridStepDirection) (value : bool) (h : HybridSingleStepper)
    : HybridSingleStepper :=
  match d with
  | DYNAMIC_TO_STATIC => mkHybrid value (staticToDynamic_ h)
  | STATIC_TO_DYNAMIC => mkHybrid (dynamicToStatic_ h) value
  end.

(** ** The state of a thread *)

Inductive StepKind := NONE | BREAK_ON_START | CONTINUE_TO | PAUSE | STEP_INTO | STEP_OUT | STEP_OVER.
Inductive PauseOnExceptionsState := POE_NONE | POE_CAUGHT | POE_UNCAUGHT | POE_ALL.
Inductive PauseReason := PR_OTHER | PR_STEP | PR_EXCEPTION | PR_BREAK_ON_START.

#[export] Instance StepKind_eq_dec : EqDecision StepKind.
Proof. solve_decision. Defined.

Record ThreadState := mkThread {
  stepKind_ : StepKind;
  stepLocations_ : list PtLocation;
  methodEntered_ : bool;
  pauseOnExceptionsState_ : PauseOnExceptionsState;
  paused_ : bool;
  skipAllPauses_ : bool;
  breakOnStart_ : bool;
  pauseReason_ : PauseReason }.

Definition thread_init : ThreadState := mkThread NONE [] false POE_NONE false false false PR_OTHER.

Definition set_stepKind (k : StepKind) (t : ThreadState) : ThreadState :=
  mkThread k (stepLocations_ t) (methodEntered_ t) (pauseOnExceptionsState_ t) (paused_ t) (skipAllPauses_ t)
    (breakOnStart_ t) (pauseReason_ t).
Definition set_stepLocations (l : list PtLocation) (t : ThreadState) : ThreadState :=
  mkThread (stepKind_ t) l (methodEntered_ t) (pauseOnExceptionsState_ t) (paused_ t) (skipAllPauses_ t)
    (breakOnStart_ t) (pauseReason_ t).
Definition set_methodEntered (b : bool) (t : ThreadState) : ThreadState :=
  mkThread (stepKind_ t) (stepLocations_ t) b (pauseOnExceptionsState_ t) (paused_ t) (skipAllPauses_ t)
    (breakOnStart_ t) (pauseReason_ t).
Definition set_poe (p : PauseOnExceptionsState) (t : ThreadState) : ThreadState :=
  mkThread (stepKind_ t) (stepLocations_ t) (methodEntered_ t) p (paused_ t) (skipAllPauses_ t)
    (breakOnStart_ t) (pauseReason_ t).
Definition set_paused (b : bool) (t : ThreadState) : ThreadState :=
  mkThread (stepKind_ t) (stepLocations_ t) (methodEntered_ t) (pauseOnExceptionsState_ t) b (skipAllPauses_ t)
    (breakOnStart_ t) (pauseReason_ t).
Definition set_skip (b : bool) (t : ThreadState) : ThreadState :=
  mkThread (stepKind_ t) (stepLocations_ t) (methodEntered_ t) (pauseOnExceptionsState_ t) (paused_ t) b
    (breakOnStart_ t) (pauseReason_ t).
Definition set_breakOnStart (b : bool) (t : ThreadState) : ThreadState :=
  mkThread (stepKind_ t) (stepLocations_ t) (methodEntered_ t) (pauseOnExceptionsState_ t) (paused_ t)
    (skipAllPauses_ t) b (pauseReason_ t).
Definition set_reason (r : PauseReason) (t : ThreadState) : ThreadState :=
  mkThread (stepKind_ t) (stepLocations_ t) (methodEntered_ t) (pauseOnExceptionsState_ t) (paused_ t)
    (skipAllPauses_ t) (breakOnStart_ t) r.

Notation "t ▸ f" := (f t) (at level 50, left associativity, only parsing) : ark_scope.
Local Open Scope ark_scope.

(** *** Requests of the client *)

Definition ThreadState_Reset (t : ThreadState) : ThreadState :=
  t ▸ set_stepKind BREAK_ON_START ▸ set_stepLocations [] ▸ set_methodEntered false ▸ set_skip false
    ▸ set_poe POE_NONE.

Definition BreakOnStart (t : ThreadState) : ThreadState :=
  (if negb (paused_ t) then set_stepKind BREAK_ON_START t else t) ▸ set_breakOnStart true.

Definition Continue (t : ThreadState) (h : HybridSingleStepper) : ThreadState * HybridSingleStepper :=
  (t ▸ set_stepKind NONE ▸ set_paused false ▸ set_reason PR_OTHER,
   SetHybridSingleStepFlag STATIC_TO_DYNAMIC false h).

Definition ContinueTo (locations : list PtLocation) (t : ThreadState) (h : HybridSingleStepper)
    : ThreadState * HybridSingleStepper :=
  (t ▸ set_stepKind CONTINUE_TO ▸ set_stepLocations locations ▸ set_paused false ▸ set_reason PR_OTHER,
   SetHybridSingleStepFlag STATIC_TO_DYNAMIC false h).

Definition StepInto (locations : list PtLocation) (t : ThreadState) (h : HybridSingleStepper)
    : ThreadState * HybridSingleStepper :=
  (t ▸ set_stepKind STEP_INTO ▸ set_methodEntered false ▸ set_stepLocations locations ▸ set_paused false
     ▸ set_reason PR_STEP,
   SetHybridSingleStepFlag STATIC_TO_DYNAMIC true h).

Definition StepOver (locations : list PtLocation) (t : ThreadState) : ThreadState :=
  t ▸ set_stepKind STEP_OVER ▸ set_methodEntered false ▸ set_stepLocations locations ▸ set_paused false
    ▸ set_reason PR_STEP.

Definition StepOut (t : ThreadState) (h : HybridSingleStepper) : ThreadState * HybridSingleStepper :=
  (t ▸ set_stepKind STEP_OUT ▸ set_methodEntered true ▸ set_paused false ▸ set_reason PR_STEP,
   SetHybridSingleStepFlag STATIC_TO_DYNAMIC true h).

Definition Pause (t : ThreadState) : ThreadState :=
  if negb (paused_ t) && negb (skipAllPauses_ t) then set_stepKind PAUSE t else t.
Definition SetSkipAllPauses (skip : bool) (t : ThreadState) : ThreadState := set_skip skip t.
Definition SetPauseOnExceptions (state : PauseOnExceptionsState) (t : ThreadState) : ThreadState := set_poe state t.

(** *** Notifications of the program *)

Definition OnException (uncaught : bool) (t : ThreadState) : ThreadState :=
  if skipAllPauses_ t then t
  else
    let t := match pauseOnExceptionsState_ t with
             | POE_NONE => t
             | POE_CAUGHT => set_paused (negb uncaught) t
             | POE_UNCAUGHT => set_paused uncaught t
             | POE_ALL => set_paused true t
             end in
    if paused_ t then set_reason PR_EXCEPTION t else t.

Definition OnFramePop (t : ThreadState) : ThreadState :=
  match stepKind_ t with
  | STEP_OUT | STEP_OVER => set_methodEntered false t
  | _ => t
  end.

(** The returned flag asks for a notification when the frame is popped. *)
Definition OnMethodEntry (t : ThreadState) : bool * ThreadState :=
  match stepKind_ t with
  | STEP_OUT | STEP_OVER => (negb (methodEntered_ t), set_methodEntered true t)
  | _ => (false, t)
  end.

Definition at_step_location (location : PtLocation) (t : ThreadState) : bool :=
  bool_decide (location ∈ stepLocations_ t).

(** [bp] is the answer of the breakpoint storage for the location. *)
Definition thread_ShouldStopAtBreakpoint (bp : bool) (t : ThreadState) : bool :=
  if skipAllPauses_ t then false else bp.

Definition OnSingleStep (bp : bool) (location : PtLocation) (t : ThreadState) (h : HybridSingleStepper)
    : ThreadState * HybridSingleStepper :=
  if breakOnStart_ t then
    if thread_ShouldStopAtBreakpoint bp t then (t ▸ set_paused true ▸ set_reason PR_OTHER, h)
    else
      let t := if decide (stepKind_ t = STEP_INTO) then t else set_reason PR_BREAK_ON_START t in
      (t ▸ set_stepKind BREAK_ON_START ▸ set_paused true ▸ set_breakOnStart false, h)
  else if GetHybridSingleStepFlag DYNAMIC_TO_STATIC h then
    (t ▸ set_paused true ▸ set_reason PR_OTHER, SetHybridSingleStepFlag DYNAMIC_TO_STATIC false h)
  else if thread_ShouldStopAtBreakpoint bp t then (set_paused true t, h)
  else
    (match stepKind_ t with
     | NONE => set_paused false t
     | BREAK_ON_START => t
     | CONTINUE_TO => set_paused (at_step_location location t) t
     | PAUSE => set_paused true t
     | STEP_INTO => set_paused (negb (at_step_location location t)) t
     | STEP_OUT => set_paused (negb (methodEntered_ t)) t
     | STEP_OVER => set_paused (negb (methodEntered_ t) && negb (at_step_location location t)) t
     end, h).

(** ** Runs of a program

    The program steps through locations and calls methods; the notifications of
    a call are those of the runtime: the entry, the steps of the body, and the
    frame pop when the entry asked for it. A paused thread does not go on. *)
#[warnings="-register-all"]
Inductive act :=
| Step (l : PtLocation)
| Call (body : list act).

Section Runs.
Variable bp : PtLocation → bool.

Fixpoint run_act (a : act) (t : ThreadState) (h : HybridSingleStepper) : ThreadState * HybridSingleStepper :=
  match a with
  | Step l => OnSingleStep (bp l) l t h
  | Call body =>
      let '(interesting, t1) := OnMethodEntry t in
      let '(t2, h2) :=
        (fix run_list (l : list act) (t : ThreadState) (h : HybridSingleStepper) :=
           match l with
           | [] => (t, h)
           | a :: l' => if paused_ t then (t, h) else let '(t', h') := run_act a t h in run_list l' t' h'
           end) body t1 h in
      if paused_ t2 then (t2, h2) else if interesting then (OnFramePop t2, h2) else (t2, h2)
  end.

Fixpoint run_acts (l : list act) (t : ThreadState) (h : HybridSingleStepper) : ThreadState * HybridSingleStepper :=
  match l with
  | [] => (t, h)
  | a :: l' => if paused_ t then (t, h) else let '(t', h') := run_act a t h in run_acts l' t' h'
  end.

Lemma run_act_call body t h :
  run_act (Call body) t h =
  (let '(interesting, t1) := OnMethodEntry t in
   let '(t2, h2) := run_acts body t1 h in
   if paused_ t2 then (t2, h2) else if interesting then (OnFramePop t2, h2) else (t2, h2)).
Proof. done. Qed.

Lemma act_ind' (Q : act → Prop) :
  (∀ l, Q (Step l)) → (∀ body, Forall Q body → Q (Call body)) → ∀ a, Q a.
Proof.
  intros H1 H2. fix IH 1. intros [l|body]; [apply H1|]. apply H2.
  induction body as [|a body IHb]; constructor; [apply IH|apply IHb].
Qed.

(** A thread that runs, without a start or hybrid pause pending. *)
Definition quiet (t : ThreadState) (h : HybridSingleStepper) : Prop :=
  paused_ t = false ∧ breakOnStart_ t = false ∧ dynamicToStatic_ h = false.

(** A sequence of actions that leave the state alone leaves it alone. *)
Lemma run_acts_same l t h :
  paused_ t = false → Forall (λ a, run_act a t h = (t, h)) l → run_acts l t h = (t, h).
Proof. intros Hp. induction 1 as [|a l Ha _ IH]; [done|]. simpl. by rewrite Hp, Ha. Qed.

Lemma run_acts_app l1 l2 t h :
  run_acts (l1 ++ l2) t h = (let '(t', h') := run_acts l1 t h in run_acts l2 t' h').
Proof.
  revert t h. induction l1 as [|a l1 IH]; intros t h; [done|]. simpl. destruct (paused_ t) eqn:Ep.
  - destruct l2 as [|b l2]; [done|]. simpl. by rewrite Ep.
  - destruct (run_act a t h). apply IH.
Qed.

Lemma run_acts_one l t h : paused_ t = false → run_acts [Step l] t h = OnSingleStep (bp l) l t h.
Proof. intros Hp. simpl. rewrite Hp. by destruct (OnSingleStep _ _ _ _). Qed.

(** No breakpoint is hit at a location. *)
Definition no_bp (t : ThreadState) (l : PtLocation) : Prop := thread_ShouldStopAtBreakpoint (bp l) t = false.

(** Steps of an action, at any depth. *)
Fixpoint every_step (Q : PtLocation → Prop) (a : act) : Prop :=
  match a with
  | Step l => Q l
  | Call body => (fix all l := match l with [] => True | a :: l' => every_step Q a ∧ all l' end) body
  end.
Definition every_steps (Q : PtLocation → Prop) (l : list act) : Prop := Forall (every_step Q) l.

Lemma every_step_call Q body : every_step Q (Call body) ↔ every_steps Q body.
Proof.
  simpl. induction body as [|a body IH]; [split; [constructor|done]|]. unfold every_steps in *.
  rewrite Forall_cons. by rewrite <- IH.
Qed.

Lemma OnSingleStep_quiet t h l :
  quiet t h → no_bp t l →
  OnSingleStep (bp l) l t h =
  (match stepKind_ t with
   | NONE => set_paused false t
   | BREAK_ON_START => t
   | CONTINUE_TO => set_paused (at_step_location l t) t
   | PAUSE => set_paused true t
   | STEP_INTO => set_paused (negb (at_step_location l t)) t
   | STEP_OUT => set_paused (negb (methodEntered_ t)) t
   | STEP_OVER => set_paused (negb (methodEntered_ t) && negb (at_step_location l t)) t
   end, h).
Proof. intros (Hp & Hb & Hh) Hn. unfold OnSingleStep, GetHybridSingleStepFlag. by rewrite Hb, Hh, Hn. Qed.

Lemma set_paused_same t : paused_ t = false → set_paused false t = t.
Proof. destruct t. simpl. by intros ->. Qed.
Lemma set_entered_same t b : methodEntered_ t = b → set_methodEntered b t = t.
Proof. destruct t. simpl. by intros ->. Qed.

(** Inside a called method nothing pauses a step over or a step out. *)
Lemma run_act_entered t h a :
  quiet t h → (stepKind_ t = STEP_OVER ∨ stepKind_ t = STEP_OUT) → methodEntered_ t = true →
  every_step (no_bp t) a → run_act a t h = (t, h).
Proof.
  intros Hq Hk He. induction a as [l|body IH] using act_ind'; intros Hn.
  - simpl. rewrite OnSingleStep_quiet by done. rewrite He.
    destruct Hk as [-> | ->]; simpl; by rewrite set_paused_same by apply Hq.
  - rewrite run_act_call. assert (Hm : OnMethodEntry t = (false, t)).
    { unfold OnMethodEntry. rewrite He, set_entered_same by done. by destruct Hk as [-> | ->]. }
    rewrite Hm. rewrite run_acts_same; [|apply Hq|].
    + by rewrite (proj1 Hq).
    + apply every_step_call in Hn. unfold every_steps in Hn. rewrite Forall_forall in *. naive_solver.
Qed.

(** In the frame itself a step over passes the locations of its line and whole
    calls. *)
Lemma run_act_over t h a :
  quiet t h → stepKind_ t = STEP_OVER → methodEntered_ t = false → every_step (no_bp t) a →
  match a with Step l => l ∈ stepLocations_ t | Call _ => True end → run_act a t h = (t, h).
Proof.
  intros Hq Hk He Hn Hl. destruct a as [l|body].
  - simpl. rewrite OnSingleStep_quiet by done. rewrite Hk. unfold at_step_location.
    rewrite bool_decide_true by done. rewrite andb_false_r. by rewrite set_paused_same by apply Hq.
  - rewrite run_act_call. unfold OnMethodEntry. rewrite Hk, He. simpl negb.
    set (t1 := set_methodEntered true t).
    assert (Hrun : run_acts body t1 h = (t1, h)).
    { apply run_acts_same; [apply Hq|]. apply every_step_call in Hn. unfold every_steps in Hn.
      rewrite Forall_forall in *. intros a Ha. apply run_act_entered; [apply Hq|by left|done|by apply Hn]. }
    rewrite Hrun. assert (Hp1 : paused_ t1 = false) by apply Hq. rewrite Hp1. unfold OnFramePop.
    replace (stepKind_ t1) with STEP_OVER by done. unfold t1. destruct t. simpl in *. by subst.
Qed.

(** A step into passes the locations of its line wherever they are. *)
Lemma run_act_into t h a :
  quiet t h → stepKind_ t = STEP_INTO →
  every_step (λ l, no_bp t l ∧ l ∈ stepLocations_ t) a → run_act a t h = (t, h).
Proof.
  intros Hq Hk. induction a as [l|body IH] using act_ind'; intros Hn.
  - destruct Hn as [Hn Hl]. simpl. rewrite OnSingleStep_quiet by done. rewrite Hk. unfold at_step_location.
    rewrite bool_decide_true by done. by rewrite set_paused_same by apply Hq.
  - rewrite run_act_call. unfold OnMethodEntry. rewrite Hk. rewrite run_acts_same; [|apply Hq|].
    + by rewrite (proj1 Hq).
    + apply every_step_call in Hn. unfold every_steps in Hn. rewrite Forall_forall in *. naive_solver.
Qed.

End Runs.

(** ** Properties *)

(** C26: what the three steps do when no breakpoint is hit. A step over passes the
    locations of its line and whole calls, at any depth, and pauses at the next
    location of the frame; a step out passes the rest of the frame and pauses
    after it is popped; a step into pauses at the first location outside the
    line, in the frame or in a callee. The reason is "step". *)
Theorem stepping (bp : PtLocation → bool) (L : list PtLocation) (t : ThreadState) (h : HybridSingleStepper)
    (acts : list act) (l : PtLocation) :
  breakOnStart_ t = false → dynamicToStatic_ h = false →
  every_steps (no_bp bp t) acts → no_bp bp t l →
  (let t0 := StepOver L t in
   Forall (λ a, match a with Step l => l ∈ L | Call _ => True end) acts → l ∉ L →
   run_acts bp acts t0 h = (t0, h) ∧ run_acts bp (acts ++ [Step l]) t0 h = (set_paused true t0, h)) ∧
  (let '(t0, h0) := StepOut t h in
   run_acts bp acts t0 h0 = (t0, h0) ∧
   (OnSingleStep (bp l) l (OnFramePop t0) h0).1 = set_paused true (OnFramePop t0)) ∧
  (let '(t0, h0) := StepInto L t h in
   every_steps (λ l, l ∈ L) acts → l ∉ L →
   run_acts bp (acts ++ [Step l]) t0 h0 = (set_paused true t0, h0)).
Proof.
  intros Hb Hh Hn Hl. unfold every_steps in Hn. rewrite Forall_forall in Hn. split_and!.
  - intros t0 HL Hout. assert (Hq : quiet t0 h) by done.
    assert (Hsame : run_acts bp acts t0 h = (t0, h)).
    { apply run_acts_same; [done|]. rewrite Forall_forall in *. intros a Ha.
      apply run_act_over; [done..|by apply Hn|by apply HL]. }
    split; [done|]. rewrite run_acts_app, Hsame, run_acts_one by done.
    rewrite OnSingleStep_quiet by done. simpl. unfold at_step_location. by rewrite bool_decide_false.
  - split.
    + apply run_acts_same; [done|]. rewrite Forall_forall. intros a Ha.
      apply run_act_entered; [done|by right|done|by apply Hn].
    + by rewrite OnSingleStep_quiet.
  - intros HL Hout. unfold every_steps in HL. rewrite Forall_forall in HL.
    rewrite run_acts_app. rewrite run_acts_same; [|done|].
    + rewrite run_acts_one by done. rewrite OnSingleStep_quiet by done. simpl. unfold at_step_location.
      by rewrite bool_decide_false.
    + rewrite Forall_forall. intros a Ha. apply run_act_into; [done|done|].
      specialize (Hn a Ha). specialize (HL a Ha). clear Ha.
      induction a as [l'|body IH] using act_ind'; [by split|]. rewrite every_step_call in *.
      unfold every_steps in *. rewrite Forall_forall in *. intros a Ha. naive_solver.
Qed.

(** With all pauses skipped no breakpoint and no exception pauses the thread
    and a pause request is ignored; but a pending break on start and a step
    handed over by the dynamic debugger still pause it. *)
Theorem skip_all_pauses (bp : bool) (l : PtLocation) (t : ThreadState) (h : HybridSingleStepper) :
  skipAllPauses_ t = true → paused_ t = false →
  (∀ uncaught, OnException uncaught t = t) ∧ Pause t = t ∧
  OnSingleStep bp l t h = OnSingleStep false l t h ∧
  (breakOnStart_ t = true ∨ dynamicToStatic_ h = true → paused_ (OnSingleStep bp l t h).1 = true) ∧
  (breakOnStart_ t = false → dynamicToStatic_ h = false → stepKind_ t = NONE ∨ stepKind_ t = BREAK_ON_START →
   paused_ (OnSingleStep bp l t h).1 = false).
Proof.
  intros Hs Hp. unfold OnException, Pause, OnSingleStep, thread_ShouldStopAtBreakpoint, GetHybridSingleStepFlag.
  rewrite Hs, Hp. split_and!; try done.
  - destruct (breakOnStart_ t); [by case_decide|]. by intros [?| ->].
  - intros -> -> [-> | ->]; done.
Qed.

(** A breakpoint that is hit while a step is in progress is reported with the
    reason "step" and not as a breakpoint. *)
Theorem breakpoint_hit_in_step (L : list PtLocation) (l : PtLocation) (t : ThreadState) (h : HybridSingleStepper) :
  breakOnStart_ t = false → dynamicToStatic_ h = false → skipAllPauses_ t = false →
  let t1 := (OnSingleStep true l (StepOver L t) h).1 in
  paused_ t1 = true ∧ pauseReason_ t1 = PR_STEP.
Proof.
  intros Hb Hh Hs t1. unfold t1, OnSingleStep, thread_ShouldStopAtBreakpoint, GetHybridSingleStepFlag.
  simpl. by rewrite Hb, Hh, Hs.
Qed.

(** After a reset the step kind is the break on start, which does not pause
    the thread at the next step. *)
Theorem reset_runs_on (l : PtLocation) (t : ThreadState) (h : HybridSingleStepper) :
  breakOnStart_ t = false → dynamicToStatic_ h = false → paused_ t = false →
  stepKind_ (ThreadState_Reset t) = BREAK_ON_START ∧
  OnSingleStep false l (ThreadState_Reset t) h = (ThreadState_Reset t, h).
Proof.
  intros Hb Hh Hp. split; [done|]. unfold OnSingleStep, GetHybridSingleStepFlag, thread_ShouldStopAtBreakpoint.
  simpl. by rewrite Hb, Hh.
Qed.

(** *** Witnesses *)

Definition demo_line : list PtLocation := [mkPtLocation (str "a.abc") 1 0; mkPtLocation (str "a.abc") 1 4].
Definition demo_acts : list act :=
  [Step (mkPtLocation (str "a.abc") 1 0);
   Call [Step (mkPtLocation (str "a.abc") 2 0); Call [Step (mkPtLocation (str "a.abc") 3 0)]];
   Step (mkPtLocation (str "a.abc") 1 4)].

Lemma stepping_witness :
  run_acts (λ _, false) (demo_acts ++ [Step (mkPtLocation (str "a.abc") 1 9)])
    (StepOver demo_line thread_init) (mkHybrid false false)
  = (set_paused true (StepOver demo_line thread_init), mkHybrid false false).
Proof.
  apply (stepping (λ _, false) demo_line thread_init (mkHybrid false false) demo_acts
           (mkPtLocation (str "a.abc") 1 9)); [reflexivity|reflexivity| |reflexivity| |].
  - repeat constructor.
  - repeat constructor.
  - apply (bool_decide_eq_true_1 _). vm_compute. reflexivity.
Defined.

Lemma skip_all_pauses_witness :
  let t := SetSkipAllPauses true (BreakOnStart thread_init) in
  Pause t = t ∧ paused_ (OnSingleStep true demo_loc t (mkHybrid false false)).1 = true.
Proof.
  intros t. destruct (skip_all_pauses true demo_loc t (mkHybrid false false) eq_refl eq_refl)
    as (_ & Hp & _ & Hb & _).
  split; [exact Hp|]. apply Hb. by left.
Defined.
