(* ===== verification/DebuggableThread.v ===== *)
(** * Suspension of a thread of the static debugger

    Models tooling/static/debugger/debuggable_thread.{h,cpp}: the application
    thread, which pauses in [Suspend], and the server thread, which resumes it and
    has requests executed on it while it is paused. Every critical section of
    [mutex_] is one transition; a wait on a condition variable or in
    [WaitSuspension] splits a method into two. [managedSuspended] is the flag of
    the runtime's thread, set by [Suspend()], reset by [Resume()] and waited for
    by [WaitSuspension()]. The callbacks only notify the client and are left out;
    notifications during an evaluation return before they touch the state and are
    no event. *)

From S2P Require Import Prelude StaticBreakpoints ThreadState.
Local Open Scope Z_scope.

(** Where the threads are. *)
Inductive app_pc := Running | InSuspend.
Inductive server_pc := Idle | InRequest.

#[export] Instance app_pc_eq_dec : EqDecision app_pc.
Proof. solve_decision. Defined.
#[export] Instance server_pc_eq_dec : EqDecision server_pc.
Proof. solve_decision. Defined.

Record DebuggableThread := mkDThread {
  state_ : ThreadState;
  hybrid : HybridSingleStepper;
  suspended_ : bool;
  request_ : option nat;
  managedSuspended : bool;
  app : app_pc;
  server : server_pc;
  served : list nat }.

Definition dthread_init : DebuggableThread :=
  mkDThread thread_init (mkHybrid false false) false None false Running Idle [].

(** Requests of the client that change the state of the thread. *)
Inductive command :=
| CmdReset | CmdBreakOnStart | CmdPause | CmdSkip (b : bool) | CmdExceptions (p : PauseOnExceptionsState)
| CmdContinue | CmdContinueTo (L : list PtLocation) | CmdStepInto (L : list PtLocation)
| CmdStepOver (L : list PtLocation) | CmdStepOut | CmdTouch.

Definition apply_command (c : command) (t : ThreadState) (h : HybridSingleStepper)
    : ThreadState * HybridSingleStepper :=
  match c with
  | CmdReset => (ThreadState_Reset t, h)
  | CmdBreakOnStart => (BreakOnStart t, h)
  | CmdPause => (Pause t, h)
  | CmdSkip b => (SetSkipAllPauses b t, h)
  | CmdExceptions p => (SetPauseOnExceptions p t, h)
  | CmdContinue => Continue t h
  | CmdContinueTo L => ContinueTo L t h
  | CmdStepInto L => StepInto L t h
  | CmdStepOver L => (StepOver L t, h)
  | CmdStepOut => StepOut t h
  | CmdTouch => (t, h)
  end.

(** The commands that call [Resume]. *)
Definition resumes (c : command) : bool :=
  match c with
  | CmdContinue | CmdContinueTo _ | CmdStepInto _ | CmdStepOver _ | CmdStepOut | CmdTouch => true
  | _ => false
  end.

Definition Resume (d : DebuggableThread) : DebuggableThread :=
  if negb (suspended_ d) then d
  else mkDThread (state_ d) (hybrid d) false (request_ d) false (app d) (server d) (served d).

(** The loop [while (state_.IsPaused()) Suspend(...)] of the notifications, up to
    the wait. *)
Definition suspend_if_paused (d : DebuggableThread) : DebuggableThread :=
  if paused_ (state_ d)
  then mkDThread (state_ d) (hybrid d) true (request_ d) true InSuspend (server d) (served d)
  else mkDThread (state_ d) (hybrid d) (suspended_ d) (request_ d) (managedSuspended d) Running (server d) (served d).

Definition with_state (t : ThreadState) (h : HybridSingleStepper) (d : DebuggableThread) : DebuggableThread :=
  mkDThread t h (suspended_ d) (request_ d) (managedSuspended d) (app d) (server d) (served d).

Inductive dt_event :=
| Command (c : command)
| RequestToObjectRepository (r : nat)
| RequestDone
| NotifySingleStep (bp : bool) (l : PtLocation)
| NotifyException (uncaught : bool)
| NotifyMethodEntry
| NotifyFramePop
| WakeUp.

Definition dt_exec (e : dt_event) (d : DebuggableThread) : option DebuggableThread :=
  match e with
  | Command c =>
      if decide (server d = Idle) then
        let '(t, h) := apply_command c (state_ d) (hybrid d) in
        let d := with_state t h d in
        Some (if resumes c then Resume d else d)
      else None
  | RequestToObjectRepository r =>
      if decide (server d = Idle) then
        if negb (suspended_ d) then Some d
        else Some (mkDThread (state_ d) (hybrid d) (suspended_ d) (Some r) false (app d) InRequest (served d))
      else None
  | RequestDone =>
      if decide (server d = InRequest ∧ request_ d = None) then
        Some (mkDThread (state_ d) (hybrid d) (suspended_ d) None (managedSuspended d) (app d) Idle (served d))
      else None
  | NotifySingleStep bp l =>
      if decide (app d = Running) then
        let '(t, h) := OnSingleStep bp l (state_ d) (hybrid d) in
        Some (suspend_if_paused (with_state t h d))
      else None
  | NotifyException uncaught =>
      if decide (app d = Running) then
        Some (suspend_if_paused (with_state (OnException uncaught (state_ d)) (hybrid d) d))
      else None
  | NotifyMethodEntry =>
      if decide (app d = Running) then Some (with_state (OnMethodEntry (state_ d)).2 (hybrid d) d) else None
  | NotifyFramePop =>
      if decide (app d = Running) then Some (with_state (OnFramePop (state_ d)) (hybrid d) d) else None
  | WakeUp =>
      if decide (app d = InSuspend ∧ managedSuspended d = false) then
        let d := match request_ d with
                 | Some r => mkDThread (state_ d) (hybrid d) (suspended_ d) None true (app d) (server d) (served d ++ [r])
                 | None => d
                 end in
        Some (if suspended_ d then d else suspend_if_paused d)
      else None
  end.

(** The assertions on the way of a transition. *)
Definition asserts (e : dt_event) (d : DebuggableThread) : bool :=
  let no_request := bool_decide (request_ d = None) in
  let may_suspend := negb (suspended_ d) && no_request in
  match e with
  | Command c => if resumes c then no_request && (negb (suspended_ d) || managedSuspended d) else true
  | RequestToObjectRepository _ => no_request && (negb (suspended_ d) || managedSuspended d)
  | RequestDone => suspended_ d && managedSuspended d
  | NotifySingleStep _ _ | NotifyException _ => negb (paused_ (state_ d)) && may_suspend
  | NotifyMethodEntry | NotifyFramePop => negb (paused_ (state_ d))
  | WakeUp => Bool.eqb (suspended_ d) (negb no_request)
  end.

Inductive dt_reachable : DebuggableThread → Prop :=
| dt_reachable_init : dt_reachable dthread_init
| dt_reachable_step e d d' : dt_reachable d → dt_exec e d = Some d' → dt_reachable d'.

(** ** The invariant *)

(** The states the threads can be in together. *)
Definition dt_inv (d : DebuggableThread) : Prop :=
  match app d, server d with
  | Running, Idle =>
      paused_ (state_ d) = false ∧ suspended_ d = false ∧ managedSuspended d = false ∧ request_ d = None
  | Running, InRequest => False
  | InSuspend, Idle =>
      request_ d = None ∧ suspended_ d = managedSuspended d ∧ (suspended_ d = true → paused_ (state_ d) = true)
  | InSuspend, InRequest =>
      suspended_ d = true ∧ paused_ (state_ d) = true ∧ managedSuspended d = bool_decide (request_ d = None)
  end.

Lemma apply_command_paused c t h :
  paused_ (apply_command c t h).1 = if resumes c then (match c with CmdTouch => paused_ t | _ => false end) else paused_ t.
Proof.
  destruct c; try done; simpl; unfold ThreadState_Reset, BreakOnStart, Pause; repeat case_match; done.
Qed.

Lemma suspend_if_paused_inv d :
  suspended_ d = false → managedSuspended d = false → request_ d = None → server d = Idle →
  dt_inv (suspend_if_paused d).
Proof.
  intros Hs Hm Hr Hsrv. unfold suspend_if_paused, dt_inv. destruct (paused_ (state_ d)) eqn:E; simpl; by rewrite Hsrv.
Qed.

Lemma dt_exec_inv e d d' : dt_exec e d = Some d' → dt_inv d → dt_inv d'.
Proof.
  intros He Hi. destruct d as [t h sus req man ap srv sv]. destruct e as [c|r| |bp l|u| | |]; simpl in He.
  - destruct (decide (srv = Idle)) as [->|]; [|done].
    pose proof (apply_command_paused c t h) as Hp. destruct (apply_command c t h) as [t' h'] eqn:Ec.
    injection He as <-. unfold dt_inv, Resume in *. simpl in *.
    destruct ap, (resumes c) eqn:Er; simpl in *.
    + destruct Hi as (Ht & -> & -> & ->). simpl. split_and!; try done. rewrite Hp, Ht. by destruct c.
    + destruct Hi as (Ht & -> & -> & ->). simpl. split_and!; try done. by rewrite Hp.
    + destruct Hi as (-> & <- & Hpa). destruct sus; simpl; [done|]. done.
    + destruct Hi as (-> & <- & Hpa). simpl. split_and!; try done. by rewrite Hp.
  - destruct (decide (srv = Idle)) as [->|]; [|done]. unfold dt_inv in *. simpl in *.
    destruct sus; simpl in *; injection He as <-; simpl; destruct ap; simpl; try done; naive_solver.
  - destruct (decide (srv = InRequest ∧ req = None)) as [[-> ->]|]; [|done]. injection He as <-.
    unfold dt_inv in *. simpl in *. destruct ap; [done|]. destruct Hi as (-> & ? & ->). naive_solver.
  - destruct (decide (ap = Running)) as [->|]; [|done]. destruct (OnSingleStep bp l t h) as [t' h'].
    injection He as <-. unfold dt_inv in Hi. simpl in Hi. destruct srv; [|done].
    destruct Hi as (_ & ? & ? & ?). by apply suspend_if_paused_inv.
  - destruct (decide (ap = Running)) as [->|]; [|done]. injection He as <-. unfold dt_inv in Hi. simpl in Hi.
    destruct srv; [|done]. destruct Hi as (_ & ? & ? & ?). by apply suspend_if_paused_inv.
  - destruct (decide (ap = Running)) as [->|]; [|done]. injection He as <-. unfold dt_inv in *. simpl in *.
    destruct srv; [|done]. destruct Hi as (Ht & ?). split; [|done]. unfold OnMethodEntry. by destruct (stepKind_ t).
  - destruct (decide (ap = Running)) as [->|]; [|done]. injection He as <-. unfold dt_inv in *. simpl in *.
    destruct srv; [|done]. destruct Hi as (Ht & ?). split; [|done]. unfold OnFramePop. by destruct (stepKind_ t).
  - destruct (decide (ap = InSuspend ∧ man = false)) as [[-> ->]|]; [|done]. unfold dt_inv in Hi. simpl in *.
    destruct srv.
    + destruct Hi as (-> & -> & _). simpl in *. injection He as <-. by apply suspend_if_paused_inv.
    + destruct Hi as (-> & Hp & Hr). destruct req as [r|]; [|done]. injection He as <-. unfold dt_inv. simpl. done.
Qed.

Lemma dt_reachable_inv d : dt_reachable d → dt_inv d.
Proof. induction 1 as [|e d d' _ IH He]; [done|]. by eapply dt_exec_inv. Qed.

(** ** Properties *)

(** C7: in every interleaving of the application and the server thread all
    assertions of the code hold, and a thread that is suspended is paused: the
    combination the code calls invalid does not occur. *)
Theorem suspension_safe (d : DebuggableThread) :
  dt_reachable d →
  (suspended_ d = true → paused_ (state_ d) = true) ∧
  (∀ e d', dt_exec e d = Some d' → asserts e d = true).
Proof.
  intros Hr%dt_reachable_inv. split.
  - intros Hs. unfold dt_inv in Hr. destruct (app d), (server d); [|done|by apply Hr|by apply Hr].
    destruct Hr as (_ & E & _). congruence.
  - intros e d' He. destruct d as [t h sus req man ap srv sv]. unfold dt_inv in Hr. simpl in Hr.
    destruct e as [c|r| |bp l|u| | |]; simpl in *.
    + destruct (decide (srv = Idle)) as [->|]; [|done]. destruct (resumes c); [|done].
      destruct ap; [by destruct Hr as (_ & -> & -> & ->)|].
      destruct Hr as (-> & -> & _). by destruct man.
    + destruct (decide (srv = Idle)) as [->|]; [|done].
      destruct ap; [by destruct Hr as (_ & -> & -> & ->)|].
      destruct Hr as (-> & -> & _). by destruct man.
    + destruct (decide (srv = InRequest ∧ req = None)) as [[-> ->]|]; [|done]. destruct ap; [done|].
      destruct Hr as (-> & _ & ->). done.
    + destruct (decide (ap = Running)) as [->|]; [|done].
      destruct srv; [by destruct Hr as (-> & -> & -> & ->)|done].
    + destruct (decide (ap = Running)) as [->|]; [|done].
      destruct srv; [by destruct Hr as (-> & -> & -> & ->)|done].
    + destruct (decide (ap = Running)) as [->|]; [|done].
      destruct srv; [by destruct Hr as (-> & -> & -> & ->)|done].
    + destruct (decide (ap = Running)) as [->|]; [|done].
      destruct srv; [by destruct Hr as (-> & -> & -> & ->)|done].
    + destruct (decide (ap = InSuspend ∧ man = false)) as [[-> ->]|]; [|done].
      destruct srv; [destruct Hr as (-> & -> & _); done|]. destruct Hr as (-> & _ & Hb). by rewrite <- Hb.
Qed.

(** A request to a suspended thread is executed and the thread is suspended
    again, still paused, and the server goes on; the server never waits for a
    thread that cannot run. *)
Theorem request_served (d : DebuggableThread) :
  dt_reachable d →
  (server d = Idle → suspended_ d = true → ∀ r, ∃ d1 d2 d3,
     dt_exec (RequestToObjectRepository r) d = Some d1 ∧ dt_exec WakeUp d1 = Some d2 ∧
     dt_exec RequestDone d2 = Some d3 ∧ served d3 = served d ++ [r] ∧ state_ d3 = state_ d ∧
     suspended_ d3 = true ∧ server d3 = Idle) ∧
  (server d = InRequest → ∃ e d', (e = WakeUp ∨ e = RequestDone) ∧ dt_exec e d = Some d').
Proof.
  intros Hr%dt_reachable_inv. destruct d as [t h sus req man ap srv sv]. unfold dt_inv in Hr. simpl in *. split.
  - intros -> -> r. destruct ap; [by destruct Hr as (_ & ? & _)|]. eexists _, _, _. split_and!; done.
  - intros ->. destruct ap; [done|]. destruct Hr as (-> & Hp & ->). destruct req as [r|].
    + eexists WakeUp, _. split; [by left|]. done.
    + eexists RequestDone, _. split; [by right|]. done.
Qed.

(** A suspended thread that is continued or stepped runs again once it wakes
    up, and one that is touched is suspended again, still paused. *)
Theorem resumed_thread_runs (d : DebuggableThread) (c : command) :
  dt_reachable d → server d = Idle → suspended_ d = true → resumes c = true →
  ∃ d1 d2, dt_exec (Command c) d = Some d1 ∧ dt_exec WakeUp d1 = Some d2 ∧
    match c with
    | CmdTouch => app d2 = InSuspend ∧ suspended_ d2 = true ∧ state_ d2 = state_ d
    | _ => app d2 = Running ∧ suspended_ d2 = false
    end.
Proof.
  intros Hr%dt_reachable_inv Hs Hsu Hc. destruct d as [t h sus req man ap srv sv]. unfold dt_inv in Hr. simpl in *.
  subst srv sus. destruct ap; [by destruct Hr as (_ & ? & _)|]. destruct Hr as (-> & <- & Hp). specialize (Hp eq_refl).
  destruct c; try done; eexists _, _; (split; [reflexivity|split; [reflexivity|]]); simpl;
    unfold suspend_if_paused; simpl; try rewrite Hp; done.
Qed.

(** *** Witnesses *)

(** A thread that a pause request has stopped. *)
Definition demo_paused : DebuggableThread :=
  mkDThread (set_paused true (Pause thread_init)) (mkHybrid false false) true None true InSuspend Idle [].

Lemma demo_paused_reachable : dt_reachable demo_paused.
Proof.
  assert (H1 : dt_reachable (with_state (Pause thread_init) (mkHybrid false false) dthread_init))
    by (eapply (dt_reachable_step (Command CmdPause)); [apply dt_reachable_init|reflexivity]).
  by apply (dt_reachable_step (NotifySingleStep false demo_loc) _ _ H1).
Qed.

Lemma suspension_safe_witness : paused_ (state_ demo_paused) = true.
Proof. apply (suspension_safe demo_paused demo_paused_reachable). reflexivity. Defined.

Lemma request_served_witness :
  ∃ d1 d2 d3, dt_exec (RequestToObjectRepository 3) demo_paused = Some d1 ∧ dt_exec WakeUp d1 = Some d2 ∧
    dt_exec RequestDone d2 = Some d3 ∧ served d3 = [3%nat].
Proof.
  destruct (proj1 (request_served demo_paused demo_paused_reachable) eq_refl eq_refl 3%nat)
    as (d1 & d2 & d3 & E1 & E2 & E3 & Hs & _).
  exists d1, d2, d3. split_and!; assumption.
Defined.

Lemma resumed_thread_runs_witness :
  ∃ d1 d2, dt_exec (Command CmdStepOut) demo_paused = Some d1 ∧ dt_exec WakeUp d1 = Some d2 ∧ app d2 = Running.
Proof.
  destruct (resumed_thread_runs demo_paused CmdStepOut demo_paused_reachable eq_refl eq_refl eq_refl)
    as (d1 & d2 & E1 & E2 & Ha & _).
  exists d1, d2. split_and!; assumption.
Defined.
