(* ===== verification/StaticBase64.v ===== *)
(** * The Base64 decoder of the static debugger

    Models [Base64Decoder] of src/tooling/static/evaluation/base64.h, which reads
    the bytecode of conditions and expressions. [written] are the bytes stored
    through the moving [output] pointer; the destination has been given
    [DecodedSize] bytes before. *)

From S2P Require Import Prelude Base64.
Local Open Scope Z_scope.

Module Base64Decoder.

Definition DECODED_GROUP_BYTES : Z := 3.
Definition ENCODED_GROUP_BYTES : Z := 4.
Definition MAX_PADDINGS : nat := 2.
Definition PADDING_CHAR : Z := 61.
Definition INVALID_VALUE : Z := 255.

Definition DECODE_TABLE : list Z :=
  [255; 255; 255; 255; 255; 255; 255; 255; 255; 255; 255; 255; 255; 255; 255; 255; 255; 255; 255; 255; 255;
   255; 255; 255; 255; 255; 255; 255; 255; 255; 255; 255; 255; 255; 255; 255; 255; 255; 255; 255; 255; 255;
   255; 62; 255; 255; 255; 63; 52; 53; 54; 55; 56; 57; 58; 59; 60; 61; 255; 255; 255; 255; 255;
   255; 255; 0; 1; 2; 3; 4; 5; 6; 7; 8; 9; 10; 11; 12; 13; 14; 15; 16; 17; 18;
   19; 20; 21; 22; 23; 24; 25; 255; 255; 255; 255; 255; 255; 26; 27; 28; 29; 30; 31; 32; 33;
   34; 35; 36; 37; 38; 39; 40; 41; 42; 43; 44; 45; 46; 47; 48; 49; 50; 51].

(** The loop over the characters at the end, at most [n] of them. *)
Fixpoint trailing (n : nat) (reversed : bytes) : Z :=
  match n, reversed with
  | S n', c :: reversed' => if c =? PADDING_CHAR then 1 + trailing n' reversed' else 0
  | _, _ => 0
  end.

Definition bad_length (input : bytes) : bool :=
  bool_decide (input = []) || negb (Z.of_nat (length input) mod ENCODED_GROUP_BYTES =? 0).

Definition DecodedSize (input : bytes) : option Z :=
  if bad_length input then None
  else Some (Z.of_nat (length input) / ENCODED_GROUP_BYTES * DECODED_GROUP_BYTES - trailing MAX_PADDINGS (rev input)).

Definition DecodeChar (encoded : Z) : Z :=
  if Z.of_nat (length DECODE_TABLE) <=? encoded then INVALID_VALUE else rd DECODE_TABLE encoded.

(** Four sextets into three bytes. *)
Definition DecodeSextetsGroup (b : bytes) : bytes :=
  [u8 (Z.lor (Z.shiftl (rd b 0) 2) (Z.shiftr (Z.land (rd b 1) 48) 4));
   u8 (Z.lor (Z.shiftl (rd b 1) 4) (Z.shiftr (Z.land (rd b 2) 60) 2));
   u8 (Z.lor (Z.shiftl (rd b 2) 6) (rd b 3))].

Record decoding := mkDecoding { baseIdx : Z; decodingBuffer : bytes; written : bytes }.

(** The loop: [None] for the characters that are left when one is invalid. *)
Fixpoint decode_loop (src : bytes) (d : decoding) : option bytes * decoding :=
  match src with
  | [] => (Some [], d)
  | c :: src' =>
      if c =? PADDING_CHAR then (Some src, d)
      else
        let decoded := DecodeChar c in
        if decoded =? INVALID_VALUE then (None, d)
        else
          let buffer := wr (decodingBuffer d) (baseIdx d) decoded in
          let idx := baseIdx d + 1 in
          decode_loop src'
            (if idx =? ENCODED_GROUP_BYTES then mkDecoding 0 buffer (written d ++ DecodeSextetsGroup buffer)
             else mkDecoding idx buffer (written d))
  end.

(** The remainder. *)
Definition decode_rest (d : decoding) : bytes :=
  if baseIdx d =? 0 then written d
  else written d ++ take (Z.to_nat (baseIdx d - 1)) (DecodeSextetsGroup (decodingBuffer d)).

Definition only_padding (rest : bytes) : bool :=
  match rest with
  | [] => true
  | [c] => c =? PADDING_CHAR
  | [c; c'] => (c =? PADDING_CHAR) && (c' =? PADDING_CHAR)
  | _ => false
  end.

(** [Decode(output, input)]: what is stored, and the result. *)
Definition Decode_into (input : bytes) : bytes * bool :=
  if bad_length input then ([], false)
  else
    match decode_loop input (mkDecoding 0 [0; 0; 0; 0] []) with
    | (None, d) => (written d, false)
    | (Some rest, d) => (decode_rest d, only_padding rest)
    end.

(** [Decode(encoded, decoded)], for a text that is not empty and a string
    [decoded] that is: the string afterwards, and the result. *)
Definition Decode (encoded : bytes) : bytes * bool :=
  match DecodedSize encoded with
  | None => ([], false)
  | Some size =>
      let '(bytes, ok) := Decode_into encoded in
      (bytes ++ replicate (Z.to_nat size - length bytes) 0, ok)
  end.

(** ** The decoder agrees with the one of the dynamic debugger *)

Lemma DecodeChar_table c : is_byte c → DecodeChar c = rd PtBase64.DECODE_TABLE c.
Proof.
  intros Hc. apply Z.eqb_eq. apply (Zrange_forallb 256 (λ c, DecodeChar c =? rd PtBase64.DECODE_TABLE c));
    [vm_compute; reflexivity|]. exact Hc.
Qed.

Definition to_dec (d : decoding) : PtBase64.dec_state := PtBase64.DecState (baseIdx d) (decodingBuffer d) (written d).

(** Where the loop stops at an invalid character, the other one stops too and
    leaves it. *)
Lemma decode_loop_dec src : ∀ d, Forall is_byte src →
  match decode_loop src d with
  | (Some rest, d') => PtBase64.dec_loop src (to_dec d) = (rest, to_dec d')
  | (None, d') => ∃ c rest, PtBase64.dec_loop src (to_dec d) = (c :: rest, to_dec d') ∧ c ≠ PADDING_CHAR
  end.
Proof.
  induction src as [|c src IH]; intros d Hs; [done|]. apply Forall_cons in Hs as [Hc Hs]. simpl.
  change PtBase64.PAD with PADDING_CHAR. destruct (Z.eqb_spec c PADDING_CHAR) as [->|Hne]; [done|].
  rewrite <- DecodeChar_table by done. change PtBase64.INVAILD_VALUE with INVALID_VALUE.
  destruct (DecodeChar c =? INVALID_VALUE); [by eexists _, _|].
  specialize (IH (if baseIdx d + 1 =? ENCODED_GROUP_BYTES then
      mkDecoding 0 (wr (decodingBuffer d) (baseIdx d) (DecodeChar c))
        (written d ++ DecodeSextetsGroup (wr (decodingBuffer d) (baseIdx d) (DecodeChar c)))
    else mkDecoding (baseIdx d + 1) (wr (decodingBuffer d) (baseIdx d) (DecodeChar c)) (written d)) Hs).
  unfold PtBase64.dec_push. change PtBase64.ENCODED_GROUP_BYTES with ENCODED_GROUP_BYTES.
  destruct (baseIdx d + 1 =? ENCODED_GROUP_BYTES) eqn:E; simpl in *; rewrite E; exact IH.
Qed.

Lemma only_padding_done rest : only_padding rest = PtBase64.done_flag rest.
Proof.
  unfold PtBase64.done_flag. destruct rest as [|c [|c' [|c'' rest]]]; [done|..];
    [unfold rd; simpl; by rewrite ?orb_false_r..|].
  do 3 (rewrite (proj2 (Z.eqb_neq (Z.of_nat _) _)) by (cbn [length]; lia)). done.
Qed.

Lemma bad_length_guard input :
  bad_length input = ((Z.of_nat (length input) <? 4) || negb (Z.of_nat (length input) mod 4 =? 0)).
Proof.
  unfold bad_length, ENCODED_GROUP_BYTES. destruct input as [|c input]; [done|]. rewrite bool_decide_false by done.
  destruct (Z.eqb_spec (Z.of_nat (length (c :: input)) mod 4) 0); [|by rewrite !orb_true_r].
  assert (4 ≤ Z.of_nat (length (c :: input))) by (cbn [length] in *; zdiv).
  by zfalse (Z.of_nat (length (c :: input)) <? 4).
Qed.

Lemma Decode_into_dec input : Forall is_byte input →
  (Decode_into input).2 = (PtBase64.Decode [0; 0; 0; 0] input).2 ∧
  ((Decode_into input).2 = true → Decode_into input = PtBase64.Decode [0; 0; 0; 0] input).
Proof.
  intros Hi. unfold Decode_into, PtBase64.Decode. change PtBase64.ENCODED_GROUP_BYTES with 4.
  rewrite bad_length_guard. destruct (_ || _); [done|].
  pose proof (decode_loop_dec input (mkDecoding 0 [0; 0; 0; 0] []) Hi) as Hl.
  destruct (decode_loop _ _) as [[rest|] d].
  - change (to_dec (mkDecoding 0 [0; 0; 0; 0] [])) with (PtBase64.DecState 0 [0; 0; 0; 0] []) in Hl. rewrite Hl.
    rewrite only_padding_done. done.
  - destruct Hl as (c&rest&Hl&Hne).
    change (to_dec (mkDecoding 0 [0; 0; 0; 0] [])) with (PtBase64.DecState 0 [0; 0; 0; 0] []) in Hl. rewrite Hl. simpl.
    change PtBase64.PAD with PADDING_CHAR. unfold rd. simpl. apply Z.eqb_neq in Hne. rewrite Hne. rewrite !andb_false_r.
    by zfalse (Z.of_nat (S (length rest)) =? 0).
Qed.

(** The padding at the end of a text that begins with characters of the alphabet
    is in what follows them. *)
Lemma trailing_alphabet n pre : Forall (λ c, PtBase64.in_alphabet c = true) pre → trailing n (rev pre) = 0.
Proof.
  intros Hp. destruct n as [|n]; [done|]. destruct (rev pre) as [|c l] eqn:E; [done|]. simpl.
  assert (Hc : c ∈ pre) by (apply list_elem_of_In, in_rev; rewrite E; by left).
  rewrite Forall_forall in Hp. specialize (Hp c Hc). unfold PtBase64.in_alphabet in Hp.
  change PtBase64.PAD with PADDING_CHAR in Hp. by destruct (c =? PADDING_CHAR).
Qed.

Lemma trailing_bound pre rest : ∀ n, Forall (λ c, PtBase64.in_alphabet c = true) pre →
  trailing n (rev (pre ++ rest)) ≤ Z.of_nat (length rest).
Proof.
  rewrite rev_app_distr, <- length_rev. induction (rev rest) as [|c l IH]; intros n Hp; simpl.
  - by rewrite trailing_alphabet.
  - destruct n as [|n]; simpl; [lia|]. destruct (c =? PADDING_CHAR); [|lia]. specialize (IH n Hp). lia.
Qed.

Lemma trailing_padding pre pad : (pad ≤ 2)%nat → Forall (λ c, PtBase64.in_alphabet c = true) pre →
  trailing MAX_PADDINGS (rev (pre ++ replicate pad PADDING_CHAR)) = Z.of_nat pad.
Proof.
  intros Hpad Hp. rewrite rev_app_distr. pose proof (λ n, trailing_alphabet n pre Hp) as Ht.
  destruct pad as [|[|[|pad]]]; [apply Ht| | |lia]; unfold MAX_PADDINGS.
  - change (1 + trailing 1 (rev pre) = 1). by rewrite Ht.
  - change (1 + (1 + trailing 0 (rev pre)) = 2). by rewrite Ht.
Qed.

Lemma trailing_range n l : 0 ≤ trailing n l ≤ Z.of_nat n.
Proof. revert l. induction n as [|n IH]; intros [|c l]; simpl; try lia. specialize (IH l). case_match; lia. Qed.

#[local] Arguments trailing : simpl never.

Lemma Decode_into_bound input size : DecodedSize input = Some size →
  Forall is_byte input → Z.of_nat (length (Decode_into input).1) ≤ size.
Proof.
  unfold DecodedSize, Decode_into, ENCODED_GROUP_BYTES, DECODED_GROUP_BYTES. destruct (bad_length input) eqn:Hb; [done|].
  intros Hsz Hi. apply (inj Some) in Hsz. subst size.
  pose proof (decode_loop_dec input (mkDecoding 0 [0; 0; 0; 0] []) Hi) as Hl.
  change (to_dec (mkDecoding 0 [0; 0; 0; 0] [])) with (PtBase64.DecState 0 [0; 0; 0; 0] []) in Hl.
  destruct (PtBase64.dec_loop_split input (PtBase64.DecState 0 [0; 0; 0; 0] [])) as (pre&Hs&Hp&_&Hf).
  assert (Hn : PtBase64.dec_inv (Z.of_nat (length pre))
      (PtBase64.dec_loop input (PtBase64.DecState 0 [0; 0; 0; 0] [])).2).
  { rewrite Hf, <- (length_fmap (rd PtBase64.DECODE_TABLE) pre). by apply (PtBase64.dec_fold_inv _ 0). }
  pose proof (trailing_bound pre (PtBase64.dec_loop input (PtBase64.DecState 0 [0; 0; 0; 0] [])).1 MAX_PADDINGS Hp) as Ht.
  rewrite <- Hs in Ht. pose proof (trailing_range MAX_PADDINGS (rev input)) as Hr. change (Z.of_nat MAX_PADDINGS) with 2 in Hr.
  generalize dependent (trailing MAX_PADDINGS (rev input)). intros t Ht Hr. apply (f_equal length) in Hs. rewrite length_app in Hs.
  pose proof (PtBase64.dec_tail_length _ _ (Nat2Z.is_nonneg _) Hn) as Hd. destruct Hn as [_ Hw].
  rewrite bad_length_guard in Hb. apply orb_false_iff in Hb as [_ Hb%negb_false_iff%Z.eqb_eq].
  assert (Htail : PtBase64.dec_tail (to_dec (decode_loop input (mkDecoding 0 [0; 0; 0; 0] [])).2) =
    decode_rest (decode_loop input (mkDecoding 0 [0; 0; 0; 0] [])).2) by done.
  destruct (decode_loop _ _) as [[rest|] d]; [|destruct Hl as (c&rest&Hl&_)]; rewrite Hl in *;
    cbn [fst snd length to_dec PtBase64.ddest] in *; [rewrite Htail in Hd|]; clear -Hs Ht Hd Hw Hb Hr; zdiv.
Qed.

Lemma Decode_dec input : bytes_wf input →
  (Decode input).2 = (PtBase64.Decode [0; 0; 0; 0] input).2 ∧
  ((Decode input).2 = true → Decode input = PtBase64.Decode [0; 0; 0; 0] input).
Proof.
  intros Hi. destruct (Decode_into_dec input Hi) as [E2 E]. unfold Decode, DecodedSize in *.
  destruct (bad_length input) eqn:Hb.
  { unfold Decode_into in E2. rewrite Hb in E2. by rewrite <- E2. }
  destruct (Decode_into input) as [w ok] eqn:Ei. simpl in *. split; [done|]. intros ->. specialize (E eq_refl).
  destruct (proj1 (PtBase64.base64_decode_done [0; 0; 0; 0] input eq_refl)) as (pre&pad&Hin&Hpad&Hp&_&_&Hlen);
    [by rewrite <- E|].
  rewrite <- E in *. simpl in Hlen. f_equal.
  replace (trailing MAX_PADDINGS (rev input)) with (Z.of_nat pad)
    by (rewrite Hin; symmetry; by apply (trailing_padding pre pad)).
  unfold ENCODED_GROUP_BYTES, DECODED_GROUP_BYTES.
  replace (Z.to_nat _ - length w)%nat with 0%nat by lia. simpl. by rewrite app_nil_r.
Qed.

Lemma enc_byte v : is_byte (PtBase64.enc v).
Proof.
  unfold PtBase64.enc, rd. destruct (nth_in_or_default (Z.to_nat v) PtBase64.ENCODE_TABLE 0) as [Hin| ->]; [|by unfold is_byte].
  apply list_elem_of_In in Hin. revert Hin. apply (proj1 (Forall_forall _ _) (str_wf _)).
Qed.

Lemma Encode_bytes l : bytes_wf (PtBase64.Encode l).
Proof.
  rewrite PtBase64.Encode_ref. unfold bytes_wf. induction l as [|a|a b|a b c l IH] using list_ind3; simpl;
    repeat (apply Forall_cons; split; [apply enc_byte || by unfold is_byte, PtBase64.PAD|]); done.
Qed.

(** ** Properties *)

(** The decoder of the static debugger never stores beyond the string it has
    sized, accepts exactly the texts that the decoder of the dynamic debugger
    accepts, and then gives the same bytes; so it gives back what was encoded. *)
Theorem static_base64 (input : bytes) :
  bytes_wf input →
  (∀ size, DecodedSize input = Some size → Z.of_nat (length (Decode_into input).1) ≤ size) ∧
  (Decode input).2 = (PtBase64.Decode [0; 0; 0; 0] input).2 ∧
  ((Decode input).2 = true → Decode input = PtBase64.Decode [0; 0; 0; 0] input) ∧
  (input ≠ [] → Decode (PtBase64.Encode input) = (input, true)).
Proof.
  intros Hi. split; [intros size Hs; by apply Decode_into_bound|].
  destruct (Decode_dec input Hi) as [E2 E]. split; [done|]. split; [done|]. intros Hne.
  destruct (Decode_dec (PtBase64.Encode input) (Encode_bytes input)) as [Ee2 Ee].
  rewrite PtBase64.Decode_Encode in Ee, Ee2 by done. by apply Ee.
Qed.

Lemma static_base64_witness : Decode (PtBase64.Encode (str "ArkTS")) = (str "ArkTS", true).
Proof. apply (static_base64 (str "ArkTS")); [apply str_wf|discriminate]. Defined.

End Base64Decoder.
