(* ===== verification/StaticTypes.v ===== *)
(** * Protocol types of the static debugger

    Models src/tooling/static/types and json_serialization: what the requests of
    the client are read into and what the answers and events are built from.

    [JsonObject], [JsonObjectBuilder] and [helpers::string] belong to libarkbase,
    which is not part of the repository. A parsed object is the list of its
    members; [GetValue<T>] is their look-up by key and type. What a builder has
    built is the tree [jout] of the calls of [AddProperty]: it keeps integers
    apart from floating point numbers, because the builder prints them exactly,
    and [read_back] is the value a reader of the printed text gets. *)

From S2P Require Import Prelude Regex Http CppLib PtJson.
Local Open Scope Z_scope.

(** ** JSON *)

#[warnings="-register-all"]
Inductive jout :=
| OutNull
| OutBool (b : bool)
| OutInt (z : Z)
| OutNum (d : double)
| OutStr (s : bytes)
| OutArr (items : list jout)
| OutObj (members : list (string * jout)).

(** What [Serialize] adds to a builder. *)
Definition fields : Type := list (string * jout).
Definition opt_field {A} (key : string) (f : A → jout) (o : option A) : fields :=
  match o with Some a => [(key, f a)] | None => [] end.

Fixpoint read_back (j : jout) : jval :=
  match j with
  | OutNull => JNull
  | OutBool b => JBool b
  | OutInt z => JNum (double_of_Z z)
  | OutNum d => JNum d
  | OutStr s => JStr s
  | OutArr l => JArr (read_back <$> l)
  | OutObj fs => JObj ((λ kv, (kv.1, read_back kv.2)) <$> fs)
  end.

Definition JsonObject : Type := list (string * jval).

Definition GetStringT (o : JsonObject) (key : string) : option bytes :=
  match find_field (String.eqb key) o with Some (JStr s) => Some s | _ => None end.
Definition GetNumT (o : JsonObject) (key : string) : option double :=
  match find_field (String.eqb key) o with Some (JNum d) => Some d | _ => None end.
Definition GetBoolT (o : JsonObject) (key : string) : option bool :=
  match find_field (String.eqb key) o with Some (JBool b) => Some b | _ => None end.
Definition GetArrayT (o : JsonObject) (key : string) : option (list jval) :=
  match find_field (String.eqb key) o with Some (JArr l) => Some l | _ => None end.
Definition GetJsonObject (o : JsonObject) (key : string) : option JsonObject :=
  match find_field (String.eqb key) o with Some (JObj fs) => Some fs | _ => None end.

(** ** Errors *)

Inductive Expected (A E : Type) := Value (a : A) | Unexpected (e : E).
Arguments Value {A E} a.
Arguments Unexpected {A E} e.

Inductive ErrorCode :=
| PARSE_ERROR | INTERNAL_ERROR | INVALID_PARAMS | METHOD_NOT_FOUND | INVALID_REQUEST | SESSION_NOT_FOUND
| SERVER_ERROR.

Definition error_code (c : ErrorCode) : Z :=
  match c with
  | PARSE_ERROR => -32700
  | INTERNAL_ERROR => -32603
  | INVALID_PARAMS => -32602
  | METHOD_NOT_FOUND => -32601
  | INVALID_REQUEST => -32600
  | SESSION_NOT_FOUND => -32001
  | SERVER_ERROR => -32000
  end.

Record JRPCError := mkJRPCError { code_ : ErrorCode; message_ : bytes }.

Definition JRPCError_Serialize (e : JRPCError) : fields :=
  [("code", OutInt (error_code (code_ e))); ("message", OutStr (message_ e))].

(** ** Numbers and identifiers *)

(** The two functions of helpers::string that are used: the integer in a text,
    not below a bound, and the format "%g". *)
Class StringHelpers := {
  ParseInt : bytes → Z → option Z;
  Format_g : double → bytes }.

Definition INTMAX_MAX : Z := 2 ^ 63 - 1.
Definition UINT32_MAX : Z := 2 ^ 32 - 1.
Definition SIZE_MAX : Z := 2 ^ 64 - 1.

(** Documented: decimal numbers are read as they are printed, and the result is
    in the bounds. *)
Class StringHelpersOK (h : StringHelpers) := {
  ParseInt_to_string n : 0 ≤ n ≤ INTMAX_MAX → ParseInt (to_string n) 0 = Some n;
  ParseInt_bounds s lo n : ParseInt s lo = Some n → lo ≤ n ≤ INTMAX_MAX }.

Section types.
Context `{StringHelpers} `{CastOob} `{SignedOverflow}.

(** [max] is the largest value of the type of the identifier. *)
Definition ParseNumericId (max : Z) (object : JsonObject) (propertyName : string) : Expected Z bytes :=
  match GetStringT object propertyName with
  | None => Unexpected (str "No such property: " ++ str propertyName)
  | Some property =>
      match ParseInt property 0 with
      | Some value =>
          if (value <? 0) || (max <? value) then Unexpected (str "Invalid id: " ++ property) else Value value
      | None => Unexpected (str "Invalid id: " ++ property)
      end
  end.

(** [*value < 0 || *value - trunc > trunc * DBL_EPSILON]: difference and product
    are exact here, so the test is on the exact values. It is false for a NaN and
    for infinity. *)
Definition bad_size (d : double) : bool :=
  match d with
  | DFin m e =>
      if 0 <=? e then m <? 0
      else
        let den := 2 ^ (- e) in
        let trunc := Z.quot m den in
        (m <? 0) || (trunc * den <? (m - trunc * den) * 2 ^ 52)
  | DInf neg => neg
  | DNaN => false
  end.

Definition ParseSizeProperty (object : JsonObject) (propertyName : string) : Expected Z bytes :=
  match GetNumT object propertyName with
  | None => Unexpected (str "No '" ++ str propertyName ++ str "' property")
  | Some value =>
      if bad_size value then Unexpected (str "Invalid line number: " ++ double_text value)
      else Value (double_to_uint64 value)
  end.

(** ** Locations

    Lines are counted from one inside and from zero in the protocol. *)
Record Location := mkLocation {
  scriptId_ : Z;
  lineNumber_ : Z;
  columnNumber_ : option Z }.

Definition Location_FromJsonProperty (object : JsonObject) (propertyName : string) : Expected Location bytes :=
  match GetJsonObject object propertyName with
  | None => Unexpected (str "No such property: " ++ str propertyName)
  | Some property =>
      match ParseNumericId SIZE_MAX property "scriptId" with
      | Unexpected e => Unexpected e
      | Value scriptId =>
          match ParseSizeProperty property "lineNumber" with
          | Unexpected e => Unexpected e
          | Value line => Value (mkLocation scriptId (i32 (u64 (line + 1))) None)
          end
      end
  end.

Definition Location_Serialize (l : Location) : fields :=
  [("scriptId", OutStr (to_string (scriptId_ l))); ("lineNumber", OutInt (int32_add (lineNumber_ l) (-1)))]
    ++ opt_field "columnNumber" OutInt (columnNumber_ l).

(** ** Breakpoint requests and responses *)

Record UrlBreakpointRequest := mkUrlRequest {
  rq_lineNumber : Z;
  rq_url : option bytes;
  rq_urlRegex : option bytes;
  rq_condition : option bytes }.

Definition UrlBreakpointRequest_FromJson (object : JsonObject) : Expected UrlBreakpointRequest bytes :=
  match ParseSizeProperty object "lineNumber" with
  | Unexpected e => Unexpected e
  | Value n =>
      let line := i32 (u64 (n + 1)) in
      let condition := GetStringT object "condition" in
      match GetStringT object "url" with
      | Some url => Value (mkUrlRequest line (Some url) None condition)
      | None =>
          match GetStringT object "urlRegex" with
          | Some urlRegex => Value (mkUrlRequest line None (Some urlRegex) condition)
          | None => Unexpected (str "Either 'url' or 'urlRegex' must be specified")
          end
      end
  end.

Record UrlBreakpointResponse := mkUrlResponse {
  ur_breakpointId : Z;
  ur_locations : list Location }.

Definition UrlBreakpointResponse_Serialize (r : UrlBreakpointResponse) : fields :=
  [("breakpointId", OutStr (to_string (ur_breakpointId r)));
   ("locations", OutArr ((λ l, OutObj (Location_Serialize l)) <$> ur_locations r))].

Record CustomUrlBreakpointResponse := mkCustomResponse {
  cu_lineNumber : Z;
  cu_columnNumber : Z;
  cu_scriptId : Z;
  cu_id : option Z }.

(** The constructor with its default values. *)
Definition CustomUrlBreakpointResponse_new (lineNumber : Z) : CustomUrlBreakpointResponse :=
  mkCustomResponse lineNumber 0 0 None.

Definition CustomUrlBreakpointResponse_Serialize (r : CustomUrlBreakpointResponse) : fields :=
  [("id", OutStr (match cu_id r with Some id => to_string id | None => str "invalid" end));
   ("lineNumber", OutInt (int32_add (cu_lineNumber r) (-1)));
   ("columnNumber", OutInt (cu_columnNumber r));
   ("scriptId", OutInt (cu_scriptId r))].

Definition CustomUrlBreakpointLocations_Serialize (ls : list CustomUrlBreakpointResponse) : fields :=
  [("locations", OutArr ((λ r, OutObj (CustomUrlBreakpointResponse_Serialize r)) <$> ls))].

(** [None] stands for the assertion that there is a location. *)
Definition ToCustomUrlBreakpointResponse (r : UrlBreakpointResponse) : option CustomUrlBreakpointResponse :=
  match ur_locations r with
  | loc :: _ =>
      Some (mkCustomResponse (lineNumber_ loc) (default 0 (columnNumber_ loc)) (scriptId_ loc) (Some (ur_breakpointId r)))
  | [] => None
  end.

Definition PossibleBreakpointsResponse_Serialize (ls : list Location) : fields :=
  [("locations", OutArr ((λ l, OutObj (Location_Serialize l)) <$> ls))].

Definition ScriptSourceResponse_Serialize (source : bytes) : fields := [("scriptSource", OutStr source)].

(** ** Evaluation requests *)

Record DebuggerEvaluationRequest := mkEvaluationRequest {
  ev_callFrameId : Z;
  ev_expression : bytes;
  ev_silent : bool;
  ev_returnByValue : bool;
  ev_generatePreview : bool }.

(** The readers of the two requests differ in the name of the text. *)
Definition evaluation_request (key : string) (missing : bytes) (object : JsonObject)
    : Expected DebuggerEvaluationRequest bytes :=
  match ParseNumericId UINT32_MAX object "callFrameId" with
  | Unexpected e => Unexpected e
  | Value frame =>
      match GetStringT object key with
      | None => Unexpected missing
      | Some expression =>
          Value (mkEvaluationRequest frame expression (default false (GetBoolT object "silent"))
                   (default false (GetBoolT object "returnByValue")) (default false (GetBoolT object "generatePreview")))
      end
  end.

Definition DebuggerEvaluationRequest_FromJson : JsonObject → Expected DebuggerEvaluationRequest bytes :=
  evaluation_request "expression" (str "no 'expression' field").
Definition DebuggerCallFunctionOnRequest_FromJson : JsonObject → Expected DebuggerEvaluationRequest bytes :=
  evaluation_request "functionDeclaration" (str "no 'functionDeclaration' field").

End types.
