(* ===== verification/StaticObjects.v ===== *)
(** * Remote objects of the static debugger

    Models src/tooling/static/types (remote objects, previews, properties, scopes,
    exceptions, results of evaluation and profiles) and
    debugger/object_repository.{h,cpp}, which gives the objects of a paused thread
    their identifiers.

    Objects of the virtual machine and what its language extension tells about
    them are the class [LangExt]. A handle of the repository keeps the identity of
    an object while it is moved, so an object is its identity here. *)

From S2P Require Import Prelude Regex Http CppLib PtJson StaticTypes.
Local Open Scope Z_scope.
Local Open Scope ark_scope.

(** ** Remote objects *)

Record RemoteObjectType := mkType { type_ : bytes; subtype_ : option bytes }.

Definition RemoteObjectType_Serialize (t : RemoteObjectType) : fields :=
  ("type", OutStr (type_ t)) :: opt_field "subtype" OutStr (subtype_ t).

Definition plain_type (type : string) : RemoteObjectType := mkType (str type) None.
Definition RemoteObjectType_Accessor : RemoteObjectType := plain_type "accessor".

Inductive NumberT := NumInt (z : Z) | NumDouble (d : double).

Inductive TypeValue :=
| TUndefined
| TNull
| TBool (b : bool)
| TNumber (n : NumberT)
| TBigInt (sign value : Z)
| TBigIntString (value : bytes)
| TString (s : bytes)
| TSymbol (description : bytes)
| TObject (className : bytes) (objectId : option Z) (description : option bytes)
| TArray (className : bytes) (objectId : option Z) (length : Z)
| TFunction (className : bytes) (objectId : option Z) (name : bytes) (length : Z).

Record PropertyPreview := mkPropertyPreview {
  pp_name : bytes;
  pp_type : RemoteObjectType;
  pp_value : option bytes }.

Definition PropertyPreview_Serialize (p : PropertyPreview) : fields :=
  RemoteObjectType_Serialize (pp_type p) ++ ("name", OutStr (pp_name p)) :: opt_field "value" OutStr (pp_value p).

Record ObjectPreview := mkPreview {
  pv_type : RemoteObjectType;
  pv_overflow : bool;
  pv_properties : list PropertyPreview }.

Definition ObjectPreview_Serialize (p : ObjectPreview) : fields :=
  RemoteObjectType_Serialize (pv_type p) ++
  [("overflow", OutBool (pv_overflow p));
   ("properties", OutArr ((λ q, OutObj (PropertyPreview_Serialize q)) <$> pv_properties p))].

Record RemoteObject := mkRemote { value_ : TypeValue; preview_ : option ObjectPreview }.

Definition remote (v : TypeValue) : RemoteObject := mkRemote v None.

(** The overloads of [RemoteObject::Number] for [int32_t] and floating point, for
    [int64_t], and for unsigned types of at least 32 bits. *)
Definition Number_int32 (n : Z) : RemoteObject := remote (TNumber (NumInt n)).
Definition Number_double (d : double) : RemoteObject := remote (TNumber (NumDouble d)).
Definition Number_int64 (n : Z) : RemoteObject :=
  if (- 2 ^ 31 <=? n) && (n <=? 2 ^ 31 - 1) then Number_int32 n
  else if n <? 0 then remote (TBigInt (-1) (u64 (- u64 n)))
  else remote (TBigInt 1 n).
Definition Number_unsigned (n : Z) : RemoteObject :=
  if n <=? 2 ^ 31 - 1 then Number_int32 n else remote (TBigInt 1 n).

Definition GetDescription_BigInt (sign value : Z) : bytes := (if 0 <=? sign then [] else str "-") ++ to_string value.
Definition GetDescription_Object (className : bytes) (description : option bytes) : bytes :=
  default className description.
Definition GetDescription_Array (className : bytes) (length : Z) : bytes :=
  className ++ str "(" ++ to_string length ++ str ")".

(** The parameters are named by letters; the code of a letter is a [char]. *)
Definition GetDescription_Function (name : bytes) (length : Z) : bytes :=
  str "function " ++ name ++ str "(" ++
  concat ((λ argIdx, (if argIdx =? 0 then [] else str ", ") ++ [u8 (97 + argIdx)]) <$> Zrange (Z.to_nat length)) ++
  str ") { [not available] }".

Definition GetObjectId (o : RemoteObject) : option Z :=
  match value_ o with
  | TObject _ id _ | TArray _ id _ | TFunction _ id _ _ => id
  | _ => None
  end.

Definition RemoteObject_GetType (o : RemoteObject) : RemoteObjectType :=
  match value_ o with
  | TUndefined => plain_type "undefined"
  | TNull => mkType (str "object") (Some (str "null"))
  | TBool _ => plain_type "boolean"
  | TNumber _ => plain_type "number"
  | TBigInt _ _ | TBigIntString _ => plain_type "bigint"
  | TString _ => plain_type "string"
  | TSymbol _ => plain_type "symbol"
  | TObject _ _ _ => plain_type "object"
  | TArray _ _ _ => mkType (str "object") (Some (str "array"))
  | TFunction _ _ _ _ => plain_type "function"
  end.

Definition GetClassName (o : RemoteObject) : bytes :=
  match value_ o with
  | TObject c _ _ | TArray c _ _ | TFunction c _ _ _ => c
  | _ => []
  end.

(** The members that depend on the kind of value. *)
Definition value_fields (v : TypeValue) : fields :=
  let unserializable d := [("unserializableValue", OutStr d); ("description", OutStr d)] in
  match v with
  | TUndefined => [("description", OutStr (str "undefined"))]
  | TNull => [("value", OutNull)]
  | TBool b => [("value", OutBool b)]
  | TNumber (NumInt z) => [("value", OutInt z)]
  | TNumber (NumDouble d) => [("value", OutNum d)]
  | TBigInt sign value => unserializable (GetDescription_BigInt sign value)
  | TBigIntString s => unserializable s
  | TString s => [("value", OutStr s)]
  | TSymbol d => [("description", OutStr d)]
  | TObject c _ d => [("className", OutStr c); ("description", OutStr (GetDescription_Object c d))]
  | TArray c _ n => [("className", OutStr c); ("description", OutStr (GetDescription_Array c n))]
  | TFunction c _ name n => [("className", OutStr c); ("description", OutStr (GetDescription_Function name n))]
  end.

Definition RemoteObject_Serialize (o : RemoteObject) : fields :=
  RemoteObjectType_Serialize (RemoteObject_GetType o) ++ value_fields (value_ o)
  ++ opt_field "objectId" (λ id, OutStr (to_string id)) (GetObjectId o)
  ++ opt_field "preview" (λ p, OutObj (ObjectPreview_Serialize p)) (preview_ o).

(** ** Properties and previews *)

Record PropertyDescriptor := mkProperty {
  pd_name : bytes;
  pd_symbol : option RemoteObject;
  pd_value : RemoteObject;
  pd_isAccessor : bool;
  pd_configurable : bool;
  pd_enumerable : bool;
  pd_writable : bool }.

Definition PropertyDescriptor_new (name : bytes) (value : RemoteObject) : PropertyDescriptor :=
  mkProperty name None value false false true true.
Definition PropertyDescriptor_Accessor (name : bytes) (getter : RemoteObject) : PropertyDescriptor :=
  mkProperty name None getter true false true true.
Definition SetWritable (b : bool) (p : PropertyDescriptor) : PropertyDescriptor :=
  mkProperty (pd_name p) (pd_symbol p) (pd_value p) (pd_isAccessor p) (pd_configurable p) (pd_enumerable p) b.
Definition SetObjectPreview (v : ObjectPreview) (p : PropertyDescriptor) : PropertyDescriptor :=
  mkProperty (pd_name p) (pd_symbol p) (mkRemote (value_ (pd_value p)) (Some v)) (pd_isAccessor p)
    (pd_configurable p) (pd_enumerable p) (pd_writable p).

Definition remote_json (o : RemoteObject) : jout := OutObj (RemoteObject_Serialize o).

Definition PropertyDescriptor_Serialize (p : PropertyDescriptor) : fields :=
  [("name", OutStr (pd_name p))] ++ opt_field "symbol" remote_json (pd_symbol p)
  ++ (if pd_isAccessor p then [("get", remote_json (pd_value p))]
      else [("value", remote_json (pd_value p)); ("writable", OutBool (pd_writable p))])
  ++ [("configurable", OutBool (pd_configurable p)); ("enumerable", OutBool (pd_enumerable p))].

Definition PROPERTIES_NMB_LIMIT : nat := 10.

Section previews.
Context `{StringHelpers}.

Definition GetPropertyPreviewValue (v : TypeValue) : bytes :=
  match v with
  | TUndefined => str "undefined"
  | TNull => str "null"
  | TBool b => if b then str "true" else str "false"
  | TNumber (NumInt z) => to_string z
  | TNumber (NumDouble d) => Format_g d
  | TBigInt sign value => GetDescription_BigInt sign value
  | TBigIntString s => s
  | TString s => s
  | TSymbol d => d
  | TObject c _ d => GetDescription_Object c d
  | TArray c _ n => GetDescription_Array c n
  | TFunction _ _ name _ => name
  end.

Definition property_preview (p : PropertyDescriptor) : option PropertyPreview :=
  if negb (pd_enumerable p) then None
  else if pd_isAccessor p then Some (mkPropertyPreview (pd_name p) RemoteObjectType_Accessor None)
  else Some (mkPropertyPreview (pd_name p) (RemoteObject_GetType (pd_value p))
               (Some (GetPropertyPreviewValue (value_ (pd_value p))))).

Definition ObjectPreview_new (type : RemoteObjectType) (properties : list PropertyDescriptor) : ObjectPreview :=
  mkPreview type (bool_decide (PROPERTIES_NMB_LIMIT < length properties)%nat)
    (omap property_preview (take PROPERTIES_NMB_LIMIT properties)).
End previews.

(** ** Scopes, exceptions, results *)

Inductive ScopeType := SCOPE_GLOBAL | SCOPE_LOCAL.
Definition GetTypeString (t : ScopeType) : bytes :=
  match t with SCOPE_GLOBAL => str "global" | SCOPE_LOCAL => str "local" end.

Record Scope := mkScope { sc_type : ScopeType; sc_object : RemoteObject; sc_name : option bytes }.

Definition Scope_Serialize (s : Scope) : fields :=
  [("type", OutStr (GetTypeString (sc_type s))); ("object", remote_json (sc_object s))]
    ++ opt_field "name" OutStr (sc_name s).

Record ExceptionDetails := mkException {
  ex_exceptionId : Z;
  ex_text : bytes;
  ex_lineNumber : Z;
  ex_columnNumber : Z;
  ex_scriptId : option Z;
  ex_url : option bytes;
  ex_exception : option RemoteObject;
  ex_executionContextId : option Z }.

Definition ExceptionDetails_Serialize (e : ExceptionDetails) : fields :=
  [("exceptionId", OutInt (ex_exceptionId e)); ("text", OutStr (ex_text e));
   ("lineNumber", OutInt (ex_lineNumber e)); ("columnNumber", OutInt (ex_columnNumber e))]
  ++ opt_field "scriptId" OutInt (ex_scriptId e) ++ opt_field "url" OutStr (ex_url e)
  ++ opt_field "exception" remote_json (ex_exception e)
  ++ opt_field "executionContextId" OutInt (ex_executionContextId e).

Record EvaluationResult := mkEvaluation { er_result : RemoteObject; er_exceptionDetails : option ExceptionDetails }.

Definition EvaluationResult_Serialize (r : EvaluationResult) : fields :=
  ("result", remote_json (er_result r))
    :: opt_field "exceptionDetails" (λ e, OutObj (ExceptionDetails_Serialize e)) (er_exceptionDetails r).

(** ** Asynchronous stacks *)

Record AsyncCallFrame := mkAsyncFrame { as_functionName : bytes; as_url : bytes; as_scriptId : Z; as_lineNumber : Z }.

#[warnings="-register-all"]
Inductive AsyncStackTrace :=
  mkAsyncTrace (description_ : bytes) (callFrames_ : list AsyncCallFrame) (parent_ : option AsyncStackTrace).

Section async.
Context `{SignedOverflow}.

Definition AsyncCallFrame_json (f : AsyncCallFrame) : jout :=
  OutObj [("functionName", OutStr (as_functionName f)); ("scriptId", OutStr (to_string (as_scriptId f)));
          ("url", OutStr (as_url f)); ("lineNumber", OutInt (int32_add (as_lineNumber f) (-1)));
          ("columnNumber", OutInt 0)].

Fixpoint AsyncStackTrace_Serialize (t : AsyncStackTrace) : fields :=
  match t with
  | mkAsyncTrace description callFrames parent =>
      [("description", OutStr description); ("callFrames", OutArr (AsyncCallFrame_json <$> callFrames))]
        ++ match parent with Some p => [("parent", OutObj (AsyncStackTrace_Serialize p))] | None => [] end
  end.
End async.

(** ** Profiles

    The samples belong to the sampler of the runtime; the members are those that
    are written. [nodes] is an array of which the first [nodeCount] are used. *)
Record FrameInfo := mkFrameInfo {
  fi_functionName : bytes; fi_moduleName : bytes; fi_scriptId : Z; fi_url : bytes; fi_lineNumber : Z;
  fi_columnNumber : Z }.
Record MethodNode := mkMethodNode { mn_id : Z; mn_codeEntry : FrameInfo; mn_hitCount : Z; mn_children : list Z }.
Record ProfileInfo := mkProfileInfo {
  pi_tid : Z; pi_osTid : Z; pi_startTime : Z; pi_stopTime : Z; pi_gcTime : Z;
  pi_cInterpreterTime : Z; pi_asmInterpreterTime : Z; pi_aotTime : Z; pi_builtinTime : Z;
  pi_napiTime : Z; pi_arkuiEngineTime : Z; pi_runtimeTime : Z; pi_otherTime : Z;
  pi_nodeCount : nat;
  pi_nodes : nat → MethodNode;
  pi_samples : list Z;
  pi_timeDeltas : list Z }.

Definition SerializeCallFrame (f : FrameInfo) : fields :=
  [("callFrame", OutObj [("functionName", OutStr (fi_functionName f)); ("moduleName", OutStr (fi_moduleName f));
      ("scriptId", OutInt (fi_scriptId f)); ("url", OutStr (fi_url f)); ("lineNumber", OutInt (fi_lineNumber f));
      ("columnNumber", OutInt (fi_columnNumber f))])].
Definition SerializeChildren (children : list Z) : fields := [("children", OutArr (OutInt <$> children))].
Definition SerializeNodes (p : ProfileInfo) : fields :=
  [("nodes", OutArr ((λ i,
      let n := pi_nodes p i in
      OutObj ([("id", OutInt (mn_id n))] ++ SerializeCallFrame (mn_codeEntry n)
                ++ [("hitCount", OutInt (mn_hitCount n))] ++ SerializeChildren (mn_children n)))
    <$> seq 0 (pi_nodeCount p)))].
Definition SerializeSingleProfileInfo (p : ProfileInfo) : fields :=
  [("tid", OutInt (pi_tid p));
   ("osTid", OutInt (pi_osTid p));
   ("startTime", OutInt (pi_startTime p));
   ("endTime", OutInt (pi_stopTime p));
   ("gcTime", OutInt (pi_gcTime p));
   ("cInterpreterTime", OutInt (pi_cInterpreterTime p));
   ("asmInterpreterTime", OutInt (pi_asmInterpreterTime p));
   ("aotTime", OutInt (pi_aotTime p));
   ("builtinTime", OutInt (pi_builtinTime p));
   ("napiTime", OutInt (pi_napiTime p));
   ("arkuiEngineTime", OutInt (pi_arkuiEngineTime p));
   ("runtimeTime", OutInt (pi_runtimeTime p));
   ("otherTime", OutInt (pi_otherTime p))]
  ++ SerializeNodes p
  ++ [("samples", OutArr (OutInt <$> pi_samples p)); ("timeDeltas", OutArr (OutInt <$> pi_timeDeltas p))].
Definition SerializeProfileInfos (ps : list (option ProfileInfo)) : list jout :=
  omap (λ o, (λ p, OutObj (SerializeSingleProfileInfo p)) <$> o) ps.

Definition Profile : Type := option (list (option ProfileInfo)).
Definition Profile_Serialize (p : Profile) : fields :=
  match p with None => [] | Some ps => [("profile", OutArr (SerializeProfileInfos ps))] end.

(** ** Values of the virtual machine *)

Class LangExt := {
  ObjectHeader : Type;
  ObjectHeader_eq_dec :: EqDecision ObjectHeader;
  (** What the objects hold at the moment. *)
  heap : Type;
  GetAsString : heap → ObjectHeader → option bytes;
  GetAsBigIntString : heap → ObjectHeader → option bytes;
  GetLengthIfArray : heap → ObjectHeader → option Z;
  ObjectClassName : heap → ObjectHeader → bytes;
  GetThisParameterName : bytes;
  ConvertUtf16ToUtf8 : Z → bytes }.

(** The values of the heap outside of the objects; a reference may be null. *)
Inductive TaggedValue `{LangExt} :=
| TaggedHeapObject (o : option ObjectHeader)
| TaggedUndefined | TaggedHole | TaggedNull
| TaggedBool (b : bool) | TaggedInt (z : Z) | TaggedDbl (d : double)
| TaggedOther.

Inductive TypedValue `{LangExt} :=
| TvInvalid | TvVoid
| TvU1 (b : bool) | TvI8 (z : Z) | TvU8 (z : Z) | TvI16 (z : Z) | TvU16 (z : Z) | TvI32 (z : Z) | TvU32 (z : Z)
| TvF32 (d : double) | TvF64 (d : double) | TvI64 (z : Z) | TvU64 (z : Z)
| TvReference (o : option ObjectHeader) | TvTagged (v : TaggedValue).

(** A property that the language extension enumerates: name, value, whether it
    is final, whether it is an accessor. *)
Definition enumerated `{LangExt} : Type := bytes * TypedValue * bool * bool.

Class LangEnum `{LangExt} := {
  EnumerateGlobals : heap → list enumerated;
  EnumerateProperties : heap → ObjectHeader → list enumerated }.

(** ** The repository *)

Section repository.
Context `{StringHelpers} `{LangEnum} (h : heap).

Record ObjectRepository := mkRepository {
  counter_ : Z;
  frames_ : gmap Z (list PropertyDescriptor);
  objects_ : list (Z * ObjectHeader) }.

Definition GLOBAL_OBJECT_ID : Z := 0.
Definition repository_init : ObjectRepository := mkRepository (GLOBAL_OBJECT_ID + 1) ∅ [].

Definition CreateGlobalObject : RemoteObject :=
  remote (TObject (str "[Global]") (Some GLOBAL_OBJECT_ID) (Some (str "Global object"))).

(** The id of an object: [objects_] is ordered by id, in which it grows. *)
Definition object_id (object : ObjectHeader) : M ObjectRepository Z := λ r,
  match list_find (λ p : Z * ObjectHeader, p.2 = object) (objects_ r) with
  | Some (_, (id, _)) => Ret id r
  | None => Ret (counter_ r) (mkRepository (counter_ r + 1) (frames_ r) (objects_ r ++ [(counter_ r, object)]))
  end.

Definition CreateObject_header (object : option ObjectHeader) : M ObjectRepository RemoteObject :=
  match object with
  | None => m_ret (remote TNull)
  | Some object =>
      match GetAsString h object with
      | Some s => m_ret (remote (TString s))
      | None =>
          match GetAsBigIntString h object with
          | Some s => m_ret (remote (TBigIntString s))
          | None =>
              id <-- object_id object ;;
              match GetLengthIfArray h object with
              | Some arrayLen => m_ret (remote (TArray (ObjectClassName h object) (Some id) arrayLen))
              | None => m_ret (remote (TObject (ObjectClassName h object) (Some id) None))
              end
          end
      end
  end.

(** A value that is none of the tested kinds is unreachable: the process ends. *)
Definition CreateObject_tagged (value : TaggedValue) : M ObjectRepository RemoteObject :=
  match value with
  | TaggedHeapObject o => CreateObject_header o
  | TaggedUndefined | TaggedHole => m_ret (remote TUndefined)
  | TaggedNull => m_ret (remote TNull)
  | TaggedBool b => m_ret (remote (TBool b))
  | TaggedInt z => m_ret (Number_int32 z)
  | TaggedDbl d => m_ret (Number_double d)
  | TaggedOther => λ r, Throw r
  end.

Definition CreateObject (value : TypedValue) : M ObjectRepository RemoteObject :=
  match value with
  | TvInvalid | TvVoid => m_ret (remote TUndefined)
  | TvU1 b => m_ret (remote (TBool b))
  | TvI8 z | TvU8 z | TvI16 z | TvI32 z => m_ret (Number_int32 z)
  | TvU16 z => m_ret (remote (TString (ConvertUtf16ToUtf8 z)))
  | TvU32 z | TvU64 z => m_ret (Number_unsigned z)
  | TvF32 d | TvF64 d => m_ret (Number_double d)
  | TvI64 z => m_ret (Number_int64 z)
  | TvReference o => CreateObject_header o
  | TvTagged v => CreateObject_tagged v
  end.

Definition IsSkippedVariable (varName : bytes) : bool := bool_decide (varName = str "opt").

(** The loop over the local variables: the properties and "this". *)
Fixpoint frame_properties (locals : list (bytes * TypedValue)) (properties : list PropertyDescriptor)
    (objThis : option RemoteObject) : M ObjectRepository (list PropertyDescriptor * option RemoteObject) :=
  match locals with
  | [] => m_ret (properties, objThis)
  | (paramName, value) :: locals' =>
      if IsSkippedVariable paramName then frame_properties locals' properties objThis
      else
        obj <-- CreateObject value ;;
        if bool_decide (paramName = GetThisParameterName) then frame_properties locals' properties (Some obj)
        else frame_properties locals' (properties ++ [PropertyDescriptor_new paramName obj]) objThis
  end.

Definition CreateFrameObject (frameId : Z) (locals : list (bytes * TypedValue))
    : M ObjectRepository (RemoteObject * option RemoteObject) :=
  made <-- frame_properties locals [] None ;;
  r <-- m_get ;;
  let id := counter_ r in
  m_modify (λ r, mkRepository (id + 1) (<[id := made.1]> (frames_ r)) (objects_ r)) ;;;
  m_ret (remote (TObject [] (Some id) (Some (str "Frame #" ++ to_string frameId))), made.2).

Definition propertyHandler (p : enumerated) : M ObjectRepository PropertyDescriptor :=
  let '(name, value, isFinal, isAccessor) := p in
  obj <-- CreateObject value ;;
  m_ret (if isAccessor then PropertyDescriptor_Accessor name obj
         else if isFinal then SetWritable false (PropertyDescriptor_new name obj)
         else PropertyDescriptor_new name obj).

Fixpoint m_map {S A B} (f : A → M S B) (l : list A) : M S (list B) :=
  match l with
  | [] => m_ret []
  | a :: l' => b <-- f a ;; bs <-- m_map f l' ;; m_ret (b :: bs)
  end.

Definition GetProperties_of (id : Z) : M ObjectRepository (list PropertyDescriptor) :=
  r <-- m_get ;;
  match frames_ r !! id with
  | Some properties => m_ret properties
  | None =>
      if id =? GLOBAL_OBJECT_ID then m_map propertyHandler (EnumerateGlobals h)
      else
        match list_find (λ p : Z * ObjectHeader, p.1 = id) (objects_ r) with
        | None => m_ret []
        | Some (_, (_, object)) => m_map propertyHandler (EnumerateProperties h object)
        end
  end.

Definition CreateObjectPreview (remobj : RemoteObject) : M ObjectRepository (option ObjectPreview) :=
  match GetObjectId remobj with
  | None => m_ret None
  | Some valueId =>
      properties <-- GetProperties_of valueId ;;
      m_ret (Some (ObjectPreview_new (RemoteObject_GetType remobj) properties))
  end.

Definition with_preview (property : PropertyDescriptor) : M ObjectRepository PropertyDescriptor :=
  if pd_isAccessor property then m_ret property
  else
    preview <-- CreateObjectPreview (pd_value property) ;;
    m_ret match preview with Some v => SetObjectPreview v property | None => property end.

Definition Repository_GetProperties (id : Z) (generatePreview : bool) : M ObjectRepository (list PropertyDescriptor) :=
  properties <-- GetProperties_of id ;;
  if generatePreview then m_map with_preview properties else m_ret properties.

End repository.

(** ** What the repository promises *)

Section repository_theory.
Context `{StringHelpers} `{LangEnum} (h : heap).

(** Ids below the counter are given out once: for a frame or for an object, and
    an object has one id. *)
Record repository_wf (r : ObjectRepository) : Prop := {
  wf_counter : GLOBAL_OBJECT_ID < counter_ r;
  wf_ids id : id ∈ (objects_ r).*1 → GLOBAL_OBJECT_ID < id < counter_ r;
  wf_ids_once : NoDup (objects_ r).*1;
  wf_objects_once : NoDup (objects_ r).*2;
  wf_frames id : is_Some (frames_ r !! id) → GLOBAL_OBJECT_ID < id < counter_ r ∧ id ∉ (objects_ r).*1 }.

Lemma repository_init_wf : repository_wf repository_init.
Proof. split; simpl; [done|set_solver|constructor|constructor|]. by intros id [x Hx%lookup_empty_Some]. Qed.

(** Nothing that was given out changes its meaning. *)
Record grows (r r' : ObjectRepository) : Prop := {
  grows_counter : counter_ r ≤ counter_ r';
  grows_frames : frames_ r ⊆ frames_ r';
  grows_objects : objects_ r `prefix_of` objects_ r' }.

(** [o] describes [v], with an id that the repository knows. *)
Definition shows (r : ObjectRepository) (v : TypedValue) (o : RemoteObject) : Prop := CreateObject h v r = Ret o r.

(** Values other than those the code declares unreachable. *)
Definition plain_value (v : TypedValue) : Prop := v ≠ TvTagged TaggedOther.
Definition plain_heap : Prop :=
  Forall (λ p : enumerated, plain_value p.1.1.2) (EnumerateGlobals h) ∧
  ∀ o, Forall (λ p : enumerated, plain_value p.1.1.2) (EnumerateProperties h o).

Definition describes (r : ObjectRepository) (e : enumerated) (p : PropertyDescriptor) : Prop :=
  let '(name, value, isFinal, isAccessor) := e in
  pd_name p = name ∧ pd_isAccessor p = isAccessor ∧ (isAccessor = false → pd_writable p = negb isFinal) ∧
  shows r value (remote (value_ (pd_value p))).

#[local] Instance grows_preorder : PreOrder grows.
Proof.
  split; [by split|]. intros r1 r2 r3 [] []. split; [lia|by etrans|by etrans].
Qed.

Lemma object_found r id o :
  NoDup (objects_ r).*2 → (id, o) ∈ objects_ r →
  ∃ i, list_find (λ p : Z * ObjectHeader, p.2 = o) (objects_ r) = Some (i, (id, o)).
Proof.
  intros Hn [i Hi]%list_elem_of_lookup. exists i. apply list_find_Some. split_and!; [done..|].
  intros j [id' o'] Hj Hlt Heq. simpl in Heq. subst o'. assert (j = i); [|lia].
  eapply NoDup_lookup; [exact Hn|rewrite list_lookup_fmap, Hj|rewrite list_lookup_fmap, Hi]; done.
Qed.

Lemma id_found r id o :
  NoDup (objects_ r).*1 → (id, o) ∈ objects_ r →
  ∃ i, list_find (λ p : Z * ObjectHeader, p.1 = id) (objects_ r) = Some (i, (id, o)).
Proof.
  intros Hn [i Hi]%list_elem_of_lookup. exists i. apply list_find_Some. split_and!; [done..|].
  intros j [id' o'] Hj Hlt Heq. simpl in Heq. subst id'. assert (j = i); [|lia].
  eapply NoDup_lookup; [exact Hn|rewrite list_lookup_fmap, Hj|rewrite list_lookup_fmap, Hi]; done.
Qed.

Lemma object_id_known r id o : repository_wf r → (id, o) ∈ objects_ r → object_id o r = Ret id r.
Proof.
  intros Hw Hin. destruct (object_found r id o) as [i Hi]; [apply Hw|done|].
  unfold object_id. by rewrite Hi.
Qed.

Lemma object_id_spec r o : repository_wf r →
  ∃ id r', object_id o r = Ret id r' ∧ repository_wf r' ∧ grows r r' ∧ (id, o) ∈ objects_ r'.
Proof.
  intros Hw. unfold object_id. destruct (list_find _ _) as [[i [id o']]|] eqn:E.
  - apply list_find_Some in E as (Hi&Ho&_). simpl in Ho. subst o'. exists id, r.
    split_and!; [done..|]. by eapply list_elem_of_lookup_2.
  - apply list_find_None in E. eexists _, _. split; [done|]. destruct Hw as [Hc Hi Hn1 Hn2 Hf].
    assert (Hnew : o ∉ (objects_ r).*2).
    { intros ([id o']&Heq&Hin)%list_elem_of_fmap. simpl in Heq. subst o'.
      rewrite Forall_forall in E. by apply (E _ Hin). }
    assert (Hfresh : counter_ r ∉ (objects_ r).*1) by (intros Hin; specialize (Hi _ Hin); lia).
    split_and!; [|split; simpl; [lia|done|by eexists]|set_solver].
    split; simpl; [lia|..].
    + intros id. rewrite fmap_app, elem_of_app. simpl. intros [Hin|Heq%list_elem_of_singleton].
      * specialize (Hi _ Hin). lia. * subst. lia.
    + rewrite fmap_app. apply NoDup_app. split_and!; [done| |apply NoDup_singleton].
      intros x Hx. simpl. intros ->%list_elem_of_singleton. done.
    + rewrite fmap_app. apply NoDup_app. split_and!; [done| |apply NoDup_singleton].
      intros x Hx. simpl. intros ->%list_elem_of_singleton. done.
    + intros id Hs. destruct (Hf _ Hs) as [? ?]. split; [lia|]. rewrite fmap_app, elem_of_app. simpl.
      intros [?|?%list_elem_of_singleton]; [done|lia].
Qed.

(** The object behind a value, if it is shown with an id. *)
Definition referent (v : TypedValue) : option ObjectHeader :=
  match v with TvReference o => o | TvTagged (TaggedHeapObject o) => o | _ => None end.

Lemma CreateObject_header_spec r o : repository_wf r →
  ∃ d r', CreateObject_header h o r = Ret d r' ∧ repository_wf r' ∧ grows r r' ∧ preview_ d = None ∧
    CreateObject_header h o r' = Ret d r' ∧
    ∀ id, GetObjectId d = Some id → ∃ x, o = Some x ∧ (id, x) ∈ objects_ r'.
Proof.
  intros Hw. destruct o as [o|]; [|by exists (remote TNull), r]. simpl.
  destruct (GetAsString h o) as [s|]; [by eexists _, r|].
  destruct (GetAsBigIntString h o) as [s|]; [by eexists _, r|].
  destruct (object_id_spec r o Hw) as (id&r'&Hid&Hw'&Hg&Hin).
  pose proof (object_id_known r' id o Hw' Hin) as Hk.
  eexists (match GetLengthIfArray h o with Some n => _ | None => _ end), r'.
  destruct (GetLengthIfArray h o) as [n|]; rewrite (m_bind_ret _ _ _ _ _ Hid);
    (split; [done|]); do 3 (split; [done|]); (split; [by rewrite (m_bind_ret _ _ _ _ _ Hk)|]);
    intros id'; simpl; intros [= <-]; eauto.
Qed.

Lemma Number_preview z : preview_ (Number_int64 z) = None ∧ preview_ (Number_unsigned z) = None.
Proof. unfold Number_int64, Number_unsigned. split; by repeat case_match. Qed.

Lemma CreateObject_spec r v : repository_wf r → plain_value v →
  ∃ o r', CreateObject h v r = Ret o r' ∧ repository_wf r' ∧ grows r r' ∧ preview_ o = None ∧ shows r' v o.
Proof.
  intros Hw Hp. unfold shows.
  destruct v as [| |b|z|z|z|z|z|z|d|d|z|z|o|v];
    try (by eexists _, r); try (eexists _, r; split_and!; [done..|apply (Number_preview z)|done]).
  - simpl. destruct (CreateObject_header_spec r o Hw) as (d&r'&?&?&?&?&?&?). by exists d, r'.
  - destruct v as [o| | | | | | |]; try (by destruct Hp); try by eexists _, r.
    simpl. destruct (CreateObject_header_spec r o Hw) as (d&r'&?&?&?&?&?&?). by exists d, r'.
Qed.

(** A description stays one. *)
Lemma shows_grows r r' v o : repository_wf r → repository_wf r' → grows r r' → shows r v o → shows r' v o.
Proof.
  intros Hw Hw' [_ _ Hpre]. unfold shows.
  assert (Hh : ∀ x, CreateObject_header h x r = Ret o r → CreateObject_header h x r' = Ret o r').
  { intros [x|]; [|by intros [= <-]]. simpl.
    destruct (GetAsString h x); [by intros [= <-]|]. destruct (GetAsBigIntString h x); [by intros [= <-]|].
    destruct (object_id_spec r x Hw) as (id&r1&Hid&Hw1&_&Hin). rewrite (m_bind_ret _ _ _ _ _ Hid).
    assert (Hr : r1 = r → (id, x) ∈ objects_ r').
    { intros ->. by eapply elem_of_prefix. }
    destruct (GetLengthIfArray h x); intros [= <- Heq];
      by rewrite (m_bind_ret _ _ _ _ _ (object_id_known _ _ _ Hw' (Hr Heq))). }
  destruct v as [| |b|z|z|z|z|z|z|d|d|z|z|x|v]; try (by intros [= <-]); [apply Hh|].
  destruct v as [x| | | | | | |]; try (by intros [= <-]). apply Hh.
Qed.

(** A loop whose steps each let the repository grow. *)
Lemma m_map_spec {A B} (f : A → M ObjectRepository B) (ok : A → Prop) (Q : ObjectRepository → A → B → Prop) l r :
  (∀ a r, ok a → repository_wf r → ∃ b r', f a r = Ret b r' ∧ repository_wf r' ∧ grows r r' ∧ Q r' a b) →
  (∀ a b r r', repository_wf r → repository_wf r' → grows r r' → Q r a b → Q r' a b) →
  Forall ok l → repository_wf r →
  ∃ bs r', m_map f l r = Ret bs r' ∧ repository_wf r' ∧ grows r r' ∧ Forall2 (Q r') l bs.
Proof.
  intros Hf Hm Hl. revert r. induction Hl as [|a l Ha _ IH]; intros r Hw.
  { exists [], r. by split_and!; [..|constructor]. }
  destruct (Hf a r Ha Hw) as (b&r1&E1&Hw1&Hg1&HQ). destruct (IH r1 Hw1) as (bs&r2&E2&Hw2&Hg2&HF).
  exists (b :: bs), r2. simpl. rewrite (m_bind_ret _ _ _ _ _ E1), (m_bind_ret _ _ _ _ _ E2).
  split_and!; [done..|by etrans|]. constructor; [by apply (Hm a b r1 r2)|done].
Qed.

Lemma describes_grows r r' e p :
  repository_wf r → repository_wf r' → grows r r' → describes r e p → describes r' e p.
Proof.
  intros ??? Hd. destruct e as [[[name value] isFinal] isAccessor]. destruct Hd as (?&?&?&?).
  split_and!; [done..|by apply (shows_grows r r')].
Qed.

Lemma propertyHandler_spec e r : plain_value e.1.1.2 → repository_wf r →
  ∃ p r', propertyHandler h e r = Ret p r' ∧ repository_wf r' ∧ grows r r' ∧
    (describes r' e p ∧ preview_ (pd_value p) = None).
Proof.
  destruct e as [[[name value] isFinal] isAccessor]. simpl. intros Hp Hw.
  destruct (CreateObject_spec r value Hw Hp) as (o&r'&E&Hw'&Hg&Hpv&Hs).
  rewrite (m_bind_ret _ _ _ _ _ E). eexists _, r'. split; [done|]. do 2 (split; [done|]).
  assert (o = remote (value_ o)) as Ho by (destruct o; simpl in Hpv; by subst).
  destruct isAccessor, isFinal; simpl; rewrite <- ?Ho; by split_and!.
Qed.

(** The properties of an object, of the globals, of a frame, and of an unknown
    id. *)
Definition enumerated_at (r : ObjectRepository) (id : Z) : option (list enumerated) :=
  if id =? GLOBAL_OBJECT_ID then Some (EnumerateGlobals h)
  else (λ x, EnumerateProperties h x.2.2) <$> list_find (λ p : Z * ObjectHeader, p.1 = id) (objects_ r).

Lemma GetProperties_of_spec r id : repository_wf r → plain_heap →
  ∃ ps r', GetProperties_of h id r = Ret ps r' ∧ repository_wf r' ∧ grows r r' ∧
    match frames_ r !! id, enumerated_at r id with
    | Some qs, _ => ps = qs ∧ r' = r
    | None, None => ps = [] ∧ r' = r
    | None, Some es => Forall2 (λ e p, describes r' e p ∧ preview_ (pd_value p) = None) es ps
    end.
Proof.
  intros Hw [Hg Ho]. unfold GetProperties_of, m_bind, m_get, enumerated_at.
  destruct (frames_ r !! id) as [qs|]; [by eexists _, r|].
  assert (Hl : ∀ l, Forall (λ p : enumerated, plain_value p.1.1.2) l →
    ∃ bs r', m_map (propertyHandler h) l r = Ret bs r' ∧ repository_wf r' ∧ grows r r' ∧
      Forall2 (λ e p, describes r' e p ∧ preview_ (pd_value p) = None) l bs).
  { intros l Hl. eapply (m_map_spec _ (λ e : enumerated, plain_value e.1.1.2)
      (λ r e p, describes r e p ∧ preview_ (pd_value p) = None)); [..|done|done].
    - intros. by apply propertyHandler_spec.
    - intros e p r1 r2 ??? [? ?]. split; [by apply (describes_grows r1 r2)|done]. }
  destruct (id =? GLOBAL_OBJECT_ID); [by apply Hl|].
  destruct (list_find _ (objects_ r)) as [[i [id' o]]|]; [apply Hl, Ho|by eexists _, r].
Qed.

(** Previews do not change what a property describes. *)
Definition same_property (p q : PropertyDescriptor) : Prop :=
  pd_name q = pd_name p ∧ pd_isAccessor q = pd_isAccessor p ∧ pd_writable q = pd_writable p ∧
  value_ (pd_value q) = value_ (pd_value p) ∧
  ∀ v, preview_ (pd_value q) = Some v → preview_ (pd_value p) = Some v ∨
    (length (pv_properties v) ≤ PROPERTIES_NMB_LIMIT)%nat.

Lemma omap_length_le {A B} (f : A → option B) l : (length (omap f l) ≤ length l)%nat.
Proof. induction l as [|a l IH]; csimpl; [done|]. destruct (f a); csimpl; lia. Qed.

Lemma with_preview_spec p r : True → repository_wf r → plain_heap →
  ∃ q r', with_preview h p r = Ret q r' ∧ repository_wf r' ∧ grows r r' ∧ same_property p q.
Proof.
  intros _ Hw Hp. unfold with_preview. assert (Hs : same_property p p) by (unfold same_property; naive_solver).
  destruct (pd_isAccessor p) eqn:Ea; [by exists p, r|].
  unfold CreateObjectPreview. destruct (GetObjectId (pd_value p)) as [id|]; [|by exists p, r].
  destruct (GetProperties_of_spec r id Hw Hp) as (ps&r'&E&Hw'&Hg&_).
  unfold m_bind at 1. rewrite (m_bind_ret _ _ _ _ _ E). eexists _, r'. simpl. split; [done|].
  split_and!; [done..|]. unfold same_property. simpl. split_and!; [done..|].
  intros v [= <-]. right. simpl. etrans; [apply omap_length_le|]. rewrite length_take. lia.
Qed.

Lemma Forall2_same es ps qs r : Forall2 same_property ps qs → Forall2 (describes r) es ps → Forall2 (describes r) es qs.
Proof.
  intros HF. revert es. induction HF as [|p q ps qs Hs _ IH]; intros es He.
  { inversion He; subst; constructor. }
  apply Forall2_cons_inv_r in He as (e&es'&Hd&He&->). constructor.
  - destruct e as [[[name value] isFinal] isAccessor]. destruct Hd as (?&?&?&?), Hs as (?&?&?&Hv&?).
    unfold describes. rewrite Hv. split_and!; [congruence|congruence|intros; etrans; eauto|done].
  - by apply IH.
Qed.

(** The locals that become properties of the frame: all but "this" and the ones
    that are left out. *)
Definition shown_locals (locals : list (bytes * TypedValue)) : list (bytes * TypedValue) :=
  filter (λ lv, IsSkippedVariable lv.1 = false ∧ lv.1 ≠ GetThisParameterName) locals.

Definition shows_local (r : ObjectRepository) (lv : bytes * TypedValue) (p : PropertyDescriptor) : Prop :=
  pd_name p = lv.1 ∧ shows r lv.2 (pd_value p).

Lemma shows_local_grows r r' ls ps : repository_wf r → repository_wf r' → grows r r' →
  Forall2 (shows_local r) ls ps → Forall2 (shows_local r') ls ps.
Proof.
  intros ??? HF. eapply Forall2_impl; [exact HF|]. intros lv p [? ?]. split; [done|]. by apply (shows_grows r r').
Qed.

Lemma frame_properties_spec locals r done_ls ps this :
  repository_wf r → Forall (λ lv, plain_value lv.2) locals → Forall2 (shows_local r) done_ls ps →
  ∃ ps' this' r', frame_properties h locals ps this r = Ret (ps', this') r' ∧ repository_wf r' ∧ grows r r' ∧
    Forall2 (shows_local r') (done_ls ++ shown_locals locals) ps'.
Proof.
  revert r done_ls ps this. induction locals as [|[name value] locals IH]; intros r done_ls ps this Hw Hp HF.
  { exists ps, this, r. unfold shown_locals. simpl. by rewrite app_nil_r. }
  apply Forall_cons in Hp as [Hv Hp]. simpl. unfold shown_locals. rewrite filter_cons. simpl.
  destruct (IsSkippedVariable name) eqn:Es.
  { rewrite decide_False by naive_solver. by apply IH. }
  destruct (CreateObject_spec r value Hw Hv) as (o&r1&E&Hw1&Hg1&_&Hs). rewrite (m_bind_ret _ _ _ _ _ E).
  assert (HF1 : Forall2 (shows_local r1) done_ls ps) by by apply (shows_local_grows r r1).
  case_bool_decide as Ht.
  - rewrite decide_False by naive_solver.
    destruct (IH r1 done_ls ps (Some o) Hw1 Hp HF1) as (ps'&this'&r2&E2&Hw2&Hg2&HF2).
    exists ps', this', r2. split_and!; [done..|by etrans|done].
  - rewrite decide_True by done.
    destruct (IH r1 (done_ls ++ [(name, value)]) (ps ++ [PropertyDescriptor_new name o]) this Hw1 Hp)
      as (ps'&this'&r2&E2&Hw2&Hg2&HF2).
    { by apply Forall2_app; [|repeat constructor]. }
    exists ps', this', r2. rewrite <- app_assoc in HF2. split_and!; [done..|by etrans|done].
Qed.

(** The scope object of a frame gets a new id, under which exactly the variables
    of the frame are found, except "this" and "opt". *)
Theorem frame_object_properties r frameId locals :
  repository_wf r → Forall (λ lv, plain_value lv.2) locals →
  ∃ o this r' id ps, CreateFrameObject h frameId locals r = Ret (o, this) r' ∧ repository_wf r' ∧ grows r r' ∧
    GetObjectId o = Some id ∧ counter_ r ≤ id ∧ GetProperties_of h id r' = Ret ps r' ∧
    Forall2 (shows_local r') (shown_locals locals) ps.
Proof.
  intros Hw Hp. destruct (frame_properties_spec locals r [] [] None Hw Hp) as (ps&this&r1&E&Hw1&Hg1&HF); [constructor|].
  unfold CreateFrameObject. rewrite (m_bind_ret _ _ _ _ _ E). simpl.
  set (r2 := mkRepository (counter_ r1 + 1) (<[counter_ r1:=ps]> (frames_ r1)) (objects_ r1)).
  destruct Hw1 as [Hc Hi Hn1 Hn2 Hf].
  assert (Hnone : frames_ r1 !! counter_ r1 = None).
  { apply eq_None_not_Some. intros Hs. destruct (Hf _ Hs). lia. }
  assert (Hw2 : repository_wf r2).
  { split; simpl; [lia| |done|done|].
    - intros id Hin. specialize (Hi _ Hin). lia.
    - intros id. destruct (decide (id = counter_ r1)) as [->|Hne].
      + intros _. split; [lia|]. intros Hin. specialize (Hi _ Hin). lia.
      + rewrite lookup_insert_ne by done. intros Hs. destruct (Hf _ Hs). split; [lia|done]. }
  assert (Hg2 : grows r1 r2) by (split; simpl; [lia|by apply insert_subseteq|done]).
  eexists _, this, r2, (counter_ r1), ps. split; [done|]. split; [done|]. split; [by etrans|].
  split; [done|]. split; [apply Hg1|]. split; [unfold GetProperties_of, m_bind, m_get; simpl; by rewrite lookup_insert_eq|].
  apply (shows_local_grows r1 r2); [by split|done..].
Qed.

(** C12: what the client sees of the objects of a paused thread. "getProperties"
    always returns; for an id that was given to an object it lists exactly the
    properties of that object in order, each with the description of its current
    value and, for an object, with the id that names this object from then on; an
    object has one id, ids that were given out keep their meaning, and an id that
    was not given out has no properties. Previews add at most ten properties and
    change nothing else. *)
Theorem static_object_properties r id generatePreview :
  repository_wf r → plain_heap →
  ∃ ps r', Repository_GetProperties h id generatePreview r = Ret ps r' ∧ repository_wf r' ∧ grows r r' ∧
    match frames_ r !! id, enumerated_at r id with
    | Some qs, _ => Forall2 same_property qs ps
    | None, None => ps = [] ∧ r' = r
    | None, Some es => Forall2 (describes r') es ps
    end.
Proof.
  intros Hw Hp. destruct (GetProperties_of_spec r id Hw Hp) as (ps&r1&E&Hw1&Hg1&Hm).
  unfold Repository_GetProperties. rewrite (m_bind_ret _ _ _ _ _ E).
  assert (Hself : Forall2 same_property ps ps).
  { clear. induction ps; constructor; [unfold same_property; naive_solver|done]. }
  destruct generatePreview.
  - destruct (m_map_spec (with_preview h) (λ _, True) (λ _, same_property) ps r1) as (qs&r2&E2&Hw2&Hg2&HF).
    + intros. by apply with_preview_spec. + done. + by apply Forall_true. + done.
    + exists qs, r2. split; [done|]. split; [done|]. split; [by etrans|].
      destruct (frames_ r !! id); [by destruct Hm as [-> ->]|].
      destruct (enumerated_at r id) as [es|].
      * apply (Forall2_same _ ps); [done|]. eapply Forall2_impl; [exact Hm|].
        intros e p [Hd _]. by apply (describes_grows r1 r2).
      * destruct Hm as [-> ->]. inversion HF; subst. by injection E2.
  - exists ps, r1. split; [done|]. split; [done|]. split; [done|].
    destruct (frames_ r !! id); [by destruct Hm as [-> ->]|].
    destruct (enumerated_at r id) as [es|]; [|done]. eapply Forall2_impl; [exact Hm|]. naive_solver.
Qed.
End repository_theory.
