(* ===== verification/StaticSessions.v ===== *)
(** * Sessions and scripts of the static debugger

    Models src/tooling/static/session_manager.{h,cpp} and source_manager.{h,cpp}.
    A session is the client's name for a thread; a script id is its name for a
    source file of a loaded file. The mutex of each class makes every operation
    atomic.

    Threads are handles of the runtime: the class [Threads]. A [std::map] with
    text keys is a finite map that is enumerated in the order of the keys. *)

From S2P Require Import Prelude Regex Http CppLib PtJson StaticTypes.
From stdpp Require Import sorting.
Local Open Scope Z_scope.

(** ** Ordered maps *)

Fixpoint bytes_le (a b : bytes) : bool :=
  match a, b with
  | [], _ => true
  | _, [] => false
  | x :: a', y :: b' => (x <? y) || ((x =? y) && bytes_le a' b')
  end.

Definition key_le {V} (p q : bytes * V) : Prop := bytes_le p.1 q.1 = true.
#[export] Instance key_le_dec {V} : RelDecision (@key_le V).
Proof. intros p q. unfold key_le. apply _. Defined.

Definition map_iter {V} (m : gmap bytes V) : list (bytes * V) := merge_sort key_le (map_to_list m).

Lemma map_iter_perm {V} (m : gmap bytes V) : map_iter m ≡ₚ map_to_list m.
Proof. apply merge_sort_Permutation. Qed.

Lemma elem_of_map_iter {V} (m : gmap bytes V) k v : (k, v) ∈ map_iter m ↔ m !! k = Some v.
Proof. by rewrite map_iter_perm, elem_of_map_to_list. Qed.

(** ** Threads *)

Class Threads := {
  PtThread : Type;
  PtThread_eq_dec :: EqDecision PtThread;
  PtThread_NONE : PtThread;
  GetId : PtThread → Z;
  GetId_range t : is_uint32 (GetId t) }.

(** The sessions by name. *)
Abbreviation SessionManager := (gmap bytes PtThread).

Section sessions.
Context `{Threads}.

(** ** The session manager *)

(** The first session is the one without a name. [insert] does not replace. *)
Definition AddSession (thread : PtThread) (s : SessionManager) : bytes * SessionManager :=
  let id := if decide (s = ∅) then [] else to_string (GetId thread) in
  (id, match s !! id with Some _ => s | None => <[id := thread]> s end).

Definition RemoveSession (id : bytes) (s : SessionManager) : SessionManager := delete id s.

Definition GetSessionIdByThread (thread : PtThread) (s : SessionManager) : bytes :=
  if decide (s !! [] = Some thread) then [] else to_string (GetId thread).

Definition GetThreadBySessionId (id : bytes) (s : SessionManager) : PtThread := default PtThread_NONE (s !! id).

Definition EnumerateSessions (s : SessionManager) : list (bytes * PtThread) := map_iter s.
Definition GetAllSessions (s : SessionManager) : list jout := (λ p, OutStr p.1) <$> map_iter s.

(** *** Runs: threads start and end *)

Inductive sessions_run : list PtThread → SessionManager → Prop :=
| sessions_init : sessions_run [] ∅
| sessions_start live s t :
    sessions_run live s → GetId t ∉ GetId <$> live → sessions_run (t :: live) (AddSession t s).2
| sessions_end live s t :
    sessions_run live s → t ∈ live →
    sessions_run (filter (λ u, u ≠ t) live) (RemoveSession (GetSessionIdByThread t s) s).

Lemma to_string_inj a b : is_uint32 a → is_uint32 b → to_string a = to_string b → a = b.
Proof.
  unfold is_uint32. intros Ha Hb Heq.
  pose proof (strto_to_string a [] ltac:(lia) I) as E1. pose proof (strto_to_string b [] ltac:(lia) I) as E2.
  rewrite app_nil_r in E1, E2. rewrite Heq, E2 in E1. injection E1 as E1. lia.
Qed.

Lemma to_string_nonempty a : is_uint32 a → to_string a ≠ [].
Proof.
  unfold is_uint32. intros Ha Heq. pose proof (strto_to_string a [] ltac:(lia) I) as E.
  by rewrite Heq in E.
Qed.

Lemma session_names t t' : to_string (GetId t) = to_string (GetId t') → GetId t = GetId t'.
Proof. apply to_string_inj; apply GetId_range. Qed.

(** Sessions and live threads correspond one to one. *)
Record sessions_inv (live : list PtThread) (s : SessionManager) : Prop := {
  si_ids : NoDup (GetId <$> live);
  si_live id t : s !! id = Some t → t ∈ live ∧ (id = [] ∨ id = to_string (GetId t));
  si_found t : t ∈ live → s !! GetSessionIdByThread t s = Some t;
  si_one t : s !! [] = Some t → s !! to_string (GetId t) = None }.

Lemma live_same live s t t' : sessions_inv live s → t ∈ live → t' ∈ live → GetId t = GetId t' → t = t'.
Proof.
  intros Hi [i Hi1]%list_elem_of_lookup [j Hj1]%list_elem_of_lookup Heq.
  assert (i = j) as ->; [|by simplify_eq].
  eapply NoDup_lookup; [apply (si_ids _ _ Hi)|rewrite list_lookup_fmap, Hi1|rewrite list_lookup_fmap, Hj1]; [done|].
  simpl. by rewrite Heq.
Qed.

Lemma AddSession_inv live s t :
  sessions_inv live s → GetId t ∉ GetId <$> live → sessions_inv (t :: live) (AddSession t s).2.
Proof.
  intros Hi Hn. assert (Hnl : t ∉ live) by (intros ?; apply Hn; by apply list_elem_of_fmap_2).
  assert (Hnd : NoDup (GetId <$> t :: live)) by (simpl; apply NoDup_cons; split; [done|apply Hi]).
  unfold AddSession. destruct (decide (s = ∅)) as [->|Hs]; cbn [snd].
  { assert (live = []) as ->.
    { destruct live as [|u live]; [done|]. by pose proof (si_found _ _ Hi u ltac:(set_solver)). }
    rewrite lookup_empty. split; [done|..]; unfold GetSessionIdByThread.
    - intros id u. rewrite insert_empty, lookup_singleton_Some. intros [<- <-]. split; [apply elem_of_cons|]; by left.
    - intros u ->%list_elem_of_singleton. rewrite decide_True by apply lookup_insert_eq. apply lookup_insert_eq.
    - intros u. rewrite lookup_insert_eq. intros [= <-]. rewrite lookup_insert_ne; [done|].
      intros E. by destruct (to_string_nonempty (GetId t) (GetId_range t)). }
  pose proof (to_string_nonempty _ (GetId_range t)) as Hne.
  assert (Hnone : s !! to_string (GetId t) = None).
  { apply eq_None_not_Some. intros [u Hu]. destruct (si_live _ _ Hi _ _ Hu) as [Hl [Heq|Heq]]; [done|].
    apply Hn. rewrite (session_names _ _ Heq). by apply list_elem_of_fmap_2. }
  assert (Hfirst : <[to_string (GetId t) := t]> s !! [] = s !! []) by by apply lookup_insert_ne.
  rewrite Hnone. split; [done|..]; unfold GetSessionIdByThread.
  - intros id u. rewrite lookup_insert_Some. intros [[<- <-]|[_ Hu]]; [split; [apply elem_of_cons; by left|by right]|].
    destruct (si_live _ _ Hi _ _ Hu). split; [apply elem_of_cons; by right|done].
  - intros u Hu. rewrite Hfirst. apply elem_of_cons in Hu as [->|Hu].
    + rewrite decide_False; [apply lookup_insert_eq|]. intros E. by destruct (si_live _ _ Hi _ _ E).
    + pose proof (si_found _ _ Hi u Hu) as Hf. unfold GetSessionIdByThread in Hf.
      rewrite lookup_insert_ne; [done|]. destruct (decide _); [done|]. intros E%session_names.
      apply Hn. rewrite E. by apply list_elem_of_fmap_2.
  - intros u. rewrite Hfirst. intros Hu. destruct (si_live _ _ Hi _ _ Hu) as [Hl _].
    rewrite lookup_insert_ne; [by apply (si_one _ _ Hi)|]. intros E%session_names. apply Hn. rewrite E.
    by apply list_elem_of_fmap_2.
Qed.

Lemma RemoveSession_inv live s t :
  sessions_inv live s → t ∈ live →
  sessions_inv (filter (λ u, u ≠ t) live) (RemoveSession (GetSessionIdByThread t s) s).
Proof.
  intros Hi Ht. pose proof (si_found _ _ Hi t Ht) as Hft. unfold RemoveSession.
  assert (Hother : ∀ id u, delete (GetSessionIdByThread t s) s !! id = Some u ↔ s !! id = Some u ∧ u ≠ t).
  { intros id u. rewrite lookup_delete_Some. split.
    - intros [Hid Hu]. split; [done|]. intros ->. apply Hid. destruct (si_live _ _ Hi _ _ Hu) as [_ Hc].
      unfold GetSessionIdByThread in *. destruct (decide (s !! [] = Some t)) as [E|E].
      + destruct Hc as [-> | ->]; [done|]. by rewrite (si_one _ _ Hi _ E) in Hu.
      + destruct Hc as [-> | ->]; [done|done].
    - intros [Hu Hne]. split; [|done]. intros <-. rewrite Hft in Hu. congruence. }
  split.
  - apply NoDup_fmap_2_strong.
    + intros u v [_ Hu]%list_elem_of_filter [_ Hv]%list_elem_of_filter. by apply (live_same live s).
    + apply NoDup_filter. eapply NoDup_fmap_1, (si_ids _ _ Hi).
  - intros id u [Hu Hne]%Hother. destruct (si_live _ _ Hi _ _ Hu). split; [|done]. by apply list_elem_of_filter.
  - intros u [Hne Hu]%list_elem_of_filter. pose proof (si_found _ _ Hi u Hu) as Hf.
    unfold GetSessionIdByThread at 1. destruct (decide _) as [[E _]%Hother|E].
    + apply Hother. by unfold GetSessionIdByThread in Hf; rewrite decide_True in Hf.
    + apply Hother. split; [|done]. unfold GetSessionIdByThread in Hf.
      destruct (decide (s !! [] = Some u)); [|done]. exfalso. apply E. by apply Hother.
  - intros u [Hu _]%Hother. apply eq_None_not_Some. intros [v [Hv _]%Hother].
    by rewrite (si_one _ _ Hi _ Hu) in Hv.
Qed.

Lemma sessions_run_inv live s : sessions_run live s → sessions_inv live s.
Proof.
  induction 1 as [|live s t _ IH Hn|live s t _ IH Ht]; [|by apply AddSession_inv|by apply RemoveSession_inv].
  split; [constructor|..]; intros *; rewrite ?lookup_empty; [done|by intros ?%elem_of_nil|done].
Qed.

(** Sessions and threads. As threads start and end in any order, every live
    thread has exactly one session, from which it is found again; every session
    belongs to a live thread; and two threads never share one. *)
Theorem session_table live s :
  sessions_run live s →
  (∀ t, t ∈ live → GetThreadBySessionId (GetSessionIdByThread t s) s = t) ∧
  (∀ id t, s !! id = Some t → t ∈ live ∧ GetSessionIdByThread t s = id) ∧
  (∀ t u, t ∈ live → u ∈ live → GetSessionIdByThread t s = GetSessionIdByThread u s → t = u) ∧
  size s = length live.
Proof.
  intros Hi%sessions_run_inv.
  assert (H1 : ∀ t, t ∈ live → GetThreadBySessionId (GetSessionIdByThread t s) s = t).
  { intros t Ht. unfold GetThreadBySessionId. by rewrite (si_found _ _ Hi t Ht). }
  assert (H2 : ∀ id t, s !! id = Some t → t ∈ live ∧ GetSessionIdByThread t s = id).
  { intros id t Ht. destruct (si_live _ _ Hi _ _ Ht) as [Hl Hc]. split; [done|]. unfold GetSessionIdByThread.
    destruct (decide _) as [E|E]; destruct Hc as [-> | ->]; try done. by rewrite (si_one _ _ Hi _ E) in Ht. }
  split; [done|]. split; [done|]. split.
  { intros t u Ht Hu Heq. by rewrite <- (H1 t Ht), Heq, H1. }
  assert (Hp : (map_to_list s).*2 ≡ₚ live).
  { apply NoDup_Permutation.
    - apply NoDup_fmap_2_strong; [|apply NoDup_map_to_list].
      intros [i t] [j u] Hit%elem_of_map_to_list Hju%elem_of_map_to_list Heq. simpl in Heq. subst u.
      destruct (H2 _ _ Hit) as [_ <-], (H2 _ _ Hju) as [_ <-]. done.
    - eapply NoDup_fmap_1, (si_ids _ _ Hi).
    - intros t. rewrite list_elem_of_fmap. split.
      + intros ([i u]&->&Hin%elem_of_map_to_list). by destruct (H2 _ _ Hin).
      + intros Ht. exists (GetSessionIdByThread t s, t). split; [done|].
        by apply elem_of_map_to_list, (si_found _ _ Hi). }
  by rewrite <- Hp, length_fmap, length_map_to_list.
Qed.
End sessions.

(** ** The source manager *)

Abbreviation ScriptKey := (bytes * bytes)%type.

Record SourceManager := mkSources {
  fileNameToId_ : gmap ScriptKey Z;
  idToScript_ : gmap Z ScriptKey;
  knownSources_ : gset Z }.

Definition sources_init : SourceManager := mkSources ∅ ∅ ∅.

(** The id of a script and whether it is seen for the first time. [emplace] does
    not replace; [idToScript_] holds pointers to the keys of [fileNameToId_],
    which are never erased. *)
Definition GetScriptId (fileName scriptIdentity : bytes) (s : SourceManager) : (Z * bool) * SourceManager :=
  let key := (fileName, scriptIdentity) in
  let '(id, files, inserted) :=
    match fileNameToId_ s !! key with
    | Some id => (id, fileNameToId_ s, false)
    | None => let id := Z.of_nat (size (fileNameToId_ s)) in (id, <[key := id]> (fileNameToId_ s), true)
    end in
  let isNewForThread := bool_decide (id ∉ knownSources_ s) in
  let scripts :=
    if inserted then match idToScript_ s !! id with Some _ => idToScript_ s | None => <[id := key]> (idToScript_ s) end
    else idToScript_ s in
  ((id, isNewForThread), mkSources files scripts ({[id]} ∪ knownSources_ s)).

(** Views of nothing for an unknown id. *)
Definition GetSourceFileName (id : Z) (s : SourceManager) : bytes :=
  match idToScript_ s !! id with Some key => key.1 | None => [] end.
Definition GetScript (id : Z) (s : SourceManager) : ScriptKey := default ([], []) (idToScript_ s !! id).

(** The two tables are inverse and the ids are those below the number of scripts. *)
Record sources_wf (s : SourceManager) : Prop := {
  sw_files key id : fileNameToId_ s !! key = Some id → idToScript_ s !! id = Some key;
  sw_scripts id key : idToScript_ s !! id = Some key → fileNameToId_ s !! key = Some id;
  sw_known id : id ∈ knownSources_ s ↔ is_Some (idToScript_ s !! id);
  sw_range id : is_Some (idToScript_ s !! id) ↔ 0 ≤ id < Z.of_nat (size (fileNameToId_ s)) }.

Lemma sources_init_wf : sources_wf sources_init.
Proof.
  split; simpl; [done|done|..]; intros id.
  - rewrite lookup_empty. split; [by intros ?%elem_of_empty|by intros []].
  - rewrite lookup_empty, map_size_empty. split; [by intros []|lia].
Qed.

(** What one call does. *)
Lemma GetScriptId_spec f i s : sources_wf s →
  let '((id, isNew), s') := GetScriptId f i s in
  sources_wf s' ∧ GetScript id s' = (f, i) ∧ idToScript_ s ⊆ idToScript_ s' ∧ knownSources_ s ⊆ knownSources_ s' ∧
  fileNameToId_ s' = <[(f, i) := id]> (fileNameToId_ s) ∧
  isNew = bool_decide (fileNameToId_ s !! (f, i) = None) ∧ (isNew = false → s' = s).
Proof.
  intros Hw. unfold GetScriptId. destruct (fileNameToId_ s !! (f, i)) as [id|] eqn:E.
  - pose proof (sw_files _ Hw _ _ E) as Es.
    assert (Hk : id ∈ knownSources_ s) by (apply (sw_known _ Hw); eauto).
    assert (Hs : mkSources (fileNameToId_ s) (idToScript_ s) ({[id]} ∪ knownSources_ s) = s).
    { destruct s; simpl in *. f_equal. set_solver. }
    rewrite Hs. rewrite !bool_decide_eq_false_2 by set_solver.
    unfold GetScript. rewrite Es. split_and!; try done. by rewrite insert_id.
  - set (id := Z.of_nat (size (fileNameToId_ s))).
    assert (Hn : idToScript_ s !! id = None).
    { apply eq_None_not_Some. intros Hs%(sw_range _ Hw). lia. }
    assert (Hk : id ∉ knownSources_ s) by (rewrite (sw_known _ Hw), Hn; by intros []).
    rewrite Hn, !bool_decide_eq_true_2 by done. unfold GetScript. simpl. rewrite lookup_insert_eq.
    split_and!; try done; [|by apply insert_subseteq|set_solver].
    split; simpl.
    + intros key j. rewrite !lookup_insert_Some. intros [[<- <-]|[Hne Hj]]; [by left|right].
      pose proof (sw_files _ Hw _ _ Hj) as Hj'. split; [|done]. intros <-. congruence.
    + intros j key. rewrite !lookup_insert_Some. intros [[<- <-]|[Hne Hj]]; [by left|right].
      pose proof (sw_scripts _ Hw _ _ Hj) as Hj'. split; [|done]. intros <-. congruence.
    + intros j. rewrite elem_of_union, elem_of_singleton, lookup_insert_is_Some, (sw_known _ Hw).
      destruct (decide (j = id)); naive_solver.
    + intros j. rewrite lookup_insert_is_Some, (sw_range _ Hw), map_size_insert_None by done.
      unfold id. lia.
Qed.

(** All calls of a session: the scripts that were named, with the answers. *)
Fixpoint script_calls (keys : list ScriptKey) (s : SourceManager) : list (Z * bool) * SourceManager :=
  match keys with
  | [] => ([], s)
  | (f, i) :: keys' =>
      let '(r, s1) := GetScriptId f i s in
      let '(rs, s2) := script_calls keys' s1 in (r :: rs, s2)
  end.

Lemma script_calls_spec keys s : sources_wf s →
  sources_wf (script_calls keys s).2 ∧ idToScript_ s ⊆ idToScript_ (script_calls keys s).2 ∧
  Forall2 (λ key r, GetScript r.1 (script_calls keys s).2 = key ∧ fileNameToId_ (script_calls keys s).2 !! key = Some r.1)
    keys (script_calls keys s).1.
Proof.
  revert s. induction keys as [|[f i] keys IH]; intros s Hw; [by split_and!; [..|constructor]|]. simpl.
  pose proof (GetScriptId_spec f i s Hw) as Hs. destruct (GetScriptId f i s) as [[id isNew] s1].
  destruct Hs as (Hw1&Hg&Hsub&_&Hf&_). specialize (IH s1 Hw1).
  assert (Hf' : fileNameToId_ s1 !! (f, i) = Some id) by (rewrite Hf; apply lookup_insert_eq).
  destruct (script_calls keys s1) as [rs s2]. destruct IH as (Hw2&Hsub2&HF). simpl in *.
  split_and!; [done|by etrans|]. constructor; [|done]. simpl.
  assert (Hid : idToScript_ s2 !! id = Some (f, i)).
  { eapply lookup_weaken; [|exact Hsub2]. apply (sw_files _ Hw1 _ _ Hf'). }
  split; [unfold GetScript; by rewrite Hid|by apply (sw_scripts _ Hw2)].
Qed.

Lemma script_calls_new keys s n key r : sources_wf s →
  keys !! n = Some key → (script_calls keys s).1 !! n = Some r →
  r.2 = true ↔ fileNameToId_ s !! key = None ∧ key ∉ take n keys.
Proof.
  revert s n. induction keys as [|[f i] keys IH]; intros s n Hw; [done|]. simpl.
  pose proof (GetScriptId_spec f i s Hw) as Hs. destruct (GetScriptId f i s) as [[id isNew] s1].
  destruct Hs as (Hw1&_&_&_&Hf&Hn&_). specialize (IH s1). destruct (script_calls keys s1) as [rs s2]. simpl in *.
  destruct n as [|n]; simpl.
  - intros [= <-] [= <-]. simpl. rewrite Hn, bool_decide_eq_true. rewrite elem_of_nil. tauto.
  - intros Hk Hr. rewrite (IH n Hw1 Hk Hr), Hf, lookup_insert_None, elem_of_cons. split; naive_solver.
Qed.

(** Script ids. In every sequence of look-ups an id names one script for
    ever: it leads back to the source file and the loaded file it was asked for,
    equal scripts get equal ids and different scripts different ones, and a script
    is reported as new exactly at its first look-up, so that it is announced to
    the client once. *)
Theorem script_ids keys :
  let '(rs, s) := script_calls keys sources_init in
  length rs = length keys ∧
  (∀ n key r, keys !! n = Some key → rs !! n = Some r →
     GetScript r.1 s = key ∧ GetSourceFileName r.1 s = key.1 ∧
     (r.2 = true ↔ key ∉ take n keys)) ∧
  (∀ n m key key' r r', keys !! n = Some key → keys !! m = Some key' → rs !! n = Some r → rs !! m = Some r' →
     (r.1 = r'.1 ↔ key = key')).
Proof.
  pose proof (script_calls_spec keys _ sources_init_wf) as (Hw&_&HF).
  pose proof (λ n key r, script_calls_new keys _ n key r sources_init_wf) as Hnew.
  destruct (script_calls keys sources_init) as [rs s]. simpl in *.
  split; [symmetry; by eapply Forall2_length|]. rewrite Forall2_lookup in HF.
  assert (Hat : ∀ n key r, keys !! n = Some key → rs !! n = Some r →
    GetScript r.1 s = key ∧ fileNameToId_ s !! key = Some r.1).
  { intros n key r Hk Hr. specialize (HF n). rewrite Hk, Hr in HF. by inversion HF. }
  split.
  - intros n key r Hk Hr. destruct (Hat n key r Hk Hr) as [Hg Hf]. split_and!; [done|..].
    + unfold GetSourceFileName. by rewrite (sw_files _ Hw _ _ Hf).
    + rewrite (Hnew n key r Hk Hr), lookup_empty. tauto.
  - intros n m key key' r r' Hk Hk' Hr Hr'.
    destruct (Hat _ _ _ Hk Hr) as [<- Hf], (Hat _ _ _ Hk' Hr') as [<- Hf']. split; [by intros ->|].
    intros Heq. rewrite Heq in Hf. congruence.
Qed.
