(* ===== verification/StaticDebugInfo.v ===== *)
(** * Debug information of the static debugger

    Models src/tooling/static/debugger/debug_info_cache.{h,cpp}: the lines, source
    files, variables and sources of the loaded files. What the extractor of the
    runtime read from a file is data here: [method_info] of StaticBreakpoints.v
    (identifier, source file and line table of a method) with the rest the cache
    uses. A hash table is the list of its entries in the order of iteration; sets
    of locations are lists of which only the members matter.

    [std::upper_bound] is used on tables ordered by offset, where it finds the
    first entry beyond the offset. *)

From S2P Require Import Prelude Regex Http CppLib PtJson StaticBreakpoints StaticTypes StaticObjects StaticSessions.
From stdpp Require Import sorting.
Local Open Scope Z_scope.

(** ** Data *)

Record variable_info := mkVariable {
  vi_name : bytes;
  vi_signature : bytes;
  (** The accumulator is register -1. *)
  vi_register : Z;
  vi_start : Z;
  vi_end : Z }.

Record method_debug := mkMethodDebug {
  md_info : method_info;
  md_sourceCode : bytes;
  (** [None] for a method without code. *)
  md_codeSize : option Z;
  md_parameters : list (bytes * bytes);
  md_variables : list variable_info }.

Definition md_id (m : method_debug) : Z := mi_id (md_info m).
Definition md_source (m : method_debug) : bytes := mi_source (md_info m).
(** Pairs of line and offset. *)
Definition md_lines (m : method_debug) : list (Z * Z) := mi_lines (md_info m).

(** A loaded file, identified by its address. All its methods are in the list. *)
Record panda_file := mkFile {
  pf_address : Z;
  pf_filename : bytes;
  pf_methods : list method_debug }.

Record DebugInfoCache := mkCache {
  (** With the flag [IsUserFile]. *)
  debugInfos_ : list (panda_file * bool);
  disassemblies_ : gmap bytes (panda_file * Z);
  fileToSourceCode_ : gmap bytes bytes }.

Definition cache_init : DebugInfoCache := mkCache [] ∅ ∅.

Definition GetDebugInfo (address : Z) (c : DebugInfoCache) : option (panda_file * bool) :=
  snd <$> list_find (λ p : panda_file * bool, pf_address p.1 = address) (debugInfos_ c).
Definition find_method (id : Z) (f : panda_file) : option method_debug :=
  snd <$> list_find (λ m, md_id m = id) (pf_methods f).

(** ** Files *)

Definition add_source_code (m : gmap bytes bytes) (d : method_debug) : gmap bytes bytes :=
  if decide (md_sourceCode d = []) then m
  else match m !! md_source d with Some _ => m | None => <[md_source d := md_sourceCode d]> m end.

(** A file that is added again only gets the flag. *)
Definition AddPandaFile (file : panda_file) (isUserPandafile : bool) (c : DebugInfoCache) : DebugInfoCache :=
  let infos :=
    match GetDebugInfo (pf_address file) c with
    | None => debugInfos_ c ++ [(file, isUserPandafile)]
    | Some _ =>
        (λ p : panda_file * bool, if pf_address p.1 =? pf_address file then (p.1, isUserPandafile) else p) <$> debugInfos_ c
    end in
  mkCache infos (disassemblies_ c) (foldl add_source_code (fileToSourceCode_ c) (pf_methods file)).

(** The extractor reports a method without source, for which it invents a name. *)
Definition add_disassembly (file : panda_file) (methodId : Z) (sourceName : bytes) (c : DebugInfoCache) : DebugInfoCache :=
  mkCache (debugInfos_ c)
    (match disassemblies_ c !! sourceName with
     | Some _ => disassemblies_ c
     | None => <[sourceName := (file, methodId)]> (disassemblies_ c)
     end) (fileToSourceCode_ c).

(** ** Lines *)

(** The entry before the first one beyond [offset]: [None] when there is none. *)
Fixpoint entry_at (table : list (Z * Z)) (offset : Z) : option (Z * Z) :=
  match table with
  | [] => None
  | e :: table' => if offset <? e.2 then None else match entry_at table' offset with Some e' => Some e' | None => Some e end
  end.

Definition line_at (table : list (Z * Z)) (offset : Z) : option Z := fst <$> entry_at table offset.

(** A method of the runtime: its file, if any, and its identifier there. *)
Record Method := mkMethod {
  m_file : option panda_file;
  m_fileId : Z;
  m_name : bytes;
  m_className : bytes;
  m_codeSize : Z;
  m_nativePointer : option Z }.

Definition method_info_of (m : Method) (c : DebugInfoCache) : option (panda_file * bool) :=
  m_file m ≫= λ f, GetDebugInfo (pf_address f) c.

(** The line number is [None] where the code steps back from the beginning of
    the table. *)
Definition GetSourceLocation (m : Method) (offset : Z) (c : DebugInfoCache) : bytes * bytes * option Z :=
  match method_info_of m c with
  | Some (f, true) =>
      match find_method (m_fileId m) f with
      | Some d => (md_source d, m_name m, line_at (md_lines d) offset)
      | None => ([], m_name m, None)
      end
  | _ => ([], [], Some 1)
  end.

Definition GetSourceFile (m : Method) (c : DebugInfoCache) : option bytes :=
  method_info_of m c ≫= λ p, md_source <$> find_method (m_fileId m) p.1.
Definition GetUserSourceFile (m : Method) (c : DebugInfoCache) : option bytes :=
  method_info_of m c ≫= λ p, if p.2 : bool then md_source <$> find_method (m_fileId m) p.1 else None.

(** The first file with the name, loaded by the user, whose method has a line at
    the offset. *)
Fixpoint async_location (infos : list (panda_file * bool)) (pandaFile : bytes) (methodId offset : Z)
    : option (bytes * Z) :=
  match infos with
  | [] => None
  | (f, user) :: infos' =>
      if bool_decide (pf_filename f ≠ pandaFile) || negb user then async_location infos' pandaFile methodId offset
      else
        match find_method methodId f with
        | None => async_location infos' pandaFile methodId offset
        | Some d =>
            match line_at (md_lines d) offset with
            | None => async_location infos' pandaFile methodId offset
            | Some line => Some (md_source d, line)
            end
        end
  end.
Definition GetAsyncFrameSourceLocation (pandaFile : bytes) (methodId bytecodeOffset : Z) (c : DebugInfoCache)
    : option (bytes * Z) :=
  if UINT32_MAX <? methodId then None else async_location (debugInfos_ c) pandaFile methodId bytecodeOffset.

(** The offsets from [lo] up to [hi]. *)
Definition offsets (lo hi : Z) : list Z := (λ i, lo + Z.of_nat i) <$> seq 0 (Z.to_nat (hi - lo)).

(** The offsets of the entries of a line; an entry ends where the next begins, the
    last one at [size]. *)
Fixpoint line_offsets (line size : Z) (table : list (Z * Z)) : list Z :=
  match table with
  | [] => []
  | e :: table' =>
      (if e.1 =? line then offsets e.2 (match table' with next :: _ => next.2 | [] => size end) else [])
        ++ line_offsets line size table'
  end.

Definition GetCurrentLineLocations (m : Method) (offset : Z) (c : DebugInfoCache) : list PtLocation :=
  match method_info_of m c, m_file m with
  | Some (info, _), Some f =>
      let table := match find_method (m_fileId m) info with Some d => md_lines d | None => [] end in
      match line_at table offset with
      | None => []
      | Some lineNumber => mkPtLocation (pf_filename f) (m_fileId m) <$> line_offsets lineNumber (m_codeSize m) table
      end
  | _, _ => []
  end.

(** ** Enumeration of line entries *)

Definition IsSelectedPandaFile (scriptIdentity : bytes) (f : panda_file) : bool :=
  bool_decide (scriptIdentity = []) || bool_decide (pf_filename f = scriptIdentity).

(** [EnumerateLineEntries]: the methods it visits, with their files. The handlers
    work on the table of one method each. *)
Definition EnumerateMethods (pandaFileFilter : panda_file → bool) (methodFilter : panda_file → method_debug → bool)
    (c : DebugInfoCache) : list (panda_file * method_debug) :=
  p ← filter (λ p : panda_file * bool, pandaFileFilter p.1 = true) (debugInfos_ c);
  pair p.1 <$> filter (λ m, methodFilter p.1 m = true) (pf_methods p.1).

Definition in_source (sourceFile : bytes) (m : method_debug) : bool := bool_decide (md_source m = sourceFile).

Definition GetContinueToLocations (sourceFile scriptIdentity : bytes) (lineNumber : Z) (c : DebugInfoCache)
    : list PtLocation :=
  fm ← EnumerateMethods (IsSelectedPandaFile scriptIdentity) (λ _, in_source sourceFile) c;
  mkPtLocation (pf_filename fm.1) (md_id fm.2)
    <$> line_offsets lineNumber (default 0 (md_codeSize fm.2)) (md_lines fm.2).

(** The first entry of the line in every method whose source the filter accepts;
    and the source files, without repetition, in which there is one. *)
Definition breakpoint_entries (sourceFileFilter : bytes → bytes → bool) (lineNumber : Z) (c : DebugInfoCache)
    : list (ScriptKey * PtLocation) :=
  omap (λ fm : panda_file * method_debug,
          (λ o, ((md_source fm.2, pf_filename fm.1), mkPtLocation (pf_filename fm.1) (md_id fm.2) o))
            <$> first_offset lineNumber (md_info fm.2))
       (EnumerateMethods (λ _, true) (λ f m, sourceFileFilter (md_source m) (pf_filename f)) c).

Definition script_le (p q : ScriptKey) : Prop :=
  (if bool_decide (p.1 = q.1) then bytes_le p.2 q.2 else bytes_le p.1 q.1) = true.
#[export] Instance script_le_dec : RelDecision script_le.
Proof. intros p q. unfold script_le. apply _. Defined.

(** [SourceFileSet] is an ordered set. *)
Definition GetBreakpointLocations (sourceFileFilter : bytes → bytes → bool) (lineNumber : Z) (c : DebugInfoCache)
    : list PtLocation * list ScriptKey :=
  let found := breakpoint_entries sourceFileFilter lineNumber c in
  (remove_dups found.*2, merge_sort script_le (remove_dups found.*1)).

(** A method is around a line when it has entries on both sides of it. *)
Definition around_line (startLine : Z) (m : method_debug) : bool :=
  existsb (λ e : Z * Z, e.1 <=? startLine) (md_lines m) && existsb (λ e : Z * Z, startLine <=? e.1) (md_lines m).

(** An ordered set of lines. *)
Definition GetValidLineNumbers (sourceFile scriptIdentity : bytes) (startLine endLine : Z) (restrictToFunction : bool)
    (c : DebugInfoCache) : list Z :=
  let methods :=
    EnumerateMethods (IsSelectedPandaFile scriptIdentity)
      (λ _ m, in_source sourceFile m && (negb restrictToFunction || around_line startLine m)) c in
  merge_sort Z.le (remove_dups
    (fm ← methods; filter (λ l, startLine ≤ l ∧ l < endLine) ((md_lines fm.2).*1))).

(** The files with a line entry in a method that the filter accepts. *)
Definition GetPandaFiles (sourceFileFilter : bytes → bytes → bool) (c : DebugInfoCache) : list panda_file :=
  (λ p : panda_file * bool, p.1) <$>
    filter (λ p, existsb (λ m, sourceFileFilter (md_source m) (pf_filename p.1) && negb (bool_decide (md_lines m = [])))
                   (pf_methods p.1) = true) (debugInfos_ c).

(** ** Variables *)

Inductive RegisterKind := KIND_PRIMITIVE | KIND_REFERENCE | KIND_TAGGED.
Inductive TypeId :=
| INVALID | VOID | U1 | I8 | U8 | I16 | U16 | I32 | U32 | F32 | F64 | I64 | U64 | REFERENCE | TAGGED.

(** A frame of the runtime: what is read of it. *)
Record PtFrame := mkFrame {
  fr_method : option Method;
  fr_offset : Z;
  fr_frameId : Z;
  fr_argument : Z → Z;
  fr_argumentKind : Z → RegisterKind;
  fr_vreg : Z → Z;
  fr_vregKind : Z → RegisterKind;
  fr_accumulator : Z;
  fr_accumulatorKind : RegisterKind }.

(** The values behind the bits of a register. *)
Class Registers `{LangExt} := {
  tagged_of_bits : Z → TaggedValue;
  object_of_bits : Z → option ObjectHeader;
  (** The bits of undefined, the hole and null. *)
  is_special : Z → bool }.

Definition sign_extend (w z : Z) : Z := if z <? 2 ^ (w - 1) then z else z - 2 ^ w.

(** The value of an IEEE 754 number with [eb] bits of exponent and [mb] bits of
    mantissa. *)
Definition float_of_bits (eb mb bits : Z) : double :=
  let m := bits mod 2 ^ mb in
  let e := bits / 2 ^ mb mod 2 ^ eb in
  let neg := Z.testbit bits (eb + mb) in
  let bias := 2 ^ (eb - 1) - 1 in
  if e =? 2 ^ eb - 1 then (if m =? 0 then DInf neg else DNaN)
  else
    let m' := if e =? 0 then m else m + 2 ^ mb in
    DFin (if neg then - m' else m') (Z.max e 1 - bias - mb).

Example float_of_bits_one : float_of_bits 8 23 1065353216 = DFin (2 ^ 23) (-23).
Proof. reflexivity. Qed.

Section locals.
Context `{Registers}.

Definition CreateTypedValueFromReg (reg : Z) (type : TypeId) : TypedValue :=
  match type with
  | INVALID => TvInvalid
  | VOID => TvVoid
  | U1 => TvU1 (Z.odd reg)
  | I8 => TvI8 (sign_extend 8 (reg mod 2 ^ 8))
  | U8 => TvU8 (reg mod 2 ^ 8)
  | I16 => TvI16 (sign_extend 16 (reg mod 2 ^ 16))
  | U16 => TvU16 (reg mod 2 ^ 16)
  | I32 => TvI32 (sign_extend 32 (reg mod 2 ^ 32))
  | U32 => TvU32 (reg mod 2 ^ 32)
  | F32 => TvF32 (float_of_bits 8 23 (reg mod 2 ^ 32))
  | F64 => TvF64 (float_of_bits 11 52 reg)
  | I64 => TvI64 (sign_extend 64 reg)
  | U64 => TvU64 reg
  | REFERENCE => if is_special reg then TvTagged (tagged_of_bits reg) else TvReference (object_of_bits reg)
  | TAGGED => TvTagged (tagged_of_bits reg)
  end.

Definition signature_is (c : string) (signature : Z) : bool := bool_decide (str c = [signature]).

Definition GetTypeIdBySignature (c : Z) : TypeId :=
  if signature_is "V" c then VOID else if signature_is "Z" c then U1
  else if signature_is "B" c then I8 else if signature_is "H" c then U8
  else if signature_is "S" c then I16 else if signature_is "C" c then U16
  else if signature_is "I" c then I32 else if signature_is "U" c then U32
  else if signature_is "F" c then F32 else if signature_is "D" c then F64
  else if signature_is "J" c then I64 else if signature_is "Q" c then U64
  else if signature_is "A" c then TAGGED else if signature_is "L" c then REFERENCE
  else if signature_is "[" c then REFERENCE else INVALID.

(** The type of a variable: of its signature, or of the kind of its register. *)
Definition local_type (signature : bytes) (kind : RegisterKind) : TypeId :=
  match match signature with [] => INVALID | c :: _ => GetTypeIdBySignature c end with
  | INVALID => match kind with KIND_PRIMITIVE => U64 | KIND_REFERENCE => REFERENCE | KIND_TAGGED => TAGGED end
  | type => type
  end.

(** [emplace]: the first variable with a name stays. *)
Definition localHandler (name signature : bytes) (reg : Z) (kind : RegisterKind) (result : gmap bytes TypedValue)
    : gmap bytes TypedValue :=
  match result !! name with
  | Some _ => result
  | None => <[name := CreateTypedValueFromReg reg (local_type signature kind)]> result
  end.

Definition IsAccessibleAt (offset : Z) (v : variable_info) : bool := (vi_start v <=? offset) && (offset <? vi_end v).

Definition add_variable (frame : PtFrame) (result : gmap bytes TypedValue) (v : variable_info) : gmap bytes TypedValue :=
  if IsAccessibleAt (fr_offset frame) v then
    localHandler (vi_name v) (vi_signature v)
      (if vi_register v =? -1 then fr_accumulator frame else fr_vreg frame (vi_register v))
      (if vi_register v =? -1 then fr_accumulatorKind frame else fr_vregKind frame (vi_register v)) result
  else result.

Definition add_parameter (frame : PtFrame) (result : gmap bytes TypedValue) (p : nat * (bytes * bytes))
    : gmap bytes TypedValue :=
  localHandler p.2.1 p.2.2 (fr_argument frame (Z.of_nat p.1)) (fr_argumentKind frame (Z.of_nat p.1)) result.

(** The variables in the order of their names. *)
Definition GetLocals (frame : PtFrame) (c : DebugInfoCache) : list (bytes * TypedValue) :=
  match fr_method frame ≫= λ m, method_info_of m c ≫= λ p, find_method (m_fileId m) p.1 with
  | None => []
  | Some d =>
      let result := foldl (add_parameter frame) ∅ (imap pair (md_parameters d)) in
      map_iter (foldl (add_variable frame) result (md_variables d))
  end.
End locals.

(** ** Source code *)

(** The file system: the content of a regular file. *)
Class Files := read_regular_file : bytes → option bytes.

Section sources.
Context `{Files}.

Definition FindSourceCode (f : panda_file) (sourceFile : bytes) : bytes :=
  match list_find (λ d, md_sourceCode d ≠ [] ∧ md_source d = sourceFile) (pf_methods f) with
  | Some (_, d) => md_sourceCode d
  | None => []
  end.

Definition nonempty (l : list bytes) : bytes :=
  match list_find (λ s : bytes, s ≠ []) l with Some (_, s) => s | None => [] end.

Definition GetSourceCodeByIdentity (sourceFile scriptIdentity : bytes) (c : DebugInfoCache) : bytes :=
  nonempty ((λ p, FindSourceCode p.1 sourceFile) <$>
              filter (λ p : panda_file * bool, pf_filename p.1 = scriptIdentity) (debugInfos_ c)).

Definition GetDisassemblySourceCode (sourceFile : bytes) (c : DebugInfoCache) : bytes :=
  match disassemblies_ c !! sourceFile with
  | None => []
  | Some (f, methodId) =>
      match GetDebugInfo (pf_address f) c with
      | None => []
      | Some (info, _) => match find_method methodId info with Some d => md_sourceCode d | None => [] end
      end
  end.

Definition GetCachedSourceCode (sourceFile : bytes) (c : DebugInfoCache) : bytes :=
  default [] (fileToSourceCode_ c !! sourceFile).

Definition GetFileSourceCode (sourceFile : bytes) : bytes :=
  match read_regular_file (c_str sourceFile) with
  | None => []
  | Some result => if bool_decide (result = []) || bool_decide (last result = Some 10) then result else result ++ [10]
  end.

Definition GetSourceCode (sourceFile scriptIdentity : bytes) (c : DebugInfoCache) : bytes :=
  if decide (scriptIdentity = []) then
    nonempty [GetDisassemblySourceCode sourceFile c; GetCachedSourceCode sourceFile c; GetFileSourceCode sourceFile]
  else GetSourceCodeByIdentity sourceFile scriptIdentity c.
End sources.

(** ** What the look-ups find *)

(** Line tables are ordered by offset, and the code ends behind the last entry. *)
Definition table_ok (size : Z) (table : list (Z * Z)) : Prop :=
  StronglySorted (λ e f : Z * Z, e.2 ≤ f.2) table ∧ Forall (λ e : Z * Z, e.2 ≤ size) table.

Lemma entry_at_none table o : (∀ e, head table = Some e → o < e.2) → entry_at table o = None.
Proof. destruct table as [|e t]; [done|]. simpl. intros Hh. specialize (Hh e eq_refl). by ztrue (o <? e.2). Qed.

Lemma entry_at_last table o :
  StronglySorted (λ e f : Z * Z, e.2 ≤ f.2) table → entry_at table o = last (filter (λ e : Z * Z, e.2 ≤ o) table).
Proof.
  induction 1 as [|e t Hs IH HF]; [done|]. simpl. rewrite filter_cons.
  destruct (Z.ltb_spec o e.2).
  - rewrite decide_False by lia. destruct (filter _ t) as [|f l] eqn:E; [done|].
    assert (f ∈ filter (λ e : Z * Z, e.2 ≤ o) t) as [? Hf]%list_elem_of_filter by (rewrite E; set_solver).
    rewrite Forall_forall in HF. specialize (HF f Hf). lia.
  - rewrite decide_True by lia. rewrite IH. by rewrite last_cons.
Qed.

Lemma elem_of_offsets lo hi o : o ∈ offsets lo hi ↔ lo ≤ o < hi.
Proof.
  unfold offsets. rewrite list_elem_of_fmap. split.
  - intros (i&->&Hi%elem_of_seq). lia.
  - intros Ho. exists (Z.to_nat (o - lo)). split; [lia|]. apply elem_of_seq. lia.
Qed.

(** The offsets of a line are exactly those at which the program is on it. *)
Lemma line_offsets_spec line size table o : table_ok size table →
  o ∈ line_offsets line size table ↔ o < size ∧ line_at table o = Some line.
Proof.
  intros [Hs Hz]. unfold line_at. induction Hs as [|e t Hs IH HF]; simpl; [set_solver|].
  apply Forall_cons in Hz as [Hze Hzt]. specialize (IH Hzt). rewrite elem_of_app, IH. clear IH.
  assert (Ht : o < e.2 → entry_at t o = None).
  { intros Ho. apply entry_at_none. intros f Hf. destruct t as [|f' t']; [done|]. injection Hf as ->.
    apply Forall_cons in HF as [? _]. lia. }
  destruct (Z.ltb_spec o e.2) as [Ho|Ho].
  { rewrite (Ht Ho). simpl. destruct (e.1 =? line); rewrite ?elem_of_offsets, ?elem_of_nil; naive_solver lia. }
  destruct t as [|f t].
  { simpl. destruct (Z.eqb_spec e.1 line); rewrite ?elem_of_offsets, ?elem_of_nil; naive_solver lia. }
  apply Forall_cons in HF as [Hef _]. simpl. destruct (Z.ltb_spec o f.2) as [Hof|Hof].
  - simpl. apply Forall_cons in Hzt as [Hzf _].
    destruct (Z.eqb_spec e.1 line); rewrite ?elem_of_offsets, ?elem_of_nil; naive_solver lia.
  - destruct (entry_at t o); simpl; destruct (e.1 =? line); rewrite ?elem_of_offsets, ?elem_of_nil;
      (split; [intros [?|?]; [lia || done|done]|by right]).
Qed.

(** A file of the cache is found by its address. *)
Definition cache_wf (c : DebugInfoCache) : Prop := NoDup ((λ p : panda_file * bool, pf_address p.1) <$> debugInfos_ c).

Lemma AddPandaFile_wf f u c : cache_wf c → cache_wf (AddPandaFile f u c).
Proof.
  unfold cache_wf, AddPandaFile, GetDebugInfo. intros Hn. simpl.
  destruct (list_find _ _) as [[i p]|] eqn:E; simpl.
  - rewrite <- list_fmap_compose. replace (_ <$> debugInfos_ c) with ((λ p : panda_file * bool, pf_address p.1) <$> debugInfos_ c); [done|].
    apply list_fmap_ext. intros j [g v] _. simpl. by destruct (_ =? _).
  - apply list_find_None in E. rewrite fmap_app. apply NoDup_app. split_and!; [done| |apply NoDup_singleton].
    intros a (p&->&Hp)%list_elem_of_fmap Ha%list_elem_of_singleton. rewrite Forall_forall in E. by apply (E p Hp).
Qed.

(** The methods that are visited. *)
Lemma elem_of_methods ff mf c f m :
  (f, m) ∈ EnumerateMethods ff mf c ↔ f ∈ (debugInfos_ c).*1 ∧ ff f = true ∧ m ∈ pf_methods f ∧ mf f m = true.
Proof.
  unfold EnumerateMethods. rewrite list_elem_of_bind. split.
  - intros ([g u]&Hm&[Hg Hin]%list_elem_of_filter). simpl in *.
    apply list_elem_of_fmap in Hm as (m'&[= -> ->]&[? ?]%list_elem_of_filter).
    split_and!; try done. apply list_elem_of_fmap. by exists (g, u).
  - intros (([g u]&->&Hin)%list_elem_of_fmap&Hff&Hm&Hmf). exists (g, u). simpl in *. split.
    + apply list_elem_of_fmap. exists m. split; [done|]. by apply list_elem_of_filter.
    + by apply list_elem_of_filter.
Qed.


Lemma elem_of_locations f id (l : list Z) loc :
  loc ∈ mkPtLocation f id <$> l ↔ loc_file loc = f ∧ loc_method loc = id ∧ loc_offset loc ∈ l.
Proof.
  rewrite list_elem_of_fmap. destruct loc as [f' id' o]. simpl. split.
  - intros (o'&[= -> -> ->]&Ho). done.
  - intros (->&->&Ho). by exists o.
Qed.

(** C20: the locations of a line. When line tables are ordered, the locations that
    a step ignores are exactly those of the current method that are on the same
    line as the current offset, where the line of an offset is the one of the
    last entry that is not beyond it; and the locations at which "continue to
    location" stops are exactly those on the line that was named, in the methods
    of the named source file of the selected files. *)
Theorem line_locations c :
  (∀ m f u g d offset, method_info_of m c = Some (f, u) → m_file m = Some g → find_method (m_fileId m) f = Some d →
     table_ok (m_codeSize m) (md_lines d) →
     line_at (md_lines d) offset = fst <$> last (filter (λ e : Z * Z, e.2 ≤ offset) (md_lines d)) ∧
     ∀ loc, loc ∈ GetCurrentLineLocations m offset c ↔
       loc_file loc = pf_filename g ∧ loc_method loc = m_fileId m ∧ loc_offset loc < m_codeSize m ∧
       is_Some (line_at (md_lines d) offset) ∧ line_at (md_lines d) (loc_offset loc) = line_at (md_lines d) offset) ∧
  (∀ sourceFile identity line,
     (∀ f m, f ∈ (debugInfos_ c).*1 → m ∈ pf_methods f → table_ok (default 0 (md_codeSize m)) (md_lines m)) →
     ∀ loc, loc ∈ GetContinueToLocations sourceFile identity line c ↔
       ∃ f m, f ∈ (debugInfos_ c).*1 ∧ m ∈ pf_methods f ∧ (identity = [] ∨ pf_filename f = identity) ∧
         md_source m = sourceFile ∧ loc_file loc = pf_filename f ∧ loc_method loc = md_id m ∧
         loc_offset loc < default 0 (md_codeSize m) ∧ line_at (md_lines m) (loc_offset loc) = Some line).
Proof.
  split.
  - intros m f u g d offset Hi Hf Hd Hok. split; [unfold line_at; by rewrite entry_at_last by apply Hok|].
    intros loc. unfold GetCurrentLineLocations. rewrite Hi, Hf, Hd.
    destruct (line_at (md_lines d) offset) as [line|] eqn:El.
    + rewrite elem_of_locations, line_offsets_spec by done. naive_solver.
    + rewrite elem_of_nil. split; [done|]. by intros (_&_&_&[? ?]&_).
  - intros sourceFile identity line Hok loc. unfold GetContinueToLocations. rewrite list_elem_of_bind. split.
    + intros ([f m]&Hl&(Hf&Hsel&Hm&Hs)%elem_of_methods). simpl in Hl. apply elem_of_locations in Hl as (?&?&Ho).
      apply line_offsets_spec in Ho; [|by eapply Hok]. apply bool_decide_eq_true in Hs.
      apply orb_true_iff in Hsel. rewrite !bool_decide_eq_true in Hsel. exists f, m. naive_solver.
    + intros (f&m&Hf&Hm&Hsel&Hs&?&?&?&?). exists (f, m). split.
      * simpl. apply elem_of_locations. split_and!; [done..|]. apply line_offsets_spec; [by eapply Hok|done].
      * apply elem_of_methods. split_and!; [done| |done|by apply bool_decide_eq_true].
        apply orb_true_iff. by rewrite !bool_decide_eq_true.
Qed.

(** The filter of a breakpoint that is set by the id of a script. *)
Definition script_filter (sourceFile scriptIdentity : bytes) (fileName pandaFile : bytes) : bool :=
  bool_decide (fileName = sourceFile) && (bool_decide (scriptIdentity = []) || bool_decide (pandaFile = scriptIdentity)).

Lemma first_offset_some line m : is_Some (first_offset line m) ↔ line ∈ (mi_lines m).*1.
Proof.
  unfold first_offset. destruct (list_find _ _) as [[i e]|] eqn:E; simpl.
  - split; [|by eauto]. intros _. apply list_find_Some in E as (Hi&<-&_).
    apply list_elem_of_fmap. exists e. split; [done|]. by eapply list_elem_of_lookup_2.
  - apply list_find_None in E. split; [by intros []|]. intros (e&->&He)%list_elem_of_fmap.
    rewrite Forall_forall in E. by destruct (E e He).
Qed.

Lemma elem_of_breakpoint_locations filter line c loc :
  loc ∈ (GetBreakpointLocations filter line c).1 ↔
  ∃ f m, f ∈ (debugInfos_ c).*1 ∧ m ∈ pf_methods f ∧ filter (md_source m) (pf_filename f) = true ∧
    loc_file loc = pf_filename f ∧ loc_method loc = md_id m ∧ first_offset line (md_info m) = Some (loc_offset loc).
Proof.
  unfold GetBreakpointLocations, breakpoint_entries. simpl. rewrite elem_of_remove_dups, list_elem_of_fmap. split.
  - intros ([k l]&->&([f m]&(Hf&_&Hm&Hs)%elem_of_methods&Hx)%list_elem_of_omap). simpl in *.
    destruct (first_offset line (md_info m)) as [o|] eqn:E; [|done]. injection Hx as <- <-. exists f, m. naive_solver.
  - intros (f&m&Hf&Hm&Hs&H1&H2&Ho). exists ((md_source m, pf_filename f), loc). split; [done|].
    apply list_elem_of_omap. exists (f, m). split; [by apply elem_of_methods|]. simpl. rewrite Ho. simpl.
    destruct loc; simpl in *; by subst.
Qed.

Lemma elem_of_valid_lines sourceFile identity lo hi restrict c l :
  l ∈ GetValidLineNumbers sourceFile identity lo hi restrict c ↔
  lo ≤ l < hi ∧ ∃ f m, f ∈ (debugInfos_ c).*1 ∧ m ∈ pf_methods f ∧
    script_filter sourceFile identity (md_source m) (pf_filename f) = true ∧
    (restrict = true → around_line lo m = true) ∧ l ∈ (md_lines m).*1.
Proof.
  unfold GetValidLineNumbers. rewrite merge_sort_Permutation, elem_of_remove_dups, list_elem_of_bind.
  unfold script_filter. split.
  - intros ([f m]&[Hr Hl]%list_elem_of_filter&(Hf&Hsel&Hm&[Hs Ha]%andb_true_iff)%elem_of_methods).
    split; [done|]. exists f, m. unfold in_source in Hs. rewrite Hs. unfold IsSelectedPandaFile in Hsel.
    split_and!; try done. intros ->. by destruct (around_line lo m).
  - intros (Hr&f&m&Hf&Hm&[Hs Hsel]%andb_true_iff&Ha&Hl). exists (f, m).
    split; [by apply list_elem_of_filter|]. apply elem_of_methods. split_and!; try done.
    unfold in_source. rewrite Hs. destruct restrict; [by rewrite Ha|done].
Qed.

(** The lines that are offered for breakpoints. They are in ascending order,
    without repetition, and exactly the lines of the requested range for which a
    method of the script has code, where a request restricted to the function only
    counts methods around its first line; and a line is offered if and only if a
    breakpoint that is set there gets at least one location. *)
Theorem possible_breakpoints sourceFile identity lo hi restrict c :
  let lines := GetValidLineNumbers sourceFile identity lo hi restrict c in
  StronglySorted Z.le lines ∧ NoDup lines ∧
  (∀ l, l ∈ lines ↔ lo ≤ l < hi ∧ ∃ f m, f ∈ (debugInfos_ c).*1 ∧ m ∈ pf_methods f ∧
     md_source m = sourceFile ∧ (identity = [] ∨ pf_filename f = identity) ∧
     (restrict = true → around_line lo m = true) ∧ l ∈ (md_lines m).*1) ∧
  (restrict = false → ∀ l, lo ≤ l < hi →
     l ∈ lines ↔ (GetBreakpointLocations (script_filter sourceFile identity) l c).1 ≠ []).
Proof.
  simpl. split_and!.
  - apply StronglySorted_merge_sort; [|apply _]. intros x y. lia.
  - unfold GetValidLineNumbers. rewrite merge_sort_Permutation. apply NoDup_remove_dups.
  - intros l. rewrite elem_of_valid_lines. unfold script_filter.
    setoid_rewrite andb_true_iff. setoid_rewrite orb_true_iff. setoid_rewrite bool_decide_eq_true. naive_solver.
  - intros -> l Hl. rewrite elem_of_valid_lines. split.
    + intros (_&f&m&Hf&Hm&Hs&_&[o Ho]%first_offset_some).
      intros Hnil. apply (elem_of_nil (mkPtLocation (pf_filename f) (md_id m) o)). rewrite <- Hnil.
      apply elem_of_breakpoint_locations. by exists f, m.
    + destruct (GetBreakpointLocations (script_filter sourceFile identity) l c).1 as [|loc ls] eqn:E; [done|].
      intros _. split; [done|].
      assert (loc ∈ (GetBreakpointLocations (script_filter sourceFile identity) l c).1) as Hin by (rewrite E; set_solver).
      apply elem_of_breakpoint_locations in Hin as (f&m&Hf&Hm&Hs&_&_&Ho).
      exists f, m. split_and!; try done. apply first_offset_some. eauto.
Qed.

(** Without an end the request is for the range up to line -1: nothing is offered. *)
Lemma no_end_no_lines sourceFile identity lo restrict c :
  0 ≤ lo → GetValidLineNumbers sourceFile identity lo (i32 (2 ^ 32 - 1)) restrict c = [].
Proof.
  intros Hlo. destruct (GetValidLineNumbers _ _ _ _ _ _) as [|l ls] eqn:E; [done|].
  assert (l ∈ GetValidLineNumbers sourceFile identity lo (i32 (2 ^ 32 - 1)) restrict c) as Hl by (rewrite E; set_solver).
  apply elem_of_valid_lines in Hl as [Hl _]. change (i32 (2 ^ 32 - 1)) with (-1) in Hl. lia.
Qed.
