(* ===== verification/StaticEndpoint.v ===== *)
(** * The JSON-RPC endpoint of the static debugger

    Models src/tooling/static/connection: endpoint_base.{h,cpp},
    server_endpoint_base.{h,cpp}, server.h and ohos_ws. A message of the client is
    parsed and goes to the handler of its method; the handler's result is sent
    back; events are sent with [Call]. In synchronous mode the answer is kept for
    the caller of [RunSync] instead, and events are dropped.

    The parser and the printer of JSON belong to libarkbase: the class [JsonText].
    A message that was sent is the tree it was built from; its text is [Build] of
    it. The endpoint is a part of a larger state, reached through the class
    [EndpointOf]: handlers and the code that fills in the parameters of an event
    may change all of it. *)

From S2P Require Import Prelude Regex Http CppLib PtJson StaticTypes.
Local Open Scope Z_scope.
Local Open Scope ark_scope.

Class JsonText := {
  ParseJson : bytes → option JsonObject;
  Build : fields → bytes }.
(** The text of an object is not empty. *)
Class JsonTextOK (j : JsonText) := Build_nonempty fs : Build fs ≠ [].

Record ServerEndpoint := mkEndpoint {
  (** There is a websocket and it is connected. *)
  connected_ : bool;
  (** The messages that were given to it. *)
  outbox : list fields;
  syncMode_ : bool;
  syncResponse_ : bytes;
  running_ : bool }.

Definition set_outbox (l : list fields) (e : ServerEndpoint) : ServerEndpoint :=
  mkEndpoint (connected_ e) l (syncMode_ e) (syncResponse_ e) (running_ e).
Definition set_sync (mode : bool) (response : bytes) (e : ServerEndpoint) : ServerEndpoint :=
  mkEndpoint (connected_ e) (outbox e) mode response (running_ e).
Definition set_connected (b : bool) (e : ServerEndpoint) : ServerEndpoint :=
  mkEndpoint b (outbox e) (syncMode_ e) (syncResponse_ e) (running_ e).
Definition set_running (b : bool) (e : ServerEndpoint) : ServerEndpoint :=
  mkEndpoint (connected_ e) (outbox e) (syncMode_ e) (syncResponse_ e) b.

Class EndpointOf (S : Type) := {
  ep : S → ServerEndpoint;
  set_ep : ServerEndpoint → S → S;
  ep_set_ep e s : ep (set_ep e s) = e }.

(** The result of a method: an object, nothing, or an error. *)
Definition MethodResponse : Type := Expected (option fields) JRPCError.

Section endpoint.
Context `{JsonText} {S : Type} `{EndpointOf S}.

Definition upd_ep (f : ServerEndpoint → ServerEndpoint) : M S () := m_modify (λ s, set_ep (f (ep s)) s).

Definition Handler : Type := bytes → JsonObject → M S MethodResponse.

(** [SendMessage] of the endpoint on the websocket of OpenHarmony. *)
Definition SendMessage (message : fields) : M S () :=
  s <-- m_get ;;
  if syncMode_ (ep s) then upd_ep (set_sync true (Build message))
  else if connected_ (ep s) then upd_ep (λ e, set_outbox (outbox e ++ [message]) e)
  else m_ret ().

(** The members that a message of a session gets. *)
Definition session_field (sessionId : bytes) : fields :=
  if decide (sessionId = []) then [] else [("sessionId", OutStr sessionId)].

Definition reply_message (sessionId : bytes) (id : double) (key : string) (body : fields) : fields :=
  [("id", OutNum id); (key, OutObj body)] ++ session_field sessionId.

Definition Reply (sessionId : bytes) (id : double) (result : fields) : M S () :=
  SendMessage (reply_message sessionId id "result" result).
Definition ReplyError (sessionId : bytes) (id : double) (error : JRPCError) : M S () :=
  SendMessage (reply_message sessionId id "error" (JRPCError_Serialize error)).

Definition event_message (sessionId : bytes) (method : string) (params : fields) : fields :=
  [("method", OutStr (str method)); ("params", OutObj params)] ++ session_field sessionId.

(** [Call] of the server: [params] fills in the parameters while the message is
    built. *)
Definition Call (sessionId : bytes) (method : string) (params : M S fields) : M S () :=
  s <-- m_get ;;
  if syncMode_ (ep s) then m_ret ()
  else ps <-- params ;; SendMessage (event_message sessionId method ps).

Definition unsupported_message (optId : option double) (method : bytes) : fields :=
  opt_field "id" OutNum optId ++
  [("error", OutObj [("code", OutInt (error_code METHOD_NOT_FOUND));
                     ("message", OutStr (str "Unsupported method: " ++ method))])].
Definition HandleUnsupportedMethod (optId : option double) (method : bytes) : M S () :=
  SendMessage (unsupported_message optId method).

(** [OnCallImpl]: what is registered for a handler. *)
Definition OnCallImpl (handler : Handler) (sessionId : bytes) (id : option double) (params : JsonObject) : M S () :=
  match id with
  | None => m_ret ()
  | Some id =>
      optResult <-- handler sessionId params ;;
      match optResult with
      | Value (Some res) => Reply sessionId id res
      | Value None => Reply sessionId id []
      | Unexpected e => ReplyError sessionId id e
      end
  end.

(** [methodHandlers_] is the argument. No handler of a result is ever registered
    ([OnResult] has no caller), so a result has no effect. *)
Definition HandleMessage (methodHandlers_ : bytes → option Handler) (message : bytes) : M S () :=
  match ParseJson message with
  | None => m_ret ()
  | Some request =>
      let sessionId := GetStringT request "sessionId" in
      let id := GetNumT request "id" in
      match GetStringT request "method", GetJsonObject request "result" with
      | Some method, None =>
          match methodHandlers_ method with
          | Some handler =>
              OnCallImpl handler (default [] sessionId) id (default [] (GetJsonObject request "params"))
          | None => HandleUnsupportedMethod id method
          end
      | _, _ => m_ret ()
      end
  end.

Definition Kill : M S bool := s <-- m_get ;; upd_ep (set_running false) ;;; m_ret (running_ (ep s)).

(** [ParseMessage] of [OhosWsServer]; [accepts] tells whether a new connection can
    be made when there is none. *)
Definition ParseMessage (accepts : bool) (methodHandlers_ : bytes → option Handler) (msg : bytes) : M S bool :=
  s <-- m_get ;;
  if connected_ (ep s) then HandleMessage methodHandlers_ msg ;;; m_ret true
  else if accepts then upd_ep (set_connected true) ;;; HandleMessage methodHandlers_ msg ;;; m_ret true
  else m_ret false.

(** [RunSync]: the message is handled by the caller's thread, so that the answer
    is there when the wait begins, or never; then the wait times out. *)
Definition RunSync (accepts : bool) (methodHandlers_ : bytes → option Handler) (msg : bytes) : M S bytes :=
  upd_ep (set_sync true []) ;;;
  ParseMessage accepts methodHandlers_ msg ;;;
  s <-- m_get ;;
  let response := syncResponse_ (ep s) in
  upd_ep (set_sync false []) ;;;
  m_ret response.

(** ** What operations send *)

(** [posts P m]: outside of the synchronous mode, what [m] gives to the websocket
    satisfies [P], and it changes nothing else of the endpoint but the flag of the
    event loop. *)
Definition state_of {A} (o : outcome S A) : S := match o with Ret _ s | Block s | Throw s => s end.
Definition sent (e : ServerEndpoint) (l : list fields) (r : bool) : ServerEndpoint :=
  mkEndpoint (connected_ e) (outbox e ++ l) (syncMode_ e) (syncResponse_ e) r.
Definition posts (P : fields → Prop) {A} (m : M S A) : Prop := ∀ s, syncMode_ (ep s) = false →
  ∃ l r, Forall P l ∧ ep (state_of (m s)) = sent (ep s) l r.

Lemma posts_quiet P {A} (m : M S A) : (∀ s, ep (state_of (m s)) = ep s) → posts P m.
Proof.
  intros Hm s _. exists [], (running_ (ep s)). split; [constructor|]. rewrite Hm. unfold sent.
  rewrite app_nil_r. by destruct (ep s).
Qed.

Lemma posts_ret P {A} (a : A) : posts P (m_ret a).
Proof. by apply posts_quiet. Qed.

Lemma posts_get P : posts P m_get.
Proof. by apply posts_quiet. Qed.

Lemma posts_modify P f : (∀ s, ep (f s) = ep s) → posts P (m_modify f).
Proof. intros Hf. by apply posts_quiet. Qed.

Lemma posts_bind P {A B} (m : M S A) (k : A → M S B) :
  posts P m → (∀ a, posts P (k a)) → posts P (m_bind k m).
Proof.
  intros Hm Hk s Hs. destruct (Hm s Hs) as (l&r&Hl&E). unfold m_bind.
  destruct (m s) as [a s'|s'|s']; [|by exists l, r..]. simpl in E.
  destruct (Hk a s') as (l'&r'&Hl'&E'); [by rewrite E|]. exists (l ++ l'), r'. split; [by apply Forall_app|].
  rewrite E', E. unfold sent. simpl. by rewrite app_assoc.
Qed.

Lemma posts_SendMessage (P : fields → Prop) message : P message → posts P (SendMessage message).
Proof.
  intros HP s Hs. unfold SendMessage, m_bind, m_get. rewrite Hs. destruct (connected_ (ep s)).
  - exists [message], (running_ (ep s)). split; [by repeat constructor|]. simpl. by rewrite ep_set_ep.
  - exists [], (running_ (ep s)). split; [constructor|]. simpl. unfold sent. rewrite app_nil_r. by destruct (ep s).
Qed.

Lemma posts_Call (P : fields → Prop) sessionId method params :
  posts P params → (∀ ps, P (event_message sessionId method ps)) → posts P (Call sessionId method params).
Proof.
  intros Hp HP. unfold Call. apply posts_bind; [apply posts_get|]. intros s. destruct (syncMode_ (ep s)).
  - apply posts_ret. - apply posts_bind; [done|]. intros ps. by apply posts_SendMessage.
Qed.

Lemma posts_Kill P : posts P Kill.
Proof.
  intros s Hs. exists [], false. split; [constructor|]. unfold Kill, upd_ep, m_bind, m_get, m_modify, m_ret. simpl.
  rewrite ep_set_ep. unfold sent. by rewrite app_nil_r.
Qed.

(** Events carry no id, replies do. *)
Definition is_event (message : fields) : Prop := "id"%string ∉ message.*1.

Lemma is_event_message sessionId method ps : is_event (event_message sessionId method ps).
Proof. unfold is_event, event_message, session_field. destruct (decide _); simpl; set_solver. Qed.

Lemma posts_event sessionId method params : posts is_event params → posts is_event (Call sessionId method params).
Proof. intros. apply posts_Call; [done|]. intros. apply is_event_message. Qed.

(** A handler that only sends events and returns is answered once, behind them. *)
Lemma OnCallImpl_answer handler sessionId id params s r s' :
  posts is_event (handler sessionId params) → syncMode_ (ep s) = false → connected_ (ep s) = true →
  handler sessionId params s = Ret r s' →
  ∃ l t, Forall is_event l ∧
    OnCallImpl handler sessionId (Some id) params s = Ret () t ∧
    outbox (ep t) = outbox (ep s) ++ l ++
      [match r with
       | Value res => reply_message sessionId id "result" (default [] res)
       | Unexpected e => reply_message sessionId id "error" (JRPCError_Serialize e)
       end].
Proof.
  intros Hp Hs Hc E. destruct (Hp s Hs) as (l&run&Hl&Ep). rewrite E in Ep. simpl in Ep. exists l.
  assert (Hsend : ∀ message, ∃ t, SendMessage message s' = Ret () t ∧ outbox (ep t) = outbox (ep s) ++ l ++ [message]).
  { intros message. unfold SendMessage, m_bind, m_get. rewrite Ep. unfold sent at 1 2. simpl. rewrite Hs, Hc.
    eexists. split; [done|]. simpl. rewrite ep_set_ep, Ep. simpl. by rewrite app_assoc. }
  simpl. rewrite (m_bind_ret _ _ _ _ _ E). unfold Reply, ReplyError.
  destruct r as [[res|]|e]; edestruct Hsend as (t&Ht&?); exists t; split_and!; first [done|exact Ht|eassumption].
Qed.
End endpoint.
