(* ===== verification/StaticServer.v ===== *)
(** * The inspector server of the static debugger

    Models src/tooling/static/inspector_server.{h,cpp}: the methods of the
    protocol, each of which reads its parameters, calls the function the inspector
    registered for it and makes the response; and the events.

    The state holds the endpoint, the sessions, the scripts and, as [sv_inspector],
    whatever the inspector keeps; the functions of the inspector work on all of
    it, because they send events in turn. *)

From S2P Require Import Prelude Regex Http CppLib PtJson StaticBreakpoints ThreadState.
From S2P Require Import StaticTypes StaticObjects StaticSessions StaticDebugInfo StaticEndpoint.
Local Open Scope Z_scope.
Local Open Scope ark_scope.

(** ** State *)

Record server_state `{Threads} (I : Type) := mkServer {
  sv_endpoint : ServerEndpoint;
  sessionManager_ : SessionManager;
  sourceManager_ : SourceManager;
  sv_inspector : I }.
Arguments mkServer {_ _} _ _ _ _.
Arguments sv_endpoint {_ _} _.
Arguments sessionManager_ {_ _} _.
Arguments sourceManager_ {_ _} _.
Arguments sv_inspector {_ _} _.

#[export] Instance server_endpoint `{Threads} I : EndpointOf (server_state I) := {|
  ep := sv_endpoint;
  set_ep e s := mkServer e (sessionManager_ s) (sourceManager_ s) (sv_inspector s);
  ep_set_ep e s := eq_refl |}.

(** What a frame of a paused thread shows. *)
Record frame_shown := mkFrameShown {
  fs_frameId : Z;
  fs_methodName : bytes;
  fs_sourceFile : bytes;
  fs_scriptIdentity : bytes;
  fs_lineNumber : Z;
  fs_scopeChain : list Scope;
  fs_objThis : option RemoteObject;
  fs_isStaticFrame : bool }.

(** A snapshot of the asynchronous stack, as the runtime gives it. *)
Record AsyncFrameView := mkAsyncView { av_functionName : bytes; av_pandaFile : bytes; av_methodId : Z; av_offset : Z }.
Record AsyncSegment := mkSegment { sg_description : bytes; sg_frames : list AsyncFrameView }.

Inductive ConsoleCallType := CT_LOG | CT_DEBUG | CT_INFO | CT_ERROR | CT_WARNING.

(** The process, and how frames of asynchronous code are found in the cache. *)
Class Process := pid : Z.

Section server.
Context `{StringHelpers} `{CastOob} `{SignedOverflow} `{JsonText} `{Threads} `{Process} {I : Type}.
Abbreviation SM := (M (server_state I)).
Abbreviation SHandler := (bytes → JsonObject → SM MethodResponse).

Definition session_of (thread : PtThread) : SM bytes :=
  s <-- m_get ;; m_ret (GetSessionIdByThread thread (sessionManager_ s)).
Definition thread_of (sessionId : bytes) : SM PtThread :=
  s <-- m_get ;; m_ret (GetThreadBySessionId sessionId (sessionManager_ s)).
Definition script_of (id : Z) : SM ScriptKey := s <-- m_get ;; m_ret (GetScript id (sourceManager_ s)).
Definition set_sessions (m : SessionManager) (s : server_state I) : server_state I :=
  mkServer (sv_endpoint s) m (sourceManager_ s) (sv_inspector s).
Definition set_sources (m : SourceManager) (s : server_state I) : server_state I :=
  mkServer (sv_endpoint s) (sessionManager_ s) m (sv_inspector s).
Definition script_id (sourceFile scriptIdentity : bytes) : SM (Z * bool) := λ s,
  let '(r, m) := GetScriptId sourceFile scriptIdentity (sourceManager_ s) in Ret r (set_sources m s).

(** ** Events *)

Definition INT_MAX : Z := 2 ^ 31 - 1.

Definition scriptParsed_params (scriptId : Z) (sourceFile : bytes) : fields :=
  [("executionContextId", OutInt 0); ("scriptId", OutStr (to_string scriptId));
   ("url", OutStr (c_str sourceFile)); ("startLine", OutInt 0); ("startColumn", OutInt 0);
   ("endLine", OutInt INT_MAX); ("endColumn", OutInt INT_MAX); ("hash", OutStr [])].
Definition CallDebuggerScriptParsed (scriptId : Z) (sourceFile : bytes) : SM () :=
  Call [] "Debugger.scriptParsed" (m_ret (scriptParsed_params scriptId sourceFile)).

(** The id of a script, announced to the client when it is new. *)
Definition announced_script (sourceFile scriptIdentity : bytes) : SM Z :=
  r <-- script_id sourceFile scriptIdentity ;;
  (if (r.2 : bool) then CallDebuggerScriptParsed r.1 sourceFile else m_ret ()) ;;; m_ret r.1.

Definition GetPauseReasonString (reason : PauseReason) : bytes :=
  match reason with
  | PR_EXCEPTION => str "exception"
  | PR_BREAK_ON_START => str "Break on start"
  | _ => str "other"
  end.

Definition location_json (l : Location) : jout := OutObj (Location_Serialize l).

Definition AddCallFrameInfo (f : frame_shown) : SM jout :=
  scriptId <-- announced_script (fs_sourceFile f) (fs_scriptIdentity f) ;;
  m_ret (OutObj
    ([("callFrameId", OutStr (to_string (fs_frameId f))); ("functionName", OutStr (c_str (fs_methodName f)));
      ("location", location_json (mkLocation scriptId (fs_lineNumber f) None));
      ("url", OutStr (c_str (fs_sourceFile f)));
      ("scopeChain", OutArr ((λ sc, OutObj (Scope_Serialize sc)) <$> fs_scopeChain f));
      ("this", remote_json (default (remote TUndefined) (fs_objThis f)));
      ("canBeRestarted", OutBool true)]
     ++ if fs_isStaticFrame f then [("isStaticFrame", OutBool true)] else [])).

Definition AddHitBreakpoints (hitBreakpoints : list Z) : list jout := (λ id, OutStr (to_string id)) <$> hitBreakpoints.

(** [enumerateFrames] visits the frames of the stack and hands each to the
    function it is given. *)
Definition CallDebuggerPaused (thread : PtThread) (hitBreakpoints : list Z) (exception : option RemoteObject)
    (pauseReason : PauseReason) (enumerateFrames : (frame_shown → SM jout) → SM (list jout))
    (asyncStackTrace : option AsyncStackTrace) : SM () :=
  sessionId <-- session_of thread ;;
  Call sessionId "Debugger.paused"
    (callFrames <-- enumerateFrames AddCallFrameInfo ;;
     s <-- m_get ;;
     m_ret ([("callFrames", OutArr callFrames)]
            ++ opt_field "asyncStackTrace" (λ t, OutObj (AsyncStackTrace_Serialize t)) asyncStackTrace
            ++ [("hitBreakpoints", OutArr (AddHitBreakpoints hitBreakpoints))]
            ++ opt_field "data" remote_json exception
            ++ [("reason", OutStr (GetPauseReasonString pauseReason)); ("sessionId", OutStr sessionId);
                ("allSessions", OutArr (GetAllSessions (sessionManager_ s)))])).

Definition CallDebuggerResumed (thread : PtThread) : SM () :=
  sessionId <-- session_of thread ;; Call sessionId "Debugger.resumed" (m_ret []).

(** The frames of a segment that can be resolved. *)
Fixpoint async_frames (resolveFrame : AsyncFrameView → option (bytes * Z)) (frames : list AsyncFrameView)
    : SM (list AsyncCallFrame) :=
  match frames with
  | [] => m_ret []
  | frame :: frames' =>
      match resolveFrame frame with
      | Some (sourceFile, lineNumber) =>
          if lineNumber <? 0 then async_frames resolveFrame frames'
          else
            scriptId <-- announced_script sourceFile (av_pandaFile frame) ;;
            rest <-- async_frames resolveFrame frames' ;;
            m_ret (mkAsyncFrame (av_functionName frame) sourceFile scriptId lineNumber :: rest)
      | None => async_frames resolveFrame frames'
      end
  end.

(** The loop from the last segment to the first; each becomes the child of the one
    before. *)
Fixpoint async_segments (resolveFrame : AsyncFrameView → option (bytes * Z)) (segments : list AsyncSegment)
    (asyncStackTrace : option AsyncStackTrace) : SM (option AsyncStackTrace) :=
  match segments with
  | [] => m_ret asyncStackTrace
  | segment :: segments' =>
      callFrames <-- async_frames resolveFrame (sg_frames segment) ;;
      async_segments resolveFrame segments'
        match callFrames with
        | [] => asyncStackTrace
        | _ => Some (mkAsyncTrace (sg_description segment) callFrames asyncStackTrace)
        end
  end.
Definition CreateAsyncStackTrace (segments : list AsyncSegment) (resolveFrame : AsyncFrameView → option (bytes * Z))
    : SM (option AsyncStackTrace) :=
  async_segments resolveFrame (rev segments) None.

Definition console_type (type : ConsoleCallType) : bytes :=
  match type with
  | CT_LOG => str "log" | CT_DEBUG => str "debug" | CT_INFO => str "info" | CT_ERROR => str "error"
  | CT_WARNING => str "warning"
  end.

Definition CallRuntimeConsoleApiCalled (thread : PtThread) (type : ConsoleCallType) (timestamp : Z)
    (arguments : list RemoteObject) : SM () :=
  sessionId <-- session_of thread ;;
  Call sessionId "Runtime.consoleAPICalled" (m_ret
    [("executionContextId", OutInt 0); ("timestamp", OutInt timestamp); ("type", OutStr (console_type type));
     ("args", OutArr (remote_json <$> arguments))]).

Definition GetExecutionContextUniqueId (thread : PtThread) : bytes :=
  to_string pid ++ str ":" ++ to_string (GetId thread).

Definition CallRuntimeExecutionContextCreated (thread : PtThread) : SM () :=
  sessionId <-- session_of thread ;;
  let name := if decide (thread = PtThread_NONE) then [] else str "Thread #" ++ to_string (GetId thread) in
  Call sessionId "Runtime.executionContextCreated" (m_ret
    [("context", OutObj [("id", OutInt (GetId thread)); ("origin", OutStr []); ("name", OutStr name);
                         ("uniqueId", OutStr (GetExecutionContextUniqueId thread))])]).

Definition CallRuntimeExecutionContextsCleared : SM () :=
  Call [] "Runtime.executionContextsCleared" (m_ret []).

Definition attachedToTarget_params (sessionId : bytes) : fields :=
  [("sessionId", OutStr sessionId);
   ("targetInfo", OutObj [("targetId", OutStr sessionId); ("type", OutStr (str "worker"));
      ("title", OutStr sessionId); ("url", OutStr []); ("attached", OutBool true); ("canAccessOpener", OutBool false)]);
   ("waitingForDebugger", OutBool true)].
Definition SendTargetAttachedToTarget (sessionId : bytes) : SM () :=
  Call [] "Target.attachedToTarget" (m_ret (attachedToTarget_params sessionId)).

Definition CallTargetAttachedToTarget (thread : PtThread) : SM bool :=
  sessionId <-- (λ s, let '(id, m) := AddSession thread (sessionManager_ s) in Ret id (set_sessions m s)) ;;
  if decide (sessionId = []) then m_ret false
  else SendTargetAttachedToTarget sessionId ;;; m_ret true.

(** The lock that keeps the server thread from handling messages in between is
    modelled in StaticLocks.v. *)
Definition CallTargetDetachedFromTarget (thread : PtThread) : SM () :=
  sessionId <-- session_of thread ;;
  m_modify (λ s, set_sessions (RemoveSession sessionId (sessionManager_ s)) s) ;;;
  if decide (sessionId = []) then m_ret ()
  else Call [] "Target.detachedFromTarget" (m_ret [("sessionId", OutStr sessionId)]).

Definition SendNativeMethodCallEvent (thread : PtThread) (nativeAddress : Z) (isStepInto : bool) : SM () :=
  sessionId <-- session_of thread ;;
  Call sessionId "Debugger.nativeCalling" (m_ret
    [("nativeAddress", OutInt nativeAddress); ("isStepInto", OutBool isStepInto); ("sessionId", OutStr sessionId)]).

Fixpoint m_iter {S A} (f : A → M S ()) (l : list A) : M S () :=
  match l with [] => m_ret () | a :: l' => f a ;;; m_iter f l' end.

(** What the server does when a connection is open: the targets are announced
    again. *)
Definition OnOpen (handler : SM ()) : SM () :=
  s <-- m_get ;;
  m_iter (λ p, if decide (p.1 = []) then m_ret () else SendTargetAttachedToTarget p.1)
    (EnumerateSessions (sessionManager_ s)) ;;;
  handler.

(** ** Methods *)

Definition ok_empty : SM MethodResponse := m_ret (Value None).
Definition ok_result (fs : fields) : SM MethodResponse := m_ret (Value (Some fs)).
Definition error_of (code : ErrorCode) (message : bytes) : SM MethodResponse :=
  m_ret (Unexpected (mkJRPCError code message)).

(** The methods without parameters: the handler gets the thread of the session. *)
Definition thread_method (handler : PtThread → SM ()) : SHandler := λ sessionId _,
  thread <-- thread_of sessionId ;; handler thread ;;; ok_empty.

Definition OnCallDebuggerPause : (PtThread → SM ()) → SHandler := thread_method.
Definition OnCallDebuggerResume : (PtThread → SM ()) → SHandler := thread_method.
Definition OnCallDebuggerStepInto : (PtThread → SM ()) → SHandler := thread_method.
Definition OnCallDebuggerStepOut : (PtThread → SM ()) → SHandler := thread_method.
Definition OnCallDebuggerStepOver : (PtThread → SM ()) → SHandler := thread_method.
Definition OnCallDebuggerDisable : (PtThread → SM ()) → SHandler := thread_method.
Definition OnCallDebuggerClientDisconnect : (PtThread → SM ()) → SHandler := thread_method.
Definition OnCallDebuggerSetBlackboxPatterns : (PtThread → SM ()) → SHandler := thread_method.
Definition OnCallDebuggerSmartStepInto : (PtThread → SM ()) → SHandler := thread_method.
Definition OnCallDebuggerDropFrame : (PtThread → SM ()) → SHandler := thread_method.
Definition OnCallDebuggerSetNativeRange : (PtThread → SM ()) → SHandler := thread_method.
Definition OnCallRuntimeEnable : (PtThread → SM ()) → SHandler := thread_method.
Definition OnCallRuntimeRunIfWaitingForDebugger : (PtThread → SM ()) → SHandler := thread_method.

(** The methods with one boolean parameter. *)
Definition bool_method (key : string) (code : ErrorCode) (message : string) (handler : PtThread → bool → SM ()) : SHandler :=
  λ sessionId params,
    match GetBoolT params key with
    | None => error_of code (str message)
    | Some b => thread <-- thread_of sessionId ;; handler thread b ;;; ok_empty
    end.

Definition OnCallDebuggerSetBreakpointsActive : (PtThread → bool → SM ()) → SHandler :=
  bool_method "active" INVALID_REQUEST "No 'active' property".
Definition OnCallDebuggerSetSkipAllPauses : (PtThread → bool → SM ()) → SHandler :=
  bool_method "skip" INVALID_PARAMS "No 'active' property".
Definition OnCallDebuggerReplyNativeMethodCall : (PtThread → bool → SM ()) → SHandler :=
  bool_method "userCode" INVALID_REQUEST "No 'userCode' property".
Definition OnCallDebuggerSetMixedDebugEnabled (handler : bool → SM ()) : SHandler := λ _ params,
  match GetBoolT params "enabled" with
  | None => error_of INVALID_PARAMS (str "No 'enabled' property")
  | Some b => handler b ;;; ok_empty
  end.

Definition OnCallDebuggerContinueToLocation (handler : PtThread → bytes → bytes → Z → SM ()) : SHandler :=
  λ sessionId params,
    match Location_FromJsonProperty params "location" with
    | Unexpected e => error_of INVALID_REQUEST e
    | Value location =>
        thread <-- thread_of sessionId ;;
        script <-- script_of (scriptId_ location) ;;
        handler thread script.1 script.2 (lineNumber_ location) ;;; ok_empty
    end.

Definition OnCallDebuggerEnable (handler : SM ()) : SHandler := λ _ _,
  handler ;;; ok_result [("debuggerId", OutInt 0); ("protocols", OutArr [])].

(** An "end" that cannot be read counts as absent; then the range ends at [~0U],
    which is -1 as an [int32_t]. *)
Definition OnCallDebuggerGetPossibleBreakpoints (handler : bytes → bytes → Z → Z → bool → SM (list Z)) : SHandler :=
  λ _ params,
    match Location_FromJsonProperty params "start" with
    | Unexpected e => error_of PARSE_ERROR e
    | Value start =>
        script <-- script_of (scriptId_ start) ;;
        let restrictToFunction := default false (GetBoolT params "restrictToFunction") in
        let lines endLine :=
          lineNumbers <-- handler script.1 script.2 (lineNumber_ start) endLine restrictToFunction ;;
          ok_result (PossibleBreakpointsResponse_Serialize ((λ line, mkLocation (scriptId_ start) line None) <$> lineNumbers)) in
        match Location_FromJsonProperty params "end" with
        | Value end_ =>
            if scriptId_ end_ =? scriptId_ start then lines (lineNumber_ end_)
            else error_of INVALID_PARAMS (str "Script ids don't match")
        | Unexpected _ => lines (i32 (2 ^ 32 - 1))
        end
    end.

Definition OnCallDebuggerGetScriptSource (handler : bytes → bytes → SM bytes) : SHandler := λ _ params,
  match ParseNumericId SIZE_MAX params "scriptId" with
  | Value scriptId =>
      script <-- script_of scriptId ;;
      source <-- handler script.1 script.2 ;;
      ok_result (ScriptSourceResponse_Serialize source)
  | Unexpected e => error_of PARSE_ERROR e
  end.

Definition OnCallDebuggerRemoveBreakpoint (handler : PtThread → Z → SM ()) : SHandler := λ sessionId params,
  match ParseNumericId SIZE_MAX params "breakpointId" with
  | Value breakpointId => thread <-- thread_of sessionId ;; handler thread breakpointId ;;; ok_empty
  | Unexpected e => error_of INVALID_REQUEST e
  end.

(** Slashes of both kinds are equal in paths. *)
Definition is_slash (c : Z) : bool := (c =? 92) || (c =? 47).
Fixpoint IsPathEqual (src dst : bytes) : bool :=
  match src, dst with
  | [], [] => true
  | a :: src', b :: dst' => ((is_slash a && is_slash b) || (a =? b)) && IsPathEqual src' dst'
  | _, _ => false
  end.

Definition url_path (url : bytes) : bytes :=
  if bool_decide (str "file://" `prefix_of` url) then drop 7 url else url.
Definition GetUrlFileFilter (url fileName pandaFile : bytes) : bool := IsPathEqual (url_path url) fileName.

Definition OnCallDebuggerRemoveBreakpointsByUrl (handler : PtThread → bytes → (bytes → bytes → bool) → SM ()) : SHandler :=
  λ sessionId params,
    match GetStringT params "url" with
    | None => error_of PARSE_ERROR (str "No 'url' parameter was provided for Debugger.removeBreakpointsByUrl")
    | Some url => thread <-- thread_of sessionId ;; handler thread (c_str url) (GetUrlFileFilter url) ;;; ok_empty
    end.

Definition OnCallDebuggerRestartFrame (handler : PtThread → Z → SM ()) : SHandler := λ sessionId params,
  thread <-- thread_of sessionId ;;
  match ParseNumericId UINT32_MAX params "callFrameId" with
  | Unexpected e => error_of PARSE_ERROR e
  | Value frameId => handler thread frameId ;;; ok_result [("callFrames", OutArr [])]
  end.

(** The function that sets a breakpoint: its id, and the source files that were
    found. *)
Abbreviation SetBreakpointHandler := (PtThread → (bytes → bytes → bool) → Z → option bytes → SM (option Z * list ScriptKey)).

Definition OnCallDebuggerSetBreakpoint (handler : SetBreakpointHandler) : SHandler := λ sessionId params,
  match Location_FromJsonProperty params "location" with
  | Unexpected e => error_of PARSE_ERROR e
  | Value location =>
      thread <-- thread_of sessionId ;;
      script <-- script_of (scriptId_ location) ;;
      made <-- handler thread (script_filter script.1 script.2) (lineNumber_ location) (GetStringT params "condition") ;;
      match made.1 with
      | None => error_of INTERNAL_ERROR (str "Failed to set breakpoint")
      | Some id => ok_result [("breakpointId", OutStr (to_string id)); ("actualLocation", location_json location)]
      end
  end.

Fixpoint AddLocations (sourceFiles : list ScriptKey) (lineNumber : Z) : SM (list Location) :=
  match sourceFiles with
  | [] => m_ret []
  | (sourceFile, scriptIdentity) :: sourceFiles' =>
      scriptId <-- announced_script sourceFile scriptIdentity ;;
      rest <-- AddLocations sourceFiles' lineNumber ;;
      m_ret (mkLocation scriptId lineNumber None :: rest)
  end.

Definition SetBreakpointByUrl (sessionId : bytes) (breakpointRequest : UrlBreakpointRequest) (handler : SetBreakpointHandler)
    : SM (Expected UrlBreakpointResponse bytes) :=
  match rq_url breakpointRequest with
  | None => m_ret (Unexpected (str "Failed to set breakpoint, url is none"))
  | Some url =>
      thread <-- thread_of sessionId ;;
      made <-- handler thread (GetUrlFileFilter url) (rq_lineNumber breakpointRequest) (rq_condition breakpointRequest) ;;
      match made.1 with
      | None => m_ret (Unexpected (str "Failed to set breakpoint"))
      | Some id =>
          locations <-- AddLocations made.2 (rq_lineNumber breakpointRequest) ;;
          m_ret (Value (mkUrlResponse id locations))
      end
  end.

Definition OnCallDebuggerSetBreakpointByUrl (handler : SetBreakpointHandler) : SHandler := λ sessionId params,
  match UrlBreakpointRequest_FromJson params with
  | Unexpected e => error_of PARSE_ERROR (str "Parse error: " ++ e)
  | Value request =>
      response <-- SetBreakpointByUrl sessionId request handler ;;
      match response with
      | Value r => ok_result (UrlBreakpointResponse_Serialize r)
      | Unexpected e => error_of INVALID_REQUEST e
      end
  end.

Fixpoint ParseUrlBreakpointRequests (rawRequests : list jval) : Expected (list UrlBreakpointRequest) bytes :=
  match rawRequests with
  | [] => Value []
  | JObj object :: rawRequests' =>
      match UrlBreakpointRequest_FromJson object with
      | Unexpected e => Unexpected (str "Invalid breakpoint request: " ++ e)
      | Value request =>
          match ParseUrlBreakpointRequests rawRequests' with
          | Value rest => Value (request :: rest)
          | Unexpected e => Unexpected e
          end
      end
  | _ :: _ => Unexpected (str "Invalid 'locations' array in getPossibleAndSetBreakpointByUrl")
  end.

(** The entry of the response for one request. *)
Definition custom_response (request : UrlBreakpointRequest) (response : Expected UrlBreakpointResponse bytes)
    : CustomUrlBreakpointResponse :=
  match response with
  | Unexpected _ => CustomUrlBreakpointResponse_new (rq_lineNumber request)
  | Value r =>
      match ToCustomUrlBreakpointResponse r with
      | Some c => c
      | None => mkCustomResponse (rq_lineNumber request) 0 0 (Some (ur_breakpointId r))
      end
  end.

Definition OnCallDebuggerGetPossibleAndSetBreakpointByUrl (handler : SetBreakpointHandler) : SHandler := λ sessionId params,
  match GetArrayT params "locations" with
  | None => error_of PARSE_ERROR (str "No 'locations' array in getPossibleAndSetBreakpointByUrl")
  | Some rawRequests =>
      match ParseUrlBreakpointRequests rawRequests with
      | Unexpected e => error_of PARSE_ERROR e
      | Value requests =>
          locations <-- m_map (λ req, r <-- SetBreakpointByUrl sessionId req handler ;; m_ret (custom_response req r)) requests ;;
          ok_result (CustomUrlBreakpointLocations_Serialize locations)
      end
  end.

Definition OnCallDebuggerSetPauseOnExceptions (handler : PtThread → PauseOnExceptionsState → SM ()) : SHandler :=
  λ sessionId params,
    thread <-- thread_of sessionId ;;
    match GetStringT params "state" with
    | None => error_of INVALID_PARAMS (str "No 'state' property")
    | Some state =>
        if decide (state = str "none") then handler thread POE_NONE ;;; ok_empty
        else if decide (state = str "caught") then handler thread POE_CAUGHT ;;; ok_empty
        else if decide (state = str "uncaught") then handler thread POE_UNCAUGHT ;;; ok_empty
        else if decide (state = str "all") then handler thread POE_ALL ;;; ok_empty
        else error_of INVALID_PARAMS (str "Invalid 'state' value: " ++ state)
    end.

(** The evaluation methods; the handler gets the text and the frame. *)
Definition evaluation_response (result : Expected EvaluationResult bytes) : SM MethodResponse :=
  match result with
  | Value r => ok_result (EvaluationResult_Serialize r)
  | Unexpected e => error_of INTERNAL_ERROR (str "Evaluation failed: " ++ e)
  end.

Definition evaluate_method (FromJson : JsonObject → Expected DebuggerEvaluationRequest bytes)
    (handler : PtThread → bytes → Z → SM (Expected EvaluationResult bytes)) : SHandler := λ sessionId params,
  thread <-- thread_of sessionId ;;
  match FromJson params with
  | Unexpected e => error_of PARSE_ERROR e
  | Value request =>
      result <-- handler thread (ev_expression request) (ev_callFrameId request) ;;
      evaluation_response result
  end.
Definition OnCallDebuggerEvaluateOnCallFrame : (PtThread → bytes → Z → SM (Expected EvaluationResult bytes)) → SHandler :=
  evaluate_method DebuggerEvaluationRequest_FromJson.
Definition OnCallDebuggerCallFunctionOn : (PtThread → bytes → Z → SM (Expected EvaluationResult bytes)) → SHandler :=
  evaluate_method DebuggerCallFunctionOnRequest_FromJson.

Definition OnCallRuntimeEvaluate (handler : PtThread → bytes → SM (Expected EvaluationResult bytes)) : SHandler :=
  λ sessionId params,
    thread <-- thread_of sessionId ;;
    match GetStringT params "expression" with
    | Some (c :: expression) => result <-- handler thread (c :: expression) ;; evaluation_response result
    | _ => error_of PARSE_ERROR (str "'expression' property is absent or empty")
    end.

(** A number that is a [uint32_t]. *)
Definition exact_uint32 (d : double) : option Z :=
  match d with
  | DFin m e =>
      if (m <? 0) || ((e <? 0) && negb (m mod 2 ^ (- e) =? 0)) then None
      else
        let z := if 0 <=? e then m * 2 ^ e else m / 2 ^ (- e) in
        if UINT32_MAX <? z then None else Some z
  | _ => None
  end.

Definition OnCallDebuggerSetAsyncCallStackDepth (handler : PtThread → Z → SM ()) : SHandler := λ sessionId params,
  match GetNumT params "maxDepth" with
  | None => error_of INVALID_PARAMS (str "No 'maxDepth' property")
  | Some d =>
      match exact_uint32 d with
      | None => error_of INVALID_PARAMS (str "Invalid 'maxDepth' property")
      | Some maxDepth => thread <-- thread_of sessionId ;; handler thread maxDepth ;;; ok_empty
      end
  end.

Definition OnCallRuntimeGetProperties (handler : PtThread → Z → bool → SM (list PropertyDescriptor)) : SHandler :=
  λ sessionId params,
    thread <-- thread_of sessionId ;;
    match ParseNumericId SIZE_MAX params "objectId" with
    | Unexpected e => error_of PARSE_ERROR e
    | Value objectId =>
        properties <-- handler thread objectId (default false (GetBoolT params "generatePreview")) ;;
        ok_result [("result", OutArr ((λ d, OutObj (PropertyDescriptor_Serialize d)) <$> properties))]
    end.

Definition OnCallProfilerEnable : SHandler := λ _ _, ok_empty.
Definition OnCallProfilerDisable : SHandler := λ _ _, ok_empty.

Definition OnCallProfilerSetSamplingInterval (handler : Z → SM ()) : SHandler := λ _ params,
  match GetNumT params "interval" with
  | Some d => handler (double_to_int32 d) ;;; ok_empty
  | None => error_of INVALID_REQUEST (str "No 'interval' property")
  end.

Definition OnCallProfilerStart (handler : SM (Expected bool bytes)) : SHandler := λ _ _,
  result <-- handler ;;
  match result with
  | Value _ => ok_empty
  | Unexpected e => error_of INTERNAL_ERROR (str "Profiler failed: " ++ e)
  end.

Definition OnCallProfilerStop (handler : SM (Expected Profile bytes)) : SHandler := λ _ _,
  result <-- handler ;;
  match result with
  | Value p => ok_result (Profile_Serialize p)
  | Unexpected e => error_of INTERNAL_ERROR (str "Profiler failed: " ++ e)
  end.

Definition OnCallTargetAttachToTarget : SHandler := λ _ params,
  match GetStringT params "targetId" with
  | None => error_of INVALID_REQUEST (str "No 'targetId' property")
  | Some targetId =>
      thread <-- thread_of targetId ;;
      if decide (thread = PtThread_NONE)
      then error_of INVALID_PARAMS (str "'targetId' " ++ targetId ++ str " did not start")
      else ok_result [("sessionId", OutStr targetId)]
  end.
End server.
