(* ===== verification/StaticInspector.v ===== *)
(** * The inspector of the static debugger

    Models src/tooling/static/inspector.{h,cpp}, with the parts of
    debugger/debuggable_thread.cpp that reach the client: what the requests of the
    client do, and the hooks through which the runtime reports what the program
    does.

    A request runs on the server thread, a hook on the thread of the program that
    it is about. Both work on the state of the server, of which the inspector is a
    part; [dt_exec] of DebuggableThread.v is what they do to a thread. A thread
    that is to be resumed goes on in a step of its own, [woken_up]; a request that
    a suspended thread has to execute is one step here, because the server waits
    for it (that it does not wait in vain is [request_served]). The locks are the
    subject of StaticLocks.v.

    The runtime is the class [DebugInterface]: an opaque state with what the
    inspector asks of it. *)

From S2P Require Import Prelude Regex Http CppLib PtJson HybridFrames StaticBreakpoints ThreadState DebuggableThread.
From S2P Require Import StaticBase64 StaticTypes StaticObjects StaticSessions StaticDebugInfo StaticEndpoint StaticServer.
Local Open Scope Z_scope.
Local Open Scope ark_scope.

(** ** The runtime *)

Class DebugInterface `{LangExt} `{Threads} := {
  runtime : Type;
  runtime_heap : runtime → heap;
  (** The order of threads in a map. *)
  thread_before : PtThread → PtThread → bool;
  GetCurrentFrame : runtime → PtThread → option PtFrame;
  EnumerateFrames : runtime → PtThread → list PtFrame;
  StackIsCFrame : runtime → PtThread → bool;
  NotifyFramePop_hook : PtThread → Z → runtime → runtime;
  (** [None]: an error. *)
  debugger_RestartFrame : PtThread → Z → runtime → option runtime;
  debugger_SetAsyncCallStackDepth : Z → runtime → runtime;
  CurrentAsyncStack : runtime → option (list AsyncSegment);
  GetException : runtime → PtThread → option ObjectHeader;
  (** The value of a condition in the top frame, and what running an expression in
      a frame does. *)
  ConditionValue : runtime → PtThread → bytes → eval_result;
  RunExpression : PtThread → Z → bytes → runtime → runtime;
  EnumeratePandaFiles : bool → runtime → list panda_file;
  (** The stack of both languages, from the top; empty without frames of the
      dynamic one. *)
  DynamicFrame : Type;
  UnionStack : runtime → list (PtFrame + DynamicFrame);
  GetEcmaVM : runtime → Z;
  frame_providers : runtime → @FrameInfoExtractor.extractor Z DynamicFrame;
  IsProfilerRunning : runtime → bool;
  StartProfilingSession : Z → runtime → bool * runtime;
  (** [None]: the profiler is inactive. *)
  StopProfilingSession : runtime → option (option (list (option ProfileInfo))) * runtime }.

(** ** State *)

(** Why a thread is in [Suspend]: where the loop around it is. *)
Inductive pause_cause := AtStep (location : PtLocation) | AtException.

Record thread_slot `{LangExt} := mkSlot {
  sl_thread : DebuggableThread;
  (** The repository of the suspension. *)
  sl_repository : ObjectRepository;
  objectRepository_ : option ObjectRepository;
  sl_cause : pause_cause }.

Record inspector `{DebugInterface} := mkInspector {
  mixedDebugEnabled_ : bool;
  debugInfoCache_ : DebugInfoCache;
  (** In the order of the map. *)
  threads_ : list (PtThread * thread_slot);
  currentExceptionId_ : Z;
  isVmDead_ : bool;
  in_breakpoints : BreakpointStorage;
  sourceFiles_ : gmap bytes bool;
  samplingInterval_ : Z;
  nativeMethodCallWaiting_ : bool;
  (** The flags shared with the dynamic debugger, and the runtime. *)
  in_hybrid : HybridSingleStepper;
  in_runtime : runtime }.

Arguments mkSlot {_} _ _ _ _.
Arguments mkInspector {_ _ _} _ _ _ _ _ _ _ _ _ _ _.

Section inspector.
Context `{StringHelpers} `{CastOob} `{SignedOverflow} `{JsonText} `{Process} `{Files}.
Context `{LE : LangExt} `{!LangEnum} `{!Registers} `{TH : Threads} `{DI : !DebugInterface}.

Abbreviation IM := (M (server_state inspector)).

Definition inspector_init (r : runtime) : inspector :=
  mkInspector false cache_init [] 0 false storage_init ∅ 0 false (mkHybrid false false) r.

Definition set_mixed (b : bool) (i : inspector) : inspector :=
  mkInspector b (debugInfoCache_ i) (threads_ i) (currentExceptionId_ i) (isVmDead_ i) (in_breakpoints i) (sourceFiles_ i)
    (samplingInterval_ i) (nativeMethodCallWaiting_ i) (in_hybrid i) (in_runtime i).
Definition set_cache (c : DebugInfoCache) (i : inspector) : inspector :=
  mkInspector (mixedDebugEnabled_ i) c (threads_ i) (currentExceptionId_ i) (isVmDead_ i) (in_breakpoints i) (sourceFiles_ i)
    (samplingInterval_ i) (nativeMethodCallWaiting_ i) (in_hybrid i) (in_runtime i).
Definition set_threads (l : list (PtThread * thread_slot)) (i : inspector) : inspector :=
  mkInspector (mixedDebugEnabled_ i) (debugInfoCache_ i) l (currentExceptionId_ i) (isVmDead_ i) (in_breakpoints i)
    (sourceFiles_ i) (samplingInterval_ i) (nativeMethodCallWaiting_ i) (in_hybrid i) (in_runtime i).
Definition set_exceptionId (n : Z) (i : inspector) : inspector :=
  mkInspector (mixedDebugEnabled_ i) (debugInfoCache_ i) (threads_ i) n (isVmDead_ i) (in_breakpoints i)
    (sourceFiles_ i) (samplingInterval_ i) (nativeMethodCallWaiting_ i) (in_hybrid i) (in_runtime i).
Definition set_dead (i : inspector) : inspector :=
  mkInspector (mixedDebugEnabled_ i) (debugInfoCache_ i) (threads_ i) (currentExceptionId_ i) true (in_breakpoints i)
    (sourceFiles_ i) (samplingInterval_ i) (nativeMethodCallWaiting_ i) (in_hybrid i) (in_runtime i).
Definition set_breakpoints (b : BreakpointStorage) (i : inspector) : inspector :=
  mkInspector (mixedDebugEnabled_ i) (debugInfoCache_ i) (threads_ i) (currentExceptionId_ i) (isVmDead_ i) b
    (sourceFiles_ i) (samplingInterval_ i) (nativeMethodCallWaiting_ i) (in_hybrid i) (in_runtime i).
Definition set_sourceFiles (m : gmap bytes bool) (i : inspector) : inspector :=
  mkInspector (mixedDebugEnabled_ i) (debugInfoCache_ i) (threads_ i) (currentExceptionId_ i) (isVmDead_ i) (in_breakpoints i)
    m (samplingInterval_ i) (nativeMethodCallWaiting_ i) (in_hybrid i) (in_runtime i).
Definition set_interval (n : Z) (i : inspector) : inspector :=
  mkInspector (mixedDebugEnabled_ i) (debugInfoCache_ i) (threads_ i) (currentExceptionId_ i) (isVmDead_ i) (in_breakpoints i)
    (sourceFiles_ i) n (nativeMethodCallWaiting_ i) (in_hybrid i) (in_runtime i).
Definition set_waiting (b : bool) (i : inspector) : inspector :=
  mkInspector (mixedDebugEnabled_ i) (debugInfoCache_ i) (threads_ i) (currentExceptionId_ i) (isVmDead_ i) (in_breakpoints i)
    (sourceFiles_ i) (samplingInterval_ i) b (in_hybrid i) (in_runtime i).
Definition set_hybrid (h : HybridSingleStepper) (i : inspector) : inspector :=
  mkInspector (mixedDebugEnabled_ i) (debugInfoCache_ i) (threads_ i) (currentExceptionId_ i) (isVmDead_ i) (in_breakpoints i)
    (sourceFiles_ i) (samplingInterval_ i) (nativeMethodCallWaiting_ i) h (in_runtime i).
Definition set_runtime (r : runtime) (i : inspector) : inspector :=
  mkInspector (mixedDebugEnabled_ i) (debugInfoCache_ i) (threads_ i) (currentExceptionId_ i) (isVmDead_ i) (in_breakpoints i)
    (sourceFiles_ i) (samplingInterval_ i) (nativeMethodCallWaiting_ i) (in_hybrid i) r.

Definition insp : IM inspector := s <-- m_get ;; m_ret (sv_inspector s).
Definition upd_insp (f : inspector → inspector) : IM () :=
  m_modify (λ s, mkServer (sv_endpoint s) (sessionManager_ s) (sourceManager_ s) (f (sv_inspector s))).
(** Undefined behaviour or the end of the process. *)
Definition broken {A} : IM A := λ s, Throw s.
Definition blocked {A} : IM A := λ s, Block s.

(** ** Threads *)

Definition find_thread (thread : PtThread) (i : inspector) : option thread_slot :=
  snd <$> (snd <$> list_find (λ p : PtThread * thread_slot, p.1 = thread) (threads_ i)).
Definition GetDebuggableThread (thread : PtThread) : IM (option thread_slot) := i <-- insp ;; m_ret (find_thread thread i).

Definition set_slot (thread : PtThread) (sl : thread_slot) (i : inspector) : inspector :=
  set_threads ((λ p : PtThread * thread_slot, if decide (p.1 = thread) then (thread, sl) else p) <$> threads_ i) i.
Definition slot_thread (d : DebuggableThread) (sl : thread_slot) : thread_slot :=
  mkSlot d (sl_repository sl) (objectRepository_ sl) (sl_cause sl).
Definition slot_repository (r : ObjectRepository) (sl : thread_slot) : thread_slot :=
  mkSlot (sl_thread sl) r (objectRepository_ sl) (sl_cause sl).
Definition slot_cached (r : option ObjectRepository) (sl : thread_slot) : thread_slot :=
  mkSlot (sl_thread sl) (sl_repository sl) r (sl_cause sl).
Definition slot_cause (c : pause_cause) (sl : thread_slot) : thread_slot :=
  mkSlot (sl_thread sl) (sl_repository sl) (objectRepository_ sl) c.
Definition with_slot (thread : PtThread) (f : thread_slot → thread_slot) : IM () :=
  upd_insp (λ i, match find_thread thread i with Some sl => set_slot thread (f sl) i | None => i end).

(** One transition of a thread; the flags of hybrid stepping are shared. *)
Definition thread_do (thread : PtThread) (e : dt_event) : IM () :=
  i <-- insp ;;
  match find_thread thread i with
  | None => m_ret ()
  | Some sl =>
      match dt_exec e (with_state (state_ (sl_thread sl)) (in_hybrid i) (sl_thread sl)) with
      | None => blocked
      | Some d => upd_insp (λ i, set_hybrid (hybrid d) (set_slot thread (slot_thread d sl) i))
      end
  end.

(** The methods of [DebuggableThread] for the server; [postResume] tells the
    client. *)
Definition command_thread (thread : PtThread) (c : command) : IM () :=
  t <-- GetDebuggableThread thread ;;
  thread_do thread (Command c) ;;;
  match t with
  | Some sl => if resumes c && suspended_ (sl_thread sl) then CallDebuggerResumed thread else m_ret ()
  | None => m_ret ()
  end.

Definition IsPaused (sl : thread_slot) : bool := suspended_ (sl_thread sl).
Definition IsPausedByBreakOnStart (sl : thread_slot) : bool :=
  paused_ (state_ (sl_thread sl)) && match pauseReason_ (state_ (sl_thread sl)) with PR_BREAK_ON_START => true | _ => false end.
Definition IsPausedByBreakPoint (sl : thread_slot) : bool :=
  paused_ (state_ (sl_thread sl)) && match pauseReason_ (state_ (sl_thread sl)) with PR_OTHER => true | _ => false end.
Definition IsStepInto (sl : thread_slot) : bool := bool_decide (stepKind_ (state_ (sl_thread sl)) = STEP_INTO).

(** A function on the repository of a thread. *)
Definition in_repo {A} (thread : PtThread) (f : heap → M ObjectRepository A) : IM A := λ s,
  match find_thread thread (sv_inspector s) with
  | None => Throw s
  | Some sl =>
      let put r := mkServer (sv_endpoint s) (sessionManager_ s) (sourceManager_ s)
                     (set_slot thread (slot_repository r sl) (sv_inspector s)) in
      match f (runtime_heap (in_runtime (sv_inspector s))) (sl_repository sl) with
      | Ret a r => Ret a (put r)
      | Block r => Block (put r)
      | Throw r => Throw (put r)
      end
  end.
(** On a repository of its own. *)
Definition in_fresh {A} (f : heap → M ObjectRepository A) : IM A := λ s,
  match f (runtime_heap (in_runtime (sv_inspector s))) repository_init with
  | Ret a _ => Ret a s
  | Block _ => Block s
  | Throw _ => Throw s
  end.

(** [RequestToObjectRepository]: [None] when the thread is not suspended; else the
    thread wakes up, executes the request and suspends itself again. *)
Definition request_thread {A} (thread : PtThread) (request : IM A) : IM (option A) :=
  t <-- GetDebuggableThread thread ;;
  match t with
  | None => m_ret None
  | Some sl =>
      thread_do thread (RequestToObjectRepository (length (served (sl_thread sl)))) ;;;
      if negb (suspended_ (sl_thread sl)) then m_ret None
      else
        a <-- request ;;
        thread_do thread WakeUp ;;;
        thread_do thread RequestDone ;;;
        m_ret (Some a)
  end.

Fixpoint insert_thread (thread : PtThread) (sl : thread_slot) (l : list (PtThread * thread_slot))
    : list (PtThread * thread_slot) :=
  match l with
  | [] => [(thread, sl)]
  | p :: l' => if thread_before thread p.1 then (thread, sl) :: l else p :: insert_thread thread sl l'
  end.

Definition each_thread (f : PtThread → IM ()) : IM () := i <-- insp ;; m_iter f (threads_ i).*1.

(** ** Requests *)

Definition CheckVmDead : IM bool := i <-- insp ;; if isVmDead_ i then Kill ;;; m_ret true else m_ret false.
Definition unless_dead {A} (dead : A) (m : IM A) : IM A := d <-- CheckVmDead ;; if (d : bool) then m_ret dead else m.

Definition Inspector_RuntimeEnable (thread : PtThread) : IM () :=
  unless_dead () (CallRuntimeExecutionContextCreated thread).

(** Signalling the condition variable has no effect on the state. *)
Definition Inspector_RunIfWaitingForDebugger (thread : PtThread) : IM () :=
  unless_dead () (command_thread thread CmdTouch).

Definition Inspector_Pause (thread : PtThread) : IM () :=
  unless_dead () (each_thread (λ t, command_thread t CmdPause)).

Definition Inspector_Continue (thread : PtThread) : IM () :=
  unless_dead ()
    (i <-- insp ;;
     if match find_thread thread i with Some sl => IsPausedByBreakOnStart sl | None => false end then
       if existsb (λ p : PtThread * thread_slot, negb (bool_decide (p.1 = thread)) && IsPausedByBreakPoint p.2) (threads_ i)
       then m_ret ()
       else command_thread thread CmdContinue
     else each_thread (λ t, command_thread t CmdContinue)).

Definition Inspector_SetBreakpointsActive (thread : PtThread) (active : bool) : IM () :=
  unless_dead () (upd_insp (λ i, set_breakpoints (SetBreakpointsActive active (in_breakpoints i)) i)).
Definition Inspector_SetSkipAllPauses (thread : PtThread) (skip : bool) : IM () :=
  unless_dead () (command_thread thread (CmdSkip skip)).
Definition Inspector_SetMixedDebugEnabled (mixedDebugEnabled : bool) : IM () :=
  unless_dead () (upd_insp (set_mixed mixedDebugEnabled)).

Definition Inspector_GetPossibleBreakpoints (sourceFile scriptIdentity : bytes) (startLine endLine : Z)
    (restrictToFunction : bool) : IM (list Z) :=
  unless_dead []
    (i <-- insp ;;
     m_ret (GetValidLineNumbers sourceFile scriptIdentity startLine endLine restrictToFunction (debugInfoCache_ i))).

(** An empty condition counts as none; the result of decoding one is not looked
    at. *)
Definition decoded_condition (condition : option bytes) : option bytes :=
  match condition with
  | None | Some [] => None
  | Some c => Some (Base64Decoder.Decode c).1
  end.

Definition Inspector_SetBreakpoint (thread : PtThread) (sourceFilesFilter : bytes → bytes → bool) (lineNumber : Z)
    (condition : option bytes) : IM (option Z * list ScriptKey) :=
  unless_dead (None, [])
    (i <-- insp ;;
     let found := GetBreakpointLocations sourceFilesFilter lineNumber (debugInfoCache_ i) in
     let made := SetBreakpoint sourceFilesFilter lineNumber (decoded_condition condition) found.1 (in_breakpoints i) in
     upd_insp (set_breakpoints made.2) ;;;
     m_ret (made.1, found.2)).

Definition Inspector_RemoveBreakpoint (thread : PtThread) (id : Z) : IM () :=
  unless_dead () (upd_insp (λ i, set_breakpoints (RemoveBreakpoint id (in_breakpoints i)) i)).

(** The loop over the files returns in its first iteration. *)
Definition url_location (url : bytes) (pfs : list panda_file) (c : DebugInfoCache) (loc : PtLocation) : bool :=
  match pfs with
  | [] => false
  | pf :: _ =>
      match GetDebugInfo (pf_address pf) c ≫= λ p, find_method (loc_method loc) p.1 with
      | Some d => bool_decide (c_str (md_source d) = url)
      | None => false
      end
  end.
Definition Inspector_RemoveBreakpointsByUrl (thread : PtThread) (url : bytes) (sourceFilesFilter : bytes → bytes → bool) : IM () :=
  unless_dead ()
    (if decide (url = []) then m_ret ()
     else
       i <-- insp ;;
       match find_thread thread i with
       | None => m_ret ()
       | Some _ =>
           let pfs := GetPandaFiles sourceFilesFilter (debugInfoCache_ i) in
           upd_insp (set_breakpoints (RemoveBreakpoints (url_location url pfs (debugInfoCache_ i)) (in_breakpoints i)))
       end).

Definition Inspector_SetPauseOnExceptions (thread : PtThread) (state : PauseOnExceptionsState) : IM () :=
  unless_dead () (command_thread thread (CmdExceptions state)).

(** The requests that need a suspended thread. *)
Definition on_pause (thread : PtThread) (m : inspector → IM ()) : IM () :=
  unless_dead ()
    (i <-- insp ;;
     match find_thread thread i with
     | Some sl => if negb (IsPaused sl) then m_ret () else m i
     | None => m_ret ()
     end).

(** The locations of the line a thread is on; a frame has a method. *)
Definition on_line (thread : PtThread) (i : inspector) (k : list PtLocation → IM ()) : IM () :=
  match GetCurrentFrame (in_runtime i) thread with
  | None => m_ret ()
  | Some f =>
      match fr_method f with
      | None => broken
      | Some m => k (GetCurrentLineLocations m (fr_offset f) (debugInfoCache_ i))
      end
  end.

Definition Inspector_StepInto (thread : PtThread) : IM () :=
  on_pause thread (λ i, on_line thread i (λ locations, command_thread thread (CmdStepInto locations))).
Definition Inspector_StepOver (thread : PtThread) : IM () :=
  on_pause thread (λ i, on_line thread i (λ locations, command_thread thread (CmdStepOver locations))).
Definition Inspector_StepOut (thread : PtThread) : IM () :=
  on_pause thread (λ i,
    upd_insp (set_runtime (NotifyFramePop_hook thread 0 (in_runtime i))) ;;; command_thread thread CmdStepOut).
Definition Inspector_ContinueToLocation (thread : PtThread) (sourceFile scriptIdentity : bytes) (lineNumber : Z) : IM () :=
  on_pause thread (λ i,
    command_thread thread (CmdContinueTo (GetContinueToLocations sourceFile scriptIdentity lineNumber (debugInfoCache_ i)))).
Definition Inspector_RestartFrame (thread : PtThread) (frameId : Z) : IM () :=
  on_pause thread (λ i,
    match debugger_RestartFrame thread frameId (in_runtime i) with
    | None => m_ret ()
    | Some r => upd_insp (set_runtime r) ;;; command_thread thread (CmdStepInto [])
    end).

(** A thread that is not suspended has a repository if its stack was asked for
    with [GetStaticCallFrames]. *)
Definition on_cached {A} (thread : PtThread) (f : heap → M ObjectRepository A) : IM (option A) := λ s,
  let i := sv_inspector s in
  match find_thread thread i with
  | Some sl =>
      match objectRepository_ sl with
      | None => Ret None s
      | Some r =>
          let put r := mkServer (sv_endpoint s) (sessionManager_ s) (sourceManager_ s) (set_slot thread (slot_cached (Some r) sl) i) in
          match f (runtime_heap (in_runtime i)) r with
          | Ret a r => Ret (Some a) (put r)
          | Block r => Block (put r)
          | Throw r => Throw (put r)
          end
      end
  | None => Ret None s
  end.

Definition Inspector_GetProperties (thread : PtThread) (objectId : Z) (generatePreview : bool) : IM (list PropertyDescriptor) :=
  unless_dead []
    (properties <-- request_thread thread (in_repo thread (λ h, Repository_GetProperties h objectId generatePreview)) ;;
     match properties with
     | Some ps => m_ret ps
     | None =>
         cached <-- on_cached thread (λ h, Repository_GetProperties h objectId generatePreview) ;;
         m_ret (default [] cached)
     end).

Definition Inspector_GetSourceCode (sourceFile scriptIdentity : bytes) : IM bytes :=
  unless_dead [] (i <-- insp ;; m_ret (GetSourceCode sourceFile scriptIdentity (debugInfoCache_ i))).

(** *** Evaluation *)

(** The source of a frame; [None] where the frame has no method or its line is
    not found. *)
Definition frame_source (f : PtFrame) (c : DebugInfoCache) : option (bytes * bytes * Z) :=
  m ← fr_method f;
  let '(sourceFile, methodName, line) := GetSourceLocation m (fr_offset f) c in
  (λ lineNumber, (sourceFile, methodName, lineNumber)) <$> line.

(** The frames before the first one without a source file. *)
Fixpoint count_frames (c : DebugInfoCache) (frames : list PtFrame) : option Z :=
  match frames with
  | [] => Some 0
  | f :: frames' =>
      source ← frame_source f c;
      if decide (source.1.1 = []) then Some 0 else n ← count_frames c frames'; Some (n + 1)
  end.
Definition GetFrameCount (thread : PtThread) : IM Z :=
  i <-- insp ;;
  match count_frames (debugInfoCache_ i) (EnumerateFrames (in_runtime i) thread) with
  | Some totalFrames => m_ret totalFrames
  | None => broken
  end.

(** The expression is evaluated, and the answer is the stub. *)
Definition DebuggableThread_EvaluateExpression (thread : PtThread) (frameNumber : Z) (bytecode : bytes)
    : IM (Expected (RemoteObject * option RemoteObject) bytes) :=
  r <-- request_thread thread
    (upd_insp (λ i, set_runtime (RunExpression thread frameNumber bytecode (in_runtime i)) i) ;;;
     m_ret (remote (TString (str "hello world")))) ;;
  match r with
  | Some optResult => m_ret (Value (optResult, None))
  | None => broken
  end.

Definition GetNewExceptionId : IM Z :=
  i <-- insp ;; upd_insp (set_exceptionId (u64 (currentExceptionId_ i + 1))) ;;; m_ret (currentExceptionId_ i).

Definition CreateExceptionDetails (thread : PtThread) (exception : RemoteObject) : IM (option ExceptionDetails) :=
  i <-- insp ;;
  match GetCurrentFrame (in_runtime i) thread with
  | None => m_ret None
  | Some frame =>
      match frame_source frame (debugInfoCache_ i) with
      | None => broken
      | Some (sourceFile, _, lineNumber) =>
          id <-- GetNewExceptionId ;;
          m_ret (Some (mkException id [] lineNumber 0 None (Some sourceFile) (Some exception) None))
      end
  end.

Definition Inspector_Evaluate (thread : PtThread) (bytecodeBase64 : bytes) (frameNumber : Z)
    : IM (Expected EvaluationResult bytes) :=
  unless_dead (Unexpected (str "Fatal, VM is dead"))
    (i <-- insp ;;
     match find_thread thread i with
     | None => m_ret (Unexpected (str "No thread found"))
     | Some sl =>
         if negb (IsPaused sl) then m_ret (Unexpected (str "Expression evaluation can be done only on pause"))
         else
           totalFrames <-- GetFrameCount thread ;;
           if totalFrames <=? frameNumber then m_ret (Unexpected (str "Invalid frameNumber."))
           else
           let '(bytecode, ok) := Base64Decoder.Decode bytecodeBase64 in
           if negb ok then m_ret (Unexpected (str "EvaluateValue: base64 decode failed"))
           else
             optResult <-- DebuggableThread_EvaluateExpression thread (wrap 32 frameNumber) bytecode ;;
             match optResult with
             | Unexpected e => m_ret (Unexpected e)
             | Value (result, None) => m_ret (Value (mkEvaluation result None))
             | Value (result, Some exception) =>
                 details <-- CreateExceptionDetails thread exception ;;
                 m_ret (Value (mkEvaluation result details))
             end
     end).

(** *** The rest *)

Definition Inspector_Disable (thread : PtThread) : IM () :=
  unless_dead () (command_thread thread CmdReset ;;; command_thread thread CmdContinue).

(** Nothing is done for these. *)
Definition Inspector_ClientDisconnect (thread : PtThread) : IM () := m_ret ().
Definition Inspector_SetBlackboxPatterns (thread : PtThread) : IM () := m_ret ().
Definition Inspector_SmartStepInto (thread : PtThread) : IM () := m_ret ().
Definition Inspector_DropFrame (thread : PtThread) : IM () := m_ret ().
Definition Inspector_SetNativeRange (thread : PtThread) : IM () := m_ret ().

Definition Inspector_SetAsyncCallStackDepth (thread : PtThread) (maxDepth : Z) : IM () :=
  upd_insp (λ i, set_runtime (debugger_SetAsyncCallStackDepth maxDepth (in_runtime i)) i).

Definition Inspector_ReplyNativeMethodCall (thread : PtThread) (userCode : bool) : IM () :=
  (if userCode then Inspector_Continue thread else m_ret ()) ;;; upd_insp (set_waiting false).

Definition Inspector_ProfilerSetSamplingInterval (interval : Z) : IM () :=
  unless_dead () (if interval <? 0 then m_ret () else upd_insp (set_interval interval)).

Definition Inspector_ProfilerStart : IM (Expected bool bytes) :=
  unless_dead (Unexpected (str "Fatal, VM is dead"))
    (i <-- insp ;;
     if IsProfilerRunning (in_runtime i) then m_ret (Unexpected (str "Fatal, profiling operation is already running."))
     else
       let '(ok, r) := StartProfilingSession (samplingInterval_ i) (in_runtime i) in
       upd_insp (set_runtime r) ;;;
       m_ret (if ok then Value true else Unexpected (str "Fatal, profiling operation failed to start."))).

Definition Inspector_ProfilerStop : IM (Expected Profile bytes) :=
  unless_dead (Unexpected (str "Fatal, VM is dead"))
    (i <-- insp ;;
     let '(buffer, r) := StopProfilingSession (in_runtime i) in
     upd_insp (set_runtime r) ;;;
     m_ret match buffer with
           | None => Unexpected (str "Fatal, profiler inactive")
           | Some None => Unexpected (str "Fatal, profiler info is empty")
           | Some (Some infos) => Value (Some infos)
           end).

Definition Inspector_DebuggerEnable : IM () :=
  each_thread (λ t, command_thread t CmdReset) ;;;
  upd_insp (λ i, set_breakpoints (Reset (in_breakpoints i)) i).
End inspector.
