(* ===== verification/StaticHooks.v ===== *)
(** * Hooks and registered methods of the static inspector

    The rest of src/tooling/static/inspector.{h,cpp}, with
    hybrid/static_frame_provider.cpp: what happens when a thread of the program is
    suspended, the hooks of the runtime, the stack for the native debugger, and
    the table of the methods of the protocol. *)

From S2P Require Import Prelude Regex Http CppLib PtJson HybridFrames StaticBreakpoints ThreadState DebuggableThread.
From S2P Require Import StaticTypes StaticObjects StaticSessions StaticDebugInfo StaticEndpoint StaticServer StaticInspector.
Local Open Scope Z_scope.
Local Open Scope ark_scope.

(** ** Frames of the dynamic language *)

Definition ConvertUnifiedScopeType (unifiedType : UnifiedScopeType) : ScopeType :=
  match unifiedType with US_GLOBAL => SCOPE_GLOBAL | _ => SCOPE_LOCAL end.

Definition named_class (className : bytes) (name : string) : bytes := if decide (className = []) then str name else className.

Definition StaticConvertFromUnified (u : UnifiedRemoteObject) : RemoteObject :=
  match uo_type u with
  | U_UNDEFINED => remote TUndefined
  | U_NULL_VALUE => remote TNull
  | U_BOOLEAN => remote (TBool (default false (uo_booleanValue u)))
  | U_NUMBER => match uo_numberValue u with Some d => Number_double d | None => Number_int32 0 end
  | U_STRING => remote (TString (default [] (uo_stringValue u)))
  | U_OBJECT => remote (TObject (named_class (uo_className u) "Object") (uo_objectId u) (uo_description u))
  | U_FUNCTION => remote (TFunction (named_class (uo_className u) "Function") (uo_objectId u) [] 0)
  | U_ARRAY => remote (TArray (named_class (uo_className u) "Array") (uo_objectId u) 0)
  end.

Definition unified_scope (u : UnifiedScope) : Scope :=
  mkScope (ConvertUnifiedScopeType (us_type u)) (StaticConvertFromUnified (us_object u)) (us_name u).

(** [StaticFrameProvider]: the frames of the static language for the debugger of
    the dynamic one. An object goes there without its identifier and value. *)
Definition unified_type (v : TypeValue) : UnifiedType :=
  match v with
  | TUndefined => U_UNDEFINED
  | TNull => U_NULL_VALUE
  | TBool _ => U_BOOLEAN
  | TNumber _ => U_NUMBER
  | TString _ => U_STRING
  | TFunction _ _ _ _ => U_FUNCTION
  | _ => U_OBJECT
  end.
Definition ConvertToUnifiedRemoteObject (staticObj : RemoteObject) : UnifiedRemoteObject :=
  mkUnifiedRemoteObject (unified_type (value_ staticObj)) (GetClassName staticObj) None
    (match value_ staticObj with TObject c _ d => Some (GetDescription_Object c d) | _ => None end) None None None.

Section hooks.
Context `{StringHelpers} `{CastOob} `{SignedOverflow} `{JsonText} `{Process} `{Files}.
Context `{LE : LangExt} `{!LangEnum} `{!Registers} `{TH : Threads} `{DI : !DebugInterface}.

Abbreviation IM := (M (server_state inspector)).

Definition StaticFrameProvider_ExtractFrameInfo (framePtr : option PtFrame) (info : UnifiedFrameInfo)
    : IM (bool * UnifiedFrameInfo) :=
  let no_info := (false, set_frame_flags (uf_isStaticFrame info) false info) in
  match framePtr with
  | None => m_ret no_info
  | Some frame =>
      i <-- insp ;;
      match frame_source frame (debugInfoCache_ i) with
      | None => broken
      | Some ([], _, _) => m_ret no_info
      | Some (sourceFile, methodName, lineNumber) =>
          made <-- in_fresh (λ h, CreateFrameObject h (fr_frameId frame) (GetLocals frame (debugInfoCache_ i))) ;;
          let scope type object := mkUnifiedScope type (ConvertToUnifiedRemoteObject object) None in
          m_ret (true, mkUnifiedFrameInfo methodName sourceFile lineNumber 0 true true
            (uf_scopeChain info ++ [scope US_LOCAL made.1; scope US_GLOBAL CreateGlobalObject])
            (match made.2 with Some this => Some (ConvertToUnifiedRemoteObject this) | None => uf_thisObject info end)
            (uf_returnValue info))
      end
  end.

(** ** A suspended thread *)

Definition method_file (m : Method) : bytes := match m_file m with Some f => pf_filename f | None => [] end.

(** The next frame id, and what the handler made of the frame. *)
Definition ProcessStaticFrame (thread : PtThread) (handler : frame_shown → IM jout) (frame : PtFrame) (frameId : Z)
    : IM (Z * list jout) :=
  match fr_method frame with
  | None => m_ret (frameId, [])
  | Some method =>
      i <-- insp ;;
      match frame_source frame (debugInfoCache_ i) with
      | None => broken
      | Some ([], _, _) => m_ret (frameId, [])
      | Some (sourceFile, methodName, lineNumber) =>
          made <-- in_repo thread (λ h, CreateFrameObject h (fr_frameId frame) (GetLocals frame (debugInfoCache_ i))) ;;
          j <-- handler (mkFrameShown frameId methodName sourceFile (method_file method) lineNumber
                           [mkScope SCOPE_LOCAL made.1 None; mkScope SCOPE_GLOBAL CreateGlobalObject None] made.2 true) ;;
          m_ret (wrap 32 (frameId + 1), [j])
      end
  end.

Definition ProcessDynamicFrame (handler : frame_shown → IM jout) (frame : DynamicFrame) (frameId : Z) : IM (Z * list jout) :=
  i <-- insp ;;
  let '(ok, frameInfo) := FrameInfoExtractor.ExtractDynamicFrameInfo (GetEcmaVM (in_runtime i)) frame
                            UnifiedFrameInfo_new (frame_providers (in_runtime i)) in
  if negb ok || negb (uf_hasInfo frameInfo) then m_ret (frameId, [])
  else
    j <-- handler (mkFrameShown frameId (uf_methodName frameInfo) (uf_sourceFile frameInfo) []
                     (int32_add (uf_lineNumber frameInfo) 1) (unified_scope <$> uf_scopeChain frameInfo)
                     (StaticConvertFromUnified <$> uf_thisObject frameInfo) false) ;;
    m_ret (wrap 32 (frameId + 1), [j]).

Fixpoint frames_loop {F} (process : F → Z → IM (Z * list jout)) (frames : list F) (frameId : Z) : IM (list jout) :=
  match frames with
  | [] => m_ret []
  | f :: frames' =>
      r <-- process f frameId ;;
      rest <-- frames_loop process frames' r.1 ;;
      m_ret (r.2 ++ rest)
  end.

Definition EnumerateStaticFrames (thread : PtThread) (handler : frame_shown → IM jout) : IM (list jout) :=
  i <-- insp ;; frames_loop (ProcessStaticFrame thread handler) (EnumerateFrames (in_runtime i) thread) 0.
Definition EnumerateHybridFrames (thread : PtThread) (handler : frame_shown → IM jout) : IM (list jout) :=
  i <-- insp ;;
  frames_loop (λ f, match f with
                    | inl frame => ProcessStaticFrame thread handler frame
                    | inr frame => ProcessDynamicFrame handler frame
                    end) (UnionStack (in_runtime i)) 0.

Definition PauseOtherThreads (thread : PtThread) : IM () :=
  each_thread (λ t, if GetId t =? GetId thread then m_ret () else command_thread t CmdPause).

Definition DebuggableThreadPostSuspend (thread : PtThread) (hitBreakpoints : list Z) (exception : option ObjectHeader)
    (pauseReason : PauseReason) : IM () :=
  exceptionRemoteObject <--
    match exception with
    | Some e => o <-- in_repo thread (λ h, CreateObject h (TvReference (Some e))) ;; m_ret (Some o)
    | None => m_ret None
    end ;;
  i <-- insp ;;
  let resolveAsyncFrame f := GetAsyncFrameSourceLocation (av_pandaFile f) (av_methodId f) (av_offset f) (debugInfoCache_ i) in
  asyncStackTrace <--
    match CurrentAsyncStack (in_runtime i) with
    | None => m_ret None
    | Some segments => CreateAsyncStackTrace segments resolveAsyncFrame
    end ;;
  CallDebuggerPaused thread hitBreakpoints exceptionRemoteObject pauseReason
    (match UnionStack (in_runtime i) with [] => EnumerateStaticFrames thread | _ => EnumerateHybridFrames thread end)
    asyncStackTrace ;;;
  match hitBreakpoints with [] => m_ret () | _ => PauseOtherThreads thread end.

(** [Suspend] up to the wait, when a transition has brought the thread into it:
    a new repository, and the client is told. *)
Definition post_suspend (thread : PtThread) : IM () :=
  i <-- insp ;;
  match find_thread thread i with
  | Some sl =>
      if bool_decide (app (sl_thread sl) = InSuspend) then
        with_slot thread (slot_repository repository_init) ;;;
        let reason := pauseReason_ (state_ (sl_thread sl)) in
        match sl_cause sl with
        | AtStep location =>
            DebuggableThreadPostSuspend thread (GetBreakpointsByLocation (in_breakpoints i) location) None reason
        | AtException => DebuggableThreadPostSuspend thread [] (GetException (in_runtime i) thread) reason
        end
      else m_ret ()
  | None => m_ret ()
  end.

(** A thread that was resumed goes on; one that is still paused is suspended
    again. *)
Definition woken_up (thread : PtThread) : IM () := thread_do thread WakeUp ;;; post_suspend thread.

(** ** Hooks *)

Definition Hook_ConsoleCall (thread : PtThread) (type : ConsoleCallType) (timestamp : Z) (arguments : list TypedValue) : IM () :=
  t <-- GetDebuggableThread thread ;;
  match t with
  | None => m_ret ()
  | Some _ =>
      objects <-- in_fresh (λ h, m_map (CreateObject h) arguments) ;;
      CallRuntimeConsoleApiCalled thread type timestamp objects
  end.

Definition INVALID_OFFSET : Z := 2 ^ 32 - 1.

Definition Hook_Exception (thread : PtThread) (catchOffset : Z) : IM () :=
  t <-- GetDebuggableThread thread ;;
  match t with
  | None => m_ret ()
  | Some _ =>
      with_slot thread (slot_cause AtException) ;;;
      thread_do thread (NotifyException (catchOffset =? INVALID_OFFSET)) ;;;
      post_suspend thread
  end.

Definition Hook_FramePop (thread : PtThread) : IM () := thread_do thread NotifyFramePop.

(** The first method of a file that is entered makes its thread stop. *)
Definition Hook_MethodEntry (thread : PtThread) (method : Method) : IM () :=
  i <-- insp ;;
  if StackIsCFrame (in_runtime i) thread then m_ret ()
  else
    match find_thread thread i with
    | None => m_ret ()
    | Some _ =>
        match GetUserSourceFile method (debugInfoCache_ i) with
        | Some file =>
            match sourceFiles_ i !! c_str file with
            | None =>
                upd_insp (λ i, set_sourceFiles (<[c_str file := true]> (sourceFiles_ i)) i) ;;;
                command_thread thread CmdBreakOnStart
            | Some _ => m_ret ()
            end
        | None => m_ret ()
        end ;;;
        t <-- GetDebuggableThread thread ;;
        thread_do thread NotifyMethodEntry ;;;
        match t with
        | Some sl =>
            if (OnMethodEntry (state_ (sl_thread sl))).1
            then upd_insp (λ i, set_runtime (NotifyFramePop_hook thread 0 (in_runtime i)) i)
            else m_ret ()
        | None => m_ret ()
        end
    end.

Definition Hook_LoadModule (fileName : bytes) : IM () :=
  upd_insp (λ i,
    set_cache (foldl (λ c file, if decide (pf_filename file = fileName) then AddPandaFile file true c else c)
                 (debugInfoCache_ i) (EnumeratePandaFiles (negb (bool_decide (fileName = []))) (in_runtime i))) i).

(** Whether a text is a part of another. *)
Fixpoint contains (needle text : bytes) : bool :=
  bool_decide (needle `prefix_of` text) || match text with [] => false | _ :: text' => contains needle text' end.

Definition NeedSkippedForSingleStep (method : Method) : bool :=
  let methodName := c_str (m_name method) in
  let className := c_str (m_className method) in
  (bool_decide (methodName = str "<cctor>") && contains (str "ETSGLOBAL") className)
  || (bool_decide (methodName = str "<ctor>") && contains (str "__EntryWrapper") className)
  || (bool_decide (methodName = str "<ctor>") && contains (str "lambda-lambda_invoke") className).

(** What [DebuggableThread::OnSingleStep] does; a breakpoint of the location that
    is not in the table would be dereferenced. *)
Definition step_thread (thread : PtThread) (location : PtLocation) : IM () :=
  i <-- insp ;;
  match ShouldStopAtBreakpoint (H := ConditionValue (in_runtime i) thread) (in_breakpoints i) location with
  | None => broken
  | Some bp =>
      with_slot thread (slot_cause (AtStep location)) ;;;
      thread_do thread (NotifySingleStep bp location) ;;;
      post_suspend thread
  end.

Definition Hook_SingleStep (thread : PtThread) (method : Method) (location : PtLocation) : IM () :=
  i <-- insp ;;
  match GetUserSourceFile method (debugInfoCache_ i) with
  | None => m_ret ()
  | Some sourceFile =>
      let file := c_str sourceFile in
      if decide (file = str "etsstdlib.ets") then m_ret ()
      else
        match sourceFiles_ i !! file with
        | None => m_ret ()
        | Some breakOnStart =>
            if negb breakOnStart && NeedSkippedForSingleStep method then m_ret ()
            else
              (if breakOnStart then upd_insp (set_sourceFiles (<[file := false]> (sourceFiles_ i))) else m_ret ()) ;;;
              t <-- GetDebuggableThread thread ;;
              match t with None => m_ret () | Some _ => step_thread thread location end
        end
  end.

(** A thread is not started twice. *)
Definition Hook_ThreadStart (thread : PtThread) : IM () :=
  (if decide (thread = PtThread_NONE) then m_ret true else CallTargetAttachedToTarget thread) ;;;
  upd_insp (λ i, set_threads
    (insert_thread thread (mkSlot dthread_init repository_init None AtException) (threads_ i)) i).

Definition Hook_ThreadEnd (thread : PtThread) : IM () :=
  (if decide (thread = PtThread_NONE) then m_ret () else CallTargetDetachedFromTarget thread) ;;;
  upd_insp (λ i, set_threads (filter (λ p, p.1 ≠ thread) (threads_ i)) i).

Definition Hook_VmDeath : IM () := upd_insp set_dead ;;; CallRuntimeExecutionContextsCleared.

(** The event of a native call, which holds no lock when it is over; whether the
    thread goes on to wait. *)
Definition Hook_NativeMethodCall (thread : PtThread) (nativeAddress : Z) : IM bool :=
  i <-- insp ;;
  if negb (mixedDebugEnabled_ i) then m_ret false
  else
    match find_thread thread i with
    | None => m_ret false
    | Some sl =>
        if negb (IsStepInto sl) then m_ret false
        else SendNativeMethodCallEvent thread nativeAddress true ;;; m_ret true
    end.

(** Behind the event the thread sets the flag, and waits until it is reset by
    [ReplyNativeMethodCall]. The client may have replied already. *)
Definition NativeMethodCall_wait : IM () := upd_insp (set_waiting true) ;;; blocked.

(** ** The stack for the native debugger *)

(** A size and a text; [None] is the response without one. *)
Definition DebugResponse : Type := option (Z * bytes).
Definition SECUREC_STRING_MAX_LEN : Z := 2 ^ 31 - 1.

(** The size is that of the text, what is copied ends at its first NUL. There is
    memory enough. *)
Definition AllocateResponse (json : bytes) : DebugResponse :=
  let size := Z.of_nat (length json) in
  if (size =? 0) || (SECUREC_STRING_MAX_LEN <? size + 1) then None else Some (size, c_str json).

Definition on_cached_repo {A} (thread : PtThread) (f : heap → M ObjectRepository A) : IM A :=
  r <-- on_cached thread f ;; match r with Some a => m_ret a | None => broken end.

(** The empty text for a frame without a source. The script id is given to the
    file whether or not it has been announced. *)
Definition BuildCallFrameJson (thread : PtThread) (frame : PtFrame) (frameIndex : Z) : IM bytes :=
  match fr_method frame with
  | None => m_ret []
  | Some method =>
      i <-- insp ;;
      match frame_source frame (debugInfoCache_ i) with
      | None => broken
      | Some ([], _, _) => m_ret []
      | Some (sourceFile, methodName, lineNumber) =>
          r <-- script_id sourceFile (method_file method) ;;
          made <-- on_cached_repo thread (λ h, CreateFrameObject h (fr_frameId frame) (GetLocals frame (debugInfoCache_ i))) ;;
          let scope type object := OutObj [("type", OutStr (str type)); ("object", remote_json object)] in
          m_ret (Build
            [("callFrameId", OutStr (to_string frameIndex)); ("functionName", OutStr methodName);
             ("location", OutObj [("scriptId", OutStr (to_string r.1)); ("lineNumber", OutStr (to_string lineNumber));
                                  ("columnNumber", OutStr (str "0"))]);
             ("url", OutStr sourceFile);
             ("scopeChain", OutArr [scope "local"%string made.1; scope "global"%string CreateGlobalObject]);
             ("this", remote_json (default (remote TUndefined) made.2))])
      end
  end.

(** The texts of the frames and the addresses of native methods. *)
Fixpoint collect_frames (thread : PtThread) (frames : list PtFrame) (frameIndex : Z) : IM (list bytes * list bytes) :=
  match frames with
  | [] => m_ret ([], [])
  | frame :: frames' =>
      match fr_method frame with
      | None => collect_frames thread frames' frameIndex
      | Some method =>
          match m_nativePointer method with
          | Some address =>
              rest <-- collect_frames thread frames' frameIndex ;; m_ret (rest.1, to_string address :: rest.2)
          | None =>
              callFrame <-- BuildCallFrameJson thread frame frameIndex ;;
              match callFrame with
              | [] => collect_frames thread frames' frameIndex
              | _ =>
                  rest <-- collect_frames thread frames' (wrap 32 (frameIndex + 1)) ;;
                  m_ret (callFrame :: rest.1, str "0" :: rest.2)
              end
          end
      end
  end.

Fixpoint comma_separated (l : list bytes) : bytes :=
  match l with [] => [] | [a] => a | a :: l' => a ++ str "," ++ comma_separated l' end.

Definition CollectStaticCallFrames (thread : PtThread) : IM (bytes * bytes) :=
  i <-- insp ;;
  r <-- collect_frames thread (EnumerateFrames (in_runtime i) thread) 0 ;;
  m_ret (comma_separated r.1, comma_separated r.2).

(** A quotation mark. *)
Definition quote : bytes := [34].
Definition quoted (s : string) : bytes := quote ++ str s ++ quote.

(** [current] is the thread of the caller. *)
Definition GetStaticCallFrames (current : option PtThread) : IM DebugResponse :=
  match current with
  | None => m_ret None
  | Some thread =>
      t <-- GetDebuggableThread thread ;;
      match t with
      | None => m_ret None
      | Some _ =>
          with_slot thread (slot_cached (Some repository_init)) ;;;
          frames <-- CollectStaticCallFrames thread ;;
          sessionId <-- session_of thread ;;
          m_ret (AllocateResponse
            (str "{" ++ quoted "method" ++ str ":" ++ quoted "Debugger.mixedStack" ++ str "," ++ quoted "params"
             ++ str ":{" ++ quoted "sessionId" ++ str ":" ++ quote ++ sessionId ++ quote ++ str ","
             ++ quoted "nativePointer" ++ str ":[" ++ frames.2 ++ str "]," ++ quoted "callFrames" ++ str ":["
             ++ frames.1 ++ str "]}}"))
      end
  end.

(** ** The methods of the protocol *)

(** [RegisterMethodHandlers]; Target.attachToTarget is registered by the server. *)
Definition method_table : list (string * (bytes → JsonObject → IM MethodResponse)) :=
  [("Target.attachToTarget", OnCallTargetAttachToTarget);
   ("Debugger.continueToLocation", OnCallDebuggerContinueToLocation Inspector_ContinueToLocation);
   ("Debugger.enable", OnCallDebuggerEnable Inspector_DebuggerEnable);
   ("Debugger.getPossibleBreakpoints", OnCallDebuggerGetPossibleBreakpoints Inspector_GetPossibleBreakpoints);
   ("Debugger.getScriptSource", OnCallDebuggerGetScriptSource Inspector_GetSourceCode);
   ("Debugger.pause", OnCallDebuggerPause Inspector_Pause);
   ("Debugger.removeBreakpoint", OnCallDebuggerRemoveBreakpoint Inspector_RemoveBreakpoint);
   ("Debugger.removeBreakpointsByUrl", OnCallDebuggerRemoveBreakpointsByUrl Inspector_RemoveBreakpointsByUrl);
   ("Debugger.restartFrame", OnCallDebuggerRestartFrame Inspector_RestartFrame);
   ("Debugger.resume", OnCallDebuggerResume Inspector_Continue);
   ("Debugger.setAsyncCallStackDepth", OnCallDebuggerSetAsyncCallStackDepth Inspector_SetAsyncCallStackDepth);
   ("Debugger.setBlackboxPatterns", OnCallDebuggerSetBlackboxPatterns Inspector_SetBlackboxPatterns);
   ("Debugger.smartStepInto", OnCallDebuggerSmartStepInto Inspector_SmartStepInto);
   ("Debugger.setBreakpoint", OnCallDebuggerSetBreakpoint Inspector_SetBreakpoint);
   ("Debugger.setBreakpointByUrl", OnCallDebuggerSetBreakpointByUrl Inspector_SetBreakpoint);
   ("Debugger.getPossibleAndSetBreakpointByUrl", OnCallDebuggerGetPossibleAndSetBreakpointByUrl Inspector_SetBreakpoint);
   ("Debugger.setBreakpointsActive", OnCallDebuggerSetBreakpointsActive Inspector_SetBreakpointsActive);
   ("Debugger.setSkipAllPauses", OnCallDebuggerSetSkipAllPauses Inspector_SetSkipAllPauses);
   ("Debugger.setPauseOnExceptions", OnCallDebuggerSetPauseOnExceptions Inspector_SetPauseOnExceptions);
   ("Debugger.stepInto", OnCallDebuggerStepInto Inspector_StepInto);
   ("Debugger.stepOut", OnCallDebuggerStepOut Inspector_StepOut);
   ("Debugger.stepOver", OnCallDebuggerStepOver Inspector_StepOver);
   ("Debugger.evaluateOnCallFrame", OnCallDebuggerEvaluateOnCallFrame Inspector_Evaluate);
   ("Debugger.disable", OnCallDebuggerDisable Inspector_Disable);
   ("Debugger.clientDisconnect", OnCallDebuggerClientDisconnect Inspector_ClientDisconnect);
   ("Debugger.dropFrame", OnCallDebuggerDropFrame Inspector_DropFrame);
   ("Debugger.setNativeRange", OnCallDebuggerSetNativeRange Inspector_SetNativeRange);
   ("Debugger.replyNativeCalling", OnCallDebuggerReplyNativeMethodCall Inspector_ReplyNativeMethodCall);
   ("Debugger.callFunctionOn", OnCallDebuggerCallFunctionOn Inspector_Evaluate);
   ("Debugger.setMixedDebugEnabled", OnCallDebuggerSetMixedDebugEnabled Inspector_SetMixedDebugEnabled);
   ("Runtime.enable", OnCallRuntimeEnable Inspector_RuntimeEnable);
   ("Runtime.getProperties", OnCallRuntimeGetProperties Inspector_GetProperties);
   ("Runtime.runIfWaitingForDebugger", OnCallRuntimeRunIfWaitingForDebugger Inspector_RunIfWaitingForDebugger);
   ("Runtime.evaluate", OnCallRuntimeEvaluate (λ thread expression, Inspector_Evaluate thread expression 0));
   ("Profiler.enable", OnCallProfilerEnable);
   ("Profiler.disable", OnCallProfilerDisable);
   ("Profiler.setSamplingInterval", OnCallProfilerSetSamplingInterval Inspector_ProfilerSetSamplingInterval);
   ("Profiler.start", OnCallProfilerStart Inspector_ProfilerStart);
   ("Profiler.stop", OnCallProfilerStop Inspector_ProfilerStop)].

Definition methodHandlers_ (method : bytes) : option (bytes → JsonObject → IM MethodResponse) :=
  snd <$> (snd <$> list_find (λ p : string * (bytes → JsonObject → IM MethodResponse), str p.1 = method) method_table).

(** What the server does with a message of the client. *)
Definition Inspector_Run (msg : bytes) : IM () := HandleMessage methodHandlers_ msg.

Definition OperateJsDebugMessageForStatic (accepts : bool) (message : option bytes) : IM DebugResponse :=
  match message with
  | None => m_ret None
  | Some message =>
      response <-- RunSync accepts methodHandlers_ (c_str message) ;;
      m_ret (if decide (response = []) then None else AllocateResponse response)
  end.
End hooks.
