(* ===== verification/StaticInvariant.v ===== *)
(** * What keeps the static inspector going

    The invariant of the server with its inspector, and a small program logic for
    it: [safe m] says that [m] returns from every state that satisfies the
    invariant, re-establishes it, sends nothing but events and leaves the runtime,
    the debug information and the set of threads as they are, the threads suspended
    or not as they were; [runs m] leaves out the last part. Both may assume a
    condition on the runtime, the debug information and the set of threads. *)

From S2P Require Import Prelude Regex Http CppLib PtJson HybridFrames StaticBreakpoints ThreadState DebuggableThread.
From S2P Require Import StaticTypes StaticObjects StaticSessions StaticDebugInfo StaticEndpoint StaticServer StaticInspector.
From S2P Require Import StaticHooks.
Local Open Scope Z_scope.
Local Open Scope ark_scope.

(** The entries of the multimap lead to breakpoints. *)
Definition entries_known (b : BreakpointStorage) : Prop :=
  ∀ loc id, (loc, id) ∈ breakpointLocations_ b → is_Some (breakpointStorage_ b !! id).

Lemma SetBreakpoint_known f line cond locs b : entries_known b → entries_known (SetBreakpoint f line cond locs b).2.
Proof.
  intros Hb. unfold SetBreakpoint. set (bbp := match cond with None => _ | Some _ => _ end).
  destruct (SetLocations _ bbp locs (breakpointLocations_ b)) as [[ok b'] mm] eqn:E.
  apply SetLocations_wf in E as (_ & [_ He] & Hno); [|by destruct cond]. destruct ok; simpl.
  - intros loc id Hin. apply lookup_insert_is_Some'. simpl in Hin. destruct (He _ Hin) as [Hin'|Hid]; [right; by eapply Hb|].
    by left.
  - intros loc id. simpl. rewrite Hno by done. apply Hb.
Qed.

Lemma RemoveBreakpoint_known id b : entries_known b → entries_known (RemoveBreakpoint id b).
Proof.
  intros Hb loc id' Hin. simpl in *. apply list_elem_of_filter in Hin as [Hne Hin]. simpl in Hne.
  rewrite lookup_delete_ne by done. by eapply Hb.
Qed.

Lemma RemoveBreakpoints_known f b : entries_known b → entries_known (RemoveBreakpoints f b).
Proof.
  unfold RemoveBreakpoints. generalize (snd <$> filter (λ p, f p.1 = true) (breakpointLocations_ b)). intros l. revert b.
  induction l as [|id l IH]; intros b Hb; [done|]. simpl. by apply IH, RemoveBreakpoint_known.
Qed.

Lemma entries_stop `{EvaluationEngine} b loc : entries_known b → is_Some (ShouldStopAtBreakpoint b loc).
Proof.
  intros Hb. unfold ShouldStopAtBreakpoint. destruct (breakpointsActive_ b); simpl; [|done].
  assert (Hall : ∀ id, id ∈ GetBreakpointsByLocation b loc → is_Some (breakpointStorage_ b !! id)).
  { intros id ([l id']&->&[_ Hin]%list_elem_of_filter)%list_elem_of_fmap. by eapply Hb. }
  induction (GetBreakpointsByLocation b loc) as [|id ids IH]; [done|]. simpl.
  destruct (Hall id) as [bp ->]; [set_solver|]. destruct (ShouldStopAt bp loc); [done|]. apply IH. set_solver.
Qed.

Section invariant.
Context `{StringHelpers} `{CastOob} `{SignedOverflow} `{JsonText} `{Process} `{Files}.
Context `{LE : LangExt} `{!LangEnum} `{!Registers} `{TH : Threads} `{DI : !DebugInterface}.

Abbreviation IM := (M (server_state inspector)).

(** ** The invariant *)

(** The server does not wait for a thread between two steps. *)
Record slot_wf (sl : thread_slot) : Prop := {
  sl_inv : dt_inv (sl_thread sl);
  sl_idle : server (sl_thread sl) = Idle;
  sl_repository_wf : repository_wf (sl_repository sl);
  sl_cached_wf r : objectRepository_ sl = Some r → repository_wf r }.

Record inspector_wf (i : inspector) : Prop := {
  iw_nodup : NoDup (threads_ i).*1;
  iw_slots t sl : (t, sl) ∈ threads_ i → slot_wf sl;
  iw_entries : entries_known (in_breakpoints i) }.

Definition scripts_announced (out : list fields) (m : SourceManager) : Prop :=
  ∀ id key, idToScript_ m !! id = Some key →
    event_message [] "Debugger.scriptParsed" (scriptParsed_params id key.1) ∈ out.

(** What an event tells about the targets: one is attached, or detached. *)
Definition target_of (message : fields) : option (bool * bytes) :=
  match message with
  | (_, OutStr method) :: (_, OutObj ((_, OutStr id) :: _)) :: _ =>
      if decide (method = str "Target.attachedToTarget") then Some (true, id)
      else if decide (method = str "Target.detachedFromTarget") then Some (false, id)
      else None
  | _ => None
  end.

(** The targets a client knows of that has seen the messages. *)
Definition see_target (targets : gset bytes) (message : fields) : gset bytes :=
  match target_of message with
  | Some (true, id) => {[id]} ∪ targets
  | Some (false, id) => targets ∖ {[id]}
  | None => targets
  end.
Definition client_targets (out : list fields) : gset bytes := foldl see_target ∅ out.

Record server_wf (s : server_state inspector) : Prop := {
  sv_async : syncMode_ (sv_endpoint s) = false;
  sv_connected : connected_ (sv_endpoint s) = true;
  sv_targets : client_targets (outbox (sv_endpoint s)) = dom (sessionManager_ s) ∖ {[ [] ]};
  sv_sources : sources_wf (sourceManager_ s);
  sv_announced : scripts_announced (outbox (sv_endpoint s)) (sourceManager_ s);
  sv_inspector_wf : inspector_wf (sv_inspector s) }.

Definition quiet (s s' : server_state inspector) : Prop :=
  ∃ l r, Forall is_event l ∧ sv_endpoint s' = sent (sv_endpoint s) l r.

#[export] Instance quiet_preorder : PreOrder quiet.
Proof.
  split.
  - intros s. exists [], (running_ (sv_endpoint s)). split; [constructor|]. unfold sent. rewrite app_nil_r.
    by destruct (sv_endpoint s).
  - intros s1 s2 s3 (l1&r1&Hl1&E1) (l2&r2&Hl2&E2). exists (l1 ++ l2), r2. split; [by apply Forall_app|].
    rewrite E2, E1. unfold sent. simpl. by rewrite app_assoc.
Qed.

(** A step that returns at once. *)
Lemma returns_here {A} (a : A) s : server_wf s → ∃ a' s', Ret a s = Ret a' s' ∧ server_wf s' ∧ quiet s s'.
Proof. intros Hs. by exists a, s. Qed.

(** The runtime, the debug information and the threads there are. *)
Record world_view := mkWorld { w_runtime : runtime; w_cache : DebugInfoCache; w_threads : list PtThread }.
Definition world_of (i : inspector) : world_view := mkWorld (in_runtime i) (debugInfoCache_ i) (threads_ i).*1.
Definition world (s : server_state inspector) : world_view := world_of (sv_inspector s).

(** Where the threads are. *)
Definition status_of (i : inspector) : list (PtThread * (bool * app_pc)) :=
  (λ p : PtThread * thread_slot, (p.1, (suspended_ (sl_thread p.2), app (sl_thread p.2)))) <$> threads_ i.
Definition status (s : server_state inspector) : list (PtThread * (bool * app_pc)) := status_of (sv_inspector s).

Definition condition : Type := world_view → Prop.
Definition anywhere : condition := λ _, True.

Definition safe (C : condition) {A} (m : IM A) : Prop := ∀ s, server_wf s → C (world s) →
  ∃ a s', m s = Ret a s' ∧ server_wf s' ∧ quiet s s' ∧ world s' = world s ∧ status s' = status s.
Definition runs (C : condition) {A} (m : IM A) : Prop := ∀ s, server_wf s → C (world s) →
  ∃ a s', m s = Ret a s' ∧ server_wf s' ∧ quiet s s'.

(** ** Rules *)

Lemma safe_runs C {A} (m : IM A) : safe C m → runs C m.
Proof. intros Hm s Hs HC. destruct (Hm s Hs HC) as (a&s'&?&?&?&_). by exists a, s'. Qed.

Lemma safe_weaken (C D : condition) {A} (m : IM A) : safe D m → (∀ w, C w → D w) → safe C m.
Proof. intros Hm Hw s Hs HC. by apply Hm, Hw. Qed.

Lemma safe_ret C {A} (a : A) : safe C (m_ret a).
Proof. intros s Hs HC. by exists a, s. Qed.

Lemma safe_bind C {A B} (m : IM A) (k : A → IM B) : safe C m → (∀ a, safe C (k a)) → safe C (m_bind k m).
Proof.
  intros Hm Hk s Hs HC. destruct (Hm s Hs HC) as (a&s1&E1&Hs1&Hq1&Hw1&Ht1).
  destruct (Hk a s1 Hs1) as (b&s2&E2&Hs2&Hq2&Hw2&Ht2); [by rewrite Hw1|]. exists b, s2.
  rewrite (m_bind_ret _ _ _ _ _ E1). split_and!; [done|done|by etrans|congruence|congruence].
Qed.

Lemma runs_bind C {A B} (m : IM A) (k : A → IM B) : safe C m → (∀ a, runs C (k a)) → runs C (m_bind k m).
Proof.
  intros Hm Hk s Hs HC. destruct (Hm s Hs HC) as (a&s1&E1&Hs1&Hq1&Hw1&_).
  destruct (Hk a s1 Hs1) as (b&s2&E2&Hs2&Hq2); [by rewrite Hw1|]. exists b, s2.
  rewrite (m_bind_ret _ _ _ _ _ E1). split_and!; [done|done|by etrans].
Qed.

Lemma runs_bind_after C {A B} (m : IM A) (k : A → IM B) : runs C m → (∀ a, runs anywhere (k a)) → runs C (m_bind k m).
Proof.
  intros Hm Hk s Hs HC. destruct (Hm s Hs HC) as (a&s1&E1&Hs1&Hq1).
  destruct (Hk a s1 Hs1 I) as (b&s2&E2&Hs2&Hq2). exists b, s2.
  rewrite (m_bind_ret _ _ _ _ _ E1). split_and!; [done|done|by etrans].
Qed.

Lemma safe_get C {A} (k : server_state inspector → IM A) : (∀ s, server_wf s → C (world s) → safe C (k s)) →
  safe C (m_bind k m_get).
Proof. intros Hk s Hs HC. by apply (Hk s). Qed.

Lemma safe_insp C {A} (k : inspector → IM A) :
  (∀ i, inspector_wf i → C (world_of i) → safe C (k i)) → safe C (m_bind k insp).
Proof. intros Hk s Hs HC. apply (Hk (sv_inspector s)); [apply Hs|done|done|done]. Qed.

Lemma runs_insp C {A} (k : inspector → IM A) :
  (∀ i, inspector_wf i → C (world_of i) → runs C (k i)) → runs C (m_bind k insp).
Proof. intros Hk s Hs HC. apply (Hk (sv_inspector s)); [apply Hs|done|done|done]. Qed.

Lemma insp_ret s : insp s = Ret (sv_inspector s) s.
Proof. done. Qed.
Lemma get_thread_ret thread s : GetDebuggableThread thread s = Ret (find_thread thread (sv_inspector s)) s.
Proof. done. Qed.

(** Conditions one world at a time. *)
Definition at_world (w : world_view) : condition := λ w', w' = w.

Lemma safe_at C {A} (m : IM A) : (∀ w, C w → safe (at_world w) m) → safe C m.
Proof. intros Hm s Hs HC. by apply (Hm (world s)). Qed.

(** *** Changes of the inspector *)

Lemma put_inspector_wf s i : server_wf s → inspector_wf i →
  server_wf (mkServer (sv_endpoint s) (sessionManager_ s) (sourceManager_ s) i).
Proof. intros [] Hi. by split. Qed.

Lemma put_inspector_quiet s i : quiet s (mkServer (sv_endpoint s) (sessionManager_ s) (sourceManager_ s) i).
Proof. exact (reflexivity (R := quiet) s). Qed.

Lemma safe_upd C f : (∀ i, inspector_wf i → inspector_wf (f i) ∧ world_of (f i) = world_of i ∧ status_of (f i) = status_of i) →
  safe C (upd_insp f).
Proof.
  intros Hf s Hs HC. destruct (Hf (sv_inspector s)) as (Hi&Hw&Ht); [apply Hs|]. eexists _, _. split; [done|].
  split; [by apply put_inspector_wf|]. split; [apply put_inspector_quiet|done].
Qed.

Lemma runs_upd C f : (∀ i, inspector_wf i → inspector_wf (f i)) → runs C (upd_insp f).
Proof.
  intros Hf s Hs HC. eexists _, _. split; [done|].
  split; [apply put_inspector_wf, Hf; [done|apply Hs]|apply put_inspector_quiet].
Qed.

Lemma threads_wf (i j : inspector) : threads_ j = threads_ i → in_breakpoints j = in_breakpoints i →
  inspector_wf i → inspector_wf j.
Proof. intros Ht Hb [Hn Hs He]. split; [by rewrite Ht| |by rewrite Hb]. intros t sl. rewrite Ht. apply Hs. Qed.

(** *** Messages *)

Lemma announced_more out l m : scripts_announced out m → scripts_announced (out ++ l) m.
Proof. intros Ha id key Hk. apply elem_of_app. left. by apply Ha. Qed.

Lemma client_targets_app out message : client_targets (out ++ [message]) = see_target (client_targets out) message.
Proof. unfold client_targets. by rewrite foldl_app. Qed.

Lemma see_nothing targets message : target_of message = None → see_target targets message = targets.
Proof. unfold see_target. by intros ->. Qed.

Lemma send_wf s message r : target_of message = None → server_wf s →
  server_wf (set_ep (sent (sv_endpoint s) [message] r) s).
Proof.
  intros Hm [Ha Hc Ht Hs Hn Hi]. split; simpl; [done|done| |done|by apply announced_more|done].
  by rewrite client_targets_app, see_nothing.
Qed.

Lemma safe_send C message : target_of message = None → is_event message → safe C (SendMessage message).
Proof.
  intros Hm He s Hs HC. exists (), (set_ep (sent (sv_endpoint s) [message] (running_ (sv_endpoint s))) s).
  split; [|split; [by apply send_wf|split; [|done]]].
  - unfold SendMessage, m_bind, m_get. simpl. rewrite (sv_async _ Hs), (sv_connected _ Hs). done.
  - exists [message], (running_ (sv_endpoint s)). split; [by repeat constructor|done].
Qed.

(** The events that are not about targets. *)
Definition plain_event (method : string) : bool :=
  negb (bool_decide (str method = str "Target.attachedToTarget")) && negb (bool_decide (str method = str "Target.detachedFromTarget")).

Lemma plain_event_target sessionId method ps : plain_event method = true → target_of (event_message sessionId method ps) = None.
Proof.
  unfold plain_event. intros [Hat%negb_true_iff%bool_decide_eq_false Hdt%negb_true_iff%bool_decide_eq_false]%andb_true_iff.
  simpl. destruct ps as [|[k []] ps]; try done. by rewrite !decide_False.
Qed.

Lemma safe_Call C sessionId method params : plain_event method = true → safe C params → safe C (Call sessionId method params).
Proof.
  intros Hm Hp. unfold Call. apply safe_get. intros s Hs _. simpl. rewrite (sv_async _ Hs).
  apply safe_bind; [done|]. intros ps. apply safe_send; [by apply plain_event_target|apply is_event_message].
Qed.

Lemma safe_Kill C : safe C Kill.
Proof.
  intros s Hs HC. eexists _, _. split; [done|]. destruct Hs as [Ha Hc Ht Hsr Hn Hi]. split; [by split|].
  split; [|done]. exists [], false. split; [constructor|]. simpl. unfold sent. by rewrite app_nil_r.
Qed.

Lemma safe_session_of C thread : safe C (session_of thread).
Proof. apply safe_get. intros s _ _. apply safe_ret. Qed.
Lemma safe_thread_of C sessionId : safe C (thread_of sessionId).
Proof. apply safe_get. intros s _ _. apply safe_ret. Qed.
Lemma safe_script_of C id : safe C (script_of id).
Proof. apply safe_get. intros s _ _. apply safe_ret. Qed.
Lemma safe_GetDebuggableThread C thread : safe C (GetDebuggableThread thread).
Proof. apply safe_insp. intros i _ _. apply safe_ret. Qed.

(** A script gets its id and is announced before the id is used. *)
Lemma safe_announced C sourceFile scriptIdentity : safe C (announced_script sourceFile scriptIdentity).
Proof.
  intros s Hs HC. destruct Hs as [Ha Hc Ht Hw Hn Hi].
  pose proof (GetScriptId_spec sourceFile scriptIdentity _ Hw) as Hsp.
  destruct (GetScriptId sourceFile scriptIdentity (sourceManager_ s)) as [[id isNew] m] eqn:E.
  destruct Hsp as (Hw'&Hg&_&_&Hf&Hnew&Hold).
  assert (Hid : script_id sourceFile scriptIdentity s = Ret (id, isNew) (set_sources m s))
    by (unfold script_id; by rewrite E).
  unfold announced_script. rewrite (m_bind_ret _ _ _ _ _ Hid). cbn [fst snd]. destruct isNew.
  - set (message := event_message [] "Debugger.scriptParsed" (scriptParsed_params id sourceFile)).
    exists id, (set_ep (sent (sv_endpoint s) [message] (running_ (sv_endpoint s))) (set_sources m s)).
    split; [|split; [split; simpl|split]].
    + unfold CallDebuggerScriptParsed, Call, SendMessage, m_bind, m_get, m_ret. simpl. rewrite Ha. simpl. rewrite ?Ha, Hc. done.
    + done. + done. + by rewrite client_targets_app, see_nothing. + done.
    + intros id' key Hk. apply elem_of_app. pose proof (sw_scripts _ Hw' _ _ Hk) as Hk'. rewrite Hf in Hk'.
      apply lookup_insert_Some in Hk' as [[<- <-]|[_ Hk']]; [right; set_solver|left].
      apply Hn. by apply (sw_files _ Hw).
    + done.
    + exists [message], (running_ (sv_endpoint s)). split; [|done]. repeat constructor. apply is_event_message.
    + done.
  - rewrite (Hold eq_refl). exists id, (set_sources (sourceManager_ s) s).
    split; [done|]. split; [by split|]. split; [exact (reflexivity (R := quiet) s)|done].
Qed.

Lemma safe_iter C {A} (f : A → IM ()) l : (∀ a, a ∈ l → safe C (f a)) → safe C (m_iter f l).
Proof.
  induction l as [|a l IH]; intros Hf; simpl; [apply safe_ret|].
  apply safe_bind; [apply Hf; set_solver|]. intros _. apply IH. set_solver.
Qed.

Lemma safe_map C {A B} (f : A → IM B) l : (∀ a, safe C (f a)) → safe C (m_map f l).
Proof.
  intros Hf. induction l as [|a l IH]; simpl; [apply safe_ret|].
  apply safe_bind; [done|]. intros b. apply safe_bind; [done|]. intros. apply safe_ret.
Qed.

(** *** Threads *)

Definition put (i : inspector) (s : server_state inspector) : server_state inspector :=
  mkServer (sv_endpoint s) (sessionManager_ s) (sourceManager_ s) i.

Lemma find_thread_elem thread i sl : find_thread thread i = Some sl → (thread, sl) ∈ threads_ i.
Proof.
  unfold find_thread. destruct (list_find _ _) as [[n [t sl']]|] eqn:E; [|done]. intros [= <-].
  apply list_find_Some in E as (Hn&Ht&_). simpl in Ht. subst t. by eapply list_elem_of_lookup_2.
Qed.

Lemma find_thread_known thread i : thread ∈ (threads_ i).*1 → is_Some (find_thread thread i).
Proof.
  intros ([t sl]&->&Hin)%list_elem_of_fmap. unfold find_thread.
  destruct (list_find _ _) as [[n p]|] eqn:E; [by eexists|]. apply list_find_None in E.
  rewrite Forall_forall in E. by destruct (E _ Hin).
Qed.

Lemma find_thread_slot thread i sl : inspector_wf i → find_thread thread i = Some sl → slot_wf sl.
Proof. intros Hi Hf%find_thread_elem. by eapply (iw_slots _ Hi). Qed.

Lemma set_slot_keys thread sl i : (threads_ (set_slot thread sl i)).*1 = (threads_ i).*1.
Proof.
  simpl. rewrite <- list_fmap_compose. apply list_fmap_ext. intros n [t sl'] _. simpl. by destruct (decide _).
Qed.

Lemma set_slot_world thread sl i : world_of (set_slot thread sl i) = world_of i.
Proof. unfold world_of. f_equal. apply set_slot_keys. Qed.

(** A slot whose thread is where it was. *)
Lemma set_slot_status thread sl sl' i : NoDup (threads_ i).*1 → find_thread thread i = Some sl →
  suspended_ (sl_thread sl') = suspended_ (sl_thread sl) → app (sl_thread sl') = app (sl_thread sl) →
  status_of (set_slot thread sl' i) = status_of i.
Proof.
  intros Hn [k Hk]%find_thread_elem%list_elem_of_lookup Hsus Happ. unfold status_of, set_slot. simpl.
  rewrite <- list_fmap_compose. apply list_fmap_ext. intros n [t x] Hx. simpl.
  destruct (decide (t = thread)) as [->|]; [|done]. simpl. assert (n = k) as ->; [|simplify_eq; by rewrite Hsus, Happ].
  eapply NoDup_lookup; [exact Hn|rewrite list_lookup_fmap, Hx|rewrite list_lookup_fmap, Hk]; done.
Qed.

Lemma set_slot_wf thread sl i : inspector_wf i → slot_wf sl → inspector_wf (set_slot thread sl i).
Proof.
  intros [Hn Hs He] Hsl. split; [by rewrite set_slot_keys| |done].
  intros t sl'. simpl. intros ([t' sl'']&Heq&Hin)%list_elem_of_fmap. simpl in Heq.
  destruct (decide _); simplify_eq; [done|by eapply Hs].
Qed.

Lemma find_set_slot thread sl i : is_Some (find_thread thread i) → find_thread thread (set_slot thread sl i) = Some sl.
Proof.
  unfold find_thread. simpl. induction (threads_ i) as [|[t sl'] l IH]; [by intros []|]. simpl.
  destruct (decide (t = thread)) as [->|Hne]; simpl; [by rewrite decide_True|]. rewrite decide_False by done.
  unfold fmap in *. destruct (list_find _ l) as [[]|]; [|by intros []]. intros _. specialize (IH ltac:(by eexists)).
  destruct (list_find _ (list_fmap _ _ _ l)) as [[]|]; simpl in *; congruence.
Qed.

Definition put_slot (thread : PtThread) (sl : thread_slot) (p : PtThread * thread_slot) : PtThread * thread_slot :=
  if decide (p.1 = thread) then (thread, sl) else p.
Lemma threads_set_slot thread sl i : threads_ (set_slot thread sl i) = put_slot thread sl <$> threads_ i.
Proof. done. Qed.

Lemma put_slot_twice thread sl sl' (l : list (PtThread * thread_slot)) : put_slot thread sl <$> (put_slot thread sl' <$> l) = put_slot thread sl <$> l.
Proof.
  rewrite <- list_fmap_compose. apply list_fmap_ext. intros n [t x] _. unfold put_slot. simpl.
  by destruct (decide (t = thread)); simpl; [rewrite decide_True|rewrite decide_False].
Qed.

Lemma put_slot_same thread sl i : NoDup (threads_ i).*1 → find_thread thread i = Some sl →
  set_slot thread sl i = i.
Proof.
  intros Hn [k Hk]%find_thread_elem%list_elem_of_lookup. unfold set_slot. destruct i. unfold set_threads. simpl in *. f_equal.
  etrans; [|apply list_fmap_id]. apply list_fmap_ext. intros n [t x] Hx. simpl.
  destruct (decide (t = thread)) as [->|]; [|done]. assert (n = k) as ->; [|by simplify_eq].
  eapply NoDup_lookup; [exact Hn|rewrite list_lookup_fmap, Hx|rewrite list_lookup_fmap, Hk]; done.
Qed.

Lemma set_hybrid_wf h i : inspector_wf i → inspector_wf (set_hybrid h i).
Proof. by apply threads_wf. Qed.

Lemma thread_do_exec thread e s sl d :
  find_thread thread (sv_inspector s) = Some sl →
  dt_exec e (with_state (state_ (sl_thread sl)) (in_hybrid (sv_inspector s)) (sl_thread sl)) = Some d →
  thread_do thread e s = Ret () (put (set_hybrid (hybrid d) (set_slot thread (slot_thread d sl) (sv_inspector s))) s).
Proof. intros Hf He. unfold thread_do, insp, m_bind, m_get, m_ret. rewrite Hf, He. done. Qed.

(** The transitions that the invariant allows. *)
Lemma with_hybrid_inv h d : dt_inv d → dt_inv (with_state (state_ d) h d).
Proof. by destruct d. Qed.

Lemma exec_server e d d' : dt_exec e d = Some d' → server d = Idle →
  match e with RequestToObjectRepository _ => True | _ => server d' = Idle end.
Proof.
  intros He Hs. destruct e as [c|r| |bp l|u| | |]; simpl in He; unfold suspend_if_paused, Resume in *;
    repeat case_match; simplify_eq/=; done.
Qed.

Lemma slot_exec_wf e sl h d : slot_wf sl →
  dt_exec e (with_state (state_ (sl_thread sl)) h (sl_thread sl)) = Some d →
  (∀ r, e ≠ RequestToObjectRepository r) → slot_wf (slot_thread d sl).
Proof.
  intros [Hi Hs Hr Hc] He Hne. split; simpl; [|..|done|done].
  - by eapply dt_exec_inv, with_hybrid_inv.
  - apply exec_server in He; [|done]. destruct e; try done. by destruct (Hne r).
Qed.

Lemma thread_do_returns thread e s : server_wf s → (∀ r, e ≠ RequestToObjectRepository r) →
  (∀ sl, find_thread thread (sv_inspector s) = Some sl →
     is_Some (dt_exec e (with_state (state_ (sl_thread sl)) (in_hybrid (sv_inspector s)) (sl_thread sl)))) →
  ∃ s', thread_do thread e s = Ret () s' ∧ server_wf s' ∧ quiet s s' ∧ world s' = world s.
Proof.
  intros Hs Hne He. destruct (find_thread thread (sv_inspector s)) as [sl|] eqn:E.
  - pose proof (find_thread_slot _ _ _ (sv_inspector_wf _ Hs) E) as Hsl. destruct (He sl eq_refl) as [d Hd].
    rewrite (thread_do_exec _ _ _ _ _ E Hd). eexists. split; [done|].
    split; [|split; [apply put_inspector_quiet|exact (set_slot_world _ _ _)]].
    apply put_inspector_wf; [done|]. apply set_hybrid_wf, set_slot_wf; [apply Hs|]. by eapply slot_exec_wf.
  - exists s. split; [|done]. unfold thread_do, insp, m_bind, m_get, m_ret. by rewrite E.
Qed.

(** Transitions that do not suspend or resume. *)
Definition calm (e : dt_event) : Prop := ∀ d, dt_inv d → server d = Idle →
  ∃ d', dt_exec e d = Some d' ∧ suspended_ d' = suspended_ d ∧ app d' = app d.

Lemma safe_thread_do C thread e : (∀ r, e ≠ RequestToObjectRepository r) → calm e → safe C (thread_do thread e).
Proof.
  intros Hne He s Hs HC. destruct (find_thread thread (sv_inspector s)) as [sl|] eqn:E.
  - pose proof (find_thread_slot _ _ _ (sv_inspector_wf _ Hs) E) as Hsl.
    destruct (He (with_state (state_ (sl_thread sl)) (in_hybrid (sv_inspector s)) (sl_thread sl))) as (d&Hd&Hsus&Happ);
      [apply with_hybrid_inv, Hsl|apply Hsl|].
    rewrite (thread_do_exec _ _ _ _ _ E Hd). eexists _, _. split; [done|].
    split; [|split; [apply put_inspector_quiet|split; [exact (set_slot_world _ _ _)|]]].
    + apply put_inspector_wf; [done|]. apply set_hybrid_wf, set_slot_wf; [apply Hs|]. by eapply slot_exec_wf.
    + apply (set_slot_status thread sl); [apply Hs|done..].
  - exists (), s. split; [|done]. unfold thread_do, insp, m_bind, m_get, m_ret. by rewrite E.
Qed.

Lemma command_enabled c d : server d = Idle → is_Some (dt_exec (Command c) d).
Proof. intros Hs. simpl. rewrite Hs. simpl. destruct (apply_command _ _ _). by eexists. Qed.

Lemma command_calm c : resumes c = false → calm (Command c).
Proof. intros Hc d _ Hs. simpl. rewrite Hs, Hc. simpl. destruct (apply_command _ _ _). by eexists. Qed.

Lemma safe_command C thread c : resumes c = false → safe C (command_thread thread c).
Proof.
  intros Hc. unfold command_thread. apply safe_bind; [apply safe_GetDebuggableThread|]. intros t.
  apply safe_bind; [apply safe_thread_do; [done|by apply command_calm]|]. intros _. rewrite Hc.
  destruct t; apply safe_ret.
Qed.

Lemma runs_command C thread c : runs C (command_thread thread c).
Proof.
  intros s Hs HC. unfold command_thread. rewrite (m_bind_ret _ _ _ _ _ (get_thread_ret thread s)).
  destruct (thread_do_returns thread (Command c) s Hs) as (s1&E1&Hs1&Hq1&_); [done| |].
  { intros sl Hf. apply command_enabled, (find_thread_slot _ _ _ (sv_inspector_wf _ Hs) Hf). }
  rewrite (m_bind_ret _ _ _ _ _ E1). destruct (find_thread thread (sv_inspector s)); [|by exists (), s1].
  destruct (_ && _); [|by exists (), s1].
  assert (Hr : safe anywhere (CallDebuggerResumed thread : IM ())).
  { apply safe_bind; [apply safe_session_of|]. intros. apply safe_Call; [done|apply safe_ret]. }
  destruct (Hr s1 Hs1 I) as ([]&s2&E2&Hs2&Hq2&_). exists (), s2. split_and!; [done|done|by etrans].
Qed.

Lemma safe_each C f : (∀ t, safe C (f t)) → safe C (each_thread f).
Proof. intros Hf. apply safe_insp. intros i _ _. apply safe_iter. intros. apply Hf. Qed.

Lemma runs_iter {A} (f : A → IM ()) l : (∀ a, runs anywhere (f a)) → runs anywhere (m_iter f l).
Proof.
  intros Hf. induction l as [|a l IH]; simpl; [apply safe_runs, safe_ret|]. by apply runs_bind_after.
Qed.
Lemma runs_weaken C {A} (m : IM A) : runs anywhere m → runs C m.
Proof. intros Hm s Hs _. by apply Hm. Qed.
Lemma runs_each C f : (∀ t, runs anywhere (f t)) → runs C (each_thread f).
Proof. intros Hf. apply runs_insp. intros i _ _. by apply runs_weaken, runs_iter. Qed.

Lemma safe_with_slot C thread f : (∀ sl, slot_wf sl → slot_wf (f sl)) → (∀ sl, sl_thread (f sl) = sl_thread sl) →
  safe C (with_slot thread f).
Proof.
  intros Hf Ht. apply safe_upd. intros i Hi. destruct (find_thread thread i) as [sl|] eqn:E; [|done].
  split; [apply set_slot_wf; [done|]; by eapply Hf, find_thread_slot|]. split; [apply set_slot_world|].
  apply (set_slot_status thread sl); [apply Hi|done|by rewrite Ht..].
Qed.

(** *** Repositories *)

Definition repository_op {A} (f : heap → M ObjectRepository A) : Prop :=
  ∀ h r, repository_wf r → ∃ a r', f h r = Ret a r' ∧ repository_wf r'.

Definition known (thread : PtThread) : condition := λ w, thread ∈ w_threads w.

Lemma slot_repository_wf r sl : slot_wf sl → repository_wf r → slot_wf (slot_repository r sl).
Proof. intros [] ?. by split. Qed.

Lemma safe_in_repo (C : condition) {A} thread (f : heap → M ObjectRepository A) :
  repository_op f → (∀ w, C w → known thread w) → safe C (in_repo thread f).
Proof.
  intros Hf Hk s Hs HC. destruct (find_thread_known thread (sv_inspector s)) as [sl E]; [exact (Hk (world s) HC)|].
  pose proof (find_thread_slot _ _ _ (sv_inspector_wf _ Hs) E) as Hsl.
  destruct (Hf (runtime_heap (in_runtime (sv_inspector s))) (sl_repository sl)) as (a&r&Er&Hr); [apply Hsl|].
  exists a, (put (set_slot thread (slot_repository r sl) (sv_inspector s)) s).
  split; [unfold in_repo; by rewrite E, Er|].
  split; [|split; [apply put_inspector_quiet|split; [exact (set_slot_world _ _ _)|]]].
  - apply put_inspector_wf; [done|]. apply set_slot_wf; [apply Hs|]. by apply slot_repository_wf.
  - apply (set_slot_status thread sl); [apply Hs|done..].
Qed.

Lemma safe_in_fresh C {A} (f : heap → M ObjectRepository A) : repository_op f → safe C (in_fresh f).
Proof.
  intros Hf s Hs HC. destruct (Hf (runtime_heap (in_runtime (sv_inspector s))) repository_init) as (a&r&Er&_);
    [apply repository_init_wf|]. exists a, s. split; [unfold in_fresh; by rewrite Er|done].
Qed.

Lemma safe_on_cached C {A} thread (f : heap → M ObjectRepository A) : repository_op f → safe C (on_cached thread f).
Proof.
  intros Hf s Hs HC. unfold on_cached. destruct (find_thread thread (sv_inspector s)) as [sl|] eqn:E;
    [|by eexists _, _].
  pose proof (find_thread_slot _ _ _ (sv_inspector_wf _ Hs) E) as Hsl.
  destruct (objectRepository_ sl) as [r|] eqn:Ec; [|by eexists _, _].
  destruct (Hf (runtime_heap (in_runtime (sv_inspector s))) r) as (a&r'&Er&Hr); [by apply (sl_cached_wf _ Hsl)|].
  rewrite Er. eexists _, _. split; [done|].
  split; [|split; [apply put_inspector_quiet|split; [exact (set_slot_world _ _ _)|]]].
  - apply put_inspector_wf; [done|]. apply set_slot_wf; [apply Hs|]. destruct Hsl. split; try done. simpl. by intros ? [= <-].
  - apply (set_slot_status thread sl); [apply Hs|done..].
Qed.

(** *** Requests that a suspended thread executes *)

(** What such a request may change. *)
Definition request_op {A} (thread : PtThread) (request : IM A) : Prop := ∀ s sl,
  NoDup (threads_ (sv_inspector s)).*1 → find_thread thread (sv_inspector s) = Some sl → repository_wf (sl_repository sl) →
  ∃ a r rt, repository_wf r ∧
    request s = Ret a (put (set_runtime rt (set_slot thread (slot_repository r sl) (sv_inspector s))) s).

Lemma in_repo_request {A} thread (f : heap → M ObjectRepository A) :
  repository_op f → request_op thread (in_repo thread f).
Proof.
  intros Hf s sl _ E Hr. destruct (Hf (runtime_heap (in_runtime (sv_inspector s))) (sl_repository sl) Hr) as (a&r&Er&Hw).
  exists a, r, (in_runtime (sv_inspector s)). split; [done|]. unfold in_repo. rewrite E, Er. done.
Qed.

Lemma find_set_hybrid h thread i : find_thread thread (set_hybrid h i) = find_thread thread i.
Proof. done. Qed.
Lemma find_set_runtime r thread i : find_thread thread (set_runtime r i) = find_thread thread i.
Proof. done. Qed.

(** The three transitions of a request to a suspended thread. *)
Lemma suspended_request sl n h : slot_wf sl → suspended_ (sl_thread sl) = true →
  ∃ d1 d2 d3, dt_exec (RequestToObjectRepository n) (with_state (state_ (sl_thread sl)) h (sl_thread sl)) = Some d1 ∧
    ∀ h', dt_exec WakeUp (with_state (state_ d1) h' d1) = Some (with_state (state_ d2) h' d2) ∧
      dt_exec RequestDone (with_state (state_ d2) h' d2) = Some (with_state (state_ d3) h' d3) ∧
      dt_inv d3 ∧ server d3 = Idle ∧ suspended_ d3 = true.
Proof.
  intros [Hi Hs _ _] Hsus. destruct (sl_thread sl) as [t hy sus rq man ap srv sv]. simpl in *. subst srv sus.
  unfold dt_inv in Hi. destruct ap; simpl in Hi; [by destruct Hi as (_&?&_)|]. destruct Hi as (->&<-&Hp).
  eexists _, (mkDThread t h true None true InSuspend InRequest (sv ++ [n])),
    (mkDThread t h true None true InSuspend Idle (sv ++ [n])).
  split; [done|]. intros h'. split_and!; done.
Qed.

Lemma request_returns {A} thread (request : IM A) s : request_op thread request → server_wf s →
  ∃ a s', request_thread thread request s = Ret a s' ∧ server_wf s' ∧ quiet s s' ∧
    (a = None ↔ ∀ sl, find_thread thread (sv_inspector s) = Some sl → suspended_ (sl_thread sl) = false).
Proof.
  intros Hreq Hs. unfold request_thread.
  rewrite (m_bind_ret _ _ _ _ _ (get_thread_ret thread s)).
  destruct (find_thread thread (sv_inspector s)) as [sl|] eqn:E; [|exists None, s; split_and!; try done; by split].
  pose proof (find_thread_slot _ _ _ (sv_inspector_wf _ Hs) E) as Hsl. pose proof (sl_idle _ Hsl) as Hidle.
  destruct (suspended_ (sl_thread sl)) eqn:Hsus; cbn [negb].
  - destruct (suspended_request sl (length (served (sl_thread sl))) (in_hybrid (sv_inspector s)) Hsl Hsus)
      as (d1&d2&d3&E1&Hrec).
    rewrite (m_bind_ret _ _ _ _ _ (thread_do_exec _ _ _ _ _ E E1)).
    set (s1 := put _ s).
    assert (F1 : find_thread thread (sv_inspector s1) = Some (slot_thread d1 sl)).
    { exact (find_set_slot thread _ (sv_inspector s) (mk_is_Some _ _ E)). }
    destruct (Hreq s1 (slot_thread d1 sl)) as (a&r&rt&Hr&Ereq); [|done|by apply Hsl|].
    { change (NoDup (threads_ (set_slot thread (slot_thread d1 sl) (sv_inspector s))).*1). rewrite set_slot_keys. apply Hs. }
    rewrite (m_bind_ret _ _ _ _ _ Ereq). clear Ereq. set (s2 := put _ s1). destruct (Hrec (hybrid d1)) as (E2&E3&Hi).
    assert (F2 : find_thread thread (sv_inspector s2) = Some (slot_repository r (slot_thread d1 sl))).
    { exact (find_set_slot thread _ (sv_inspector s1) (mk_is_Some _ _ F1)). }
    rewrite (m_bind_ret _ _ _ _ _ (thread_do_exec thread WakeUp s2 _ _ F2 E2)).
    set (s3 := put _ s2).
    assert (F3 : find_thread thread (sv_inspector s3) =
      Some (slot_thread (with_state (state_ d2) (hybrid d1) d2) (slot_repository r (slot_thread d1 sl)))).
    { exact (find_set_slot thread _ (sv_inspector s2) (mk_is_Some _ _ F2)). }
    rewrite (m_bind_ret _ _ _ _ _ (thread_do_exec thread RequestDone s3 _ _ F3 E3)).
    eexists (Some a), _. split; [done|]. split; [|split; [exact (reflexivity (R := quiet) s)|]].
    + apply (put_inspector_wf s); [done|]. apply set_hybrid_wf. eapply threads_wf.
      * do 3 (etrans; [exact (put_slot_twice _ _ _ _)|]). symmetry. apply (threads_set_slot thread).
      * done.
      * apply set_slot_wf; [apply Hs|]. destruct Hi as (Hi&Hsv&_).
        split; simpl; [by apply with_hybrid_inv|done|done|apply Hsl].
    + split; [done|]. intros Hall. specialize (Hall _ eq_refl). congruence.
  - assert (E1 : dt_exec (RequestToObjectRepository (length (served (sl_thread sl))))
        (with_state (state_ (sl_thread sl)) (in_hybrid (sv_inspector s)) (sl_thread sl)) =
      Some (with_state (state_ (sl_thread sl)) (in_hybrid (sv_inspector s)) (sl_thread sl))).
    { simpl. by rewrite Hidle, Hsus. }
    rewrite (m_bind_ret _ _ _ _ _ (thread_do_exec _ _ _ _ _ E E1)). eexists None, _. split; [done|].
    split; [|split; [exact (reflexivity (R := quiet) s)|]].
    + apply (put_inspector_wf s); [done|]. apply set_hybrid_wf, set_slot_wf; [apply Hs|].
      by destruct Hsl.
    + split; [|done]. intros _ ? [= <-]. done.
Qed.
End invariant.
