(* ===== verification/StaticAnswers.v ===== *)
(** * The static inspector answers

    Every method of the protocol returns from every state that satisfies the
    invariant of StaticInvariant.v, whatever its parameters are, and keeps it; so
    do the hooks of the runtime. *)

From S2P Require Import Prelude Regex Http CppLib PtJson HybridFrames StaticBreakpoints ThreadState DebuggableThread.
From S2P Require Import StaticTypes StaticObjects StaticSessions StaticDebugInfo StaticEndpoint StaticServer StaticInspector.
From S2P Require Import StaticHooks StaticInvariant.
Local Open Scope Z_scope.
Local Open Scope ark_scope.

(** What is assumed of the runtime: values in the heap and in registers are of the
    kinds that the code distinguishes. *)
Class RuntimeOK `{DI : DebugInterface} `{!LangEnum} `{!Registers} : Prop := {
  heap_plain h : plain_heap h;
  bits_plain z : tagged_of_bits z ≠ TaggedOther }.

Create HintDb inspector discriminated.

Section answers.
Context `{StringHelpers} `{CastOob} `{SignedOverflow} `{JsonText} `{Process} `{Files}.
Context `{LE : LangExt} `{EN : !LangEnum} `{RG : !Registers} `{TH : Threads} `{DI : !DebugInterface} `{OK : !RuntimeOK}.

Abbreviation IM := (M (server_state inspector)).

(** The frames of a thread have methods and their lines are found. *)
Definition readable : condition := λ w,
  (∀ t f, f ∈ EnumerateFrames (w_runtime w) t → is_Some (frame_source f (w_cache w))) ∧
  (∀ f, inl f ∈ UnionStack (w_runtime w) → is_Some (frame_source f (w_cache w))) ∧
  (∀ t f, GetCurrentFrame (w_runtime w) t = Some f → is_Some (fr_method f)).

(** ** Repositories *)

Lemma local_plain frame c : Forall (λ lv, plain_value lv.2) (GetLocals frame c).
Proof.
  assert (Hreg : ∀ reg type, plain_value (CreateTypedValueFromReg reg type)).
  { intros reg type Heq. destruct type; try done; simpl in Heq; [destruct (is_special reg); [|done]|];
      by apply (bits_plain reg); injection Heq. }
  unfold GetLocals. destruct (_ ≫= _) as [d|]; [|constructor].
  set (P := λ m : gmap bytes TypedValue, ∀ k v, m !! k = Some v → plain_value v).
  assert (Hh : ∀ name sg reg kind m, P m → P (localHandler name sg reg kind m)).
  { intros name sg reg kind m Hm k v. unfold localHandler. destruct (m !! name); [apply Hm|].
    rewrite lookup_insert_Some. intros [[_ <-]|[_ Hk]]; [apply Hreg|by eapply Hm]. }
  assert (Hall : ∀ {X} (f : gmap bytes TypedValue → X → gmap bytes TypedValue) l m,
    (∀ m x, P m → P (f m x)) → P m → P (foldl f m l)).
  { intros X f l. induction l as [|x l IH]; intros m Hf Hm; [done|]. simpl. apply IH; [done|]. by apply Hf. }
  assert (HP : P (foldl (add_variable frame) (foldl (add_parameter frame) ∅ (imap pair (md_parameters d))) (md_variables d))).
  { apply Hall; [intros m v Hm; unfold add_variable; destruct (IsAccessibleAt _ _); [by apply Hh|done]|].
    apply Hall; [intros; by apply Hh|]. by intros k v ?%lookup_empty_Some. }
  apply Forall_forall. intros [k v] Hin%elem_of_map_iter. by eapply HP.
Qed.

Lemma frame_object_op frame c : repository_op (λ h, CreateFrameObject h (fr_frameId frame) (GetLocals frame c)).
Proof.
  intros h r Hr. destruct (frame_object_properties h r (fr_frameId frame) (GetLocals frame c) Hr (local_plain frame c))
    as (o&this&r'&id&ps&E&Hr'&_). by eexists _, _.
Qed.

Lemma properties_op id preview : repository_op (λ h, Repository_GetProperties h id preview).
Proof.
  intros h r Hr. destruct (GetProperties_of_spec h r id Hr (heap_plain h)) as (ps&r1&E&Hw1&_).
  unfold Repository_GetProperties. rewrite (m_bind_ret _ _ _ _ _ E). destruct preview; [|by eexists _, _].
  destruct (m_map_spec (with_preview h) (λ _, True) (λ _, same_property) ps r1) as (qs&r2&E2&Hw2&_);
    [|done|by apply Forall_true|done|by eexists _, _].
  intros. by apply with_preview_spec; [..|apply heap_plain].
Qed.

Lemma object_op v : plain_value v → repository_op (λ h, CreateObject h v).
Proof. intros Hv h r Hr. destruct (CreateObject_spec h r v Hr Hv) as (o&r'&E&Hr'&_). by eexists _, _. Qed.

(** ** Requests of the client *)

Lemma safe_unless_dead C {A} (a : A) (m : IM A) : safe C m → safe C (unless_dead a m).
Proof.
  intros Hm. unfold unless_dead, CheckVmDead. apply safe_bind.
  - apply safe_insp. intros i _ _. destruct (isVmDead_ i); [|apply safe_ret].
    apply safe_bind; [apply safe_Kill|]. intros. apply safe_ret.
  - intros d. destruct d; [apply safe_ret|done].
Qed.

Lemma runs_unless_dead C {A} (a : A) (m : IM A) : runs C m → runs C (unless_dead a m).
Proof.
  intros Hm. unfold unless_dead. apply runs_bind; [|intros d; destruct d; [apply safe_runs, safe_ret|done]].
  unfold CheckVmDead. apply safe_insp. intros i _ _. destruct (isVmDead_ i); [|apply safe_ret].
  apply safe_bind; [apply safe_Kill|]. intros. apply safe_ret.
Qed.

Hint Resolve safe_ret safe_session_of safe_thread_of safe_script_of safe_command safe_announced safe_Kill runs_command : inspector.

(** A change that the invariant does not mention. *)
Lemma safe_update C f : (∀ i, threads_ (f i) = threads_ i ∧ in_breakpoints (f i) = in_breakpoints i ∧
    world_of (f i) = world_of i) → safe C (upd_insp f).
Proof.
  intros Hf. apply safe_upd. intros i Hi. destruct (Hf i) as (Ht&?&?). split; [by apply (threads_wf i)|]. split; [done|].
  unfold status_of. by rewrite Ht.
Qed.

Lemma runs_update C f : (∀ i, threads_ (f i) = threads_ i ∧ in_breakpoints (f i) = in_breakpoints i) → runs C (upd_insp f).
Proof. intros Hf. apply runs_upd. intros i Hi. destruct (Hf i). by apply (threads_wf i). Qed.

Lemma safe_breakpoints C f : (∀ b, entries_known b → entries_known (f b)) →
  safe C (upd_insp (λ i, set_breakpoints (f (in_breakpoints i)) i)).
Proof. intros Hf. apply safe_upd. intros i [? ? ?]. split; [split; [done..|by apply Hf]|done]. Qed.

Lemma safe_store C b : entries_known b → safe C (upd_insp (set_breakpoints b)).
Proof. intros Hb. apply safe_upd. intros i [? ? ?]. by split. Qed.

Lemma runs_Continue C thread : runs C (Inspector_Continue thread).
Proof.
  apply runs_unless_dead, runs_insp. intros i _ _.
  do 2 try match goal with |- context [if ?b then _ else _] => destruct b end;
    [apply safe_runs, safe_ret|apply runs_command|apply runs_each; auto with inspector].
Qed.

Lemma safe_SetBreakpoint C thread filter line cond : safe C (Inspector_SetBreakpoint thread filter line cond).
Proof.
  apply safe_unless_dead, safe_insp. intros i Hi _. apply safe_bind; [|auto with inspector].
  apply safe_store, SetBreakpoint_known, Hi.
Qed.

Lemma safe_RemoveByUrl C thread url filter : safe C (Inspector_RemoveBreakpointsByUrl thread url filter).
Proof.
  apply safe_unless_dead. case_decide; [auto with inspector|]. apply safe_insp. intros i Hi _.
  case_match; [|auto with inspector]. apply safe_store, RemoveBreakpoints_known, Hi.
Qed.

Lemma runs_on_pause C thread m : (∀ i, inspector_wf i → C (world_of i) → runs C (m i)) → runs C (on_pause thread m).
Proof.
  intros Hm. apply runs_unless_dead, runs_insp. intros i Hi HC.
  destruct (find_thread thread i); [case_match|]; [apply safe_runs, safe_ret|by apply Hm|apply safe_runs, safe_ret].
Qed.

Lemma runs_on_line thread i k : readable (world_of i) → (∀ l, runs readable (k l)) → runs readable (on_line thread i k).
Proof.
  intros (_&_&Hc) Hk. unfold on_line. destruct (GetCurrentFrame (in_runtime i) thread) as [f|] eqn:E; [|apply safe_runs, safe_ret].
  destruct (Hc thread f E) as [m ->]. apply Hk.
Qed.

Lemma runs_step thread f : runs readable (on_pause thread (λ i, on_line thread i (λ l, command_thread thread (f l)))).
Proof. apply runs_on_pause. intros i _ Hr. apply runs_on_line; [done|]. intros. apply runs_command. Qed.

Lemma runs_StepOut thread : runs readable (Inspector_StepOut thread).
Proof.
  apply runs_on_pause. intros i _ _. apply runs_bind_after; [by apply runs_update|]. intros _. apply runs_command.
Qed.

Lemma runs_RestartFrame thread frameId : runs readable (Inspector_RestartFrame thread frameId).
Proof.
  apply runs_on_pause. intros i _ _. case_match; [|apply safe_runs, safe_ret].
  apply runs_bind_after; [by apply runs_update|]. intros _. apply runs_command.
Qed.

Lemma runs_GetProperties C thread id preview : runs C (Inspector_GetProperties thread id preview).
Proof.
  apply runs_unless_dead, runs_bind_after.
  - intros s Hs _. destruct (request_returns thread _ s (in_repo_request thread _ (properties_op id preview)) Hs)
      as (a&s'&E&Hs'&Hq&_). by exists a, s'.
  - intros [ps|]; apply safe_runs; [apply safe_ret|]. apply safe_bind; [apply safe_on_cached, properties_op|].
    intros. apply safe_ret.
Qed.

Lemma count_frames_some c frames : (∀ f, f ∈ frames → is_Some (frame_source f c)) → is_Some (count_frames c frames).
Proof.
  induction frames as [|f frames IH]; intros Hf; simpl; [done|]. destruct (Hf f) as [src ->]; [set_solver|]. simpl.
  case_decide; [done|]. destruct IH as [n ->]; [set_solver|]. done.
Qed.

Lemma evaluation_request thread frameNumber bytecode : request_op thread
  (upd_insp (λ i, set_runtime (RunExpression thread frameNumber bytecode (in_runtime i)) i) ;;;
   m_ret (remote (TString (str "hello world")))).
Proof.
  intros s sl Hn E Hr. eexists _, (sl_repository sl), _. split; [done|].
  replace (slot_repository (sl_repository sl) sl) with sl by (by destruct sl). by rewrite put_slot_same.
Qed.

Lemma runs_GetFrameCount thread : safe readable (GetFrameCount thread).
Proof.
  apply safe_insp. intros i _ (Hf&_). simpl in Hf.
  destruct (count_frames_some (debugInfoCache_ i) (EnumerateFrames (in_runtime i) thread)) as [n ->]; [|apply safe_ret].
  intros f. apply Hf.
Qed.

Lemma runs_Evaluate thread code n : runs readable (Inspector_Evaluate thread code n).
Proof.
  apply runs_unless_dead. intros s Hs Hr. rewrite (m_bind_ret _ _ _ _ _ (insp_ret s)).
  destruct (find_thread thread (sv_inspector s)) as [sl|] eqn:E; [|by apply returns_here].
  unfold IsPaused. destruct (suspended_ (sl_thread sl)) eqn:Hsus; simpl; [|by apply returns_here].
  destruct (count_frames_some (debugInfoCache_ (sv_inspector s)) (EnumerateFrames (in_runtime (sv_inspector s)) thread))
    as [total Ht]; [by intros f; apply Hr|].
  assert (Hc : GetFrameCount thread s = Ret total s)
    by (unfold GetFrameCount, insp, m_bind, m_get, m_ret; by rewrite Ht).
  rewrite (m_bind_ret _ _ _ _ _ Hc). destruct (total <=? n); [by apply returns_here|].
  destruct (StaticBase64.Base64Decoder.Decode code) as [bytecode ok]. destruct ok; simpl; [|by apply returns_here].
  destruct (request_returns thread _ s (evaluation_request thread (wrap 32 n) bytecode) Hs) as (a&s'&Er&Hs'&Hq&Hnone).
  destruct a as [a|]; [|specialize (proj1 Hnone eq_refl sl E); congruence].
  unfold DebuggableThread_EvaluateExpression. rewrite m_bind_assoc. rewrite (m_bind_ret _ _ _ _ _ Er). by eexists _, s'.
Qed.

(** *** The other functions of the inspector *)

Lemma safe_RuntimeEnable C thread : safe C (Inspector_RuntimeEnable thread).
Proof.
  apply safe_unless_dead. unfold CallRuntimeExecutionContextCreated. apply safe_bind; [apply safe_session_of|].
  intros. apply safe_Call; [done|apply safe_ret].
Qed.
Lemma runs_dead_command C thread c : runs C (unless_dead () (command_thread thread c)).
Proof. apply runs_unless_dead, runs_command. Qed.
Lemma safe_Pause C thread : safe C (Inspector_Pause thread).
Proof. apply safe_unless_dead, safe_each. intros. by apply safe_command. Qed.
Lemma safe_SetBreakpointsActive C thread b : safe C (Inspector_SetBreakpointsActive thread b).
Proof. by apply safe_unless_dead, (safe_breakpoints C (SetBreakpointsActive b)). Qed.
Lemma safe_SetMixed C b : safe C (Inspector_SetMixedDebugEnabled b).
Proof. by apply safe_unless_dead, safe_update. Qed.
Lemma safe_GetPossibleBreakpoints C f i a b r : safe C (Inspector_GetPossibleBreakpoints f i a b r).
Proof. apply safe_unless_dead, safe_insp. intros. apply safe_ret. Qed.
Lemma safe_RemoveBreakpoint C thread id : safe C (Inspector_RemoveBreakpoint thread id).
Proof. apply safe_unless_dead, (safe_breakpoints C (RemoveBreakpoint id)). intros. by apply RemoveBreakpoint_known. Qed.
Lemma runs_ContinueTo C thread f i l : runs C (Inspector_ContinueToLocation thread f i l).
Proof. apply runs_on_pause. intros. apply runs_command. Qed.
Lemma safe_GetSourceCode C f i : safe C (Inspector_GetSourceCode f i).
Proof. apply safe_unless_dead, safe_insp. intros. apply safe_ret. Qed.
Lemma runs_Disable C thread : runs C (Inspector_Disable thread).
Proof. apply runs_unless_dead, runs_bind; [by apply safe_command|]. intros. apply runs_command. Qed.
Lemma runs_SetAsyncDepth C thread n : runs C (Inspector_SetAsyncCallStackDepth thread n).
Proof. by apply runs_update. Qed.
Lemma runs_ReplyNative C thread b : runs C (Inspector_ReplyNativeMethodCall thread b).
Proof.
  apply runs_bind_after; [destruct b; [apply runs_Continue|apply safe_runs, safe_ret]|]. intros. by apply safe_runs, safe_update.
Qed.
Lemma safe_SetSamplingInterval C n : safe C (Inspector_ProfilerSetSamplingInterval n).
Proof. apply safe_unless_dead. destruct (n <? 0); [apply safe_ret|by apply safe_update]. Qed.
Lemma runs_ProfilerStart C : runs C Inspector_ProfilerStart.
Proof.
  apply runs_unless_dead, runs_insp. intros i _ _. destruct (IsProfilerRunning (in_runtime i)); [apply safe_runs, safe_ret|].
  destruct (StartProfilingSession _ _). apply runs_bind_after; [by apply runs_update|]. intros. apply safe_runs, safe_ret.
Qed.
Lemma runs_ProfilerStop C : runs C Inspector_ProfilerStop.
Proof.
  apply runs_unless_dead, runs_insp. intros i _ _. destruct (StopProfilingSession _).
  apply runs_bind_after; [by apply runs_update|]. intros. apply safe_runs, safe_ret.
Qed.
Lemma safe_DebuggerEnable C : safe C Inspector_DebuggerEnable.
Proof.
  apply safe_bind; [apply safe_each; intros; by apply safe_command|]. intros _. apply (safe_breakpoints C Reset).
  intros b _ loc id Hin. by apply elem_of_nil in Hin.
Qed.

Lemma safe_AddLocations C files line : safe C (AddLocations files line).
Proof.
  induction files as [|[f i] files IH]; simpl; [apply safe_ret|]. apply safe_bind; [apply safe_announced|]. intros.
  apply safe_bind; [done|]. intros. apply safe_ret.
Qed.

Lemma safe_SetBreakpointByUrl C sessionId request :
  safe C (SetBreakpointByUrl sessionId request Inspector_SetBreakpoint).
Proof.
  unfold SetBreakpointByUrl. destruct (rq_url request); [|apply safe_ret]. apply safe_bind; [apply safe_thread_of|]. intros.
  apply safe_bind; [apply safe_SetBreakpoint|]. intros [[id|] files]; simpl; [|apply safe_ret].
  apply safe_bind; [apply safe_AddLocations|]. intros. apply safe_ret.
Qed.

Lemma safe_evaluation_response C r : safe C (evaluation_response r).
Proof. destruct r; apply safe_ret. Qed.

Hint Resolve safe_SetBreakpoint safe_RemoveByUrl safe_RuntimeEnable safe_Pause
  safe_SetBreakpointsActive safe_SetMixed safe_GetPossibleBreakpoints safe_RemoveBreakpoint safe_GetSourceCode
  safe_SetSamplingInterval safe_DebuggerEnable safe_SetBreakpointByUrl safe_evaluation_response : inspector.
Hint Resolve runs_Continue runs_dead_command runs_Disable runs_ReplyNative runs_step runs_StepOut runs_RestartFrame runs_GetProperties runs_Evaluate runs_ContinueTo runs_SetAsyncDepth
  runs_ProfilerStart runs_ProfilerStop : inspector.

(** The definition at the head of a handler. *)
Ltac head_of t := lazymatch t with ?f _ => head_of f | _ => t end.
Ltac unfold_handler := lazymatch goal with |- runs _ ?t => let h := head_of t in unfold h end; cbv zeta beta.

Ltac handler :=
  unfold thread_method, bool_method, evaluate_method, ok_empty, ok_result, error_of, Inspector_SetBlackboxPatterns,
    Inspector_SmartStepInto, Inspector_ClientDisconnect, Inspector_DropFrame, Inspector_SetNativeRange,
    Inspector_StepInto, Inspector_StepOver, Inspector_SetSkipAllPauses, Inspector_SetPauseOnExceptions,
    Inspector_RunIfWaitingForDebugger;
  repeat first
    [ apply safe_runs; solve [auto with inspector]
    | solve [auto with inspector]
    | apply runs_bind; [solve [auto with inspector]|intros]
    | apply runs_bind_after; [solve [auto with inspector]|intros]
    | case_match ].

(** ** Every method answers *)

Lemma handlers_run name (h : bytes → JsonObject → IM MethodResponse) :
  (name, h) ∈ method_table → ∀ sessionId params, runs readable (h sessionId params).
Proof.
  intros Hin sessionId params. unfold method_table in Hin.
  repeat (apply elem_of_cons in Hin as [Heq|Hin];
    [apply pair_eq in Heq as [_ ->]; clear name |]); [..|by apply elem_of_nil in Hin].
  all: unfold_handler; handler.
  apply runs_bind; [|intros; apply safe_runs, safe_ret]. apply safe_map. intros.
  apply safe_bind; [apply safe_SetBreakpointByUrl|]. intros. apply safe_ret.
Qed.

(** The reply to a request: the result or the error of its method. *)
Definition is_reply (sessionId : bytes) (id : double) (message : fields) : Prop :=
  ∃ key body, (key = "result"%string ∨ key = "error"%string) ∧ message = reply_message sessionId id key body.

Definition supported (method : bytes) : bool := existsb (λ p : string * (bytes → JsonObject → IM MethodResponse),
  bool_decide (str p.1 = method)) method_table.

(** What a message of the client has the server send, in the order of sending. *)
Definition response (msg : bytes) (l : list fields) : Prop :=
  match ParseJson msg with
  | None => l = []
  | Some request =>
      match GetStringT request "method", GetJsonObject request "result" with
      | Some method, None =>
          if supported method then
            match GetNumT request "id" with
            | Some id => ∃ events reply, l = events ++ [reply] ∧ Forall is_event events ∧
                is_reply (default [] (GetStringT request "sessionId")) id reply
            | None => l = []
            end
          else l = [unsupported_message (GetNumT request "id") method]
      | _, _ => l = []
      end
  end.

Lemma methodHandlers_supported method : match methodHandlers_ method with
  | Some h => supported method = true ∧ ∃ name, (name, h) ∈ method_table
  | None => supported method = false
  end.
Proof.
  unfold methodHandlers_. destruct (list_find _ method_table) as [[n [name h]]|] eqn:E; simpl.
  - apply list_find_Some in E as (Hn&Hm&_). apply list_elem_of_lookup_2 in Hn. simpl in Hm. split; [|by exists name].
    unfold supported. apply existsb_exists. exists (name, h). split; [by apply list_elem_of_In|]. by apply bool_decide_eq_true.
  - apply list_find_None in E. unfold supported. apply not_true_is_false. intros ([name h]&Hin&Hd)%existsb_exists.
    rewrite Forall_forall in E. apply list_elem_of_In in Hin. apply bool_decide_eq_true in Hd. by apply (E _ Hin).
Qed.

Lemma send_returns message s : target_of message = None → server_wf s →
  ∃ s', SendMessage message s = Ret () s' ∧ server_wf s' ∧ outbox (sv_endpoint s') = outbox (sv_endpoint s) ++ [message].
Proof.
  intros Hm Hs. exists (set_ep (sent (sv_endpoint s) [message] (running_ (sv_endpoint s))) s).
  split; [|split; [by apply send_wf|done]].
  unfold SendMessage, m_bind, m_get. simpl. rewrite (sv_async _ Hs), (sv_connected _ Hs). done.
Qed.

Lemma handler_answers (h : bytes → JsonObject → IM MethodResponse) sessionId id params s :
  runs readable (h sessionId params) → server_wf s → readable (world s) →
  ∃ s' events reply, OnCallImpl h sessionId (Some id) params s = Ret () s' ∧ server_wf s' ∧
    outbox (sv_endpoint s') = outbox (sv_endpoint s) ++ events ++ [reply] ∧ Forall is_event events ∧
    is_reply sessionId id reply.
Proof.
  intros Hh Hs Hr. destruct (Hh s Hs Hr) as (r&s1&E&Hs1&events&run&Hev&Ep). simpl. rewrite (m_bind_ret _ _ _ _ _ E).
  set (reply := match r with
       | Value res => reply_message sessionId id "result" (default [] res)
       | Unexpected e => reply_message sessionId id "error" (JRPCError_Serialize e) end).
  destruct (send_returns reply s1 ltac:(by destruct r) Hs1) as (s2&E2&Hs2&Ho). exists s2, events, reply.
  split; [by destruct r as [[]|]|]. split; [done|]. split; [by rewrite Ho, Ep; simpl; rewrite app_assoc|]. split; [done|].
  destruct r; eexists _, _; (split; [|done]); auto.
Qed.

Lemma request_answer msg s : server_wf s → readable (world s) →
  ∃ s' l, Inspector_Run msg s = Ret () s' ∧ server_wf s' ∧
    outbox (sv_endpoint s') = outbox (sv_endpoint s) ++ l ∧ response msg l.
Proof.
  intros Hs Hr. unfold Inspector_Run, HandleMessage, response.
  assert (Hnone : ∃ s' l, @m_ret (server_state inspector) () () s = Ret () s' ∧ server_wf s' ∧
      outbox (sv_endpoint s') = outbox (sv_endpoint s) ++ l ∧ l = []).
  { exists s, []. by rewrite app_nil_r. }
  destruct (ParseJson msg) as [request|]; [|done].
  destruct (GetStringT request "method") as [method|]; [|done].
  destruct (GetJsonObject request "result"); [done|].
  pose proof (methodHandlers_supported method) as Hm. destruct (methodHandlers_ method) as [h|].
  - destruct Hm as [-> [name Hin]]. destruct (GetNumT request "id") as [id|]; [|done].
    destruct (handler_answers h (default [] (GetStringT request "sessionId")) id
      (default [] (GetJsonObject request "params")) s) as (s'&events&reply&E&Hs'&Ho&Hev&Hrep);
      [by eapply handlers_run|done|done|].
    exists s', (events ++ [reply]). split_and!; [done..|]. by eexists _, _.
  - rewrite Hm. destruct (send_returns (unsupported_message (GetNumT request "id") method) s ltac:(by destruct (GetNumT request "id")) Hs) as (s'&E&Hs'&Ho).
    by exists s', [unsupported_message (GetNumT request "id") method].
Qed.
End answers.
