(* ===== verification/StaticRuns.v ===== *)
(** * Runs of the static inspector

    The hooks of the runtime keep the invariant as the requests of the client do;
    so the invariant holds in every state that requests and hooks lead to, in
    whatever order they come. *)

From S2P Require Import Prelude Regex Http CppLib PtJson HybridFrames StaticBreakpoints ThreadState DebuggableThread.
From S2P Require Import StaticTypes StaticObjects StaticSessions StaticDebugInfo StaticEndpoint StaticServer StaticInspector.
From S2P Require Import StaticHooks StaticInvariant StaticAnswers.
Local Open Scope Z_scope.
Local Open Scope ark_scope.

Section runs.
Context `{StringHelpers} `{CastOob} `{SignedOverflow} `{JsonText} `{Process} `{Files}.
Context `{LE : LangExt} `{EN : !LangEnum} `{RG : !Registers} `{TH : Threads} `{DI : !DebugInterface} `{OK : !RuntimeOK}.

Abbreviation IM := (M (server_state inspector)).

(** ** A thread that is suspended *)

Lemma safe_insp_at w {A} (k : inspector → IM A) :
  (∀ i, world_of i = w → safe (at_world w) (k i)) → safe (at_world w) (m_bind k insp).
Proof. intros Hk. apply safe_insp. intros i _ Hi. by apply Hk. Qed.

Lemma safe_AddCallFrameInfo C f : safe C (AddCallFrameInfo f).
Proof. apply safe_bind; [apply safe_announced|]. intros. apply safe_ret. Qed.

Lemma safe_async_frames C resolve frames : safe C (async_frames resolve frames).
Proof.
  induction frames as [|f frames IH]; simpl; [apply safe_ret|]. destruct (resolve f) as [[file line]|]; [|done].
  destruct (line <? 0); [done|]. apply safe_bind; [apply safe_announced|]. intros.
  apply safe_bind; [done|]. intros. apply safe_ret.
Qed.

Lemma safe_async_segments C resolve segments : ∀ trace, safe C (async_segments resolve segments trace).
Proof.
  induction segments as [|sg segments IH]; intros trace; simpl; [apply safe_ret|].
  apply safe_bind; [apply safe_async_frames|]. intros. apply IH.
Qed.

Lemma safe_frames_loop C {F} (process : F → Z → IM (Z * list jout)) frames :
  (∀ f n, f ∈ frames → safe C (process f n)) → ∀ n, safe C (frames_loop process frames n).
Proof.
  induction frames as [|f frames IH]; intros Hp n; simpl; [apply safe_ret|].
  apply safe_bind; [apply Hp; set_solver|]. intros r. apply safe_bind; [apply IH; set_solver|]. intros. apply safe_ret.
Qed.

Lemma safe_static_frame w thread f n : known thread w → is_Some (frame_source f (w_cache w)) →
  safe (at_world w) (ProcessStaticFrame thread AddCallFrameInfo f n).
Proof.
  intros Hk Hf. unfold ProcessStaticFrame. destruct (fr_method f); [|apply safe_ret]. apply safe_insp_at. intros i Hi.
  change (debugInfoCache_ i) with (w_cache (world_of i)). rewrite Hi. destruct Hf as [[[[|c file] name] line] ->]; [apply safe_ret|].
  apply safe_bind; [apply safe_in_repo; [apply frame_object_op|by intros ? ->]|]. intros.
  apply safe_bind; [apply safe_AddCallFrameInfo|]. intros. apply safe_ret.
Qed.

Lemma safe_dynamic_frame C f n : safe C (ProcessDynamicFrame AddCallFrameInfo f n).
Proof.
  apply safe_insp. intros i _ _. destruct (FrameInfoExtractor.ExtractDynamicFrameInfo _ _ _ _) as [ok info].
  destruct (_ || _); [apply safe_ret|]. apply safe_bind; [apply safe_AddCallFrameInfo|]. intros. apply safe_ret.
Qed.

Lemma safe_PauseOthers C thread : safe C (PauseOtherThreads thread).
Proof. apply safe_each. intros t. destruct (_ =? _); [apply safe_ret|by apply safe_command]. Qed.

Lemma safe_frames w thread : readable w → known thread w →
  safe (at_world w)
    (match UnionStack (w_runtime w) with [] => EnumerateStaticFrames thread | _ => EnumerateHybridFrames thread end AddCallFrameInfo).
Proof.
  intros (Hf&Hu&_) Hk. destruct (UnionStack (w_runtime w)) eqn:Eu.
  - apply safe_insp_at. intros j Hj. apply safe_frames_loop. intros f n Hin.
    apply safe_static_frame; [done|]. apply (Hf thread).
    change (f ∈ EnumerateFrames (w_runtime (world_of j)) thread) in Hin. by rewrite Hj in Hin.
  - apply safe_insp_at. intros j Hj. apply safe_frames_loop. intros [f|f] n Hin; [|apply safe_dynamic_frame].
    apply safe_static_frame; [done|]. apply Hu.
    change (inl f ∈ UnionStack (w_runtime (world_of j))) in Hin. by rewrite Hj, Eu in Hin.
Qed.

(** The event, with what it shows of the hit breakpoints. *)
Definition paused_with (hit : list Z) (message : fields) : Prop :=
  ∃ sessionId ps, message = event_message sessionId "Debugger.paused" ps ∧
    ("hitBreakpoints"%string, OutArr (AddHitBreakpoints hit)) ∈ ps.

Lemma quiet_outbox s s' m : quiet s s' → m ∈ outbox (sv_endpoint s) → m ∈ outbox (sv_endpoint s').
Proof. intros (l&r&_&->) Hm. simpl. apply elem_of_app. by left. Qed.

Lemma paused_sends w thread hit exception reason (frames : (frame_shown → IM jout) → IM (list jout)) trace s :
  safe (at_world w) (frames AddCallFrameInfo) → server_wf s → world s = w →
  ∃ s' m, CallDebuggerPaused thread hit exception reason frames trace s = Ret () s' ∧ server_wf s' ∧ quiet s s' ∧
    world s' = w ∧ status s' = status s ∧ paused_with hit m ∧ m ∈ outbox (sv_endpoint s').
Proof.
  intros Hf Hs Hw. unfold CallDebuggerPaused. set (sid := GetSessionIdByThread thread (sessionManager_ s)).
  rewrite (m_bind_ret _ _ _ _ _ (eq_refl : session_of thread s = Ret sid s)).
  destruct (Hf s Hs Hw) as (js&s1&E1&Hs1&Hq1&Hw1&Ht1). unfold Call.
  rewrite (m_bind_ret _ _ _ _ _ (eq_refl : m_get s = Ret s s)). simpl. rewrite (sv_async _ Hs).
  rewrite m_bind_assoc, (m_bind_ret _ _ _ _ _ E1), m_bind_assoc, (m_bind_ret _ _ _ _ _ (eq_refl : m_get s1 = Ret s1 s1)).
  lazymatch goal with |- context [m_bind ?k (m_ret ?ps) s1] =>
    rewrite (m_bind_ret k (m_ret ps) s1 ps s1 eq_refl); set (ps' := ps) end.
  assert (Hm : target_of (event_message sid "Debugger.paused" ps') = None) by (by apply plain_event_target).
  destruct (safe_send anywhere _ Hm (is_event_message sid "Debugger.paused" ps') s1 Hs1 I) as ([]&s2&E2&Hs2&Hq2&Hw2&Ht2).
  exists s2, (event_message sid "Debugger.paused" ps'). split; [exact E2|]. split; [done|]. split; [by etrans|].
  split; [by rewrite Hw2, Hw1|]. split; [congruence|]. split.
  - exists sid, ps'. split; [done|]. unfold ps'. set_unfold. tauto.
  - unfold SendMessage in E2. rewrite (m_bind_ret _ _ _ _ _ (eq_refl : m_get s1 = Ret s1 s1)) in E2. simpl in E2.
    rewrite (sv_async _ Hs1), (sv_connected _ Hs1) in E2. injection E2 as <-. simpl. set_solver.
Qed.

Lemma post_sends w thread hit exception reason s : readable w → known thread w → server_wf s → world s = w →
  ∃ s' m, DebuggableThreadPostSuspend thread hit exception reason s = Ret () s' ∧ server_wf s' ∧ quiet s s' ∧
    world s' = w ∧ status s' = status s ∧ paused_with hit m ∧ m ∈ outbox (sv_endpoint s').
Proof.
  intros Hr Hk Hs Hw. unfold DebuggableThreadPostSuspend.
  set (pre := match exception with Some e => _ | None => _ end).
  assert (Hpre : safe (at_world w) pre).
  { unfold pre. destruct exception; [|apply safe_ret]. apply safe_bind; [|intros; apply safe_ret].
    apply safe_in_repo; [by apply object_op|by intros ? ->]. }
  destruct (Hpre s Hs Hw) as (ex&s1&E1&Hs1&Hq1&Hw1&Ht1). rewrite (m_bind_ret _ _ _ _ _ E1), (m_bind_ret _ _ _ _ _ (insp_ret s1)).
  set (async := match CurrentAsyncStack _ with Some _ => _ | None => _ end).
  assert (Ha : safe anywhere async).
  { unfold async. destruct (CurrentAsyncStack _); [apply safe_async_segments|apply safe_ret]. }
  destruct (Ha s1 Hs1 I) as (trace&s2&E2&Hs2&Hq2&Hw2&Ht2). rewrite (m_bind_ret _ _ _ _ _ E2).
  change (in_runtime (sv_inspector s1)) with (w_runtime (world s1)). rewrite Hw1, Hw.
  destruct (paused_sends w thread hit ex reason _ trace s2 (safe_frames w thread Hr Hk) Hs2) as (s3&m&E3&Hs3&Hq3&Hw3&Ht3&Hm&Hin);
    [by rewrite Hw2, Hw1|]. rewrite (m_bind_ret _ _ _ _ _ E3).
  assert (Hpost : safe (at_world w) (match hit with [] => m_ret () | _ => PauseOtherThreads thread end)).
  { destruct hit; [apply safe_ret|apply safe_PauseOthers]. }
  destruct (Hpost s3 Hs3 Hw3) as ([]&s4&E4&Hs4&Hq4&Hw4&Ht4). exists s4, m. split; [exact E4|]. split; [done|].
  split; [etrans; [exact Hq1|]; etrans; [exact Hq2|]; by etrans|]. split; [congruence|]. split; [congruence|]. split; [done|]. by eapply quiet_outbox.
Qed.

Lemma safe_post_suspend thread : safe readable (post_suspend thread).
Proof.
  apply safe_at. intros w Hw. apply safe_insp_at. intros i Hi. destruct (find_thread thread i) as [sl|] eqn:E; [|apply safe_ret].
  destruct (bool_decide _); [|apply safe_ret].
  assert (Hk : known thread w).
  { rewrite <- Hi. apply list_elem_of_fmap. eexists. split; [|by apply find_thread_elem]. done. }
  apply safe_bind; [|intros _ s Hs Hs'].
  2: { destruct (sl_cause sl) as [l|]; [destruct (post_sends w thread (GetBreakpointsByLocation (in_breakpoints i) l) None
      (pauseReason_ (state_ (sl_thread sl))) s Hw Hk Hs Hs') as (s'&_&?&?&?&?&?&_)|
      destruct (post_sends w thread [] (GetException (in_runtime i) thread)
      (pauseReason_ (state_ (sl_thread sl))) s Hw Hk Hs Hs') as (s'&_&?&?&?&?&?&_)]; exists (), s'; by rewrite Hs'. }
  apply safe_with_slot; [|done]. intros sl' ?. apply slot_repository_wf; [done|]. apply repository_init_wf.
Qed.

(** ** Hooks *)

(** A thread that reports something runs. *)
Definition running (thread : PtThread) (s : server_state inspector) : Prop :=
  ∀ sl, find_thread thread (sv_inspector s) = Some sl → app (sl_thread sl) = Running.

Lemma with_slot_found thread f s sl : find_thread thread (sv_inspector s) = Some sl →
  with_slot thread f s = Ret () (put (set_slot thread (f sl) (sv_inspector s)) s).
Proof. intros E. unfold with_slot, upd_insp, m_modify, put. by rewrite E. Qed.

Lemma slot_cause_wf c sl : slot_wf sl → slot_wf (slot_cause c sl).
Proof. by intros []. Qed.

(** The part that a step and an exception share. *)
Lemma notify_returns thread cause e s : server_wf s → readable (world s) → running thread s →
  (∀ d, app d = Running → is_Some (dt_exec e d)) → (∀ r, e ≠ RequestToObjectRepository r) →
  ∃ s', (with_slot thread (slot_cause cause) ;;; thread_do thread e ;;; post_suspend thread) s = Ret () s' ∧
    server_wf s' ∧ quiet s s'.
Proof.
  intros Hs Hr Hrun He Hne.
  destruct (safe_with_slot anywhere thread (slot_cause cause) (slot_cause_wf cause) (λ _, eq_refl) s Hs I) as ([]&s1&E1&Hs1&Hq1&Hw1&_).
  rewrite (m_bind_ret _ _ _ _ _ E1).
  destruct (thread_do_returns thread e s1 Hs1 Hne) as (s2&E2&Hs2&Hq2&Hw2).
  { intros sl Hf. apply He. simpl. destruct (find_thread thread (sv_inspector s)) as [sl0|] eqn:E0.
    - rewrite (with_slot_found _ _ _ _ E0) in E1. injection E1 as <-. simpl in Hf.
      rewrite (find_set_slot _ _ _ (mk_is_Some _ _ E0)) in Hf. injection Hf as <-. exact (Hrun sl0 E0).
    - unfold with_slot, upd_insp, m_modify in E1. rewrite E0 in E1. injection E1 as <-. simpl in Hf. congruence. }
  rewrite (m_bind_ret _ _ _ _ _ E2).
  destruct (safe_post_suspend thread s2 Hs2) as ([]&s3&E3&Hs3&Hq3&_); [by rewrite Hw2, Hw1|].
  exists s3. split; [done|]. split; [done|]. etrans; [exact Hq1|]. by etrans.
Qed.

Lemma exception_returns thread off s : server_wf s → readable (world s) → running thread s →
  ∃ s', Hook_Exception thread off s = Ret () s' ∧ server_wf s' ∧ quiet s s'.
Proof.
  intros Hs Hr Hrun. unfold Hook_Exception. rewrite (m_bind_ret _ _ _ _ _ (get_thread_ret thread s)).
  destruct (find_thread thread (sv_inspector s)); [|by exists s].
  apply notify_returns; [done..| |done]. intros d Ha. simpl. rewrite Ha. by eexists.
Qed.

Lemma step_thread_returns thread l s : server_wf s → readable (world s) → running thread s →
  ∃ s', step_thread thread l s = Ret () s' ∧ server_wf s' ∧ quiet s s'.
Proof.
  intros Hs Hr Hrun. unfold step_thread. rewrite (m_bind_ret _ _ _ _ _ (insp_ret s)).
  destruct (@entries_stop (ConditionValue (in_runtime (sv_inspector s)) thread) (in_breakpoints (sv_inspector s)) l)
    as [bp ->]; [apply Hs|].
  apply notify_returns; [done..| |done]. intros d Ha. simpl. rewrite Ha. simpl.
  destruct (OnSingleStep _ _ _ _). by eexists.
Qed.

Lemma single_step_returns thread method l s : server_wf s → readable (world s) → running thread s →
  ∃ s', Hook_SingleStep thread method l s = Ret () s' ∧ server_wf s' ∧ quiet s s'.
Proof.
  intros Hs Hr Hrun. unfold Hook_SingleStep. rewrite (m_bind_ret _ _ _ _ _ (insp_ret s)).
  destruct (GetUserSourceFile _ _) as [file|]; [|by exists s]. case_decide; [by exists s|].
  destruct (sourceFiles_ (sv_inspector s) !! c_str file) as [b|]; [|by exists s].
  destruct (_ && _); [by exists s|].
  set (m := if b then _ else _).
  assert (Hm : ∃ s1, m s = Ret () s1 ∧ server_wf s1 ∧ quiet s s1 ∧ world s1 = world s ∧ running thread s1).
  { unfold m. destruct b; [|by exists s]. eexists. split; [done|].
    split; [apply put_inspector_wf; [done|]; apply (threads_wf (sv_inspector s)); [done|done|apply Hs]|].
    split; [apply put_inspector_quiet|]. by split. }
  destruct Hm as (s1&E1&Hs1&Hq1&Hw1&Hr1). rewrite (m_bind_ret _ _ _ _ _ E1).
  rewrite (m_bind_ret _ _ _ _ _ (get_thread_ret thread s1)).
  destruct (find_thread thread (sv_inspector s1)); [|by exists s1].
  destruct (step_thread_returns thread l s1 Hs1) as (s2&E2&Hs2&Hq2); [by rewrite Hw1|done|].
  exists s2. split_and!; [done|done|by etrans].
Qed.

Lemma frame_pop_returns thread s : server_wf s → running thread s →
  ∃ s', Hook_FramePop thread s = Ret () s' ∧ server_wf s' ∧ quiet s s'.
Proof.
  intros Hs Hrun. destruct (thread_do_returns thread NotifyFramePop s Hs) as (s'&E&Hs'&Hq&_); [done| |by exists s'].
  intros sl Hf. simpl. rewrite (Hrun sl Hf). by eexists.
Qed.

(** A command that does not resume leaves the thread running. *)
Lemma command_running thread c s : server_wf s → running thread s → resumes c = false →
  ∃ s', command_thread thread c s = Ret () s' ∧ server_wf s' ∧ quiet s s' ∧ running thread s'.
Proof.
  intros Hs Hrun Hc. destruct (safe_command anywhere thread c Hc s Hs I) as ([]&s'&E&Hs'&Hq&_).
  exists s'. split_and!; [done..|]. destruct (find_thread thread (sv_inspector s)) as [sl|] eqn:E0.
  - pose proof (find_thread_slot _ _ _ (sv_inspector_wf _ Hs) E0) as Hsl.
    set (d := with_state (state_ (sl_thread sl)) (in_hybrid (sv_inspector s)) (sl_thread sl)).
    destruct (command_enabled c d) as [d' Hd]; [apply Hsl|].
    unfold command_thread in E.
    rewrite (m_bind_ret _ _ _ _ _ (get_thread_ret thread s)) in E.
    rewrite (m_bind_ret _ _ _ _ _ (thread_do_exec _ _ _ _ _ E0 Hd)), E0, Hc in E. injection E as <-.
    intros sl' Hf. simpl in Hf. rewrite find_set_hybrid, (find_set_slot _ _ _ (mk_is_Some _ _ E0)) in Hf. injection Hf as <-. simpl.
    simpl in Hd. rewrite (sl_idle _ Hsl) in Hd. simpl in Hd. destruct (apply_command c _ _). rewrite Hc in Hd.
    injection Hd as <-. exact (Hrun sl E0).
  - unfold command_thread in E.
    rewrite (m_bind_ret _ _ _ _ _ (get_thread_ret thread s)) in E.
    assert (Et : thread_do thread (Command c) s = Ret () s)
      by (unfold thread_do, insp, m_bind, m_get, m_ret; by rewrite E0).
    rewrite (m_bind_ret _ _ _ _ _ Et), E0 in E. injection E as <-. done.
Qed.

Lemma method_entry_returns thread method s : server_wf s → running thread s →
  ∃ s', Hook_MethodEntry thread method s = Ret () s' ∧ server_wf s' ∧ quiet s s'.
Proof.
  intros Hs Hrun. unfold Hook_MethodEntry. rewrite (m_bind_ret _ _ _ _ _ (insp_ret s)).
  destruct (StackIsCFrame _ _); [by exists s|]. destruct (find_thread thread (sv_inspector s)) eqn:E0; [|by exists s].
  set (m := match GetUserSourceFile _ _ with Some _ => _ | None => _ end).
  assert (Hm : ∃ s1, m s = Ret () s1 ∧ server_wf s1 ∧ quiet s s1 ∧ running thread s1).
  { unfold m. destruct (GetUserSourceFile _ _) as [file|]; [|by exists s].
    destruct (sourceFiles_ _ !! _); [by exists s|]. set (f := λ i, set_sourceFiles _ i).
    destruct (command_running thread CmdBreakOnStart (put (f (sv_inspector s)) s)) as (s1&E1&Hs1&Hq1&Hr1); [|done|done|].
    - apply put_inspector_wf; [done|]. apply (threads_wf (sv_inspector s)); [done|done|apply Hs].
    - exists s1. split_and!; [|done..]. by rewrite (m_bind_ret _ _ _ _ _ (eq_refl : upd_insp f s = Ret () (put (f (sv_inspector s)) s))). }
  destruct Hm as (s1&E1&Hs1&Hq1&Hr1). rewrite (m_bind_ret _ _ _ _ _ E1).
  rewrite (m_bind_ret _ _ _ _ _ (get_thread_ret thread s1)).
  destruct (thread_do_returns thread NotifyMethodEntry s1 Hs1) as (s2&E2&Hs2&Hq2&_); [done|..].
  { intros sl Hf. simpl. rewrite (Hr1 sl Hf). by eexists. }
  rewrite (m_bind_ret _ _ _ _ _ E2). assert (Hq : quiet s s2) by (by etrans).
  destruct (find_thread thread (sv_inspector s1)); [|by exists s2]. destruct (OnMethodEntry _).1; [|by exists s2].
  eexists. split; [done|]. split; [apply put_inspector_wf; [done|]; apply (threads_wf (sv_inspector s2)); [done|done|apply Hs2]|].
  done.
Qed.

Lemma console_safe C thread type time args : Forall plain_value args → safe C (Hook_ConsoleCall thread type time args).
Proof.
  intros Ha. apply safe_bind; [apply safe_GetDebuggableThread|]. intros [sl|]; [|apply safe_ret].
  apply safe_bind.
  - apply safe_in_fresh. intros h r Hr. revert r Hr. induction Ha as [|v args Hv Ha IH]; intros r Hr; simpl; [by eexists _, _|].
    destruct (object_op v Hv h r Hr) as (o&r1&E1&Hr1). destruct (IH r1 Hr1) as (os&r2&E2&Hr2).
    rewrite (m_bind_ret _ _ _ _ _ E1), (m_bind_ret _ _ _ _ _ E2). by eexists _, _.
  - intros os. unfold CallRuntimeConsoleApiCalled. apply safe_bind; [apply safe_session_of|]. intros. apply safe_Call; [done|apply safe_ret].
Qed.

Lemma insert_thread_perm thread sl l : insert_thread thread sl l ≡ₚ (thread, sl) :: l.
Proof.
  induction l as [|p l IH]; simpl; [done|]. destruct (thread_before thread p.1); [done|].
  rewrite IH. apply Permutation_swap.
Qed.

Lemma dthread_init_inv : dt_inv dthread_init.
Proof. done. Qed.

Lemma Call_sends sessionId method ps (s : server_state inspector) :
  syncMode_ (sv_endpoint s) = false → connected_ (sv_endpoint s) = true →
  Call sessionId method (m_ret ps) s =
    Ret () (set_ep (sent (sv_endpoint s) [event_message sessionId method ps] (running_ (sv_endpoint s))) s).
Proof.
  intros Ha Hc. unfold Call, SendMessage, m_bind, m_get, m_ret. simpl. rewrite Ha. simpl. by rewrite ?Ha, Hc.
Qed.

Lemma AddSession_dom (thread : PtThread) (m : SessionManager) :
  dom (AddSession thread m).2 = {[ (AddSession thread m).1 ]} ∪ dom m.
Proof.
  unfold AddSession. simpl. destruct (m !! _) eqn:E; [|apply dom_insert_L].
  apply elem_of_dom_2 in E. set_solver.
Qed.

(** The sessions change with the targets of the client. *)
Lemma sessions_wf s m l r : server_wf s → Forall is_event l →
  client_targets (outbox (sv_endpoint s) ++ l) = dom m ∖ {[ [] ]} →
  server_wf (set_ep (sent (sv_endpoint s) l r) (set_sessions m s)) ∧
  quiet s (set_ep (sent (sv_endpoint s) l r) (set_sessions m s)).
Proof.
  intros [Ha Hc Ht Hs Hn Hi] Hl Hm. split; [|by exists l, r].
  split; simpl; [done|done|done|done|by apply announced_more|done].
Qed.

Lemma attached_returns thread s : server_wf s →
  ∃ b s1, CallTargetAttachedToTarget thread s = Ret b s1 ∧ server_wf s1 ∧ quiet s s1 ∧ world s1 = world s.
Proof.
  intros Hs. pose proof (AddSession_dom thread (sessionManager_ s)) as Hd. unfold CallTargetAttachedToTarget.
  unfold m_bind at 1. destruct (AddSession thread (sessionManager_ s)) as [id m]. simpl in Hd.
  destruct (decide (id = [])) as [->|Hid].
  - exists false, (set_sessions m s). destruct (sessions_wf s m [] (running_ (sv_endpoint s)) Hs) as [Hw Hq]; [constructor|..].
    { rewrite app_nil_r, (sv_targets _ Hs), Hd. set_solver. }
    assert (E : set_ep (sent (sv_endpoint s) [] (running_ (sv_endpoint s))) (set_sessions m s) = set_sessions m s).
    { unfold sent, set_sessions. simpl. rewrite app_nil_r. by destruct (sv_endpoint s). }
    rewrite E in Hw, Hq. by split_and!.
  - unfold SendTargetAttachedToTarget.
    pose proof (Call_sends [] "Target.attachedToTarget" (attachedToTarget_params id) (set_sessions m s) (sv_async _ Hs) (sv_connected _ Hs)) as E.
    rewrite (m_bind_ret _ _ _ _ _ E). eexists true, _. split; [done|].
    destruct (sessions_wf s m [event_message [] "Target.attachedToTarget" (attachedToTarget_params id)] (running_ (sv_endpoint s)) Hs) as [Hw Hq]; [|..|done].
    + repeat constructor. apply is_event_message.
    + rewrite client_targets_app, (sv_targets _ Hs), Hd. unfold see_target. simpl. set_solver.
Qed.

Lemma detached_returns thread s : server_wf s →
  ∃ s1, CallTargetDetachedFromTarget thread s = Ret () s1 ∧ server_wf s1 ∧ quiet s s1 ∧ world s1 = world s.
Proof.
  intros Hs. unfold CallTargetDetachedFromTarget. set (id := GetSessionIdByThread thread (sessionManager_ s)).
  rewrite (m_bind_ret _ _ _ _ _ (eq_refl : session_of thread s = Ret id s)).
  set (m := RemoveSession id (sessionManager_ s)). set (f := λ s : server_state inspector, set_sessions _ s).
  rewrite (m_bind_ret _ _ _ _ _ (eq_refl : m_modify f s = Ret () (set_sessions m s))).
  assert (Hd : dom m = dom (sessionManager_ s) ∖ {[id]}) by apply dom_delete_L.
  destruct (decide (id = [])) as [Hid|Hid].
  - eexists. split; [done|]. destruct (sessions_wf s m [] (running_ (sv_endpoint s)) Hs) as [Hw Hq]; [constructor|..].
    { rewrite app_nil_r, (sv_targets _ Hs), Hd, Hid. set_solver. }
    assert (E : set_ep (sent (sv_endpoint s) [] (running_ (sv_endpoint s))) (set_sessions m s) = set_sessions m s).
    { unfold sent, set_sessions. simpl. rewrite app_nil_r. by destruct (sv_endpoint s). }
    rewrite E in Hw, Hq. by split_and!.
  - pose proof (Call_sends [] "Target.detachedFromTarget" [("sessionId", OutStr id)] (set_sessions m s)
      (sv_async _ Hs) (sv_connected _ Hs)) as E.
    eexists. split; [exact E|].
    destruct (sessions_wf s m [event_message [] "Target.detachedFromTarget" [("sessionId", OutStr id)]]
      (running_ (sv_endpoint s)) Hs) as [Hw Hq]; [|..|done].
    + repeat constructor. apply is_event_message.
    + rewrite client_targets_app, (sv_targets _ Hs), Hd. unfold see_target. simpl. set_solver.
Qed.

Lemma thread_start_returns thread s : server_wf s → thread ∉ w_threads (world s) →
  ∃ s', Hook_ThreadStart thread s = Ret () s' ∧ server_wf s' ∧ quiet s s'.
Proof.
  intros Hs Hnew. unfold Hook_ThreadStart.
  assert (Ha : ∃ b s1, (if decide (thread = PtThread_NONE) then m_ret true else CallTargetAttachedToTarget thread) s = Ret b s1 ∧
    server_wf s1 ∧ quiet s s1 ∧ world s1 = world s).
  { case_decide; [by exists true, s|by apply attached_returns]. }
  destruct Ha as (b&s1&E1&Hs1&Hq1&Hw1). rewrite (m_bind_ret _ _ _ _ _ E1). eexists. split; [done|].
  split; [|done]. apply put_inspector_wf; [done|]. destruct (sv_inspector_wf _ Hs1) as [Hn Hsl He].
  rewrite <- Hw1 in Hnew. simpl in Hnew. split; simpl; [|..|done].
  - rewrite insert_thread_perm. simpl. by constructor.
  - intros t sl. rewrite insert_thread_perm, elem_of_cons. intros [[= -> ->]|Hin]; [|by eapply Hsl].
    split; simpl; [apply dthread_init_inv|done|apply repository_init_wf|done].
Qed.

Lemma thread_end_returns thread s : server_wf s → ∃ s', Hook_ThreadEnd thread s = Ret () s' ∧ server_wf s' ∧ quiet s s'.
Proof.
  intros Hs. unfold Hook_ThreadEnd.
  assert (Ha : ∃ s1, (if decide (thread = PtThread_NONE) then m_ret () else CallTargetDetachedFromTarget thread) s = Ret () s1 ∧
    server_wf s1 ∧ quiet s s1 ∧ world s1 = world s).
  { case_decide; [by exists s|by apply detached_returns]. }
  destruct Ha as (s1&E1&Hs1&Hq1&Hw1). rewrite (m_bind_ret _ _ _ _ _ E1). eexists. split; [done|].
  split; [|done]. apply put_inspector_wf; [done|]. destruct (sv_inspector_wf _ Hs1) as [Hn Hsl He].
  split; simpl; [|..|done].
  - eapply sublist_NoDup; [exact Hn|]. apply fmap_sublist, sublist_filter.
  - intros t sl [_ Hin]%list_elem_of_filter. by eapply Hsl.
Qed.

Lemma woken_up_returns thread s : server_wf s → readable (world s) →
  (∀ sl, find_thread thread (sv_inspector s) = Some sl → app (sl_thread sl) = InSuspend ∧ managedSuspended (sl_thread sl) = false) →
  ∃ s', woken_up thread s = Ret () s' ∧ server_wf s' ∧ quiet s s'.
Proof.
  intros Hs Hr Hen. unfold woken_up. destruct (thread_do_returns thread WakeUp s Hs) as (s1&E1&Hs1&Hq1&Hw1); [done|..].
  { intros sl Hf. destruct (Hen sl Hf) as [Ha Hm]. simpl. rewrite decide_True by done. by eexists. }
  rewrite (m_bind_ret _ _ _ _ _ E1). destruct (safe_post_suspend thread s1 Hs1) as ([]&s2&E2&Hs2&Hq2&_); [by rewrite Hw1|].
  exists s2. split_and!; [done|done|by etrans].
Qed.

(** ** All hooks *)

Inductive hook :=
| ConsoleCall (thread : PtThread) (type : ConsoleCallType) (timestamp : Z) (arguments : list TypedValue)
| ExceptionHook (thread : PtThread) (catchOffset : Z)
| FramePop (thread : PtThread)
| MethodEntry (thread : PtThread) (method : Method)
| LoadModule (fileName : bytes)
| SingleStep (thread : PtThread) (method : Method) (location : PtLocation)
| ThreadStart (thread : PtThread)
| ThreadEnd (thread : PtThread)
| VmDeath
| NativeMethodCall (thread : PtThread) (nativeAddress : Z)
| NativeMethodWait
| WokenUp (thread : PtThread).

Definition hook_op (h : hook) : IM () :=
  match h with
  | ConsoleCall t type time args => Hook_ConsoleCall t type time args
  | ExceptionHook t off => Hook_Exception t off
  | FramePop t => Hook_FramePop t
  | MethodEntry t m => Hook_MethodEntry t m
  | LoadModule f => Hook_LoadModule f
  | SingleStep t m l => Hook_SingleStep t m l
  | ThreadStart t => Hook_ThreadStart t
  | ThreadEnd t => Hook_ThreadEnd t
  | VmDeath => Hook_VmDeath
  | NativeMethodCall t a => Hook_NativeMethodCall t a ;;; m_ret ()
  | NativeMethodWait => NativeMethodCall_wait
  | WokenUp t => woken_up t
  end.

(** When the runtime may call a hook: a thread that reports runs, a thread that
    starts is new, one that wakes up was resumed. *)
Definition hook_enabled (h : hook) (s : server_state inspector) : Prop :=
  match h with
  | ConsoleCall _ _ _ args => Forall plain_value args
  | ExceptionHook t _ | FramePop t | MethodEntry t _ | SingleStep t _ _ => running t s
  | ThreadStart t => t ∉ w_threads (world s)
  | WokenUp t => ∀ sl, find_thread t (sv_inspector s) = Some sl →
      app (sl_thread sl) = InSuspend ∧ managedSuspended (sl_thread sl) = false
  | _ => True
  end.

Lemma native_call_returns thread a s : server_wf s →
  ∃ b s', Hook_NativeMethodCall thread a s = Ret b s' ∧ server_wf s' ∧ quiet s s'.
Proof.
  intros Hs. unfold Hook_NativeMethodCall. rewrite (m_bind_ret _ _ _ _ _ (insp_ret s)).
  destruct (mixedDebugEnabled_ _); simpl; [|by exists false, s]. destruct (find_thread _ _) as [sl|]; [|by exists false, s].
  destruct (IsStepInto sl); simpl; [|by exists false, s].
  assert (Ha : safe anywhere (SendNativeMethodCallEvent thread a true : IM ())).
  { apply safe_bind; [apply safe_session_of|]. intros. apply safe_Call; [done|apply safe_ret]. }
  destruct (Ha s Hs I) as ([]&s1&E1&Hs1&Hq1&_). rewrite (m_bind_ret _ _ _ _ _ E1). by exists true, s1.
Qed.

Lemma native_wait_blocks s : server_wf s →
  ∃ s', NativeMethodCall_wait s = Block s' ∧ nativeMethodCallWaiting_ (sv_inspector s') = true ∧ server_wf s' ∧ quiet s s'.
Proof.
  intros Hs. exists (put (set_waiting true (sv_inspector s)) s). split_and!; [done|done| |exact (put_inspector_quiet s _)].
  apply put_inspector_wf; [done|]. apply (threads_wf (sv_inspector s)); [done|done|apply Hs].
Qed.

(** The hooks that do not depend on a running thread. *)
Lemma hook_returns h s : server_wf s → readable (world s) → hook_enabled h s →
  (∃ s', hook_op h s = Ret () s' ∧ server_wf s' ∧ quiet s s') ∨
  (∃ s', h = NativeMethodWait ∧ hook_op h s = Block s' ∧ nativeMethodCallWaiting_ (sv_inspector s') = true ∧
     server_wf s' ∧ quiet s s').
Proof.
  intros Hs Hr He. destruct h as [t ty time args|t off|t|t m|f|t m l|t|t| |t a| |t]; simpl in He; [left..| |left].
  - destruct (console_safe anywhere t ty time args He s Hs I) as ([]&s'&E&Hs'&Hq&_). by exists s'.
  - by apply exception_returns.
  - by apply frame_pop_returns.
  - by apply method_entry_returns.
  - eexists. split; [done|]. split; [|exact (put_inspector_quiet s _)].
    apply put_inspector_wf; [done|]. apply (threads_wf (sv_inspector s)); [done|done|apply Hs].
  - by apply single_step_returns.
  - by apply thread_start_returns.
  - by apply thread_end_returns.
  - set (s1 := put (set_dead (sv_inspector s)) s).
    assert (Hs1 : server_wf s1).
    { apply put_inspector_wf; [done|]. apply (threads_wf (sv_inspector s)); [done|done|apply Hs]. }
    assert (Ha : safe anywhere (CallRuntimeExecutionContextsCleared : IM ())) by (apply safe_Call; [done|apply safe_ret]).
    destruct (Ha s1 Hs1 I) as ([]&s2&E2&Hs2&Hq2&_). exists s2. by split.
  - destruct (native_call_returns t a s Hs) as (b&s'&E&Hs'&Hq). exists s'. simpl. by rewrite (m_bind_ret _ _ _ _ _ E).
  - destruct (native_wait_blocks s Hs) as (s'&E&Hw&Hs'&Hq). right. by exists s'.
  - by apply woken_up_returns.
Qed.

(** ** Reachable states *)

Definition server_init (r : runtime) : server_state inspector :=
  mkServer (mkEndpoint true [] false [] false) ∅ sources_init (inspector_init r).

(** Requests and hooks, in any order; the program runs in between. *)
Inductive reachable : server_state inspector → Prop :=
| reachable_init r : reachable (server_init r)
| reachable_request msg s s' :
    reachable s → readable (world s) → Inspector_Run msg s = Ret () s' → reachable s'
| reachable_hook h s :
    reachable s → readable (world s) → hook_enabled h s → reachable (state_of (hook_op h s))
| reachable_runtime r s : reachable s → reachable (put (set_runtime r (sv_inspector s)) s).

Lemma server_init_wf r : server_wf (server_init r).
Proof.
  split; simpl; [done|done| |apply sources_init_wf| |].
  - rewrite dom_empty_L. set_solver.
  - intros id key. unfold sources_init. simpl. by rewrite lookup_empty.
  - split; simpl; [constructor| |]; [by intros ?? ?%elem_of_nil|]. by intros ?? ?%elem_of_nil.
Qed.

Lemma Run_wf msg s s' : server_wf s → readable (world s) → Inspector_Run msg s = Ret () s' → server_wf s'.
Proof.
  intros Hs Hr E. destruct (request_answer msg s Hs Hr) as (s1&l&E1&Hs1&_). congruence.
Qed.

Lemma reachable_wf s : reachable s → server_wf s.
Proof.
  induction 1 as [r|msg s s' _ IH Hr E|h s _ IH Hr He|r s _ IH].
  - apply server_init_wf.
  - by eapply Run_wf.
  - destruct (hook_returns h s IH Hr He) as [(s'&E&Hs'&_)|(s'&_&E&_&Hs'&_)]; rewrite E; exact Hs'.
  - apply put_inspector_wf; [done|]. apply (threads_wf (sv_inspector s)); [done|done|apply IH].
Qed.

(** C5: in every state that requests of the client and hooks of the runtime lead
    to, in any order, the client knows the server's names: every script id in use
    has been announced with its file, and the targets that were attached and not
    detached are exactly the named sessions; a suspended thread is paused; and the
    breakpoints of a location can all be looked up. *)
Theorem static_client_view s :
  reachable s →
  (∀ id key, idToScript_ (sourceManager_ s) !! id = Some key →
     event_message [] "Debugger.scriptParsed" (scriptParsed_params id key.1) ∈ outbox (sv_endpoint s)) ∧
  client_targets (outbox (sv_endpoint s)) = dom (sessionManager_ s) ∖ {[ [] ]} ∧
  (∀ t sl, find_thread t (sv_inspector s) = Some sl → suspended_ (sl_thread sl) = true → paused_ (state_ (sl_thread sl)) = true) ∧
  (∀ t l, is_Some (ShouldStopAtBreakpoint (H := ConditionValue (in_runtime (sv_inspector s)) t) (in_breakpoints (sv_inspector s)) l)).
Proof.
  intros Hs%reachable_wf. split; [apply Hs|]. split; [apply Hs|]. split.
  - intros t sl Hf Hsus. destruct (find_thread_slot _ _ _ (sv_inspector_wf _ Hs) Hf) as [Hi Hid _ _].
    unfold dt_inv in Hi. rewrite Hid in Hi. destruct (app (sl_thread sl)); [by destruct Hi as (_&?&_); congruence|].
    by apply Hi.
  - intros t l. apply entries_stop, Hs.
Qed.

(** C2: the requests of the client. In every reachable state, handling whatever
    message arrives returns, and leads to a reachable state. A request with a
    method of the protocol and an id is answered exactly once, with the id and the
    session of the request, behind nothing but events; without an id it is
    ignored; a method that is not of the protocol gets the error of an unknown
    method, and what is not a request gets nothing. *)
Theorem static_request_answered (msg : bytes) s :
  reachable s → readable (world s) →
  ∃ s' l, Inspector_Run msg s = Ret () s' ∧ reachable s' ∧
    outbox (sv_endpoint s') = outbox (sv_endpoint s) ++ l ∧ response msg l.
Proof.
  intros Hs Hr. destruct (request_answer msg s (reachable_wf s Hs) Hr) as (s'&l&E&_&Ho&Hl).
  exists s', l. split_and!; [done| |done..]. by eapply reachable_request.
Qed.

End runs.
