(* ===== verification/StaticDebugging.v ===== *)
(** * Debugging with the static inspector

    What the client gets: a breakpoint that was set stops the thread that reaches
    it, and continuing resumes the threads it should. These put together the
    server, the debug information, the breakpoint storage and the state of the
    threads. *)

From S2P Require Import Prelude Regex Http CppLib PtJson HybridFrames StaticBreakpoints ThreadState DebuggableThread.
From S2P Require Import StaticTypes StaticObjects StaticSessions StaticDebugInfo StaticEndpoint StaticServer StaticInspector.
From S2P Require Import StaticHooks StaticInvariant StaticAnswers StaticRuns.
Local Open Scope Z_scope.
Local Open Scope ark_scope.

(** ** Breakpoints in the storage *)

(** A breakpoint without a condition stops at its locations. *)
Lemma set_breakpoint_hits filter line locs b loc :
  loc ∈ locs → breakpointsActive_ b = true →
  (SetBreakpoint filter line None locs b).1 = Some (nextBreakpointId_ b) ∧
  nextBreakpointId_ b ∈ GetBreakpointsByLocation (SetBreakpoint filter line None locs b).2 loc.
Proof.
  intros Hl Ha. destruct locs as [|l0 locs]; [by apply elem_of_nil in Hl|]. simpl. split; [done|].
  unfold GetBreakpointsByLocation. simpl. apply list_elem_of_fmap. exists (loc, nextBreakpointId_ b). split; [done|].
  apply list_elem_of_filter. split; [done|]. apply elem_of_app. right.
  exact (list_elem_of_fmap_2 (λ l, (l, nextBreakpointId_ b)) (l0 :: locs) loc Hl).
Qed.

(** One breakpoint that stops is enough. *)
Lemma stop_loop_true `{EvaluationEngine} t loc ids id bp :
  (∀ i, i ∈ ids → is_Some (t !! i)) → id ∈ ids → t !! id = Some bp → ShouldStopAt bp loc = true →
  stop_loop t loc ids = Some true.
Proof.
  intros Hk Hin Hb Hs. induction ids as [|i ids IH]; [by apply elem_of_nil in Hin|]. simpl.
  destruct (Hk i) as [b Hi]; [set_solver|]. rewrite Hi. destruct (ShouldStopAt b loc) eqn:E; [done|].
  apply elem_of_cons in Hin as [->|Hin]; [congruence|]. apply IH; [set_solver|done].
Qed.

Lemma set_breakpoint_stops `{EvaluationEngine} filter line locs b loc :
  entries_known b → loc ∈ locs → breakpointsActive_ b = true →
  ShouldStopAtBreakpoint (SetBreakpoint filter line None locs b).2 loc = Some true.
Proof.
  intros Hb Hl Ha. destruct (set_breakpoint_hits filter line locs b loc Hl Ha) as [_ Hin].
  assert (Hk : entries_known (SetBreakpoint filter line None locs b).2) by (by apply SetBreakpoint_known).
  unfold ShouldStopAtBreakpoint.
  assert (Hact : breakpointsActive_ (SetBreakpoint filter line None locs b).2 = true) by (by destruct locs).
  rewrite Hact. simpl. eapply (stop_loop_true _ _ _ (nextBreakpointId_ b)); [|exact Hin|..].
  - intros i ([l i']&->&[_ Hi]%list_elem_of_filter)%list_elem_of_fmap. by eapply Hk.
  - destruct locs; [by apply elem_of_nil in Hl|]. simpl. apply lookup_insert_eq.
  - simpl. unfold Breakpoint_ShouldStopAt. simpl. change (existsb (λ l, bool_decide (l = loc)) locs = true).
    apply existsb_exists. exists loc. split; [by apply list_elem_of_In|]. by apply bool_decide_eq_true.
Qed.

Section debugging.
Context `{StringHelpers} `{CastOob} `{SignedOverflow} `{JsonText} `{Process} `{Files}.
Context `{LE : LangExt} `{EN : !LangEnum} `{RG : !Registers} `{TH : Threads} `{DI : !DebugInterface} `{OK : !RuntimeOK}.

Abbreviation IM := (M (server_state inspector)).

(** ** A step onto a breakpoint *)

Lemma find_status thread i : (λ sl, (suspended_ (sl_thread sl), app (sl_thread sl))) <$> find_thread thread i =
  snd <$> (snd <$> list_find (λ p : PtThread * (bool * app_pc), p.1 = thread) (status_of i)).
Proof.
  unfold find_thread, status_of. rewrite list_find_fmap. unfold compose. simpl.
  by destruct (list_find _ _) as [[]|].
Qed.

Lemma status_find thread i j sl : status_of i = status_of j → find_thread thread i = Some sl →
  ∃ sl', find_thread thread j = Some sl' ∧ suspended_ (sl_thread sl') = suspended_ (sl_thread sl) ∧
    app (sl_thread sl') = app (sl_thread sl).
Proof.
  intros Hs Hf. pose proof (find_status thread i) as Hi. pose proof (find_status thread j) as Hj.
  rewrite Hs, <- Hj, Hf in Hi. destruct (find_thread thread j) as [sl'|]; [|done]. injection Hi as ? ?. by exists sl'.
Qed.

(** At a breakpoint a thread pauses, whatever it was doing. *)
Lemma breakpoint_pauses l t h : skipAllPauses_ t = false → paused_ (OnSingleStep true l t h).1 = true.
Proof.
  intros Hs. unfold OnSingleStep, thread_ShouldStopAtBreakpoint. rewrite Hs. by destruct (breakOnStart_ t), (GetHybridSingleStepFlag DYNAMIC_TO_STATIC h).
Qed.

Lemma post_suspend_sends thread s sl loc : server_wf s → readable (world s) →
  find_thread thread (sv_inspector s) = Some sl → app (sl_thread sl) = InSuspend → sl_cause sl = AtStep loc →
  ∃ s' m, post_suspend thread s = Ret () s' ∧ status s' = status s ∧
    paused_with (GetBreakpointsByLocation (in_breakpoints (sv_inspector s)) loc) m ∧ m ∈ outbox (sv_endpoint s').
Proof.
  intros Hs Hr Hf Ha Hc. unfold post_suspend. rewrite (m_bind_ret _ _ _ _ _ (insp_ret s)), Hf.
  rewrite bool_decide_eq_true_2 by done.
  destruct (safe_with_slot anywhere thread (slot_repository repository_init)) with (s := s) as ([]&s1&E1&Hs1&Hq1&Hw1&Ht1);
    [intros sl' ?; apply slot_repository_wf; [done|apply repository_init_wf]|done|done|done|].
  rewrite (m_bind_ret _ _ _ _ _ E1), Hc.
  destruct (post_sends (world s) thread (GetBreakpointsByLocation (in_breakpoints (sv_inspector s)) loc) None
    (pauseReason_ (state_ (sl_thread sl))) s1 Hr) as (s2&m&E2&_&_&_&Ht2&Hm&Hin); [|done..|].
  - apply list_elem_of_fmap. eexists. split; [|by apply find_thread_elem]. done.
  - exists s2, m. split; [exact E2|]. split; [congruence|done].
Qed.

Lemma step_hits thread sl loc s : server_wf s → readable (world s) →
  find_thread thread (sv_inspector s) = Some sl → app (sl_thread sl) = Running → skipAllPauses_ (state_ (sl_thread sl)) = false →
  ShouldStopAtBreakpoint (H := ConditionValue (in_runtime (sv_inspector s)) thread) (in_breakpoints (sv_inspector s)) loc = Some true →
  ∃ s' m sl', step_thread thread loc s = Ret () s' ∧ find_thread thread (sv_inspector s') = Some sl' ∧
    suspended_ (sl_thread sl') = true ∧
    paused_with (GetBreakpointsByLocation (in_breakpoints (sv_inspector s)) loc) m ∧ m ∈ outbox (sv_endpoint s').
Proof.
  intros Hs Hr Hf Ha Hsk Hstop. unfold step_thread. rewrite (m_bind_ret _ _ _ _ _ (insp_ret s)), Hstop.
  rewrite (m_bind_ret _ _ _ _ _ (with_slot_found _ _ _ _ Hf)). set (s1 := put _ s).
  assert (F1 : find_thread thread (sv_inspector s1) = Some (slot_cause (AtStep loc) sl))
    by exact (find_set_slot thread _ (sv_inspector s) (mk_is_Some _ _ Hf)).
  assert (Hs1 : server_wf s1).
  { apply put_inspector_wf; [done|]. apply set_slot_wf; [apply Hs|]. apply slot_cause_wf.
    by apply (find_thread_slot _ _ _ (sv_inspector_wf _ Hs) Hf). }
  pose proof (breakpoint_pauses loc (state_ (sl_thread sl)) (in_hybrid (sv_inspector s1)) Hsk) as Hp.
  set (d0 := with_state (state_ (sl_thread sl)) (in_hybrid (sv_inspector s1)) (sl_thread sl)).
  assert (Hd : ∃ d, dt_exec (NotifySingleStep true loc) d0 = Some d ∧ suspended_ d = true ∧ app d = InSuspend).
  { simpl. rewrite Ha. simpl. destruct (OnSingleStep _ _ _ _) as [t' h']. simpl in Hp.
    eexists. split; [done|]. unfold suspend_if_paused. simpl. by rewrite Hp. }
  destruct Hd as (d&Hd&Hsus&Happ).
  assert (E2 := thread_do_exec thread (NotifySingleStep true loc) s1 _ _ F1 Hd).
  destruct (thread_do_returns thread (NotifySingleStep true loc) s1 Hs1) as (s2'&E2'&Hs2&_&Hw2); [done| |].
  { intros sl1 Hf1. rewrite F1 in Hf1. injection Hf1 as <-. by eexists. }
  rewrite E2 in E2'. injection E2' as <-. rewrite (m_bind_ret _ _ _ _ _ E2). set (s2 := put _ s1) in *.
  assert (F2 : find_thread thread (sv_inspector s2) = Some (slot_thread d (slot_cause (AtStep loc) sl)))
    by exact (find_set_slot thread _ (sv_inspector s1) (mk_is_Some _ _ F1)).
  assert (Hr2 : readable (world s2)).
  { rewrite Hw2. unfold world, s1. simpl. by rewrite set_slot_world. }
  destruct (post_suspend_sends thread s2 _ loc Hs2 Hr2 F2 Happ eq_refl) as (s3&m&E3&Ht3&Hm&Hin).
  destruct (status_find thread _ (sv_inspector s3) _ (eq_sym Ht3) F2) as (sl'&F3&Hsus3&_).
  exists s3, m, sl'. split_and!; [exact E3|done|by rewrite Hsus3|done|done].
Qed.

(** ** Setting a breakpoint *)

Lemma announced_inspector file identity s : server_wf s →
  ∃ id s', announced_script file identity s = Ret id s' ∧ server_wf s' ∧ sv_inspector s' = sv_inspector s.
Proof.
  intros Hs. destruct (safe_announced anywhere file identity s Hs I) as (id&s'&E&Hs'&_). exists id, s'. split; [done|]. split; [done|].
  unfold announced_script, m_bind at 1, script_id in E. destruct (GetScriptId _ _ _) as [[i n] m]. simpl in E. destruct n.
  - unfold CallDebuggerScriptParsed in E.
    rewrite (m_bind_ret _ _ _ _ _ (Call_sends [] "Debugger.scriptParsed" _ (set_sources m s) (sv_async _ Hs) (sv_connected _ Hs))) in E.
    by injection E as <- <-.
  - by injection E as <- <-.
Qed.

Lemma AddLocations_inspector files line s : server_wf s →
  ∃ ls s', AddLocations files line s = Ret ls s' ∧ server_wf s' ∧ sv_inspector s' = sv_inspector s.
Proof.
  revert s. induction files as [|[f i] files IH]; intros s Hs; [by eexists _, s|]. simpl.
  destruct (announced_inspector f i s Hs) as (id&s1&E1&Hs1&Hi1). destruct (IH s1 Hs1) as (ls&s2&E2&Hs2&Hi2).
  rewrite (m_bind_ret _ _ _ _ _ E1), (m_bind_ret _ _ _ _ _ E2). eexists _, s2. split; [done|]. split; [done|]. congruence.
Qed.

Lemma set_by_url sessionId request url s :
  server_wf s → isVmDead_ (sv_inspector s) = false → rq_url request = Some url →
  decoded_condition (rq_condition request) = None →
  let found := GetBreakpointLocations (GetUrlFileFilter url) (rq_lineNumber request) (debugInfoCache_ (sv_inspector s)) in
  let made := SetBreakpoint (GetUrlFileFilter url) (rq_lineNumber request) None found.1 (in_breakpoints (sv_inspector s)) in
  ∃ s1, server_wf s1 ∧ sv_inspector s1 = set_breakpoints made.2 (sv_inspector s) ∧
    if decide (found.1 = []) then
      SetBreakpointByUrl sessionId request Inspector_SetBreakpoint s = Ret (Unexpected (str "Failed to set breakpoint")) s1
    else ∃ locations, SetBreakpointByUrl sessionId request Inspector_SetBreakpoint s =
      Ret (Value (mkUrlResponse (nextBreakpointId_ (in_breakpoints (sv_inspector s))) locations)) s1.
Proof.
  intros Hs Hdead Hurl Hcond found made. unfold SetBreakpointByUrl. rewrite Hurl.
  set (thread := GetThreadBySessionId sessionId (sessionManager_ s)).
  rewrite (m_bind_ret _ _ _ _ _ (eq_refl : thread_of sessionId s = Ret thread s)).
  assert (E1 : Inspector_SetBreakpoint thread (GetUrlFileFilter url) (rq_lineNumber request) (rq_condition request) s =
    Ret (made.1, found.2) (put (set_breakpoints made.2 (sv_inspector s)) s)).
  { unfold Inspector_SetBreakpoint, unless_dead, CheckVmDead. rewrite m_bind_assoc, (m_bind_ret _ _ _ _ _ (insp_ret s)), Hdead.
    rewrite (m_bind_ret _ _ _ _ _ (eq_refl : m_ret false s = Ret false s)), (m_bind_ret _ _ _ _ _ (insp_ret s)), Hcond. done. }
  rewrite (m_bind_ret _ _ _ _ _ E1). set (s1 := put _ s).
  assert (Hs1 : server_wf s1).
  { apply put_inspector_wf; [done|]. destruct (sv_inspector_wf _ Hs) as [? ? He]. split; [done..|]. by apply SetBreakpoint_known. }
  destruct (decide (found.1 = [])) as [Hnil|Hne].
  - exists s1. split_and!; [done..|]. unfold made. by rewrite Hnil.
  - destruct (AddLocations_inspector found.2 (rq_lineNumber request) s1 Hs1) as (ls&s2&E2&Hs2&Hi2).
    exists s2. split; [done|]. split; [by rewrite Hi2|]. exists ls.
    assert (Hid : made.1 = Some (nextBreakpointId_ (in_breakpoints (sv_inspector s)))) by (unfold made; by destruct found.1).
    cbn [fst snd]. rewrite Hid. by rewrite (m_bind_ret _ _ _ _ _ E2).
Qed.

(** A thread at a location in a source that was entered before. *)
Definition debuggable (i : inspector) (thread : PtThread) (method : Method) : Prop := ∃ sl file b,
  find_thread thread i = Some sl ∧ app (sl_thread sl) = Running ∧ skipAllPauses_ (state_ (sl_thread sl)) = false ∧
  GetUserSourceFile method (debugInfoCache_ i) = Some file ∧ c_str file ≠ str "etsstdlib.ets" ∧
  sourceFiles_ i !! c_str file = Some b ∧ (b = false → NeedSkippedForSingleStep method = false).

Lemma single_step_thread thread method loc s : server_wf s → debuggable (sv_inspector s) thread method →
  ∃ s1, Hook_SingleStep thread method loc s = step_thread thread loc s1 ∧ server_wf s1 ∧ world s1 = world s ∧
    in_breakpoints (sv_inspector s1) = in_breakpoints (sv_inspector s) ∧ in_runtime (sv_inspector s1) = in_runtime (sv_inspector s) ∧
    find_thread thread (sv_inspector s1) = find_thread thread (sv_inspector s).
Proof.
  intros Hs (sl&file&b&Hf&_&_&Hfile&Hstd&Hb&Hskip). unfold Hook_SingleStep. rewrite (m_bind_ret _ _ _ _ _ (insp_ret s)), Hfile.
  rewrite decide_False by done. rewrite Hb. destruct b.
  - simpl. set (f := set_sourceFiles _). set (s1 := put (f (sv_inspector s)) s).
    rewrite (m_bind_ret _ _ _ _ _ (eq_refl : upd_insp f s = Ret () s1)), (m_bind_ret _ _ _ _ _ (get_thread_ret thread s1)).
    change (find_thread thread (sv_inspector s1)) with (find_thread thread (sv_inspector s)). rewrite Hf.
    exists s1. split_and!; [done| |done..|by rewrite <- Hf].
    apply put_inspector_wf; [done|]. apply (threads_wf (sv_inspector s)); [done|done|apply Hs].
  - rewrite Hskip by done. simpl. rewrite (m_bind_ret _ _ _ _ _ (eq_refl : m_ret () s = Ret () s)).
    rewrite (m_bind_ret _ _ _ _ _ (get_thread_ret thread s)), Hf. by exists s.
Qed.

(** C8: breakpoints, from the request to the pause. A breakpoint by url on a line
    without code in a matching source is refused. On a line with code the request
    succeeds; from then on a thread that steps to the first instruction of the
    line, in a method whose source matches the url, is suspended, and the client
    is sent "Debugger.paused" with the id of the breakpoint among those hit. *)
Theorem breakpoint_stops sessionId request url s :
  reachable s → readable (world s) → isVmDead_ (sv_inspector s) = false →
  breakpointsActive_ (in_breakpoints (sv_inspector s)) = true →
  rq_url request = Some url → decoded_condition (rq_condition request) = None →
  ((∀ f m, f ∈ (debugInfos_ (debugInfoCache_ (sv_inspector s))).*1 → m ∈ pf_methods f →
      IsPathEqual (url_path url) (md_source m) = true → first_offset (rq_lineNumber request) (md_info m) = None) →
    ∃ s1, SetBreakpointByUrl sessionId request Inspector_SetBreakpoint s = Ret (Unexpected (str "Failed to set breakpoint")) s1) ∧
  (∀ f m o, f ∈ (debugInfos_ (debugInfoCache_ (sv_inspector s))).*1 → m ∈ pf_methods f →
      IsPathEqual (url_path url) (md_source m) = true → first_offset (rq_lineNumber request) (md_info m) = Some o →
    ∃ id locations s1,
      SetBreakpointByUrl sessionId request Inspector_SetBreakpoint s = Ret (Value (mkUrlResponse id locations)) s1 ∧
      ∀ thread method, debuggable (sv_inspector s1) thread method →
        ∃ s2 event hit sl, Hook_SingleStep thread method (mkPtLocation (pf_filename f) (md_id m) o) s1 = Ret () s2 ∧
          find_thread thread (sv_inspector s2) = Some sl ∧ suspended_ (sl_thread sl) = true ∧
          event ∈ outbox (sv_endpoint s2) ∧ paused_with hit event ∧ id ∈ hit).
Proof.
  intros Hs%reachable_wf Hr Hdead Hact Hurl Hcond.
  pose proof (set_by_url sessionId request url s Hs Hdead Hurl Hcond) as (s1&Hs1&Hi1&Hres). split.
  - intros Hnone. exists s1. rewrite decide_True in Hres; [done|].
    destruct (GetBreakpointLocations _ _ _).1 as [|loc ls] eqn:E; [done|].
    assert (Hin : loc ∈ (GetBreakpointLocations (GetUrlFileFilter url) (rq_lineNumber request)
      (debugInfoCache_ (sv_inspector s))).1) by (rewrite E; set_solver).
    apply elem_of_breakpoint_locations in Hin as (f&m&Hf&Hm&Hsrc&_&_&Ho). by rewrite (Hnone f m Hf Hm Hsrc) in Ho.
  - intros f m o Hf Hm Hsrc Ho. set (loc := mkPtLocation (pf_filename f) (md_id m) o).
    assert (Hin : loc ∈ (GetBreakpointLocations (GetUrlFileFilter url) (rq_lineNumber request)
      (debugInfoCache_ (sv_inspector s))).1) by (apply elem_of_breakpoint_locations; by exists f, m).
    rewrite decide_False in Hres by (intros Hnil; rewrite Hnil in Hin; by apply elem_of_nil in Hin).
    destruct Hres as [locations Hres]. exists (nextBreakpointId_ (in_breakpoints (sv_inspector s))), locations, s1.
    split; [done|]. intros thread method Hd. pose proof Hd as (sl&?&?&Hfs&Ha&Hsk&_).
    destruct (single_step_thread thread method loc s1 Hs1 Hd) as (s2&E2&Hs2&Hw2&Hb2&Hrt2&Hf2). rewrite E2.
    assert (Hb : in_breakpoints (sv_inspector s2) = (SetBreakpoint (GetUrlFileFilter url) (rq_lineNumber request) None
      (GetBreakpointLocations (GetUrlFileFilter url) (rq_lineNumber request) (debugInfoCache_ (sv_inspector s))).1
      (in_breakpoints (sv_inspector s))).2) by (by rewrite Hb2, Hi1).
    destruct (step_hits thread sl loc s2) as (s3&event&sl'&E3&F3&Hsus&Hp&Hev);
      [done| |by rewrite Hf2|done|done| |].
    + rewrite Hw2. unfold world. by rewrite Hi1.
    + rewrite Hb. apply set_breakpoint_stops; [apply Hs|done|done].
    + eexists s3, event, _, sl'. split_and!; [done..|exact Hp|]. rewrite Hb.
      by apply set_breakpoint_hits.
Qed.

(** ** Continuing *)

Lemma find_set_slot_ne thread t sl i : t ≠ thread → find_thread t (set_slot thread sl i) = find_thread t i.
Proof.
  intros Hne. unfold find_thread. simpl. induction (threads_ i) as [|[t' sl'] l IH]; [done|]. simpl.
  destruct (decide (t' = thread)) as [->|]; simpl.
  - rewrite !decide_False by done. unfold fmap in *. destruct (list_find _ (list_fmap _ _ _ l)) as [[]|], (list_find _ l) as [[]|];
      simpl in *; congruence.
  - destruct (decide (t' = t)); [done|]. unfold fmap in *.
    destruct (list_find _ (list_fmap _ _ _ l)) as [[]|], (list_find _ l) as [[]|]; simpl in *; congruence.
Qed.

(** A thread that runs, or will when it is scheduled. *)
Definition resumed (i : inspector) (t : PtThread) : Prop := ∃ sl, find_thread t i = Some sl ∧
  suspended_ (sl_thread sl) = false ∧ paused_ (state_ (sl_thread sl)) = false.

Lemma continue_one t s sl : server_wf s → find_thread t (sv_inspector s) = Some sl →
  ∃ s', command_thread t CmdContinue s = Ret () s' ∧ server_wf s' ∧ resumed (sv_inspector s') t ∧
    ∀ t', t' ≠ t → find_thread t' (sv_inspector s') = find_thread t' (sv_inspector s).
Proof.
  intros Hs Hf. pose proof (find_thread_slot _ _ _ (sv_inspector_wf _ Hs) Hf) as Hsl.
  set (d0 := with_state (state_ (sl_thread sl)) (in_hybrid (sv_inspector s)) (sl_thread sl)).
  assert (Hd : ∃ d, dt_exec (Command CmdContinue) d0 = Some d ∧ suspended_ d = false ∧ paused_ (state_ d) = false).
  { simpl. rewrite (sl_idle _ Hsl). simpl. eexists. split; [done|]. unfold Resume. simpl.
    by destruct (suspended_ (sl_thread sl)) eqn:E. }
  destruct Hd as (d&Hd&Hsus&Hp). pose proof (thread_do_exec t (Command CmdContinue) s sl d Hf Hd) as E1. set (s1 := put _ s) in E1.
  destruct (thread_do_returns t (Command CmdContinue) s Hs) as (s1'&E1'&Hs1&_); [done| |].
  { intros sl' Hf'. rewrite Hf in Hf'. injection Hf' as <-. by eexists. }
  rewrite E1 in E1'. injection E1' as <-.
  assert (F1 : find_thread t (sv_inspector s1) = Some (slot_thread d sl))
    by exact (find_set_slot t _ (sv_inspector s) (mk_is_Some _ _ Hf)).
  assert (Hr1 : resumed (sv_inspector s1) t) by (eexists; split; [exact F1|done]).
  assert (Ho1 : ∀ t', t' ≠ t → find_thread t' (sv_inspector s1) = find_thread t' (sv_inspector s)).
  { intros t' Hne. exact (find_set_slot_ne t t' _ (sv_inspector s) Hne). }
  unfold command_thread. rewrite (m_bind_ret _ _ _ _ _ (get_thread_ret t s)), (m_bind_ret _ _ _ _ _ E1), Hf.
  destruct (_ && _); [|by exists s1]. unfold CallDebuggerResumed.
  set (sid := GetSessionIdByThread t (sessionManager_ s1)).
  rewrite (m_bind_ret _ _ _ _ _ (eq_refl : session_of t s1 = Ret sid s1)).
  rewrite (Call_sends sid "Debugger.resumed" [] s1 (sv_async _ Hs1) (sv_connected _ Hs1)).
  eexists. split; [done|]. split; [by apply send_wf; [apply plain_event_target|]|done].
Qed.

Lemma continue_all l s : server_wf s → NoDup l → (∀ t, t ∈ l → is_Some (find_thread t (sv_inspector s))) →
  ∃ s', m_iter (λ t, command_thread t CmdContinue) l s = Ret () s' ∧
    (∀ t, t ∈ l → resumed (sv_inspector s') t) ∧
    (∀ t, t ∉ l → find_thread t (sv_inspector s') = find_thread t (sv_inspector s)).
Proof.
  revert s. induction l as [|t l IH]; intros s Hs Hn Hk; [exists s; split_and!; [done| |done]; by intros t ?%elem_of_nil|].
  apply NoDup_cons in Hn as [Hnt Hn]. destruct (Hk t) as [sl Hf]; [set_solver|].
  destruct (continue_one t s sl Hs Hf) as (s1&E1&Hs1&Hr1&Ho1).
  destruct (IH s1 Hs1 Hn) as (s2&E2&Hr2&Ho2).
  { intros t' Ht'. rewrite Ho1 by (intros ->; done). apply Hk. set_solver. }
  exists s2. split; [simpl; by rewrite (m_bind_ret _ _ _ _ _ E1)|]. split.
  - intros t' [->|Ht']%elem_of_cons; [|by apply Hr2]. destruct Hr1 as (sl'&F&?). exists sl'. by rewrite Ho2.
  - intros t' Ht'. apply not_elem_of_cons in Ht' as [? ?]. by rewrite Ho2, Ho1.
Qed.

Lemma alive_runs {A} (a : A) (m : IM A) s : isVmDead_ (sv_inspector s) = false → unless_dead a m s = m s.
Proof.
  intros Hd. unfold unless_dead, CheckVmDead. rewrite m_bind_assoc, (m_bind_ret _ _ _ _ _ (insp_ret s)), Hd.
  by rewrite (m_bind_ret _ _ _ _ _ (eq_refl : m_ret false s = Ret false s)).
Qed.

(** Which threads "Debugger.resume" resumes. When the thread of the session
    stands at the start of a file, the others keep their state: it goes on alone,
    and not even it does while another thread stands at a breakpoint. In all
    other cases every thread goes on. *)
Theorem continue_policy thread sl s :
  reachable s → isVmDead_ (sv_inspector s) = false → find_thread thread (sv_inspector s) = Some sl →
  ∃ s', Inspector_Continue thread s = Ret () s' ∧
    if IsPausedByBreakOnStart sl then
      if existsb (λ p : PtThread * thread_slot, negb (bool_decide (p.1 = thread)) && IsPausedByBreakPoint p.2)
           (threads_ (sv_inspector s))
      then s' = s
      else resumed (sv_inspector s') thread ∧
        ∀ t, t ≠ thread → find_thread t (sv_inspector s') = find_thread t (sv_inspector s)
    else ∀ t, is_Some (find_thread t (sv_inspector s)) → resumed (sv_inspector s') t.
Proof.
  intros Hs%reachable_wf Hd Hf. unfold Inspector_Continue. rewrite (alive_runs _ _ _ Hd).
  rewrite (m_bind_ret _ _ _ _ _ (insp_ret s)), Hf. destruct (IsPausedByBreakOnStart sl).
  - destruct (existsb _ _); [by exists s|]. destruct (continue_one thread s sl Hs Hf) as (s'&E&_&Hr&Ho). by exists s'.
  - destruct (continue_all (threads_ (sv_inspector s)).*1 s Hs) as (s'&E&Hr&_);
      [apply Hs|intros t; apply find_thread_known|].
    exists s'. split; [exact E|]. intros t [sl' Ht]. apply Hr. apply list_elem_of_fmap.
    eexists. split; [|by apply find_thread_elem]. done.
Qed.
End debugging.
