(* ===== verification/StaticDemo.v ===== *)
(** * Examples for the static debugger

    A small runtime with two threads and one file, on which the theorems about the
    static debugger are applied. *)

From S2P Require Import Prelude Regex Http CppLib PtJson HybridFrames StaticBreakpoints ThreadState DebuggableThread.
From S2P Require Import StaticTypes StaticObjects StaticSessions StaticDebugInfo StaticEndpoint StaticServer StaticInspector.
From S2P Require Import StaticHooks StaticInvariant StaticAnswers StaticRuns StaticDebugging.
Local Open Scope Z_scope.
Local Open Scope ark_scope.

(** ** The environment *)

#[local] Instance demo_helpers : StringHelpers := {| ParseInt s lo := None; Format_g d := str "0" |}.
#[local] Instance demo_oob : CastOob := λ _ _ _, 0.
#[local] Instance demo_signed : SignedOverflow := λ _ _, 0.
(** A message is the name of its method. *)
#[local] Instance demo_json : JsonText := {|
  ParseJson msg := Some [("id"%string, JNum (DFin 7 0)); ("method"%string, JStr msg)];
  Build fs := [123] |}.
#[local] Instance demo_process : Process := 1.
#[local] Instance demo_files : Files := λ _, None.

Inductive demo_thread := T0 | T1 | T2.
#[local] Instance demo_thread_eq_dec : EqDecision demo_thread.
Proof. solve_decision. Defined.
Definition demo_id (t : demo_thread) : Z := match t with T0 => 0 | T1 => 1 | T2 => 2 end.
Lemma demo_id_range t : is_uint32 (demo_id t).
Proof. by destruct t. Qed.
#[local] Instance demo_threads : Threads := {|
  PtThread := demo_thread; PtThread_NONE := T0; GetId := demo_id; GetId_range := demo_id_range |}.

(** Objects are numbers; object 5 has object 6 as a property. *)
#[local] Instance demo_lang : LangExt := {|
  ObjectHeader := Z; heap := unit;
  GetAsString _ o := None; GetAsBigIntString _ o := None; GetLengthIfArray _ o := None;
  ObjectClassName _ o := str "Point"; GetThisParameterName := str "this"; ConvertUtf16ToUtf8 z := [z] |}.
#[local] Instance demo_enum : LangEnum := {|
  EnumerateGlobals _ := [];
  EnumerateProperties _ o := if o =? 5 then [(str "next", TvReference (Some 6), false, false); (str "x", TvI32 3, true, false)] else [] |}.
#[local] Instance demo_registers : Registers := {|
  tagged_of_bits z := TaggedInt z; object_of_bits z := Some z; is_special z := false |}.

(** One method with two lines. *)
Definition demo_debug : method_debug :=
  mkMethodDebug (mkMethodInfo 10 (str "a.ets") [(1, 0); (2, 4); (1, 8)]) (str "let x") (Some 12) []
    [mkVariable (str "x") (str "I") 0 0 12].
Definition demo_file : panda_file := mkFile 100 (str "a.abc") [demo_debug].
Definition demo_method : Method := mkMethod (Some demo_file) 10 (str "main") (str "ETSGLOBAL") 12 None.
Definition demo_frame : PtFrame :=
  mkFrame (Some demo_method) 4 0 (λ _, 0) (λ _, KIND_PRIMITIVE) (λ _, 3) (λ _, KIND_PRIMITIVE) 0 KIND_PRIMITIVE.

#[local] Instance demo_interface : DebugInterface := {|
  runtime := unit; runtime_heap r := (); thread_before t u := demo_id t <? demo_id u;
  GetCurrentFrame r t := Some demo_frame; EnumerateFrames r t := [demo_frame]; StackIsCFrame r t := false;
  NotifyFramePop_hook t n r := r; debugger_RestartFrame t n r := Some r; debugger_SetAsyncCallStackDepth n r := r;
  CurrentAsyncStack r := None; GetException r t := None; ConditionValue r t c := EvalError; RunExpression t n c r := r;
  EnumeratePandaFiles b r := [demo_file]; DynamicFrame := Empty_set; UnionStack r := []; GetEcmaVM r := 0;
  frame_providers r := FrameInfoExtractor.extractor_init; IsProfilerRunning r := false;
  StartProfilingSession n r := (true, r); StopProfilingSession r := (None, r) |}.

#[local] Instance demo_ok : RuntimeOK.
Proof.
  split; [|done]. intros h. split; [constructor|]. intros o. simpl. destruct (o =? 5); [|constructor].
  by repeat constructor.
Qed.

(** ** Runs *)

Lemma demo_readable w : frame_source demo_frame (w_cache w) ≠ None → readable w.
Proof.
  intros Hf. split; [|split].
  - intros t f ->%list_elem_of_singleton. by apply not_eq_None_Some.
  - by intros f ?%elem_of_nil.
  - intros t f [= <-]. by eexists.
Qed.

(** Two threads start, the file is loaded, the first thread enters the method. *)
Definition demo_s0 : server_state inspector := server_init ().
Definition demo_s1 : server_state inspector := state_of (hook_op (ThreadStart T1) demo_s0).
Definition demo_s2 : server_state inspector := state_of (hook_op (ThreadStart T2) demo_s1).
Definition demo_s3 : server_state inspector := state_of (hook_op (LoadModule (str "a.abc")) demo_s2).
Definition demo_s4 : server_state inspector := state_of (hook_op (MethodEntry T1 demo_method) demo_s3).

Lemma demo_s0_readable : readable (world demo_s0).
Proof. apply demo_readable. vm_compute. discriminate. Qed.
Lemma demo_s1_readable : readable (world demo_s1).
Proof. apply demo_readable. vm_compute. discriminate. Qed.
Lemma demo_s2_readable : readable (world demo_s2).
Proof. apply demo_readable. vm_compute. discriminate. Qed.
Lemma demo_s3_readable : readable (world demo_s3).
Proof. apply demo_readable. vm_compute. discriminate. Qed.
Lemma demo_s4_readable : readable (world demo_s4).
Proof. apply demo_readable. vm_compute. discriminate. Qed.

Lemma demo_s3_reachable : reachable demo_s3.
Proof.
  apply reachable_hook; [|apply demo_s2_readable|done]. apply reachable_hook; [|apply demo_s1_readable|].
  - apply reachable_hook; [apply reachable_init|apply demo_s0_readable|]. simpl. by intros ?%elem_of_nil.
  - vm_compute. set_solver.
Qed.

Lemma demo_running : running T1 demo_s3.
Proof. intros sl Hf. vm_compute in Hf. by injection Hf as <-. Qed.

Lemma demo_s4_reachable : reachable demo_s4.
Proof. apply reachable_hook; [apply demo_s3_reachable|apply demo_s3_readable|apply demo_running]. Qed.

(** *** Witnesses *)

Lemma static_client_view_witness :
  client_targets (outbox (sv_endpoint demo_s4)) = {[ str "2" ]}.
Proof. rewrite (proj1 (proj2 (static_client_view demo_s4 demo_s4_reachable))). vm_compute. reflexivity. Defined.

Lemma static_request_answered_witness :
  ∃ s' l, Inspector_Run (str "Debugger.pause") demo_s4 = Ret () s' ∧
    outbox (sv_endpoint s') = outbox (sv_endpoint demo_s4) ++ l ∧ response (str "Debugger.pause") l.
Proof.
  destruct (static_request_answered (str "Debugger.pause") demo_s4 demo_s4_reachable demo_s4_readable) as (s'&l&E&_&Ho&Hl).
  exists s', l. split_and!; assumption.
Defined.

Definition demo_location : PtLocation := mkPtLocation (str "a.abc") 10 4.
Definition demo_step : hook := SingleStep (T1 : @PtThread demo_threads) demo_method demo_location.

(** A breakpoint on line 2, where the method stands. *)
Definition demo_request : UrlBreakpointRequest := mkUrlRequest 2 (Some (str "file://a.ets")) None None.
Definition demo_s5 : server_state inspector := state_of (SetBreakpointByUrl [] demo_request Inspector_SetBreakpoint demo_s4).

Lemma demo_debuggable : debuggable (sv_inspector demo_s5) (T1 : @PtThread demo_threads) demo_method.
Proof.
  eexists _, (str "a.ets"), true. split; [vm_compute; reflexivity|].
  split_and!; first [vm_compute; reflexivity|vm_compute; discriminate|discriminate].
Qed.

Lemma breakpoint_stops_witness :
  ∃ id s2 event hit sl, Hook_SingleStep (T1 : @PtThread demo_threads) demo_method demo_location demo_s5 = Ret () s2 ∧
    find_thread (T1 : @PtThread demo_threads) (sv_inspector s2) = Some sl ∧ suspended_ (sl_thread sl) = true ∧
    event ∈ outbox (sv_endpoint s2) ∧ paused_with hit event ∧ id ∈ hit.
Proof.
  destruct (proj2 (breakpoint_stops [] demo_request (str "file://a.ets") demo_s4 demo_s4_reachable demo_s4_readable
    eq_refl eq_refl eq_refl eq_refl) demo_file demo_debug 4) as (id&locations&s1&E&Hstop);
    [vm_compute; by left|by left|reflexivity|reflexivity|].
  assert (Hs : s1 = demo_s5) by (unfold demo_s5; rewrite E; reflexivity). subst s1.
  destruct (Hstop (T1 : @PtThread demo_threads) demo_method demo_debuggable) as (s2&event&hit&sl&Hw).
  exists id, s2, event, hit, sl. exact Hw.
Defined.

(** The thread stands at the breakpoint; it and the other one are resumed. *)
Definition demo_s6 : server_state inspector := state_of (hook_op demo_step demo_s4).
Lemma demo_s6_reachable : reachable demo_s6.
Proof.
  apply reachable_hook; [apply demo_s4_reachable|apply demo_s4_readable|].
  intros sl Hf. vm_compute in Hf. by injection Hf as <-.
Qed.

Lemma continue_policy_witness :
  ∃ sl s', find_thread (T1 : @PtThread demo_threads) (sv_inspector demo_s6) = Some sl ∧
    Inspector_Continue (T1 : @PtThread demo_threads) demo_s6 = Ret () s' ∧ resumed (sv_inspector s') (T1 : @PtThread demo_threads).
Proof.
  destruct (find_thread (T1 : @PtThread demo_threads) (sv_inspector demo_s6)) as [sl|] eqn:E; [|vm_compute in E; discriminate].
  destruct (continue_policy (T1 : @PtThread demo_threads) sl demo_s6 demo_s6_reachable eq_refl E) as (s'&Ec&Hp).
  exists sl, s'. split; [reflexivity|]. split; [exact Ec|].
  vm_compute in E. injection E as <-. exact (proj1 Hp).
Defined.

(** *** Objects, sessions, lines *)

Definition demo_heap : @heap demo_lang := ().
Definition demo_repository : ObjectRepository := mkRepository 2 ∅ [(1, 5 : @ObjectHeader demo_lang)].
Lemma demo_repository_wf : repository_wf demo_repository.
Proof.
  split; simpl; [done| |apply NoDup_singleton|apply NoDup_singleton|].
  - intros id ->%list_elem_of_singleton. unfold GLOBAL_OBJECT_ID. lia.
  - by intros id [x Hx%lookup_empty_Some].
Qed.

Lemma static_object_properties_witness :
  ∃ ps r', Repository_GetProperties demo_heap 1 true demo_repository = Ret ps r' ∧ length ps = 2%nat.
Proof.
  destruct (static_object_properties demo_heap demo_repository 1 true demo_repository_wf (heap_plain demo_heap)) as (ps&r'&E&_&_&HF).
  exists ps, r'. split; [exact E|]. apply Forall2_length in HF. vm_compute in HF. symmetry. exact HF.
Defined.

Lemma session_table_witness :
  GetThreadBySessionId (GetSessionIdByThread (T2 : @PtThread demo_threads) (sessionManager_ demo_s4)) (sessionManager_ demo_s4) = T2.
Proof.
  refine (proj1 (session_table [T2 : @PtThread demo_threads; T1] (sessionManager_ demo_s4) _) T2 ltac:(by left)).
  assert (E : sessionManager_ demo_s4 = (AddSession (T2 : @PtThread demo_threads) (AddSession (T1 : @PtThread demo_threads) ∅).2).2)
    by (vm_compute; reflexivity).
  rewrite E.
  apply (sessions_start [T1 : @PtThread demo_threads] (AddSession (T1 : @PtThread demo_threads) ∅).2 T2).
  - apply (sessions_start [] ∅ (T1 : @PtThread demo_threads) sessions_init). by intros ?%elem_of_nil.
  - vm_compute. intros Hin. apply list_elem_of_singleton in Hin. discriminate.
Defined.

Lemma line_locations_witness :
  mkPtLocation (str "a.abc") 10 9 ∈ GetCurrentLineLocations demo_method 1 (debugInfoCache_ (sv_inspector demo_s4)).
Proof.
  apply (proj2 (proj1 (line_locations (debugInfoCache_ (sv_inspector demo_s4))) demo_method demo_file true demo_file demo_debug 1
    ltac:(vm_compute; reflexivity) eq_refl eq_refl
    ltac:(split; [repeat constructor; vm_compute; discriminate|repeat constructor; vm_compute; discriminate]))).
  split_and!; try reflexivity; try lia. by eexists.
Defined.
