(* ===== verification/StaticLocks.v ===== *)
(** * Locks of the static debugger

    The steps of StaticInspector.v and StaticHooks.v are atomic; here is what the
    code does to make them so, and where it fails: the locks that every request and
    every hook takes, in the order in which it takes them, in
    src/tooling/static/{inspector.cpp, inspector_server.cpp, session_manager.cpp,
    source_manager.cpp, connection/*, debugger/*}.

    A thread is the list of the things it still does to locks and condition
    variables. A lock that is held for writing excludes all others, one that is
    held for reading excludes writers; a mutex is always held for writing. A thread
    that waits on a condition variable goes on when it is signalled. How often the
    code goes round a loop, and which way it takes where it branches, are arguments
    of the operations, so that a theorem about all operations is about every way
    through the code. Locks of the virtual machine and of the disassembler are not
    included, nor are the hooks that the code of a condition calls again while it
    is evaluated. *)

From S2P Require Import Prelude.

Inductive lock :=
| methodHandlersMutex_ | taskExecution_ | vmDeathLock_ | debuggerEventsLock_ | sourceFilesMutex_ | waitDebuggerMutex_
| nativeMethodCallMutex_ | thread_mutex_ (t : nat) | storage_lock_ | debugInfosMutex_ | disassembliesMutex_
| source_mutex_ | session_mutex_ | syncMutex_.
#[export] Instance lock_eq_dec : EqDecision lock.
Proof. solve_decision. Defined.

Inductive mode := Reading | Writing.
#[export] Instance mode_eq_dec : EqDecision mode.
Proof. solve_decision. Defined.

(** What a thread waits for: that thread [t] has been resumed, that it has served
    the request it was given, that the client has replied to a native call, that
    it lets the program run. *)
Inductive signal := Resumed (t : nat) | RequestDone (t : nat) | NativeReplied | DebuggerArrived.
#[export] Instance signal_eq_dec : EqDecision signal.
Proof. solve_decision. Defined.

Inductive action :=
| Acquire (l : lock) (m : mode)
| Release (l : lock)
| Notify (c : signal)
| Await (c : signal).

Record locker := mkLocker { todo : list action; held : list (lock * mode) }.
Record locks := mkLocks { lockers : list locker; signals : list signal }.

Definition begin (programs : list (list action)) : locks := mkLocks ((λ p, mkLocker p []) <$> programs) [].

(** ** Steps *)

Definition conflicts (l : lock) (m : mode) (h : lock * mode) : bool :=
  bool_decide (h.1 = l) && (bool_decide (m = Writing) || bool_decide (h.2 = Writing)).
Definition free (l : lock) (m : mode) (s : locks) : bool :=
  forallb (λ p, negb (existsb (conflicts l m) (held p))) (lockers s).

Definition release (l : lock) (h : list (lock * mode)) : list (lock * mode) := filter (λ x, x.1 ≠ l) h.

(** What the first action of a thread does; [None] when it has to wait. *)
Definition act (p : locker) (s : locks) : option (locker * list signal) :=
  match todo p with
  | [] => None
  | Acquire l m :: rest => if free l m s then Some (mkLocker rest ((l, m) :: held p), signals s) else None
  | Release l :: rest => Some (mkLocker rest (release l (held p)), signals s)
  | Notify c :: rest => Some (mkLocker rest (held p), c :: signals s)
  | Await c :: rest =>
      if bool_decide (c ∈ signals s) then Some (mkLocker rest (held p), filter (λ c', c' ≠ c) (signals s)) else None
  end.

Definition lock_step (n : nat) (s : locks) : option locks :=
  p ← lockers s !! n;
  '(p', cs) ← act p s;
  Some (mkLocks (<[n := p']> (lockers s)) cs).

(** A schedule names the threads that go on, one after the other. *)
Fixpoint lock_run (schedule : list nat) (s : locks) : option locks :=
  match schedule with
  | [] => Some s
  | n :: schedule' => s' ← lock_step n s; lock_run schedule' s'
  end.

(** Nobody can go on. *)
Definition stuck (s : locks) : Prop := ∀ n, lock_step n s = None.

(** Every thread has come to its end or waits for a signal, and nobody holds a
    lock. *)
Definition at_rest (s : locks) : Prop :=
  ∀ p, p ∈ lockers s → held p = [] ∧ (todo p = [] ∨ ∃ c rest, todo p = Await c :: rest ∧ c ∉ signals s).

(** Nobody can go on, and somebody holds a lock. *)
Definition deadlocked (s : locks) : Prop := stuck s ∧ ∃ p, p ∈ lockers s ∧ held p ≠ [].

Definition deadlocked_b (s : locks) : bool :=
  existsb (λ p, negb (bool_decide (held p = []))) (lockers s) &&
  forallb (λ n, match lock_step n s with None => true | Some _ => false end) (seq 0 (length (lockers s))).

Lemma deadlocked_b_true s : deadlocked_b s = true → deadlocked s.
Proof.
  unfold deadlocked_b. intros [(p&Hp&Hn)%existsb_exists Hall]%andb_true_iff. split.
  - intros n. destruct (decide (n < length (lockers s))) as [Hlt|Hge].
    + rewrite forallb_forall in Hall. specialize (Hall n). rewrite <- list_elem_of_In, elem_of_seq in Hall.
      specialize (Hall ltac:(lia)). by destruct (lock_step n s).
    + unfold lock_step. rewrite (proj2 (lookup_ge_None (lockers s) n)); [done|lia].
  - exists p. split; [by apply list_elem_of_In|]. by apply negb_true_iff, bool_decide_eq_false in Hn.
Qed.

(** ** Lock order *)

Definition rank (l : lock) : nat :=
  match l with
  | methodHandlersMutex_ => 0 | taskExecution_ => 1 | vmDeathLock_ => 2 | debuggerEventsLock_ => 3
  | sourceFilesMutex_ => 4 | waitDebuggerMutex_ | nativeMethodCallMutex_ => 5 | thread_mutex_ _ => 6
  | storage_lock_ => 7 | debugInfosMutex_ => 8 | disassembliesMutex_ => 9 | source_mutex_ => 10
  | session_mutex_ => 11 | syncMutex_ => 12
  end.

Definition below (h : list (lock * mode)) (l : lock) : bool := forallb (λ x, Nat.ltb (rank x.1) (rank l)) h.

(** A thread that takes locks in the order of their ranks, releases what it holds,
    and waits for signals while it holds nothing. *)
Fixpoint ordered (h : list (lock * mode)) (p : list action) : bool :=
  match p with
  | [] => bool_decide (h = [])
  | Acquire l m :: p' => below h l && ordered ((l, m) :: h) p'
  | Release l :: p' => ordered (release l h) p'
  | Notify _ :: p' => ordered h p'
  | Await _ :: p' => bool_decide (h = []) && ordered h p'
  end.

Definition well_ordered (s : locks) : Prop := ∀ p, p ∈ lockers s → ordered (held p) (todo p) = true.

Lemma act_ordered p s p' cs : act p s = Some (p', cs) → ordered (held p) (todo p) = true → ordered (held p') (todo p') = true.
Proof.
  unfold act. destruct p as [[|[l m|l|c|c] rest] h]; simpl; try done.
  - destruct (free l m s); [|done]. intros [= <- <-]. simpl. by intros [_ Ho]%andb_true_iff.
  - by intros [= <- <-].
  - by intros [= <- <-].
  - case_bool_decide; [|done]. intros [= <- <-]. simpl. by intros [_ Ho]%andb_true_iff.
Qed.

Lemma step_ordered n s s' : lock_step n s = Some s' → well_ordered s → well_ordered s'.
Proof.
  unfold lock_step. destruct (lockers s !! n) as [p|] eqn:Ep; [|done]. simpl.
  destruct (act p s) as [[p' cs]|] eqn:Ea; [|done]. intros [= <-] Hs q. simpl.
  intros [i Hi]%list_elem_of_lookup. destruct (decide (i = n)) as [->|Hne].
  - rewrite list_lookup_insert_eq in Hi by (by eapply lookup_lt_Some). injection Hi as <-.
    eapply act_ordered; [done|]. apply Hs. by eapply list_elem_of_lookup_2.
  - rewrite list_lookup_insert_ne in Hi by done. apply Hs. by eapply list_elem_of_lookup_2.
Qed.

Lemma run_ordered schedule : ∀ s s', lock_run schedule s = Some s' → well_ordered s → well_ordered s'.
Proof.
  induction schedule as [|n schedule IH]; intros s s' E Hs; simpl in E; [by injection E as <-|].
  destruct (lock_step n s) as [s1|] eqn:E1; [|done]. eapply IH; [done|]. by eapply step_ordered.
Qed.

Lemma stuck_act s p : stuck s → p ∈ lockers s → act p s = None.
Proof.
  intros Hs [n Hn]%list_elem_of_lookup. specialize (Hs n). unfold lock_step in Hs. rewrite Hn in Hs. simpl in Hs.
  by destruct (act p s) as [[]|].
Qed.

(** A thread that cannot get a lock is kept from it by one that holds it. *)
Lemma not_free l m s : free l m s = false → ∃ q mh, q ∈ lockers s ∧ (l, mh) ∈ held q.
Proof.
  unfold free. intros Hf. destruct (existsb (λ q, existsb (conflicts l m) (held q)) (lockers s)) eqn:E.
  - apply existsb_exists in E as (q&Hq&([lh mh]&Hin&Hc)%existsb_exists). exists q, mh.
    unfold conflicts in Hc. simpl in Hc. apply andb_true_iff in Hc as [->%bool_decide_eq_true _].
    split; by apply list_elem_of_In.
  - apply not_true_iff_false in Hf. destruct Hf. apply forallb_forall. intros q Hq. apply negb_true_iff.
    destruct (existsb (conflicts l m) (held q)) eqn:Eq; [|done]. rewrite <- E. symmetry. apply existsb_exists. by exists q.
Qed.

(** When nobody can go on, who holds a lock waits for one of a higher rank. *)
Lemma holder_waits s q l mh : well_ordered s → stuck s → q ∈ lockers s → (l, mh) ∈ held q →
  ∃ l' m' rest, todo q = Acquire l' m' :: rest ∧ free l' m' s = false ∧ rank l < rank l'.
Proof.
  intros Hs Hstuck Hq Hin. pose proof (stuck_act s q Hstuck Hq) as Ha. specialize (Hs q Hq). unfold act in Ha.
  destruct q as [[|[l' m'|l'|c|c] rest] h]; simpl in *; try done.
  - apply bool_decide_eq_true in Hs. subst h. by apply elem_of_nil in Hin.
  - apply andb_true_iff in Hs as [Hb _]. exists l', m', rest. destruct (free l' m' s); [done|]. split_and!; [done..|].
    unfold below in Hb. rewrite forallb_forall in Hb. apply list_elem_of_In in Hin. by apply Hb, Nat.ltb_lt in Hin.
  - apply andb_true_iff in Hs as [Hb _]. apply bool_decide_eq_true in Hb. subst h. by apply elem_of_nil in Hin.
Qed.

Lemma stuck_free s q l mh : well_ordered s → stuck s → q ∈ lockers s → (l, mh) ∉ held q.
Proof.
  intros Hs Hstuck. remember (12 - rank l) as n eqn:En. revert q l mh En.
  induction n as [n IH] using lt_wf_ind. intros q l mh -> Hq Hin.
  destruct (holder_waits s q l mh Hs Hstuck Hq Hin) as (l'&m'&rest&_&Hf&Hr).
  destruct (not_free _ _ _ Hf) as (q'&mh'&Hq'&Hin'). eapply (IH (12 - rank l')); [|done|exact Hq'|exact Hin'].
  assert (rank l' ≤ 12) by (destruct l'; simpl; lia). lia.
Qed.

Lemma stuck_at_rest s : well_ordered s → stuck s → at_rest s.
Proof.
  intros Hs Hstuck p Hp. assert (Hh : held p = []).
  { destruct (held p) as [|[l mh] h] eqn:E; [done|]. destruct (stuck_free s p l mh Hs Hstuck Hp). rewrite E. by left. }
  split; [done|]. pose proof (stuck_act s p Hstuck Hp) as Ha. unfold act in Ha.
  destruct (todo p) as [|[l m|l|c|c] rest]; try done; [by left| |].
  - exfalso. destruct (free l m s) eqn:Hf; [done|]. destruct (not_free _ _ _ Hf) as (q&mh&Hq&Hin).
    by destruct (stuck_free s q l mh Hs Hstuck Hq).
  - right. exists c, rest. split; [done|]. by case_bool_decide.
Qed.

(** Every step takes an action away from one thread. *)
Definition remaining (s : locks) : nat := sum_list_with (λ p, length (todo p)) (lockers s).

Lemma act_shorter p s p' cs : act p s = Some (p', cs) → length (todo p) = S (length (todo p')).
Proof.
  unfold act. destruct (todo p) as [|[l m|l|c|c] rest]; simpl; [done|..]; repeat case_match; intros; by simplify_eq.
Qed.

Lemma step_remaining n s s' : lock_step n s = Some s' → S (remaining s') = remaining s.
Proof.
  unfold lock_step. destruct (lockers s !! n) as [p|] eqn:Ep; [|done]. simpl.
  destruct (act p s) as [[p' cs]|] eqn:Ea; [|done]. intros [= <-]. apply act_shorter in Ea. unfold remaining. simpl.
  rewrite <- (take_drop_middle _ _ _ Ep) at 2.
  rewrite (insert_take_drop _ _ _ (lookup_lt_Some _ _ _ Ep)). rewrite !sum_list_with_app. simpl. lia.
Qed.

Lemma run_remaining schedule : ∀ s s', lock_run schedule s = Some s' → length schedule + remaining s' = remaining s.
Proof.
  induction schedule as [|n schedule IH]; intros s s' E; simpl in E; [by injection E as <-|].
  destruct (lock_step n s) as [s1|] eqn:E1; [|done]. apply step_remaining in E1. apply IH in E. simpl. lia.
Qed.

Lemma stuck_or_step s : (∃ n s', lock_step n s = Some s') ∨ stuck s.
Proof.
  assert (Hd : ∀ k, (∃ n s', lock_step n s = Some s') ∨ ∀ n, n < k → lock_step n s = None).
  { induction k as [|k [IH|IH]]; [right; lia|by left|]. destruct (lock_step k s) as [s'|] eqn:E; [left; eauto|right].
    intros n Hn. destruct (decide (n = k)) as [->|]; [done|]. apply IH. lia. }
  destruct (Hd (length (lockers s))) as [?|Hn]; [by left|right]. intros n.
  destruct (decide (n < length (lockers s))) as [Hlt|Hge]; [by apply Hn|].
  unfold lock_step. rewrite (proj2 (lookup_ge_None (lockers s) n)); [done|lia].
Qed.

Lemma comes_to_rest : ∀ k s, remaining s ≤ k → well_ordered s → ∃ schedule s', lock_run schedule s = Some s' ∧ at_rest s'.
Proof.
  induction k as [k IH] using lt_wf_ind. intros s Hk Hs. destruct (stuck_or_step s) as [(n&s1&E1)|Hstuck].
  - pose proof (step_remaining _ _ _ E1) as Hless.
    destruct (IH (remaining s1) ltac:(lia) s1 ltac:(lia)) as (schedule&s'&E&Hr); [by eapply step_ordered|].
    exists (n :: schedule), s'. simpl. by rewrite E1.
  - exists [], s. split; [done|]. by apply stuck_at_rest.
Qed.

(** ** What the code does

    [sync] tells whether messages are the answers of a synchronous request. *)

Definition under (l : lock) (m : mode) (body : list action) : list action := Acquire l m :: body ++ [Release l].
Definition times (n : nat) (p : list action) : list action := concat (replicate n p).

Section code.
Context (sync : bool).

Definition SendMessage_locks : list action := if sync then under syncMutex_ Writing [] else [].

(** The managers of sessions and sources. *)
Definition session_locks : list action := under session_mutex_ Writing [].
Definition GetScript_locks : list action := under source_mutex_ Writing [].
Definition GetScriptId_locks (isNew : bool) : list action :=
  under source_mutex_ Writing [] ++ (if isNew then SendMessage_locks else []).

(** The cache of debug information. The extractor of a file tells the cache about
    each of the [n] methods that it disassembles meanwhile. *)
Definition disassembled_locks (n : nat) : list action := times n (under disassembliesMutex_ Writing []).
Definition AddPandaFile_locks (n : nat) : list action := under debugInfosMutex_ Writing (disassembled_locks n).
Definition EnumerateLineEntries_locks (n : nat) : list action := under debugInfosMutex_ Writing (disassembled_locks n).
Definition GetDebugInfo_locks : list action := under debugInfosMutex_ Writing [].
Definition GetSourceFile_locks (n : nat) : list action := GetDebugInfo_locks ++ disassembled_locks n.
Definition GetDisassemblySourceCode_locks (found : option nat) : list action :=
  under disassembliesMutex_ Writing [] ++ match found with Some n => GetSourceFile_locks n | None => [] end.
Definition GetSourceCode_locks (identity : option nat) (disassembly : option nat) (cached : bool) : list action :=
  match identity with
  | Some n => EnumerateLineEntries_locks n
  | None => GetDisassemblySourceCode_locks disassembly ++ if cached then under debugInfosMutex_ Writing [] else []
  end.

(** A thread that is told something, and one that is resumed by it. *)
Definition with_mutex (t : nat) (body : list action) : list action := under (thread_mutex_ t) Writing body.
Definition each_mutex (ts : list nat) : list action := concat ((λ t, with_mutex t []) <$> ts).
Definition Resume_locks (t : nat) (suspended : bool) : list action :=
  if suspended then [Notify (Resumed t)] ++ session_locks ++ SendMessage_locks else [].
Definition resume_locks (x : nat * bool) : list action := with_mutex x.1 (Resume_locks x.1 x.2).

(** The event that a thread has stopped. A static frame asks the cache twice, a
    dynamic one is described by the other debugger. *)
Definition call_frame_locks (frame : option nat * bool) : list action :=
  match frame.1 with Some n => GetSourceFile_locks n ++ GetSourceFile_locks n | None => [] end
  ++ GetScriptId_locks frame.2.
Definition async_frame_locks (frame : nat * bool) : list action :=
  EnumerateLineEntries_locks frame.1 ++ GetScriptId_locks frame.2.
Definition CallDebuggerPaused_locks (frames : list (option nat * bool)) : list action :=
  session_locks ++ concat (call_frame_locks <$> frames) ++ session_locks ++ SendMessage_locks.

(** A suspension: the frames it reports, the other threads that it pauses because
    a breakpoint was hit, and how often the thread is woken up, each time with the
    word whether it has to serve a request. *)
Record suspension := mkSuspension {
  suspend_async : list (nat * bool);
  suspend_frames : list (option nat * bool);
  paused_threads : list nat;
  wakes : list bool }.

Definition DebuggableThreadPostSuspend_locks (s : suspension) : list action :=
  concat (async_frame_locks <$> suspend_async s) ++ CallDebuggerPaused_locks (suspend_frames s) ++ each_mutex (paused_threads s).
Definition wake_locks (t : nat) (request : bool) : list action :=
  [Release (thread_mutex_ t); Release debuggerEventsLock_; Await (Resumed t);
   Acquire debuggerEventsLock_ Reading; Acquire (thread_mutex_ t) Writing]
  ++ if request then [Notify (RequestDone t)] else [].
Definition Suspend_locks (t : nat) (s : suspension) : list action :=
  DebuggableThreadPostSuspend_locks s ++ concat (wake_locks t <$> wakes s).
Definition OnException_locks (t : nat) (ss : list suspension) : list action :=
  with_mutex t (concat (Suspend_locks t <$> ss)).
Definition OnSingleStep_locks (t : nat) (asked : bool) (ss : list suspension) : list action :=
  with_mutex t ((if asked then under storage_lock_ Reading [] else [])
                ++ concat ((λ s, under storage_lock_ Reading [] ++ Suspend_locks t s) <$> ss)).

(** ** The hooks

    [known] tells whether the hook gets as far as the thread: it is known, the
    method is not one to pass over, no expression is being evaluated. *)
Inductive hook :=
| CollectModules_hook (files : list nat)
| ConsoleCall_hook (known : bool)
| Exception_hook (t : nat) (known : bool) (ss : list suspension)
| FramePop_hook (t : nat) (known : bool)
| MethodEntry_hook (t : nat) (known : bool) (n : nat) (new_file : bool) (evaluating : bool)
| LoadModule_hook (files : list nat)
| SingleStep_hook (t : nat) (n : nat) (known_file break_on_start known asked : bool) (ss : list suspension)
| ThreadStart_hook (some_thread other_session : bool)
| ThreadEnd_hook (some_thread other_session : bool)
| VmDeath_hook
| NativeMethodCall_hook (t : nat) (mixed known step_into : bool)
| WaitForDebugger_hook
| GetStaticCallFrames_hook (t : nat) (frames : list (option nat * bool)).

Definition events_reading (body : list action) : list action := under debuggerEventsLock_ Reading body.

Definition NativeMethodCall_locks (t : nat) (mixed known step_into : bool) : list action :=
  if mixed then
    events_reading (if known then with_mutex t [] else [])
    ++ if known && step_into then
         session_locks ++ SendMessage_locks
         ++ [Acquire nativeMethodCallMutex_ Writing; Release nativeMethodCallMutex_; Await NativeReplied;
             Acquire nativeMethodCallMutex_ Writing; Release nativeMethodCallMutex_]
       else []
  else [].

Definition hook_locks (h : hook) : list action :=
  match h with
  | CollectModules_hook files | LoadModule_hook files => events_reading (concat (AddPandaFile_locks <$> files))
  | ConsoleCall_hook known => events_reading (if known then session_locks ++ SendMessage_locks else [])
  | Exception_hook t known ss => events_reading (if known then OnException_locks t ss else [])
  | FramePop_hook t known => events_reading (if known then with_mutex t [] else [])
  | MethodEntry_hook t known n new_file evaluating =>
      events_reading (if known then
        GetSourceFile_locks n
        ++ (if new_file then under sourceFilesMutex_ Writing (with_mutex t []) else [])
        ++ (if evaluating then [] else with_mutex t []) else [])
  | SingleStep_hook t n known_file break_on_start known asked ss =>
      events_reading (GetSourceFile_locks n ++ if known_file then
        (if break_on_start then under sourceFilesMutex_ Writing [] else [])
        ++ (if known then OnSingleStep_locks t asked ss else []) else [])
  | ThreadStart_hook some_thread other_session =>
      under debuggerEventsLock_ Writing (if some_thread then
        session_locks ++ (if other_session then SendMessage_locks else []) else [])
  | ThreadEnd_hook some_thread other_session =>
      under debuggerEventsLock_ Writing (if some_thread then
        session_locks ++ under taskExecution_ Reading session_locks
        ++ (if other_session then SendMessage_locks else []) else [])
  | VmDeath_hook => under vmDeathLock_ Writing SendMessage_locks
  | NativeMethodCall_hook t mixed known step_into => NativeMethodCall_locks t mixed known step_into
  | WaitForDebugger_hook =>
      [Acquire waitDebuggerMutex_ Writing; Release waitDebuggerMutex_; Await DebuggerArrived;
       Acquire waitDebuggerMutex_ Writing; Release waitDebuggerMutex_]
  | GetStaticCallFrames_hook t frames =>
      with_mutex t [] ++ with_mutex t [] ++ concat (call_frame_locks <$> frames) ++ session_locks
  end.

(** ** The requests

    What the handler of a request does between [taskExecution_] and its reply. The
    arguments tell whether the virtual machine is [alive], whether the thread is
    [known] and [paused], and which threads are suspended. *)

(** The locations of a breakpoint are looked for under the lock of the storage. *)
Definition SetBreakpoint_locks (alive : bool) (n : nat) : list action :=
  under vmDeathLock_ Reading
    (if alive then under storage_lock_ Writing (EnumerateLineEntries_locks n) else []).
Definition SetBreakpointByUrl_locks (alive : bool) (n : nat) (files : list bool) : list action :=
  session_locks ++ SetBreakpoint_locks alive n ++ concat (GetScriptId_locks <$> files).

(** Only the thread that stands at its start goes on, unless another one stands at
    a breakpoint; or all of them do. *)
Definition Continue_locks (alive : bool) (first : option nat) (looked : list nat) (resumed : list (nat * bool)) : list action :=
  under vmDeathLock_ Reading
    (if alive then
       match first with Some t => with_mutex t [] | None => [] end ++ each_mutex looked ++ concat (resume_locks <$> resumed)
     else []).

(** The thread is woken up to do something with its objects, and the request waits
    for it; when the thread is not suspended, its own objects are asked. *)
Definition RequestToObjectRepository_locks (t : nat) (suspended : bool) : list action :=
  with_mutex t (if suspended then
    [Notify (Resumed t); Release (thread_mutex_ t); Await (RequestDone t); Acquire (thread_mutex_ t) Writing] else []).

Inductive request :=
| Refused (looked : bool)
| ContinueToLocation_request (alive : bool) (t : nat) (known paused : bool) (n : nat) (suspended : bool)
| DebuggerEnable_request (ts : list nat)
| GetPossibleBreakpoints_request (alive : bool) (n : nat)
| GetScriptSource_request (alive : bool) (identity disassembly : option nat) (cached : bool)
| Pause_request (alive : bool) (ts : list nat)
| RemoveBreakpoint_request (alive : bool)
| RemoveBreakpointsByUrl_request (alive known : bool) (n : nat) (locations : list nat)
| Step_request (alive : bool) (t : nat) (known paused : bool) (line : nat) (suspended : bool)
| Resume_request (alive : bool) (first : option nat) (looked : list nat) (resumed : list (nat * bool))
| Ignored_request
| SetBreakpoint_request (alive : bool) (n : nat)
| SetBreakpointByUrl_request (alive : bool) (places : list (nat * list bool))
| SetBreakpointsActive_request (alive : bool)
| SetThreadOption_request (alive : bool) (t : nat) (known : bool)
| Evaluate_request (alive : bool) (t : nat) (known paused : bool) (frames : list nat) (suspended : bool)
| Disable_request (alive : bool) (t : nat) (known suspended : bool)
| ReplyNativeMethodCall_request (userCode alive : bool) (first : option nat) (looked : list nat) (resumed : list (nat * bool))
| SetMixedDebugEnabled_request
| RuntimeEnable_request (alive : bool)
| GetProperties_request (alive : bool) (t : nat) (known suspended : bool)
| RunIfWaitingForDebugger_request (alive : bool) (t : nat) (known suspended : bool)
| Profiler_request (asks_vm : bool).

Definition vm_reading (alive : bool) (body : list action) : list action :=
  under vmDeathLock_ Reading (if alive then body else []).

(** What a handler does with its thread once it has found it paused. *)
Definition if_paused_locks (t : nat) (known paused : bool) (body : list action) : list action :=
  if known then with_mutex t [] ++ (if paused then body else []) else [].

Definition request_locks (r : request) : list action :=
  match r with
  | Refused looked => if looked then session_locks else []
  | ContinueToLocation_request alive t known paused n suspended =>
      session_locks ++ GetScript_locks
      ++ vm_reading alive (if_paused_locks t known paused (EnumerateLineEntries_locks n ++ resume_locks (t, suspended)))
  | DebuggerEnable_request ts =>
      under debuggerEventsLock_ Writing (each_mutex ts ++ under storage_lock_ Writing [])
  | GetPossibleBreakpoints_request alive n => GetScript_locks ++ vm_reading alive (EnumerateLineEntries_locks n)
  | GetScriptSource_request alive identity disassembly cached =>
      GetScript_locks ++ vm_reading alive (GetSourceCode_locks identity disassembly cached)
  | Pause_request alive ts => session_locks ++ vm_reading alive (each_mutex ts)
  | RemoveBreakpoint_request alive | SetBreakpointsActive_request alive =>
      session_locks ++ vm_reading alive (under storage_lock_ Writing [])
  | RemoveBreakpointsByUrl_request alive known n locations =>
      session_locks ++ vm_reading alive (if known then
        EnumerateLineEntries_locks n
        ++ under storage_lock_ Writing (concat (GetSourceFile_locks <$> locations)) else [])
  | Step_request alive t known paused line suspended =>
      session_locks ++ vm_reading alive (if_paused_locks t known paused
        (times line GetDebugInfo_locks ++ resume_locks (t, suspended)))
  | Resume_request alive first looked resumed => session_locks ++ Continue_locks alive first looked resumed
  | Ignored_request => session_locks
  | SetBreakpoint_request alive n => session_locks ++ GetScript_locks ++ SetBreakpoint_locks alive n
  | SetBreakpointByUrl_request alive places =>
      concat ((λ x, SetBreakpointByUrl_locks alive x.1 x.2) <$> places)
  | SetThreadOption_request alive t known =>
      session_locks ++ vm_reading alive (if known then with_mutex t [] else [])
  | Evaluate_request alive t known paused frames suspended =>
      session_locks ++ vm_reading alive (if_paused_locks t known paused
        (concat (GetSourceFile_locks <$> frames) ++ RequestToObjectRepository_locks t suspended))
  | Disable_request alive t known suspended =>
      session_locks ++ vm_reading alive (if known then with_mutex t [] ++ resume_locks (t, suspended) else [])
  | ReplyNativeMethodCall_request userCode alive first looked resumed =>
      session_locks ++ (if userCode then Continue_locks alive first looked resumed else [])
      ++ under nativeMethodCallMutex_ Writing [Notify NativeReplied]
  | SetMixedDebugEnabled_request => vm_reading true []
  | RuntimeEnable_request alive => session_locks ++ vm_reading alive (session_locks ++ SendMessage_locks)
  | GetProperties_request alive t known suspended =>
      session_locks ++ vm_reading alive (if known then
        RequestToObjectRepository_locks t suspended ++ (if suspended then [] else with_mutex t []) else [])
  | RunIfWaitingForDebugger_request alive t known suspended =>
      session_locks ++ vm_reading alive ((if known then resume_locks (t, suspended) else [])
        ++ under waitDebuggerMutex_ Writing [Notify DebuggerArrived])
  | Profiler_request asks_vm => if asks_vm then vm_reading true [] else []
  end.

(** ** Messages *)

(** A message of the client, or a connection; a message without an id, or for a
    method that is not supported, does not get to a handler. *)
Inductive operation :=
| Hook (h : hook)
| Handle (r : request)
| HandleSync (r : request)
| HandleUnsupported
| HandleWithoutId
| Connect (sessions : nat).

Definition HandleMessage_locks (r : request) : list action :=
  under methodHandlersMutex_ Writing (under taskExecution_ Writing (request_locks r) ++ SendMessage_locks).
Definition RunSync_locks (body : list action) : list action :=
  under syncMutex_ Writing [] ++ body ++ under syncMutex_ Writing [].
Definition OnOpen_locks (sessions : nat) : list action :=
  under debuggerEventsLock_ Writing (under session_mutex_ Writing (times sessions SendMessage_locks)).

Definition operation_locks (o : operation) : list action :=
  match o with
  | Hook h => hook_locks h
  | Handle r => HandleMessage_locks r
  | HandleSync r => RunSync_locks (HandleMessage_locks r)
  | HandleUnsupported => under methodHandlersMutex_ Writing SendMessage_locks
  | HandleWithoutId => under methodHandlersMutex_ Writing []
  | Connect sessions => OnOpen_locks sessions
  end.
End code.

(** ** What respects the order

    Three things do not: the end of a thread, which waits for the request that is
    being handled while it keeps all hooks out; a thread that pauses the others
    while it holds its own mutex; and a request that waits for a suspended thread
    while it holds its locks. *)
Definition crosses_hook (h : hook) : bool :=
  match h with
  | ThreadEnd_hook some_thread _ => some_thread
  | Exception_hook _ known ss | SingleStep_hook _ _ _ _ known _ ss =>
      known && existsb (λ s, negb (bool_decide (paused_threads s = []))) ss
  | _ => false
  end.
Definition crosses_request (r : request) : bool :=
  match r with
  | Evaluate_request _ _ _ _ _ suspended | GetProperties_request _ _ _ suspended => suspended
  | _ => false
  end.
Definition crosses (o : operation) : bool :=
  match o with
  | Hook h => crosses_hook h
  | Handle r | HandleSync r => crosses_request r
  | _ => false
  end.

(** Actions that can be done while the locks [h] are held, and leave them held. *)
Definition fits (h : list (lock * mode)) (p : list action) : Prop := ∀ rest, ordered h (p ++ rest) = ordered h rest.

Lemma fits_nil h : fits h [].
Proof. done. Qed.
Lemma fits_app h p q : fits h p → fits h q → fits h (p ++ q).
Proof. intros Hp Hq rest. by rewrite <- app_assoc, Hp, Hq. Qed.
Lemma fits_if h (b : bool) p q : fits h p → fits h q → fits h (if b then p else q).
Proof. by destruct b. Qed.
Lemma fits_notify h c p : fits h p → fits h (Notify c :: p).
Proof. intros Hp rest. simpl. apply Hp. Qed.
Lemma fits_concat {A} h (f : A → list action) l : (∀ x, fits h (f x)) → fits h (concat (f <$> l)).
Proof. intros Hf. induction l as [|x l IH]; [apply fits_nil|]. simpl. by apply fits_app. Qed.
Lemma fits_times h n p : fits h p → fits h (times n p).
Proof. intros Hp. unfold times. induction n as [|n IH]; [apply fits_nil|]. simpl. by apply fits_app. Qed.

Lemma release_top l m h : below h l = true → release l ((l, m) :: h) = h.
Proof.
  intros Hb. unfold release. rewrite filter_cons_False by (simpl; tauto).
  induction h as [|x h IH]; [done|]. simpl in Hb. apply andb_true_iff in Hb as [Hx Hb].
  rewrite filter_cons_True; [by rewrite IH|]. intros Hl. rewrite Hl, Nat.ltb_irrefl in Hx. done.
Qed.

Lemma fits_under h l m p : below h l = true → fits ((l, m) :: h) p → fits h (under l m p).
Proof.
  intros Hb Hp rest. unfold under. simpl. rewrite Hb, <- app_assoc, Hp. simpl. by rewrite release_top.
Qed.

Create HintDb lock_code.
#[export] Hint Unfold session_locks GetScript_locks GetScriptId_locks disassembled_locks AddPandaFile_locks
  EnumerateLineEntries_locks GetDebugInfo_locks GetSourceFile_locks GetDisassemblySourceCode_locks GetSourceCode_locks
  with_mutex each_mutex Resume_locks resume_locks call_frame_locks async_frame_locks CallDebuggerPaused_locks
  DebuggableThreadPostSuspend_locks OnException_locks OnSingleStep_locks events_reading NativeMethodCall_locks
  SetBreakpoint_locks SetBreakpointByUrl_locks Continue_locks RequestToObjectRepository_locks vm_reading if_paused_locks
  HandleMessage_locks RunSync_locks OnOpen_locks : lock_code.

(** Takes a piece of code apart down to the locks it takes. *)
Ltac fit :=
  autounfold with lock_code;
  repeat first
    [ apply fits_nil | apply fits_under; [reflexivity|] | apply fits_app | apply fits_if | apply fits_notify
    | apply fits_concat; intros ? | apply fits_times | assumption | case_match ].

Section order.
Context (sync : bool).

(** A message may be sent under any locks but its own. *)
Lemma fits_send h : below h syncMutex_ = true → fits h (SendMessage_locks sync).
Proof. intros Hb. unfold SendMessage_locks. apply fits_if; [|apply fits_nil]. apply fits_under; [done|apply fits_nil]. Qed.

(** A condition variable gives its mutex back while the thread waits, here with no
    other lock. *)
Lemma fits_wait l c : fits [] [Acquire l Writing; Release l; Await c; Acquire l Writing; Release l].
Proof. intros rest. cbn [app ordered below forallb andb]. by rewrite !release_top, bool_decide_eq_true_2 by done. Qed.

(** A suspended thread sleeps without its locks. *)
Lemma fits_wake t request :
  fits [(thread_mutex_ t, Writing); (debuggerEventsLock_, Reading)] (wake_locks t request).
Proof.
  intros rest. unfold wake_locks. cbn [app ordered]. do 2 rewrite release_top by reflexivity.
  rewrite bool_decide_eq_true_2 by done. cbn [andb below forallb]. by destruct request.
Qed.

Lemma fits_suspend t s : negb (bool_decide (paused_threads s = [])) = false →
  fits [(thread_mutex_ t, Writing); (debuggerEventsLock_, Reading)] (Suspend_locks sync t s).
Proof.
  intros Hp%negb_false_iff%bool_decide_eq_true. unfold Suspend_locks, DebuggableThreadPostSuspend_locks. rewrite Hp.
  apply fits_app; [|apply fits_concat; intros; apply fits_wake]. fit; by apply fits_send.
Qed.

Lemma fits_concat_except {A} h (f : A → list action) (bad : A → bool) l :
  existsb bad l = false → (∀ x, bad x = false → fits h (f x)) → fits h (concat (f <$> l)).
Proof.
  intros Hl Hf. induction l as [|x l IH]; [apply fits_nil|]. simpl in *. apply orb_false_iff in Hl as [Hx Hl].
  apply fits_app; auto.
Qed.

Lemma hook_fits h : crosses_hook h = false → fits [] (hook_locks sync h).
Proof.
  destruct h as [| |t [] ss| | | |t n kf bs [] asked ss| |[]| | | |]; intros Hc; simpl in Hc; cbn [hook_locks]; try done.
  all: try (fit; first [by apply fits_send|by apply fits_wait]).
  - apply fits_under; [done|]. apply fits_under; [done|]. eapply fits_concat_except; [done|]. intros. by apply fits_suspend.
  - apply fits_under; [done|]. apply fits_app; [fit|]. apply fits_if; [|apply fits_nil]. apply fits_app; [fit|].
    apply fits_under; [done|]. apply fits_app; [fit|]. eapply fits_concat_except; [done|]. intros.
    apply fits_app; [fit|by apply fits_suspend].
Qed.

Lemma request_fits r : crosses_request r = false →
  fits [(taskExecution_, Writing); (methodHandlersMutex_, Writing)] (request_locks sync r).
Proof. destruct r; intros Hc; simpl in Hc; cbn [request_locks]; try (subst suspended); fit; by apply fits_send. Qed.

Lemma operation_ordered o : crosses o = false → ordered [] (operation_locks sync o) = true.
Proof.
  assert (Hf : ∀ p, fits [] p → ordered [] p = true).
  { intros p Hp. rewrite <- (app_nil_r p), Hp. done. }
  intros Hc. apply Hf. destruct o; simpl in Hc; cbn [operation_locks]; [by apply hook_fits|..]; fit;
    first [by apply request_fits|by apply fits_send].
Qed.
End order.

Lemma begin_ordered ops : Forall (λ x, crosses x.2 = false) ops →
  well_ordered (begin ((λ x, operation_locks x.1 x.2) <$> ops)).
Proof.
  intros Hp p. unfold begin. simpl. intros (q&->&(x&->&Hx)%list_elem_of_fmap)%list_elem_of_fmap.
  apply operation_ordered. rewrite Forall_forall in Hp. by apply Hp.
Qed.

(** C17: requests and hooks that respect the order of the locks do not deadlock.
    Take any number of them: every request of the client, synchronous or not, and
    every hook of the virtual machine, taken along any way through its code, but
    for the three kinds that cross the order ([crosses]): the end of a thread, a
    breakpoint that pauses other threads, a request that has a suspended thread
    look at its objects. Let them go on in any order. Then no run goes on for ever,
    and wherever a run has got to, it can go on until every thread has come to its
    end or waits for a signal of the client (to resume, to reply to a native call,
    to let the program run), and nobody holds a lock: a suspended program never
    keeps a request from being handled. Whether a signal can get lost is not part
    of this. *)
Theorem lock_order (ops : list (bool * operation)) (schedule : list nat) (s : locks) :
  Forall (λ x, crosses x.2 = false) ops →
  lock_run schedule (begin ((λ x, operation_locks x.1 x.2) <$> ops)) = Some s →
  (∀ schedule' s', lock_run schedule' s = Some s' →
     length schedule' ≤ remaining s ∧ (stuck s' → at_rest s') ∧ ¬ deadlocked s') ∧
  ∃ schedule' s', lock_run schedule' s = Some s' ∧ at_rest s'.
Proof.
  intros Hp Hrun. assert (Hs : well_ordered s) by (eapply run_ordered; [done|by apply begin_ordered]).
  split; [|by eapply comes_to_rest]. intros schedule' s' Hrun'.
  assert (Hs' : well_ordered s') by (by eapply run_ordered). split_and!.
  - apply run_remaining in Hrun'. lia.
  - by apply stuck_at_rest.
  - intros [Hstuck (p&Hin&Hh)]. by destruct (stuck_at_rest s' Hs' Hstuck p Hin).
Qed.

(** A thread stops at a breakpoint with two frames, while the client enables the
    debugger and the virtual machine ends. *)
Definition one_suspension (others : list nat) (wakes : list bool) : suspension :=
  mkSuspension [(1, true)] [(Some 1, true); (None, false)] others wakes.
Definition breakpoint_hook (t : nat) (others : list nat) (wakes : list bool) : hook :=
  SingleStep_hook t 0 true false true true [one_suspension others wakes].
Definition sample_operations : list (bool * operation) :=
  [(false, Handle (DebuggerEnable_request [1; 2])); (false, Hook (breakpoint_hook 1 [] [false]));
   (true, HandleSync (Resume_request true None [] [(1, true)])); (false, Hook VmDeath_hook)].

Lemma lock_order_witness :
  ∃ s, lock_run [1; 0; 1; 1; 0; 3] (begin ((λ x, operation_locks x.1 x.2) <$> sample_operations)) = Some s ∧
    ∃ schedule' s', lock_run schedule' s = Some s' ∧ at_rest s'.
Proof.
  eexists. split; [vm_compute; reflexivity|].
  refine (proj2 (lock_order sample_operations [1; 0; 1; 1; 0; 3] _ _ _)).
  - repeat constructor.
  - vm_compute. reflexivity.
Defined.

(** ** What crosses the order *)

(** Threads each of which waits for a lock that one of them holds. *)
Definition knot (ps : list locker) : bool :=
  forallb (λ p, match todo p with
                | Acquire l m :: _ => existsb (λ q, existsb (conflicts l m) (held q)) ps
                | _ => false
                end) ps.

Lemma knot_step ps others cs n s' :
  knot ps = true → lock_step n (mkLocks (ps ++ others) cs) = Some s' →
  ∃ others', lockers s' = ps ++ others'.
Proof.
  intros Hk. unfold lock_step. cbn [lockers]. destruct (decide (n < length ps)) as [Hlt|Hge].
  - destruct (lookup_lt_is_Some_2 ps n Hlt) as [p Hp]. rewrite lookup_app_l, Hp by done. cbn [mbind option_bind].
    unfold knot in Hk. rewrite forallb_forall in Hk.
    assert (Hin : In p ps) by (apply list_elem_of_In; by eapply list_elem_of_lookup_2). specialize (Hk p Hin).
    unfold act. destruct (todo p) as [|[l m|l|c|c] rest]; try done.
    replace (free l m _) with false; [done|]. symmetry. apply not_true_iff_false. unfold free. cbn [lockers].
    rewrite forallb_forall. intros Hf. apply existsb_exists in Hk as (q&Hq&Hc).
    specialize (Hf q ltac:(apply in_or_app; by left)). by rewrite Hc in Hf.
  - destruct ((ps ++ others) !! n) as [p|]; [|done]. simpl. destruct (act p _) as [[p' cs']|]; [|done].
    intros [= <-]. simpl. rewrite insert_app_r_alt by lia. by eexists.
Qed.

Lemma knot_run schedule : ∀ ps others cs s',
  knot ps = true → lock_run schedule (mkLocks (ps ++ others) cs) = Some s' → ∃ others', lockers s' = ps ++ others'.
Proof.
  induction schedule as [|n schedule IH]; intros ps others cs s' Hk E; simpl in E; [injection E as <-; by eexists|].
  destruct (lock_step n _) as [[ls cs1]|] eqn:E1; [|done]. destruct (knot_step _ _ _ _ _ Hk E1) as [o1 Ho].
  simpl in Ho. subst ls. by eapply IH.
Qed.

(** Threads that have not begun are in nobody's way. *)
Definition idle (programs : list (list action)) : list locker := (λ p, mkLocker p []) <$> programs.

Lemma idle_step n ls cs extra s' :
  lock_step n (mkLocks ls cs) = Some s' →
  lock_step n (mkLocks (ls ++ idle extra) cs) = Some (mkLocks (lockers s' ++ idle extra) (signals s')).
Proof.
  assert (Hf : ∀ l m, free l m (mkLocks (ls ++ idle extra) cs) = free l m (mkLocks ls cs)).
  { intros l m. unfold free. cbn [lockers]. rewrite forallb_app. replace (forallb _ (idle extra)) with true; [apply andb_true_r|].
    symmetry. apply forallb_forall. intros q (x&->&_)%list_elem_of_In%list_elem_of_fmap. done. }
  unfold lock_step. cbn [lockers]. destruct (ls !! n) as [p|] eqn:Ep; [|done].
  rewrite (lookup_app_l_Some _ _ _ _ Ep). cbn [mbind option_bind].
  assert (Ha : act p (mkLocks (ls ++ idle extra) cs) = act p (mkLocks ls cs)).
  { unfold act. destruct (todo p) as [|[]]; try done. by rewrite Hf. }
  rewrite Ha. destruct (act p (mkLocks ls cs)) as [[p' cs']|]; cbn [mbind option_bind]; [|done]. intros [= <-]. cbn [lockers signals].
  by rewrite insert_app_l by (by eapply lookup_lt_Some).
Qed.

Lemma idle_run schedule : ∀ ls cs extra s',
  lock_run schedule (mkLocks ls cs) = Some s' →
  lock_run schedule (mkLocks (ls ++ idle extra) cs) = Some (mkLocks (lockers s' ++ idle extra) (signals s')).
Proof.
  induction schedule as [|n schedule IH]; intros ls cs extra s' E; simpl in E |- *; [by injection E as <-|].
  destruct (lock_step n _) as [[ls1 cs1]|] eqn:E1; [|done]. rewrite (idle_step _ _ _ _ _ E1). cbn [mbind option_bind].
  by apply IH.
Qed.

Lemma lock_run_app xs ys s : lock_run (xs ++ ys) s = lock_run xs s ≫= lock_run ys.
Proof.
  revert s. induction xs as [|x xs IH]; intros s; [done|]. simpl. destruct (lock_step x s); [apply IH|done].
Qed.

(** Operations that can get into each other's way so that none of them ever goes
    on, whatever else is started and whatever it does. *)
Definition may_block_for_ever (ops : list operation) : Prop :=
  ∃ schedule s, lock_run schedule (begin (operation_locks false <$> ops)) = Some s ∧
    knot (lockers s) = true ∧ lockers s ≠ [] ∧
    ∀ extra schedule' s', lock_run (schedule ++ schedule') (begin ((operation_locks false <$> ops) ++ extra)) = Some s' →
      ∃ others, lockers s' = lockers s ++ others.

Definition may_deadlock (ops : list operation) : Prop :=
  ∃ schedule s, lock_run schedule (begin (operation_locks false <$> ops)) = Some s ∧ deadlocked s.

Lemma knot_blocks ops schedule s :
  lock_run schedule (begin (operation_locks false <$> ops)) = Some s → knot (lockers s) = true → lockers s ≠ [] →
  may_block_for_ever ops.
Proof.
  intros E Hk Hn. exists schedule, s. split_and!; [done..|]. intros extra schedule' s'.
  rewrite lock_run_app. unfold begin. rewrite fmap_app. erewrite (idle_run _ _ _ extra) by exact E. simpl. by apply knot_run.
Qed.

(** C15: what crosses the order of the locks does deadlock. "Debugger.enable"
    holds [taskExecution_] and waits for [debuggerEventsLock_] while the end of a
    thread holds the latter and waits for the former: both wait for ever, whatever
    else goes on. So do two threads that come upon breakpoints at the same time:
    each holds its mutex and waits for the one of the other. And a request for the
    properties of an object, or for the value of an expression, holds
    [taskExecution_] while it waits for a suspended thread; the end of another
    thread waits for that lock, and keeps the suspended thread from the lock it
    needs in order to serve the request: nobody can go on. *)
Theorem lock_cycles :
  may_block_for_ever [Handle (DebuggerEnable_request [1; 2]); Hook (ThreadEnd_hook true true)] ∧
  may_block_for_ever [Hook (breakpoint_hook 1 [2] [false]); Hook (breakpoint_hook 2 [1] [false])] ∧
  may_deadlock [Handle (GetProperties_request true 1 true true); Hook (breakpoint_hook 1 [] [true; false]);
                Hook (ThreadEnd_hook true true)] ∧
  may_deadlock [Handle (Evaluate_request true 1 true true [0] true); Hook (breakpoint_hook 1 [] [true; false]);
                Hook (ThreadEnd_hook true true)].
Proof.
  split_and!.
  - eapply (knot_blocks _ [0; 0; 1; 1; 1]); [vm_compute; reflexivity|vm_compute; reflexivity|done].
  - eapply (knot_blocks _ (replicate 4 0 ++ replicate 30 1 ++ replicate 26 0));
      [vm_compute; reflexivity|vm_compute; reflexivity|done].
  - eexists (replicate 32 1 ++ replicate 8 0 ++ replicate 3 2 ++ [1]), _. split; [vm_compute; reflexivity|].
    apply deadlocked_b_true. vm_compute. reflexivity.
  - eexists (replicate 32 1 ++ replicate 12 0 ++ replicate 3 2 ++ [1]), _. split; [vm_compute; reflexivity|].
    apply deadlocked_b_true. vm_compute. reflexivity.
Qed.
