(* ===== verification/DebuggerState.v ===== *)
(** * The debugger agent: its state and the interfaces it uses

    [DebuggerImpl] of tooling/dynamic/agent/debugger_impl.{h,cpp} is the agent of
    the domain "Debugger". This file holds its members, the members of [JSPtHooks]
    (backend/js_pt_hooks.h), of which it has one, the script table of
    base/pt_script.{h,cpp}, and the frontend, through which events reach the
    client.

    The virtual machine (the ecmascript engine with [JSDebugger],
    [JsDebuggerManager], [DebuggerApi] and the debug information of the loaded
    files) is not part of the repository: it is the class [EcmaVm], an opaque
    state with the operations the agent calls. What the agent asks of the
    protocol channel is recorded as a sequence of calls; ProtocolHandler.v models
    the channel. *)

From S2P Require Import Prelude Regex Http CppLib Utils ThreadState.
From S2P Require Import PtJson HybridFrames PtCodec PtTypes PtProfile PtSchema PtParams PtEvents PtReturns Dispatcher.
Local Open Scope Z_scope.

(** ** The virtual machine *)

Class EcmaVm := {
  vm : Type;
  JSValue : Type;
  FrameHandler : Type;
  JSPandaFile : Type;
  JSPandaFile_eq_dec :: EqDecision JSPandaFile;
  DebugInfoExtractor : Type;
  JSPtLocation : Type;
  LexicalEnv : Type;

  (** [JsDebuggerManager] *)
  IsDebugMode : vm → bool;
  SetDebugMode : bool → vm → vm;
  IsDebugApp : vm → bool;
  GetFaApp : vm → bool;
  IsAsyncStackTrace : vm → bool;
  SetAsyncStackTrace : bool → vm → vm;
  vm_SetMixedDebugEnabled : bool → vm → vm;
  vm_SetMixedStackEnabled : bool → vm → vm;
  SetEvalFrameHandler : option FrameHandler → vm → vm;

  (** The current method (its id and its file), and the stack. *)
  GetMethod : vm → Z * JSPandaFile;
  GetBytecodeOffset : vm → Z;
  GetStackDepth : vm → Z;
  GetStackDepthOverBuiltin : vm → Z;
  CheckIsSendableMethod : vm → bool;
  CheckPromiseQueueSize : vm → bool;
  DropLastFrame : vm → vm;
  StackFrames : vm → list FrameHandler;       (* the frames [StackWalker] visits *)
  UnionStackIsEmpty : vm → bool;
  UnionStack : vm → list (FrameHandler * bool);(* the frames of [ForEachFrameInUnionStack] *)
  GetNativePointer : vm → list Z;
  IsNativeMethod : vm → bool;
  DebuggerExecutor_Initialize : vm → vm;

  (** Frames. *)
  frame_IsNativeMethod : FrameHandler → bool;
  frame_HasFrame : FrameHandler → bool;
  frame_Method : FrameHandler → Z * JSPandaFile;
  frame_FunctionName : FrameHandler → bytes;
  frame_BytecodeOffset : FrameHandler → Z;
  frame_Sp : FrameHandler → Z;
  frame_VReg : vm → FrameHandler → Z → JSValue;
  frame_Env : vm → FrameHandler → list LexicalEnv;   (* the chain of lexical environments *)
  env_ScopeInfo : LexicalEnv → option (list (bytes * Z));
  env_Property : LexicalEnv → Z → JSValue;
  frame_GlobalObject : vm → FrameHandler → JSValue;

  (** Loaded files and their debug information. *)
  FindJSPandaFile : vm → bytes → option JSPandaFile;
  GetJSPtExtractor : vm → JSPandaFile → option DebugInfoExtractor;
  JSPandaFileIsBundlePack : JSPandaFile → bool;
  JSPandaFileIsNewVersion : JSPandaFile → bool;
  GetJSPandaFileDesc : JSPandaFile → bytes;
  GetBaseJSPandaFile : vm → JSPandaFile → JSPandaFile;
  GetJSPandaFileMainMethodIndex : JSPandaFile → bytes → Z;
  GetPatchExtractors : vm → bytes → list (option DebugInfoExtractor);
  GetSourceCode : DebugInfoExtractor → Z → bytes;
  GetSourceFile : DebugInfoExtractor → Z → bytes;
  GetLineNumberTable : DebugInfoExtractor → Z → list (Z * Z);    (* offset and line *)
  GetLocalVariableTable : DebugInfoExtractor → Z → list (bytes * Z * (Z * Z));
  (** The line and the column that the callbacks of [MatchLineWithOffset] and
      [MatchColumnWithOffset] are called with. *)
  line_at : DebugInfoExtractor → Z → Z → option Z;
  column_at : DebugInfoExtractor → Z → Z → option Z;
  (** [MatchWithLocation] with a callback that may change the machine. *)
  MatchWithLocation : DebugInfoExtractor → (JSPtLocation → vm → bool * vm) →
    Z → Z → bytes → gset bytes → vm → bool * vm;
  loc_JsPandaFile : JSPtLocation → JSPandaFile;
  loc_MethodId : JSPtLocation → Z;
  loc_BytecodeOffset : JSPtLocation → Z;
  loc_SourceFile : JSPtLocation → bytes;

  (** Breakpoints of [JSDebugger]. *)
  api_SetBreakpoint : JSPtLocation → option JSValue → bool → vm → bool * vm;
  api_RemoveBreakpoint : JSPtLocation → vm → bool * vm;
  api_RemoveBreakpointsByUrl : bytes → vm → bool * vm;
  api_RemoveAllBreakpoints : vm → vm;
  api_SetSymbolicBreakpoint : gset bytes → vm → vm;
  api_RemoveSymbolicBreakpoint : bytes → vm → vm;
  api_DisableFirstTimeFlag : vm → vm;
  api_EnableSimplifiedMode : vm → vm;
  IsSimplifiedMode : vm → bool;
  GetSingleStepStatus : vm → bool;
  SetSingleStepStatus : bool → vm → vm;

  (** Values and exceptions. *)
  IsExceptionCaught : vm → bool;
  GetAndClearException : vm → JSValue * vm;
  SetException : JSValue → vm → vm;
  HasPendingException : vm → bool;
  HandleUncaughtException : vm → bytes * vm;
  GetCurrentGlobalEnv : vm → JSValue;
  GetCurrentContext : vm → JSValue;
  SwitchContext : JSValue → vm → vm;
  IsError : vm → JSValue → bool;
  IsObjectValue : vm → JSValue → bool;
  IsFunctionValue : vm → JSValue → bool;
  IsHole : JSValue → bool;
  UndefinedValue : JSValue;
  HoleValue : JSValue;
  FunctionName : vm → JSValue → bytes;
  NewObject : vm → JSValue * vm;
  DefineProperty : JSValue → bytes → JSValue → vm → vm;
  HasProperty : vm → JSValue → bytes → bool;
  AddInternalProperties : JSValue → vm → vm;
  AddModuleVariables : JSValue → vm → vm;     (* local and indirect exports, imports *)
  CurrentModuleIsSourceText : vm → bool;
  EvalError : vm → bytes → JSValue * vm;
  FromTagged : vm → JSValue → RemoteObject;   (* [RemoteObject::FromTagged] *)
  HasValue : vm → JSValue → bool;             (* whether it has a value *)
  ExtractStaticFrameInfo : vm → FrameHandler → bool * UnifiedFrameInfo;
  GenerateFuncFromBuffer : bytes → vm → option JSValue * vm;  (* [None]: undefined *)
  EvaluateViaFuncCall : option JSValue → FrameHandler → vm → JSValue * vm;
  CallFunctionOnCall : option JSValue → FrameHandler → vm → JSValue * vm;
  Executor_GetValue : FrameHandler → bytes → vm → option JSValue * vm;
  Executor_SetValue : FrameHandler → bytes → JSValue → vm → bool * vm;
  NewNumber : Z → JSValue;
  ParsedNumber : bytes → option JSValue;      (* [StringToDouble], if it is not a NaN *)
  NewString : bytes → JSValue;
  BoolValue : bool → JSValue;
  GetCurrentAsyncParent : vm → option AsyncStack }.

(** A field of a record is replaced; [eta] rebuilds the record from its fields. *)
Ltac with_field eta d proj v :=
  let b := eval cbv beta delta [eta] in (eta d) in
  lazymatch eval pattern (proj d) in b with
  | ?f _ => let r := eval cbv beta in (f v) in exact r
  end.

(** ** The script table *)

Record PtScript := mkPtScript {
  ps_scriptId_ : Z;
  ps_fileName_ : bytes;
  ps_url_ : bytes;
  ps_hash_ : bytes;
  ps_scriptSource_ : bytes;
  ps_endLine_ : Z;
  ps_locations_ : list BreakpointReturnInfo }.

(** The constructor: the number of newlines of the source. *)
Definition new_PtScript (scriptId : Z) (fileName url source : bytes) : PtScript :=
  mkPtScript scriptId fileName url [] source (Z.of_nat (length (filter (λ c, c = 10) source))) [].

Definition PtScript_SetLocations (locations : list BreakpointReturnInfo) (s : PtScript) : PtScript :=
  mkPtScript (ps_scriptId_ s) (ps_fileName_ s) (ps_url_ s) (ps_hash_ s) (ps_scriptSource_ s) (ps_endLine_ s)
    locations.

Inductive ScriptMatchType := SM_URL | SM_FILE_NAME | SM_HASH.

(** An [std::unordered_map] is iterated in some order of its entries, and an
    [std::unordered_set] in some order of its elements. *)
Class HashOrder := {
  script_order : gmap Z PtScript → list PtScript;
  script_order_perm m : script_order m ≡ₚ (map_to_list m).*2;
  pending_order : list BreakpointInfo → list BreakpointInfo;
  pending_order_perm l : pending_order l ≡ₚ l;
  pending_entries : gmap bytes (list BreakpointInfo) → list (bytes * list BreakpointInfo);
  pending_entries_perm m : pending_entries m ≡ₚ map_to_list m;
  name_order : gset bytes → list bytes;
  name_order_perm s : name_order s ≡ₚ elements s }.

(** ** The members of the agent *)

Inductive DebuggerState := DISABLED | ENABLED | PAUSED.
#[export] Instance DebuggerState_eq_dec : EqDecision DebuggerState.
Proof. solve_decision. Defined.

Inductive StepperType := STEPPER_INTO | STEPPER_OVER | STEPPER_OUT.
#[export] Instance StepperType_eq_dec : EqDecision StepperType.
Proof. solve_decision. Defined.

Section State.
Context `{EcmaVm}.

(** [SingleStepper]: the method and the depth at which the step began, and the
    ranges of bytecode offsets of the line. *)
Record SingleStepper := mkSingleStepper {
  st_method_ : Z * JSPandaFile;
  st_stepRanges_ : list (Z * Z);
  st_stackDepth_ : Z;
  st_type_ : StepperType }.

(** The members of [DebuggerImpl], and [firstTime_] and [breakOnSymbol_] of its
    hooks. [channel_] says whether there is a channel. *)
Record DebuggerImpl := mkDebuggerImpl {
  isHybrid_ : bool;
  channel_ : bool;
  recordNames_ : gmap bytes (gset bytes);
  recordNameSet_ : gset bytes;
  urlFileNameMap_ : gmap bytes (gset bytes);
  scripts_ : gmap Z PtScript;
  pauseOnException_ : PauseOnExceptionsState;
  debuggerState_ : DebuggerState;
  pauseOnNextByteCode_ : bool;
  breakpointsState_ : bool;
  skipAllPausess_ : bool;
  mixStackEnabled_ : bool;
  maxAsyncCallChainDepth_ : Z;
  singleStepper_ : option SingleStepper;
  location_ : Location;
  nativePointer_ : list Z;
  nativeOutPause_ : bool;
  nativeRanges_ : list NativeRange;
  scopeObjects_ : gmap Z (gmap bytes (list Z));
  callFrameHandlers_ : list FrameHandler;
  breakpointPendingMap_ : gmap bytes (list BreakpointInfo);
  breakOnStartEnable_ : bool;
  firstTime_ : bool;
  breakOnSymbol_ : bool }.

Definition new_DebuggerImpl (isHybrid channel : bool) : DebuggerImpl :=
  mkDebuggerImpl isHybrid channel ∅ ∅ ∅ ∅ POE_NONE ENABLED false true false false 0 None Location_init []
    false [] ∅ [] ∅ true true false.

Definition DebuggerImpl_eta (d : DebuggerImpl) : DebuggerImpl :=
  mkDebuggerImpl (isHybrid_ d) (channel_ d) (recordNames_ d) (recordNameSet_ d) (urlFileNameMap_ d)
    (scripts_ d) (pauseOnException_ d) (debuggerState_ d) (pauseOnNextByteCode_ d) (breakpointsState_ d)
    (skipAllPausess_ d) (mixStackEnabled_ d) (maxAsyncCallChainDepth_ d) (singleStepper_ d)
    (location_ d) (nativePointer_ d) (nativeOutPause_ d) (nativeRanges_ d) (scopeObjects_ d)
    (callFrameHandlers_ d) (breakpointPendingMap_ d) (breakOnStartEnable_ d) (firstTime_ d)
    (breakOnSymbol_ d).

(** Assignments to a member. *)
Definition set_recordNames_ (v : gmap bytes (gset bytes)) (d : DebuggerImpl) : DebuggerImpl :=
  ltac:(with_field DebuggerImpl_eta d recordNames_ v).
Definition set_recordNameSet_ (v : gset bytes) (d : DebuggerImpl) : DebuggerImpl :=
  ltac:(with_field DebuggerImpl_eta d recordNameSet_ v).
Definition set_urlFileNameMap_ (v : gmap bytes (gset bytes)) (d : DebuggerImpl) : DebuggerImpl :=
  ltac:(with_field DebuggerImpl_eta d urlFileNameMap_ v).
Definition set_scripts_ (v : gmap Z PtScript) (d : DebuggerImpl) : DebuggerImpl :=
  ltac:(with_field DebuggerImpl_eta d scripts_ v).
Definition set_pauseOnException_ (v : PauseOnExceptionsState) (d : DebuggerImpl) : DebuggerImpl :=
  ltac:(with_field DebuggerImpl_eta d pauseOnException_ v).
Definition set_debuggerState_ (v : DebuggerState) (d : DebuggerImpl) : DebuggerImpl :=
  ltac:(with_field DebuggerImpl_eta d debuggerState_ v).
Definition set_pauseOnNextByteCode_ (v : bool) (d : DebuggerImpl) : DebuggerImpl :=
  ltac:(with_field DebuggerImpl_eta d pauseOnNextByteCode_ v).
Definition set_breakpointsState_ (v : bool) (d : DebuggerImpl) : DebuggerImpl :=
  ltac:(with_field DebuggerImpl_eta d breakpointsState_ v).
Definition set_skipAllPausess_ (v : bool) (d : DebuggerImpl) : DebuggerImpl :=
  ltac:(with_field DebuggerImpl_eta d skipAllPausess_ v).
Definition set_mixStackEnabled_ (v : bool) (d : DebuggerImpl) : DebuggerImpl :=
  ltac:(with_field DebuggerImpl_eta d mixStackEnabled_ v).
Definition set_maxAsyncCallChainDepth_ (v : Z) (d : DebuggerImpl) : DebuggerImpl :=
  ltac:(with_field DebuggerImpl_eta d maxAsyncCallChainDepth_ v).
Definition set_singleStepper_ (v : option SingleStepper) (d : DebuggerImpl) : DebuggerImpl :=
  ltac:(with_field DebuggerImpl_eta d singleStepper_ v).
Definition set_location_ (v : Location) (d : DebuggerImpl) : DebuggerImpl :=
  ltac:(with_field DebuggerImpl_eta d location_ v).
Definition set_nativePointer_ (v : list Z) (d : DebuggerImpl) : DebuggerImpl :=
  ltac:(with_field DebuggerImpl_eta d nativePointer_ v).
Definition set_nativeOutPause_ (v : bool) (d : DebuggerImpl) : DebuggerImpl :=
  ltac:(with_field DebuggerImpl_eta d nativeOutPause_ v).
Definition set_nativeRanges_ (v : list NativeRange) (d : DebuggerImpl) : DebuggerImpl :=
  ltac:(with_field DebuggerImpl_eta d nativeRanges_ v).
Definition set_scopeObjects_ (v : gmap Z (gmap bytes (list Z))) (d : DebuggerImpl) : DebuggerImpl :=
  ltac:(with_field DebuggerImpl_eta d scopeObjects_ v).
Definition set_callFrameHandlers_ (v : list FrameHandler) (d : DebuggerImpl) : DebuggerImpl :=
  ltac:(with_field DebuggerImpl_eta d callFrameHandlers_ v).
Definition set_breakpointPendingMap_ (v : gmap bytes (list BreakpointInfo)) (d : DebuggerImpl) : DebuggerImpl :=
  ltac:(with_field DebuggerImpl_eta d breakpointPendingMap_ v).
Definition set_breakOnStartEnable_ (v : bool) (d : DebuggerImpl) : DebuggerImpl :=
  ltac:(with_field DebuggerImpl_eta d breakOnStartEnable_ v).
Definition set_firstTime_ (v : bool) (d : DebuggerImpl) : DebuggerImpl :=
  ltac:(with_field DebuggerImpl_eta d firstTime_ v).
Definition set_breakOnSymbol_ (v : bool) (d : DebuggerImpl) : DebuggerImpl :=
  ltac:(with_field DebuggerImpl_eta d breakOnSymbol_ v).

(** ** The surroundings of the agent *)

(** The part of [RuntimeImpl] that the agent shares: the objects the client may
    ask about, and the next id. *)
Record RuntimeObjects := mkRuntimeObjects {
  curObjectId_ : Z;
  properties_ : gmap Z JSValue }.

Inductive notification_event :=
| EvPaused (x : Paused)
| EvResumed
| EvScriptParsed (x : ScriptParsed)
| EvNativeCalling (x : NativeCalling)
| EvMixedStack (x : MixedStack)
| EvAddHeapSnapshotChunk (x : AddHeapSnapshotChunk)
| EvAddHeapSnapshotExtraInfo (x : AddHeapSnapshotExtraInfo)
| EvReportHeapSnapshotProgress (x : ReportHeapSnapshotProgress)
| EvHeapStatsUpdate (x : HeapStatsUpdate)
| EvLastSeenObjectId (x : LastSeenObjectId)
| EvBufferUsage (x : BufferUsage)
| EvDataCollected (x : DataCollected)
| EvTracingComplete (x : TracingComplete)
| EvPreciseCoverageDeltaUpdate (x : PreciseCoverageDeltaUpdate).

(** What is asked of the channel, in order. *)
Inductive channel_call :=
| SendResult (callId : Z) (response : DispatchResponse) (result : PtBaseReturns)
| SendEvent (e : notification_event)
| ChannelWait
| ChannelRun.

Record world := mkWorld {
  w_dbg : DebuggerImpl;
  w_vm : vm;
  w_runtime : RuntimeObjects;
  w_hybrid : HybridSingleStepper;
  w_scriptId : Z;              (* [g_scriptId] *)
  w_calls : list channel_call }.

Definition world_eta (w : world) : world :=
  mkWorld (w_dbg w) (w_vm w) (w_runtime w) (w_hybrid w) (w_scriptId w) (w_calls w).
Definition set_dbg (v : DebuggerImpl) (w : world) : world := ltac:(with_field world_eta w w_dbg v).
Definition set_vm (v : vm) (w : world) : world := ltac:(with_field world_eta w w_vm v).
Definition set_runtime (v : RuntimeObjects) (w : world) : world := ltac:(with_field world_eta w w_runtime v).
Definition set_hybrid (v : HybridSingleStepper) (w : world) : world := ltac:(with_field world_eta w w_hybrid v).
Definition set_scriptId (v : Z) (w : world) : world := ltac:(with_field world_eta w w_scriptId v).
Definition set_calls (v : list channel_call) (w : world) : world := ltac:(with_field world_eta w w_calls v).

(** ** Primitive steps *)

Definition D (A : Type) : Type := M world A.
Definition get {A} (f : DebuggerImpl → A) : D A := λ w, Ret (f (w_dbg w)) w.
Definition put (f : DebuggerImpl → DebuggerImpl) : D () := m_modify (λ w, set_dbg (f (w_dbg w)) w).
Definition ask {A} (f : vm → A) : D A := λ w, Ret (f (w_vm w)) w.
Definition tell (f : vm → vm) : D () := m_modify (λ w, set_vm (f (w_vm w)) w).
Definition call {A} (f : vm → A * vm) : D A := λ w, let '(a, v) := f (w_vm w) in Ret a (set_vm v w).
Definition emit (c : channel_call) : D () := m_modify (λ w, set_calls (w_calls w ++ [c]) w).
Definition hybrid_set (dir : HybridStepDirection) (b : bool) : D () :=
  m_modify (λ w, set_hybrid (SetHybridSingleStepFlag dir b (w_hybrid w)) w).
Definition when (b : bool) (m : D ()) : D () := if b then m else m_ret ().

End State.

Local Open Scope ark_scope.

(** ** The frontend *)

Section Frontend.
Context `{EcmaVm}.

Definition AllowNotify : D bool :=
  debugMode <-- ask IsDebugMode ;;
  channel <-- get channel_ ;;
  m_ret (debugMode && channel).

Definition Frontend_send (e : notification_event) : D () :=
  allow <-- AllowNotify ;;
  when allow (emit (SendEvent e)).

Definition Frontend_Paused (x : Paused) : D () := Frontend_send (EvPaused x).
Definition Frontend_NativeCalling (x : NativeCalling) : D () := Frontend_send (EvNativeCalling x).
Definition Frontend_MixedStack (x : MixedStack) : D () := Frontend_send (EvMixedStack x).

Definition Frontend_Resumed : D () :=
  allow <-- AllowNotify ;;
  when allow (emit ChannelRun ;;; emit (SendEvent EvResumed)).

Definition Frontend_ScriptParsed (script : PtScript) : D () :=
  Frontend_send (EvScriptParsed (
    mkScriptParsed (ps_scriptId_ script) (ps_url_ script) 0 0 (ps_endLine_ script) 0 0 (ps_hash_ script)
      None None None None None None None None (ps_locations_ script))).

(** The channel serves requests until it is told to run on. *)
Definition Frontend_WaitForDebugger (serve : D ()) : D () :=
  allow <-- AllowNotify ;;
  when allow (emit ChannelWait ;;; serve).

(** Does not look at the debug mode. *)
Definition Frontend_RunIfWaitingForDebugger : D () :=
  channel <-- get channel_ ;;
  when channel (emit ChannelRun).

End Frontend.
