(* ===== verification/SingleStepper.v ===== *)
(** * The single stepper

    Models [SingleStepper] of tooling/dynamic/backend/js_single_stepper.{h,cpp}:
    what a step request remembers of the place where it began, and when the step
    is complete. The theorems read the byte ranges that the stepper computes as
    source lines. *)

From S2P Require Import Prelude Regex Http CppLib Utils ThreadState.
From S2P Require Import PtJson PtCodec PtTypes PtProfile PtSchema PtParams PtEvents PtReturns Dispatcher.
From S2P Require Import DebuggerState.
From Stdlib Require Import Sorted.
Local Open Scope Z_scope.

Definition UINT32_MAX : Z := 4294967295.

Section Stepper.
Context `{EcmaVm}.

Definition InStepRange (stepRanges : list (Z * Z)) (pc : Z) : bool :=
  existsb (λ range, (range.1 <=? pc) && (pc <? range.2)) stepRanges.

Definition StepComplete (stepper : SingleStepper) (bcOffset : Z) (v : vm) : bool :=
  let ptMethod := GetMethod v in
  let stackDepth := GetStackDepth v in
  match st_type_ stepper with
  | STEPPER_INTO =>
      negb ((st_method_ stepper).1 =? ptMethod.1) ||
      negb (bool_decide ((st_method_ stepper).2 = ptMethod.2)) ||
      negb (InStepRange (st_stepRanges_ stepper) bcOffset)
  | STEPPER_OVER =>
      if st_stackDepth_ stepper <? stackDepth then false
      else if (st_stackDepth_ stepper =? stackDepth) && InStepRange (st_stepRanges_ stepper) bcOffset then false
      else true
  | STEPPER_OUT => if st_stackDepth_ stepper <=? stackDepth then false else true
  end.

(** The ranges of the entries of the table that have the given line; a range
    ends where the next entry begins. *)
Fixpoint line_ranges (table : list (Z * Z)) (line : Z) : list (Z * Z) :=
  match table with
  | [] => []
  | (offset, l) :: rest =>
      let next := match rest with (o, _) :: _ => o | [] => UINT32_MAX end in
      if l =? line then (offset, next) :: line_ranges rest line else line_ranges rest line
  end.

Definition GetStepRanges (extractor : DebugInfoExtractor) (methodId offset : Z) : list (Z * Z) :=
  match line_at extractor methodId offset with
  | Some line => line_ranges (GetLineNumberTable extractor methodId) line
  | None => []
  end.

Definition GetStepper (type : StepperType) (v : vm) : option SingleStepper :=
  let ptMethod := GetMethod v in
  match GetJSPtExtractor v ptMethod.2 with
  | None => None
  | Some extractor =>
      Some (mkSingleStepper ptMethod
        (if decide (type = STEPPER_OUT) then [] else GetStepRanges extractor ptMethod.1 (GetBytecodeOffset v))
        (GetStackDepth v) type)
  end.

Definition GetStepIntoStepper : vm → option SingleStepper := GetStepper STEPPER_INTO.
Definition GetStepOverStepper : vm → option SingleStepper := GetStepper STEPPER_OVER.
Definition GetStepOutStepper : vm → option SingleStepper := GetStepper STEPPER_OUT.

(** ** Ranges and lines *)

(** The line of a bytecode offset by the table: that of the last entry that does
    not begin after it. *)
Definition table_line (table : list (Z * Z)) (pc : Z) : option Z :=
  snd <$> last (filter (λ e, e.1 ≤ pc) table).

Definition table_sorted (table : list (Z * Z)) : Prop := StronglySorted (λ a b, a.1 < b.1) table.

Lemma ranges_start table line r : r ∈ line_ranges table line → ∃ l, (r.1, l) ∈ table.
Proof.
  induction table as [|[o l] rest IH]; cbn [line_ranges]; [by intros ?%elem_of_nil|].
  destruct (l =? line); [intros [->|Hin]%elem_of_cons|intros Hin].
  - exists l. left.
  - destruct (IH Hin) as (l' & ?). exists l'. by right.
  - destruct (IH Hin) as (l' & ?). exists l'. by right.
Qed.

Lemma ranges_after table line pc :
  Forall (λ e : Z * Z, pc < e.1) table → InStepRange (line_ranges table line) pc = false.
Proof.
  intros Ha. apply not_true_iff_false. unfold InStepRange. rewrite existsb_exists.
  intros (r & Hin & Hr). apply list_elem_of_In, ranges_start in Hin as (l & Hin).
  rewrite Forall_forall in Ha. specialize (Ha _ Hin). simpl in Ha. lia.
Qed.

Lemma table_line_after table pc : Forall (λ e : Z * Z, pc < e.1) table → filter (λ e : Z * Z, e.1 ≤ pc) table = [].
Proof.
  induction 1 as [|e table He _ IH]; [done|]. rewrite filter_cons_False by lia. exact IH.
Qed.

(** The ranges of a line hold the offsets of that line. *)
Lemma in_step_range_line table line pc :
  table_sorted table → pc < UINT32_MAX →
  InStepRange (line_ranges table line) pc = bool_decide (table_line table pc = Some line).
Proof.
  intros Hs Hpc. induction Hs as [|[o l] rest Hs IH Hall]; [by cbn|].
  assert (Hcons : InStepRange (line_ranges ((o, l) :: rest) line) pc =
    ((l =? line) && (o <=? pc) && (pc <? match rest with (o, _) :: _ => o | [] => UINT32_MAX end)) ||
    InStepRange (line_ranges rest line) pc).
  { cbn [line_ranges]. destruct (l =? line); [|done]. cbn [InStepRange existsb fst snd andb].
    by rewrite <- andb_assoc || reflexivity. }
  rewrite Hcons. clear Hcons. unfold table_line in *.
  destruct (decide (o ≤ pc)) as [Ho|Ho].
  - rewrite filter_cons_True by done. destruct rest as [|[o2 l2] rest'].
    + cbn. replace (o <=? pc) with true by lia. replace (pc <? UINT32_MAX) with true by lia.
      rewrite !andb_true_r, orb_false_r. destruct (Z.eqb_spec l line) as [->|]; [by rewrite bool_decide_eq_true_2|].
      rewrite bool_decide_eq_false_2; [done|congruence].
    + destruct (decide (o2 ≤ pc)) as [Ho2|Ho2].
      * rewrite IH. replace (pc <? o2) with false by lia. rewrite andb_false_r. cbn [orb].
        rewrite (filter_cons_True _ (o2, l2)) by done. by rewrite last_cons_cons.
      * rewrite IH. assert (Hf : filter (λ e : Z * Z, e.1 ≤ pc) ((o2, l2) :: rest') = []).
        { apply table_line_after. apply Forall_cons. split; [simpl; lia|].
          inversion Hs as [|? ? _ Hall2]; subst. eapply Forall_impl; [exact Hall2|].
          intros [o3 l3] ?; simpl in *; lia. }
        rewrite Hf. cbn. replace (o <=? pc) with true by lia. replace (pc <? o2) with true by lia.
        rewrite !andb_true_r, orb_false_r.
        destruct (Z.eqb_spec l line) as [->|]; [by rewrite bool_decide_eq_true_2|].
        rewrite bool_decide_eq_false_2; [done|congruence].
  - assert (Hall' : Forall (λ e : Z * Z, pc < e.1) rest).
    { eapply Forall_impl; [exact Hall|]. intros [o3 l3] ?; simpl in *; lia. }
    rewrite filter_cons_False by done. rewrite table_line_after, ranges_after by done.
    replace (o <=? pc) with false by lia. by rewrite andb_false_r.
Qed.

(** What the steppers rely on of the debug information: the table is sorted and
    [MatchLineWithOffset] finds the line that the table gives. *)
Definition lines_ok (e : DebugInfoExtractor) : Prop :=
  ∀ methodId, table_sorted (GetLineNumberTable e methodId) ∧
    ∀ pc, line_at e methodId pc = table_line (GetLineNumberTable e methodId) pc.

(** The source line of an offset. *)
Definition line_of (v : vm) (m : Z * JSPandaFile) (pc : Z) : option Z :=
  GetJSPtExtractor v m.2 ≫= λ e, line_at e m.1 pc.

(** When a step that began at line [line] of the state [v0] is over, in state [v]
    at offset [pc]: for "into", another function or another line is reached; for
    "over", the stack is lower than at the start, or as high and another line is
    reached; for "out", the stack is lower. *)
Definition step_over_at (t : StepperType) (e : DebugInfoExtractor) (line : Z) (v0 v : vm) (pc : Z) : bool :=
  match t with
  | STEPPER_INTO => negb (bool_decide (GetMethod v = GetMethod v0) &&
                          bool_decide (line_at e (GetMethod v0).1 pc = Some line))
  | STEPPER_OVER => (GetStackDepth v <? GetStackDepth v0) ||
                    ((GetStackDepth v =? GetStackDepth v0) &&
                     negb (bool_decide (line_at e (GetMethod v0).1 pc = Some line)))
  | STEPPER_OUT => GetStackDepth v <? GetStackDepth v0
  end.

(** The ranges of offsets that a stepper keeps decide this. *)
Lemma step_complete_iff (t : StepperType) (v0 v : vm) (s : SingleStepper) (pc line : Z) (e : DebugInfoExtractor) :
  GetJSPtExtractor v0 (GetMethod v0).2 = Some e → lines_ok e →
  line_at e (GetMethod v0).1 (GetBytecodeOffset v0) = Some line →
  pc < UINT32_MAX →
  GetStepper t v0 = Some s →
  StepComplete s pc v = step_over_at t e line v0 v pc.
Proof.
  intros He Hok Hline Hpc Hs. unfold GetStepper in Hs. rewrite He in Hs. injection Hs as <-.
  destruct (Hok (GetMethod v0).1) as [Hsorted Hat].
  assert (Hr : InStepRange (GetStepRanges e (GetMethod v0).1 (GetBytecodeOffset v0)) pc =
    bool_decide (line_at e (GetMethod v0).1 pc = Some line)).
  { unfold GetStepRanges. rewrite Hline, in_step_range_line by done. by rewrite Hat. }
  unfold StepComplete, step_over_at. cbn [st_type_ st_method_ st_stepRanges_ st_stackDepth_].
  destruct t.
  - rewrite decide_False, Hr by done. destruct (GetMethod v0) as [m0 f0], (GetMethod v) as [m f]. cbn [fst snd].
    rewrite <- !negb_andb. f_equal. destruct (bool_decide (line_at e m0 pc = Some line)); [|by rewrite !andb_false_r].
    rewrite !andb_true_r. destruct (Z.eqb_spec m0 m) as [->|]; cbn [andb].
    + apply bool_decide_ext. naive_solver.
    + symmetry. apply bool_decide_eq_false_2. congruence.
  - rewrite decide_False, Hr by done. destruct (Z.ltb_spec (GetStackDepth v0) (GetStackDepth v)).
    + replace (_ <? _) with false by lia. by replace (_ =? _) with false by lia.
    + destruct (Z.eqb_spec (GetStackDepth v0) (GetStackDepth v)) as [E|].
      * replace (_ <? _) with false by lia. replace (_ =? _) with true by lia. cbn [andb orb].
        by destruct (bool_decide _).
      * by replace (GetStackDepth v <? GetStackDepth v0) with true by lia.
  - destruct (Z.leb_spec (GetStackDepth v0) (GetStackDepth v)); [by replace (_ <? _) with false by lia|].
    by replace (_ <? _) with true by lia.
Qed.

End Stepper.
