(* ===== verification/CallFrames.v ===== *)
(** * Call frames and scopes

    How the debugger agent turns the stack of the virtual machine into the call
    frames of a "paused" event (tooling/dynamic/agent/debugger_impl.{h,cpp}):
    the matching of scripts, the frames, their scope chains, and the objects the
    client may ask the runtime agent about afterwards. *)

From S2P Require Import Prelude Regex Http CppLib Utils ThreadState.
From S2P Require Import PtJson HybridFrames PtCodec PtTypes PtProfile PtSchema PtParams PtEvents PtReturns Dispatcher.
From S2P Require Import DebuggerState.
Local Open Scope Z_scope.
Local Open Scope ark_scope.

Section Frames.
Context `{EcmaVm} `{HashOrder}.

(** ** Scripts *)

Definition script_value (type : ScriptMatchType) (script : PtScript) : bytes :=
  match type with
  | SM_URL => ps_url_ script
  | SM_FILE_NAME => ps_fileName_ script
  | SM_HASH => ps_hash_ script
  end.

(** The first script that matches, on which the callback is called. *)
Definition MatchScripts (matchStr : bytes) (type : ScriptMatchType) (d : DebuggerImpl) : option PtScript :=
  snd <$> list_find (λ script, script_value type script = matchStr) (script_order (scripts_ d)).

Definition MatchAllScripts (url : bytes) (d : DebuggerImpl) : list PtScript :=
  filter (λ script, ps_url_ script = url) (script_order (scripts_ d)).

Definition GetExtractor (f : JSPandaFile) : D (option DebugInfoExtractor) := ask (λ v, GetJSPtExtractor v f).

Definition GetExtractors (url : bytes) : D (list (option DebugInfoExtractor)) :=
  patch <-- ask (λ v, GetPatchExtractors v url) ;;
  match patch with
  | _ :: _ => m_ret patch
  | [] =>
      ptScripts <-- get (MatchAllScripts url) ;;
      ask (λ v, omap (λ ptScript,
        FindJSPandaFile v (ps_fileName_ ptScript) ≫= λ f, Some <$> GetJSPtExtractor v f) ptScripts)
  end.

Definition GetRecordName (url : bytes) (d : DebuggerImpl) : gset bytes := default ∅ (recordNames_ d !! url).

(** ** Objects of the runtime agent *)

(** [properties_[curObjectId_++] = value]. The counter is an [int32_t] that starts
    again from 0 whenever the program goes on; here it counts on where the
    increment of the code has no defined result, so that what is said about ids
    holds of the code up to 2^31 - 1 objects in one stop. *)
Definition alloc_object (value : JSValue) : D Z := λ w,
  let r := w_runtime w in
  Ret (curObjectId_ r)
    (set_runtime (mkRuntimeObjects (curObjectId_ r + 1) (<[curObjectId_ r := value]> (properties_ r))) w).

Definition SetObjectId (id : Z) (o : RemoteObject) : RemoteObject :=
  mkRemoteObject (ro_type_ o) (ro_subType_ o) (ro_className_ o) (ro_unserializableValue_ o) (ro_description_ o)
    (Some id) (ro_arrayOrContainer_ o).

Definition CacheObjectIfNeeded (valRef : JSValue) (remoteObj : RemoteObject) : D RemoteObject :=
  isObject <-- ask (λ v, IsObjectValue v valRef) ;;
  if isObject : bool then id <-- alloc_object valRef ;; m_ret (SetObjectId id remoteObj) else m_ret remoteObj.

(** [scopeObjects_[sp][type].push_back(id)] *)
Definition push_scope_object (sp : Z) (type : bytes) (id : Z) : D () :=
  put (λ d,
    let scopes := default ∅ (scopeObjects_ d !! sp) in
    set_scopeObjects_ (<[sp := <[type := default [] (scopes !! type) ++ [id]]> scopes]> (scopeObjects_ d)) d).

(** [scopeObjects_[sp][type].push_back(curObjectId_); properties_[curObjectId_++] = value;] *)
Definition register_scope (sp : Z) (type : bytes) (value : JSValue) : D Z :=
  id <-- (λ w, Ret (curObjectId_ (w_runtime w)) w) ;;
  push_scope_object sp type id ;;;
  alloc_object value.

(** The object of a scope: type, class name and description are texts. *)
Definition scope_object (id : Z) (className description : string) : RemoteObject :=
  mkRemoteObject (str "object") None (Some (str className)) None (Some (str description)) (Some id) None.

(** ** Local variables *)

Definition IsWithinVariableScope (offsets : Z * Z) (bcOffset : Z) : bool :=
  (offsets.1 <=? bcOffset) && (bcOffset <? offsets.2).

Definition IsVariableSkipped (varName : bytes) : bool :=
  one_of (str <$> ["4newTarget"; "0this"; "0newTarget"; "0funcObj"]%string) varName.

(** The loop over the table; [thisVal] is the value of "this" found so far. *)
Fixpoint local_variables (frameHandler : FrameHandler) (table : list (bytes * Z * (Z * Z))) (localObj thisVal : JSValue)
    : D JSValue :=
  match table with
  | [] => m_ret thisVal
  | (varName, regIndex, offsets) :: rest =>
      if negb (IsWithinVariableScope offsets (frame_BytecodeOffset frameHandler)) then
        local_variables frameHandler rest localObj thisVal
      else if IsVariableSkipped varName then local_variables frameHandler rest localObj thisVal
      else
        value <-- ask (λ v, frame_VReg v frameHandler regIndex) ;;
        if bool_decide (varName = str "this") then local_variables frameHandler rest localObj value
        else if bool_decide (varName = str "4funcObj") then
          isFunction <-- ask (λ v, IsFunctionValue v value) ;;
          (if isFunction : bool then
             name <-- ask (λ v, FunctionName v value) ;; tell (DefineProperty localObj name value)
           else m_ret ()) ;;;
          local_variables frameHandler rest localObj thisVal
        else tell (DefineProperty localObj varName value) ;;; local_variables frameHandler rest localObj thisVal
  end.

Definition GetLocalVariables (frameHandler : FrameHandler) (extractor : DebugInfoExtractor) (methodId : Z)
    (thisVal localObj : JSValue) : D JSValue :=
  local_variables frameHandler (GetLocalVariableTable extractor methodId) localObj thisVal.

(** ** Scopes *)

(** A scope whose object is a null pointer: the result of the early return. *)
Definition null_scope : Scope := mkScope [] RemoteObject_init None None None.

(** Also returns the object for "this" and whether it has a value. The line
    table of a method is not empty. *)
Definition GetLocalScopeChain (frameHandler : FrameHandler) (thisObj : RemoteObject)
    : D (Scope * RemoteObject * bool) :=
  let '(methodId, jsPandaFile) := frame_Method frameHandler in
  extractor <-- GetExtractor jsPandaFile ;;
  match extractor with
  | None => m_ret (null_scope, thisObj, false)
  | Some e =>
      localObj <-- call NewObject ;;
      tell (AddInternalProperties localObj) ;;;
      id <-- register_scope (frame_Sp frameHandler) (str "local") localObj ;;
      thisVal <-- GetLocalVariables frameHandler e methodId HoleValue localObj ;;
      thisObj <-- ask (λ v, FromTagged v thisVal) ;;
      thisObj <-- CacheObjectIfNeeded thisVal thisObj ;;
      found <-- ask (λ v, HasValue v thisVal) ;;
      let lines := GetLineNumberTable e methodId in
      script <-- get (MatchScripts (GetSourceFile e methodId) SM_URL) ;;
      m_ret (match script with
             | Some s =>
                 mkScope (str "local") (scope_object id "Object" "Object") None
                   (Some (mkLocation (ps_scriptId_ s) (default 0 (snd <$> head lines)) (Some 0)))
                   (Some (mkLocation (ps_scriptId_ s) (default 0 (snd <$> last lines) + 1) (Some 0)))
             | None => null_scope
             end, thisObj, found)
  end.

(** The variables of one lexical environment: [nameCount] counts the names, a
    name that occurs again gets its slot appended. Returns the object for "this",
    whether it has been found, and whether there was any other variable. *)
Fixpoint closure_variables (env : LexicalEnv) (scopeInfo : list (bytes * Z)) (nameCount : gmap bytes Z)
    (obj : JSValue) (thisObj : RemoteObject) (thisFound closureVarFound : bool) : D (RemoteObject * bool * bool) :=
  match scopeInfo with
  | [] => m_ret (thisObj, thisFound, closureVarFound)
  | (name, slot) :: rest =>
      if IsVariableSkipped name then closure_variables env rest nameCount obj thisObj thisFound closureVarFound
      else
        let value := env_Property env slot in
        let count := default 0 (nameCount !! name) + 1 in
        let nameCount := <[name := count]> nameCount in
        let varName := if 1 <? count then name ++ str "$" ++ to_string slot else name in
        if negb thisFound && bool_decide (name = str "this") then
          o <-- ask (λ v, FromTagged v value) ;;
          o <-- CacheObjectIfNeeded value o ;;
          closure_variables env rest nameCount obj o true closureVarFound
        else
          tell (DefineProperty obj varName (if IsHole value then UndefinedValue else value)) ;;;
          closure_variables env rest nameCount obj thisObj thisFound true
  end.

Fixpoint closure_scopes (frameHandler : FrameHandler) (sourceFile : bytes) (envs : list LexicalEnv)
    (thisObj : RemoteObject) (thisFound : bool) : D (list Scope * RemoteObject) :=
  match envs with
  | [] => m_ret ([], thisObj)
  | env :: rest =>
      match env_ScopeInfo env with
      | None => closure_scopes frameHandler sourceFile rest thisObj thisFound
      | Some scopeInfo =>
          closureScopeObj <-- call NewObject ;;
          r <-- closure_variables env scopeInfo ∅ closureScopeObj thisObj thisFound false ;;
          let '(thisObj, thisFound, closureVarFound) := r in
          script <-- get (MatchScripts sourceFile SM_URL) ;;
          if closureVarFound && bool_decide (is_Some script) then
            tell (AddInternalProperties closureScopeObj) ;;;
            id <-- register_scope (frame_Sp frameHandler) (str "closure") closureScopeObj ;;
            more <-- closure_scopes frameHandler sourceFile rest thisObj thisFound ;;
            m_ret (mkScope (str "closure") (scope_object id "Object" "Object") None None None :: more.1, more.2)
          else closure_scopes frameHandler sourceFile rest thisObj thisFound
      end
  end.

Definition GetClosureScopeChains (frameHandler : FrameHandler) (thisObj : RemoteObject) (thisFound : bool)
    : D (list Scope * RemoteObject) :=
  let '(methodId, jsPandaFile) := frame_Method frameHandler in
  extractor <-- GetExtractor jsPandaFile ;;
  match extractor with
  | None => m_ret ([], thisObj)
  | Some e =>
      envs <-- ask (λ v, frame_Env v frameHandler) ;;
      closure_scopes frameHandler (GetSourceFile e methodId) envs thisObj thisFound
  end.

Definition GetModuleScopeChain (frameHandler : FrameHandler) : D Scope :=
  moduleObj <-- call NewObject ;;
  tell (AddInternalProperties moduleObj) ;;;
  id <-- register_scope (frame_Sp frameHandler) (str "module") moduleObj ;;
  tell (AddModuleVariables moduleObj) ;;;
  m_ret (mkScope (str "module") (scope_object id "Object" "Object") None None None).

Definition GetGlobalScopeChain (frameHandler : FrameHandler) : D Scope :=
  _ <-- call NewObject ;;
  globalObj <-- ask (λ v, frame_GlobalObject v frameHandler) ;;
  tell (AddInternalProperties globalObj) ;;;
  id <-- register_scope (frame_Sp frameHandler) (str "global") globalObj ;;
  m_ret (mkScope (str "global") (scope_object id "global" "global") None None None).

Definition undefined_this : RemoteObject := mkRemoteObject (str "undefined") None None None None None None.

Definition GenerateScopeChains (getScope : bool) (frameHandler : FrameHandler) (jsPandaFile : JSPandaFile)
    : D (list Scope * RemoteObject) :=
  if negb getScope then m_ret ([], undefined_this)
  else
    l <-- GetLocalScopeChain frameHandler undefined_this ;;
    let '(localScope, thisObj, thisFound) := l in
    c <-- GetClosureScopeChains frameHandler thisObj thisFound ;;
    let '(closureScopeChains, thisObj) := c in
    sourceText <-- ask CurrentModuleIsSourceText ;;
    moduleScope <-- (if negb (JSPandaFileIsBundlePack jsPandaFile) && JSPandaFileIsNewVersion jsPandaFile && sourceText
                     then s <-- GetModuleScopeChain frameHandler ;; m_ret [s] else m_ret []) ;;
    globalScope <-- GetGlobalScopeChain frameHandler ;;
    m_ret (localScope :: closureScopeChains ++ moduleScope ++ [globalScope], thisObj).

(** ** Frames *)

Definition GenerateCallFrame (frameHandler : FrameHandler) (callFrameId : Z) (getScope : bool) : D (option CallFrame) :=
  if negb (frame_HasFrame frameHandler) then m_ret None
  else
    let '(methodId, jsPandaFile) := frame_Method frameHandler in
    extractor <-- GetExtractor jsPandaFile ;;
    match extractor with
    | None => m_ret None
    | Some e =>
        let url := GetSourceFile e methodId in
        script <-- get (MatchScripts url SM_URL) ;;
        match script, line_at e methodId (frame_BytecodeOffset frameHandler),
              column_at e methodId (frame_BytecodeOffset frameHandler) with
        | Some s, Some line, Some column =>
            r <-- GenerateScopeChains getScope frameHandler jsPandaFile ;;
            m_ret (Some (mkCallFrame callFrameId (frame_FunctionName frameHandler) None
                           (mkLocation (ps_scriptId_ s) line (Some column)) url r.1 (Some r.2) None false))
        | _, _, _ => m_ret None
        end
    end.

Definition SaveCallFrameHandler (frameHandler : FrameHandler) : D () :=
  put (λ d, set_callFrameHandlers_ (callFrameHandlers_ d ++ [frameHandler]) d).

(** [StackWalker] with the walker of [GenerateCallFrames]: the walk fails when
    the first frame that is not native cannot be generated. *)
Fixpoint walk_frames (frames : list FrameHandler) (callFrames : list CallFrame) (getScope : bool)
    : D (bool * list CallFrame) :=
  match frames with
  | [] => m_ret (true, callFrames)
  | frameHandler :: rest =>
      if frame_IsNativeMethod frameHandler then walk_frames rest callFrames getScope
      else
        callFrame <-- GenerateCallFrame frameHandler (Z.of_nat (length callFrames)) getScope ;;
        match callFrame with
        | None =>
            if bool_decide (callFrames = []) then m_ret (false, callFrames)
            else walk_frames rest callFrames getScope
        | Some c => SaveCallFrameHandler frameHandler ;;; walk_frames rest (callFrames ++ [c]) getScope
        end
  end.

Definition GenerateCallFrames (getScope : bool) : D (bool * list CallFrame) :=
  frames <-- ask StackFrames ;;
  walk_frames frames [] getScope.

(** ** Frames of both languages *)

(** [std::to_string(double)]: six decimals, rounded to the nearest, ties to even. *)
Definition micros (m e : Z) : Z :=
  if 0 <=? e then m * 2 ^ e * 1000000
  else
    let q := m * 1000000 / 2 ^ (- e) in
    let r := m * 1000000 mod 2 ^ (- e) in
    let half := 2 ^ (- e - 1) in
    if (half <? r) || ((r =? half) && Z.odd q) then q + 1 else q.

Definition to_string_double (d : double) : bytes :=
  match d with
  | DFin m e =>
      let n := micros (Z.abs m) e in
      (if m <? 0 then str "-" else []) ++ digits 320 (n / 1000000) [] ++ str "." ++
      drop 1 (digits 7 (n mod 1000000 + 1000000) [])
  | DInf neg => (if neg then str "-" else []) ++ str "inf"
  | DNaN => str "nan"
  end.

Definition ConvertFromUnifiedRemoteObject (unifiedObj : UnifiedRemoteObject) : RemoteObject :=
  let '(type, subType, text) :=
    match uo_type unifiedObj with
    | U_NULL_VALUE => (str "object", Some (str "null"), None)
    | U_BOOLEAN => (str "boolean", None, (λ b : bool, str (if b then "true" else "false")) <$> uo_booleanValue unifiedObj)
    | U_NUMBER => (str "number", None, to_string_double <$> uo_numberValue unifiedObj)
    | U_STRING => (str "string", None, uo_stringValue unifiedObj)
    | U_OBJECT => (str "object", None, None)
    | U_FUNCTION => (str "function", None, None)
    | U_ARRAY => (str "object", Some (str "array"), None)
    | U_UNDEFINED => (str "undefined", None, None)
    end in
  mkRemoteObject type subType (Some (uo_className unifiedObj)) None
    (match uo_description unifiedObj with Some d => Some d | None => text end) (uo_objectId unifiedObj) None.

(** Every scope that is not global becomes "local". *)
Definition ConvertFromUnifiedScope (unifiedScope : UnifiedScope) : Scope :=
  mkScope (match us_type unifiedScope with US_GLOBAL => str "global" | _ => str "local" end)
    (ConvertFromUnifiedRemoteObject (us_object unifiedScope)) None None None.

Definition ProcessStaticFrame (frame : FrameHandler) (callFrames : list CallFrame) : D (list CallFrame) :=
  r <-- ask (λ v, ExtractStaticFrameInfo v frame) ;;
  let '(ok, frameInfo) := r in
  if negb ok || negb (uf_hasInfo frameInfo) then m_ret callFrames
  else m_ret (callFrames ++ [
    mkCallFrame (Z.of_nat (length callFrames)) (uf_methodName frameInfo) None
      (mkLocation 0 (uf_lineNumber frameInfo) (Some (uf_columnNumber frameInfo))) (uf_sourceFile frameInfo)
      (ConvertFromUnifiedScope <$> uf_scopeChain frameInfo)
      (ConvertFromUnifiedRemoteObject <$> uf_thisObject frameInfo) None true]).

Definition ProcessDynamicFrame (frame : FrameHandler) (callFrames : list CallFrame) : D (list CallFrame) :=
  if frame_IsNativeMethod frame then m_ret callFrames
  else
    callFrame <-- GenerateCallFrame frame (Z.of_nat (length callFrames)) true ;;
    match callFrame with
    | Some c => SaveCallFrameHandler frame ;;; m_ret (callFrames ++ [c])
    | None => m_ret callFrames
    end.

Fixpoint union_frames (frames : list (FrameHandler * bool)) (callFrames : list CallFrame) : D (list CallFrame) :=
  match frames with
  | [] => m_ret callFrames
  | (frame, isStaticFrame) :: rest =>
      callFrames <-- (if isStaticFrame : bool then ProcessStaticFrame frame callFrames
                      else ProcessDynamicFrame frame callFrames) ;;
      union_frames rest callFrames
  end.

(** Whether [ForEachFrameInUnionStack] succeeded is only logged. *)
Definition GenerateHybridFrames : D (bool * list CallFrame) :=
  isHybrid <-- get isHybrid_ ;;
  if negb isHybrid then m_ret (false, [])
  else
    frames <-- ask UnionStack ;;
    callFrames <-- union_frames frames [] ;;
    m_ret (negb (bool_decide (callFrames = [])), callFrames).

(** ** Asynchronous stacks *)

Definition GenerateAsyncFrame (frameHandler : FrameHandler) : D (option StackFrame) :=
  if negb (frame_HasFrame frameHandler) then m_ret None
  else
    let '(methodId, jsPandaFile) := frame_Method frameHandler in
    extractor <-- GetExtractor jsPandaFile ;;
    match extractor with
    | None => m_ret None
    | Some e =>
        let url := GetSourceFile e methodId in
        script <-- get (MatchScripts url SM_URL) ;;
        m_ret (match script, line_at e methodId (frame_BytecodeOffset frameHandler),
                     column_at e methodId (frame_BytecodeOffset frameHandler) with
               | Some s, Some lineNumber, Some columnNumber =>
                   Some (mkStackFrame (frame_FunctionName frameHandler) url (ps_scriptId_ s) lineNumber columnNumber)
               | _, _, _ => None
               end)
    end.

(** The frames that fit into [stackSize]; the walk fails when the first one
    cannot be generated. *)
Fixpoint walk_async (frames : list FrameHandler) (stackSize : nat) (topFrame : bool) (asyncFrames : list StackFrame)
    : D (bool * list StackFrame) :=
  match frames with
  | [] => m_ret (true, asyncFrames)
  | frameHandler :: rest =>
      if frame_IsNativeMethod frameHandler || (stackSize =? 0)%nat then walk_async rest stackSize topFrame asyncFrames
      else
        stackFrame <-- GenerateAsyncFrame frameHandler ;;
        match stackFrame with
        | None => if topFrame then m_ret (false, asyncFrames) else walk_async rest stackSize topFrame asyncFrames
        | Some f => walk_async rest (stackSize - 1) false (asyncFrames ++ [f])
        end
  end.

(** [MAX_CALL_STACK_SIZE_TO_CAPTURE] is a constant of the virtual machine. The
    frames are stored in the given stack. *)
Definition GenerateAsyncFrames (MAX_CALL_STACK_SIZE_TO_CAPTURE : nat) (asyncStack : AsyncStack) (skipTopFrame : bool)
    : D (bool * AsyncStack) :=
  frames <-- ask StackFrames ;;
  r <-- walk_async frames MAX_CALL_STACK_SIZE_TO_CAPTURE true [] ;;
  let asyncFrames := if skipTopFrame then drop 1 r.2 else r.2 in
  let 'mkAsyncStack _ description parent := asyncStack in
  m_ret (r.1, mkAsyncStack asyncFrames description parent).

(** ** Assignments from the client *)

(** The first object of the scope that has the variable gets the new value;
    [scopeObjects_[sp][scope]] creates an empty list for a scope without one. *)
Fixpoint update_first (ids : list Z) (varName : bytes) (newVal : JSValue) : D () :=
  match ids with
  | [] => m_ret ()
  | objectId :: rest =>
      localObj <-- (λ w, Ret (default UndefinedValue (properties_ (w_runtime w) !! objectId)) w) ;;
      has <-- ask (λ v, HasProperty v localObj varName) ;;
      if has : bool then tell (DefineProperty localObj varName newVal) else update_first rest varName newVal
  end.

Definition UpdateScopeObject (frameHandler : FrameHandler) (varName : bytes) (newVal : JSValue) (scope : bytes) : D () :=
  scopes <-- get (λ d, scopeObjects_ d !! frame_Sp frameHandler) ;;
  match scopes with
  | None => m_ret ()
  | Some m =>
      let ids := default [] (m !! scope) in
      put (λ d, set_scopeObjects_ (<[frame_Sp frameHandler := <[scope := ids]> m]> (scopeObjects_ d)) d) ;;;
      update_first ids varName newVal
  end.

End Frames.
