(* ===== verification/DebuggerAgent.v ===== *)
(** * The debugger agent: requests

    The requests of [DebuggerImpl] (tooling/dynamic/agent/debugger_impl.{h,cpp}):
    one definition per request of the protocol, with every branch of the code. A
    request is a state transformer on [world] and returns the response.
    [std::optional::value] of an empty optional throws. *)

From S2P Require Import Prelude Base64 Regex Http CppLib Utils ThreadState.
From S2P Require Import PtJson PtCodec PtTypes PtProfile PtSchema PtParams PtEvents PtReturns Dispatcher.
From S2P Require Import DebuggerState SingleStepper CallFrames.
Local Open Scope Z_scope.
Local Open Scope ark_scope.

Section Agent.
Context `{EcmaVm} `{HashOrder}.

Definition Ok {A} (a : A) : D (DispatchResponse * A) := m_ret (DispatchResponse_Ok, a).
Definition ok : D DispatchResponse := m_ret DispatchResponse_Ok.
Definition fail (msg : string) : D DispatchResponse := m_ret (DispatchResponse_Fail (str msg)).

(** [optional::value()] *)
Definition value {A} (o : option A) : D A := match o with Some a => m_ret a | None => λ w, Throw w end.

Definition not_paused : string := "Can only perform operation while paused".

(** ** Enabling and disabling *)

Inductive DebuggerFeature := LAUNCH_ACCELERATE | ENABLE_SIMPLIFIED_MODE | FEATURE_UNKNOWN.

Definition GetDebuggerFeatureEnum (option : bytes) : DebuggerFeature :=
  if bool_decide (option = str "enableLaunchAccelerate") then LAUNCH_ACCELERATE
  else if bool_decide (option = str "enableSimplifiedMode") then ENABLE_SIMPLIFIED_MODE
  else FEATURE_UNKNOWN.

Definition EnableFeature (feature : DebuggerFeature) : D () :=
  match feature with
  | LAUNCH_ACCELERATE => put (set_breakOnStartEnable_ false) ;;; tell api_DisableFirstTimeFlag
  | ENABLE_SIMPLIFIED_MODE => tell api_EnableSimplifiedMode
  | FEATURE_UNKNOWN => m_ret ()
  end.

Fixpoint for_each {A} (f : A → D ()) (l : list A) : D () :=
  match l with [] => m_ret () | x :: rest => f x ;;; for_each f rest end.

Definition EnableDebuggerFeatures (params : EnableParams) : D () :=
  match en_enableOptionList_ params with
  | None => m_ret ()
  | Some enableOptionsList => for_each (λ option, EnableFeature (GetDebuggerFeatureEnum option)) enableOptionsList
  end.

(** Returns the response and the id of the debugger. *)
Definition Debugger_Enable (params : EnableParams) : D (DispatchResponse * Z) :=
  tell DebuggerExecutor_Initialize ;;;
  tell (SetDebugMode true) ;;;
  EnableDebuggerFeatures params ;;;
  scripts <-- get (λ d, script_order (scripts_ d)) ;;
  for_each Frontend_ScriptParsed scripts ;;;
  put (set_debuggerState_ ENABLED) ;;;
  Ok 0.

Definition Debugger_Disable : D DispatchResponse :=
  tell api_RemoveAllBreakpoints ;;;
  Frontend_RunIfWaitingForDebugger ;;;
  Frontend_Resumed ;;;
  tell (SetDebugMode false) ;;;
  put (set_debuggerState_ DISABLED) ;;;
  ok.

Definition debuggerExtendedProtocols_ : list bytes :=
  str <$> ["removeBreakpointsByUrl"; "setMixedDebugEnabled"; "replyNativeCalling";
           "getPossibleAndSetBreakpointByUrl"; "dropFrame"; "setNativeRange"; "resetSingleStepper";
           "callFunctionOn"; "smartStepInto"; "saveAllPossibleBreakpoints"; "setSymbolicBreakpoints";
           "removeSymbolicBreakpoints"]%string.

(** ** Running, pausing, stepping *)

Definition Debugger_ContinueToLocation (params : ContinueToLocationParams) : D DispatchResponse :=
  put (set_location_ (ctl_location_ params)) ;;;
  ok.

Definition Debugger_Pause : D DispatchResponse :=
  state <-- get debuggerState_ ;;
  if decide (state = PAUSED) then fail "Can only perform operation while running"
  else put (set_pauseOnNextByteCode_ true) ;;; ok.

Definition Debugger_Resume : D DispatchResponse :=
  state <-- get debuggerState_ ;;
  if decide (state ≠ PAUSED) then fail not_paused
  else
    Frontend_Resumed ;;;
    put (set_debuggerState_ ENABLED) ;;;
    isHybrid <-- get isHybrid_ ;;
    when isHybrid (hybrid_set DYNAMIC_TO_STATIC false) ;;;
    ok.

(** The common form of the three step requests. *)
Definition step_request (stepper : vm → option SingleStepper) (failed : string) (mark : bool) : D DispatchResponse :=
  state <-- get debuggerState_ ;;
  if decide (state ≠ PAUSED) then fail not_paused
  else
    s <-- ask stepper ;;
    put (set_singleStepper_ s) ;;;
    match s with
    | None => fail failed
    | Some _ =>
        Frontend_Resumed ;;;
        put (set_debuggerState_ ENABLED) ;;;
        isHybrid <-- get isHybrid_ ;;
        when (mark && isHybrid) (hybrid_set DYNAMIC_TO_STATIC true) ;;;
        ok
    end.

Definition Debugger_StepInto : D DispatchResponse := step_request GetStepIntoStepper "Failed to StepInto" true.
Definition Debugger_StepOut : D DispatchResponse := step_request GetStepOutStepper "Failed to StepOut" true.
Definition Debugger_StepOver : D DispatchResponse := step_request GetStepOverStepper "Failed to StepOver" false.

Definition Debugger_DropFrame (params : DropFrameParams) : D DispatchResponse :=
  state <-- get debuggerState_ ;;
  if decide (state ≠ PAUSED) then fail not_paused
  else
    simplified <-- ask IsSimplifiedMode ;;
    if simplified : bool then fail "DropFrame is not supported in simplified mode"
    else
      let droppedDepth := default 1 (df_droppedDepth_ params) in
      if droppedDepth =? 0 then ok
      else if 1 <? droppedDepth then fail "Not yet support dropping multiple frames"
      else
        stackDepth <-- ask GetStackDepth ;;
        if stackDepth <? droppedDepth then fail "The input depth exceeds stackDepth"
        else if droppedDepth =? stackDepth then fail "The bottom frame cannot be dropped"
        else
          stackDepthOverBuiltin <-- ask GetStackDepthOverBuiltin ;;
          if stackDepthOverBuiltin <=? droppedDepth then fail "Frames to be dropped contain builtin frame"
          else
            sendable <-- ask CheckIsSendableMethod ;;
            if sendable : bool then fail "Not yet support sendable method"
            else
              promise <-- ask CheckPromiseQueueSize ;;
              if negb promise then fail "Detect promise enqueued in current frame"
              else
                for_each (λ _, tell DropLastFrame) (seq 0 (Z.to_nat droppedDepth)) ;;;
                put (set_pauseOnNextByteCode_ true) ;;;
                Frontend_RunIfWaitingForDebugger ;;;
                put (set_debuggerState_ ENABLED) ;;;
                ok.

Definition Debugger_ReplyNativeCalling (params : ReplyNativeCallingParams) : D DispatchResponse :=
  Frontend_Resumed ;;;
  when (rnc_userCode_ params) (put (set_singleStepper_ None)) ;;;
  ok.

(** ** Switches *)

Definition Debugger_SetBreakpointsActive (params : SetBreakpointsActiveParams) : D DispatchResponse :=
  put (set_breakpointsState_ (default false (sba_breakpointsState_ params))) ;;; ok.
Definition Debugger_SetPauseOnExceptions (params : SetPauseOnExceptionsParams) : D DispatchResponse :=
  put (set_pauseOnException_ (spe_state_ params)) ;;; ok.
Definition Debugger_SetSkipAllPauses (params : SetSkipAllPausesParams) : D DispatchResponse :=
  put (set_skipAllPausess_ (default false (ssp_skipAllPausesState_ params))) ;;; ok.
Definition Debugger_SetNativeRange (params : SetNativeRangeParams) : D DispatchResponse :=
  put (set_nativeRanges_ (snr_nativeRange_ params)) ;;; ok.
Definition Debugger_ResetSingleStepper (params : ResetSingleStepperParams) : D DispatchResponse :=
  when (rss_resetSingleStepper_ params) (put (set_singleStepper_ None)) ;;; ok.
Definition Debugger_SetAsyncCallStackDepth (params : SetAsyncCallStackDepthParams) : D DispatchResponse :=
  put (set_maxAsyncCallChainDepth_ (sad_maxDepth_ params)) ;;;
  when (negb (sad_maxDepth_ params =? 0)) (tell (SetAsyncStackTrace true)) ;;;
  ok.
Definition Debugger_SetMixedDebugEnabled (params : SetMixedDebugParams) : D DispatchResponse :=
  tell (vm_SetMixedDebugEnabled (smd_enabled_ params)) ;;;
  tell (vm_SetMixedStackEnabled (smd_mixedStackEnabled_ params)) ;;;
  put (set_mixStackEnabled_ (smd_mixedStackEnabled_ params)) ;;;
  ok.
Definition Debugger_SetBlackboxPatterns : D DispatchResponse := fail "SetBlackboxPatterns not support now".

(** ** Scripts *)

Definition IsLaunchAccelerateMode (d : DebuggerImpl) : bool := negb (breakOnStartEnable_ d).

Definition Debugger_GetScriptSource (params : GetScriptSourceParams) : D (DispatchResponse * bytes) :=
  script <-- get (λ d, scripts_ d !! gss_scriptId_ params) ;;
  match script with
  | None => m_ret (DispatchResponse_Fail (str "unknown script id: " ++ to_string (gss_scriptId_ params)), [])
  | Some s => Ok (ps_scriptSource_ s)
  end.

(** The first extractor that has code at the place. *)
Fixpoint first_match (extractors : list (option DebugInfoExtractor)) (line column : Z) (url : bytes) : D bool :=
  match extractors with
  | [] => m_ret false
  | None :: rest => first_match rest line column url
  | Some e :: rest =>
      names <-- get (GetRecordName url) ;;
      found <-- call (MatchWithLocation e (λ _ v, (true, v)) line column url names) ;;
      if found : bool then m_ret true else first_match rest line column url
  end.

Definition Debugger_GetPossibleBreakpoints (params : GetPossibleBreakpointsParams)
    : D (DispatchResponse * list BreakLocation) :=
  let start := gpb_start_ params in
  script <-- get (λ d, scripts_ d !! loc_scriptId_ start) ;;
  match script with
  | None => m_ret (DispatchResponse_Fail (str "Unknown file name."), [])
  | Some s =>
      let url := ps_url_ s in
      let column := default 0 (loc_columnNumber_ start) in
      extractors <-- GetExtractors url ;;
      found <-- first_match extractors (loc_lineNumber_ start) column url ;;
      Ok (if found : bool then [mkBreakLocation (loc_scriptId_ start) (loc_lineNumber_ start) (Some column) None] else [])
  end.

(** ** Breakpoints *)

(** [panda_file::File::MAGIC] is "PANDA" and three zero bytes. *)
Definition MAGIC : bytes := str "PANDA" ++ [0; 0; 0].
Definition MAGIC_SIZE : nat := 8.

(** The decoded bytes, and whether they are an abc file. *)
Definition DecodeAndCheckBase64 (src : bytes) : bytes * bool :=
  let '(dest, done) := PtBase64.Decode [] src in
  (dest, done && (MAGIC_SIZE <? length dest)%nat && bool_decide (take MAGIC_SIZE dest = MAGIC)).

Definition CheckAndGenerateCondFunc (condition : bytes) : D (option JSValue) :=
  let '(dest, valid) := DecodeAndCheckBase64 condition in
  if valid : bool then call (GenerateFuncFromBuffer dest) else m_ret None.

(** The function of a condition that is not empty; [None] when it cannot be
    generated, [Some None] when there is no condition. *)
Definition condition_function (condition : option bytes) : D (option (option JSValue)) :=
  match condition with
  | Some ((_ :: _) as c) => f <-- CheckAndGenerateCondFunc c ;; m_ret (match f with Some _ => Some f | None => None end)
  | _ => m_ret (Some None)
  end.

Definition AddBreakpointDetail (url : bytes) (lineNumber : Z) : D (bytes * list Location) :=
  ptScripts <-- get (MatchAllScripts url) ;;
  m_ret (BreakpointDetails_ToString (mkBreakpointDetails lineNumber 0 url),
         (λ ptScript, mkLocation (ps_scriptId_ ptScript) lineNumber (Some 0)) <$> ptScripts).

(** The callback of [SetBreakpointByUrl] on a location. *)
Definition set_at (condition : option bytes) (isSmartBreakpoint : bool) (location : JSPtLocation) (v : vm) : bool * vm :=
  match condition with
  | Some ((_ :: _) as c) =>
      let '(dest, valid) := DecodeAndCheckBase64 c in
      if valid : bool then
        let '(f, v) := GenerateFuncFromBuffer dest v in
        match f with
        | Some _ => api_SetBreakpoint location f isSmartBreakpoint v
        | None => (false, v)
        end
      else (false, v)
  | _ => api_SetBreakpoint location None isSmartBreakpoint v
  end.

(** The loop over the extractors: every one must have the place. *)
Fixpoint match_all (extractors : list (option DebugInfoExtractor)) (cb : JSPtLocation → vm → bool * vm)
    (line column : Z) (url : bytes) : D bool :=
  match extractors with
  | [] => m_ret true
  | None :: rest => match_all rest cb line column url
  | Some e :: rest =>
      names <-- get (GetRecordName url) ;;
      found <-- call (MatchWithLocation e cb line column url names) ;;
      if found : bool then match_all rest cb line column url else m_ret false
  end.

(** Returns the response, the id and the locations. *)
Definition Debugger_SetBreakpointByUrl (params : SetBreakpointByUrlParams) (isSmartBreakpoint : bool)
    : D (DispatchResponse * (bytes * list Location)) :=
  debugMode <-- ask IsDebugMode ;;
  if negb debugMode then
    m_ret (DispatchResponse_Fail (str "SetBreakpointByUrl: debugger agent is not enabled"), ([], []))
  else
    url <-- value (sbu_url_ params) ;;
    let lineNumber := sbu_lineNumber_ params in
    script <-- get (MatchScripts url SM_URL) ;;
    match script with
    | None => m_ret (DispatchResponse_Fail (str "Unknown file name."), ([], []))
    | Some _ =>
        extractors <-- GetExtractors url ;;
        all <-- match_all extractors (set_at (sbu_condition_ params) isSmartBreakpoint) lineNumber (-1) url ;;
        if negb all then m_ret (DispatchResponse_Fail (str "Breakpoint not found."), ([], []))
        else r <-- AddBreakpointDetail url lineNumber ;; Ok r
    end.

Definition Debugger_SmartStepInto (params : SmartStepIntoParams) : D DispatchResponse :=
  state <-- get debuggerState_ ;;
  if decide (state ≠ PAUSED) then fail not_paused
  else r <-- Debugger_SetBreakpointByUrl (ssi_sbpParams_ params) true ;; m_ret r.1.

(** A failed match is only logged. *)
Fixpoint remove_all (extractors : list (option DebugInfoExtractor)) (line column : Z) (url : bytes) : D () :=
  match extractors with
  | [] => m_ret ()
  | None :: rest => remove_all rest line column url
  | Some e :: rest =>
      names <-- get (GetRecordName url) ;;
      _ <-- call (MatchWithLocation e api_RemoveBreakpoint line column url names) ;;
      remove_all rest line column url
  end.

Definition Debugger_RemoveBreakpoint (params : RemoveBreakpointParams) : D DispatchResponse :=
  let '(parsed, metaData) := ParseBreakpointId (rbp_breakpointId_ params) (mkBreakpointDetails 0 0 []) in
  if negb parsed then fail "Parse breakpoint id failed"
  else
    script <-- get (MatchScripts (bd_url_ metaData) SM_URL) ;;
    match script with
    | None => fail "Unknown file name."
    | Some _ =>
        extractors <-- GetExtractors (bd_url_ metaData) ;;
        remove_all extractors (bd_line_ metaData) (bd_column_ metaData) (bd_url_ metaData) ;;;
        ok
    end.

Definition Debugger_RemoveBreakpointsByUrl (params : RemoveBreakpointsByUrlParams) : D DispatchResponse :=
  url <-- value (rbu_url_ params) ;;
  script <-- get (MatchScripts url SM_URL) ;;
  accelerate <-- get IsLaunchAccelerateMode ;;
  pending <-- get breakpointPendingMap_ ;;
  let erase := put (set_breakpointPendingMap_ (delete url pending)) in
  match script with
  | None => if accelerate && bool_decide (is_Some (pending !! url)) then erase ;;; ok else fail "Unknown url"
  | Some _ =>
      removed <-- call (api_RemoveBreakpointsByUrl url) ;;
      if negb removed then fail "RemoveBreakpointByUrl failed"
      else when accelerate erase ;;; ok
  end.

(** The loop over the extractors of [ProcessSingleBreakpoint]: the condition is
    compiled again for each. *)
Fixpoint process_extractors (extractors : list (option DebugInfoExtractor)) (condition : option bytes)
    (line column : Z) (url : bytes) : D bool :=
  match extractors with
  | [] => m_ret true
  | None :: rest => process_extractors rest condition line column url
  | Some e :: rest =>
      f <-- condition_function condition ;;
      match f with
      | None => m_ret false
      | Some funcRef =>
          names <-- get (GetRecordName url) ;;
          found <-- call (MatchWithLocation e (λ location, api_SetBreakpoint location funcRef false) line column url names) ;;
          if found : bool then process_extractors rest condition line column url else m_ret false
      end
  end.

(** [None] when the breakpoint could not be set. *)
Definition ProcessSingleBreakpoint (breakpoint : BreakpointInfo) : D (option BreakpointReturnInfo) :=
  let url := bi_url_ breakpoint in
  let lineNumber := bi_lineNumber_ breakpoint in
  script <-- get (MatchScripts url SM_URL) ;;
  match script with
  | None => m_ret None
  | Some s =>
      extractors <-- GetExtractors url ;;
      all <-- process_extractors extractors (bi_condition_ breakpoint) lineNumber (-1) url ;;
      m_ret (if all : bool then
        Some (mkBreakpointReturnInfo lineNumber 0
                (BreakpointDetails_ToString (mkBreakpointDetails lineNumber 0 url)) (ps_scriptId_ s))
      else None)
  end.

(** A breakpoint that could not be set is answered with the id "invalid". *)
Definition return_info (breakpoint : BreakpointInfo) (r : option BreakpointReturnInfo) : BreakpointReturnInfo :=
  default (mkBreakpointReturnInfo (bi_lineNumber_ breakpoint) (bi_columnNumber_ breakpoint) (str "invalid") 0) r.

(** The set compares the pointers of its elements, and the pointer is new: the
    breakpoint is always added. *)
Definition InsertIntoPendingBreakpoints (breakpoint : BreakpointInfo) : D () :=
  let bpShared := BreakpointInfo_CreateAsSharedPtr (bi_lineNumber_ breakpoint) (bi_columnNumber_ breakpoint)
                    (bi_url_ breakpoint) (default [] (bi_condition_ breakpoint)) in
  put (λ d, set_breakpointPendingMap_
    (<[bi_url_ breakpoint := default [] (breakpointPendingMap_ d !! bi_url_ breakpoint) ++ [bpShared]]>
       (breakpointPendingMap_ d)) d).

Fixpoint set_breakpoints (breakpoints : list BreakpointInfo) : D (list BreakpointReturnInfo) :=
  match breakpoints with
  | [] => m_ret []
  | breakpoint :: rest =>
      r <-- ProcessSingleBreakpoint breakpoint ;;
      accelerate <-- get IsLaunchAccelerateMode ;;
      when accelerate (InsertIntoPendingBreakpoints breakpoint) ;;;
      more <-- set_breakpoints rest ;;
      m_ret (return_info breakpoint r :: more)
  end.

Definition Debugger_GetPossibleAndSetBreakpointByUrl (params : GetPossibleAndSetBreakpointParams)
    : D (DispatchResponse * list BreakpointReturnInfo) :=
  debugMode <-- ask IsDebugMode ;;
  if negb debugMode then
    m_ret (DispatchResponse_Fail (str "GetPossibleAndSetBreakpointByUrl: debugger agent is not enabled"), [])
  else
    match gps_breakpointsList_ params with
    | None => m_ret (DispatchResponse_Fail
                (str "GetPossibleAndSetBreakpointByUrl: no pennding breakpoint exists"), [])
    | Some breakpointList => r <-- set_breakpoints breakpointList ;; Ok r
    end.

(** The breakpoints of a file are added to those that are pending. *)
Definition SavePendingBreakpoints (params : SaveAllPossibleBreakpointsParams) : D () :=
  for_each (λ entry, put (λ d, set_breakpointPendingMap_
    (<[entry.1 := default [] (breakpointPendingMap_ d !! entry.1) ++ entry.2]> (breakpointPendingMap_ d)) d))
    (pending_entries (sap_breakpointsMap_ params)).

Definition Debugger_SaveAllPossibleBreakpoints (params : SaveAllPossibleBreakpointsParams) : D DispatchResponse :=
  debugMode <-- ask IsDebugMode ;;
  if negb debugMode then fail "SaveAllPossibleBreakpoints: debugger agent is not enabled"
  else
    accelerate <-- get IsLaunchAccelerateMode ;;
    if negb accelerate then fail "SaveAllPossibleBreakpoints: protocol is not enabled"
    else SavePendingBreakpoints params ;;; ok.

Definition Debugger_SetSymbolicBreakpoints (params : SetSymbolicBreakpointsParams) : D DispatchResponse :=
  debugMode <-- ask IsDebugMode ;;
  if negb debugMode then fail "SetSymbolicBreakpoints: debugger agent is not enabled"
  else
    match ssb_functionNamesSet_ params with
    | None => fail "SetSymbolicBreakpoints: no symbolicBreakpoints exists"
    | Some names => tell (api_SetSymbolicBreakpoint names) ;;; ok
    end.

Definition Debugger_RemoveSymbolicBreakpoints (params : RemoveSymbolicBreakpointsParams) : D DispatchResponse :=
  debugMode <-- ask IsDebugMode ;;
  if negb debugMode then fail "RemoveSymbolicBreakpoints: debugger agent is not enabled"
  else
    match rsb_functionNamesSet_ params with
    | None => fail "RemoveSymbolicBreakpoints: no symbolBreakpoints removed"
    | Some names => for_each (λ name, tell (api_RemoveSymbolicBreakpoint name)) (name_order names) ;;; ok
    end.

End Agent.
