(* ===== verification/DebuggerHooks.v ===== *)
(** * The debugger agent: evaluation and events of the virtual machine

    The rest of [DebuggerImpl] (tooling/dynamic/agent/debugger_impl.{h,cpp}): the
    evaluation of expressions on a call frame, the notifications of the virtual
    machine, and [JSPtHooks] (backend/js_pt_hooks.{h,cpp}), through which they
    arrive.

    When the program stops, the channel serves requests until it is told to run
    on. What it serves is the argument [serve] of the operations that wait, an
    arbitrary transformer of the state; the operations continue behind it. *)

From S2P Require Import Prelude Base64 Regex Http CppLib Utils ThreadState.
From S2P Require Import PtJson PtCodec PtTypes PtProfile PtSchema PtParams PtEvents PtReturns Dispatcher.
From S2P Require Import DebuggerState SingleStepper CallFrames DebuggerAgent.
Local Open Scope Z_scope.
Local Open Scope ark_scope.

(** The build: whether files must belong to an application (a device, as opposed
    to a desktop system), and whether it is the unit test. *)
Class DebuggerBuild := { device_build : bool; unit_test : bool }.

Definition DATA_APP_PATH `{DebuggerBuild} : bytes := str (if unit_test then "/" else "/data/").

(** [DebugInfoExtractor::SPECIAL_LINE_MARK] *)
Definition SPECIAL_LINE_MARK : Z := -1.

(** [find_last_not_of(' ')] and [find_first_not_of(' ')]. *)
Definition is_space (c : Z) : bool := c =? 32.
Fixpoint drop_spaces (s : bytes) : bytes :=
  match s with
  | [] => []
  | c :: rest => if is_space c then drop_spaces rest else s
  end.
Definition Trim (s : bytes) : bytes := drop_spaces (reverse (drop_spaces (reverse s))).

(** A [uint32_t] stored as an [int32_t]. *)
Definition uint32_to_int32 (z : Z) : Z := if z <? 2 ^ 31 then z else z - 2 ^ 32.

Section Hooks.
Context `{EcmaVm} `{HashOrder} `{DebuggerBuild}.

(** ** Evaluation *)

(** [None] is an empty handle. *)
Definition ConvertToLocal (varValue : bytes) : option JSValue :=
  match varValue with
  | [] => Some (NewNumber 0)
  | c :: _ =>
      if bool_decide (varValue = str "false") then Some (BoolValue false)
      else if bool_decide (varValue = str "true") then Some (BoolValue true)
      else if bool_decide (varValue = str "undefined") then Some UndefinedValue
      else if (c =? 34) && bool_decide (last varValue = Some 34) then
        Some (NewString (c_str (take (length varValue - 2) (drop 1 varValue))))
      else ParsedNumber varValue
  end.

(** [RemoteObject::FromTagged] of a new evaluation error. *)
Definition eval_error (msg : bytes) : D RemoteObject :=
  e <-- call (λ v, EvalError v (c_str msg)) ;;
  ask (λ v, FromTagged v e).

(** The error text, if any, and the object, if it was set. *)
Definition CmptEvaluateValue (callFrameId : Z) (expression : bytes) : D (option bytes * option RemoteObject) :=
  let failed msg := o <-- eval_error (str msg) ;; m_ret (Some (str msg), Some o) in
  native <-- ask IsNativeMethod ;;
  if native : bool then failed "Native Frame not support."%string
  else
    f <-- ask (λ v, (GetMethod v).2) ;;
    extractor <-- GetExtractor f ;;
    match extractor with
    | None => failed "Internal error."%string
    | Some _ =>
        let '(varName, varValue) :=
          match list_find (λ c, c = 61) expression with
          | Some (indexEqual, _) => (Trim (take indexEqual expression), Trim (drop (indexEqual + 1) expression))
          | None => (expression, [])
          end in
        handlers <-- get callFrameHandlers_ ;;
        frameHandler <-- value (handlers !! Z.to_nat callFrameId) ;;
        if bool_decide (varValue = []) then
          ret <-- call (Executor_GetValue frameHandler (c_str varName)) ;;
          match ret with
          | Some v =>
              o <-- ask (λ m, FromTagged m v) ;;
              o <-- CacheObjectIfNeeded v o ;;
              m_ret (None, Some o)
          | None => failed "Unsupported expression."%string
          end
        else
          match ConvertToLocal varValue with
          | None => m_ret (Some (str "Unsupported expression."), None)
          | Some v =>
              tell (SetEvalFrameHandler (Some frameHandler)) ;;;
              ret <-- call (Executor_SetValue frameHandler (c_str varName) v) ;;
              tell (SetEvalFrameHandler None) ;;;
              if ret : bool then o <-- ask (λ m, FromTagged m v) ;; m_ret (None, Some o)
              else failed "Unsupported expression."%string
          end
    end.

Definition valid_frame (callFrameId : Z) (d : DebuggerImpl) : bool :=
  (0 <=? callFrameId) && (callFrameId <? Z.of_nat (length (callFrameHandlers_ d))).

(** The result of a call: the exception it left, or the value. *)
Definition call_result (res : JSValue) : D (DispatchResponse * option RemoteObject) :=
  pending <-- ask HasPendingException ;;
  if pending : bool then
    msg <-- call HandleUncaughtException ;;
    o <-- eval_error msg ;;
    m_ret (DispatchResponse_Fail msg, Some o)
  else
    o <-- ask (λ v, FromTagged v res) ;;
    o <-- CacheObjectIfNeeded res o ;;
    Ok (Some o).

Definition Debugger_EvaluateOnCallFrame (params : EvaluateOnCallFrameParams)
    : D (DispatchResponse * option RemoteObject) :=
  let callFrameId := ev_callFrameId_ params in
  valid <-- get (valid_frame callFrameId) ;;
  if negb valid then m_ret (DispatchResponse_Fail (str "Invalid callFrameId."), None)
  else
    let '(dest, decoded) := DecodeAndCheckBase64 (ev_expression_ params) in
    if negb decoded then
      r <-- CmptEvaluateValue callFrameId (ev_expression_ params) ;;
      m_ret (DispatchResponse_Create_error r.1, r.2)
    else
      currentContext <-- ask GetCurrentGlobalEnv ;;
      originContext <-- ask GetCurrentContext ;;
      tell (SwitchContext currentContext) ;;;
      funcRef <-- call (GenerateFuncFromBuffer dest) ;;
      handlers <-- get callFrameHandlers_ ;;
      frameHandler <-- value (handlers !! Z.to_nat callFrameId) ;;
      res <-- call (EvaluateViaFuncCall funcRef frameHandler) ;;
      tell (SwitchContext originContext) ;;;
      call_result res.

Definition Debugger_CallFunctionOn (params : CallFunctionOnParams) : D (DispatchResponse * option RemoteObject) :=
  let callFrameId := cfo_callFrameId_ params in
  valid <-- get (valid_frame callFrameId) ;;
  if negb valid then m_ret (DispatchResponse_Fail (str "Invalid callFrameId."), None)
  else
    let '(dest, decoded) := DecodeAndCheckBase64 (cfo_functionDeclaration_ params) in
    if negb decoded then
      m_ret (DispatchResponse_Fail
        (str "base64 decode failed, functionDeclaration: " ++ cfo_functionDeclaration_ params), None)
    else
      funcRef <-- call (GenerateFuncFromBuffer dest) ;;
      handlers <-- get callFrameHandlers_ ;;
      frameHandler <-- value (handlers !! Z.to_nat callFrameId) ;;
      res <-- call (CallFunctionOnCall funcRef frameHandler) ;;
      call_result res.

(** ** Parsed scripts *)

Definition IsApplicationFile (fileName : bytes) : bool :=
  negb (bool_decide (fileName = []) || negb (bool_decide (take (length DATA_APP_PATH) fileName = DATA_APP_PATH))).

Definition CheckScriptParsed (fileName : bytes) : D bool :=
  if device_build && negb (IsApplicationFile fileName) then m_ret false
  else ask IsDebugApp.

Definition MatchUrlAndFileName (url fileName : bytes) (d : DebuggerImpl) : bool :=
  match urlFileNameMap_ d !! url with
  | Some files => bool_decide (fileName ∈ files)
  | None => false
  end.

(** If the depth is 0 it is safe to forget the step. *)
Definition ClearSingleStepper : D () :=
  depth <-- ask GetStackDepth ;;
  when (depth =? 0) (put (set_singleStepper_ None)).

Definition NeedToSetBreakpointsWhenParsingScript (url : bytes) (d : DebuggerImpl) : bool :=
  match breakpointPendingMap_ d !! url with
  | Some pending => negb (bool_decide (pending = []))
  | None => false
  end.

Fixpoint set_pending (breakpoints : list BreakpointInfo) : D (list BreakpointReturnInfo) :=
  match breakpoints with
  | [] => m_ret []
  | breakpoint :: rest =>
      r <-- ProcessSingleBreakpoint breakpoint ;;
      more <-- set_pending rest ;;
      m_ret (return_info breakpoint r :: more)
  end.

Definition SetBreakpointsWhenParsingScript (url : bytes) : D (list BreakpointReturnInfo) :=
  put (λ d, set_breakpointPendingMap_
    (<[url := default [] (breakpointPendingMap_ d !! url)]> (breakpointPendingMap_ d)) d) ;;;
  pending <-- get (λ d, default [] (breakpointPendingMap_ d !! url)) ;;
  set_pending (pending_order pending).

(** [g_scriptId++] *)
Definition next_script_id : D Z := λ w,
  Ret (uint32_to_int32 (w_scriptId w)) (set_scriptId (wrap 32 (w_scriptId w + 1)) w).

Definition insert_name (url name : bytes) (m : gmap bytes (gset bytes)) : gmap bytes (gset bytes) :=
  <[url := {[name]} ∪ default ∅ (m !! url)]> m.

Definition SaveParsedScriptsAndUrl (fileName url recordName source : bytes) : D () :=
  put (λ d, set_recordNames_ (insert_name url recordName (recordNames_ d)) d) ;;;
  put (λ d, set_recordNameSet_ ({[recordName]} ∪ recordNameSet_ d) d) ;;;
  put (λ d, set_urlFileNameMap_ (insert_name url fileName (urlFileNameMap_ d)) d) ;;;
  id <-- next_script_id ;;
  let script := new_PtScript id fileName url source in
  put (λ d, set_scripts_ (<[id := script]> (scripts_ d)) d) ;;;
  need <-- get (λ d, IsLaunchAccelerateMode d && NeedToSetBreakpointsWhenParsingScript url d) ;;
  if need : bool then
    locations <-- SetBreakpointsWhenParsingScript url ;;
    let script := PtScript_SetLocations locations script in
    put (λ d, set_scripts_ (<[id := script]> (scripts_ d)) d) ;;;
    Frontend_ScriptParsed script
  else Frontend_ScriptParsed script.

Definition NotifyScriptParsed (fileName entryPoint : bytes) : D bool :=
  check <-- CheckScriptParsed fileName ;;
  if negb check then m_ret false
  else
    file <-- ask (λ v, FindJSPandaFile v (c_str fileName)) ;;
    match file with
    | None => m_ret false
    | Some jsPandaFile =>
        extractor <-- GetExtractor jsPandaFile ;;
        match extractor with
        | None => m_ret false
        | Some e =>
            faApp <-- ask GetFaApp ;;
            if negb faApp && JSPandaFileIsBundlePack jsPandaFile then m_ret false
            else
              let recordName := c_str entryPoint in
              let mainMethodIndex := GetJSPandaFileMainMethodIndex jsPandaFile recordName in
              let source := GetSourceCode e mainMethodIndex in
              let url := GetSourceFile e mainMethodIndex in
              ClearSingleStepper ;;;
              parsed <-- get (MatchUrlAndFileName url fileName) ;;
              if parsed : bool then m_ret false
              else SaveParsedScriptsAndUrl fileName url recordName source ;;; m_ret true
        end
    end.

(** A method is its id, its file, which may be a null pointer, and the name of
    its record. *)
Definition NotifyScriptParsedBySendable (methodId : Z) (file : option JSPandaFile) (recordName : bytes) : D bool :=
  match file with
  | None => m_ret false
  | Some jsPandaFile =>
      extractor <-- GetExtractor jsPandaFile ;;
      match extractor with
      | None => m_ret false
      | Some e =>
          let url := GetSourceFile e methodId in
          let fileName := GetJSPandaFileDesc jsPandaFile in
          check <-- CheckScriptParsed fileName ;;
          if negb check then m_ret false
          else
            ClearSingleStepper ;;;
            parsed <-- get (MatchUrlAndFileName url fileName) ;;
            if parsed : bool then m_ret false
            else SaveParsedScriptsAndUrl fileName url recordName (GetSourceCode e methodId) ;;; m_ret true
      end
  end.

(** ** Pausing *)

Definition NotifyNativeOut : D bool :=
  pause <-- get nativeOutPause_ ;;
  if pause : bool then put (set_nativeOutPause_ false) ;;; m_ret true else m_ret false.

Definition IsSkipLine (location : JSPtLocation) : D bool :=
  fileName <-- ask (λ v, GetJSPandaFileDesc (GetBaseJSPandaFile v (loc_JsPandaFile location))) ;;
  script <-- get (MatchScripts (c_str fileName) SM_FILE_NAME) ;;
  match script with
  | None => m_ret true
  | Some _ =>
      extractor <-- GetExtractor (loc_JsPandaFile location) ;;
      m_ret (match extractor with
             | None => true
             | Some e => bool_decide
                 (line_at e (loc_MethodId location) (loc_BytecodeOffset location) = Some SPECIAL_LINE_MARK)
             end)
  end.

Definition NotifySingleStep (location : JSPtLocation) : D bool :=
  next <-- get pauseOnNextByteCode_ ;;
  if next : bool then
    skip <-- IsSkipLine location ;;
    if skip : bool then m_ret false else put (set_pauseOnNextByteCode_ false) ;;; m_ret true
  else
    stepper <-- get singleStepper_ ;;
    match stepper with
    | None => m_ret false
    | Some s =>
        complete <-- ask (StepComplete s (loc_BytecodeOffset location)) ;;
        if negb complete then m_ret false
        else
          skip <-- IsSkipLine location ;;
          if skip : bool then m_ret false
          else
            put (set_singleStepper_ None) ;;;
            status <-- ask GetSingleStepStatus ;;
            when (negb status) (tell (SetSingleStepStatus true)) ;;;
            m_ret true
    end.

Definition CheckPauseOnException : D bool :=
  state <-- get pauseOnException_ ;;
  match state with
  | POE_NONE => m_ret false
  | POE_UNCAUGHT => caught <-- ask IsExceptionCaught ;; m_ret (negb caught)
  | POE_ALL => m_ret true
  end.

(** Every handle is freed; [properties_[id]] of an id that is not there adds one. *)
Definition CleanUpRuntimeProperties : D () :=
  m_modify (λ w, if bool_decide (properties_ (w_runtime w) = ∅) then w
                 else set_runtime (mkRuntimeObjects 0 ∅) w).

Definition CleanUpOnPaused : D () :=
  CleanUpRuntimeProperties ;;;
  put (set_callFrameHandlers_ []) ;;;
  put (set_scopeObjects_ ∅).

Definition GeneratePausedInfo (serve : D ()) (reason : PauseReason) (hitBreakpoints : list bytes) (exception : JSValue)
    : D () :=
  isHybrid <-- get isHybrid_ ;;
  isEmptyUnionStack <-- (if isHybrid : bool then ask UnionStackIsEmpty else m_ret true) ;;
  r <-- (if isEmptyUnionStack : bool then GenerateCallFrames true else GenerateHybridFrames) ;;
  let '(generated, callFrames) := r in
  if negb generated then m_ret ()
  else
    let '(name, hit) :=
      if decide (reason = DEBUGGERSTMT)
      then (OTHER, hitBreakpoints ++ [BreakpointDetails_ToString (mkBreakpointDetails 0 0 [])])
      else (reason, hitBreakpoints) in
    data <-- ask (λ v, if bool_decide (reason = EXCEPTION) && IsError v exception
                       then Some (FromTagged v exception) else None) ;;
    async <-- ask IsAsyncStackTrace ;;
    parent <-- ask GetCurrentAsyncParent ;;
    depth <-- get maxAsyncCallChainDepth_ ;;
    Frontend_Paused (mkPaused callFrames (if async : bool then parent else None) (GetReasonString name) data (Some hit)
                       (if async : bool then depth else 0)) ;;;
    when (negb (bool_decide (reason = BREAK_ON_START) || bool_decide (reason = NATIVE_OUT)))
      (put (set_singleStepper_ None)) ;;;
    put (set_nativeOutPause_ false) ;;;
    put (set_debuggerState_ PAUSED) ;;;
    Frontend_WaitForDebugger serve ;;;
    tell (SetException exception).

(** The id of the breakpoint at a location; [None] when the place is unknown. *)
Definition hit_breakpoint (location : JSPtLocation) : D (option bytes) :=
  script <-- get (MatchScripts (loc_SourceFile location) SM_URL) ;;
  match script with
  | None => m_ret None
  | Some s =>
      extractor <-- GetExtractor (loc_JsPandaFile location) ;;
      m_ret (e ← extractor;
             line ← line_at e (loc_MethodId location) (loc_BytecodeOffset location);
             column ← column_at e (loc_MethodId location) (loc_BytecodeOffset location);
             Some (BreakpointDetails_ToString (mkBreakpointDetails line column (ps_url_ s))))
  end.

Definition NotifyPaused (serve : D ()) (location : option JSPtLocation) (reason : PauseReason) : D () :=
  skipAll <-- get skipAllPausess_ ;;
  active <-- get breakpointsState_ ;;
  if skipAll : bool then m_ret ()
  else if bool_decide (is_Some location) && negb active then m_ret ()
  else
    onException <-- (if decide (reason = EXCEPTION) then CheckPauseOnException else m_ret true) ;;
    if negb onException then m_ret ()
    else
      exception <-- call GetAndClearException ;;
      match location with
      | None => CleanUpOnPaused ;;; GeneratePausedInfo serve reason [] exception
      | Some l =>
          hit <-- hit_breakpoint l ;;
          match hit with
          | None => m_ret ()
          | Some id => CleanUpOnPaused ;;; GeneratePausedInfo serve reason [id] exception
          end
      end.

(** ** Native code *)

Definition IsUserCode (nativeEntry : Z) (d : DebuggerImpl) : bool :=
  existsb (λ r, (nr_start_ r <=? nativeEntry) && (nativeEntry <=? nr_end_ r)) (nativeRanges_ d).

(** The event "mixedStack" with the current native pointers. *)
Definition send_mixed_stack : D () :=
  pointers <-- get nativePointer_ ;;
  r <-- GenerateCallFrames false ;;
  Frontend_MixedStack (mkMixedStack pointers (if r.1 : bool then r.2 else [])).

Definition NotifyNativeCalling (serve : D ()) (nativeAddress : Z) : D () :=
  stepper <-- get singleStepper_ ;;
  when (bool_decide (st_type_ <$> stepper = Some STEPPER_INTO))
    (Frontend_NativeCalling (mkNativeCalling nativeAddress (Some true)) ;;; Frontend_WaitForDebugger serve) ;;;
  report <-- get (λ d, mixStackEnabled_ d && IsUserCode nativeAddress d) ;;
  when report (
    pointers <-- ask GetNativePointer ;;
    put (set_nativePointer_ pointers) ;;;
    send_mixed_stack).

Definition NotifyNativeReturn (nativeAddress : Z) : D () :=
  pause <-- get (λ d, mixStackEnabled_ d && IsUserCode nativeAddress d) ;;
  when pause (put (set_nativeOutPause_ true)).

Definition NotifyReturnNative : D () :=
  enabled <-- get mixStackEnabled_ ;;
  when enabled (
    pointers <-- ask GetNativePointer ;;
    put (set_nativePointer_ pointers) ;;;
    when (negb (bool_decide (pointers = []))) send_mixed_stack).

(** ** The hooks *)

Definition Hook_DebuggerStmt (serve : D ()) : D () := NotifyPaused serve None DEBUGGERSTMT.
Definition Hook_Breakpoint (serve : D ()) (location : JSPtLocation) : D () := NotifyPaused serve (Some location) OTHER.
Definition Hook_Exception (serve : D ()) : D () := NotifyPaused serve None EXCEPTION.

(** At the end of a step the channel may handle a command: [serve] again. *)
Definition Hook_SingleStep (serve : D ()) (location : JSPtLocation) : D bool :=
  first <-- get firstTime_ ;;
  if first : bool then
    put (set_firstTime_ false) ;;; NotifyPaused serve None BREAK_ON_START ;;; m_ret false
  else
    isHybrid <-- get isHybrid_ ;;
    flag <-- (λ w, Ret (GetHybridSingleStepFlag STATIC_TO_DYNAMIC (w_hybrid w)) w) ;;
    if isHybrid && flag then
      hybrid_set STATIC_TO_DYNAMIC false ;;; NotifyPaused serve None OTHER ;;; m_ret true
    else
      stop <-- NotifySingleStep location ;;
      if stop : bool then
        symbol <-- get breakOnSymbol_ ;;
        if symbol : bool then
          NotifyPaused serve None SYMBOL ;;; put (set_breakOnSymbol_ false) ;;; m_ret true
        else NotifyPaused serve None OTHER ;;; m_ret true
      else serve ;;; m_ret false.

Definition Hook_NativeOut (serve : D ()) : D bool :=
  out <-- NotifyNativeOut ;;
  if out : bool then NotifyPaused serve None NATIVE_OUT ;;; m_ret true else m_ret false.

(** A new script arms the stop at the start of the program. *)
Definition arm_first_time (parsed : bool) : D () :=
  accelerate <-- get IsLaunchAccelerateMode ;;
  when (parsed && negb accelerate) (put (set_firstTime_ true)).

Definition Hook_LoadModule (pandaFileName entryPoint : bytes) : D () :=
  parsed <-- NotifyScriptParsed (c_str pandaFileName) entryPoint ;;
  arm_first_time parsed.

Definition Hook_SendableMethodEntry (methodId : Z) (file : option JSPandaFile) (recordName : bytes) : D () :=
  parsed <-- NotifyScriptParsedBySendable methodId file recordName ;;
  arm_first_time parsed.

Definition Hook_NativeCalling : D () → Z → D () := NotifyNativeCalling.
Definition Hook_NativeReturn : Z → D () := NotifyNativeReturn.
Definition Hook_DisableFirstTimeFlag : D () := put (set_firstTime_ false).
Definition Hook_HitSymbolicBreakpoint : D () :=
  put (set_breakOnSymbol_ true) ;;; put (set_pauseOnNextByteCode_ true).

Definition Hook_GenerateAsyncFrames : nat → AsyncStack → bool → D (bool * AsyncStack) := GenerateAsyncFrames.
Definition Hook_GetAllRecordNames : D (gset bytes) := get recordNameSet_.

End Hooks.
