(* ===== verification/DebuggerDispatch.v ===== *)
(** * The debugger agent: the dispatcher of its domain

    [DebuggerImpl::DispatcherImpl] (tooling/dynamic/agent/debugger_impl.{h,cpp}):
    a request names a method and carries parameters; the handler of the method
    reads the parameters, runs the operation of the agent and makes the result,
    and the response goes to the channel or, for cross-language debugging, back
    as a text. *)

From S2P Require Import Prelude Base64 Regex Http CppLib Utils ThreadState.
From S2P Require Import PtJson PtCodec PtTypes PtProfile PtSchema PtParams PtEvents PtReturns Dispatcher.
From S2P Require Import DebuggerState SingleStepper CallFrames DebuggerAgent DebuggerHooks.
Local Open Scope Z_scope.
Local Open Scope ark_scope.

Inductive DebuggerMethod :=
| CONTINUE_TO_LOCATION | ENABLE | DISABLE | EVALUATE_ON_CALL_FRAME | GET_POSSIBLE_BREAKPOINTS
| GET_SCRIPT_SOURCE | PAUSE | REMOVE_BREAKPOINT | REMOVE_BREAKPOINTS_BY_URL | RESUME
| SET_ASYNC_CALL_STACK_DEPTH | SET_BREAKPOINT_BY_URL | SET_BREAKPOINTS_ACTIVE | SET_PAUSE_ON_EXCEPTIONS
| SET_SKIP_ALL_PAUSES | STEP_INTO | SMART_STEP_INTO | STEP_OUT | STEP_OVER | SET_MIXED_DEBUG_ENABLED
| SET_BLACKBOX_PATTERNS | REPLY_NATIVE_CALLING | GET_POSSIBLE_AND_SET_BREAKPOINT_BY_URL | DROP_FRAME
| SET_NATIVE_RANGE | RESET_SINGLE_STEPPER | CLIENT_DISCONNECT | CALL_FUNCTION_ON
| SAVE_ALL_POSSIBLE_BREAKPOINTS | SET_SYMBOLIC_BREAKPOINTS | REMOVE_SYMBOLIC_BREAKPOINTS | METHOD_UNKNOWN.
#[export] Instance DebuggerMethod_eq_dec : EqDecision DebuggerMethod.
Proof. solve_decision. Defined.

(** The names in the order of the comparisons. *)
Definition debugger_methods : list (string * DebuggerMethod) :=
  [("continueToLocation", CONTINUE_TO_LOCATION);
   ("enable", ENABLE);
   ("disable", DISABLE);
   ("evaluateOnCallFrame", EVALUATE_ON_CALL_FRAME);
   ("getPossibleBreakpoints", GET_POSSIBLE_BREAKPOINTS);
   ("getScriptSource", GET_SCRIPT_SOURCE);
   ("pause", PAUSE);
   ("removeBreakpoint", REMOVE_BREAKPOINT);
   ("removeBreakpointsByUrl", REMOVE_BREAKPOINTS_BY_URL);
   ("resume", RESUME);
   ("setAsyncCallStackDepth", SET_ASYNC_CALL_STACK_DEPTH);
   ("setBreakpointByUrl", SET_BREAKPOINT_BY_URL);
   ("setBreakpointsActive", SET_BREAKPOINTS_ACTIVE);
   ("setPauseOnExceptions", SET_PAUSE_ON_EXCEPTIONS);
   ("setSkipAllPauses", SET_SKIP_ALL_PAUSES);
   ("stepInto", STEP_INTO);
   ("smartStepInto", SMART_STEP_INTO);
   ("stepOut", STEP_OUT);
   ("stepOver", STEP_OVER);
   ("setMixedDebugEnabled", SET_MIXED_DEBUG_ENABLED);
   ("setBlackboxPatterns", SET_BLACKBOX_PATTERNS);
   ("replyNativeCalling", REPLY_NATIVE_CALLING);
   ("getPossibleAndSetBreakpointByUrl", GET_POSSIBLE_AND_SET_BREAKPOINT_BY_URL);
   ("dropFrame", DROP_FRAME);
   ("setNativeRange", SET_NATIVE_RANGE);
   ("resetSingleStepper", RESET_SINGLE_STEPPER);
   ("clientDisconnect", CLIENT_DISCONNECT);
   ("callFunctionOn", CALL_FUNCTION_ON);
   ("saveAllPossibleBreakpoints", SAVE_ALL_POSSIBLE_BREAKPOINTS);
   ("setSymbolicBreakpoints", SET_SYMBOLIC_BREAKPOINTS);
   ("removeSymbolicBreakpoints", REMOVE_SYMBOLIC_BREAKPOINTS)]%string.

Definition GetMethodEnum (method : bytes) : DebuggerMethod :=
  default METHOD_UNKNOWN (snd <$> (snd <$> list_find (λ e, str e.1 = method) debugger_methods)).

Section DebuggerDispatcher.
Context `{cj : CJson} `{CastOob} `{EcmaVm} `{HashOrder}.

(** A response and the result, [None] for a null pointer. *)
Definition answer : Type := DispatchResponse * option PtBaseReturns.

(** A handler without a result. *)
Definition plain (m : D DispatchResponse) : D answer := r <-- m ;; m_ret (r, None).

(** The parameters are read first; a null pointer is answered with an error. *)
Definition with_params {P} (create : created P) (k : P → D answer) : D answer :=
  match create with
  | Created params => k params
  | Rejected _ => m_ret (DispatchResponse_Fail (str "wrong params"), None)
  | Thrown | NoFuel => λ w, Throw w
  end.

Definition Handle_ContinueToLocation (p : PtJson) : D answer :=
  with_params (ContinueToLocationParams_Create p) (λ params, plain (Debugger_ContinueToLocation params)).
Definition Handle_Enable (p : PtJson) : D answer :=
  with_params (EnableParams_Create p) (λ params,
    r <-- Debugger_Enable params ;;
    m_ret (r.1, Some (OfDebuggerEnable (mkDebuggerEnableReturns r.2 debuggerExtendedProtocols_)))).
Definition Handle_Disable : D answer := plain Debugger_Disable.
Definition Handle_EvaluateOnCallFrame (p : PtJson) : D answer :=
  with_params (EvaluateOnCallFrameParams_Create p) (λ params,
    r <-- Debugger_EvaluateOnCallFrame params ;;
    m_ret (r.1, (λ o, OfEvaluateOnCallFrame (mkEvaluateOnCallFrameReturns o None)) <$> r.2)).
Definition Handle_GetPossibleBreakpoints (p : PtJson) : D answer :=
  with_params (GetPossibleBreakpointsParams_Create p) (λ params,
    r <-- Debugger_GetPossibleBreakpoints params ;;
    m_ret (r.1, Some (OfGetPossibleBreakpoints (mkGetPossibleBreakpointsReturns r.2)))).
Definition Handle_GetScriptSource (p : PtJson) : D answer :=
  with_params (GetScriptSourceParams_Create p) (λ params,
    r <-- Debugger_GetScriptSource params ;;
    m_ret (r.1, Some (OfGetScriptSource (mkGetScriptSourceReturns r.2 None)))).
Definition Handle_Pause : D answer := plain Debugger_Pause.
Definition Handle_RemoveBreakpoint (p : PtJson) : D answer :=
  with_params (RemoveBreakpointParams_Create p) (λ params, plain (Debugger_RemoveBreakpoint params)).
Definition Handle_RemoveBreakpointsByUrl (p : PtJson) : D answer :=
  with_params (RemoveBreakpointsByUrlParams_Create p) (λ params, plain (Debugger_RemoveBreakpointsByUrl params)).
Definition Handle_Resume (p : PtJson) : D answer :=
  with_params (ResumeParams_Create p) (λ _, plain Debugger_Resume).
Definition Handle_SetAsyncCallStackDepth (p : PtJson) : D answer :=
  with_params (SetAsyncCallStackDepthParams_Create p) (λ params, plain (Debugger_SetAsyncCallStackDepth params)).
Definition Handle_SetBreakpointByUrl (p : PtJson) : D answer :=
  with_params (SetBreakpointByUrlParams_Create p) (λ params,
    r <-- Debugger_SetBreakpointByUrl params false ;;
    m_ret (r.1, Some (OfSetBreakpointByUrl (mkSetBreakpointByUrlReturns r.2.1 r.2.2)))).
Definition Handle_SetBreakpointsActive (p : PtJson) : D answer :=
  with_params (SetBreakpointsActiveParams_Create p) (λ params, plain (Debugger_SetBreakpointsActive params)).
Definition Handle_GetPossibleAndSetBreakpointByUrl (p : PtJson) : D answer :=
  with_params (GetPossibleAndSetBreakpointParams_Create p) (λ params,
    r <-- Debugger_GetPossibleAndSetBreakpointByUrl params ;;
    m_ret (r.1, Some (OfGetPossibleAndSetBreakpointByUrl (mkGetPossibleAndSetBreakpointByUrlReturns r.2)))).
Definition Handle_SaveAllPossibleBreakpoints (p : PtJson) : D answer :=
  with_params (SaveAllPossibleBreakpointsParams_Create p) (λ params, plain (Debugger_SaveAllPossibleBreakpoints params)).
Definition Handle_SetSymbolicBreakpoints (p : PtJson) : D answer :=
  with_params (SetSymbolicBreakpointsParams_Create p) (λ params, plain (Debugger_SetSymbolicBreakpoints params)).
Definition Handle_RemoveSymbolicBreakpoints (p : PtJson) : D answer :=
  with_params (RemoveSymbolicBreakpointsParams_Create p) (λ params, plain (Debugger_RemoveSymbolicBreakpoints params)).
Definition Handle_SetPauseOnExceptions (p : PtJson) : D answer :=
  with_params (SetPauseOnExceptionsParams_Create p) (λ params, plain (Debugger_SetPauseOnExceptions params)).
Definition Handle_SetSkipAllPauses (p : PtJson) : D answer :=
  with_params (SetSkipAllPausesParams_Create p) (λ params, plain (Debugger_SetSkipAllPauses params)).
Definition Handle_SetNativeRange (p : PtJson) : D answer :=
  with_params (SetNativeRangeParams_Create p) (λ params, plain (Debugger_SetNativeRange params)).
Definition Handle_ResetSingleStepper (p : PtJson) : D answer :=
  with_params (ResetSingleStepperParams_Create p) (λ params, plain (Debugger_ResetSingleStepper params)).
Definition Handle_StepInto (p : PtJson) : D answer :=
  with_params (StepIntoParams_Create p) (λ _, plain Debugger_StepInto).
Definition Handle_SmartStepInto (p : PtJson) : D answer :=
  with_params (SmartStepIntoParams_Create p) (λ params, plain (Debugger_SmartStepInto params)).
Definition Handle_StepOut : D answer := plain Debugger_StepOut.
Definition Handle_StepOver (p : PtJson) : D answer :=
  with_params (StepOverParams_Create p) (λ _, plain Debugger_StepOver).
Definition Handle_SetMixedDebugEnabled (p : PtJson) : D answer :=
  with_params (SetMixedDebugParams_Create p) (λ params, plain (Debugger_SetMixedDebugEnabled params)).
Definition Handle_ReplyNativeCalling (p : PtJson) : D answer :=
  with_params (ReplyNativeCallingParams_Create p) (λ params, plain (Debugger_ReplyNativeCalling params)).
Definition Handle_SetBlackboxPatterns : D answer := plain Debugger_SetBlackboxPatterns.
Definition Handle_DropFrame (p : PtJson) : D answer :=
  with_params (DropFrameParams_Create p) (λ params, plain (Debugger_DropFrame params)).
Definition Handle_CallFunctionOn (p : PtJson) : D answer :=
  with_params (CallFunctionOnParams_Create p) (λ params,
    r <-- Debugger_CallFunctionOn params ;;
    m_ret (r.1, (λ o, OfCallFunctionOn (mkCallFunctionOnReturns o None)) <$> r.2)).

(** Only in a debugged application. *)
Definition ClientDisconnect : D () :=
  debugMode <-- ask IsDebugMode ;;
  debugApp <-- ask IsDebugApp ;;
  when (debugMode && debugApp) (Debugger_Disable ;;; m_ret ()).

Definition handle (method : bytes) (p : PtJson) : D answer :=
  match GetMethodEnum method with
  | CONTINUE_TO_LOCATION => Handle_ContinueToLocation p
  | ENABLE => Handle_Enable p
  | DISABLE => Handle_Disable
  | EVALUATE_ON_CALL_FRAME => Handle_EvaluateOnCallFrame p
  | GET_POSSIBLE_BREAKPOINTS => Handle_GetPossibleBreakpoints p
  | GET_SCRIPT_SOURCE => Handle_GetScriptSource p
  | PAUSE => Handle_Pause
  | REMOVE_BREAKPOINT => Handle_RemoveBreakpoint p
  | REMOVE_BREAKPOINTS_BY_URL => Handle_RemoveBreakpointsByUrl p
  | RESUME => Handle_Resume p
  | SET_ASYNC_CALL_STACK_DEPTH => Handle_SetAsyncCallStackDepth p
  | SET_BREAKPOINT_BY_URL => Handle_SetBreakpointByUrl p
  | SET_BREAKPOINTS_ACTIVE => Handle_SetBreakpointsActive p
  | SET_PAUSE_ON_EXCEPTIONS => Handle_SetPauseOnExceptions p
  | SET_SKIP_ALL_PAUSES => Handle_SetSkipAllPauses p
  | STEP_INTO => Handle_StepInto p
  | SMART_STEP_INTO => Handle_SmartStepInto p
  | STEP_OUT => Handle_StepOut
  | STEP_OVER => Handle_StepOver p
  | SET_MIXED_DEBUG_ENABLED => Handle_SetMixedDebugEnabled p
  | SET_BLACKBOX_PATTERNS => Handle_SetBlackboxPatterns
  | REPLY_NATIVE_CALLING => Handle_ReplyNativeCalling p
  | GET_POSSIBLE_AND_SET_BREAKPOINT_BY_URL => Handle_GetPossibleAndSetBreakpointByUrl p
  | DROP_FRAME => Handle_DropFrame p
  | SET_NATIVE_RANGE => Handle_SetNativeRange p
  | RESET_SINGLE_STEPPER => Handle_ResetSingleStepper p
  | CALL_FUNCTION_ON => Handle_CallFunctionOn p
  | SAVE_ALL_POSSIBLE_BREAKPOINTS => Handle_SaveAllPossibleBreakpoints p
  | SET_SYMBOLIC_BREAKPOINTS => Handle_SetSymbolicBreakpoints p
  | REMOVE_SYMBOLIC_BREAKPOINTS => Handle_RemoveSymbolicBreakpoints p
  | CLIENT_DISCONNECT | METHOD_UNKNOWN => m_ret (DispatchResponse_Fail (str "Unknown method: " ++ method), None)
  end.

(** [DispatcherBase::SendResponse]: without a result, the empty one. *)
Definition send_response (callId : Z) (response : DispatchResponse) (result : option PtBaseReturns) : D () :=
  channel <-- get channel_ ;;
  when channel (emit (SendResult callId response (default BaseReturns result))).

Definition Debugger_Dispatch (request : DispatchRequest) (crossLanguageDebug : bool) : D (option bytes) :=
  if decide (GetMethodEnum (dr_method_ request) = CLIENT_DISCONNECT) then ClientDisconnect ;;; m_ret None
  else
    a <-- handle (dr_method_ request) (dr_params_ request) ;;
    if crossLanguageDebug then
      m_ret (Some (ReturnsValueToString (dr_callId_ request) a.1 (PtBaseReturns_ToJson <$> a.2)))
    else send_response (dr_callId_ request) a.1 a.2 ;;; m_ret None.

(** The stack as a text, for mixed debugging. *)
Definition GetJsFrames : D bytes :=
  nativePointers <-- ask GetNativePointer ;;
  if bool_decide (nativePointers = []) then m_ret []
  else
    r <-- GenerateCallFrames true ;;
    m_ret (Stringify (MixedStack_ToJson (mkMixedStack nativePointers (if r.1 : bool then r.2 else [])))).

(** The requests that the channel serves in one go. *)
Definition serve (requests : list (DispatchRequest * bool)) : D () :=
  for_each (λ r, Debugger_Dispatch r.1 r.2 ;;; m_ret ()) requests.

End DebuggerDispatcher.
