(* ===== verification/DebuggerLogic.v ===== *)
(** * The debugger agent: a logic of frames

    [keeps R m] says that the state before the operation [m] and the state it
    leaves, by a return, a wait or an exception, are related by [R]. The classes
    [ScopeFrame R], [QuietFrame R], [CoreFrame R] and [Frame R] list the elementary changes that
    everything but the parsing of a script is made of; the lemmas of this file derive [keeps R] of every request
    and every hook from them, once for all relations. The invariants of
    DebuggerTables.v are instances. *)

From S2P Require Import Prelude Base64 Regex Http CppLib Utils ThreadState.
From S2P Require Import PtJson PtCodec PtTypes PtProfile PtSchema PtParams PtEvents PtReturns Dispatcher.
From S2P Require Import DebuggerState SingleStepper CallFrames DebuggerAgent DebuggerHooks DebuggerDispatch.
Local Open Scope Z_scope.
Local Open Scope ark_scope.

Create HintDb ark_keep discriminated.

(** ** Relations between the states around an operation *)

Section Keeps.
Context `{EcmaVm}.

Definition final {A} (o : outcome world A) : world :=
  match o with Ret _ w => w | Block w => w | Throw w => w end.

Definition keeps (R : relation world) {A} (m : D A) : Prop := ∀ w, R w (final (m w)).

(** The members that belong to the script table. *)
Definition same_scripts (d d' : DebuggerImpl) : Prop :=
  recordNames_ d = recordNames_ d' ∧ recordNameSet_ d = recordNameSet_ d' ∧
  urlFileNameMap_ d = urlFileNameMap_ d' ∧ scripts_ d = scripts_ d'.

Definition is_result (c : channel_call) : bool := match c with SendResult _ _ _ => true | _ => false end.

(** A change of members that neither stops nor releases the program. *)
Definition quiet_change (d d' : DebuggerImpl) : Prop := same_scripts d' d ∧ debuggerState_ d' = debuggerState_ d.

(** The elementary changes of the description of a frame. *)
Class ScopeFrame (R : relation world) : Prop := {
  frame_po :: PreOrder R;
  scope_dbg w s : R w (set_dbg (set_scopeObjects_ s (w_dbg w)) w);
  frame_vm w v : R w (set_vm v w);
  frame_alloc w v : R w (final (alloc_object v w)) }.

(** Those of the generation of all frames and of the requests that do not control
    the program. *)
Class QuietFrame (R : relation world) : Prop := {
  frame_scope :: ScopeFrame R;
  quiet_dbg w d : quiet_change (w_dbg w) d → R w (set_dbg d w) }.

(** Those of all requests. *)
Class CoreFrame (R : relation world) : Prop := {
  frame_quiet :: QuietFrame R;
  frame_dbg w d : same_scripts d (w_dbg w) → R w (set_dbg d w);
  frame_hybrid w h : R w (set_hybrid h w);
  frame_calls w c : is_result c = false → R w (set_calls (w_calls w ++ [c]) w) }.

(** A stop also forgets the objects of the last one. *)
Class Frame (R : relation world) : Prop := {
  frame_core :: CoreFrame R;
  frame_clean w : R w (final (CleanUpRuntimeProperties w)) }.

Context {R : relation world} `{!ScopeFrame R}.

Lemma keeps_ret {A} (a : A) : keeps R (m_ret a).
Proof. intros w. reflexivity. Qed.

Lemma keeps_bind {A B} (m : D A) (k : A → D B) : keeps R m → (∀ a, keeps R (k a)) → keeps R (m_bind k m).
Proof.
  intros Hm Hk w. specialize (Hm w). unfold m_bind. destruct (m w) as [a w'| |]; simpl in *; [|done..].
  etransitivity; [exact Hm|apply Hk].
Qed.

Lemma keeps_read {A} (f : world → A) : keeps R (λ w, Ret (f w) w).
Proof. intros w. reflexivity. Qed.
Lemma keeps_get {A} (f : DebuggerImpl → A) : keeps R (get f).
Proof. apply (keeps_read (λ w, f (w_dbg w))). Qed.
Lemma keeps_ask {A} (f : vm → A) : keeps R (ask f).
Proof. apply (keeps_read (λ w, f (w_vm w))). Qed.
Lemma keeps_put_scope s : keeps R (put (λ d, set_scopeObjects_ (s d) d)).
Proof. intros w. apply scope_dbg. Qed.
Lemma keeps_put_quiet `{!QuietFrame R} f : (∀ d, quiet_change d (f d)) → keeps R (put f).
Proof. intros Hf w. apply quiet_dbg, Hf. Qed.
Lemma keeps_put `{!CoreFrame R} f : (∀ d, same_scripts (f d) d) → keeps R (put f).
Proof. intros Hf w. apply frame_dbg, Hf. Qed.
Lemma keeps_tell f : keeps R (tell f).
Proof. intros w. apply frame_vm. Qed.
Lemma keeps_call {A} (f : vm → A * vm) : keeps R (call f).
Proof. intros w. unfold call. destruct (f (w_vm w)) as [a v]. apply frame_vm. Qed.
Lemma keeps_emit `{!CoreFrame R} c : is_result c = false → keeps R (emit c).
Proof. intros Hc w. by apply frame_calls. Qed.
Lemma keeps_hybrid `{!CoreFrame R} dir b : keeps R (hybrid_set dir b).
Proof. intros w. apply frame_hybrid. Qed.
Lemma keeps_when b m : keeps R m → keeps R (when b m).
Proof. intros Hm. destruct b; [done|apply keeps_ret]. Qed.
Lemma keeps_throw {A} : keeps R (λ w, @Throw world A w).
Proof. intros w. reflexivity. Qed.
Lemma keeps_value {A} (o : option A) : keeps R (value o).
Proof. intros w. by destruct o. Qed.
Lemma keeps_alloc v : keeps R (alloc_object v).
Proof. intros w. apply frame_alloc. Qed.
Lemma keeps_clean `{!Frame R} : keeps R CleanUpRuntimeProperties.
Proof. intros w. apply frame_clean. Qed.

Lemma keeps_for_each {A} (f : A → D ()) l : (∀ x, keeps R (f x)) → keeps R (for_each f l).
Proof. intros Hf. induction l; simpl; [apply keeps_ret|by apply keeps_bind]. Qed.

End Keeps.

#[export] Hint Resolve keeps_ret keeps_get keeps_ask keeps_tell keeps_call keeps_hybrid keeps_value
  keeps_alloc keeps_clean keeps_throw : ark_keep.
#[export] Hint Extern 5 (ScopeFrame _) => apply _ : ark_keep.
#[export] Hint Extern 5 (QuietFrame _) => apply _ : ark_keep.
#[export] Hint Extern 5 (CoreFrame _) => apply _ : ark_keep.
#[export] Hint Extern 5 (Frame _) => apply _ : ark_keep.

(** Follows the code: sequences, branches, and known operations. *)
Ltac keep :=
  repeat first
    [ solve [auto with ark_keep nocore]
    | apply keeps_bind; [|intros ?]
    | apply keeps_when
    | apply keeps_for_each; intros ?
    | apply keeps_read
    | apply keeps_emit; reflexivity
    | apply keeps_put_quiet; by intros ?
    | apply keeps_put; by intros ?
    | case_match ].
Ltac by_keep := match goal with |- keeps _ ?m => let h := head_of m in unfold h end; keep.

(** ** The frontend *)

Section FrontendOperations.
Context `{EcmaVm} {R : relation world} `{!CoreFrame R}.

Lemma AllowNotify_keeps : keeps R AllowNotify. Proof. by_keep. Qed.
#[local] Hint Resolve AllowNotify_keeps : ark_keep.
Lemma Frontend_send_keeps e : keeps R (Frontend_send e). Proof. by_keep. Qed.
Lemma Frontend_Resumed_keeps : keeps R Frontend_Resumed. Proof. by_keep. Qed.
Lemma Frontend_ScriptParsed_keeps s : keeps R (Frontend_ScriptParsed s). Proof. apply Frontend_send_keeps. Qed.
Lemma Frontend_Run_keeps : keeps R Frontend_RunIfWaitingForDebugger. Proof. by_keep. Qed.
Lemma Frontend_Wait_keeps serve : keeps R serve → keeps R (Frontend_WaitForDebugger serve).
Proof. intros. by_keep. Qed.

End FrontendOperations.

(** ** Frames and scopes *)

Section FrameOperations.
Context `{EcmaVm} `{HashOrder} {R : relation world} `{!ScopeFrame R}.

Lemma GetExtractor_keeps f : keeps R (GetExtractor f). Proof. by_keep. Qed.
Lemma GetExtractors_keeps u : keeps R (GetExtractors u). Proof. by_keep. Qed.
#[local] Hint Resolve GetExtractor_keeps : ark_keep.
Lemma CacheObject_keeps v o : keeps R (CacheObjectIfNeeded v o). Proof. by_keep. Qed.
Lemma push_scope_object_keeps sp t id : keeps R (push_scope_object sp t id).
Proof. apply (keeps_put_scope (λ d, <[sp := _]> (scopeObjects_ d))). Qed.
#[local] Hint Resolve CacheObject_keeps push_scope_object_keeps : ark_keep.
Lemma register_scope_keeps sp t v : keeps R (register_scope sp t v). Proof. by_keep. Qed.
#[local] Hint Resolve register_scope_keeps : ark_keep.

Lemma local_variables_keeps f table o t : keeps R (local_variables f table o t).
Proof. revert t. induction table as [|[[n r] off] rest IH]; intros t; simpl; keep. Qed.
Lemma GetLocalScopeChain_keeps f o : keeps R (GetLocalScopeChain f o).
Proof. unfold GetLocalScopeChain, GetLocalVariables. pose proof local_variables_keeps. keep. Qed.
Lemma closure_variables_keeps env info n obj o b c : keeps R (closure_variables env info n obj o b c).
Proof. revert n o b c. induction info as [|[x s] rest IH]; intros n o b c; simpl; keep. Qed.
Lemma closure_scopes_keeps f src envs o b : keeps R (closure_scopes f src envs o b).
Proof.
  revert o b. pose proof closure_variables_keeps.
  induction envs as [|env rest IH]; intros o b; simpl; keep.
Qed.
Lemma GetClosureScopeChains_keeps f o b : keeps R (GetClosureScopeChains f o b).
Proof. pose proof closure_scopes_keeps. by_keep. Qed.
Lemma GetModuleScopeChain_keeps f : keeps R (GetModuleScopeChain f). Proof. by_keep. Qed.
Lemma GetGlobalScopeChain_keeps f : keeps R (GetGlobalScopeChain f). Proof. by_keep. Qed.
#[local] Hint Resolve GetLocalScopeChain_keeps GetClosureScopeChains_keeps GetModuleScopeChain_keeps
  GetGlobalScopeChain_keeps : ark_keep.
Lemma GenerateScopeChains_keeps b f p : keeps R (GenerateScopeChains b f p). Proof. by_keep. Qed.
#[local] Hint Resolve GenerateScopeChains_keeps : ark_keep.
Lemma GenerateCallFrame_keeps f id b : keeps R (GenerateCallFrame f id b). Proof. by_keep. Qed.
Lemma GenerateAsyncFrame_keeps f : keeps R (GenerateAsyncFrame f). Proof. by_keep. Qed.
#[local] Hint Resolve GenerateAsyncFrame_keeps : ark_keep.
Lemma walk_async_keeps fs n b l : keeps R (walk_async fs n b l).
Proof. revert n b l. induction fs as [|f fs IH]; intros n b l; simpl; keep. Qed.
Lemma GenerateAsyncFrames_keeps n a b : keeps R (GenerateAsyncFrames n a b).
Proof. pose proof walk_async_keeps. by_keep. Qed.
Lemma update_first_keeps ids x v : keeps R (update_first ids x v).
Proof. induction ids as [|id ids IH]; simpl; keep. Qed.
Lemma UpdateScopeObject_keeps f x v s : keeps R (UpdateScopeObject f x v s).
Proof.
  pose proof update_first_keeps. unfold UpdateScopeObject.
  apply keeps_bind; [keep|intros [m|]; [|keep]]. apply keeps_bind; [apply keeps_put_scope|keep].
Qed.

End FrameOperations.

#[export] Hint Resolve GetExtractor_keeps GetExtractors_keeps CacheObject_keeps GenerateCallFrame_keeps
  GenerateAsyncFrames_keeps : ark_keep.

Section StackOperations.
Context `{EcmaVm} `{HashOrder} {R : relation world} `{!QuietFrame R}.

Lemma SaveCallFrameHandler_keeps f : keeps R (SaveCallFrameHandler f). Proof. by_keep. Qed.
#[local] Hint Resolve SaveCallFrameHandler_keeps : ark_keep.
Lemma walk_frames_keeps fs cs b : keeps R (walk_frames fs cs b).
Proof. revert cs. induction fs as [|f fs IH]; intros cs; simpl; keep. Qed.
#[local] Hint Resolve walk_frames_keeps : ark_keep.
Lemma GenerateCallFrames_keeps b : keeps R (GenerateCallFrames b). Proof. by_keep. Qed.
Lemma ProcessStaticFrame_keeps f cs : keeps R (ProcessStaticFrame f cs). Proof. by_keep. Qed.
Lemma ProcessDynamicFrame_keeps f cs : keeps R (ProcessDynamicFrame f cs). Proof. by_keep. Qed.
#[local] Hint Resolve ProcessStaticFrame_keeps ProcessDynamicFrame_keeps : ark_keep.
Lemma union_frames_keeps fs cs : keeps R (union_frames fs cs).
Proof. revert cs. induction fs as [|[f b] fs IH]; intros cs; simpl; keep. Qed.
#[local] Hint Resolve union_frames_keeps : ark_keep.
Lemma GenerateHybridFrames_keeps : keeps R GenerateHybridFrames. Proof. by_keep. Qed.

End StackOperations.

#[export] Hint Resolve AllowNotify_keeps Frontend_send_keeps Frontend_Resumed_keeps Frontend_ScriptParsed_keeps
  Frontend_Run_keeps Frontend_Wait_keeps GenerateCallFrames_keeps GenerateHybridFrames_keeps : ark_keep.

(** ** Requests *)

Section RequestOperations.
Context `{EcmaVm} `{HashOrder} {R : relation world} `{!CoreFrame R}.

Lemma EnableFeature_keeps f : keeps R (EnableFeature f). Proof. by_keep. Qed.
#[local] Hint Resolve EnableFeature_keeps : ark_keep.
Lemma Enable_keeps p : keeps R (Debugger_Enable p).
Proof. unfold Debugger_Enable, EnableDebuggerFeatures, Ok. keep. Qed.
Lemma Disable_keeps : keeps R Debugger_Disable. Proof. unfold Debugger_Disable, ok. keep. Qed.
Lemma Resume_keeps : keeps R Debugger_Resume. Proof. unfold Debugger_Resume, ok, fail. keep. Qed.
Lemma step_request_keeps s f m : keeps R (step_request s f m).
Proof. unfold step_request, ok, fail. keep. Qed.
Lemma DropFrame_keeps p : keeps R (Debugger_DropFrame p).
Proof. unfold Debugger_DropFrame, ok, fail. keep. Qed.
Lemma ReplyNativeCalling_keeps p : keeps R (Debugger_ReplyNativeCalling p).
Proof. unfold Debugger_ReplyNativeCalling, ok. keep. Qed.

End RequestOperations.

Section QuietOperations.
Context `{EcmaVm} `{HashOrder} {R : relation world} `{!QuietFrame R}.

Lemma first_match_keeps es l c u : keeps R (first_match es l c u).
Proof. induction es as [|[e|] es IH]; simpl; keep. Qed.
Lemma GetPossibleBreakpoints_keeps p : keeps R (Debugger_GetPossibleBreakpoints p).
Proof. pose proof first_match_keeps. unfold Debugger_GetPossibleBreakpoints, Ok. keep. Qed.
Lemma GetScriptSource_keeps p : keeps R (Debugger_GetScriptSource p).
Proof. unfold Debugger_GetScriptSource, Ok. keep. Qed.
Lemma match_all_keeps es cb l c u : keeps R (match_all es cb l c u).
Proof. induction es as [|[e|] es IH]; simpl; keep. Qed.
Lemma SetBreakpointByUrl_keeps p b : keeps R (Debugger_SetBreakpointByUrl p b).
Proof. pose proof match_all_keeps. unfold Debugger_SetBreakpointByUrl, AddBreakpointDetail, Ok. keep. Qed.
#[local] Hint Resolve SetBreakpointByUrl_keeps : ark_keep.
Lemma SmartStepInto_keeps p : keeps R (Debugger_SmartStepInto p).
Proof. unfold Debugger_SmartStepInto, fail. keep. Qed.
Lemma remove_all_keeps es l c u : keeps R (remove_all es l c u).
Proof. induction es as [|[e|] es IH]; simpl; keep. Qed.
Lemma RemoveBreakpoint_keeps p : keeps R (Debugger_RemoveBreakpoint p).
Proof. pose proof remove_all_keeps. unfold Debugger_RemoveBreakpoint, ok, fail. keep. Qed.
Lemma RemoveBreakpointsByUrl_keeps p : keeps R (Debugger_RemoveBreakpointsByUrl p).
Proof. unfold Debugger_RemoveBreakpointsByUrl, ok, fail. keep. Qed.
Lemma process_extractors_keeps es c l cl u : keeps R (process_extractors es c l cl u).
Proof. induction es as [|[e|] es IH]; simpl; unfold condition_function, CheckAndGenerateCondFunc; keep. Qed.
#[local] Hint Resolve process_extractors_keeps : ark_keep.
Lemma ProcessSingleBreakpoint_keeps b : keeps R (ProcessSingleBreakpoint b). Proof. by_keep. Qed.
#[local] Hint Resolve ProcessSingleBreakpoint_keeps : ark_keep.
Lemma Insert_keeps b : keeps R (InsertIntoPendingBreakpoints b). Proof. by_keep. Qed.
#[local] Hint Resolve Insert_keeps : ark_keep.
Lemma set_breakpoints_keeps bs : keeps R (set_breakpoints bs).
Proof. induction bs as [|b bs IH]; simpl; keep. Qed.
#[local] Hint Resolve set_breakpoints_keeps : ark_keep.
Lemma GetPossibleAndSet_keeps p : keeps R (Debugger_GetPossibleAndSetBreakpointByUrl p).
Proof. unfold Debugger_GetPossibleAndSetBreakpointByUrl, Ok. keep. Qed.
Lemma SaveAll_keeps p : keeps R (Debugger_SaveAllPossibleBreakpoints p).
Proof. unfold Debugger_SaveAllPossibleBreakpoints, SavePendingBreakpoints, ok, fail. keep. Qed.
Lemma SetSymbolic_keeps p : keeps R (Debugger_SetSymbolicBreakpoints p).
Proof. unfold Debugger_SetSymbolicBreakpoints, ok, fail. keep. Qed.
Lemma RemoveSymbolic_keeps p : keeps R (Debugger_RemoveSymbolicBreakpoints p).
Proof. unfold Debugger_RemoveSymbolicBreakpoints, ok, fail. keep. Qed.

(** *** Evaluation *)

Lemma eval_error_keeps m : keeps R (eval_error m). Proof. by_keep. Qed.
#[local] Hint Resolve eval_error_keeps : ark_keep.
Lemma CmptEvaluateValue_keeps id e : keeps R (CmptEvaluateValue id e). Proof. unfold CmptEvaluateValue. keep. Qed.
Lemma call_result_keeps v : keeps R (call_result v). Proof. unfold call_result, Ok. keep. Qed.
#[local] Hint Resolve CmptEvaluateValue_keeps call_result_keeps : ark_keep.
Lemma EvaluateOnCallFrame_keeps p : keeps R (Debugger_EvaluateOnCallFrame p). Proof. by_keep. Qed.
Lemma CallFunctionOn_keeps p : keeps R (Debugger_CallFunctionOn p). Proof. by_keep. Qed.

End QuietOperations.

#[export] Hint Resolve Enable_keeps Disable_keeps Resume_keeps step_request_keeps DropFrame_keeps
  ReplyNativeCalling_keeps GetPossibleBreakpoints_keeps GetScriptSource_keeps SetBreakpointByUrl_keeps
  SmartStepInto_keeps RemoveBreakpoint_keeps RemoveBreakpointsByUrl_keeps ProcessSingleBreakpoint_keeps
  GetPossibleAndSet_keeps SaveAll_keeps SetSymbolic_keeps RemoveSymbolic_keeps EvaluateOnCallFrame_keeps
  CallFunctionOn_keeps : ark_keep.

(** ** The dispatcher *)

Section DispatchOperations.
Context `{cj : CJson} `{CastOob} `{EcmaVm} `{HashOrder} {R : relation world} `{!CoreFrame R}.

Lemma plain_keeps m : keeps R m → keeps R (plain m). Proof. intros. by_keep. Qed.
Lemma with_params_keeps {P} (c : created P) k : (∀ p, keeps R (k p)) → keeps R (with_params c k).
Proof. intros. by_keep. Qed.

Lemma handle_keeps method p : keeps R (handle method p).
Proof.
  unfold handle. destruct (GetMethodEnum method);
    lazymatch goal with
    | |- keeps _ (m_ret _) => idtac
    | |- keeps _ ?m => let h := head_of m in unfold h
    end; try (apply with_params_keeps; intros ?); try apply plain_keeps;
    first [keep | by_keep; unfold ok, fail; keep].
Qed.

Lemma ClientDisconnect_keeps : keeps R ClientDisconnect. Proof. by_keep. Qed.

End DispatchOperations.

#[export] Hint Resolve handle_keeps ClientDisconnect_keeps : ark_keep.

(** ** Notifications and hooks *)

Section HookOperations.
Context `{EcmaVm} `{HashOrder} `{DebuggerBuild} {R : relation world} `{!Frame R}.

Lemma CheckScriptParsed_keeps f : keeps R (CheckScriptParsed f). Proof. by_keep. Qed.
Lemma ClearSingleStepper_keeps : keeps R ClearSingleStepper. Proof. by_keep. Qed.
Lemma set_pending_keeps bs : keeps R (set_pending bs).
Proof. induction bs as [|b bs IH]; simpl; keep. Qed.
#[local] Hint Resolve set_pending_keeps : ark_keep.
Lemma SetBreakpointsWhenParsingScript_keeps u : keeps R (SetBreakpointsWhenParsingScript u). Proof. by_keep. Qed.
Lemma NotifyNativeOut_keeps : keeps R NotifyNativeOut. Proof. by_keep. Qed.
Lemma IsSkipLine_keeps l : keeps R (IsSkipLine l). Proof. by_keep. Qed.
#[local] Hint Resolve IsSkipLine_keeps : ark_keep.
Lemma NotifySingleStep_keeps l : keeps R (NotifySingleStep l). Proof. by_keep. Qed.
Lemma CheckPauseOnException_keeps : keeps R CheckPauseOnException. Proof. by_keep. Qed.
Lemma CleanUpOnPaused_keeps : keeps R CleanUpOnPaused. Proof. by_keep. Qed.
Lemma hit_breakpoint_keeps l : keeps R (hit_breakpoint l). Proof. by_keep. Qed.
Lemma send_mixed_stack_keeps : keeps R send_mixed_stack. Proof. unfold send_mixed_stack, Frontend_MixedStack. keep. Qed.
#[local] Hint Resolve NotifyNativeOut_keeps NotifySingleStep_keeps CheckPauseOnException_keeps
  CleanUpOnPaused_keeps hit_breakpoint_keeps send_mixed_stack_keeps : ark_keep.

Context (serve : D ()) (Hserve : keeps R serve).

Lemma GeneratePausedInfo_keeps r h e : keeps R (GeneratePausedInfo serve r h e).
Proof. unfold GeneratePausedInfo, Frontend_Paused. keep. Qed.
#[local] Hint Resolve GeneratePausedInfo_keeps : ark_keep.
Lemma NotifyPaused_keeps l r : keeps R (NotifyPaused serve l r). Proof. by_keep. Qed.
#[local] Hint Resolve NotifyPaused_keeps : ark_keep.
Lemma NotifyNativeCalling_keeps a : keeps R (NotifyNativeCalling serve a).
Proof. unfold NotifyNativeCalling, Frontend_NativeCalling. keep. Qed.
Lemma NotifyNativeReturn_keeps a : keeps R (NotifyNativeReturn a). Proof. by_keep. Qed.
Lemma NotifyReturnNative_keeps : keeps R NotifyReturnNative. Proof. by_keep. Qed.
Lemma SingleStep_keeps l : keeps R (Hook_SingleStep serve l). Proof. by_keep. Qed.
Lemma NativeOut_keeps : keeps R (Hook_NativeOut serve). Proof. by_keep. Qed.
Lemma arm_first_time_keeps b : keeps R (arm_first_time b). Proof. by_keep. Qed.

End HookOperations.

#[export] Hint Resolve CheckScriptParsed_keeps ClearSingleStepper_keeps SetBreakpointsWhenParsingScript_keeps
  NotifyPaused_keeps NotifyNativeCalling_keeps NotifyNativeReturn_keeps NotifyReturnNative_keeps SingleStep_keeps
  NativeOut_keeps arm_first_time_keeps : ark_keep.
