(* ===== verification/DebuggerTables.v ===== *)
(** * The debugger agent: its tables

    Runs of the agent: requests of the client, hooks of the virtual machine with
    the requests that are served while the program is stopped, and steps of the
    surroundings, in any order. The theorems are invariants of all runs: the
    table of scripts, the objects that the client may ask about, and the answers
    to requests. *)

From S2P Require Import Prelude Base64 Regex Http CppLib Utils ThreadState.
From S2P Require Import PtJson PtCodec PtTypes PtProfile PtSchema PtParams PtEvents PtReturns Dispatcher.
From S2P Require Import DebuggerState SingleStepper CallFrames DebuggerAgent DebuggerHooks DebuggerDispatch DebuggerLogic.
Local Open Scope Z_scope.
Local Open Scope ark_scope.

Section Runs.
Context `{cj : CJson} `{CastOob} `{EcmaVm} `{HashOrder} `{DebuggerBuild}.

(** ** Runs *)

Inductive event :=
| ERequest (request : DispatchRequest) (crossLanguageDebug : bool)
| ELoadModule (pandaFileName entryPoint : bytes)
| ESendableMethodEntry (methodId : Z) (file : option JSPandaFile) (recordName : bytes)
| ESingleStep (location : JSPtLocation) (served : list (DispatchRequest * bool))
| EBreakpoint (location : JSPtLocation) (served : list (DispatchRequest * bool))
| EException (served : list (DispatchRequest * bool))
| EDebuggerStmt (served : list (DispatchRequest * bool))
| ENativeOut (served : list (DispatchRequest * bool))
| ENativeCalling (nativeAddress : Z) (served : list (DispatchRequest * bool))
| ENativeReturn (nativeAddress : Z)
| EReturnNative
| EGenerateAsyncFrames (size : nat) (stack : AsyncStack) (skipTopFrame : bool)
| EUpdateScopeObject (frame : FrameHandler) (varName : bytes) (newVal : JSValue) (scope : bytes)
| EClearSingleStepper
| EDisableFirstTimeFlag
| EHitSymbolicBreakpoint.

Definition run_event (e : event) : D () :=
  match e with
  | ERequest r cross => Debugger_Dispatch r cross ;;; m_ret ()
  | ELoadModule f e => Hook_LoadModule f e
  | ESendableMethodEntry m f r => Hook_SendableMethodEntry m f r
  | ESingleStep l rs => Hook_SingleStep (serve rs) l ;;; m_ret ()
  | EBreakpoint l rs => Hook_Breakpoint (serve rs) l
  | EException rs => Hook_Exception (serve rs)
  | EDebuggerStmt rs => Hook_DebuggerStmt (serve rs)
  | ENativeOut rs => Hook_NativeOut (serve rs) ;;; m_ret ()
  | ENativeCalling a rs => Hook_NativeCalling (serve rs) a
  | ENativeReturn a => Hook_NativeReturn a
  | EReturnNative => NotifyReturnNative
  | EGenerateAsyncFrames n s b => Hook_GenerateAsyncFrames n s b ;;; m_ret ()
  | EUpdateScopeObject f x v s => UpdateScopeObject f x v s
  | EClearSingleStepper => ClearSingleStepper
  | EDisableFirstTimeFlag => Hook_DisableFirstTimeFlag
  | EHitSymbolicBreakpoint => Hook_HitSymbolicBreakpoint
  end.

(** The surroundings: the virtual machine runs, the static debugger sets its
    flags, the runtime agent hands out objects, other threads parse scripts. The
    counter of scripts stays below [2^31]. *)
Inductive reachable : world → Prop :=
| reach_init isHybrid channel v h n :
    0 ≤ n < 2 ^ 31 →
    reachable (mkWorld (new_DebuggerImpl isHybrid channel) v (mkRuntimeObjects 0 ∅) h n [])
| reach_event w e : reachable w → w_scriptId w < 2 ^ 31 - 1 → reachable (final (run_event e w))
| reach_vm w v : reachable w → reachable (set_vm v w)
| reach_hybrid w h : reachable w → reachable (set_hybrid h w)
| reach_object w v : reachable w → reachable (final (alloc_object v w))
| reach_script w n : reachable w → w_scriptId w ≤ n < 2 ^ 31 → reachable (set_scriptId n w).

(** ** Events and frames *)

(** A frame that also holds for responses. *)
Class OpenFrame (R : relation world) : Prop := {
  open_frame :: Frame R;
  open_calls w cs : R w (set_calls cs w) }.

Section OpenFrames.
Context {R : relation world} `{!OpenFrame R}.

Lemma send_response_keeps id r x : keeps R (send_response id r x).
Proof.
  unfold send_response. apply keeps_bind; [keep|intros c]. apply keeps_when. intros w. apply open_calls.
Qed.
#[local] Hint Resolve send_response_keeps : ark_keep.
Lemma Dispatch_keeps r cross : keeps R (Debugger_Dispatch r cross). Proof. by_keep. Qed.
#[local] Hint Resolve Dispatch_keeps : ark_keep.
Lemma serve_keeps rs : keeps R (serve rs). Proof. by_keep. Qed.

(** Every event but the parsing of a script is made of elementary changes. *)
Lemma run_event_keeps e :
  match e with ELoadModule _ _ | ESendableMethodEntry _ _ _ => True | _ => keeps R (run_event e) end.
Proof.
  destruct e; try done; simpl; pose proof serve_keeps; pose proof UpdateScopeObject_keeps;
    unfold Hook_Breakpoint, Hook_Exception, Hook_DebuggerStmt, Hook_NativeCalling, Hook_NativeReturn,
      Hook_GenerateAsyncFrames, Hook_DisableFirstTimeFlag, Hook_HitSymbolicBreakpoint; keep.
Qed.

End OpenFrames.

(** A relation that does not look at the agent itself holds for every event. *)
Class OuterFrame (R : relation world) : Prop := {
  outer_frame :: OpenFrame R;
  outer_dbg w d : R w (set_dbg d w);
  outer_id w n : R w (set_scriptId n w) }.

Section OuterFrames.
Context {R : relation world} `{!OuterFrame R}.

Lemma keeps_put_outer f : keeps R (put f).
Proof. intros w. apply outer_dbg. Qed.
Lemma next_script_id_keeps : keeps R next_script_id.
Proof. intros w. apply outer_id. Qed.
#[local] Hint Resolve keeps_put_outer next_script_id_keeps : ark_keep.
Lemma SaveParsedScripts_keeps f u r s : keeps R (SaveParsedScriptsAndUrl f u r s). Proof. by_keep. Qed.
#[local] Hint Resolve SaveParsedScripts_keeps : ark_keep.
Lemma LoadModule_keeps f e : keeps R (Hook_LoadModule f e).
Proof. unfold Hook_LoadModule, NotifyScriptParsed. keep. Qed.
Lemma SendableMethodEntry_keeps m f r : keeps R (Hook_SendableMethodEntry m f r).
Proof. unfold Hook_SendableMethodEntry, NotifyScriptParsedBySendable. keep. Qed.

Lemma every_event_keeps e : keeps R (run_event e).
Proof.
  pose proof (run_event_keeps (R := R) e) as He.
  destruct e; try exact He; [apply LoadModule_keeps|apply SendableMethodEntry_keeps].
Qed.

End OuterFrames.

(** ** The table of scripts *)

Definition same_table (w w' : world) : Prop :=
  same_scripts (w_dbg w) (w_dbg w') ∧ w_scriptId w = w_scriptId w'.

#[local] Instance same_table_frame : OpenFrame same_table.
Proof.
  split; [split; [split; [split; [split|]|..]|]|]; try done.
  - split; [done|]. unfold same_table, same_scripts. intros ? ? ? (? & ?) (? & ?). split; naive_solver congruence.
  - intros w d [Hd _]. unfold same_table, same_scripts in *. naive_solver.
  - intros w d Hd. unfold same_table, same_scripts in *. naive_solver.
  - intros w. unfold CleanUpRuntimeProperties, m_modify. simpl. by case_match.
Qed.

Definition parsed (d : DebuggerImpl) (url fileName : bytes) (s : PtScript) : Prop :=
  scripts_ d !! ps_scriptId_ s = Some s ∧ ps_url_ s = url ∧ ps_fileName_ s = fileName.

(** Scripts are filed under their own id, below the counter; the pairs of url and
    file that count as parsed are those of the scripts, each of one script; the
    record names have the same urls, and all names together are [recordNameSet_]. *)
Record table_ok (d : DebuggerImpl) (next : Z) : Prop := {
  table_ids id s : scripts_ d !! id = Some s → ps_scriptId_ s = id ∧ 0 ≤ id < next;
  table_parsed url fileName : MatchUrlAndFileName url fileName d = true ↔ ∃ s, parsed d url fileName s;
  table_once url fileName s s' : parsed d url fileName s → parsed d url fileName s' → s = s';
  table_urls url : is_Some (recordNames_ d !! url) ↔ ∃ s fileName, parsed d url fileName s;
  table_names name : name ∈ recordNameSet_ d ↔ ∃ url names, recordNames_ d !! url = Some names ∧ name ∈ names }.

Lemma table_ok_same w w' : same_table w w' → table_ok (w_dbg w) (w_scriptId w) → table_ok (w_dbg w') (w_scriptId w').
Proof.
  intros [(E1 & E2 & E3 & E4) <-] [T1 T2 T3 T4 T5]. unfold parsed, MatchUrlAndFileName in *.
  rewrite E1, E2, E3, E4 in *. by split.
Qed.

Lemma MatchUrlAndFileName_spec url fileName d :
  MatchUrlAndFileName url fileName d = true ↔ ∃ files, urlFileNameMap_ d !! url = Some files ∧ fileName ∈ files.
Proof.
  unfold MatchUrlAndFileName. destruct (urlFileNameMap_ d !! url) as [files|]; [|naive_solver].
  rewrite bool_decide_eq_true. naive_solver.
Qed.

Lemma insert_name_lookup url name m url' x :
  (∃ names, insert_name url name m !! url' = Some names ∧ x ∈ names) ↔
  (url' = url ∧ x = name) ∨ ∃ names, m !! url' = Some names ∧ x ∈ names.
Proof.
  unfold insert_name. destruct (decide (url = url')) as [->|Hne].
  - rewrite lookup_insert_eq. split.
    + intros (? & [= <-] & [->%elem_of_singleton|Hx]%elem_of_union); [by left|]. right.
      destruct (m !! url') as [names|]; simpl in Hx; [eauto|set_solver].
    + intros [[_ ->]|(names & -> & Hx)]; eexists; (split; [done|]); simpl; apply elem_of_union;
        [left; by apply elem_of_singleton|by right].
  - rewrite lookup_insert_ne by done. naive_solver.
Qed.

Lemma insert_name_is_Some url name m url' :
  is_Some (insert_name url name m !! url') ↔ url' = url ∨ is_Some (m !! url').
Proof. unfold insert_name. rewrite lookup_insert_is_Some'. naive_solver. Qed.

(** The state after the maps have been extended and the script has been filed. *)
Definition add_script (id : Z) (fileName url recordName source : bytes) (d : DebuggerImpl) : DebuggerImpl :=
  set_scripts_ (<[id := new_PtScript id fileName url source]> (scripts_ d))
    (set_urlFileNameMap_ (insert_name url fileName (urlFileNameMap_ d))
      (set_recordNameSet_ ({[recordName]} ∪ recordNameSet_ d)
        (set_recordNames_ (insert_name url recordName (recordNames_ d)) d))).

Lemma parsed_add_script d next fileName url recordName source url' fileName' s :
  table_ok d next →
  parsed (add_script next fileName url recordName source d) url' fileName' s ↔
  (s = new_PtScript next fileName url source ∧ url' = url ∧ fileName' = fileName) ∨ parsed d url' fileName' s.
Proof.
  intros T. unfold parsed. cbn [scripts_ add_script set_scripts_].
  destruct (decide (ps_scriptId_ s = next)) as [E|E].
  - rewrite E, lookup_insert_eq. split.
    + intros ([= <-] & <- & <-). by left.
    + intros [(-> & -> & ->)|(Hs & _ & _)]; [done|]. apply (table_ids _ _ T) in Hs. lia.
  - rewrite lookup_insert_ne by done. split; [by right|]. intros [(-> & _ & _)|?]; [done|done].
Qed.

Lemma table_add_script d next fileName url recordName source :
  0 ≤ next → table_ok d next → MatchUrlAndFileName url fileName d = false →
  table_ok (add_script next fileName url recordName source d) (next + 1).
Proof.
  intros Hnext T Hnew.
  assert (Hno : ∀ s, ¬ parsed d url fileName s).
  { intros s Hs. assert (MatchUrlAndFileName url fileName d = true) by (apply (table_parsed _ _ T); eauto).
    congruence. }
  split.
  - intros id s. cbn [scripts_ add_script set_scripts_]. intros [[<- <-]|[? Hs]]%lookup_insert_Some; [simpl; lia|].
    apply (table_ids _ _ T) in Hs. lia.
  - intros url' fileName'. rewrite MatchUrlAndFileName_spec. cbn [urlFileNameMap_ add_script set_scripts_ set_urlFileNameMap_].
    rewrite insert_name_lookup, <- MatchUrlAndFileName_spec, (table_parsed _ _ T).
    setoid_rewrite (parsed_add_script d next); [|done]. naive_solver.
  - intros url' fileName' s s'. rewrite !(parsed_add_script d next) by done.
    intros [(-> & -> & ->)|Hs] [(-> & Eu & Ef)|Hs']; subst; try done; try (by destruct (Hno _ Hs')); try (by destruct (Hno _ Hs)).
    by apply (table_once _ _ T _ _ _ _ Hs).
  - intros url'. cbn [recordNames_ add_script set_scripts_ set_urlFileNameMap_ set_recordNameSet_ set_recordNames_].
    rewrite insert_name_is_Some, (table_urls _ _ T). setoid_rewrite (parsed_add_script d next); [|done]. naive_solver.
  - intros name. cbn [recordNames_ recordNameSet_ add_script set_scripts_ set_urlFileNameMap_ set_recordNameSet_ set_recordNames_].
    rewrite elem_of_union, elem_of_singleton, (table_names _ _ T). setoid_rewrite insert_name_lookup. naive_solver.
Qed.

(** Replacing a script by one with other locations. *)
Lemma table_set_locations d next id s locations :
  table_ok d next → scripts_ d !! id = Some s →
  table_ok (set_scripts_ (<[id := PtScript_SetLocations locations s]> (scripts_ d)) d) next.
Proof.
  intros T Hs. destruct (table_ids _ _ T _ _ Hs) as [Hid Hlt].
  set (s' := PtScript_SetLocations locations s).
  assert (Hp : ∀ u f x, parsed (set_scripts_ (<[id := s']> (scripts_ d)) d) u f x ↔
    (x = s' ∧ parsed d u f s) ∨ (ps_scriptId_ x ≠ id ∧ parsed d u f x)).
  { intros u f x. unfold parsed. cbn [scripts_ set_scripts_]. rewrite lookup_insert_Some, Hid. naive_solver. }
  assert (Hex : ∀ u f, (∃ x, parsed (set_scripts_ (<[id := s']> (scripts_ d)) d) u f x) ↔ ∃ x, parsed d u f x).
  { intros u f. setoid_rewrite Hp. split; [naive_solver|]. intros (x & Hx).
    destruct (decide (ps_scriptId_ x = id)) as [Ex|]; [|naive_solver]. exists s'. left. split; [done|].
    destruct Hx as (Hx & ? & ?). rewrite Ex, Hs in Hx. injection Hx as <-. unfold parsed. by rewrite Ex. }
  split.
  - intros id' x. cbn [scripts_ set_scripts_]. intros [[<- <-]|[_ Hx]]%lookup_insert_Some; [done|].
    by apply (table_ids _ _ T).
  - intros u f. rewrite Hex. apply (table_parsed _ _ T).
  - intros u f x y. rewrite !Hp. intros [[-> Hx]|[Nx Hx]] [[-> Hy]|[Ny Hy]]; try done.
    + rewrite (table_once _ _ T _ _ _ _ Hy Hx) in Ny. done.
    + rewrite (table_once _ _ T _ _ _ _ Hx Hy) in Nx. done.
    + by apply (table_once _ _ T _ _ _ _ Hx).
  - intros u. rewrite (table_urls _ _ T u). split; intros (x & f & Hx).
    + destruct (proj2 (Hex u f) (ex_intro _ x Hx)) as [y Hy]. eauto.
    + destruct (proj1 (Hex u f) (ex_intro _ x Hx)) as [y Hy]. eauto.
  - apply (table_names _ _ T).
Qed.

Definition scripts_inv (w : world) : Prop := 0 ≤ w_scriptId w < 2 ^ 31 ∧ table_ok (w_dbg w) (w_scriptId w).

Lemma scripts_inv_keeps {A} (m : D A) w : keeps same_table m → scripts_inv w → scripts_inv (final (m w)).
Proof.
  intros Hm [Hid T]. pose proof (Hm w) as Hs. split; [by destruct Hs as [_ <-]|by apply (table_ok_same w)].
Qed.

(** Filing a new script. *)
Lemma SaveParsedScripts_inv fileName url recordName source w :
  scripts_inv w → w_scriptId w < 2 ^ 31 - 1 → MatchUrlAndFileName url fileName (w_dbg w) = false →
  scripts_inv (final (SaveParsedScriptsAndUrl fileName url recordName source w)).
Proof.
  intros [Hid T] Hmax Hnew. set (id := w_scriptId w).
  assert (Eid : uint32_to_int32 id = id) by (unfold uint32_to_int32; by replace (id <? 2 ^ 31) with true by lia).
  assert (Enext : wrap 32 (id + 1) = id + 1) by (apply wrap_small; lia).
  set (w1 := set_dbg (add_script id fileName url recordName source (w_dbg w)) (set_scriptId (id + 1) w)).
  assert (Hw1 : scripts_inv w1).
  { split; [simpl; lia|]. apply table_add_script; [lia|done..]. }
  set (script := new_PtScript id fileName url source).
  set (tail := need <-- get (λ d, IsLaunchAccelerateMode d && NeedToSetBreakpointsWhenParsingScript url d) ;;
    if need : bool then
      locations <-- SetBreakpointsWhenParsingScript url ;;
      put (λ d, set_scripts_ (<[id := PtScript_SetLocations locations script]> (scripts_ d)) d) ;;;
      Frontend_ScriptParsed (PtScript_SetLocations locations script)
    else Frontend_ScriptParsed script).
  assert (E : SaveParsedScriptsAndUrl fileName url recordName source w = tail w1).
  { unfold SaveParsedScriptsAndUrl, next_script_id, m_bind, put, m_modify, get. cbn [w_dbg w_scriptId set_dbg].
    fold id. rewrite Eid, Enext. reflexivity. }
  rewrite E. unfold tail. erewrite m_bind_ret by reflexivity. case_match; [|apply scripts_inv_keeps; [keep|done]].
  pose proof (SetBreakpointsWhenParsingScript_keeps (R := same_table) url w1) as Hs.
  unfold m_bind at 1. destruct (SetBreakpointsWhenParsingScript url w1) as [locations w2|w2|w2]; simpl in Hs;
    [|cbn [final]; split; [destruct Hs as [_ <-]; apply Hw1|apply (table_ok_same w1); [done|apply Hw1]]..].
  erewrite m_bind_ret by reflexivity. apply scripts_inv_keeps; [keep|]. destruct Hw1 as [Hw1id Hw1t].
  split; [simpl; by destruct Hs as [_ <-]|]. cbn [w_dbg set_dbg w_scriptId].
  apply table_set_locations; [by eapply table_ok_same|].
  destruct Hs as [(_ & _ & _ & <-) _]. apply lookup_insert_eq.
Qed.

Lemma keeps_then {A B} (m : D A) (k : A → D B) w :
  keeps same_table m → scripts_inv w → w_scriptId w < 2 ^ 31 - 1 →
  (∀ a w', m w = Ret a w' → scripts_inv w' → w_scriptId w' < 2 ^ 31 - 1 → scripts_inv (final (k a w'))) →
  scripts_inv (final (m_bind k m w)).
Proof.
  intros Hm Hi Hmax Hk. pose proof (scripts_inv_keeps m w Hm Hi) as Hf. pose proof (Hm w) as [_ Hid].
  unfold m_bind. destruct (m w) as [a w'| |] eqn:E; simpl in *; [|done..]. apply Hk; [done..|]. congruence.
Qed.

(** Parsing a file, up to the decision whether it is new. *)
Lemma parse_new_inv fileName url recordName source w :
  scripts_inv w → w_scriptId w < 2 ^ 31 - 1 →
  scripts_inv (final ((ClearSingleStepper ;;;
    parsed <-- get (MatchUrlAndFileName url fileName) ;;
    if parsed : bool then m_ret false
    else SaveParsedScriptsAndUrl fileName url recordName source ;;; m_ret true) w)).
Proof.
  intros Hi Hmax. apply keeps_then; [keep|done..|]. intros [] w1 _ Hi1 Hmax1.
  erewrite m_bind_ret by reflexivity. destruct (MatchUrlAndFileName url fileName (w_dbg w1)) eqn:E; [done|].
  pose proof (SaveParsedScripts_inv fileName url recordName source w1 Hi1 Hmax1 E) as Hf.
  unfold m_bind. by destruct (SaveParsedScriptsAndUrl fileName url recordName source w1).
Qed.

Ltac parse_step :=
  apply keeps_then; [keep|assumption..|]; intros ? ? _ ? ?; try (case_match; [try done|try done]).

Lemma arm_inv (m : D bool) w :
  scripts_inv (final (m w)) → scripts_inv (final ((parsed <-- m ;; arm_first_time parsed) w)).
Proof.
  unfold m_bind. destruct (m w) as [b w'| |]; simpl; [|done..]. intros. apply scripts_inv_keeps; [keep|done].
Qed.

Lemma LoadModule_inv f e w : scripts_inv w → w_scriptId w < 2 ^ 31 - 1 → scripts_inv (final (Hook_LoadModule f e w)).
Proof.
  intros Hi Hmax. unfold Hook_LoadModule. apply arm_inv. unfold NotifyScriptParsed.
  do 4 parse_step. by apply parse_new_inv.
Qed.

Lemma SendableMethodEntry_inv m f r w :
  scripts_inv w → w_scriptId w < 2 ^ 31 - 1 → scripts_inv (final (Hook_SendableMethodEntry m f r w)).
Proof.
  intros Hi Hmax. unfold Hook_SendableMethodEntry. apply arm_inv. unfold NotifyScriptParsedBySendable.
  destruct f as [f|]; [|done]. do 2 parse_step. by apply parse_new_inv.
Qed.

Lemma run_event_inv e w : scripts_inv w → w_scriptId w < 2 ^ 31 - 1 → scripts_inv (final (run_event e w)).
Proof.
  intros Hi Hmax. pose proof (run_event_keeps (R := same_table) e) as He.
  destruct e; try (apply scripts_inv_keeps; [exact He|done]);
    [by apply LoadModule_inv|by apply SendableMethodEntry_inv].
Qed.

Lemma table_ok_more d n n' : table_ok d n → n ≤ n' → table_ok d n'.
Proof. intros [T1 ? ? ? ?] ?. split; [|done..]. intros id s Hs. apply T1 in Hs. lia. Qed.

(** C10: in every run of the agent each script is filed under its own id; the urls
    and files that count as parsed are those of the scripts in the table, and no
    pair of a url and a file is parsed twice; the record names have the urls of
    the scripts and are all in the set the virtual machine reads. *)
Theorem script_table (w : world) : reachable w → table_ok (w_dbg w) (w_scriptId w).
Proof.
  intros Hr. cut (scripts_inv w); [by intros [_ ?]|].
  induction Hr as [isHybrid channel v h n Hn|w e _ IH Hmax|w v _ IH|w h _ IH|w v _ IH|w n _ [Hid IH] Hn].
  - split; [done|]. unfold parsed. split; simpl.
    + intros id s. by rewrite lookup_empty.
    + intros url f. unfold MatchUrlAndFileName. simpl. rewrite lookup_empty. split; [done|].
      intros (s & Hs & _). cbn in Hs. by rewrite lookup_empty in Hs.
    + intros ? ? ? ? [Hs _]. cbn in Hs. by rewrite lookup_empty in Hs.
    + intros url. rewrite lookup_empty. split; [by intros []|]. intros (s & f & Hs & _). cbn in Hs.
      by rewrite lookup_empty in Hs.
    + intros name. split; [set_solver|]. intros (u & names & Hs & _). by rewrite lookup_empty in Hs.
  - by apply run_event_inv.
  - done.
  - done.
  - done.
  - split; [simpl; lia|]. apply (table_ok_more _ (w_scriptId w)); [done|simpl; lia].
Qed.

(** ** The objects of the client *)

(** The ids below the counter are registered, and no others. *)
Definition registry_ok (r : RuntimeObjects) : Prop :=
  0 ≤ curObjectId_ r ∧ ∀ id, is_Some (properties_ r !! id) ↔ 0 ≤ id < curObjectId_ r.

Definition registry_kept (w w' : world) : Prop := registry_ok (w_runtime w) → registry_ok (w_runtime w').

Lemma alloc_registry r v :
  registry_ok r → registry_ok (mkRuntimeObjects (curObjectId_ r + 1) (<[curObjectId_ r := v]> (properties_ r))).
Proof.
  intros [Hpos Hr]. split; simpl; [lia|]. intros id. rewrite lookup_insert_is_Some', Hr. lia.
Qed.

#[local] Instance registry_frame : OuterFrame registry_kept.
Proof.
  split; [split; [split; [split; [split; [split|]|..]|]|]|..]; try (intros; by unfold registry_kept).
  - unfold registry_kept. split; [by intros w|]. intros w1 w2 w3. naive_solver.
  - intros w v Hr. by apply alloc_registry.
  - intros w Hr. unfold CleanUpRuntimeProperties, m_modify. simpl. case_match; [done|]. simpl.
    split; simpl; [lia|]. intros id. rewrite lookup_empty. split; [by intros []|lia].
Qed.

(** In every run the objects the client may ask about are those with the ids
    from 0 up to the counter: an id is handed out once until the next stop, and
    the clean-up at a stop, which counts down from the counter, frees every handle
    and touches no other id. *)
Theorem object_registry (w : world) : reachable w → registry_ok (w_runtime w).
Proof.
  induction 1 as [isHybrid channel v h n Hn|w e _ IH Hmax|w v _ IH|w h _ IH|w v _ IH|w n _ IH Hn]; try done.
  - split; simpl; [lia|]. intros id. rewrite lookup_empty. split; [by intros []|lia].
  - by apply (every_event_keeps (R := registry_kept) e w).
  - by apply alloc_registry.
Qed.

(** ** Answers *)

Definition answers (w : world) : list channel_call := filter (λ c, is_result c = true) (w_calls w).
Definition same_answers (w w' : world) : Prop := answers w = answers w'.

#[local] Instance answers_frame : CoreFrame same_answers.
Proof.
  split; [split; [split|..]|..]; try done.
  - unfold same_answers. split; [done|]. intros ? ? ?. congruence.
  - intros w c Hc. unfold same_answers, answers. simpl. rewrite filter_app, filter_cons_False by congruence.
    by rewrite filter_nil, app_nil_r.
Qed.

(** C32: a request that is carried out is answered exactly once: when there is a
    channel and no other language asks, one response with the id of the request
    is sent and it is the last thing sent; a request of cross-language debugging
    is answered by the returned text; the inner message "clientDisconnect" is not
    answered. *)
Theorem request_answered (request : DispatchRequest) (cross : bool) (w w' : world) (text : option bytes) :
  Debugger_Dispatch request cross w = Ret text w' →
  (GetMethodEnum (dr_method_ request) = CLIENT_DISCONNECT ∧ text = None ∧ answers w' = answers w) ∨
  ∃ response result w1,
    handle (dr_method_ request) (dr_params_ request) w = Ret (response, result) w1 ∧ answers w1 = answers w ∧
    if cross then
      w' = w1 ∧ text = Some (ReturnsValueToString (dr_callId_ request) response (PtBaseReturns_ToJson <$> result))
    else
      text = None ∧
      w' = if channel_ (w_dbg w1)
           then set_calls (w_calls w1 ++ [SendResult (dr_callId_ request) response (default BaseReturns result)]) w1
           else w1.
Proof.
  unfold Debugger_Dispatch. case_decide as Hm.
  - intros Hr. left. pose proof (ClientDisconnect_keeps (R := same_answers) w) as Hk. unfold m_bind in Hr.
    destruct (ClientDisconnect w) as [[] w1| |]; [|done..]. injection Hr as <- <-. by split_and!.
  - intros Hr. right. pose proof (handle_keeps (R := same_answers) (dr_method_ request) (dr_params_ request) w) as Hk.
    unfold m_bind at 1 in Hr. destruct (handle (dr_method_ request) (dr_params_ request) w) as [[r x] w1| |]; [|done..].
    exists r, x, w1. split_and!; [done..|]. destruct cross; [by injection Hr as <- <-|].
    unfold send_response, m_bind, get, when in Hr.
    destruct (channel_ (w_dbg w1)); by injection Hr as <- <-.
Qed.

End Runs.
