(* ===== verification/PausedObjects.v ===== *)
(** * The objects of a stopped program

    The call frames of a "paused" event name objects by ids: the scopes and
    "this" of each frame. The theorem of this file says that the client can ask
    about every one of them. *)

From S2P Require Import Prelude Base64 Regex Http CppLib Utils ThreadState.
From S2P Require Import PtJson PtCodec PtTypes PtProfile PtSchema PtParams PtEvents PtReturns Dispatcher.
From S2P Require Import DebuggerState SingleStepper CallFrames DebuggerAgent DebuggerHooks DebuggerDispatch DebuggerLogic.
Local Open Scope Z_scope.
Local Open Scope ark_scope.

(** A sequence that returns has returned from its first part. *)
Lemma m_bind_inv {S A B} (k : A → M S B) (m : M S A) s b s' :
  m_bind k m s = Ret b s' → ∃ a s1, m s = Ret a s1 ∧ k a s1 = Ret b s'.
Proof. unfold m_bind. destruct (m s) as [a s1| |]; [|done..]. eauto. Qed.

(** ** Operations that return *)

Create HintDb ark_returns discriminated.

Section Returning.
Context `{EcmaVm}.

(** Neither waits nor throws. *)
Definition returns {A} (m : D A) : Prop := ∀ w, ∃ a w', m w = Ret a w'.

Lemma run_returns_ret {A} (a : A) : returns (m_ret a). Proof. by repeat eexists. Qed.
Lemma returns_read {A} (f : world → A) : returns (λ w, Ret (f w) w). Proof. by repeat eexists. Qed.
Lemma returns_get {A} (f : DebuggerImpl → A) : returns (get f). Proof. by repeat eexists. Qed.
Lemma returns_ask {A} (f : vm → A) : returns (ask f). Proof. by repeat eexists. Qed.
Lemma returns_tell f : returns (tell f). Proof. by repeat eexists. Qed.
Lemma returns_put f : returns (put f). Proof. by repeat eexists. Qed.
Lemma returns_alloc v : returns (alloc_object v). Proof. by repeat eexists. Qed.
Lemma returns_call {A} (f : vm → A * vm) : returns (call f).
Proof. intros w. unfold call. destruct (f (w_vm w)). by repeat eexists. Qed.
Lemma run_returns_bind {A B} (m : D A) (k : A → D B) : returns m → (∀ a, returns (k a)) → returns (m_bind k m).
Proof. intros Hm Hk w. destruct (Hm w) as (a & w1 & E). unfold m_bind. rewrite E. apply Hk. Qed.

End Returning.

#[export] Hint Resolve run_returns_ret returns_get returns_ask returns_tell returns_put returns_alloc
  returns_call : ark_returns.

Ltac return_all :=
  repeat first
    [ solve [auto with ark_returns nocore] | apply run_returns_bind; [|intros ?] | apply returns_read | case_match ].
Ltac by_return := match goal with |- returns ?m => let h := head_of m in unfold h end; return_all.

Section FramesReturn.
Context `{EcmaVm} `{HashOrder}.

Lemma CacheObject_returns v o : returns (CacheObjectIfNeeded v o). Proof. by_return. Qed.
Lemma register_scope_returns sp t v : returns (register_scope sp t v).
Proof. unfold register_scope, push_scope_object. return_all. Qed.
Lemma local_variables_returns f table o t : returns (local_variables f table o t).
Proof. revert t. induction table as [|[[n r] off] rest IH]; intros t; simpl; return_all. Qed.
Lemma closure_variables_returns env info n obj o b c : returns (closure_variables env info n obj o b c).
Proof.
  revert n o b c. pose proof CacheObject_returns.
  induction info as [|[x s] rest IH]; intros n o b c; simpl; return_all.
Qed.
Lemma closure_scopes_returns f src envs o b : returns (closure_scopes f src envs o b).
Proof.
  revert o b. pose proof closure_variables_returns. pose proof register_scope_returns.
  induction envs as [|env rest IH]; intros o b; simpl; return_all.
Qed.
Lemma GenerateScopeChains_returns b f p : returns (GenerateScopeChains b f p).
Proof.
  pose proof CacheObject_returns. pose proof register_scope_returns. pose proof local_variables_returns.
  pose proof closure_scopes_returns.
  unfold GenerateScopeChains, GetLocalScopeChain, GetClosureScopeChains, GetModuleScopeChain, GetGlobalScopeChain,
    GetExtractor, GetLocalVariables. return_all.
Qed.
Lemma walk_frames_returns fs cs b : returns (walk_frames fs cs b).
Proof.
  revert cs. pose proof GenerateScopeChains_returns.
  induction fs as [|f fs IH]; intros cs; simpl; unfold GenerateCallFrame, GetExtractor, SaveCallFrameHandler; return_all.
Qed.
Lemma GenerateCallFrames_returns b : returns (GenerateCallFrames b).
Proof. pose proof walk_frames_returns. by_return. Qed.

End FramesReturn.

Section Objects.
Context `{EcmaVm} `{HashOrder}.

Definition registered (w : world) (id : Z) : Prop := is_Some (properties_ (w_runtime w) !! id).
Definition grows (w w' : world) : Prop := ∀ id, registered w id → registered w' id.

#[local] Instance grows_frame : QuietFrame grows.
Proof.
  split; [split|]; try (intros; by intros id).
  - unfold grows. split; [by intros w|]. intros ? ? ?. naive_solver.
  - intros w v id Hid. apply lookup_insert_is_Some'. by right.
Qed.

Definition object_ok (w : world) (o : RemoteObject) : Prop := ∀ id, ro_objectId_ o = Some id → registered w id.
Definition scope_ok (w : world) (s : Scope) : Prop := object_ok w (sc_object_ s).
Definition frame_ok (w : world) (c : CallFrame) : Prop :=
  Forall (scope_ok w) (cf_scopeChain_ c) ∧ ∀ o, cf_this_ c = Some o → object_ok w o.

Lemma keeps_run {R} {A} (m : D A) w a w' : keeps R m → m w = Ret a w' → R w w'.
Proof. intros Hm E. specialize (Hm w). by rewrite E in Hm. Qed.

Lemma grows_object w w' o : grows w w' → object_ok w o → object_ok w' o.
Proof. unfold object_ok, grows. naive_solver. Qed.
Lemma grows_scopes w w' l : grows w w' → Forall (scope_ok w) l → Forall (scope_ok w') l.
Proof. intros Hg Hl. eapply Forall_impl; [exact Hl|]. intros s. by apply grows_object. Qed.
Lemma grows_frames w w' l : grows w w' → Forall (frame_ok w) l → Forall (frame_ok w') l.
Proof.
  intros Hg Hl. eapply Forall_impl; [exact Hl|]. intros c [Hs Ht]. split; [by eapply grows_scopes|]. intros o Ho.
  eapply grows_object; [done|by apply Ht].
Qed.

(** ** The frames and their handlers *)

(** Describing a frame changes no member of the agent but the objects of the
    scopes, and tells the channel nothing. *)
Definition scopes_only (w w' : world) : Prop :=
  (∃ s, w_dbg w' = set_scopeObjects_ s (w_dbg w)) ∧ w_calls w' = w_calls w.

#[local] Instance scopes_only_frame : ScopeFrame scopes_only.
Proof.
  split.
  - unfold scopes_only. split.
    + intros w. split; [|done]. exists (scopeObjects_ (w_dbg w)). by destruct (w_dbg w).
    + intros w1 w2 w3 [[s1 E1] C1] [[s2 E2] C2]. split; [|congruence]. exists s2. by rewrite E2, E1.
  - intros w s. split; [by exists s|done].
  - intros w v. split; [|done]. exists (scopeObjects_ (w_dbg w)). cbn. by destruct (w_dbg w).
  - intros w v. split; [|done]. exists (scopeObjects_ (w_dbg w)). cbn. by destruct (w_dbg w).
Qed.

Lemma call_frame_id f id b w c w' : GenerateCallFrame f id b w = Ret (Some c) w' → cf_callFrameId_ c = id.
Proof.
  unfold GenerateCallFrame. destruct (frame_HasFrame f); [|done]. destruct (frame_Method f) as [m p]. cbn [negb].
  intros (a & w1 & [= <- <-] & E)%m_bind_inv. destruct (GetJSPtExtractor (w_vm w) p) as [e|]; [|done].
  apply m_bind_inv in E as (? & w1 & [= <- <-] & E). repeat (case_match; [|done]).
  apply m_bind_inv in E as (? & w1 & _ & E). by injection E as <- <-.
Qed.

(** One handler is saved per frame, at the position that the frame has as its id. *)
Definition frames_saved (w w' : world) (n : nat) (added : list CallFrame) : Prop :=
  w_calls w' = w_calls w ∧
  (∃ s hs, w_dbg w' = set_callFrameHandlers_ (callFrameHandlers_ (w_dbg w) ++ hs) (set_scopeObjects_ s (w_dbg w)) ∧
           length hs = length added) ∧
  cf_callFrameId_ <$> added = Z.of_nat <$> seq n (length added).

Lemma walk_frames_saved fs cs b w r w' :
  walk_frames fs cs b w = Ret r w' → ∃ added, r.2 = cs ++ added ∧ frames_saved w w' (length cs) added.
Proof.
  unfold frames_saved. revert cs w. induction fs as [|f fs IH]; intros cs w; simpl.
  { intros [= <- <-]. exists []. rewrite app_nil_r. split; [done|]. split_and!; [done| |done].
    exists (scopeObjects_ (w_dbg w)), []. rewrite app_nil_r. split; [by destruct (w_dbg w)|done]. }
  destruct (frame_IsNativeMethod f); [apply IH|]. intros (c & w1 & Ec & E)%m_bind_inv.
  pose proof (keeps_run (R := scopes_only) _ _ _ _ (GenerateCallFrame_keeps f _ b) Ec) as [[s1 D1] C1].
  destruct c as [c|].
  - apply call_frame_id in Ec as Hid. apply m_bind_inv in E as ([] & w2 & [= <-] & E).
    apply IH in E as (added & Hr & HC & (s & hs & HD & HL) & Hids). exists (c :: added). rewrite Hr, <- app_assoc.
    split; [done|]. split_and!; [by rewrite HC|exists s, (f :: hs)|].
    + rewrite HD. cbn [w_dbg set_dbg]. rewrite D1. cbn. by rewrite <- app_assoc, HL.
    + rewrite length_app, Nat.add_1_r in Hids. rewrite fmap_cons. cbn [length seq]. by rewrite fmap_cons, Hid, Hids.
  - case_match.
    { injection E as <- <-. exists []. rewrite app_nil_r. split; [done|]. split_and!; [done| |done].
      exists s1, []. rewrite app_nil_r, D1. split; [|done]. by destruct (w_dbg w). }
    apply IH in E as (added & Hr & HC & (s & hs & HD & HL) & Hids). exists added. split; [done|].
    split_and!; [by rewrite HC|exists s, hs|done]. rewrite HD, D1. by cbn.
Qed.

Lemma GenerateCallFrames_saved b w r w' : GenerateCallFrames b w = Ret r w' → frames_saved w w' 0 r.2.
Proof.
  unfold GenerateCallFrames. intros (a & w1 & [= <- <-] & E)%m_bind_inv.
  by apply walk_frames_saved in E as (added & -> & ?).
Qed.

(** ** Registered objects *)

(** What is relied on of the virtual machine: the description of a value has no
    id yet. *)
Context (tagged_plain : ∀ v x, ro_objectId_ (FromTagged v x) = None).

Lemma tagged_ok w v x : object_ok w (FromTagged v x).
Proof. intros id. by rewrite tagged_plain. Qed.

Lemma cache_ok v o w o' w' : CacheObjectIfNeeded v o w = Ret o' w' → object_ok w o → object_ok w' o'.
Proof.
  unfold CacheObjectIfNeeded. intros (b & w1 & [= <- <-] & E)%m_bind_inv Ho.
  destruct (IsObjectValue (w_vm w) v); [|by injection E as <- <-].
  unfold m_bind, alloc_object in E. injection E as <- <-. intros id [= <-].
  apply lookup_insert_is_Some'. by left.
Qed.

Lemma register_ok sp t v w id w' : register_scope sp t v w = Ret id w' → registered w' id.
Proof.
  unfold register_scope. intros (i & w1 & _ & E)%m_bind_inv.
  apply m_bind_inv in E as ([] & w2 & _ & E). unfold alloc_object in E. injection E as <- <-.
  apply lookup_insert_is_Some'. by left.
Qed.

(** Splits a run into its steps; every step only adds objects. *)
Ltac step_in E :=
  let a := fresh "a" in let w := fresh "w" in let R := fresh "R" in
  apply m_bind_inv in E as (a & w & R & E).
Ltac grown R :=
  let G := fresh "G" in
  lazymatch type of R with
  | ?m ?w = Ret ?a ?w' => assert (G : grows w w') by (apply (keeps_run m w a w'); [keep|exact R])
  end.

Lemma local_scope_ok f o w s o' b w' :
  GetLocalScopeChain f o w = Ret (s, o', b) w' → object_ok w o → scope_ok w' s ∧ object_ok w' o'.
Proof.
  unfold GetLocalScopeChain. destruct (frame_Method f) as [m p]. intros E Ho. step_in E. injection R as <- <-.
  destruct (GetJSPtExtractor (w_vm w) p) as [e|]; [|by injection E as <- <- <- <-].
  step_in E. step_in E. step_in E. apply register_ok in R1 as Hid.
  step_in E. unfold GetLocalVariables in R2.
  pose proof (keeps_run (R := grows) _ _ _ _ (local_variables_keeps _ _ _ _) R2) as G2.
  step_in E. injection R3 as <- <-. step_in E. pose proof (cache_ok _ _ _ _ _ R3 (tagged_ok _ _ _)) as Ht.
  grown R3. step_in E. injection R4 as <- <-. step_in E. injection R4 as <- <-.
  injection E as <- <- <- <-. split; [|done]. case_match; [|done]. intros id [= <-]. by apply G, G2.
Qed.

Lemma closure_variables_ok env info n obj o b c w r w' :
  closure_variables env info n obj o b c w = Ret r w' → object_ok w o → object_ok w' r.1.1.
Proof.
  revert n o b c w. induction info as [|[x slot] rest IH]; intros n o b c w; simpl; [by intros [= <- <-]|].
  destruct (IsVariableSkipped x); [apply IH|]. case_match.
  - intros E Ho. step_in E. injection R as <- <-. step_in E. apply IH in E; [done|].
    apply (cache_ok _ _ _ _ _ R), tagged_ok.
  - intros E Ho. step_in E. apply IH in E; [done|]. grown R. by eapply grows_object.
Qed.

Lemma closure_scopes_ok f src envs o b w r w' :
  closure_scopes f src envs o b w = Ret r w' → object_ok w o → Forall (scope_ok w') r.1 ∧ object_ok w' r.2.
Proof.
  revert o b w r w'. induction envs as [|env rest IH]; intros o b w r w'; simpl; [by intros [= <- <-]|].
  destruct (env_ScopeInfo env) as [info|]; [|apply IH]. intros E Ho. step_in E. grown R.
  step_in E. pose proof (closure_variables_ok _ _ _ _ _ _ _ _ _ _ R0 (grows_object _ _ _ G Ho)) as Ht.
  destruct a0 as [[o1 b1] found]. step_in E. injection R1 as <- <-.
  case_match; [|by apply IH in E].
  step_in E. grown R1. step_in E. apply register_ok in R2 as Hid.
  pose proof (keeps_run (R := grows) _ _ _ _ (register_scope_keeps _ _ _) R2) as G1.
  step_in E. pose proof (keeps_run (R := grows) _ _ _ _ (closure_scopes_keeps _ _ _ _ _) R3) as G2.
  apply IH in R3 as [Hs Hthis]; [|by eapply grows_object, grows_object].
  injection E as <- <-. split; [|done]. constructor; [|done]. intros id [= <-]. by apply G2.
Qed.

Lemma global_scope_ok f w s w' : GetGlobalScopeChain f w = Ret s w' → scope_ok w' s.
Proof.
  unfold GetGlobalScopeChain. intros E. do 4 step_in E. apply register_ok in R2. injection E as <- <-.
  by intros id [= <-].
Qed.

Lemma module_scope_ok f w s w' : GetModuleScopeChain f w = Ret s w' → scope_ok w' s.
Proof.
  unfold GetModuleScopeChain. intros E. do 4 step_in E. apply register_ok in R1. grown R2. injection E as <- <-.
  intros id [= <-]. by apply G.
Qed.

Lemma scope_chains_ok b f p w r w' :
  GenerateScopeChains b f p w = Ret r w' → Forall (scope_ok w') r.1 ∧ object_ok w' r.2.
Proof.
  unfold GenerateScopeChains. destruct b; cbn [negb]; [|by intros [= <- <-]].
  intros E. step_in E. destruct a as [[ls o1] found]. apply local_scope_ok in R as [Hl Ho]; [|by intros id].
  step_in E. destruct a as [cs o2]. unfold GetClosureScopeChains in R.
  assert (Hc : Forall (scope_ok w1) cs ∧ object_ok w1 o2 ∧ grows w0 w1).
  { pose proof (keeps_run (R := grows) _ _ _ _ (GetClosureScopeChains_keeps f o1 found) R) as G.
    destruct (frame_Method f) as [m q]. step_in R. injection R0 as <- <-.
    destruct (GetJSPtExtractor (w_vm w0) q) as [e|]; [|by injection R as <- <- <-].
    step_in R. injection R0 as <- <-. by apply closure_scopes_ok in R as [? ?]. }
  destruct Hc as (Hc & Ho2 & G1). step_in E. injection R0 as <- <-. step_in E.
  assert (Hm : Forall (scope_ok w2) a ∧ grows w1 w2).
  { case_match; [|by injection R0 as <- <-]. step_in R0. injection R0 as <- <-.
    split; [constructor; [by eapply module_scope_ok|done]|].
    by apply (keeps_run (R := grows) _ _ _ _ (GetModuleScopeChain_keeps f) R1). }
  destruct Hm as [Hm G2]. step_in E. apply global_scope_ok in R1 as Hg.
  pose proof (keeps_run (R := grows) _ _ _ _ (GetGlobalScopeChain_keeps f) R1) as G3.
  injection E as <- <-. split; [|by eapply grows_object, grows_object].
  constructor; [by do 3 (eapply grows_object; [done|])|]. rewrite !Forall_app. split_and!.
  - by do 2 (eapply grows_scopes; [done|]).
  - by eapply grows_scopes.
  - by constructor.
Qed.

Lemma call_frame_ok f id b w c w' : GenerateCallFrame f id b w = Ret (Some c) w' → frame_ok w' c.
Proof.
  unfold GenerateCallFrame. destruct (frame_HasFrame f); [|done]. destruct (frame_Method f) as [m p]. cbn [negb].
  intros E. step_in E. injection R as <- <-. destruct (GetJSPtExtractor (w_vm w) p) as [e|]; [|done].
  step_in E. injection R as <- <-. repeat (case_match; [|done]). step_in E. apply scope_chains_ok in R as [Hs Ho].
  injection E as <- <-. split; [done|]. by intros o [= <-].
Qed.

Lemma walk_frames_ok fs cs b w r w' :
  walk_frames fs cs b w = Ret r w' → Forall (frame_ok w) cs → Forall (frame_ok w') r.2.
Proof.
  revert cs w. induction fs as [|f fs IH]; intros cs w; simpl; [by intros [= <- <-]|].
  destruct (frame_IsNativeMethod f); [apply IH|]. intros E Hcs. step_in E.
  pose proof (keeps_run (R := grows) _ _ _ _ (GenerateCallFrame_keeps f _ b) R) as G.
  destruct a as [c|].
  - apply call_frame_ok in R. step_in E. grown R0. apply IH in E; [done|].
    eapply grows_frames; [exact G0|]. apply Forall_app. split; [by eapply grows_frames|by constructor].
  - case_match; [injection E as <- <-|apply IH in E; [done|]]; by eapply grows_frames.
Qed.

(** The frames that are generated name registered objects. *)
Lemma GenerateCallFrames_ok b w r w' : GenerateCallFrames b w = Ret r w' → Forall (frame_ok w') r.2.
Proof. unfold GenerateCallFrames. intros E. step_in E. injection R as <- <-. by apply walk_frames_ok in E. Qed.

End Objects.
