(* ===== verification/DynamicFrames.v ===== *)
(** * Frames of the dynamic language for the static debugger

    Models src/tooling/dynamic/hybrid/dynamic_frame_provider.{h,cpp}: when both
    languages are on the stack, the debugger of the static one asks the debugger
    agent of the dynamic machine for a frame. The provider generates the call frame
    as for a "paused" event ([CallFrames]) and passes it on in the form that both
    debuggers share ([HybridFrames]). *)

From S2P Require Import Prelude Regex Http CppLib Utils ThreadState.
From S2P Require Import PtJson HybridFrames PtCodec PtTypes PtProfile PtSchema PtParams PtEvents PtReturns Dispatcher.
From S2P Require Import DebuggerState SingleStepper CallFrames DebuggerAgent DebuggerHooks DebuggerDispatch DebuggerLogic.
From S2P Require Import PausedObjects.
Local Open Scope Z_scope.
Local Open Scope ark_scope.

(** ** Conversions *)

Definition scope_types : list (bytes * UnifiedScopeType) :=
  [(str "global", US_GLOBAL); (str "local", US_LOCAL); (str "closure", US_CLOSURE); (str "with", US_WITH);
   (str "catch", US_CATCH); (str "block", US_BLOCK); (str "module", US_MODULE)].

Definition ConvertScopeType (typeStr : bytes) : UnifiedScopeType :=
  match list_find (λ p, p.1 = typeStr) scope_types with
  | Some (_, (_, t)) => t
  | None => US_LOCAL
  end.

Definition unified_type_of (typeStr : bytes) : UnifiedType :=
  if decide (typeStr = str "undefined") then U_UNDEFINED
  else if decide (typeStr = str "null") then U_NULL_VALUE
  else if decide (typeStr = str "boolean") then U_BOOLEAN
  else if decide (typeStr = str "number") then U_NUMBER
  else if decide (typeStr = str "string") then U_STRING
  else if decide (typeStr = str "object") then U_OBJECT
  else if decide (typeStr = str "function") then U_FUNCTION
  else U_OBJECT.

(** Both identifiers are unsigned integers of 32 bits. The values of
    primitives are not passed on. *)
Definition ConvertToUnifiedRemoteObject (dynamicObj : RemoteObject) : UnifiedRemoteObject :=
  mkUnifiedRemoteObject (unified_type_of (ro_type_ dynamicObj)) (default [] (ro_className_ dynamicObj))
    (ro_objectId_ dynamicObj) (ro_description_ dynamicObj) None None None.

Definition UnifiedRemoteObject_new : UnifiedRemoteObject := mkUnifiedRemoteObject U_UNDEFINED [] None None None None None.

(** The object of a scope is a null pointer in [null_scope], whose object has no
    type here; it is left as it is initialised. *)
Definition unified_scope_of (dynamicScope : Scope) : UnifiedScope :=
  mkUnifiedScope (ConvertScopeType (sc_type_ dynamicScope))
    (if decide (ro_type_ (sc_object_ dynamicScope) = []) then UnifiedRemoteObject_new
     else ConvertToUnifiedRemoteObject (sc_object_ dynamicScope))
    (sc_name_ dynamicScope).

(** ** The provider *)

Definition ExtractScopeChain (callFrame : CallFrame) (info : UnifiedFrameInfo) : UnifiedFrameInfo :=
  mkUnifiedFrameInfo (uf_methodName info) (uf_sourceFile info) (uf_lineNumber info) (uf_columnNumber info)
    (uf_isStaticFrame info) (uf_hasInfo info) (uf_scopeChain info ++ (unified_scope_of <$> cf_scopeChain_ callFrame))
    (uf_thisObject info) (uf_returnValue info).

(** An object that is not there leaves the member as it was. *)
Definition or_else {A} (o p : option A) : option A := match o with Some _ => o | None => p end.

Section provider.
Context `{EcmaVm} `{HashOrder}.

Definition ExtractBasicInfo (framePtr : option FrameHandler) (info : UnifiedFrameInfo) : D (option (UnifiedFrameInfo * CallFrame)) :=
  match framePtr with
  | None => m_ret None
  | Some frameHandler =>
      if negb (frame_HasFrame frameHandler) then m_ret None
      else
        made <-- GenerateCallFrame frameHandler 0 true ;;
        match made with
        | None => m_ret None
        | Some callFrame =>
            m_ret (Some (mkUnifiedFrameInfo (cf_functionName_ callFrame) (cf_url_ callFrame)
              (loc_lineNumber_ (cf_location_ callFrame)) (default (-1) (loc_columnNumber_ (cf_location_ callFrame)))
              (uf_isStaticFrame info) (uf_hasInfo info) (uf_scopeChain info) (uf_thisObject info) (uf_returnValue info), callFrame))
        end
  end.

Definition DynamicFrameProvider_ExtractFrameInfo (framePtr : option FrameHandler) (info : UnifiedFrameInfo) : D (bool * UnifiedFrameInfo) :=
  basic <-- ExtractBasicInfo framePtr info ;;
  match basic with
  | None => m_ret (false, set_frame_flags (uf_isStaticFrame info) false info)
  | Some (info, callFrame) =>
      let info := ExtractScopeChain callFrame info in
      m_ret (true, mkUnifiedFrameInfo (uf_methodName info) (uf_sourceFile info) (uf_lineNumber info) (uf_columnNumber info)
        false true (uf_scopeChain info)
        (or_else (ConvertToUnifiedRemoteObject <$> cf_this_ callFrame) (uf_thisObject info))
        (or_else (ConvertToUnifiedRemoteObject <$> cf_returnValue_ callFrame) (uf_returnValue info)))
  end.

(** ** What the other debugger sees *)

Definition object_known (w : world) (o : UnifiedRemoteObject) : Prop := ∀ id, uo_objectId o = Some id → registered w id.

Lemma converted_known w o : object_ok w o → object_known w (ConvertToUnifiedRemoteObject o).
Proof. done. Qed.

Lemma scopes_known w l : Forall (scope_ok w) l → Forall (λ u, object_known w (us_object u)) (unified_scope_of <$> l).
Proof.
  intros Hl. apply Forall_fmap. eapply Forall_impl; [exact Hl|]. intros s Hs. simpl. case_decide; [by intros id|].
  by apply converted_known.
Qed.

#[local] Existing Instance scopes_only_frame.

(** A generated frame has a column and no value that is returned. *)
Lemma call_frame_shape f id b w c w' :
  GenerateCallFrame f id b w = Ret (Some c) w' → is_Some (loc_columnNumber_ (cf_location_ c)) ∧ cf_returnValue_ c = None.
Proof.
  unfold GenerateCallFrame. destruct (frame_HasFrame f); [|done]. destruct (frame_Method f) as [m p]. cbn [negb].
  intros (a & w1 & [= <- <-] & E)%m_bind_inv. destruct (GetJSPtExtractor (w_vm w) p) as [e|]; [|done].
  apply m_bind_inv in E as (? & w1 & [= <- <-] & E). repeat (case_match; [|done]).
  apply m_bind_inv in E as (? & w1 & _ & E). by injection E as <- <-.
Qed.

Lemma GenerateCallFrame_returns f id b : returns (GenerateCallFrame f id b).
Proof. pose proof GenerateScopeChains_returns. unfold GenerateCallFrame, GetExtractor. return_all. Qed.

(** The debugger of the static language always gets an answer. Either it is told
    that there is no information, and nothing else; or it gets the function, the
    file and the position of the call frame that the agent generates, its scopes in
    the same order, and objects with identifiers that the runtime agent can look
    up. Asking changes nothing in the agent but the objects of the scopes and sends
    nothing to the client. The hypothesis: the machine describes a value without an
    identifier, which only the agent gives. *)
Theorem dynamic_frame_passed
    (tagged_plain : ∀ v x, ro_objectId_ (FromTagged v x) = None) (framePtr : option FrameHandler) (w : world) :
  ∃ ok info w', DynamicFrameProvider_ExtractFrameInfo framePtr UnifiedFrameInfo_new w = Ret (ok, info) w' ∧
    scopes_only w w' ∧ uf_hasInfo info = ok ∧ uf_isStaticFrame info = false ∧
    (ok = false → info = UnifiedFrameInfo_new) ∧
    (ok = true → ∃ f c, framePtr = Some f ∧ GenerateCallFrame f 0 true w = Ret (Some c) w' ∧
      uf_methodName info = cf_functionName_ c ∧ uf_sourceFile info = cf_url_ c ∧
      uf_lineNumber info = loc_lineNumber_ (cf_location_ c) ∧ Some (uf_columnNumber info) = loc_columnNumber_ (cf_location_ c) ∧
      us_type <$> uf_scopeChain info = ConvertScopeType ∘ sc_type_ <$> cf_scopeChain_ c ∧
      Forall (λ u, object_known w' (us_object u)) (uf_scopeChain info) ∧
      (∀ o, uf_thisObject info = Some o → object_known w' o)).
Proof.
  assert (Hr : scopes_only w w) by (split; [exists (scopeObjects_ (w_dbg w)); by destruct (w_dbg w)|done]).
  unfold DynamicFrameProvider_ExtractFrameInfo, ExtractBasicInfo.
  destruct framePtr as [f|]; [|by exists false, UnifiedFrameInfo_new, w].
  destruct (frame_HasFrame f) eqn:Hf; [|by exists false, UnifiedFrameInfo_new, w]. cbn [negb].
  destruct (GenerateCallFrame_returns f 0 true w) as (made & w' & E).
  pose proof (keeps_run (R := scopes_only) _ _ _ _ (GenerateCallFrame_keeps f 0 true) E) as Hs.
  unfold m_bind at 1. unfold m_bind at 1. rewrite E. destruct made as [c|]; [|by exists false, UnifiedFrameInfo_new, w'].
  destruct (call_frame_shape _ _ _ _ _ _ E) as [[column Hc] Hret]. pose proof E as Hok; apply (call_frame_ok tagged_plain) in Hok as [Hsc Hthis].
  eexists true, _, w'. split; [reflexivity|]. split_and!; [done|done|done|done|]. intros _. exists f, c. cbn.
  rewrite Hc. split_and!; try done.
  - by rewrite <- list_fmap_compose.
  - by apply scopes_known.
  - intros o. destruct (cf_this_ c) as [t|]; [|done]. intros [= <-]. by apply converted_known, Hthis.
Qed.

End provider.

(** A type is passed on as it is, where the shared form has it; the null value is
    not one of the types that objects have, so that it is passed on as an object. *)
Lemma null_passed_as_object (o : RemoteObject) :
  ObjectType_Valid (ro_type_ o) = true → uo_type (ConvertToUnifiedRemoteObject o) ≠ U_NULL_VALUE.
Proof.
  destruct o as [t ? ? ? ? ? ?]. cbn. unfold unified_type_of. intros Hv. repeat case_decide; try done. by subst.
Qed.

(** The way there and back keeps the identifier, the class, the description and
    the type of a value of these types. *)
Lemma converted_back (o : RemoteObject) :
  ro_type_ o ∈ str <$> ["object"; "function"; "undefined"; "string"; "number"; "boolean"]%string →
  let o' := ConvertFromUnifiedRemoteObject (ConvertToUnifiedRemoteObject o) in
  ro_type_ o' = ro_type_ o ∧ ro_objectId_ o' = ro_objectId_ o ∧ ro_description_ o' = ro_description_ o ∧
  ro_className_ o' = Some (default [] (ro_className_ o)).
Proof.
  destruct o as [t ? ? ? d ? ?]. cbn [ro_type_]. rewrite list_elem_of_In. simpl.
  intros Ht. destruct_or?; subst; try done; by destruct d.
Qed.
