(* ===== verification/RuntimeAgent.v ===== *)
(** * The runtime agent

    [RuntimeImpl] of tooling/dynamic/agent/runtime_impl.{h,cpp} is the agent of
    the domain "Runtime". It shows the properties of the objects that the client
    has got ids for: for a plain object its own properties, for a container, a
    typed array, a promise and the like what they hold. A request may ask for a
    range of the properties.

    What is asked of values is the class [JsApi]; reading an object does not
    change the machine, making one does. *)

From S2P Require Import Prelude Regex Http CppLib Utils ThreadState.
From S2P Require Import PtJson PtCodec PtTypes PtProfile PtSchema PtParams PtEvents PtReturns Dispatcher.
From S2P Require Import DebuggerState CallFrames DebuggerAgent DebuggerHooks DebuggerDispatch PausedObjects.
Local Open Scope Z_scope.
Local Open Scope ark_scope.

(** The tests that [GetProperties] makes, in the order of the code. *)
Inductive ValueKind :=
| IsTypedArray | IsSharedTypedArray | IsArrayBuffer | IsSharedArrayBuffer | IsProxy | IsMapIterator | IsSetIterator
| IsJSPrimitiveNumber | IsJSPrimitiveString | IsJSPrimitiveBoolean | IsGeneratorFunction | IsGeneratorObject
| IsJSNumberFormat | IsJSCollator | IsJSDateTimeFormat | IsSharedMap | IsMap | IsWeakMap | IsRegExp | IsSharedSet
| IsSet | IsWeakSet | IsDataView | IsHashMap | IsHashSet | IsLightWeightMap | IsLightWeightSet | IsLinkedList
| IsList | IsPlainArray | IsTreeMap | IsTreeSet | IsArrayList | IsDeque | IsQueue | IsStack | IsVector | IsPromise.

Definition kind_tests : list ValueKind :=
  [IsTypedArray; IsSharedTypedArray; IsArrayBuffer; IsSharedArrayBuffer; IsProxy; IsMapIterator; IsSetIterator;
   IsJSPrimitiveNumber; IsJSPrimitiveString; IsJSPrimitiveBoolean; IsGeneratorFunction; IsGeneratorObject;
   IsJSNumberFormat; IsJSCollator; IsJSDateTimeFormat; IsSharedMap; IsMap; IsWeakMap; IsRegExp; IsSharedSet;
   IsSet; IsWeakSet; IsDataView; IsHashMap; IsHashSet; IsLightWeightMap; IsLightWeightSet; IsLinkedList;
   IsList; IsPlainArray; IsTreeMap; IsTreeSet; IsArrayList; IsDeque; IsQueue; IsStack; IsVector; IsPromise].

Inductive ArrayType :=
| Int8Array | Uint8Array | Uint8ClampedArray | Int16Array | Uint16Array | Int32Array | Uint32Array
| Float32Array | Float64Array | BigInt64Array | BigUint64Array.

(** The marks of objects the debugger has made itself. *)
Inductive ArkInternalValueType := InternalEntry | InternalScope | InternalOther.

(** [PropertyAttribute]: an absent part is [None]. *)
Record PropertyAttribute (V : Type) := mkPropertyAttribute {
  at_value : option V;
  at_writable : option bool;
  at_getter : option V;
  at_setter : option V;
  at_configurable : bool;
  at_enumerable : bool }.
Arguments at_value {V}.
Arguments at_writable {V}.
Arguments at_getter {V}.
Arguments at_setter {V}.
Arguments at_configurable {V}.
Arguments at_enumerable {V}.

Class JsApi `{EcmaVm} := {
  (** The map [internalObjects_] of the marks, a handle into the machine. *)
  InternalObjects_New : vm → vm;
  InternalObjects_Free : vm → vm;
  InternalObjects_IsEmpty : vm → bool;
  InternalObjects_Get : vm → JSValue → option ArkInternalValueType;   (* [None]: not a number *)
  AddEntryMark : JSValue → vm → vm;

  IsEmptyHandle : JSValue → bool;
  is_kind : ValueKind → vm → JSValue → bool;
  IsJSPrimitiveRef : vm → JSValue → bool;
  IsConstructor : vm → JSValue → bool;
  IsSymbol : vm → JSValue → bool;
  ToObject : vm → JSValue → option JSValue;                           (* [None]: an empty handle *)
  ToNumber : vm → JSValue → JSValue;
  ToString : vm → JSValue → JSValue;
  StringValue : vm → JSValue → bytes;                                 (* of a name that is no symbol *)
  SymbolDescription : vm → JSValue → bytes;
  PrimitiveValue : vm → JSValue → JSValue;
  GetFunctionPrototype : vm → JSValue → JSValue;
  GetPrototype : vm → JSValue → JSValue;
  GetOwnPropertyNames : vm → JSValue → list JSValue;
  GetOwnProperty : vm → JSValue → JSValue → option (PropertyAttribute JSValue);

  (** Typed arrays and buffers. *)
  TypedArray_New : ArrayType → JSValue → Z → Z → vm → JSValue * vm;
  TypedArray_Length : ValueKind → vm → JSValue → Z;
  TypedArray_Get : ValueKind → vm → JSValue → Z → JSValue;
  ArrayBuffer_ByteLength : vm → JSValue → Z;
  DataView_ByteLength : vm → JSValue → Z;
  DataView_ByteOffset : vm → JSValue → Z;
  DataView_GetArrayBuffer : vm → JSValue → JSValue;

  (** Maps and sets: the size, and the table with its holes. *)
  GetSize : ValueKind → vm → JSValue → Z;
  GetTotalElements : ValueKind → vm → JSValue → Z;
  GetKey : ValueKind → vm → JSValue → Z → JSValue;
  GetValue : ValueKind → vm → JSValue → Z → JSValue;
  Array_New : Z → vm → JSValue * vm;
  Array_SetValueAt : JSValue → Z → JSValue → vm → vm;
  Object_Set : JSValue → bytes → JSValue → vm → vm;

  (** [DebuggerApi] for the containers. *)
  Container_Get : ValueKind → JSValue → vm → JSValue * vm;
  Container_GetWithRange : ValueKind → JSValue → Z → Z → vm → (JSValue * Z) * vm;
  GetContainerLength : vm → JSValue → Z;

  (** Parts of the other objects. *)
  Iterator_Index : ValueKind → vm → JSValue → Z;
  Iterator_Kind : ValueKind → vm → JSValue → JSValue;
  IsGenerator : vm → JSValue → bool;
  GetGeneratorState : vm → JSValue → JSValue;
  GetGeneratorFunction : vm → JSValue → JSValue;
  GlobalObjectOf : vm → JSValue → JSValue;
  GetFormatFunction : ValueKind → vm → JSValue → JSValue;
  GetCompareFunction : vm → JSValue → JSValue;
  RegExp_IsGlobal : vm → JSValue → JSValue;
  RegExp_IsIgnoreCase : vm → JSValue → JSValue;
  RegExp_IsMultiline : vm → JSValue → JSValue;
  RegExp_IsDotAll : vm → JSValue → JSValue;
  RegExp_IsUtf16 : vm → JSValue → JSValue;
  RegExp_IsStick : vm → JSValue → JSValue;
  RegExp_Flags : vm → JSValue → bytes;
  RegExp_Source : vm → JSValue → bytes;
  Proxy_GetTarget : vm → JSValue → JSValue;
  Proxy_GetHandler : vm → JSValue → JSValue;
  Proxy_IsRevoked : vm → JSValue → bool;
  GetPromiseState : vm → JSValue → JSValue;
  GetPromiseResult : vm → JSValue → JSValue;

  GetHeapTotalSize : vm → double;
  GetHeapUsedSize : vm → double }.

Section Runtime.
Context `{JsApi} `{SignedOverflow} `{HashOrder}.

Definition kind_test (v : vm) (value : JSValue) (kind : ValueKind) : bool :=
  match kind with
  | IsJSPrimitiveNumber | IsJSPrimitiveString | IsJSPrimitiveBoolean => IsJSPrimitiveRef v value && is_kind kind v value
  | _ => is_kind kind v value
  end.

(** The branch that is taken; [None] is a plain object. *)
Definition value_kind (v : vm) (value : JSValue) : option ValueKind :=
  snd <$> list_find (λ kind, kind_test v value kind = true) kind_tests.

(** ** Descriptions *)

(** The number in the parentheses is replaced. *)
Definition ModifySizeInDescription (description : bytes) (size : Z) : bytes :=
  match list_find (λ c, c = 40) description with
  | None => description
  | Some (l, _) =>
      match list_find (λ c, c = 41) (drop (l + 1) description) with
      | None => description
      | Some (r, _) => take (l + 1) description ++ to_string size ++ drop (l + 1 + r) description
      end
  end.

Definition SetDescription (d : bytes) (o : RemoteObject) : RemoteObject :=
  mkRemoteObject (ro_type_ o) (ro_subType_ o) (ro_className_ o) (ro_unserializableValue_ o) (Some d)
    (ro_objectId_ o) (ro_arrayOrContainer_ o).

Definition NO_NEED_TO_ADJUST_SIZE : Z := 0.

Definition SetKeyValue (jsValueRef : JSValue) (strProName : string) (originalSize : Z) : D PropertyDescriptor :=
  remoteObj <-- ask (λ v, FromTagged v jsValueRef) ;;
  let remoteObj :=
    match ro_description_ remoteObj with
    | Some description =>
        if originalSize =? NO_NEED_TO_ADJUST_SIZE then remoteObj
        else SetDescription (ModifySizeInDescription description originalSize) remoteObj
    | None => remoteObj
    end in
  id <-- alloc_object jsValueRef ;;
  m_ret (mkPropertyDescriptor (str strProName) (Some (SetObjectId id remoteObj)) (Some false) None None false false
           None (Some false) None).

(** [SetKeyValue] for each value in turn. *)
Fixpoint key_values (l : list (string * JSValue)) : D (list PropertyDescriptor) :=
  match l with
  | [] => m_ret []
  | (name, value) :: rest =>
      d <-- SetKeyValue value name NO_NEED_TO_ADJUST_SIZE ;;
      ds <-- key_values rest ;;
      m_ret (d :: ds)
  end.

(** ** Ranges *)

(** Returns the adjusted [start] and [end]. *)
Definition AdjustStartAndLength (params : GetPropertiesParams) (start end_ : Z) : Z * Z :=
  match gp_startIndex_ params, gp_groupCount_ params with
  | Some startIndex, Some groupCount =>
      if negb (IsValidRequestUsingRange params) then (start, end_)
      else if end_ <=? startIndex then (start, end_)
      else
        let start := startIndex in
        (start, if int32_add start groupCount <=? end_ then int32_add start groupCount else end_)
  | _, _ => (start, end_)
  end.

(** The indices of [for (i = start; i < end; ++i)]. *)
Definition indices (range : Z * Z) : list Z := seqZ range.1 (range.2 - range.1).

(** ** Buffers and typed arrays *)

Definition own_property (name : bytes) (value : RemoteObject) (writable configurable enumerable : bool)
    : PropertyDescriptor :=
  mkPropertyDescriptor name (Some value) (Some writable) None None configurable enumerable None (Some true) None.

Definition AddTypedArrayRef (type : ArrayType) (arrayBufferRef : JSValue) (length : Z) (name : string)
    : D PropertyDescriptor :=
  jsValueRefTypedArray <-- call (TypedArray_New type arrayBufferRef 0 length) ;;
  remoteObjectTypedArray <-- ask (λ v, FromTagged v jsValueRefTypedArray) ;;
  id <-- alloc_object jsValueRefTypedArray ;;
  m_ret (own_property (str name) (SetObjectId id remoteObjectTypedArray) true true false).

Fixpoint typed_array_refs (l : list (ArrayType * string)) (arrayBufferRef : JSValue) (length : Z)
    : D (list PropertyDescriptor) :=
  match l with
  | [] => m_ret []
  | (type, name) :: rest =>
      d <-- AddTypedArrayRef type arrayBufferRef length name ;;
      ds <-- typed_array_refs rest arrayBufferRef length ;;
      m_ret (d :: ds)
  end.

(** The views whose elements have [size] bytes, if they fit. *)
Definition views (l : list (ArrayType * string)) (arrayBufferRef : JSValue) (byteLength size : Z)
    : D (list PropertyDescriptor) :=
  if Z.rem byteLength size =? 0 then typed_array_refs l arrayBufferRef (Z.quot byteLength size) else m_ret [].

Definition AddTypedArrayRefs (arrayBufferRef : JSValue) : D (list PropertyDescriptor) :=
  byteLength <-- ask (λ v, ArrayBuffer_ByteLength v arrayBufferRef) ;;
  d1 <-- typed_array_refs [(Int8Array, "[[Int8Array]]"); (Uint8Array, "[[Uint8Array]]");
           (Uint8ClampedArray, "[[Uint8ClampedArray]]")]%string arrayBufferRef byteLength ;;
  d2 <-- views [(Int16Array, "[[Int16Array]]"); (Uint16Array, "[[Uint16Array]]")]%string arrayBufferRef byteLength 2 ;;
  d3 <-- views [(Int32Array, "[[Int32Array]]"); (Uint32Array, "[[Uint32Array]]");
           (Float32Array, "[[Float32Array]]")]%string arrayBufferRef byteLength 4 ;;
  d4 <-- views [(Float64Array, "[[Float64Array]]"); (BigInt64Array, "[[BigInt64Array]]");
           (BigUint64Array, "[[BigUint64Array]]")]%string arrayBufferRef byteLength 8 ;;
  m_ret (d1 ++ d2 ++ d3 ++ d4).

Definition AddSharedArrayBufferRefs (arrayBufferRef : JSValue) : D (list PropertyDescriptor) :=
  byteLength <-- ask (λ v, ArrayBuffer_ByteLength v arrayBufferRef) ;;
  d1 <-- typed_array_refs [(Int8Array, "[[Int8Array]]"); (Uint8Array, "[[Uint8Array]]")]%string
           arrayBufferRef byteLength ;;
  d2 <-- views [(Int16Array, "[[Int16Array]]")]%string arrayBufferRef byteLength 2 ;;
  d3 <-- views [(Int32Array, "[[Int32Array]]")]%string arrayBufferRef byteLength 4 ;;
  d4 <-- key_values [("[[ArrayBufferByteLength]]", NewNumber byteLength); ("byteLength", NewNumber byteLength)]%string ;;
  m_ret (d1 ++ d2 ++ d3 ++ d4).

(** The loop of [GetTypedArrayValueCommon]. *)
Fixpoint typed_array_elements (kind : ValueKind) (value : JSValue) (l : list Z) : D (list PropertyDescriptor) :=
  match l with
  | [] => m_ret []
  | i :: rest =>
      elementRef <-- ask (λ v, TypedArray_Get kind v value i) ;;
      o <-- ask (λ v, FromTagged v elementRef) ;;
      o' <-- CacheObjectIfNeeded elementRef o ;;
      ds <-- typed_array_elements kind value rest ;;
      m_ret (own_property (to_string i) o' true true true :: ds)
  end.

Definition GetTypedArrayValueCommon (kind : ValueKind) (value : JSValue) (params : GetPropertiesParams)
    : D (list PropertyDescriptor) :=
  arrayLength <-- ask (λ v, TypedArray_Length kind v value) ;;
  typed_array_elements kind value (indices (AdjustStartAndLength params 0 (uint32_to_int32 arrayLength))).

(** ** Prototypes *)

Definition prototype_property (name : string) (proto : JSValue) (writable configurable : bool) : D PropertyDescriptor :=
  protoObj <-- ask (λ v, FromTagged v proto) ;;
  protoObj' <-- CacheObjectIfNeeded proto protoObj ;;
  m_ret (own_property (str name) protoObj' writable configurable false).

Definition GetProtoOrProtoType (value : JSValue) (isOwn isAccessorOnly : bool) : D (list PropertyDescriptor) :=
  if negb isAccessorOnly && isOwn then m_ret []
  else
    isConstructor <-- ask (λ v, IsConstructor v value) ;;
    d1 <-- (if isConstructor : bool then
              prototype <-- ask (λ v, GetFunctionPrototype v value) ;;
              d <-- prototype_property "prototype" prototype false false ;;
              m_ret [d]
            else m_ret []) ;;
    proto <-- ask (λ v, GetPrototype v value) ;;
    d2 <-- prototype_property "__proto__" proto true true ;;
    m_ret (d1 ++ [d2]).

(** ** Maps and sets *)

(** A use of an empty handle ends the process. *)
Definition as_object {A} (value : JSValue) (k : JSValue → D A) : D A :=
  o <-- ask (λ v, ToObject v value) ;;
  match o with Some object => k object | None => λ w, Throw w end.

(** The object of an entry. *)
Definition entry_object (fields : list (string * JSValue)) : D JSValue :=
  objRef <-- call NewObject ;;
  for_each (λ f, tell (Object_Set objRef (str f.1) f.2)) fields ;;;
  tell (AddEntryMark objRef) ;;;
  m_ret objRef.

(** The loops over the table: [index] is where the next entry goes. *)
Fixpoint map_entries (kind : ValueKind) (mapRef array : JSValue) (index : Z) (l : list Z) : D () :=
  match l with
  | [] => m_ret ()
  | i :: rest =>
      key <-- ask (λ v, GetKey kind v mapRef i) ;;
      if IsHole key then map_entries kind mapRef array index rest
      else
        value <-- ask (λ v, GetValue kind v mapRef i) ;;
        objRef <-- entry_object [("key", key); ("value", value)]%string ;;
        tell (Array_SetValueAt array index objRef) ;;;
        map_entries kind mapRef array (index + 1) rest
  end.

Fixpoint set_elements (kind : ValueKind) (setRef array : JSValue) (index : Z) (l : list Z) : D () :=
  match l with
  | [] => m_ret ()
  | i :: rest =>
      elementRef <-- ask (λ v, GetValue kind v setRef i) ;;
      if IsHole elementRef then set_elements kind setRef array index rest
      else
        isObject <-- ask (λ v, IsObjectValue v elementRef) ;;
        element <-- (if isObject : bool then entry_object [("value"%string, elementRef)] else m_ret elementRef) ;;
        tell (Array_SetValueAt array index element) ;;;
        set_elements kind setRef array (index + 1) rest
  end.

(** The common form of [GetMapValueCommon], [GetSetValueCommon] and their
    variants for a range; [fill] is the loop. *)
Definition collection_values (kind : ValueKind) (ref : JSValue) (params : GetPropertiesParams) (desc : string)
    (fill : ValueKind → JSValue → JSValue → Z → list Z → D ()) : D (list PropertyDescriptor) :=
  size <-- ask (λ v, GetSize kind v ref) ;;
  len <-- ask (λ v, GetTotalElements kind v ref) ;;
  d1 <-- SetKeyValue (NewNumber size) "size" NO_NEED_TO_ADJUST_SIZE ;;
  let withRange := IsValidRequestUsingRange params in
  let range := if withRange then AdjustStartAndLength params 0 (uint32_to_int32 len) else (0, len) in
  array <-- call (Array_New (if withRange then range.2 - range.1 else size)) ;;
  fill kind ref array 0 (indices range) ;;;
  tell (AddEntryMark array) ;;;
  d2 <-- SetKeyValue array desc (if withRange then size else NO_NEED_TO_ADJUST_SIZE) ;;
  m_ret [d1; d2].

Definition GetMapValueCommon (kind : ValueKind) (ref : JSValue) (params : GetPropertiesParams) (desc : string) :=
  collection_values kind ref params desc map_entries.
Definition GetSetValueCommon (kind : ValueKind) (ref : JSValue) (params : GetPropertiesParams) (desc : string) :=
  collection_values kind ref params desc set_elements.

(** ** Containers of the runtime library *)

(** The common form of [GetArrayListValue], [GetDequeValue], ..., [GetVectorValue]. *)
Definition container_values (kind : ValueKind) (value : JSValue) (params : GetPropertiesParams) (desc : string)
    : D (list PropertyDescriptor) :=
  match IsValidRequestUsingRange params, gp_startIndex_ params, gp_groupCount_ params with
  | true, Some startIndex, Some groupCount =>
      r <-- call (Container_GetWithRange kind value startIndex groupCount) ;;
      let '(jsValueRef, originalSize) := r in
      d1 <-- SetKeyValue (NewNumber originalSize) "size" NO_NEED_TO_ADJUST_SIZE ;;
      d2 <-- SetKeyValue jsValueRef desc originalSize ;;
      m_ret [d1; d2]
  | _, _, _ =>
      jsValueRef <-- call (Container_Get kind value) ;;
      size <-- ask (λ v, GetContainerLength v jsValueRef) ;;
      d1 <-- SetKeyValue (NewNumber size) "size" NO_NEED_TO_ADJUST_SIZE ;;
      d2 <-- SetKeyValue jsValueRef desc NO_NEED_TO_ADJUST_SIZE ;;
      m_ret [d1; d2]
  end.

(** ** Other objects *)

Definition GetIteratorValueCommon (kind : ValueKind) (value : JSValue) : D (list PropertyDescriptor) :=
  o <-- ask (λ v, ToObject v value) ;;
  match o with
  | None => m_ret []
  | Some iterRef =>
      index <-- ask (λ v, Iterator_Index kind v iterRef) ;;
      iterKind <-- ask (λ v, Iterator_Kind kind v iterRef) ;;
      key_values [("[[IteratorIndex]]", NewNumber index); ("[[IteratorKind]]", iterKind)]%string
  end.

Definition GetPrimitiveNumberValue (value : JSValue) : D (list PropertyDescriptor) :=
  x <-- ask (λ v, ToNumber v value) ;; key_values [("[[PrimitiveValue]]"%string, x)].
Definition GetPrimitiveStringValue (value : JSValue) : D (list PropertyDescriptor) :=
  x <-- ask (λ v, ToString v value) ;; key_values [("[[PrimitiveValue]]"%string, x)].
Definition GetPrimitiveBooleanValue (value : JSValue) : D (list PropertyDescriptor) :=
  x <-- ask (λ v, PrimitiveValue v value) ;; key_values [("[[PrimitiveValue]]"%string, x)].

Definition GetGeneratorFunctionValue (value : JSValue) : D (list PropertyDescriptor) :=
  o <-- ask (λ v, ToObject v value) ;;
  match o with
  | None => m_ret []
  | Some genFuncRef => b <-- ask (λ v, IsGenerator v genFuncRef) ;; key_values [("[[IsGenerator]]"%string, BoolValue b)]
  end.

Definition GetGeneratorObjectValue (value : JSValue) : D (list PropertyDescriptor) :=
  o <-- ask (λ v, ToObject v value) ;;
  match o with
  | None => m_ret []
  | Some genObjRef =>
      state <-- ask (λ v, GetGeneratorState v genObjRef) ;;
      function <-- ask (λ v, GetGeneratorFunction v genObjRef) ;;
      receiver <-- ask (λ v, GlobalObjectOf v (GetCurrentGlobalEnv v)) ;;
      key_values [("[[GeneratorState]]", state); ("[[GeneratorFunction]]", function);
                  ("[[GeneratorReceiver]]", receiver)]%string
  end.

(** [GetNumberFormatValue] and [GetDateTimeFormatValue]. *)
Definition GetFormatValue (kind : ValueKind) (value : JSValue) : D (list PropertyDescriptor) :=
  as_object value (λ ref, x <-- ask (λ v, GetFormatFunction kind v ref) ;; key_values [("format"%string, x)]).
Definition GetCollatorValue (value : JSValue) : D (list PropertyDescriptor) :=
  as_object value (λ ref, x <-- ask (λ v, GetCompareFunction v ref) ;; key_values [("compare"%string, x)]).

Definition GetDataViewValue (value : JSValue) : D (list PropertyDescriptor) :=
  as_object value (λ dataViewRef,
    byteLength <-- ask (λ v, DataView_ByteLength v dataViewRef) ;;
    byteOffset <-- ask (λ v, DataView_ByteOffset v dataViewRef) ;;
    buffer <-- ask (λ v, DataView_GetArrayBuffer v dataViewRef) ;;
    key_values [("buffer", buffer); ("byteLength", NewNumber (uint32_to_int32 byteLength));
                ("byteOffset", NewNumber (uint32_to_int32 byteOffset))]%string).

(** "hasIndices" gets the value of "dotAll" once more. *)
Definition GetRegExpValue (value : JSValue) : D (list PropertyDescriptor) :=
  as_object value (λ regExpRef,
    l <-- ask (λ v,
      [("global", RegExp_IsGlobal v regExpRef); ("ignoreCase", RegExp_IsIgnoreCase v regExpRef);
       ("multiline", RegExp_IsMultiline v regExpRef); ("dotAll", RegExp_IsDotAll v regExpRef);
       ("hasIndices", RegExp_IsDotAll v regExpRef); ("unicode", RegExp_IsUtf16 v regExpRef);
       ("sticky", RegExp_IsStick v regExpRef); ("flags", NewString (c_str (RegExp_Flags v regExpRef)));
       ("source", NewString (c_str (RegExp_Source v regExpRef)))]%string) ;;
    key_values l).

Definition GetProxyValue (value : JSValue) : D (list PropertyDescriptor) :=
  o <-- ask (λ v, ToObject v value) ;;
  match o with
  | None => m_ret []
  | Some proxyRef =>
      l <-- ask (λ v, [("[[Target]]", Proxy_GetTarget v proxyRef); ("[[Handler]]", Proxy_GetHandler v proxyRef);
                       ("[[IsRevoked]]", BoolValue (Proxy_IsRevoked v proxyRef))]%string) ;;
      key_values l
  end.

Definition GetPromiseValue (value : JSValue) : D (list PropertyDescriptor) :=
  o <-- ask (λ v, ToObject v value) ;;
  match o with
  | None => m_ret []
  | Some promiseRef =>
      l <-- ask (λ v, [("[[PromiseState]]", GetPromiseState v promiseRef);
                       ("[[PromiseResult]]", GetPromiseResult v promiseRef)]%string) ;;
      key_values l
  end.

(** ** The functions by type *)

Definition GetTypedArrayValue (value : JSValue) (params : GetPropertiesParams) := GetTypedArrayValueCommon IsTypedArray value params.
Definition GetSharedTypedArrayValue (value : JSValue) (params : GetPropertiesParams) :=
  GetTypedArrayValueCommon IsSharedTypedArray value params.
Definition GetMapIteratorValue (value : JSValue) := GetIteratorValueCommon IsMapIterator value.
Definition GetSetIteratorValue (value : JSValue) := GetIteratorValueCommon IsSetIterator value.
Definition GetNumberFormatValue (value : JSValue) := GetFormatValue IsJSNumberFormat value.
Definition GetDateTimeFormatValue (value : JSValue) := GetFormatValue IsJSDateTimeFormat value.

Definition GetSharedMapValue (value : JSValue) (params : GetPropertiesParams) :=
  GetMapValueCommon IsSharedMap value params "[[SendableMap]]".
Definition GetMapValue (value : JSValue) (params : GetPropertiesParams) :=
  as_object value (λ mapRef, GetMapValueCommon IsMap mapRef params "[[Map]]").
Definition GetWeakMapValue (value : JSValue) (params : GetPropertiesParams) :=
  as_object value (λ weakMapRef, GetMapValueCommon IsWeakMap weakMapRef params "[[WeakMap]]").
Definition GetSendableSetValue (value : JSValue) (params : GetPropertiesParams) :=
  as_object value (λ setRef, GetSetValueCommon IsSharedSet setRef params "[[SendableSet]]").
Definition GetSetValue (value : JSValue) (params : GetPropertiesParams) :=
  as_object value (λ setRef, GetSetValueCommon IsSet setRef params "[[Set]]").
Definition GetWeakSetValue (value : JSValue) (params : GetPropertiesParams) :=
  as_object value (λ weakSetRef, GetSetValueCommon IsWeakSet weakSetRef params "[[WeakSet]]").

Definition GetHashMapValue (value : JSValue) (params : GetPropertiesParams) := container_values IsHashMap value params "[[HashMap]]".
Definition GetHashSetValue (value : JSValue) (params : GetPropertiesParams) := container_values IsHashSet value params "[[HashSet]]".
Definition GetLightWeightMapValue (value : JSValue) (params : GetPropertiesParams) := container_values IsLightWeightMap value params "[[LightWeightMap]]".
Definition GetLightWeightSetValue (value : JSValue) (params : GetPropertiesParams) := container_values IsLightWeightSet value params "[[LightWeightSet]]".
Definition GetLinkedListValue (value : JSValue) (params : GetPropertiesParams) := container_values IsLinkedList value params "[[LinkedList]]".
Definition GetListValue (value : JSValue) (params : GetPropertiesParams) := container_values IsList value params "[[List]]".
Definition GetPlainArrayValue (value : JSValue) (params : GetPropertiesParams) := container_values IsPlainArray value params "[[PlainArray]]".
Definition GetTreeMapValue (value : JSValue) (params : GetPropertiesParams) := container_values IsTreeMap value params "[[TreeMap]]".
Definition GetTreeSetValue (value : JSValue) (params : GetPropertiesParams) := container_values IsTreeSet value params "[[TreeSet]]".
Definition GetArrayListValue (value : JSValue) (params : GetPropertiesParams) := container_values IsArrayList value params "[[ArrayList]]".
Definition GetDequeValue (value : JSValue) (params : GetPropertiesParams) := container_values IsDeque value params "[[Deque]]".
Definition GetQueueValue (value : JSValue) (params : GetPropertiesParams) := container_values IsQueue value params "[[Queue]]".
Definition GetStackValue (value : JSValue) (params : GetPropertiesParams) := container_values IsStack value params "[[Stack]]".
Definition GetVectorValue (value : JSValue) (params : GetPropertiesParams) := container_values IsVector value params "[[Vector]]".

(** What an object holds besides its own properties. *)
Definition special_values (kind : ValueKind) (value : JSValue) (params : GetPropertiesParams)
    : D (list PropertyDescriptor) :=
  match kind with
  | IsTypedArray => GetTypedArrayValue value params
  | IsSharedTypedArray => GetSharedTypedArrayValue value params
  | IsArrayBuffer => AddTypedArrayRefs value
  | IsSharedArrayBuffer => AddSharedArrayBufferRefs value
  | IsProxy => GetProxyValue value
  | IsMapIterator => GetMapIteratorValue value
  | IsSetIterator => GetSetIteratorValue value
  | IsJSPrimitiveNumber => GetPrimitiveNumberValue value
  | IsJSPrimitiveString => GetPrimitiveStringValue value
  | IsJSPrimitiveBoolean => GetPrimitiveBooleanValue value
  | IsGeneratorFunction => GetGeneratorFunctionValue value
  | IsGeneratorObject => GetGeneratorObjectValue value
  | IsJSNumberFormat => GetNumberFormatValue value
  | IsJSCollator => GetCollatorValue value
  | IsJSDateTimeFormat => GetDateTimeFormatValue value
  | IsSharedMap => GetSharedMapValue value params
  | IsMap => GetMapValue value params
  | IsWeakMap => GetWeakMapValue value params
  | IsRegExp => GetRegExpValue value
  | IsSharedSet => GetSendableSetValue value params
  | IsSet => GetSetValue value params
  | IsWeakSet => GetWeakSetValue value params
  | IsDataView => GetDataViewValue value
  | IsHashMap => GetHashMapValue value params
  | IsHashSet => GetHashSetValue value params
  | IsLightWeightMap => GetLightWeightMapValue value params
  | IsLightWeightSet => GetLightWeightSetValue value params
  | IsLinkedList => GetLinkedListValue value params
  | IsList => GetListValue value params
  | IsPlainArray => GetPlainArrayValue value params
  | IsTreeMap => GetTreeMapValue value params
  | IsTreeSet => GetTreeSetValue value params
  | IsArrayList => GetArrayListValue value params
  | IsDeque => GetDequeValue value params
  | IsQueue => GetQueueValue value params
  | IsStack => GetStackValue value params
  | IsVector => GetVectorValue value params
  | IsPromise => GetPromiseValue value
  end.

(** Whether the branch returns, and then with the prototype or without it. *)
Inductive after_special := GoOn | ReturnWithProto | ReturnNow.
Definition then_returns (kind : ValueKind) : after_special :=
  match kind with
  | IsTypedArray | IsSharedTypedArray | IsLinkedList | IsList | IsArrayList | IsDeque | IsQueue | IsStack | IsVector
  | IsPromise => ReturnWithProto
  | IsProxy => ReturnNow
  | _ => GoOn
  end.

(** ** Own properties *)

Definition ANONYMOUS_FUNCTION_NAME_PLACEHOLDER : bytes := str "<anonymous>".

(** [PropertyDescriptor::FromProperty] *)
Definition FromProperty (v : vm) (name : JSValue) (property : PropertyAttribute JSValue) : PropertyDescriptor :=
  let symbol := IsSymbol v name in
  let nameStr := if symbol then str "Symbol(" ++ SymbolDescription v name ++ str ")" else StringValue v name in
  let anonymous := match at_value property with
                   | Some x => IsFunctionValue v x && bool_decide (nameStr = [])
                   | None => false
                   end in
  mkPropertyDescriptor (if anonymous then ANONYMOUS_FUNCTION_NAME_PLACEHOLDER else nameStr)
    (FromTagged v <$> at_value property) (at_writable property) (FromTagged v <$> at_getter property)
    (FromTagged v <$> at_setter property) (at_configurable property) (at_enumerable property) None (Some true)
    (if symbol then Some (FromTagged v name) else None).

(** The object of a part of a property gets an id. *)
Definition register_part (part : option RemoteObject) (value : option JSValue) : D (option RemoteObject) :=
  match part, value with
  | Some o, Some x => id <-- alloc_object x ;; m_ret (Some (SetObjectId id o))
  | _, _ => m_ret part
  end.

(** One round of the loop over the names; [None] is a [continue]. *)
Definition describe_property (value name : JSValue) (isAccessorOnly : bool) : D (option PropertyDescriptor) :=
  attribute <-- ask (λ v, GetOwnProperty v value name) ;;
  match attribute with
  | None => m_ret None
  | Some jsProperty =>
      p <-- ask (λ v, FromProperty v name jsProperty) ;;
      if isAccessorOnly && negb (bool_decide (is_Some (at_getter jsProperty)))
         && negb (bool_decide (is_Some (at_setter jsProperty)))
      then m_ret None
      else
        getter <-- register_part (pd_get_ p) (at_getter jsProperty) ;;
        setter <-- register_part (pd_set_ p) (at_setter jsProperty) ;;
        isObject <-- ask (λ v, match at_value jsProperty with Some x => IsObjectValue v x | None => false end) ;;
        pvalue <-- (if isObject : bool then register_part (pd_value_ p) (at_value jsProperty) else m_ret (pd_value_ p)) ;;
        symbol <-- register_part (pd_symbol_ p) (Some name) ;;
        m_ret (Some (mkPropertyDescriptor (pd_name_ p) pvalue (pd_writable_ p) getter setter (pd_configurable_ p)
                       (pd_enumerable_ p) (pd_wasThrown_ p) (pd_isOwn_ p) symbol))
  end.

Fixpoint own_properties (value : JSValue) (isAccessorOnly : bool) (names : list JSValue)
    : D (list PropertyDescriptor) :=
  match names with
  | [] => m_ret []
  | name :: rest =>
      d <-- describe_property value name isAccessorOnly ;;
      ds <-- own_properties value isAccessorOnly rest ;;
      m_ret (match d with Some d => d :: ds | None => ds end)
  end.

(** Objects that the debugger has made have no prototype to show. *)
Definition skips_proto (v : vm) (value : JSValue) : bool :=
  negb (InternalObjects_IsEmpty v) &&
  match InternalObjects_Get v value with Some InternalEntry | Some InternalScope => true | _ => false end.

(** The names of the keys of the range. *)
Definition names_of_range (keys : list JSValue) (range : Z * Z) : list JSValue :=
  (λ i, default UndefinedValue (keys !! Z.to_nat i)) <$> indices range.

Definition Runtime_GetProperties (params : GetPropertiesParams) : D (DispatchResponse * list PropertyDescriptor) :=
  let isOwn := default false (gp_ownProperties_ params) in
  let isAccessorOnly := default false (gp_accessorPropertiesOnly_ params) in
  found <-- (λ w, Ret (properties_ (w_runtime w) !! gp_objectId_ params) w) ;;
  match found with
  | None => m_ret (DispatchResponse_Fail (str "Unknown object id"), [])
  | Some value =>
      isObject <-- ask (λ v, negb (IsEmptyHandle value) && IsObjectValue v value) ;;
      if negb isObject then m_ret (DispatchResponse_Fail (str "Not a object"), [])
      else
        skipProto <-- ask (λ v, skips_proto v value) ;;
        kind <-- ask (λ v, value_kind v value) ;;
        d1 <-- match kind with Some k => special_values k value params | None => m_ret [] end ;;
        match default GoOn (then_returns <$> kind) with
        | ReturnNow => m_ret (DispatchResponse_Ok, d1)
        | ReturnWithProto => d2 <-- GetProtoOrProtoType value isOwn isAccessorOnly ;; m_ret (DispatchResponse_Ok, d1 ++ d2)
        | GoOn =>
            keys <-- ask (λ v, GetOwnPropertyNames v value) ;;
            let range := AdjustStartAndLength params 0 (uint32_to_int32 (Z.of_nat (length keys))) in
            d2 <-- own_properties value isAccessorOnly (names_of_range keys range) ;;
            d3 <-- (if skipProto : bool then m_ret [] else GetProtoOrProtoType value isOwn isAccessorOnly) ;;
            m_ret (DispatchResponse_Ok, d1 ++ d2 ++ d3)
        end
  end.

(** ** The other requests *)

Definition Runtime_Enable : D DispatchResponse := tell InternalObjects_New ;;; ok.
Definition Runtime_Disable : D DispatchResponse := tell InternalObjects_Free ;;; ok.
Definition Runtime_RunIfWaitingForDebugger : D DispatchResponse := Frontend_RunIfWaitingForDebugger ;;; ok.
Definition Runtime_GetHeapUsage `{Build} : D (DispatchResponse * (double * double)) :=
  if support_heapprofiler then
    totalSize <-- ask GetHeapTotalSize ;;
    usedSize <-- ask GetHeapUsedSize ;;
    m_ret (DispatchResponse_Ok, (usedSize, totalSize))
  else m_ret (DispatchResponse_Ok, (double_of_Z 0, double_of_Z 0)).

(** ** Dispatch *)

Inductive RuntimeMethod :=
| RT_ENABLE | RT_DISABLE | RT_GET_PROPERTIES | RT_RUN_IF_WAITING_FOR_DEBUGGER | RT_GET_HEAP_USAGE | RT_UNKNOWN.

Definition runtime_methods : list (string * RuntimeMethod) :=
  [("enable", RT_ENABLE); ("disable", RT_DISABLE); ("getProperties", RT_GET_PROPERTIES);
   ("runIfWaitingForDebugger", RT_RUN_IF_WAITING_FOR_DEBUGGER); ("getHeapUsage", RT_GET_HEAP_USAGE)]%string.

Definition Runtime_GetMethodEnum (method : bytes) : RuntimeMethod :=
  default RT_UNKNOWN (snd <$> (snd <$> list_find (λ e, str e.1 = method) runtime_methods)).

Definition runtimeExtendedProtocols_ : list bytes := [].

Definition Runtime_handle `{cj : CJson} `{CastOob} `{Build} (method : bytes) (p : PtJson) : D answer :=
  match Runtime_GetMethodEnum method with
  | RT_ENABLE => r <-- Runtime_Enable ;; m_ret (r, Some (OfEnable (mkEnableReturns runtimeExtendedProtocols_)))
  | RT_DISABLE => plain Runtime_Disable
  | RT_GET_PROPERTIES =>
      with_params (GetPropertiesParams_Create p) (λ params,
        r <-- Runtime_GetProperties params ;;
        m_ret (r.1, Some (OfGetProperties (mkGetPropertiesReturns r.2 None None None))))
  | RT_RUN_IF_WAITING_FOR_DEBUGGER => plain Runtime_RunIfWaitingForDebugger
  | RT_GET_HEAP_USAGE =>
      r <-- Runtime_GetHeapUsage ;;
      m_ret (r.1, Some (OfGetHeapUsage (mkGetHeapUsageReturns r.2.1 r.2.2)))
  | RT_UNKNOWN => m_ret (DispatchResponse_Fail (str "unknown method: " ++ method), None)
  end.

Definition Runtime_Dispatch `{cj : CJson} `{CastOob} `{Build} (request : DispatchRequest) (crossLanguageDebug : bool)
    : D (option bytes) :=
  a <-- Runtime_handle (dr_method_ request) (dr_params_ request) ;;
  if crossLanguageDebug then
    m_ret (Some (ReturnsValueToString (dr_callId_ request) a.1 (PtBaseReturns_ToJson <$> a.2)))
  else send_response (dr_callId_ request) a.1 a.2 ;;; m_ret None.

End Runtime.
