(* ===== verification/RuntimeObjects.v ===== *)
(** * The objects that the runtime agent shows

    What "Runtime.getProperties" promises: the ids in an answer are new, name the
    objects that are described, and leave every older id as it was; and the names
    in an answer are those of the range that was asked for. *)

From S2P Require Import Prelude Regex Http CppLib Utils ThreadState.
From S2P Require Import PtJson PtCodec PtTypes PtProfile PtSchema PtParams PtEvents PtReturns Dispatcher.
From S2P Require Import DebuggerState CallFrames DebuggerAgent DebuggerHooks DebuggerDispatch DebuggerLogic DebuggerTables.
From S2P Require Import PausedObjects RuntimeAgent.
Local Open Scope Z_scope.
Local Open Scope ark_scope.

Create HintDb ark_issue discriminated.

Section Issued.
Context `{JsApi} `{SignedOverflow} `{HashOrder}.
Context (tagged_plain : ∀ v x, ro_objectId_ (FromTagged v x) = None).

(** ** Objects and ids *)

Definition next_id (w : world) : Z := curObjectId_ (w_runtime w).
Definition object_of (w : world) (id : Z) : option JSValue := properties_ (w_runtime w) !! id.

Definition same_kind (o o' : RemoteObject) : Prop :=
  ro_type_ o = ro_type_ o' ∧ ro_subType_ o = ro_subType_ o' ∧ ro_className_ o = ro_className_ o'.

(** The id of the description is that of a value with this description. *)
Definition shows (w : world) (o : RemoteObject) : Prop :=
  ∀ id, ro_objectId_ o = Some id → ∃ v x, object_of w id = Some x ∧ same_kind o (FromTagged v x).

(** The objects of a property, in the order in which they get their ids. *)
Definition objects_of (d : PropertyDescriptor) : list RemoteObject :=
  omap id [pd_get_ d; pd_set_ d; pd_value_ d; pd_symbol_ d].

(** The ids of the objects are the next ones, in order; older ids, the debugger
    and the channel are left alone. *)
Record issued (os : list RemoteObject) (w w' : world) : Prop := {
  issued_le : next_id w ≤ next_id w';
  issued_ids : omap ro_objectId_ os = seqZ (next_id w) (next_id w' - next_id w);
  issued_kept id : id < next_id w → object_of w' id = object_of w id;
  issued_some id : next_id w ≤ id < next_id w' → is_Some (object_of w' id);
  issued_shows : Forall (shows w') os;
  issued_dbg : w_dbg w' = w_dbg w;
  issued_calls : w_calls w' = w_calls w }.

Lemma issued_refl w w' :
  w_runtime w' = w_runtime w → w_dbg w' = w_dbg w → w_calls w' = w_calls w → issued [] w w'.
Proof.
  intros Hr Hd Hc. split; [..|done|done]; unfold next_id, object_of; rewrite ?Hr; try done; [|lia].
  by rewrite Z.sub_diag.
Qed.

Lemma shows_later w w' o :
  (∀ id, id < next_id w → object_of w' id = object_of w id) → (∀ id, ro_objectId_ o = Some id → id < next_id w) →
  shows w o → shows w' o.
Proof. intros Hk Hid Hs id Ho. rewrite Hk by eauto. by apply Hs. Qed.

Lemma issued_app os os' w1 w2 w3 : issued os w1 w2 → issued os' w2 w3 → issued (os ++ os') w1 w3.
Proof.
  intros [L1 I1 K1 S1 F1 D1 C1] [L2 I2 K2 S2 F2 D2 C2]. split; [lia|..|congruence|congruence].
  - rewrite omap_app, I1, I2. replace (next_id w3 - next_id w1) with ((next_id w2 - next_id w1) + (next_id w3 - next_id w2)) by lia.
    rewrite seqZ_app by lia. f_equal. f_equal. lia.
  - intros id Hid. rewrite K2, K1; [done|lia|lia].
  - intros id Hid. destruct (decide (id < next_id w2)); [rewrite K2 by lia; apply S1; lia|apply S2; lia].
  - apply Forall_app. split; [|done]. apply Forall_forall. intros o Ho. rewrite Forall_forall in F1.
    eapply shows_later; [exact K2| |by apply F1]. intros id Hid.
    assert (Hin : id ∈ omap ro_objectId_ os) by (apply list_elem_of_omap; eauto).
    rewrite I1 in Hin. apply elem_of_seqZ in Hin. lia.
Qed.

(** An object without an id may be added. *)
Lemma issued_plain o w : ro_objectId_ o = None → issued [o] w w.
Proof.
  intros Ho. split; try done; [|lia|].
  - simpl. by rewrite Ho, Z.sub_diag.
  - apply Forall_singleton. intros id. by rewrite Ho.
Qed.

Lemma alloc_issued x o v w :
  same_kind o (FromTagged v x) →
  issued [SetObjectId (next_id w) o] w (final (alloc_object x w)).
Proof.
  intros Ho. split; try done; unfold next_id, object_of; cbn [alloc_object final w_runtime set_runtime curObjectId_ properties_].
  - lia.
  - replace (curObjectId_ (w_runtime w) + 1 - curObjectId_ (w_runtime w)) with 1 by lia. by rewrite seqZ_cons by lia.
  - intros id Hid. rewrite lookup_insert_ne; [done|lia].
  - intros id Hid. replace id with (curObjectId_ (w_runtime w)) by lia. rewrite lookup_insert_eq. by eexists.
  - apply Forall_singleton. intros id [= <-]. exists v, x. unfold object_of. cbn. rewrite lookup_insert_eq. split; [done|].
    destruct Ho as (? & ? & ?). by unfold same_kind.
Qed.

(** The functions of one type are instances of the common ones. *)
Ltac by_type :=
  unfold GetTypedArrayValue, GetSharedTypedArrayValue, GetMapIteratorValue, GetSetIteratorValue, GetNumberFormatValue,
    GetDateTimeFormatValue, GetSharedMapValue, GetMapValue, GetWeakMapValue, GetSendableSetValue, GetSetValue, GetWeakSetValue,
    GetHashMapValue, GetHashSetValue, GetLightWeightMapValue, GetLightWeightSetValue, GetLinkedListValue, GetListValue, GetPlainArrayValue,
    GetTreeMapValue, GetTreeSetValue, GetArrayListValue, GetDequeValue, GetQueueValue, GetStackValue, GetVectorValue.

(** ** Operations that issue objects *)

(** Leaves ids, debugger and channel alone. *)
Definition silent {A} (m : D A) : Prop :=
  ∀ w a w', m w = Ret a w' → w_runtime w' = w_runtime w ∧ w_dbg w' = w_dbg w ∧ w_calls w' = w_calls w.

Lemma silent_ret {A} (a : A) : silent (m_ret a). Proof. by intros w b w' [= <- <-]. Qed.
Lemma silent_throw {A} : silent (λ w, Throw w : outcome world A). Proof. done. Qed.
Lemma silent_ask {A} (f : vm → A) : silent (ask f). Proof. by intros w b w' [= <- <-]. Qed.
Lemma silent_tell f : silent (tell f). Proof. by intros w b w' [= <- <-]. Qed.
Lemma silent_call {A} (f : vm → A * vm) : silent (call f).
Proof. intros w b w'. unfold call. destruct (f (w_vm w)). by intros [= <- <-]. Qed.
Lemma silent_bind {A B} (m : D A) (k : A → D B) : silent m → (∀ a, silent (k a)) → silent (m_bind k m).
Proof.
  intros Hm Hk w b w' (a & w1 & E1 & E2)%m_bind_inv. apply Hm in E1 as (? & ? & ?).
  apply Hk in E2 as (? & ? & ?). split_and!; congruence.
Qed.
Hint Resolve silent_ret silent_ask silent_tell silent_call silent_throw : ark_issue.

Ltac hush := repeat first [solve [auto with ark_issue nocore] | apply silent_bind; [|intros ?] | case_match].

Lemma for_each_silent {A} (f : A → D ()) l : (∀ a, silent (f a)) → silent (for_each f l).
Proof. intros Hf. induction l; simpl; hush. Qed.
Lemma entry_object_silent fields : silent (entry_object fields).
Proof. unfold entry_object. hush. apply for_each_silent. hush. Qed.
Hint Resolve entry_object_silent : ark_issue.
Lemma map_entries_silent kind m a n l : silent (map_entries kind m a n l).
Proof. revert n. induction l; intros n; simpl; hush. Qed.
Lemma set_elements_silent kind m a n l : silent (set_elements kind m a n l).
Proof. revert n. induction l; intros n; simpl; hush. Qed.
Hint Resolve map_entries_silent set_elements_silent : ark_issue.

(** After [os], the operation issues the rest of the objects of its result. *)
Definition issues_from {A} (os : list RemoteObject) (f : A → list RemoteObject) (m : D A) : Prop :=
  ∀ w0 w a w', issued os w0 w → m w = Ret a w' → issued (f a) w0 w'.
Definition issues {A} (f : A → list RemoteObject) (m : D A) : Prop := ∀ w a w', m w = Ret a w' → issued (f a) w w'.

Lemma issues_run {A} (f : A → list RemoteObject) (m : D A) : issues_from [] f m → issues f m.
Proof. intros Hm w a w'. apply Hm. by apply issued_refl. Qed.
Lemma issues_from_ret {A} os (f : A → list RemoteObject) a : f a = os → issues_from os f (m_ret a).
Proof. intros Ha w0 w b w' Hos [= <- <-]. by rewrite Ha. Qed.
Lemma issues_from_throw {A} os (f : A → list RemoteObject) : issues_from os f (λ w, Throw w).
Proof. done. Qed.
Lemma issues_from_silent {A B} os (f : B → list RemoteObject) (m : D A) (k : A → D B) :
  silent m → (∀ a, issues_from os f (k a)) → issues_from os f (m_bind k m).
Proof.
  intros Hm Hk w0 w b w' Hos (a & w1 & E1 & E2)%m_bind_inv. apply Hm in E1 as (Hr & Hd & Hc).
  eapply Hk; [|exact E2]. rewrite <- (app_nil_r os). eapply issued_app; [exact Hos|by apply issued_refl].
Qed.
Lemma issues_from_issue {A B} os (g : A → list RemoteObject) (f : B → list RemoteObject) (m : D A) (k : A → D B) :
  issues g m → (∀ a, issues_from (os ++ g a) f (k a)) → issues_from os f (m_bind k m).
Proof.
  intros Hm Hk w0 w b w' Hos (a & w1 & E1 & E2)%m_bind_inv. eapply Hk; [|exact E2].
  eapply issued_app; [exact Hos|by apply Hm].
Qed.
Lemma issues_from_last {A} os (g f : A → list RemoteObject) (m : D A) :
  issues g m → (∀ a, f a = os ++ g a) → issues_from os f m.
Proof. intros Hm Hf w0 w a w' Hos E. rewrite Hf. eapply issued_app; [exact Hos|by apply Hm]. Qed.

(** The objects of a list of properties. *)
Definition all_objects (ds : list PropertyDescriptor) : list RemoteObject := ds ≫= objects_of.

Lemma all_objects_app ds ds' : all_objects (ds ++ ds') = all_objects ds ++ all_objects ds'.
Proof. apply bind_app. Qed.

Ltac same_objects :=
  intros; cbn [snd]; unfold all_objects; rewrite ?bind_app; cbn [mbind list_bind app];
  rewrite ?app_nil_r, <- ?app_assoc, ?app_nil_r; reflexivity.
Ltac issue :=
  repeat first
    [ apply issues_from_throw
    | apply issues_from_ret; solve [same_objects]
    | eapply issues_from_last; [solve [eauto with ark_issue nocore]|solve [same_objects]]
    | apply issues_from_silent; [solve [hush]|intros ?]
    | eapply issues_from_issue; [solve [eauto with ark_issue nocore]|intros ?]
    | case_match ].

Lemma SetKeyValue_issues x name n : issues objects_of (SetKeyValue x name n).
Proof.
  intros w d w'. unfold SetKeyValue. intros (o & w1 & [= <- <-] & E)%m_bind_inv.
  apply m_bind_inv in E as (id & w2 & [= <- <-] & [= <- <-]). unfold objects_of. cbn.
  change (curObjectId_ (w_runtime w)) with (next_id w). apply (alloc_issued x _ (w_vm w)).
  unfold same_kind. repeat case_match; done.
Qed.
Hint Resolve SetKeyValue_issues : ark_issue.

Lemma key_values_issues l : issues all_objects (key_values l).
Proof. induction l as [|[n x] l IH]; apply issues_run; simpl; issue. Qed.
Hint Resolve key_values_issues : ark_issue.

Lemma cached_issued x v w o w' : CacheObjectIfNeeded x (FromTagged v x) w = Ret o w' → issued [o] w w'.
Proof.
  unfold CacheObjectIfNeeded. intros (b & w1 & [= <- <-] & E)%m_bind_inv.
  destruct (IsObjectValue (w_vm w) x).
  - apply m_bind_inv in E as (id & w2 & [= <- <-] & [= <- <-]). by apply (alloc_issued x _ v).
  - injection E as <- <-. apply issued_plain, tagged_plain.
Qed.

Lemma typed_array_elements_issues kind x l : issues all_objects (typed_array_elements kind x l).
Proof.
  induction l as [|i l IH]; [apply issues_run; simpl; issue|]. intros w ds w'. simpl.
  intros (e & w1 & [= <- <-] & E)%m_bind_inv. apply m_bind_inv in E as (o & w2 & [= <- <-] & E).
  apply m_bind_inv in E as (o' & w3 & E3%cached_issued & E). apply m_bind_inv in E as (ds' & w4 & E4%IH & [= <- <-]).
  exact (issued_app _ _ _ _ _ E3 E4).
Qed.

Lemma prototype_issues name x b c : issues objects_of (prototype_property name x b c).
Proof.
  intros w d w'. unfold prototype_property. intros (o & w1 & [= <- <-] & E)%m_bind_inv.
  by apply m_bind_inv in E as (o' & w2 & E2%cached_issued & [= <- <-]).
Qed.
Hint Resolve typed_array_elements_issues prototype_issues : ark_issue.

Lemma GetProtoOrProtoType_issues x b c : issues all_objects (GetProtoOrProtoType x b c).
Proof.
  apply issues_run. unfold GetProtoOrProtoType. case_match; [issue|]. apply issues_from_silent; [hush|intros k].
  eapply (issues_from_issue _ all_objects); [|intros; issue]. apply issues_run. issue.
Qed.

Lemma AddTypedArrayRef_issues t x n name : issues objects_of (AddTypedArrayRef t x n name).
Proof.
  intros w d w'. unfold AddTypedArrayRef. intros (a & w1 & E1 & E)%m_bind_inv.
  apply m_bind_inv in E as (o & w2 & [= <- <-] & E). apply m_bind_inv in E as (id & w3 & [= <- <-] & [= <- <-]).
  apply silent_call in E1 as (? & ? & ?).
  eapply (issued_app []); [by apply (issued_refl w w1)|by apply (alloc_issued a _ (w_vm w1))].
Qed.
Hint Resolve GetProtoOrProtoType_issues AddTypedArrayRef_issues : ark_issue.

Lemma typed_array_refs_issues l x n : issues all_objects (typed_array_refs l x n).
Proof. induction l as [|[t name] l IH]; apply issues_run; simpl; issue. Qed.
Hint Resolve typed_array_refs_issues : ark_issue.
Lemma views_issues l x n s : issues all_objects (views l x n s).
Proof. apply issues_run. unfold views. issue. Qed.
Hint Resolve views_issues : ark_issue.

Lemma container_issues kind x params desc : issues all_objects (container_values kind x params desc).
Proof. apply issues_run. unfold container_values. issue. Qed.
Lemma map_issues kind x params desc : issues all_objects (GetMapValueCommon kind x params desc).
Proof. apply issues_run. unfold GetMapValueCommon, collection_values. issue. Qed.
Lemma set_issues kind x params desc : issues all_objects (GetSetValueCommon kind x params desc).
Proof. apply issues_run. unfold GetSetValueCommon, collection_values. issue. Qed.
Hint Resolve container_issues map_issues set_issues : ark_issue.

Lemma special_values_issues kind x params : issues all_objects (special_values kind x params).
Proof.
  apply issues_run. unfold special_values, GetTypedArrayValueCommon, AddTypedArrayRefs, AddSharedArrayBufferRefs,
    GetProxyValue, GetIteratorValueCommon, GetPrimitiveNumberValue, GetPrimitiveStringValue, GetPrimitiveBooleanValue,
    GetGeneratorFunctionValue, GetGeneratorObjectValue, GetFormatValue, GetCollatorValue, GetDataViewValue,
    GetRegExpValue, GetPromiseValue, as_object.
  destruct kind; by_type; unfold GetTypedArrayValueCommon, GetIteratorValueCommon, GetFormatValue, as_object; issue.
Qed.

(** A part of a property gets the next id. *)
Lemma register_part_issued v x w o w' :
  register_part (FromTagged v <$> x) x w = Ret o w' → issued (omap id [o]) w w'.
Proof.
  destruct x as [x|]; simpl; [|intros [= <- <-]; by apply issued_refl].
  intros (i & w1 & [= <- <-] & [= <- <-])%m_bind_inv. by apply (alloc_issued x _ v).
Qed.

Lemma describe_property_issues x name b :
  issues (λ d, match d with Some d => objects_of d | None => [] end) (describe_property x name b).
Proof.
  intros w d w'. unfold describe_property. intros (at_ & w1 & [= <- <-] & E)%m_bind_inv.
  destruct (GetOwnProperty (w_vm w) x name) as [a|]; [|injection E as <- <-; by apply issued_refl].
  apply m_bind_inv in E as (p & w1 & [= <- <-] & E). case_match; [injection E as <- <-; by apply issued_refl|].
  apply m_bind_inv in E as (g & w2 & E2%register_part_issued & E).
  apply m_bind_inv in E as (s & w3 & E3%register_part_issued & E).
  apply m_bind_inv in E as (io & w4 & [= <- <-] & E). apply m_bind_inv in E as (pv & w4 & E4 & E).
  apply m_bind_inv in E as (sy & w5 & E5 & [= <- <-]).
  assert (H4 : issued (omap id [pv]) w3 w4).
  { destruct (at_value a) as [y|] eqn:Hy; simpl in E4; rewrite ?Hy in E4; [|injection E4 as <- <-; by apply issued_refl].
    case_match; [by apply (register_part_issued (w_vm w) (Some y))|injection E4 as <- <-; apply issued_plain, tagged_plain]. }
  assert (H5 : issued (omap id [sy]) w4 w5).
  { unfold FromProperty in E5. cbn [pd_symbol_] in E5. case_match; [by apply (register_part_issued (w_vm w) (Some name))|].
    injection E5 as <- <-. by apply issued_refl. }
  pose proof (issued_app _ _ _ _ _ E2 (issued_app _ _ _ _ _ E3 (issued_app _ _ _ _ _ H4 H5))) as Hall.
  rewrite <- !omap_app in Hall. exact Hall.
Qed.

Lemma own_properties_issues x b names : issues all_objects (own_properties x b names).
Proof.
  induction names as [|name names IH]; apply issues_run; simpl; [issue|].
  eapply issues_from_issue; [apply describe_property_issues|intros d]. eapply issues_from_issue; [apply IH|intros ds].
  apply issues_from_ret. by destruct d.
Qed.
Hint Resolve special_values_issues own_properties_issues : ark_issue.

Lemma GetProperties_issues params : issues (λ r, all_objects r.2) (Runtime_GetProperties params).
Proof.
  apply issues_run. unfold Runtime_GetProperties. apply issues_from_silent; [by intros w a w' [= <- <-]|intros found].
  destruct found as [value|]; [|by apply issues_from_ret].
  apply issues_from_silent; [hush|intros isObject]. destruct isObject; simpl; [|by apply issues_from_ret].
  do 2 (apply issues_from_silent; [hush|intros ?]).
  eapply (issues_from_issue _ all_objects); [apply issues_run; issue|intros d1]. destruct (default GoOn _).
  - apply issues_from_silent; [hush|intros keys]. eapply issues_from_issue; [apply own_properties_issues|intros d2].
    eapply (issues_from_issue _ all_objects); [apply issues_run; issue|intros d3]. issue.
  - issue.
  - issue.
Qed.

(** ** Termination *)

(** What is relied on of the virtual machine: an object converts to an object. *)
Context (objects_convert : ∀ v x, IsObjectValue v x = true → is_Some (ToObject v x)).

Definition returns_at {A} (m : D A) (w : world) : Prop := ∃ a w', m w = Ret a w'.

Lemma as_object_returns {A} (k : JSValue → D A) x w :
  IsObjectValue (w_vm w) x = true → (∀ o, returns (k o)) → returns_at (as_object x k) w.
Proof.
  intros [o Ho]%objects_convert Hk. unfold returns_at, as_object. erewrite m_bind_ret by reflexivity. rewrite Ho. apply Hk.
Qed.

Lemma SetKeyValue_returns x name n : returns (SetKeyValue x name n). Proof. by_return. Qed.
Lemma key_values_returns l : returns (key_values l).
Proof. pose proof SetKeyValue_returns. induction l as [|[n x] l IH]; simpl; return_all. Qed.
Lemma typed_array_refs_returns l x n : returns (typed_array_refs l x n).
Proof. induction l as [|[t name] l IH]; simpl; unfold AddTypedArrayRef; return_all. Qed.
Lemma typed_array_elements_returns kind x l : returns (typed_array_elements kind x l).
Proof. pose proof CacheObject_returns. induction l as [|i l IH]; simpl; return_all. Qed.
Lemma entry_object_returns fields : returns (entry_object fields).
Proof.
  unfold entry_object. return_all. induction fields as [|f fields IH]; simpl; return_all.
Qed.
Lemma map_entries_returns kind m a n l : returns (map_entries kind m a n l).
Proof. pose proof entry_object_returns. revert n. induction l; intros n; simpl; return_all. Qed.
Lemma set_elements_returns kind m a n l : returns (set_elements kind m a n l).
Proof. pose proof entry_object_returns. revert n. induction l; intros n; simpl; return_all. Qed.
Lemma GetProto_returns x b c : returns (GetProtoOrProtoType x b c).
Proof. pose proof CacheObject_returns. unfold GetProtoOrProtoType, prototype_property. return_all. Qed.
Lemma own_properties_returns x b names : returns (own_properties x b names).
Proof. induction names as [|n names IH]; simpl; unfold describe_property, register_part; return_all. Qed.

Lemma special_values_returns kind x params w :
  IsObjectValue (w_vm w) x = true → returns_at (special_values kind x params) w.
Proof.
  intros Hx. pose proof SetKeyValue_returns. pose proof key_values_returns. pose proof typed_array_refs_returns.
  pose proof typed_array_elements_returns. pose proof map_entries_returns. pose proof set_elements_returns.
  destruct kind; cbn [special_values]; by_type; unfold GetFormatValue, GetCollatorValue, GetDataViewValue, GetRegExpValue;
    first
      [ apply as_object_returns; [done|intros o]
      | lazymatch goal with |- returns_at ?m _ => apply (λ Hm : returns m, Hm w) end ].
  all: unfold GetTypedArrayValueCommon, AddTypedArrayRefs, AddSharedArrayBufferRefs, views, GetProxyValue,
    GetIteratorValueCommon, GetPrimitiveNumberValue, GetPrimitiveStringValue, GetPrimitiveBooleanValue,
    GetGeneratorFunctionValue, GetGeneratorObjectValue, GetPromiseValue, GetMapValueCommon, GetSetValueCommon,
    collection_values, container_values; return_all.
Qed.

Lemma GetProperties_returns params w : returns_at (Runtime_GetProperties params) w.
Proof.
  unfold returns_at, Runtime_GetProperties. erewrite m_bind_ret by reflexivity.
  destruct (properties_ _ !! _) as [value|]; [|by repeat eexists]. erewrite m_bind_ret by reflexivity.
  destruct (negb (IsEmptyHandle value)), (IsObjectValue (w_vm w) value) eqn:Hx; simpl; try by repeat eexists.
  do 2 (erewrite m_bind_ret by reflexivity).
  assert (Hs : returns_at (match value_kind (w_vm w) value with Some k => special_values k value params | None => m_ret [] end) w).
  { destruct (value_kind _ _); [by apply special_values_returns|by repeat eexists]. }
  destruct Hs as (d1 & w1 & E1). erewrite m_bind_ret by exact E1.
  pose proof GetProto_returns. pose proof own_properties_returns.
  lazymatch goal with |- ∃ a w', ?m _ = _ => cut (returns m); [intros Hm; apply Hm|] end. return_all.
Qed.

Lemma GetProperties_outcome params w r ds w' :
  Runtime_GetProperties params w = Ret (r, ds) w' →
  match object_of w (gp_objectId_ params) with
  | Some x => if negb (IsEmptyHandle x) && IsObjectValue (w_vm w) x then IsOk r = true
              else IsOk r = false ∧ ds = [] ∧ w' = w
  | None => IsOk r = false ∧ ds = [] ∧ w' = w
  end.
Proof.
  unfold Runtime_GetProperties, object_of. erewrite m_bind_ret by reflexivity.
  destruct (properties_ _ !! _) as [x|]; [|by intros [= <- <- <-]]. erewrite m_bind_ret by reflexivity.
  destruct (negb (IsEmptyHandle x) && IsObjectValue (w_vm w) x); simpl; [|by intros [= <- <- <-]].
  intros (sk & w1 & _ & E)%m_bind_inv. apply m_bind_inv in E as (k & w2 & _ & E).
  apply m_bind_inv in E as (d1 & w3 & _ & E).
  destruct (default GoOn _); repeat (apply m_bind_inv in E as (? & ? & _ & E)); by injection E as <- _ _.
Qed.

(** C22: "getProperties" always returns. It fails, and changes nothing, exactly
    when the id is unknown or not that of an object. Otherwise the objects in the
    answer have the next ids in order, each the id of a value with this
    description; older ids name what they named before, and neither the debugger
    nor the channel is touched. The ids are those of the code as long as the
    counter, an [int32_t], does not overflow. *)
Theorem properties_shown (params : GetPropertiesParams) (w : world) :
  ∃ r ds w', Runtime_GetProperties params w = Ret (r, ds) w' ∧ issued (all_objects ds) w w' ∧
    (IsOk r = true ↔ ∃ x, object_of w (gp_objectId_ params) = Some x ∧ IsEmptyHandle x = false ∧
                          IsObjectValue (w_vm w) x = true) ∧
    (IsOk r = false → ds = [] ∧ w' = w).
Proof.
  destruct (GetProperties_returns params w) as ([r ds] & w' & E). exists r, ds, w'.
  split; [done|]. split; [by apply (GetProperties_issues params w (r, ds))|]. apply GetProperties_outcome in E.
  destruct (object_of w (gp_objectId_ params)) as [x|]; [|destruct E as (-> & -> & ->); naive_solver].
  destruct (IsEmptyHandle x) eqn:He, (IsObjectValue (w_vm w) x) eqn:Hx; simpl in E;
    try (destruct E as (-> & -> & ->)); try rewrite E; naive_solver congruence.
Qed.

End Issued.

(** ** Ranges of properties *)

Section Pages.
Context `{JsApi} `{SignedOverflow} `{HashOrder}.

(** The names that are shown for the keys. *)
Definition described (v : vm) (x : JSValue) (isAccessorOnly : bool) (keys : list JSValue) : list bytes :=
  omap (λ key, GetOwnProperty v x key ≫= λ a,
    if isAccessorOnly && negb (bool_decide (is_Some (at_getter a))) && negb (bool_decide (is_Some (at_setter a)))
    then None else Some (pd_name_ (FromProperty v key a))) keys.

(** The names of the prototypes that are shown. *)
Definition prototypes (v : vm) (x : JSValue) (isOwn isAccessorOnly : bool) : list bytes :=
  if skips_proto v x || (negb isAccessorOnly && isOwn) then []
  else (if IsConstructor v x then [str "prototype"] else []) ++ [str "__proto__"].

Lemma range_keys (keys : list JSValue) (start count : nat) :
  (start + count ≤ length keys)%nat →
  names_of_range keys (Z.of_nat start, Z.of_nat (start + count)) = take count (drop start keys).
Proof.
  unfold names_of_range, indices. cbn [fst snd].
  replace (Z.of_nat (start + count) - Z.of_nat start) with (Z.of_nat count) by lia.
  revert start. induction count as [|count IH]; intros start Hl; [done|].
  rewrite seqZ_cons by lia. cbn [fmap list_fmap]. rewrite Nat2Z.id.
  destruct (lookup_lt_is_Some_2 keys start) as [key Hk]; [lia|]. rewrite Hk, (drop_S _ _ _ Hk). cbn [default firstn].
  f_equal. specialize (IH (S start)). rewrite <- IH by lia. f_equal. f_equal; lia.
Qed.

Lemma range_all (keys : list JSValue) : names_of_range keys (0, Z.of_nat (length keys)) = keys.
Proof.
  transitivity (take (length keys) (drop 0 keys)); [|by rewrite drop_0, firstn_all].
  apply (range_keys keys 0 (length keys)). lia.
Qed.

(** The range of a request that does not overflow. *)
Lemma AdjustStartAndLength_keys params (keys : list JSValue) :
  Z.of_nat (length keys) < 2 ^ 31 →
  (∀ start count, gp_startIndex_ params = Some start → gp_groupCount_ params = Some count → start + count < 2 ^ 31) →
  names_of_range keys (AdjustStartAndLength params 0 (uint32_to_int32 (Z.of_nat (length keys)))) =
    match gp_startIndex_ params, gp_groupCount_ params with
    | Some start, Some count =>
        if (0 <=? start) && (0 <? count) && (start <? Z.of_nat (length keys))
        then take (Z.to_nat count) (drop (Z.to_nat start) keys) else keys
    | _, _ => keys
    end.
Proof.
  intros Hl Hr. unfold uint32_to_int32. ztrue (_ <? _). unfold AdjustStartAndLength, IsValidRequestUsingRange.
  destruct (gp_startIndex_ params) as [start|], (gp_groupCount_ params) as [count|]; try apply range_all.
  specialize (Hr _ _ eq_refl eq_refl).
  destruct (Z.leb_spec 0 start), (Z.ltb_spec 0 count), (Z.ltb_spec start (Z.of_nat (length keys))); simpl; try apply range_all;
    [|ztrue (_ <=? _); apply range_all].
  zfalse (_ <=? start). unfold int32_add. ztrue (- 2 ^ 31 <=? start + count). ztrue (start + count <? 2 ^ 31). simpl.
  destruct (Z.leb_spec (start + count) (Z.of_nat (length keys))).
  - rewrite <- range_keys by lia. f_equal. f_equal; lia.
  - transitivity (take (length keys - Z.to_nat start) (drop (Z.to_nat start) keys)).
    + rewrite <- range_keys by lia. f_equal. f_equal; lia.
    + by rewrite !take_ge by (rewrite length_drop; lia).
Qed.

(** Describing leaves the machine alone. *)
Lemma register_part_vm o x w o' w' : register_part o x w = Ret o' w' → w_vm w' = w_vm w.
Proof.
  unfold register_part. destruct o, x; by intros [= <- <-].
Qed.

Lemma describe_property_name x key b w d w' :
  describe_property x key b w = Ret d w' →
  w_vm w' = w_vm w ∧ option_list (pd_name_ <$> d) = described (w_vm w) x b [key].
Proof.
  unfold describe_property, described. simpl. intros (a & w1 & [= <- <-] & E)%m_bind_inv.
  destruct (GetOwnProperty (w_vm w) x key) as [a|]; simpl; [|by injection E as <- <-].
  apply m_bind_inv in E as (p & w1 & [= <- <-] & E). case_match; [by injection E as <- <-|].
  apply m_bind_inv in E as (g & w2 & E2%register_part_vm & E).
  apply m_bind_inv in E as (s & w3 & E3%register_part_vm & E). apply m_bind_inv in E as (io & w4 & [= <- <-] & E).
  apply m_bind_inv in E as (pv & w4 & E4 & E). apply m_bind_inv in E as (sy & w5 & E5%register_part_vm & [= <- <-]).
  assert (w_vm w4 = w_vm w3) by (case_match; [by apply register_part_vm in E4|by injection E4 as <- <-]).
  split; [congruence|done].
Qed.

Lemma own_properties_names x b keys w ds w' :
  own_properties x b keys w = Ret ds w' → w_vm w' = w_vm w ∧ pd_name_ <$> ds = described (w_vm w) x b keys.
Proof.
  revert w ds w'. induction keys as [|key keys IH]; intros w ds w'; simpl; [by intros [= <- <-]|].
  intros (d & w1 & [Hv Hd]%describe_property_name & E)%m_bind_inv.
  apply m_bind_inv in E as (ds' & w2 & [Hv' Hds]%IH & [= <- <-]). split; [congruence|]. rewrite Hv in Hds.
  transitivity (described (w_vm w) x b [key] ++ described (w_vm w) x b keys).
  - rewrite <- Hd, <- Hds. by destruct d.
  - unfold described. cbn [omap list_omap]. by destruct (GetOwnProperty _ _ _ ≫= _).
Qed.

Lemma GetProto_names x isOwn b w ds w' :
  GetProtoOrProtoType x isOwn b w = Ret ds w' → skips_proto (w_vm w) x = false →
  pd_name_ <$> ds = prototypes (w_vm w) x isOwn b.
Proof.
  intros E Hs. unfold GetProtoOrProtoType, prototypes in *. rewrite Hs. simpl.
  destruct (negb b && isOwn); [by injection E as <- <-|].
  assert (Hp : ∀ n p b1 b2 w d w', prototype_property n p b1 b2 w = Ret d w' → pd_name_ d = str n).
  { intros n p b1 b2 w0 d w0' (o & w1 & _ & E1)%m_bind_inv. by apply m_bind_inv in E1 as (o' & w2 & _ & [= <- <-]). }
  apply m_bind_inv in E as (c & w1 & [= <- <-] & E). apply m_bind_inv in E as (d1 & w2 & E1 & E).
  apply m_bind_inv in E as (p & w3 & _ & E). apply m_bind_inv in E as (d2 & w4 & E2%Hp & [= <- <-]).
  rewrite fmap_app. simpl. rewrite E2. f_equal. destruct (IsConstructor (w_vm w) x); [|by injection E1 as <- <-].
  apply m_bind_inv in E1 as (p1 & w5 & _ & E1). apply m_bind_inv in E1 as (d & w6 & E3%Hp & [= <- <-]).
  simpl. by rewrite E3.
Qed.

(** The names in the answer for a plain object are those of the keys in the
    range that was asked for, followed by those of the prototypes: all keys when
    no valid range is given, and also when the range begins behind the last key.
    The sum of start and count must not overflow. *)
Theorem properties_of_range (params : GetPropertiesParams) (w w' : world) (x : JSValue) (r : DispatchResponse)
    (ds : list PropertyDescriptor) :
  object_of w (gp_objectId_ params) = Some x → IsEmptyHandle x = false → IsObjectValue (w_vm w) x = true →
  value_kind (w_vm w) x = None → Z.of_nat (length (GetOwnPropertyNames (w_vm w) x)) < 2 ^ 31 →
  (∀ start count, gp_startIndex_ params = Some start → gp_groupCount_ params = Some count → start + count < 2 ^ 31) →
  Runtime_GetProperties params w = Ret (r, ds) w' →
  let keys := GetOwnPropertyNames (w_vm w) x in
  let isAccessorOnly := default false (gp_accessorPropertiesOnly_ params) in
  let page := match gp_startIndex_ params, gp_groupCount_ params with
              | Some start, Some count =>
                  if (0 <=? start) && (0 <? count) && (start <? Z.of_nat (length keys))
                  then take (Z.to_nat count) (drop (Z.to_nat start) keys) else keys
              | _, _ => keys
              end in
  pd_name_ <$> ds = described (w_vm w) x isAccessorOnly page ++
                    prototypes (w_vm w) x (default false (gp_ownProperties_ params)) isAccessorOnly.
Proof.
  unfold Runtime_GetProperties, object_of. intros Ho He Hx Hk Hl Hr.
  erewrite m_bind_ret by reflexivity. rewrite Ho. erewrite m_bind_ret by reflexivity. rewrite He, Hx. simpl.
  do 2 (erewrite m_bind_ret by reflexivity). rewrite Hk. simpl. do 2 (erewrite m_bind_ret by reflexivity).
  rewrite AdjustStartAndLength_keys by done.
  intros (d2 & w1 & [Hv Hn]%own_properties_names & E)%m_bind_inv.
  apply m_bind_inv in E as (d3 & w2 & E3 & [= <- <- <-]). rewrite fmap_app, Hn. f_equal.
  destruct (skips_proto (w_vm w) x) eqn:Hs; [injection E3 as <- <-; unfold prototypes; by rewrite Hs|].
  rewrite <- Hv in Hs |- *. by apply (GetProto_names _ _ _ _ _ w2).
Qed.

(** The size in a description is replaced, whatever is around the parentheses. *)
Lemma ModifySizeInDescription_spec (a b c : bytes) (size : Z) :
  40 ∉ a → 41 ∉ b →
  ModifySizeInDescription (a ++ 40 :: b ++ 41 :: c) size = a ++ 40 :: to_string size ++ 41 :: c.
Proof.
  intros Ha Hb. unfold ModifySizeInDescription.
  assert (Hf : ∀ p d q, d ∉ p → list_find (λ y : Z, y = d) (p ++ d :: q) = Some (length p, d)).
  { intros p d q Hp. apply list_find_Some. split_and!; [by rewrite list_lookup_middle|done|].
    intros j y Hy Hj ->. apply Hp. rewrite lookup_app_l in Hy by done. by eapply list_elem_of_lookup_2. }
  rewrite (Hf a 40) by done. set (rest := b ++ 41 :: c).
  replace (a ++ 40 :: rest) with ((a ++ [40]) ++ rest) by by rewrite <- app_assoc.
  replace (length a + 1)%nat with (length (a ++ [40])) by (rewrite length_app; simpl; lia).
  rewrite drop_app_length, take_app_length. unfold rest at 1. rewrite (Hf b 41) by done.
  rewrite <- drop_drop, drop_app_length. unfold rest. rewrite drop_app_length. by rewrite <- app_assoc.
Qed.

(** The values are shown under their names and registered in their order. *)
Lemma key_values_objects l w ds w' :
  key_values l w = Ret ds w' →
  pd_name_ <$> ds = (λ p, str p.1) <$> l ∧
  ∀ (i : nat) p, l !! i = Some p → object_of w' (next_id w + Z.of_nat i) = Some p.2.
Proof.
  revert w ds w'. induction l as [|[n x] l IH]; intros w ds w'; cbn [key_values]; [by intros [= <- <-]|].
  intros (d & w1 & E1 & E)%m_bind_inv. apply m_bind_inv in E as (ds' & w2 & E2 & [= <- <-]).
  pose proof (issued_kept _ _ _ (key_values_issues _ _ _ _ E2)) as Hk.
  apply IH in E2 as [Hn Ho]. apply m_bind_inv in E1 as (o & w3 & [= <- <-] & E1).
  apply m_bind_inv in E1 as (id & w4 & [= <- <-] & [= <- <-]). split; [cbn; by rewrite <- Hn|].
  intros [|i] p; cbn [lookup list_lookup].
  - intros [= <-]. rewrite Z.add_0_r, Hk; [|unfold next_id; cbn; lia]. unfold object_of, next_id. cbn. apply lookup_insert_eq.
  - intros Hp. rewrite <- (Ho i p Hp). f_equal. unfold next_id. cbn. lia.
Qed.

(** A regular expression reports "dotAll" as "hasIndices". *)
Lemma regexp_has_indices x o w ds w' :
  ToObject (w_vm w) x = Some o → GetRegExpValue x w = Ret ds w' →
  ∃ d1 d2, ds !! 3%nat = Some d1 ∧ ds !! 4%nat = Some d2 ∧ pd_name_ d1 = str "dotAll" ∧ pd_name_ d2 = str "hasIndices" ∧
    object_of w' (next_id w + 3) = object_of w' (next_id w + 4).
Proof.
  intros Ho. unfold GetRegExpValue, as_object. erewrite m_bind_ret by reflexivity. rewrite Ho.
  erewrite m_bind_ret by reflexivity. intros [Hn Hv]%key_values_objects.
  do 5 (destruct ds as [|? ds]; [done|]). injection Hn as _ _ _ N3 N4 _. do 2 eexists. split_and!; [done..|].
  transitivity (Some (RegExp_IsDotAll (w_vm w) o)); [apply (Hv 3%nat _ eq_refl)|symmetry; apply (Hv 4%nat _ eq_refl)].
Qed.

End Pages.
