(* ===== verification/ProfilerAgents.v ===== *)
(** * The agents of the profilers and of tracing

    [ProfilerImpl], [HeapProfilerImpl] and [TracingImpl] of tooling/dynamic/agent:
    their requests, the stream over which the virtual machine writes heap
    snapshots, and the timers of libuv that report while tracking or tracing is
    on. The profilers themselves belong to the virtual machine: the class
    [DfxApi]. The agents of "Page", "Animation", "CSS", "DOM", "Overlay" and
    "Target", which only answer, are here too, and all agents together are the
    table that the dispatcher of Dispatcher.v calls. *)

From S2P Require Import Prelude Regex Http CppLib Utils ThreadState.
From S2P Require Import PtJson PtCodec PtTypes PtProfile PtSchema PtParams PtEvents PtReturns Dispatcher.
From S2P Require Import DebuggerState CallFrames DebuggerAgent DebuggerHooks DebuggerDispatch RuntimeAgent.
Local Open Scope Z_scope.
Local Open Scope ark_scope.

(** ** The profilers of the virtual machine *)

(** [SamplingInfo]: a tree of call frames and the samples. *)
Inductive SamplingNode :=
  mkSamplingInfoNode (callFrameInfo_ : FrameInfo) (selfSize_ id_ : Z) (children_ : list SamplingNode).
Record Sample := mkSampleInfo { sm_size_ : Z; sm_count_ : Z; sm_nodeId_ : Z; sm_ordinal_ : Z }.
Record SamplingInfo := mkSamplingInfo { si_head_ : SamplingNode; si_samples_ : list Sample }.

Record HeapStat := mkHeapStat { hst_index_ : Z; hst_count_ : Z; hst_size_ : Z }.

(** What the virtual machine calls on the stream and on the progress it is given. *)
Inductive stream_call :=
| WriteChunk (data : bytes)
| WriteExtraInfo (data : bytes)
| WriteBinBlock (data : bytes)
| UpdateHeapStats (updateData : list HeapStat)
| UpdateLastSeenObjectId (lastSeenObjectId timeStampUs : Z)
| ReportProgress (done total : Z)
| EndOfStream.

Inductive GcType := FULL_GC | SHARED_FULL_GC.

(** The options of a snapshot that the agent sets from the request. *)
Record DumpSnapShotOption := mkDumpSnapShotOption {
  dumpFormat_json : bool;
  isVmMode : bool;
  isPrivate : bool;
  captureNumericValue : bool;
  nativeAddrToNodeIdMap : Z }.

Class DfxApi `{EcmaVm} := {
  SetProfilerState : bool → vm → vm;
  StartCpuProfilerForInfo : vm → bool * vm;
  StopCpuProfilerForInfo : vm → option ProfileInfo * vm;
  SetCpuSamplingInterval : Z → vm → vm;
  EnableSeriliazationTimeoutCheck : Z → vm → vm;
  DisableSeriliazationTimeoutCheck : vm → vm;
  TriggerGC : GcType → vm → vm;
  DestroyHeapProfiler : vm → vm;
  GetAllocationProfile : vm → option SamplingInfo;
  dfx_StartSampling : Z → vm → bool * vm;
  dfx_StopSampling : vm → vm;
  StartHeapTracking : bool → vm → (bool * list stream_call) * vm;
  UpdateHeapTracking : vm → list stream_call * vm;
  StopHeapTracking : vm → (bool * list stream_call) * vm;
  DumpHeapSnapshot : DumpSnapShotOption → vm → list stream_call * vm;
  StartTracing : bytes → vm → bool * vm;
  StopTracing : vm → option (list TraceEvent) * vm;
  GetTracingBufferUseage : vm → double * Z * double;
  HasLoop : vm → bool }.

(** The quotient of a finite double and a positive integer, rounded to the nearest
    value with 53 bits, ties to even; here it is neither too large nor too small
    for a normal number. *)
Definition double_div (d : double) (k : Z) : double :=
  match d with
  | DFin m e =>
      let n := Z.abs m * 2 ^ Z.max e 0 in
      let den := k * 2 ^ Z.max (- e) 0 in
      if (n mod den =? 0) && (n / den <=? 2 ^ 53) then DFin (Z.sgn m * (n / den)) 0
      else
        let scaled s := (n * 2 ^ Z.max s 0, den * 2 ^ Z.max (- s) 0) in
        let s0 := 53 + Z.log2 den - Z.log2 n in
        let s := if (scaled s0).1 / (scaled s0).2 <? 2 ^ 53 then s0 else s0 - 1 in
        let '(a, b) := scaled s in
        let q := a / b in
        let r := a mod b in
        let up := (b <? 2 * r) || ((2 * r =? b) && Z.odd q) in
        DFin (Z.sgn m * (if up then q + 1 else q)) (- s)
  | _ => d
  end.

(** [SamplingHeapProfile::TransferHead] and [FromSamplingInfo]. *)
Fixpoint TransferHead (n : SamplingNode) : SamplingHeapProfileNode :=
  let 'mkSamplingInfoNode f selfSize id children := n in
  mkSamplingNode
    (mkRuntimeCallFrame (fi_functionName f) [] (to_string (fi_scriptId f)) (fi_url f) (fi_lineNumber f) (fi_columnNumber f))
    selfSize id (TransferHead <$> children).

Definition FromSamplingInfo (i : SamplingInfo) : SamplingHeapProfile :=
  mkSamplingHeapProfile (TransferHead (si_head_ i))
    ((λ s, mkSample (sm_size_ s * sm_count_ s) (sm_nodeId_ s) (sm_ordinal_ s)) <$> si_samples_ i).

(** ** The state of the agents *)

Section Agents.
Context `{cj : CJson} `{CastOob} `{JsApi} `{!DfxApi} `{SignedOverflow} `{HashOrder} `{Build}.

(** A timer is absent, stopped or active. *)
Record session := mkSession {
  s_world : world;
  s_heapTimer : option bool;
  s_traceTimer : option bool }.

Definition T (A : Type) : Type := M session A.
Definition lift {A} (m : D A) : T A := λ s,
  match m (s_world s) with
  | Ret a w => Ret a (mkSession w (s_heapTimer s) (s_traceTimer s))
  | Block w => Block (mkSession w (s_heapTimer s) (s_traceTimer s))
  | Throw w => Throw (mkSession w (s_heapTimer s) (s_traceTimer s))
  end.
Definition set_heapTimer (t : option bool) : T () := m_modify (λ s, mkSession (s_world s) t (s_traceTimer s)).
Definition set_traceTimer (t : option bool) : T () := m_modify (λ s, mkSession (s_world s) (s_heapTimer s) t).
Definition heapTimer : T (option bool) := λ s, Ret (s_heapTimer s) s.
Definition traceTimer : T (option bool) := λ s, Ret (s_traceTimer s) s.

(** [uv_timer_stop] if there is a timer. *)
Definition stopped_timer (t : option bool) : option bool := match t with Some _ => Some false | None => None end.

(** [SendNotification] of the frontends of these agents: there must be a channel. *)
Definition send_notification (e : notification_event) : D () :=
  channel <-- get channel_ ;;
  when channel (emit (SendEvent e)).

(** ** The CPU profiler *)

Inductive ProfilerMethod :=
| PR_DISABLE | PR_ENABLE | PR_START | PR_STOP | PR_SET_SAMPLING_INTERVAL | PR_GET_BEST_EFFORT_COVERAGE
| PR_STOP_PRECISE_COVERAGE | PR_TAKE_PRECISE_COVERAGE | PR_START_PRECISE_COVERAGE | PR_START_TYPE_PROFILE
| PR_STOP_TYPE_PROFILE | PR_TAKE_TYPE_PROFILE | PR_ENABLE_SERIALIZATION_TIMEOUT_CHECK
| PR_DISABLE_SERIALIZATION_TIMEOUT_CHECK | PR_UNKNOWN.

Definition profiler_methods : list (string * ProfilerMethod) :=
  [("disable", PR_DISABLE); ("enable", PR_ENABLE); ("start", PR_START); ("stop", PR_STOP);
   ("setSamplingInterval", PR_SET_SAMPLING_INTERVAL); ("getBestEffortCoverage", PR_GET_BEST_EFFORT_COVERAGE);
   ("stopPreciseCoverage", PR_STOP_PRECISE_COVERAGE); ("takePreciseCoverage", PR_TAKE_PRECISE_COVERAGE);
   ("startPreciseCoverage", PR_START_PRECISE_COVERAGE); ("startTypeProfile", PR_START_TYPE_PROFILE);
   ("stopTypeProfile", PR_STOP_TYPE_PROFILE); ("takeTypeProfile", PR_TAKE_TYPE_PROFILE);
   ("enableSerializationTimeoutCheck", PR_ENABLE_SERIALIZATION_TIMEOUT_CHECK);
   ("disableSerializationTimeoutCheck", PR_DISABLE_SERIALIZATION_TIMEOUT_CHECK)]%string.

Definition Profiler_GetMethodEnum (method : bytes) : ProfilerMethod :=
  default PR_UNKNOWN (snd <$> (snd <$> list_find (λ e, str e.1 = method) profiler_methods)).

Definition profilerExtendedProtocols_ : list bytes :=
  str <$> ["startTypeProfile"; "stopTypeProfile"; "takeTypeProfile"; "enableSerializationTimeoutCheck";
           "disableSerializationTimeoutCheck"]%string.

Definition Profiler_Start : D DispatchResponse :=
  tell (SetProfilerState true) ;;;
  result <-- call StartCpuProfilerForInfo ;;
  if result : bool then ok else fail "Start is failure".

Definition Profiler_Stop : D (DispatchResponse * option Profile) :=
  profileInfo <-- call StopCpuProfilerForInfo ;;
  match profileInfo with
  | None => m_ret (DispatchResponse_Fail (str "Stop is failure"), None)
  | Some info =>
      tell (SetProfilerState false) ;;;
      m_ret (DispatchResponse_Ok, Some (Profile_FromProfileInfo info))
  end.

Definition Profiler_EnableSerializationTimeoutCheck (params : SeriliazationTimeoutCheckEnableParams) : D DispatchResponse :=
  tell (EnableSeriliazationTimeoutCheck (stc_threshold_ params)) ;;; ok.
Definition Profiler_DisableSerializationTimeoutCheck : D DispatchResponse := tell DisableSeriliazationTimeoutCheck ;;; ok.
Definition Profiler_SetSamplingInterval (params : SetSamplingIntervalParams) : D DispatchResponse :=
  tell (SetCpuSamplingInterval (ssv_interval_ params)) ;;; ok.

Definition Profiler_PreciseCoverageDeltaUpdate (x : PreciseCoverageDeltaUpdate) : D () :=
  send_notification (EvPreciseCoverageDeltaUpdate x).

Definition Profiler_handle (method : bytes) (p : PtJson) : D answer :=
  match Profiler_GetMethodEnum method with
  | PR_DISABLE => plain ok
  | PR_ENABLE => m_ret (DispatchResponse_Ok, Some (OfEnable (mkEnableReturns profilerExtendedProtocols_)))
  | PR_START => plain Profiler_Start
  | PR_STOP => r <-- Profiler_Stop ;; m_ret (r.1, (λ x, OfStop (mkStopReturns x)) <$> r.2)
  | PR_SET_SAMPLING_INTERVAL =>
      with_params (SetSamplingIntervalParams_Create p) (λ params, plain (Profiler_SetSamplingInterval params))
  | PR_GET_BEST_EFFORT_COVERAGE => plain (fail "GetBestEffortCoverage not support now")
  | PR_STOP_PRECISE_COVERAGE => plain (fail "StopPreciseCoverage not support now")
  | PR_TAKE_PRECISE_COVERAGE => plain (fail "TakePreciseCoverage not support now")
  | PR_START_PRECISE_COVERAGE =>
      with_params (StartPreciseCoverageParams_Create p) (λ _, plain (fail "StartPreciseCoverage not support now"))
  | PR_START_TYPE_PROFILE => plain (fail "StartTypeProfile not support now")
  | PR_STOP_TYPE_PROFILE => plain (fail "StopTypeProfile not support now")
  | PR_TAKE_TYPE_PROFILE => plain (fail "TakeTypeProfile not support now")
  | PR_ENABLE_SERIALIZATION_TIMEOUT_CHECK =>
      with_params (SeriliazationTimeoutCheckEnableParams_Create p) (λ params,
        plain (Profiler_EnableSerializationTimeoutCheck params))
  | PR_DISABLE_SERIALIZATION_TIMEOUT_CHECK => plain Profiler_DisableSerializationTimeoutCheck
  | PR_UNKNOWN => m_ret (DispatchResponse_Fail (str "Unknown method: " ++ method), None)
  end.

(** A request is answered when it has been carried out. *)
Definition respond (request : DispatchRequest) (m : T answer) : T () :=
  a <-- m ;; lift (send_response (dr_callId_ request) a.1 a.2).

Definition Profiler_Dispatch (request : DispatchRequest) : T () :=
  respond request (lift (Profiler_handle (dr_method_ request) (dr_params_ request))).

(** ** The heap profiler *)

(** The methods of the frontend. *)
Definition Heap_AddHeapSnapshotChunk (data : bytes) : D () := send_notification (EvAddHeapSnapshotChunk (mkAddHeapSnapshotChunk data)).
Definition Heap_AddHeapSnapshotExtraInfo (data : bytes) : D () :=
  send_notification (EvAddHeapSnapshotExtraInfo (mkAddHeapSnapshotExtraInfo data)).
Definition Heap_ReportHeapSnapshotProgress (done total : Z) : D () :=
  send_notification (EvReportHeapSnapshotProgress
    (mkReportHeapSnapshotProgress done total (if total <=? done then Some true else None))).
Definition Heap_HeapStatsUpdate (updateData : list HeapStat) : D () :=
  send_notification (EvHeapStatsUpdate (mkHeapStatsUpdate (updateData ≫= λ u, [hst_index_ u; hst_count_ u; hst_size_ u]))).
Definition Heap_LastSeenObjectId (lastSeenObjectId timeStampUs : Z) : D () :=
  send_notification (EvLastSeenObjectId (mkLastSeenObjectId lastSeenObjectId (double_div (double_of_Z timeStampUs) 1000))).

(** The stream always has a frontend; progress is reported if it was asked for. *)
Definition stream_step (progress : bool) (c : stream_call) : D () :=
  match c with
  | WriteChunk data | WriteBinBlock data => Heap_AddHeapSnapshotChunk data
  | WriteExtraInfo data => Heap_AddHeapSnapshotExtraInfo data
  | UpdateHeapStats updateData => Heap_HeapStatsUpdate updateData
  | UpdateLastSeenObjectId id timeStampUs => Heap_LastSeenObjectId id timeStampUs
  | ReportProgress done total => when progress (Heap_ReportHeapSnapshotProgress done total)
  | EndOfStream => m_ret ()
  end.
Definition run_stream (progress : bool) : list stream_call → D () := for_each (stream_step progress).

Inductive HeapMethod :=
| HP_ADD_INSPECTED_HEAP_OBJECT | HP_COLLECT_GARBAGE | HP_ENABLE | HP_DISABLE | HP_GET_HEAP_OBJECT_ID
| HP_GET_OBJECT_BY_HEAP_OBJECT_ID | HP_GET_SAMPLING_PROFILE | HP_START_SAMPLING | HP_START_TRACKING_HEAP_OBJECTS
| HP_STOP_SAMPLING | HP_STOP_TRACKING_HEAP_OBJECTS | HP_TAKE_HEAP_SNAPSHOT | HP_UNKNOWN.

Definition heap_methods : list (string * HeapMethod) :=
  [("addInspectedHeapObject", HP_ADD_INSPECTED_HEAP_OBJECT); ("collectGarbage", HP_COLLECT_GARBAGE);
   ("enable", HP_ENABLE); ("disable", HP_DISABLE); ("getHeapObjectId", HP_GET_HEAP_OBJECT_ID);
   ("getObjectByHeapObjectId", HP_GET_OBJECT_BY_HEAP_OBJECT_ID); ("getSamplingProfile", HP_GET_SAMPLING_PROFILE);
   ("startSampling", HP_START_SAMPLING); ("startTrackingHeapObjects", HP_START_TRACKING_HEAP_OBJECTS);
   ("stopSampling", HP_STOP_SAMPLING); ("stopTrackingHeapObjects", HP_STOP_TRACKING_HEAP_OBJECTS);
   ("takeHeapSnapshot", HP_TAKE_HEAP_SNAPSHOT)]%string.

Definition Heap_GetMethodEnum (method : bytes) : HeapMethod :=
  default HP_UNKNOWN (snd <$> (snd <$> list_find (λ e, str e.1 = method) heap_methods)).

Definition heapProfilerExtendedProtocols_ : list bytes := [].

Definition Heap_CollectGarbage : D DispatchResponse :=
  tell (TriggerGC FULL_GC) ;;; tell (TriggerGC SHARED_FULL_GC) ;;; ok.
Definition Heap_Disable : D DispatchResponse := tell DestroyHeapProfiler ;;; ok.

Definition Heap_GetSamplingProfile : D (DispatchResponse * option SamplingHeapProfile) :=
  samplingInfo <-- ask GetAllocationProfile ;;
  m_ret match samplingInfo with
        | None => (DispatchResponse_Fail (str "GetSamplingProfile fail"), None)
        | Some info => (DispatchResponse_Ok, Some (FromSamplingInfo info))
        end.

Definition Heap_StartSampling (params : StartSamplingParams) : D DispatchResponse :=
  tell (SetProfilerState true) ;;;
  let samplingInterval := double_to_uint64 (default (double_of_Z 32768) (ss_samplingInterval_ params)) in
  result <-- call (dfx_StartSampling samplingInterval) ;;
  if result : bool then ok else fail "StartSampling fail".

Definition Heap_StopSampling : D (DispatchResponse * option SamplingHeapProfile) :=
  r <-- Heap_GetSamplingProfile ;;
  if IsOk r.1 then
    tell dfx_StopSampling ;;;
    tell (SetProfilerState false) ;;;
    m_ret (DispatchResponse_Ok, r.2)
  else m_ret (DispatchResponse_Fail (str "StopSampling fail"), r.2).

Definition Heap_StartTrackingHeapObjects (params : StartTrackingHeapObjectsParams) : T DispatchResponse :=
  lift (tell (SetProfilerState true)) ;;;
  handle_ <-- heapTimer ;;
  if decide (handle_ = Some true) then m_ret DispatchResponse_Ok
  else
    r <-- lift (call (StartHeapTracking (default false (sth_trackAllocations_ params)))) ;;
    lift (run_stream false r.2) ;;;
    loop <-- lift (ask HasLoop) ;;
    if negb loop then m_ret (DispatchResponse_Fail (str "Loop is nullptr"))
    else
      set_heapTimer (Some true) ;;;
      m_ret (if r.1 : bool then DispatchResponse_Ok else DispatchResponse_Fail (str "StartHeapTracking fail")).

(** What the active timer calls. *)
Definition HeapTrackingCallback : D () :=
  calls <-- call UpdateHeapTracking ;; run_stream false calls.

Definition Heap_StopTrackingHeapObjects (params : StopTrackingHeapObjectsParams) : T DispatchResponse :=
  handle_ <-- heapTimer ;;
  set_heapTimer (stopped_timer handle_) ;;;
  r <-- lift (call StopHeapTracking) ;;
  lift (run_stream (default false (pth_reportProgress_ params)) r.2) ;;;
  if r.1 : bool then lift (tell (SetProfilerState false)) ;;; m_ret DispatchResponse_Ok
  else m_ret (DispatchResponse_Fail (str "StopHeapTracking fail")).

Definition Heap_TakeHeapSnapshot (params : StopTrackingHeapObjectsParams) : D DispatchResponse :=
  let dumpOption := mkDumpSnapShotOption true true false (default false (pth_captureNumericValue_ params))
                      (default 0 (pth_nativeAddrToNodeIdMap_ params)) in
  calls <-- call (DumpHeapSnapshot dumpOption) ;;
  run_stream (default false (pth_reportProgress_ params)) calls ;;;
  ok.

(** [with_params] for the agents with a timer. *)
Definition with_params_T {P} (create : created P) (k : P → T answer) : T answer :=
  match create with
  | Created params => k params
  | Rejected _ => m_ret (DispatchResponse_Fail (str "wrong params"), None)
  | Thrown | NoFuel => λ s, Throw s
  end.
Definition plain_T (m : T DispatchResponse) : T answer := r <-- m ;; m_ret (r, None).
Definition profile_answer (r : DispatchResponse * option SamplingHeapProfile) : answer :=
  (r.1, (λ x, OfStopSampling (mkStopSamplingReturns x)) <$> r.2).

Definition Heap_handle (method : bytes) (p : PtJson) : T answer :=
  match Heap_GetMethodEnum method with
  | HP_ADD_INSPECTED_HEAP_OBJECT =>
      lift (with_params (AddInspectedHeapObjectParams_Create p) (λ _, plain (fail "AddInspectedHeapObject not support now")))
  | HP_COLLECT_GARBAGE => lift (plain Heap_CollectGarbage)
  | HP_ENABLE => m_ret (DispatchResponse_Ok, Some (OfEnable (mkEnableReturns heapProfilerExtendedProtocols_)))
  | HP_DISABLE => lift (plain Heap_Disable)
  | HP_GET_HEAP_OBJECT_ID =>
      lift (with_params (GetHeapObjectIdParams_Create p) (λ _,
        m_ret (DispatchResponse_Fail (str "GetHeapObjectId not support now"),
               Some (OfGetHeapObjectId (mkGetHeapObjectIdReturns 0)))))
  | HP_GET_OBJECT_BY_HEAP_OBJECT_ID =>
      lift (with_params (GetObjectByHeapObjectIdParams_Create p) (λ _,
        plain (fail "GetObjectByHeapObjectId not support now")))
  | HP_GET_SAMPLING_PROFILE => lift (r <-- Heap_GetSamplingProfile ;; m_ret (profile_answer r))
  | HP_START_SAMPLING =>
      lift (with_params (StartSamplingParams_Create p) (λ params, plain (Heap_StartSampling params)))
  | HP_START_TRACKING_HEAP_OBJECTS =>
      with_params_T (StartTrackingHeapObjectsParams_Create p) (λ params, plain_T (Heap_StartTrackingHeapObjects params))
  | HP_STOP_SAMPLING => lift (r <-- Heap_StopSampling ;; m_ret (profile_answer r))
  | HP_STOP_TRACKING_HEAP_OBJECTS =>
      with_params_T (StopTrackingHeapObjectsParams_Create p) (λ params, plain_T (Heap_StopTrackingHeapObjects params))
  | HP_TAKE_HEAP_SNAPSHOT =>
      lift (with_params (StopTrackingHeapObjectsParams_Create p) (λ params, plain (Heap_TakeHeapSnapshot params)))
  | HP_UNKNOWN => m_ret (DispatchResponse_Fail (str "Unknown method: " ++ method), None)
  end.

Definition Heap_Dispatch (request : DispatchRequest) : T () :=
  respond request (Heap_handle (dr_method_ request) (dr_params_ request)).

(** ** Tracing *)

Inductive TracingMethod :=
| TR_END | TR_GET_CATEGORIES | TR_RECORD_CLOCK_SYNC_MARKER | TR_REQUEST_MEMORY_DUMP | TR_START | TR_UNKNOWN.

Definition tracing_methods : list (string * TracingMethod) :=
  [("end", TR_END); ("getCategories", TR_GET_CATEGORIES); ("recordClockSyncMarker", TR_RECORD_CLOCK_SYNC_MARKER);
   ("requestMemoryDump", TR_REQUEST_MEMORY_DUMP); ("start", TR_START)]%string.

Definition Tracing_GetMethodEnum (method : bytes) : TracingMethod :=
  default TR_UNKNOWN (snd <$> (snd <$> list_find (λ e, str e.1 = method) tracing_methods)).

(** The categories separated by commas. *)
Fixpoint join_categories (l : list bytes) : bytes :=
  match l with
  | [] => []
  | [c] => c
  | c :: rest => c ++ str "," ++ join_categories rest
  end.

Definition GetCategoriesFromStartParams (params : StartParams) : bytes :=
  match default [] (st_categories_ params) with
  | [] => match st_traceConfig_ params ≫= tc_includedCategories_ with
          | Some includeCategories => join_categories includeCategories
          | None => []
          end
  | categories => categories
  end.

Definition Tracing_Start (params : StartParams) : T DispatchResponse :=
  started <-- lift (call (StartTracing (GetCategoriesFromStartParams params))) ;;
  if negb started then m_ret (DispatchResponse_Fail (str "Start tracing failed"))
  else if support_tracing && bool_decide (is_Some (st_bufferUsageReportingInterval_ params)) then
    handle_ <-- traceTimer ;;
    if decide (handle_ = Some true) then m_ret DispatchResponse_Ok
    else
      loop <-- lift (ask HasLoop) ;;
      if negb loop then m_ret (DispatchResponse_Fail (str "Loop is nullptr"))
      else set_traceTimer (Some true) ;;; m_ret DispatchResponse_Ok
  else m_ret DispatchResponse_Ok.

Definition Tracing_End : T (option (list TraceEvent)) :=
  handle_ <-- traceTimer ;;
  (if support_tracing then set_traceTimer (stopped_timer handle_) else m_ret ()) ;;;
  lift (call StopTracing).

Definition Tracing_BufferUsage (percentFull : double) (eventCount : Z) (value : double) : D () :=
  send_notification (EvBufferUsage (mkBufferUsage (Some percentFull) (Some eventCount) (Some value))).
Definition Tracing_DataCollected (traceEvents : list TraceEvent) : D () := send_notification (EvDataCollected (mkDataCollected traceEvents)).
Definition Tracing_TracingComplete : D () := send_notification (EvTracingComplete (mkTracingComplete false None None)).

(** What the active timer calls. *)
Definition TracingBufferUsageReport : D () :=
  usage <-- ask GetTracingBufferUseage ;;
  let '(percentFull, eventCount, value) := usage in
  Tracing_BufferUsage percentFull (uint32_to_int32 eventCount) value.

(** "end" answers before it sends what was collected. *)
Definition Tracing_Dispatch_End (request : DispatchRequest) : T () :=
  traceEvents <-- Tracing_End ;;
  match traceEvents with
  | None => lift (send_response (dr_callId_ request) (DispatchResponse_Fail (str "Stop is failure")) None)
  | Some events =>
      lift (send_response (dr_callId_ request) DispatchResponse_Ok None) ;;;
      lift (Tracing_DataCollected events) ;;;
      lift Tracing_TracingComplete
  end.

Definition Tracing_Dispatch (request : DispatchRequest) : T () :=
  let p := dr_params_ request in
  match Tracing_GetMethodEnum (dr_method_ request) with
  | TR_END => Tracing_Dispatch_End request
  | TR_GET_CATEGORIES => respond request (lift (plain (fail "GetCategories not support now.")))
  | TR_RECORD_CLOCK_SYNC_MARKER => respond request (lift (plain (fail "RecordClockSyncMarker not support now.")))
  | TR_REQUEST_MEMORY_DUMP =>
      respond request (lift (with_params (RequestMemoryDumpParams_Create p) (λ _,
        plain (fail "RequestMemoryDump not support now."))))
  | TR_START =>
      respond request (with_params_T (StartParams_Create p) (λ params, plain_T (Tracing_Start params)))
  | TR_UNKNOWN =>
      respond request (m_ret (DispatchResponse_Fail (str "Unknown method: " ++ dr_method_ request), None))
  end.

(** ** The agents that only answer *)

Definition Page_Dispatch (request : DispatchRequest) : T () :=
  respond request (m_ret (
    if bool_decide (dr_method_ request = str "getNavigationHistory")
    then (DispatchResponse_Ok, Some OfGetNavigationHistory)
    else (DispatchResponse_Fail (str "Unknown method: " ++ dr_method_ request), None))).

(** An agent that knows one method. *)
Definition Stub_Dispatch (known : string) (request : DispatchRequest) : T () :=
  respond request (m_ret (
    if bool_decide (dr_method_ request = str known) then (DispatchResponse_Ok, None)
    else (DispatchResponse_Fail (str "Unknown method: " ++ dr_method_ request), None))).

Definition Animation_Dispatch : DispatchRequest → T () := Stub_Dispatch "disable".
Definition Css_Dispatch : DispatchRequest → T () := Stub_Dispatch "disable".
Definition Dom_Dispatch : DispatchRequest → T () := Stub_Dispatch "disable".
Definition Overlay_Dispatch : DispatchRequest → T () := Stub_Dispatch "disable".
Definition Target_Dispatch : DispatchRequest → T () := Stub_Dispatch "setAutoAttach".

(** ** All agents *)

(** Only the debugger and the runtime return a text for another language. *)
Definition dispatch_agent (domain : Domain) (request : DispatchRequest) (crossLanguageDebug : bool) : T (option bytes) :=
  match domain with
  | Debugger => lift (Debugger_Dispatch request crossLanguageDebug)
  | Runtime => lift (Runtime_Dispatch request crossLanguageDebug)
  | Profiler => Profiler_Dispatch request ;;; m_ret None
  | HeapProfiler => Heap_Dispatch request ;;; m_ret None
  | Tracing => Tracing_Dispatch request ;;; m_ret None
  | Page => Page_Dispatch request ;;; m_ret None
  | DOM => Dom_Dispatch request ;;; m_ret None
  | CSS => Css_Dispatch request ;;; m_ret None
  | Overlay => Overlay_Dispatch request ;;; m_ret None
  | Animation => Animation_Dispatch request ;;; m_ret None
  | Target => Target_Dispatch request ;;; m_ret None
  end.

(** The table of the dispatcher; [None] is a process that has ended by an exception. *)
#[export] Instance session_agents : Agents (option session) := λ domain request crossLanguageDebug s,
  match s with
  | None => (None, None)
  | Some s =>
      match dispatch_agent domain request crossLanguageDebug s with
      | Ret text s' => (text, Some s')
      | Block s' => (None, Some s')
      | Throw _ => (None, None)
      end
  end.

End Agents.
