(* ===== verification/AgentAnswers.v ===== *)
(** * All agents together: answers and timers

    The dispatcher of Dispatcher.v over the agents of ProfilerAgents.v: every
    valid request for a domain that exists is answered exactly once. And the state
    of the profilers: what is left on when a request fails. *)

From S2P Require Import Prelude Regex Http CppLib Utils ThreadState.
From S2P Require Import PtJson PtCodec PtTypes PtProfile PtSchema PtParams PtEvents PtReturns Dispatcher.
From S2P Require Import DebuggerState CallFrames DebuggerAgent DebuggerHooks DebuggerDispatch DebuggerLogic DebuggerTables.
From S2P Require Import PausedObjects RuntimeAgent RuntimeObjects ProfilerAgents.
Local Open Scope Z_scope.
Local Open Scope ark_scope.

Create HintDb ark_quiet discriminated.

Section Answers.
Context `{cj : CJson} {cjOK : CJsonOK cj} `{CastOob} `{JsApi} `{!DfxApi} `{SignedOverflow} `{HashOrder} `{Build}.
Context (tagged_plain : ∀ v x, ro_objectId_ (FromTagged v x) = None).
Context (objects_convert : ∀ v x, IsObjectValue v x = true → is_Some (ToObject v x)).

(** ** Operations that return and do not answer *)

Definition quiet_at {A} (m : D A) (w : world) : Prop :=
  ∃ a w', m w = Ret a w' ∧ w_dbg w' = w_dbg w ∧ answers w' = answers w.
Definition quiet {A} (m : D A) : Prop := ∀ w, quiet_at m w.
Definition quiet_T {A} (m : T A) : Prop := ∀ s,
  ∃ a s', m s = Ret a s' ∧ w_dbg (s_world s') = w_dbg (s_world s) ∧ answers (s_world s') = answers (s_world s).

Lemma quiet_ret {A} (a : A) : quiet (m_ret a). Proof. by repeat eexists. Qed.
Lemma quiet_ask {A} (f : vm → A) : quiet (ask f). Proof. by repeat eexists. Qed.
Lemma quiet_get {A} (f : DebuggerImpl → A) : quiet (get f). Proof. by repeat eexists. Qed.
Lemma quiet_tell f : quiet (tell f). Proof. by repeat eexists. Qed.
Lemma quiet_call {A} (f : vm → A * vm) : quiet (call f).
Proof. intros w. unfold quiet_at, call. destruct (f (w_vm w)). by repeat eexists. Qed.
Lemma quiet_emit c : is_result c = false → quiet (emit c).
Proof.
  intros Hc w. do 2 eexists. split; [done|]. split; [done|]. unfold answers. simpl.
  rewrite filter_app, filter_cons_False by congruence. by rewrite filter_nil, app_nil_r.
Qed.
Lemma quiet_bind {A B} (m : D A) (k : A → D B) : quiet m → (∀ a, quiet (k a)) → quiet (m_bind k m).
Proof.
  intros Hm Hk w. destruct (Hm w) as (a & w1 & E1 & D1 & A1). destruct (Hk a w1) as (b & w2 & E2 & D2 & A2).
  exists b, w2. unfold m_bind. rewrite E1. split_and!; [done|congruence..].
Qed.
Lemma quiet_when b (m : D ()) : quiet m → quiet (when b m).
Proof. destruct b; [done|]. intros _. apply quiet_ret. Qed.
Hint Resolve quiet_ret quiet_ask quiet_get quiet_tell quiet_call quiet_when : ark_quiet.

Lemma quiet_T_ret {A} (a : A) : quiet_T (m_ret a). Proof. by repeat eexists. Qed.
Lemma quiet_lift {A} (m : D A) : quiet m → quiet_T (lift m).
Proof.
  intros Hm s. destruct (Hm (s_world s)) as (a & w & E & Hd & Ha). unfold lift. rewrite E. by do 2 eexists.
Qed.
Lemma quiet_T_bind {A B} (m : T A) (k : A → T B) : quiet_T m → (∀ a, quiet_T (k a)) → quiet_T (m_bind k m).
Proof.
  intros Hm Hk s. destruct (Hm s) as (a & s1 & E1 & D1 & A1). destruct (Hk a s1) as (b & s2 & E2 & D2 & A2).
  exists b, s2. unfold m_bind. rewrite E1. split_and!; [done|congruence..].
Qed.
Lemma quiet_timers : quiet_T heapTimer ∧ quiet_T traceTimer ∧ (∀ t, quiet_T (set_heapTimer t)) ∧ ∀ t, quiet_T (set_traceTimer t).
Proof. split_and!; by repeat eexists. Qed.

Ltac quieten :=
  repeat first
    [ solve [auto with ark_quiet nocore] | apply quiet_bind; [|intros ?] | apply quiet_T_bind; [|intros ?]
    | apply quiet_lift | apply quiet_T_ret | apply quiet_timers | case_match ].
Ltac by_quiet := match goal with |- quiet ?m => let h := head_of m in unfold h | |- quiet_T ?m => let h := head_of m in unfold h end; quieten.

Lemma ok_quiet : quiet ok. Proof. by_quiet. Qed.
Lemma fail_quiet t : quiet (fail t). Proof. by_quiet. Qed.
Hint Resolve ok_quiet fail_quiet : ark_quiet.
Lemma plain_quiet m : quiet m → quiet (plain m). Proof. intros ?. by_quiet. Qed.
Lemma send_notification_quiet e : quiet (send_notification e).
Proof. unfold send_notification. apply quiet_bind; [quieten|intros b]. apply quiet_when. by apply quiet_emit. Qed.
Hint Resolve plain_quiet send_notification_quiet : ark_quiet.
Lemma stream_quiet b l : quiet (run_stream b l).
Proof.
  unfold run_stream. induction l as [|c l IH]; cbn [for_each]; [quieten|]. apply quiet_bind; [|done].
  destruct c; cbn [stream_step]; unfold Heap_AddHeapSnapshotChunk, Heap_AddHeapSnapshotExtraInfo, Heap_HeapStatsUpdate,
    Heap_LastSeenObjectId, Heap_ReportHeapSnapshotProgress; quieten.
Qed.
Hint Resolve stream_quiet : ark_quiet.

(** The parameters of a request are read without an exception. *)
Lemma with_params_quiet {P} (create : PtJson → created P) t p v k :
  decides create t → rep p v → (∀ x, quiet (k x)) → quiet (with_params (create p) k).
Proof.
  intros Hd Hp Hk. specialize (Hd p v Hp). unfold verdict in Hd.
  destruct (fits t v); [destruct Hd as [x ->]|destruct Hd as (e & -> & _)]; simpl; [apply Hk|quieten].
Qed.
Lemma with_params_T_quiet {P} (create : PtJson → created P) t p v k :
  decides create t → rep p v → (∀ x, quiet_T (k x)) → quiet_T (with_params_T (create p) k).
Proof.
  intros Hd Hp Hk. specialize (Hd p v Hp). unfold verdict in Hd.
  destruct (fits t v); [destruct Hd as [x ->]|destruct Hd as (e & -> & _)]; simpl; [apply Hk|quieten].
Qed.

(** ** The agents *)

Ltac read_params :=
  match goal with
  | Hd : decides ?c ?t |- quiet (with_params (?c _) _) => eapply (with_params_quiet c t); [exact Hd|eassumption|intros ?]
  | Hd : decides ?c ?t |- quiet_T (with_params_T (?c _) _) => eapply (with_params_T_quiet c t); [exact Hd|eassumption|intros ?]
  end.

Lemma Profiler_quiet method p v : rep p v → quiet (Profiler_handle method p).
Proof.
  intros Hp. destruct other_params_accepted as (? & ? & ? & ? & ? & ? & ? & ? & ? & ? & ? & ? & ? & ?).
  unfold Profiler_handle. destruct (Profiler_GetMethodEnum method); try read_params;
    unfold Profiler_Start, Profiler_Stop, Profiler_SetSamplingInterval, Profiler_EnableSerializationTimeoutCheck,
      Profiler_DisableSerializationTimeoutCheck; try apply plain_quiet; quieten.
Qed.

Lemma Heap_quiet method p v : rep p v → quiet_T (Heap_handle method p).
Proof.
  intros Hp. destruct other_params_accepted as (? & ? & ? & ? & ? & ? & ? & ? & ? & ? & ? & ? & ? & ?).
  unfold Heap_handle. destruct (Heap_GetMethodEnum method); try apply quiet_lift; try read_params;
    unfold plain_T, Heap_CollectGarbage, Heap_Disable, Heap_GetSamplingProfile, Heap_StartSampling, Heap_StopSampling,
      Heap_GetSamplingProfile, Heap_TakeHeapSnapshot, Heap_StartTrackingHeapObjects, Heap_StopTrackingHeapObjects;
    try apply plain_quiet; quieten.
Qed.

Lemma GetProperties_quiet params : quiet (Runtime_GetProperties params).
Proof.
  intros w. destruct (GetProperties_returns objects_convert params w) as (a & w' & E). exists a, w'. split; [done|].
  destruct (GetProperties_issues tagged_plain params w a w' E) as [_ _ _ _ _ Hd Hc]. split; [done|].
  unfold answers. by rewrite Hc.
Qed.
Hint Resolve GetProperties_quiet : ark_quiet.

Lemma Runtime_quiet method p v : rep p v → quiet (Runtime_handle method p).
Proof.
  intros Hp. destruct other_params_accepted as (? & ? & ? & ? & ? & ? & ? & ? & ? & ? & ? & ? & ? & ?).
  unfold Runtime_handle. destruct (Runtime_GetMethodEnum method); try read_params;
    unfold Runtime_Enable, Runtime_Disable, Runtime_RunIfWaitingForDebugger, Runtime_GetHeapUsage,
      Frontend_RunIfWaitingForDebugger; try apply plain_quiet; quieten.
  apply quiet_when. by apply quiet_emit.
Qed.

(** ** Answers *)

(** With a channel, exactly one answer is sent, with the id of the request. *)
Definition answers_once (request : DispatchRequest) {A} (m : T A) : Prop := ∀ s,
  channel_ (w_dbg (s_world s)) = true →
  ∃ a s' response result, m s = Ret a s' ∧
    answers (s_world s') = answers (s_world s) ++ [SendResult (dr_callId_ request) response result].

Lemma send_response_run callId response result w :
  channel_ (w_dbg w) = true →
  send_response callId response result w =
    Ret () (set_calls (w_calls w ++ [SendResult callId response (default BaseReturns result)]) w).
Proof. intros Hc. unfold send_response, m_bind, get, when, emit, m_modify. by rewrite Hc. Qed.

Lemma answers_result w callId response result :
  answers (set_calls (w_calls w ++ [SendResult callId response result]) w) =
  answers w ++ [SendResult callId response result].
Proof. unfold answers. simpl. rewrite filter_app, filter_cons_True by done. by rewrite filter_nil. Qed.

Lemma lift_run {A} (m : D A) s a w :
  m (s_world s) = Ret a w → lift m s = Ret a (mkSession w (s_heapTimer s) (s_traceTimer s)).
Proof. unfold lift. by intros ->. Qed.

Lemma respond_once request m : quiet_T m → answers_once request (respond request m).
Proof.
  intros Hm s Hc. destruct (Hm s) as (a & s1 & E1 & D1 & A1). unfold respond, m_bind. rewrite E1. unfold lift.
  rewrite send_response_run by congruence. do 4 eexists. split; [done|]. cbn [s_world]. by rewrite answers_result, A1.
Qed.

Lemma once_none request (m : T ()) : answers_once request m → answers_once request (m ;;; m_ret (@None bytes)).
Proof.
  intros Hm s Hc. destruct (Hm s Hc) as (a & s' & r & x & E & Ha). unfold m_bind. rewrite E. by do 4 eexists.
Qed.

Lemma Tracing_once request v : rep (dr_params_ request) v → answers_once request (Tracing_Dispatch request).
Proof.
  intros Hp. destruct other_params_accepted as (? & ? & ? & ? & ? & ? & ? & ? & ? & ? & ? & ? & ? & ?).
  unfold Tracing_Dispatch. destruct (Tracing_GetMethodEnum _); try apply respond_once; try apply quiet_lift; try read_params;
    unfold plain_T, Tracing_Start; try apply plain_quiet; try solve [quieten].
  intros s Hc. assert (He : quiet_T Tracing_End) by (unfold Tracing_End; quieten).
  destruct (He s) as (events & s1 & E1 & D1 & A1). unfold Tracing_Dispatch_End. erewrite m_bind_ret by exact E1.
  destruct events as [events|].
  - assert (Hn : quiet_T (lift (Tracing_DataCollected events) ;;; lift Tracing_TracingComplete))
      by (unfold Tracing_DataCollected, Tracing_TracingComplete; quieten).
    erewrite m_bind_ret by (apply lift_run, send_response_run; congruence).
    destruct (Hn (mkSession (set_calls (w_calls (s_world s1) ++
      [SendResult (dr_callId_ request) DispatchResponse_Ok (default BaseReturns None)]) (s_world s1)) (s_heapTimer s1)
      (s_traceTimer s1))) as ([] & s2 & E2 & D2 & A2).
    do 4 eexists. split; [exact E2|]. rewrite A2. cbn [s_world]. rewrite answers_result, A1. done.
  - erewrite lift_run by (apply send_response_run; congruence). do 4 eexists. split; [done|]. cbn [s_world].
    by rewrite answers_result, A1.
Qed.

Lemma Runtime_once request v : rep (dr_params_ request) v → answers_once request (lift (Runtime_Dispatch request false)).
Proof.
  intros Hp s Hc. destruct (Runtime_quiet (dr_method_ request) _ _ Hp (s_world s)) as (a & w & E & Hd & Ha).
  unfold lift, Runtime_Dispatch. erewrite m_bind_ret by exact E. unfold m_bind. rewrite send_response_run by congruence.
  do 4 eexists. split; [done|]. cbn [s_world]. by rewrite answers_result, Ha.
Qed.

(** The dispatcher together with its agents answers every request once: a
    valid request for a domain of the build, other than "Debugger", with
    parameters that are JSON, returns, and exactly one response is added, with the
    id of the request. *)
Theorem agents_answer_once (request : DispatchRequest) (d : Domain) (v : jval) (s : session) :
  IsValid request = true → find_dispatcher (dr_domain_ request) = Some d → d ≠ Debugger →
  rep (dr_params_ request) v → channel_ (w_dbg (s_world s)) = true →
  ∃ s' response result,
    Dispatch request false (Some s) = Returned None (Some s') ∧
    answers (s_world s') = answers (s_world s) ++ [SendResult (dr_callId_ request) response result].
Proof.
  intros Hv Hd Hn Hp Hc. unfold Dispatch. rewrite Hv, Hd. cbn [negb]. unfold agent_dispatch, session_agents.
  assert (Hq : answers_once request (dispatch_agent d request false)).
  { destruct d; cbn [dispatch_agent]; try done;
      (first [by eapply Runtime_once | apply once_none]);
      (first [by eapply Tracing_once | unfold Profiler_Dispatch, Heap_Dispatch, Page_Dispatch, Animation_Dispatch,
        Css_Dispatch, Dom_Dispatch, Overlay_Dispatch, Target_Dispatch, Stub_Dispatch; apply respond_once]);
      first [apply quiet_lift; by eapply Profiler_quiet | by eapply Heap_quiet | apply quiet_T_ret]. }
  assert (Ht : ∀ t s', dispatch_agent d request false s = Ret t s' → t = None).
  { intros t s'. destruct d; cbn [dispatch_agent]; try done; try by intros (? & ? & _ & [= <- <-])%m_bind_inv.
    unfold lift, Runtime_Dispatch, m_bind. destruct (Runtime_handle _ _ _) as [a w| |]; [|done..].
    destruct (send_response _ _ _ _); by intros [= <- <-]. }
  destruct (Hq s Hc) as (t & s' & r & x & E & Ha). rewrite E. rewrite (Ht t s' E). by exists s', r, x.
Qed.

(** ** Snapshots and tracking *)

(** The events that the calls on the stream give. *)
Definition stream_event (progress : bool) (c : stream_call) : option notification_event :=
  match c with
  | WriteChunk data | WriteBinBlock data => Some (EvAddHeapSnapshotChunk (mkAddHeapSnapshotChunk data))
  | WriteExtraInfo data => Some (EvAddHeapSnapshotExtraInfo (mkAddHeapSnapshotExtraInfo data))
  | UpdateHeapStats l =>
      Some (EvHeapStatsUpdate (mkHeapStatsUpdate (l ≫= λ u, [hst_index_ u; hst_count_ u; hst_size_ u])))
  | UpdateLastSeenObjectId id t =>
      Some (EvLastSeenObjectId (mkLastSeenObjectId id (double_div (double_of_Z t) 1000)))
  | ReportProgress done total =>
      if progress then Some (EvReportHeapSnapshotProgress
        (mkReportHeapSnapshotProgress done total (if total <=? done then Some true else None)))
      else None
  | EndOfStream => None
  end.

(** They are sent in the order of the calls. *)
Lemma run_stream_run b l w :
  run_stream b l w =
    Ret () (if channel_ (w_dbg w) then set_calls (w_calls w ++ (SendEvent <$> omap (stream_event b) l)) w else w).
Proof.
  assert (Hn : ∀ e w, send_notification e w =
    Ret () (if channel_ (w_dbg w) then set_calls (w_calls w ++ [SendEvent e]) w else w)).
  { intros e w0. unfold send_notification, m_bind, get, when, emit, m_modify. by destruct (channel_ _). }
  unfold run_stream. revert w. induction l as [|c l IH]; intros w; cbn [for_each].
  { destruct (channel_ _); [|done]. simpl. rewrite app_nil_r. by destruct w. }
  assert (Hc : stream_step b c w =
    Ret () (if channel_ (w_dbg w) then set_calls (w_calls w ++ (SendEvent <$> omap (stream_event b) [c])) w else w)).
  { destruct c; cbn [stream_step]; try apply Hn; [destruct b; [apply Hn|]|];
      destruct (channel_ _); try done; cbn; rewrite app_nil_r; by destruct w. }
  erewrite m_bind_ret by exact Hc. rewrite IH. destruct (channel_ (w_dbg w)) eqn:E; cbn [w_dbg set_calls]; rewrite E; [|done].
  cbn [w_calls set_calls]. rewrite <- app_assoc, <- fmap_app, <- omap_app. done.
Qed.

Lemma call_run {A} (f : vm → A * vm) w a v : f (w_vm w) = (a, v) → call f w = Ret a (set_vm v w).
Proof. unfold call. by intros ->. Qed.

(** "takeHeapSnapshot" succeeds; what the virtual machine has written to the
    stream, and its progress if that was asked for, has been sent in this order. *)
Theorem snapshot_sent (params : StopTrackingHeapObjectsParams) (w : world) :
  channel_ (w_dbg w) = true →
  ∃ calls v, DumpHeapSnapshot (mkDumpSnapShotOption true true false (default false (pth_captureNumericValue_ params))
                                (default 0 (pth_nativeAddrToNodeIdMap_ params))) (w_vm w) = (calls, v) ∧
    Heap_TakeHeapSnapshot params w =
      Ret DispatchResponse_Ok
        (set_calls (w_calls w ++ (SendEvent <$> omap (stream_event (default false (pth_reportProgress_ params))) calls))
           (set_vm v w)).
Proof.
  intros Hc. unfold Heap_TakeHeapSnapshot, m_bind at 1, call.
  destruct (DumpHeapSnapshot _ (w_vm w)) as [calls v]. exists calls, v. split; [done|].
  erewrite m_bind_ret by apply run_stream_run. cbn [w_dbg set_vm]. by rewrite Hc.
Qed.

(** Outcomes of "startTrackingHeapObjects". While the timer runs it succeeds
    and only switches the profiler state on. Otherwise tracking is started first;
    without an event loop it fails although tracking may have started, and with
    one the timer is started even when tracking has failed. The profiler state is
    on in every case. *)
Theorem start_tracking_outcomes (params : StartTrackingHeapObjectsParams) (s : session) :
  let v1 := SetProfilerState true (w_vm (s_world s)) in
  (s_heapTimer s = Some true →
   Heap_StartTrackingHeapObjects params s =
     Ret DispatchResponse_Ok (mkSession (set_vm v1 (s_world s)) (s_heapTimer s) (s_traceTimer s))) ∧
  (s_heapTimer s ≠ Some true →
   ∃ started calls v2 s', StartHeapTracking (default false (sth_trackAllocations_ params)) v1 = ((started, calls), v2) ∧
     Heap_StartTrackingHeapObjects params s =
       Ret (if HasLoop v2 then
              if started : bool then DispatchResponse_Ok else DispatchResponse_Fail (str "StartHeapTracking fail")
            else DispatchResponse_Fail (str "Loop is nullptr")) s' ∧
     w_vm (s_world s') = v2 ∧ s_heapTimer s' = if HasLoop v2 then Some true else s_heapTimer s).
Proof.
  intros v1. unfold Heap_StartTrackingHeapObjects. split.
  - intros Ht. do 2 (erewrite m_bind_ret by reflexivity). by rewrite decide_True.
  - intros Ht. do 2 (erewrite m_bind_ret by reflexivity). rewrite decide_False by done.
    destruct (StartHeapTracking (default false (sth_trackAllocations_ params)) v1) as [[started calls] v2] eqn:Es.
    erewrite m_bind_ret by (apply lift_run, call_run; exact Es). cbn [fst snd].
    erewrite m_bind_ret by (apply lift_run, run_stream_run). erewrite m_bind_ret by reflexivity. cbn [s_world].
    exists started, calls, v2.
    destruct (channel_ _); cbn [w_vm set_calls set_vm s_world]; destruct (HasLoop v2); eexists; by split_and!.
Qed.

End Answers.
