(* ===== verification/DebuggerPause.v ===== *)
(** * The debugger agent: stopping and releasing the program

    The abstract protocol between the client and the program is a machine with
    two states; the requests and the hooks of the agent are proved to follow it,
    the two that do so in an odd way included. The stop of the program and
    the steps are described from the hook to what the client sees. *)

From S2P Require Import Prelude Base64 Regex Http CppLib Utils ThreadState.
From S2P Require Import PtJson PtCodec PtTypes PtProfile PtSchema PtParams PtEvents PtReturns Dispatcher.
From S2P Require Import DebuggerState SingleStepper CallFrames DebuggerAgent DebuggerHooks DebuggerDispatch DebuggerLogic.
From S2P Require Import PausedObjects.
Local Open Scope Z_scope.
Local Open Scope ark_scope.

(** ** The abstract protocol *)

Inductive program_state := Running | Stopped.

(** What the client and the channel see of it. *)
Inductive control := CtlPaused | CtlWait | CtlRun | CtlResumed.


Section Pause.
Context `{cj : CJson} `{CastOob} `{EcmaVm} `{HashOrder}.

Definition program_state_of (d : DebuggerImpl) : program_state :=
  match debuggerState_ d with PAUSED => Stopped | _ => Running end.

Definition control_of (c : channel_call) : option control :=
  match c with
  | ChannelWait => Some CtlWait
  | ChannelRun => Some CtlRun
  | SendEvent EvResumed => Some CtlResumed
  | SendEvent (EvPaused _) => Some CtlPaused
  | _ => None
  end.
Definition controls (w : world) : list control := omap control_of (w_calls w).

(** The client is connected and debugging is enabled. *)
Definition attached (w : world) : bool := IsDebugMode (w_vm w) && channel_ (w_dbg w).

(** ** Requests that do not control the program *)

Definition undisturbed (w w' : world) : Prop :=
  program_state_of (w_dbg w) = program_state_of (w_dbg w') ∧ controls w = controls w'.

#[local] Instance undisturbed_frame : QuietFrame undisturbed.
Proof.
  split; [split|]; try done.
  - unfold undisturbed. split; [done|]. intros ? ? ? [-> ->] [-> ->]. done.
  - intros w d [_ Hd]. unfold undisturbed, program_state_of. simpl. by rewrite Hd.
Qed.

Lemma undisturbed_emit c : control_of c = None → keeps undisturbed (emit c).
Proof. intros Hc w. split; [done|]. unfold controls. simpl. rewrite omap_app. simpl. by rewrite Hc, app_nil_r. Qed.


(** ** Requests that control it *)




Lemma Resumed_run w :
  attached w = true → Frontend_Resumed w = Ret () (set_calls (w_calls w ++ [ChannelRun; SendEvent EvResumed]) w).
Proof.
  unfold Frontend_Resumed, AllowNotify, attached. intros Ha. unfold m_bind, ask, get, m_ret. rewrite Ha.
  unfold when, emit, m_modify. cbn [w_calls set_calls]. by rewrite <- app_assoc.
Qed.

(** The state after the program has been released. *)
Definition released (w : world) : world :=
  set_dbg (set_debuggerState_ ENABLED (w_dbg w)) (set_calls (w_calls w ++ [ChannelRun; SendEvent EvResumed]) w).











(** "enable" may only turn a stopped program into a running one. *)
Definition calm (w w' : world) : Prop :=
  controls w = controls w' ∧ (program_state_of (w_dbg w) = Running → program_state_of (w_dbg w') = Running).

#[local] Instance calm_frame : QuietFrame calm.
Proof.
  split; [split|]; try done.
  - unfold calm. split; [done|]. intros ? ? ? [-> ?] [-> ?]. naive_solver.
  - intros w d [_ Hd]. unfold calm, program_state_of. simpl. by rewrite Hd.
Qed.

Lemma Enable_calm p : keeps calm (Debugger_Enable p).
Proof.
  assert (Hput : keeps calm (put (set_debuggerState_ ENABLED))) by done.
  assert (Hemit : ∀ x, keeps calm (emit (SendEvent (EvScriptParsed x)))).
  { intros x w. split; [|done]. unfold controls. simpl. by rewrite omap_app, app_nil_r. }
  unfold Debugger_Enable, EnableDebuggerFeatures, EnableFeature, Frontend_ScriptParsed, Frontend_send, AllowNotify, Ok.
  keep.
Qed.

(** It always succeeds, and the agent takes the program for running. *)
Lemma Enable_enabled p w r w' : Debugger_Enable p w = Ret r w' → IsOk r.1 = true ∧ debuggerState_ (w_dbg w') = ENABLED.
Proof.
  unfold Debugger_Enable. intros E. do 5 (apply m_bind_inv in E as (? & ? & _ & E)).
  by apply m_bind_inv in E as (? & w5 & [= <- <-] & [= <- <-]).
Qed.





(** ** Releasing a stopped program *)

(** C35: a stopped program can be released: a "resume" with acceptable parameters
    succeeds, and so does a step when there is debug information of the current
    function; the channel is told to run on, the client that the program has
    resumed, and the agent is ready for the next stop. *)
Theorem stopped_program_released (method : bytes) (p : PtJson) (w : world) :
  attached w = true → debuggerState_ (w_dbg w) = PAUSED →
  match GetMethodEnum method with
  | RESUME => ∃ x, ResumeParams_Create p = Created x
  | STEP_INTO => (∃ x, StepIntoParams_Create p = Created x) ∧ is_Some (GetJSPtExtractor (w_vm w) (GetMethod (w_vm w)).2)
  | STEP_OVER => (∃ x, StepOverParams_Create p = Created x) ∧ is_Some (GetJSPtExtractor (w_vm w) (GetMethod (w_vm w)).2)
  | STEP_OUT => is_Some (GetJSPtExtractor (w_vm w) (GetMethod (w_vm w)).2)
  | _ => False
  end →
  ∃ w', handle method p w = Ret (DispatchResponse_Ok, None) w' ∧
        w_calls w' = w_calls w ++ [ChannelRun; SendEvent EvResumed] ∧ debuggerState_ (w_dbg w') = ENABLED.
Proof.
  intros Ha Hp.
  assert (Hstep : ∀ t failed mark, is_Some (GetJSPtExtractor (w_vm w) (GetMethod (w_vm w)).2) →
    ∃ w', plain (step_request (GetStepper t) failed mark) w = Ret (DispatchResponse_Ok, None) w' ∧
      w_calls w' = w_calls w ++ [ChannelRun; SendEvent EvResumed] ∧ debuggerState_ (w_dbg w') = ENABLED).
  { intros t failed mark [e He]. unfold plain, step_request. rewrite m_bind_assoc. erewrite m_bind_ret by reflexivity.
    rewrite decide_False by naive_solver. unfold m_bind, ask, put, m_modify, GetStepper. rewrite He. cbn [w_dbg set_dbg].
    rewrite Resumed_run by done. unfold get, when, hybrid_set, m_modify, ok, m_ret. cbn [w_dbg set_dbg set_calls].
    destruct (mark && _); by eexists. }
  unfold handle. destruct (GetMethodEnum method); try done.
  - intros [x Hx]. unfold Handle_Resume. rewrite Hx. cbn [with_params]. unfold plain, Debugger_Resume.
    rewrite m_bind_assoc. erewrite m_bind_ret by reflexivity. rewrite decide_False by naive_solver.
    unfold m_bind. rewrite Resumed_run by done. unfold put, get, m_modify, when, hybrid_set, ok, m_ret.
    cbn [w_dbg set_dbg set_calls]. destruct (isHybrid_ _); by eexists.
  - intros [[x Hx] He]. unfold Handle_StepInto. rewrite Hx. by apply Hstep.
  - apply Hstep.
  - intros [[x Hx] He]. unfold Handle_StepOver. rewrite Hx. by apply Hstep.
Qed.

(** The requests for a stopped program, on a running one. *)
Lemma running_refuses method p w a w' :
  debuggerState_ (w_dbg w) ≠ PAUSED →
  GetMethodEnum method ∈ [RESUME; STEP_INTO; STEP_OVER; STEP_OUT; DROP_FRAME; SMART_STEP_INTO] →
  handle method p w = Ret a w' → IsOk a.1 = false ∧ w' = w.
Proof.
  intros Hp Hm. unfold handle.
  assert (Hw : ∀ P (c : created P) k, (∀ x, k x w = Ret a w' → IsOk a.1 = false ∧ w' = w) →
    with_params c k w = Ret a w' → IsOk a.1 = false ∧ w' = w).
  { intros P c k Hk. destruct c; simpl; [apply Hk|by intros [= <- <-]|done|done]. }
  repeat (apply elem_of_cons in Hm as [->|Hm]); [..|by apply elem_of_nil in Hm];
    lazymatch goal with |- ?m _ = _ → _ => let h := head_of m in unfold h end;
    try (apply Hw; intros x);
    unfold plain, Debugger_Resume, Debugger_StepInto, Debugger_StepOver, Debugger_StepOut, step_request,
      Debugger_DropFrame, Debugger_SmartStepInto;
    rewrite m_bind_assoc; erewrite m_bind_ret by reflexivity; rewrite decide_True by done; by intros [= <- <-].
Qed.

(** "enable" on a stopped program loses it: the channel keeps waiting, yet
    every request that could let the program run on, or drop its frame, is
    answered with an error and does nothing. *)
Theorem enable_strands_program (params : EnableParams) (w w1 : world) (r : DispatchResponse * Z) :
  debuggerState_ (w_dbg w) = PAUSED → Debugger_Enable params w = Ret r w1 →
  controls w1 = controls w ∧
  ∀ method p a w2,
    GetMethodEnum method ∈ [RESUME; STEP_INTO; STEP_OVER; STEP_OUT; DROP_FRAME; SMART_STEP_INTO] →
    handle method p w1 = Ret a w2 → IsOk a.1 = false ∧ w2 = w1.
Proof.
  intros Hp E. split; [by destruct (keeps_run _ _ _ _ (Enable_calm params) E) as [-> _]|].
  destruct (Enable_enabled _ _ _ _ E) as [_ Hr].
  intros method p a w2. apply running_refuses. congruence.
Qed.

(** "replyNativeCalling" on a stopped program lets it run and reports it as
    resumed, but the agent still takes it for stopped: a later "pause" is
    answered with an error. *)
Theorem reply_leaves_stopped (params : ReplyNativeCallingParams) (w : world) :
  attached w = true → debuggerState_ (w_dbg w) = PAUSED →
  ∃ w1, Debugger_ReplyNativeCalling params w = Ret DispatchResponse_Ok w1 ∧
        controls w1 = controls w ++ [CtlRun; CtlResumed] ∧ debuggerState_ (w_dbg w1) = PAUSED ∧
        Debugger_Pause w1 = Ret (DispatchResponse_Fail (str "Can only perform operation while running")) w1.
Proof.
  intros Ha Hp. unfold Debugger_ReplyNativeCalling, m_bind. rewrite Resumed_run by done.
  unfold when, put, m_modify, m_ret, ok. cbn [w_dbg set_dbg set_calls].
  destruct (rnc_userCode_ params); eexists; (split; [done|]); unfold controls; cbn [w_calls w_dbg set_dbg set_calls];
    rewrite omap_app; (split_and!; [done|done|]); unfold Debugger_Pause, m_bind, get, fail, m_ret;
    cbn [w_dbg set_dbg set_calls]; (rewrite decide_True; [done|exact Hp]).
Qed.

End Pause.

(** ** Stopping the program *)

Section Stop.
Context `{EcmaVm} `{HashOrder} `{DebuggerBuild}.

(** Whether the settings of the client let the program stop. *)
Definition wants_stop (location : option JSPtLocation) (reason : PauseReason) (w : world) : bool :=
  negb (skipAllPausess_ (w_dbg w)) &&
  (bool_decide (location = None) || breakpointsState_ (w_dbg w)) &&
  (negb (bool_decide (reason = EXCEPTION)) ||
   match pauseOnException_ (w_dbg w) with
   | POE_NONE => false
   | POE_UNCAUGHT => negb (IsExceptionCaught (w_vm w))
   | POE_ALL => true
   end).

(** The exception is taken from the virtual machine. *)
Definition exception_taken (w : world) : world := set_vm (GetAndClearException (w_vm w)).2 w.

(** The objects, handlers and scopes of the last stop are forgotten. *)
Definition cleaned (w : world) : world :=
  set_dbg (set_scopeObjects_ ∅ (set_callFrameHandlers_ [] (w_dbg w))) (final (CleanUpRuntimeProperties w)).

(** The frames of the event, and that the client can work with them: the i-th
    frame has the id i, which evaluation accepts, and its objects are registered. *)
Definition usable (frames : list CallFrame) (w : world) : Prop :=
  Forall (frame_ok w) frames ∧
  ∀ i c, frames !! i = Some c → cf_callFrameId_ c = Z.of_nat i ∧ valid_frame (Z.of_nat i) (w_dbg w) = true.

Lemma CleanUp_run w : CleanUpOnPaused w = Ret () (cleaned w).
Proof.
  unfold CleanUpOnPaused, cleaned, CleanUpRuntimeProperties, m_bind, put, m_modify.
  destruct (bool_decide _); reflexivity.
Qed.

(** [NotifyPaused] behind its tests. *)
Lemma NotifyPaused_run serve location reason w :
  NotifyPaused serve location reason w =
  if wants_stop location reason w then
    match location with
    | None => GeneratePausedInfo serve reason [] (GetAndClearException (w_vm w)).1 (cleaned (exception_taken w))
    | Some l =>
        match hit_breakpoint l (exception_taken w) with
        | Ret (Some id) _ =>
            GeneratePausedInfo serve reason [id] (GetAndClearException (w_vm w)).1 (cleaned (exception_taken w))
        | _ => Ret () (exception_taken w)
        end
    end
  else Ret () w.
Proof.
  unfold NotifyPaused, wants_stop. do 2 (erewrite m_bind_ret by reflexivity).
  destruct (skipAllPausess_ (w_dbg w)); [done|]. cbn [negb andb].
  replace (bool_decide (is_Some location) && negb (breakpointsState_ (w_dbg w)))
    with (negb (bool_decide (location = None) || breakpointsState_ (w_dbg w)))
    by (destruct location; by destruct (breakpointsState_ _)).
  destruct (bool_decide (location = None) || _); [|done]. cbn [negb andb].
  set (b := negb (bool_decide (reason = EXCEPTION)) || _).
  assert (Hb : (if decide (reason = EXCEPTION) then CheckPauseOnException else m_ret true) w = Ret b w).
  { unfold b. destruct (decide (reason = EXCEPTION)) as [->|Hne].
    - unfold CheckPauseOnException, m_bind, get, ask, m_ret. cbn. by destruct (pauseOnException_ (w_dbg w)).
    - by rewrite bool_decide_eq_false_2. }
  rewrite (m_bind_ret _ _ _ _ _ Hb). destruct b; [|done]. cbn [negb].
  assert (Hx : call GetAndClearException w = Ret (GetAndClearException (w_vm w)).1 (exception_taken w)).
  { unfold call, exception_taken. by destruct (GetAndClearException (w_vm w)). }
  rewrite (m_bind_ret _ _ _ _ _ Hx). destruct location as [l|].
  - unfold m_bind at 1. assert (Hh : ∃ r, hit_breakpoint l (exception_taken w) = Ret r (exception_taken w)).
    { unfold hit_breakpoint, m_bind, get, GetExtractor, ask, m_ret. destruct (MatchScripts _ _ _); by eexists. }
    destruct Hh as [[id|] ->]; [|done]. by rewrite (m_bind_ret _ _ _ _ _ (CleanUp_run _)).
  - by rewrite (m_bind_ret _ _ _ _ _ (CleanUp_run _)).
Qed.

(** What is relied on of the virtual machine: the description of a value has no
    id yet. *)
Context (tagged_plain : ∀ v x, ro_objectId_ (FromTagged v x) = None).

Lemma frames_usable w w1 b frames :
  GenerateCallFrames true (cleaned w) = Ret (b, frames) w1 → usable frames w1 ∧ w_calls w1 = w_calls w.
Proof.
  intros E. pose proof (GenerateCallFrames_ok tagged_plain _ _ _ _ E) as Hok.
  apply GenerateCallFrames_saved in E as (HC & (s & hs & HD & HL) & Hids). simpl in *. split.
  - split; [done|]. intros i c Hc. split.
    + apply (f_equal (.!! i)) in Hids. rewrite !list_lookup_fmap, Hc in Hids. simpl in Hids.
      assert (Hi : (i < length frames)%nat) by (by eapply lookup_lt_Some).
      rewrite lookup_seq_lt in Hids by done. simpl in Hids. congruence.
    + apply lookup_lt_Some in Hc. unfold valid_frame. rewrite HD. simpl. rewrite HL.
      apply andb_true_iff. split; [apply Z.leb_le|apply Z.ltb_lt]; lia.
  - rewrite HC. unfold cleaned, CleanUpRuntimeProperties, m_modify. simpl. by case_match.
Qed.

Lemma usable_same frames w w' :
  w_runtime w' = w_runtime w → callFrameHandlers_ (w_dbg w') = callFrameHandlers_ (w_dbg w) →
  usable frames w → usable frames w'.
Proof.
  unfold usable, frame_ok, scope_ok, object_ok, registered, valid_frame. by intros -> ->.
Qed.

(** What [GeneratePausedInfo] does with the frames. *)
Lemma GeneratePausedInfo_run serve reason hit e w ok frames w1 :
  isHybrid_ (w_dbg w) = false → GenerateCallFrames true w = Ret (ok, frames) w1 →
  if ok then
    ∃ w2, GeneratePausedInfo serve reason hit e w = (Frontend_WaitForDebugger serve ;;; tell (SetException e)) w2 ∧
      debuggerState_ (w_dbg w2) = PAUSED ∧ w_runtime w2 = w_runtime w1 ∧
      callFrameHandlers_ (w_dbg w2) = callFrameHandlers_ (w_dbg w1) ∧
      (attached w2 = true → ∃ p, pa_callFrames_ p = frames ∧ w_calls w2 = w_calls w1 ++ [SendEvent (EvPaused p)])
  else GeneratePausedInfo serve reason hit e w = Ret () w1.
Proof.
  intros Hh E. unfold GeneratePausedInfo. erewrite m_bind_ret by reflexivity. rewrite Hh.
  erewrite m_bind_ret by reflexivity. rewrite (m_bind_ret _ _ _ _ _ E). destruct ok; [|done]. cbn [negb].
  destruct (if decide (reason = DEBUGGERSTMT) then _ else _) as [name hits].
  do 4 (erewrite m_bind_ret by reflexivity). set (p := mkPaused _ _ _ _ _ _).
  set (w1' := if attached w1 then set_calls (w_calls w1 ++ [SendEvent (EvPaused p)]) w1 else w1).
  assert (Hp : Frontend_Paused p w1 = Ret () w1').
  { unfold Frontend_Paused, Frontend_send, AllowNotify, m_bind, ask, get, m_ret, when, w1', attached.
    by destruct (IsDebugMode (w_vm w1) && channel_ (w_dbg w1)). }
  rewrite (m_bind_ret _ _ _ _ _ Hp).
  assert (Hw : w_runtime w1' = w_runtime w1 ∧ w_dbg w1' = w_dbg w1 ∧ w_vm w1' = w_vm w1)
    by (unfold w1'; by destruct (attached w1)).
  destruct Hw as (HR & HD & HV).
  set (reset := negb (bool_decide (reason = BREAK_ON_START) || bool_decide (reason = NATIVE_OUT))).
  set (d2 := set_debuggerState_ PAUSED (set_nativeOutPause_ false
    (if reset then set_singleStepper_ None (w_dbg w1') else w_dbg w1'))).
  exists (set_dbg d2 w1'). split_and!; [by unfold d2; destruct reset|done|done| |].
  - unfold d2. destruct reset; simpl; by rewrite HD.
  - intros Ha. assert (Ha1 : attached w1 = true).
    { unfold attached in *. rewrite <- HV, <- HD. rewrite <- Ha. unfold d2. by destruct reset. }
    exists p. split; [done|]. cbn [w_calls set_dbg]. unfold w1'. by rewrite Ha1.
Qed.

Definition place_known (location : option JSPtLocation) (w : world) : Prop :=
  match location with
  | None => True
  | Some l => ∃ id, hit_breakpoint l (exception_taken w) = Ret (Some id) (exception_taken w)
  end.

(** C21: what a notification does to a program without frames of the static
    language. If the settings do not let it stop nothing changes. If the place of
    the breakpoint is unknown, or the top frame cannot be described, the program
    runs on, and the pending exception has been lost. Otherwise the agent is
    PAUSED; an attached client has got one "paused" event, in which the i-th frame
    has the id i that evaluation accepts and every object can be asked for; the
    channel then waits, and when it has been told to run on the exception is put
    back. *)
Theorem program_stop (serve : D ()) (location : option JSPtLocation) (reason : PauseReason) (w : world) :
  isHybrid_ (w_dbg w) = false →
  (wants_stop location reason w = false → NotifyPaused serve location reason w = Ret () w) ∧
  (wants_stop location reason w = true → ¬ place_known location w →
   NotifyPaused serve location reason w = Ret () (exception_taken w)) ∧
  (wants_stop location reason w = true → place_known location w →
   ∃ ok frames w1,
     GenerateCallFrames true (cleaned (exception_taken w)) = Ret (ok, frames) w1 ∧ w_calls w1 = w_calls w ∧
     if ok then
       ∃ w2,
         NotifyPaused serve location reason w =
           (Frontend_WaitForDebugger serve ;;; tell (SetException (GetAndClearException (w_vm w)).1)) w2 ∧
         debuggerState_ (w_dbg w2) = PAUSED ∧ usable frames w2 ∧
         (attached w2 = true →
          ∃ p, pa_callFrames_ p = frames ∧ w_calls w2 = w_calls w ++ [SendEvent (EvPaused p)])
     else NotifyPaused serve location reason w = Ret () w1).
Proof.
  intros Hh. rewrite NotifyPaused_run. split_and!.
  - by intros ->.
  - intros -> Hp. destruct location as [l|]; [|by destruct Hp]. simpl in Hp.
    destruct (hit_breakpoint l (exception_taken w)) as [[id|] w'| |] eqn:E; try done. destruct Hp. exists id.
    assert (Hr : ∃ r, hit_breakpoint l (exception_taken w) = Ret r (exception_taken w)).
    { unfold hit_breakpoint, m_bind, get, GetExtractor, ask, m_ret. destruct (MatchScripts _ _ _); by eexists. }
    destruct Hr as [r Hr]. rewrite E in Hr. by injection Hr as -> ->.
  - intros -> Hp. destruct (GenerateCallFrames_returns true (cleaned (exception_taken w))) as ([ok frames] & w1 & E).
    exists ok, frames, w1. split; [done|]. destruct (frames_usable _ _ _ _ E) as [Hu HC]. split; [done|].
    assert (Hhc : isHybrid_ (w_dbg (cleaned (exception_taken w))) = false).
    { unfold cleaned, exception_taken. by cbn. }
    set (hits := match location with
                 | Some l => match hit_breakpoint l (exception_taken w) with Ret (Some id) _ => [id] | _ => [] end
                 | None => [] end).
    pose proof (GeneratePausedInfo_run serve reason hits (GetAndClearException (w_vm w)).1 _ _ _ _ Hhc E) as Hrun.
    assert (Hn : match location with
      | Some l => match hit_breakpoint l (exception_taken w) with
                  | Ret (Some id) _ => GeneratePausedInfo serve reason [id] (GetAndClearException (w_vm w)).1 (cleaned (exception_taken w))
                  | _ => Ret () (exception_taken w)
                  end
      | None => GeneratePausedInfo serve reason [] (GetAndClearException (w_vm w)).1 (cleaned (exception_taken w))
      end = GeneratePausedInfo serve reason hits (GetAndClearException (w_vm w)).1 (cleaned (exception_taken w))).
    { unfold hits. destruct location as [l|]; [|done]. destruct Hp as [id ->]. done. }
    rewrite Hn. destruct ok; [|done]. destruct Hrun as (w2 & Hrun & Hd & HR & HH & Hev).
    exists w2. split_and!; [done|done|by eapply usable_same|]. intros Ha. destruct (Hev Ha) as (p & Hp' & Hc).
    exists p. split; [done|]. by rewrite Hc, HC.
Qed.

End Stop.
