(* ===== verification/DebuggerSteps.v ===== *)
(** * The debugger agent: steps and breakpoints

    From a step request of the client to the stop of the program, and what the
    requests that set breakpoints do. *)

From S2P Require Import Prelude Base64 Regex Http CppLib Utils ThreadState.
From S2P Require Import PtJson PtCodec PtTypes PtProfile PtSchema PtParams PtEvents PtReturns Dispatcher.
From S2P Require Import DebuggerState SingleStepper CallFrames DebuggerAgent DebuggerHooks DebuggerDispatch DebuggerLogic.
From S2P Require Import PausedObjects.
Local Open Scope Z_scope.
Local Open Scope ark_scope.

Section Steps.
Context `{EcmaVm} `{HashOrder} `{DebuggerBuild}.

(** ** Where the program may stop *)

(** A place of a parsed file with debug information, and not on a line that the
    compiler made up. *)
Definition stoppable (location : JSPtLocation) (w : world) : bool :=
  bool_decide (is_Some (MatchScripts
    (c_str (GetJSPandaFileDesc (GetBaseJSPandaFile (w_vm w) (loc_JsPandaFile location)))) SM_FILE_NAME (w_dbg w))) &&
  match GetJSPtExtractor (w_vm w) (loc_JsPandaFile location) with
  | None => false
  | Some e => negb (bool_decide
      (line_at e (loc_MethodId location) (loc_BytecodeOffset location) = Some SPECIAL_LINE_MARK))
  end.

Lemma IsSkipLine_run location w : IsSkipLine location w = Ret (negb (stoppable location w)) w.
Proof.
  unfold IsSkipLine, stoppable, GetExtractor, m_bind, ask, get, m_ret.
  destruct (MatchScripts _ _ _); [|done]. rewrite bool_decide_eq_true_2 by done. cbn [andb].
  destruct (GetJSPtExtractor _ _); [|done]. by rewrite negb_involutive.
Qed.

(** The end of a step, with the side effects of the stop. *)
Lemma NotifySingleStep_step location s w :
  pauseOnNextByteCode_ (w_dbg w) = false → singleStepper_ (w_dbg w) = Some s →
  ∃ w', NotifySingleStep location w =
          Ret (StepComplete s (loc_BytecodeOffset location) (w_vm w) && stoppable location w) w' ∧
        (StepComplete s (loc_BytecodeOffset location) (w_vm w) && stoppable location w = false → w' = w) ∧
        (StepComplete s (loc_BytecodeOffset location) (w_vm w) && stoppable location w = true →
         w_dbg w' = set_singleStepper_ None (w_dbg w)).
Proof.
  intros Hn Hs. unfold NotifySingleStep. erewrite m_bind_ret by reflexivity. rewrite Hn.
  erewrite m_bind_ret by reflexivity. rewrite Hs. erewrite m_bind_ret by reflexivity.
  destruct (StepComplete _ _ _); cbn [negb andb]; [|by eexists].
  rewrite (m_bind_ret _ _ _ _ _ (IsSkipLine_run _ _)). destruct (stoppable location w); cbn [negb]; [|by eexists].
  unfold m_bind, put, ask, tell, when, m_modify, m_ret. cbn [w_vm set_dbg].
  destruct (GetSingleStepStatus (w_vm w)); by eexists.
Qed.

Lemma step_request_run t failed mark w s r w1 :
  debuggerState_ (w_dbg w) = PAUSED → GetStepper t (w_vm w) = Some s →
  step_request (GetStepper t) failed mark w = Ret r w1 →
  singleStepper_ (w_dbg w1) = Some s ∧ pauseOnNextByteCode_ (w_dbg w1) = pauseOnNextByteCode_ (w_dbg w).
Proof.
  intros Hp Hs E. unfold step_request in E. apply m_bind_inv in E as (? & ? & [= <- <-] & E).
  rewrite decide_False in E by naive_solver. apply m_bind_inv in E as (? & ? & [= <- <-] & E). rewrite Hs in E.
  apply m_bind_inv in E as (? & ? & [= <- <-] & E). apply m_bind_inv in E as ([] & w2 & E2 & E).
  assert (Hd : w_dbg w2 = set_singleStepper_ (Some s) (w_dbg w)).
  { unfold Frontend_Resumed, AllowNotify, m_bind, ask, get, m_ret, when, emit, m_modify in E2.
    cbn [w_vm w_dbg set_dbg] in E2. destruct (_ && _); by injection E2 as <-. }
  apply m_bind_inv in E as (? & ? & [= <- <-] & E). apply m_bind_inv in E as (? & ? & [= <- <-] & E).
  unfold m_bind, when, hybrid_set, m_modify, ok, m_ret in E. cbn [w_dbg set_dbg] in E.
  destruct (mark && _); injection E as <- <-; cbn [w_dbg set_dbg set_hybrid]; by rewrite Hd.
Qed.

(** C19: a step of the client ends where it should. After a step request that
    was made at a line with debug information, and as long as nothing else asks
    for a stop, the hook of the virtual machine stops the program at the first
    place where the step is over in terms of source lines and stack depth and
    where the program may stop, and forgets the step; at every other place the
    program runs on and the step remains. *)
Theorem step_ends (t : StepperType) (failed : string) (mark : bool) (w w1 : world) (r : DispatchResponse)
    (e : DebugInfoExtractor) (line : Z) (v : vm) (location : JSPtLocation) :
  debuggerState_ (w_dbg w) = PAUSED → pauseOnNextByteCode_ (w_dbg w) = false →
  GetJSPtExtractor (w_vm w) (GetMethod (w_vm w)).2 = Some e → lines_ok e →
  line_at e (GetMethod (w_vm w)).1 (GetBytecodeOffset (w_vm w)) = Some line →
  loc_BytecodeOffset location < UINT32_MAX →
  step_request (GetStepper t) failed mark w = Ret r w1 →
  let over := step_over_at t e line (w_vm w) v (loc_BytecodeOffset location) in
  ∃ w2, NotifySingleStep location (set_vm v w1) = Ret (over && stoppable location (set_vm v w1)) w2 ∧
        (over && stoppable location (set_vm v w1) = false → w2 = set_vm v w1) ∧
        (over && stoppable location (set_vm v w1) = true → singleStepper_ (w_dbg w2) = None).
Proof.
  intros Hp Hn He Hok Hline Hpc E over.
  assert (Hs : ∃ s, GetStepper t (w_vm w) = Some s) by (unfold GetStepper; rewrite He; by eexists).
  destruct Hs as [s Hs]. destruct (step_request_run _ _ _ _ _ _ _ Hp Hs E) as [Hst Hnx].
  destruct (NotifySingleStep_step location s (set_vm v w1)) as (w2 & H2 & Hf & Ht); [by cbn; rewrite Hnx|done|].
  pose proof (step_complete_iff t (w_vm w) v s (loc_BytecodeOffset location) line e He Hok Hline Hpc Hs) as Hc.
  cbn [w_vm set_vm] in *. rewrite Hc in *. exists w2. split_and!; [done|done|]. intros Hb. by rewrite (Ht Hb).
Qed.

(** ** Breakpoints *)

Lemma MatchAllScripts_table url d s :
  s ∈ MatchAllScripts url d ↔ ps_url_ s = url ∧ ∃ id, scripts_ d !! id = Some s.
Proof.
  unfold MatchAllScripts. rewrite list_elem_of_filter, script_order_perm, list_elem_of_fmap.
  split; intros [Hu Hs]; (split; [done|]).
  - destruct Hs as ([id s'] & -> & Hin). exists id. by apply elem_of_map_to_list.
  - destruct Hs as [id Hs]. exists (id, s). split; [done|]. by apply elem_of_map_to_list.
Qed.

(** What the search for a place goes through: the extractors of the patch of the
    url when it has one, else those of the files of the scripts of the url. *)
Definition searches (url : bytes) (w : world) (extractors : list (option DebugInfoExtractor)) : Prop :=
  if decide (GetPatchExtractors (w_vm w) url = []) then
    ∀ x, x ∈ extractors ↔ ∃ id s f e, scripts_ (w_dbg w) !! id = Some s ∧ ps_url_ s = url ∧
      FindJSPandaFile (w_vm w) (ps_fileName_ s) = Some f ∧ GetJSPtExtractor (w_vm w) f = Some e ∧ x = Some e
  else extractors = GetPatchExtractors (w_vm w) url.

(** What happens at a place that was found: without a condition the breakpoint
    is set there; with a condition it is set with the function that the virtual
    machine makes of the decoded abc file, and refused when there is none. *)
Definition sets_breakpoints (condition : option bytes) (smart : bool) (cb : JSPtLocation → vm → bool * vm) : Prop :=
  ∀ location v,
    (default [] condition = [] → cb location v = api_SetBreakpoint location None smart v) ∧
    (∀ c, condition = Some c → c ≠ [] →
     ((DecodeAndCheckBase64 c).2 = false → cb location v = (false, v)) ∧
     (∀ v1, (DecodeAndCheckBase64 c).2 = true → GenerateFuncFromBuffer (DecodeAndCheckBase64 c).1 v = (None, v1) →
      cb location v = (false, v1)) ∧
     (∀ f v1, (DecodeAndCheckBase64 c).2 = true → GenerateFuncFromBuffer (DecodeAndCheckBase64 c).1 v = (Some f, v1) →
      cb location v = api_SetBreakpoint location (Some f) smart v1)).

(** Extractors asked one behind the other, null ones passed over, up to the first
    that answers no: the answer, and the virtual machine from the first to the
    last question. *)
Inductive asked (question : DebugInfoExtractor → vm → bool * vm) : list (option DebugInfoExtractor) → vm → bool → vm → Prop :=
  | asked_all v : asked question [] v true v
  | asked_null es v found v' : asked question es v found v' → asked question (None :: es) v found v'
  | asked_yes e es v v1 found v' :
      question e v = (true, v1) → asked question es v1 found v' → asked question (Some e :: es) v found v'
  | asked_no e es v v' : question e v = (false, v') → asked question (Some e :: es) v false v'.

Lemma GetExtractors_searches url w : ∃ es, GetExtractors url w = Ret es w ∧ searches url w es.
Proof.
  unfold GetExtractors, searches, m_bind, ask, get, m_ret.
  destruct (GetPatchExtractors (w_vm w) url) as [|x es] eqn:E.
  - eexists. split; [done|]. rewrite decide_True by done. intros x.
    rewrite list_elem_of_omap. setoid_rewrite MatchAllScripts_table. split.
    + intros (s & (Hu & id & Hs) & Hf). destruct (FindJSPandaFile _ _) as [f|] eqn:Ef; [|done]. simpl in Hf.
      destruct (GetJSPtExtractor _ f) as [e|] eqn:Ee; [|done]. injection Hf as <-. by exists id, s, f, e.
    + intros (id & s & f & e & Hs & Hu & Ef & Ee & ->). exists s. split; [eauto|]. rewrite Ef. simpl. by rewrite Ee.
  - exists (x :: es). split; [done|]. by rewrite decide_False.
Qed.

Lemma set_at_sets condition smart : sets_breakpoints condition smart (set_at condition smart).
Proof.
  intros location v. unfold set_at. split.
  - by destruct condition as [[|]|].
  - intros [|b c] -> Hc; [done|]. destruct (DecodeAndCheckBase64 (b :: c)) as [dest valid]; cbn [fst snd].
    split_and!; intros; simplify_eq; cbn; try done;
      by match goal with E : GenerateFuncFromBuffer _ _ = _ |- _ => rewrite E end.
Qed.

Lemma match_all_asked cb line column url es w :
  ∃ found v, match_all es cb line column url w = Ret found (set_vm v w) ∧
    asked (λ e, MatchWithLocation e cb line column url (GetRecordName url (w_dbg w))) es (w_vm w) found v.
Proof.
  revert w. induction es as [|[e|] es IH]; intros w; simpl.
  - exists true, (w_vm w). split; [by destruct w|constructor].
  - unfold m_bind, get, call. destruct (MatchWithLocation _ _ _ _ _ _ _) as [[] v1] eqn:E.
    + destruct (IH (set_vm v1 w)) as (found & v & -> & Ha). exists found, v.
      split; [by destruct w|]. by eapply asked_yes.
    + exists false, v1. split; [done|]. by apply asked_no.
  - destruct (IH w) as (found & v & -> & Ha). exists found, v. split; [done|]. by constructor.
Qed.

(** Whether a script is known under a url. *)
Lemma MatchScripts_url url d :
  is_Some (MatchScripts url SM_URL d) ↔ ∃ id s, scripts_ d !! id = Some s ∧ ps_url_ s = url.
Proof.
  unfold MatchScripts. rewrite fmap_is_Some. split.
  - intros [[i s] (Hs%list_elem_of_lookup_2 & Hu & _)%list_find_Some]. rewrite script_order_perm, list_elem_of_fmap in Hs.
    destruct Hs as ([id s'] & -> & Hin%elem_of_map_to_list). by exists id, s'.
  - intros (id & s & Hs & Hu). apply list_find_elem_of with s; [|done]. rewrite script_order_perm, list_elem_of_fmap.
    exists (id, s). split; [done|]. by apply elem_of_map_to_list.
Qed.

(** The request behind its tests. *)
Lemma SetBreakpointByUrl_known params smart w url :
  IsDebugMode (w_vm w) = true → sbu_url_ params = Some url →
  is_Some (MatchScripts url SM_URL (w_dbg w)) →
  ∃ es found v, searches url w es ∧
    asked (λ e, MatchWithLocation e (set_at (sbu_condition_ params) smart) (sbu_lineNumber_ params) (-1) url
                  (GetRecordName url (w_dbg w))) es (w_vm w) found v ∧
    Debugger_SetBreakpointByUrl params smart w =
      Ret (if found : bool then
             (DispatchResponse_Ok,
              (BreakpointDetails_ToString (mkBreakpointDetails (sbu_lineNumber_ params) 0 url),
               (λ s, mkLocation (ps_scriptId_ s) (sbu_lineNumber_ params) (Some 0)) <$> MatchAllScripts url (w_dbg w)))
           else (DispatchResponse_Fail (str "Breakpoint not found."), ([], []))) (set_vm v w).
Proof.
  intros Hd Hu [s Hs]. destruct (GetExtractors_searches url w) as (es & Ee & Hes).
  destruct (match_all_asked (set_at (sbu_condition_ params) smart) (sbu_lineNumber_ params) (-1) url es w)
    as (found & v & Em & Ha). exists es, found, v. split_and!; [done..|].
  unfold Debugger_SetBreakpointByUrl. erewrite m_bind_ret by reflexivity. rewrite Hd, Hu. cbn [negb].
  do 2 erewrite m_bind_ret by reflexivity. rewrite Hs. erewrite m_bind_ret by exact Ee.
  erewrite m_bind_ret by exact Em. by destruct found.
Qed.

(** C38: outcomes of "setBreakpointByUrl", every one of them. It fails and
    changes nothing when debugging is off or no script has the url; without a url
    it leaves by an exception. With the url of a known script every extractor of
    the url is asked for the line in turn, null ones passed over, up to the first
    that does not have it or where no breakpoint could be set; asking sets the
    breakpoints ([sets_breakpoints]). When one says no the request fails with
    "Breakpoint not found.", and what the earlier ones have set stays set. When
    all have said yes the request succeeds, nothing but the virtual machine has
    changed, the locations it returns are those of the scripts of the url, and
    the id it returns, for a line number of 32 bits and given to
    "removeBreakpoint" while the url is known, makes the agent remove the
    breakpoint of the same url and line. What an extractor answers is up to the
    virtual machine. *)
Theorem set_breakpoint_outcomes (params : SetBreakpointByUrlParams) (smart : bool) (w : world) :
  (IsDebugMode (w_vm w) = false →
   ∃ m, Debugger_SetBreakpointByUrl params smart w = Ret (DispatchResponse_Fail m, ([], [])) w) ∧
  (IsDebugMode (w_vm w) = true → sbu_url_ params = None → Debugger_SetBreakpointByUrl params smart w = Throw w) ∧
  (∀ url, IsDebugMode (w_vm w) = true → sbu_url_ params = Some url →
   (∀ id s, scripts_ (w_dbg w) !! id = Some s → ps_url_ s ≠ url) →
   Debugger_SetBreakpointByUrl params smart w = Ret (DispatchResponse_Fail (str "Unknown file name."), ([], [])) w) ∧
  (∀ url, IsDebugMode (w_vm w) = true → sbu_url_ params = Some url →
   (∃ id s, scripts_ (w_dbg w) !! id = Some s ∧ ps_url_ s = url) →
   ∃ es cb found v, searches url w es ∧ sets_breakpoints (sbu_condition_ params) smart cb ∧
     asked (λ e, MatchWithLocation e cb (sbu_lineNumber_ params) (-1) url (GetRecordName url (w_dbg w)))
       es (w_vm w) found v ∧
     (found = false → Debugger_SetBreakpointByUrl params smart w =
        Ret (DispatchResponse_Fail (str "Breakpoint not found."), ([], [])) (set_vm v w)) ∧
     (found = true → ∃ id locations,
        Debugger_SetBreakpointByUrl params smart w = Ret (DispatchResponse_Ok, (id, locations)) (set_vm v w) ∧
        (∀ l, l ∈ locations ↔ ∃ i s, scripts_ (w_dbg w) !! i = Some s ∧ ps_url_ s = url ∧
                                l = mkLocation (ps_scriptId_ s) (sbu_lineNumber_ params) (Some 0)) ∧
        (is_int32 (sbu_lineNumber_ params) →
         ∀ w2 s, MatchScripts url SM_URL (w_dbg w2) = Some s →
         Debugger_RemoveBreakpoint (mkRemoveBreakpointParams id) w2 =
           (extractors <-- GetExtractors url ;; remove_all extractors (sbu_lineNumber_ params) 0 url ;;; ok) w2))).
Proof.
  split_and!.
  - intros Hd. unfold Debugger_SetBreakpointByUrl, m_bind, ask. rewrite Hd. by eexists.
  - intros Hd Hu. unfold Debugger_SetBreakpointByUrl, m_bind, ask. by rewrite Hd, Hu.
  - intros url Hd Hu Hno. unfold Debugger_SetBreakpointByUrl, m_bind, ask, get. rewrite Hd, Hu. cbn [negb value].
    assert (Hm : MatchScripts url SM_URL (w_dbg w) = None).
    { apply eq_None_not_Some. rewrite MatchScripts_url. naive_solver. }
    unfold m_ret. by rewrite Hm.
  - intros url Hd Hu Hs%MatchScripts_url.
    destruct (SetBreakpointByUrl_known params smart w url Hd Hu Hs) as (es & found & v & Hes & Ha & E).
    exists es, (set_at (sbu_condition_ params) smart), found, v. split_and!; [done|apply set_at_sets|done| |].
    + intros ->. exact E.
    + intros ->. do 2 eexists. split_and!; [exact E| |].
      * intros l. rewrite list_elem_of_fmap. setoid_rewrite MatchAllScripts_table. naive_solver.
      * intros Hl w2 s Hs2. unfold Debugger_RemoveBreakpoint. cbn [rbp_breakpointId_].
        rewrite breakpoint_id_roundtrip by (done || (simpl; unfold is_int32; lia)). cbn [negb bd_url_ bd_line_ bd_column_].
        erewrite m_bind_ret by reflexivity. by rewrite Hs2.
Qed.

End Steps.
