(* ===== verification/DebuggerDemo.v ===== *)
(** * The debugger agent: a concrete machine

    A virtual machine that satisfies the interface, with one function of two
    lines, and the theorems of the agent applied to it; behind that the interfaces
    of the runtime agent and of the profilers for the same machine, and the theorems
    about these agents. *)

From S2P Require Import Prelude Base64 Regex Http CppLib Utils ThreadState.
From S2P Require Import PtJson HybridFrames PtCodec PtTypes PtProfile PtSchema PtParams PtEvents PtReturns Dispatcher.
From S2P Require Import DebuggerState SingleStepper CallFrames DebuggerAgent DebuggerHooks DebuggerDispatch DebuggerLogic.
From S2P Require Import RuntimeAgent RuntimeObjects ProfilerAgents AgentAnswers.
From S2P Require Import DebuggerTables PausedObjects DebuggerPause DebuggerSteps.
Local Open Scope Z_scope.
Local Open Scope ark_scope.

(** The state is the bytecode offset; the function of file () with the id 7 has
    line 10 at the offsets 0 to 3 and line 11 behind. *)
Definition demo_lines : list (Z * Z) := [(0, 10); (4, 11)].
Definition demo_url : bytes := str "Index.ets".
Definition demo_file : bytes := str "/data/app/modules.abc".
Definition demo_object : RemoteObject := mkRemoteObject (str "object") None None None None None None.

#[local] Instance demo_vm : EcmaVm := {|
  vm := Z; JSValue := unit; FrameHandler := unit; JSPandaFile := unit; JSPandaFile_eq_dec := _;
  DebugInfoExtractor := unit; JSPtLocation := Z; LexicalEnv := unit;
  IsDebugMode _ := true; SetDebugMode _ v := v; IsDebugApp _ := true; GetFaApp _ := true;
  IsAsyncStackTrace _ := false; SetAsyncStackTrace _ v := v;
  vm_SetMixedDebugEnabled _ v := v; vm_SetMixedStackEnabled _ v := v; SetEvalFrameHandler _ v := v;
  GetMethod _ := (7, ()); GetBytecodeOffset v := v; GetStackDepth _ := 3; GetStackDepthOverBuiltin _ := 3;
  CheckIsSendableMethod _ := false; CheckPromiseQueueSize _ := true; DropLastFrame v := v;
  StackFrames _ := [()]; UnionStackIsEmpty _ := true; UnionStack _ := []; GetNativePointer _ := [];
  IsNativeMethod _ := false; DebuggerExecutor_Initialize v := v;
  frame_IsNativeMethod _ := false; frame_HasFrame _ := true; frame_Method _ := (7, ());
  frame_FunctionName _ := str "main"; frame_BytecodeOffset _ := 0; frame_Sp _ := 100; frame_VReg _ _ _ := ();
  frame_Env _ _ := []; env_ScopeInfo _ := None; env_Property _ _ := (); frame_GlobalObject _ _ := ();
  FindJSPandaFile _ _ := Some (); GetJSPtExtractor _ _ := Some (); JSPandaFileIsBundlePack _ := false;
  JSPandaFileIsNewVersion _ := true; GetJSPandaFileDesc _ := demo_file; GetBaseJSPandaFile _ f := f;
  GetJSPandaFileMainMethodIndex _ _ := 7; GetPatchExtractors _ _ := []; GetSourceCode _ _ := [];
  GetSourceFile _ _ := demo_url; GetLineNumberTable _ _ := demo_lines; GetLocalVariableTable _ _ := [];
  line_at _ _ pc := table_line demo_lines pc; column_at _ _ _ := Some 0;
  MatchWithLocation _ _ _ _ _ _ v := (true, v);
  loc_JsPandaFile _ := (); loc_MethodId _ := 7; loc_BytecodeOffset l := l; loc_SourceFile _ := demo_url;
  api_SetBreakpoint _ _ _ v := (true, v); api_RemoveBreakpoint _ v := (true, v);
  api_RemoveBreakpointsByUrl _ v := (true, v); api_RemoveAllBreakpoints v := v;
  api_SetSymbolicBreakpoint _ v := v; api_RemoveSymbolicBreakpoint _ v := v; api_DisableFirstTimeFlag v := v;
  api_EnableSimplifiedMode v := v; IsSimplifiedMode _ := false; GetSingleStepStatus _ := true;
  SetSingleStepStatus _ v := v; IsExceptionCaught _ := false; GetAndClearException v := ((), v);
  SetException _ v := v; HasPendingException _ := false; HandleUncaughtException v := ([], v);
  GetCurrentGlobalEnv _ := (); GetCurrentContext _ := (); SwitchContext _ v := v;
  IsError _ _ := false; IsObjectValue _ _ := true; IsFunctionValue _ _ := false; IsHole _ := false;
  UndefinedValue := (); HoleValue := (); FunctionName _ _ := []; NewObject v := ((), v);
  DefineProperty _ _ _ v := v; HasProperty _ _ _ := false; AddInternalProperties _ v := v;
  AddModuleVariables _ v := v; CurrentModuleIsSourceText _ := false; EvalError v _ := ((), v);
  FromTagged _ _ := demo_object; HasValue _ _ := true;
  ExtractStaticFrameInfo _ _ := (false, mkUnifiedFrameInfo [] [] 0 0 true false [] None None);
  GenerateFuncFromBuffer _ v := (None, v); EvaluateViaFuncCall _ _ v := ((), v);
  CallFunctionOnCall _ _ v := ((), v); Executor_GetValue _ _ v := (None, v); Executor_SetValue _ _ _ v := (false, v);
  NewNumber _ := (); ParsedNumber _ := None; NewString _ := (); BoolValue _ := ();
  GetCurrentAsyncParent _ := None |}.

#[local] Instance demo_order : HashOrder := {|
  script_order m := (map_to_list m).*2; script_order_perm _ := Permutation_refl _;
  pending_order l := l; pending_order_perm _ := Permutation_refl _;
  pending_entries m := map_to_list m; pending_entries_perm _ := Permutation_refl _;
  name_order s := elements s; name_order_perm _ := Permutation_refl _ |}.

#[local] Instance demo_build : DebuggerBuild := {| device_build := true; unit_test := false |}.
#[local] Existing Instance tree_cjson.
#[local] Existing Instance tree_cjson_ok.
#[local] Existing Instance demo_oob.

(** A new agent; the same after a module has been loaded; and stopped there. *)
Definition demo_start : world :=
  mkWorld (new_DebuggerImpl false true) 0 (mkRuntimeObjects 0 ∅) (mkHybrid false false) 0 [].
Definition demo_loaded : world := final (run_event (ELoadModule demo_file (str "entry")) demo_start).
Definition demo_stopped : world := set_dbg (set_debuggerState_ PAUSED (w_dbg demo_loaded)) demo_loaded.
Definition demo_empty : PtJson := Some (JObj []).

Lemma demo_reachable : reachable demo_loaded.
Proof. apply reach_event; [apply reach_init; lia|vm_compute; done]. Defined.

Lemma script_table_witness : table_ok (w_dbg demo_loaded) (w_scriptId demo_loaded) ∧ w_scriptId demo_loaded = 1.
Proof. split; [apply script_table, demo_reachable|vm_compute; reflexivity]. Defined.

Lemma object_registry_witness : registry_ok (w_runtime (final (alloc_object () demo_loaded))).
Proof. apply object_registry, reach_object, demo_reachable. Defined.

Definition demo_request (method : string) : DispatchRequest :=
  mkDispatchRequest 5 (str "Debugger") (str method) demo_empty RC_OK.

Lemma request_answered_witness :
  ∃ response result w1, handle (str "pause") demo_empty demo_loaded = Ret (response, result) w1 ∧ answers w1 = answers demo_loaded.
Proof.
  destruct (request_answered (demo_request "pause") false demo_loaded
    (set_calls (w_calls demo_loaded ++ [SendResult 5 DispatchResponse_Ok BaseReturns])
      (set_dbg (set_pauseOnNextByteCode_ true (w_dbg demo_loaded)) demo_loaded)) None)
    as [(Hm & _ & _)|(response & result & w1 & Hh & Ha & _)].
  - vm_compute. reflexivity.
  - exfalso. revert Hm. vm_compute. discriminate.
  - by exists response, result, w1.
Defined.


Lemma stopped_program_released_witness :
  ∃ w', handle (str "stepOver") demo_empty demo_stopped = Ret (DispatchResponse_Ok, None) w' ∧
        debuggerState_ (w_dbg w') = ENABLED.
Proof.
  destruct (stopped_program_released (str "stepOver") demo_empty demo_stopped) as (w' & E & _ & Hs).
  - vm_compute. reflexivity.
  - vm_compute. reflexivity.
  - change (GetMethodEnum (str "stepOver")) with STEP_OVER. split; [|by eexists]. eexists. vm_compute. reflexivity.
  - by exists w'.
Defined.

Lemma enable_strands_program_witness :
  controls (final (Debugger_Enable (mkEnableParams None None) demo_stopped)) = controls demo_stopped.
Proof.
  destruct (enable_strands_program (mkEnableParams None None) demo_stopped
    (final (Debugger_Enable (mkEnableParams None None) demo_stopped)) (DispatchResponse_Ok, 0)) as [Hc _].
  - vm_compute. reflexivity.
  - vm_compute. reflexivity.
  - exact Hc.
Defined.

Lemma reply_leaves_stopped_witness :
  ∃ w1, Debugger_ReplyNativeCalling (mkReplyNativeCallingParams true) demo_stopped = Ret DispatchResponse_Ok w1 ∧
        debuggerState_ (w_dbg w1) = PAUSED.
Proof.
  destruct (reply_leaves_stopped (mkReplyNativeCallingParams true) demo_stopped) as (w1 & E & _ & Hs & _).
  - vm_compute. reflexivity.
  - vm_compute. reflexivity.
  - by exists w1.
Defined.

Lemma demo_tagged_plain (v : vm) (x : JSValue) : ro_objectId_ (FromTagged v x) = None.
Proof. reflexivity. Defined.

Lemma program_stop_witness :
  ∃ frames w2, debuggerState_ (w_dbg w2) = PAUSED ∧ usable frames w2 ∧ length frames = 1%nat.
Proof.
  destruct (program_stop demo_tagged_plain (m_ret ()) (Some 0) OTHER demo_loaded) as (_ & _ & Hstop); [reflexivity|].
  destruct Hstop as (ok & frames & w1 & E & _ & Hs).
  - vm_compute. reflexivity.
  - eexists. vm_compute. reflexivity.
  - vm_compute in E. injection E as <- <- <-. destruct Hs as (w2 & _ & Hp & Hu & _). eexists _, w2.
    split_and!; [exact Hp|exact Hu|reflexivity].
Defined.

Lemma step_ends_witness :
  ∃ w2, NotifySingleStep 4 (set_vm 4 (final (Debugger_StepOver demo_stopped))) = Ret true w2 ∧ singleStepper_ (w_dbg w2) = None.
Proof.
  destruct (step_ends STEPPER_OVER "Failed to StepOver" false demo_stopped (final (Debugger_StepOver demo_stopped))
    DispatchResponse_Ok () 10 4 4) as (w2 & E & _ & Ht).
  - vm_compute. reflexivity.
  - vm_compute. reflexivity.
  - reflexivity.
  - intros m. split; [|done]. repeat constructor.
  - vm_compute. reflexivity.
  - vm_compute. reflexivity.
  - vm_compute. reflexivity.
  - exists w2. split; [exact E|]. apply Ht. vm_compute. reflexivity.
Defined.

(** The url of the loaded module is searched and found. *)
Lemma set_breakpoint_outcomes_witness :
  ∃ id locations w', Debugger_SetBreakpointByUrl (mkSetBreakpointByUrlParams 3 (Some demo_url) None None None None)
    false demo_loaded = Ret (DispatchResponse_Ok, (id, locations)) w' ∧ locations ≠ [].
Proof.
  destruct (set_breakpoint_outcomes (mkSetBreakpointByUrlParams 3 (Some demo_url) None None None None) false demo_loaded)
    as (_ & _ & _ & Hk).
  destruct (Hk demo_url) as (es & cb & found & v & _ & _ & Ha & _ & Hf).
  - vm_compute. reflexivity.
  - reflexivity.
  - exists 0. eexists. split; vm_compute; reflexivity.
  - assert (found = true) as Ht by (clear -Ha; induction Ha; by simplify_eq).
    destruct (Hf Ht) as (id & locations & E & Hl & _). do 3 eexists. split; [exact E|]. intros ->.
    apply (not_elem_of_nil (mkLocation 0 3 (Some 0))), Hl. exists 0. eexists. split_and!; vm_compute; reflexivity.
Defined.

(** ** The other agents *)

#[local] Instance demo_overflow : SignedOverflow := λ _ _, 0.
#[local] Instance demo_domains : Build :=
  {| support_cpuprofiler := true; support_heapprofiler := true; support_tracing := true |}.

(** Every object is plain and has two properties. *)
#[local] Instance demo_api : JsApi := {|
  InternalObjects_New v := v; InternalObjects_Free v := v; InternalObjects_IsEmpty _ := true;
  InternalObjects_Get _ _ := None; AddEntryMark _ v := v; IsEmptyHandle _ := false; is_kind _ _ _ := false;
  IsJSPrimitiveRef _ _ := false; IsConstructor _ _ := false; IsSymbol _ _ := false; ToObject _ x := Some x;
  ToNumber _ x := x; ToString _ x := x; StringValue _ _ := str "field"; SymbolDescription _ _ := [];
  PrimitiveValue _ x := x; GetFunctionPrototype _ x := x; GetPrototype _ x := x;
  GetOwnPropertyNames _ _ := [(); ()];
  GetOwnProperty _ _ _ := Some (mkPropertyAttribute () (Some ()) (Some true) None None true true);
  TypedArray_New _ _ _ _ v := ((), v); TypedArray_Length _ _ _ := 0; TypedArray_Get _ _ _ _ := ();
  ArrayBuffer_ByteLength _ _ := 0; DataView_ByteLength _ _ := 0; DataView_ByteOffset _ _ := 0;
  DataView_GetArrayBuffer _ x := x; GetSize _ _ _ := 0; GetTotalElements _ _ _ := 0; GetKey _ _ _ _ := ();
  GetValue _ _ _ _ := (); Array_New _ v := ((), v); Array_SetValueAt _ _ _ v := v; Object_Set _ _ _ v := v;
  Container_Get _ _ v := ((), v); Container_GetWithRange _ _ _ _ v := (((), 0), v); GetContainerLength _ _ := 0;
  Iterator_Index _ _ _ := 0; Iterator_Kind _ _ x := x; IsGenerator _ _ := false; GetGeneratorState _ x := x;
  GetGeneratorFunction _ x := x; GlobalObjectOf _ x := x; GetFormatFunction _ _ x := x; GetCompareFunction _ x := x;
  RegExp_IsGlobal _ x := x; RegExp_IsIgnoreCase _ x := x; RegExp_IsMultiline _ x := x; RegExp_IsDotAll _ x := x;
  RegExp_IsUtf16 _ x := x; RegExp_IsStick _ x := x; RegExp_Flags _ _ := []; RegExp_Source _ _ := [];
  Proxy_GetTarget _ x := x; Proxy_GetHandler _ x := x; Proxy_IsRevoked _ _ := false; GetPromiseState _ x := x;
  GetPromiseResult _ x := x; GetHeapTotalSize _ := double_of_Z 0; GetHeapUsedSize _ := double_of_Z 0 |}.

(** Tracking cannot be started; there is an event loop. *)
#[local] Instance demo_dfx : DfxApi := {|
  SetProfilerState _ v := v; StartCpuProfilerForInfo v := (true, v); StopCpuProfilerForInfo v := (None, v);
  SetCpuSamplingInterval _ v := v; EnableSeriliazationTimeoutCheck _ v := v; DisableSeriliazationTimeoutCheck v := v;
  TriggerGC _ v := v; DestroyHeapProfiler v := v; GetAllocationProfile _ := None;
  dfx_StartSampling _ v := (true, v); dfx_StopSampling v := v; StartHeapTracking _ v := ((false, []), v);
  UpdateHeapTracking v := ([], v); StopHeapTracking v := ((true, []), v);
  DumpHeapSnapshot _ v := ([WriteChunk (str "{"); WriteChunk (str "}"); EndOfStream], v);
  StartTracing _ v := (true, v); StopTracing v := (Some [], v);
  GetTracingBufferUseage _ := (double_of_Z 0, 0, double_of_Z 0); HasLoop _ := true |}.

(** A machine whose client knows one object. *)
Definition demo_known : world := final (alloc_object () demo_start).
Definition demo_ask (start count : option Z) : GetPropertiesParams := mkGetPropertiesParams 0 None None None start count.

Lemma demo_convert (v : vm) (x : JSValue) : IsObjectValue v x = true → is_Some (ToObject v x).
Proof. intros _. by eexists. Defined.

Lemma properties_shown_witness :
  ∃ ds w', Runtime_GetProperties (demo_ask None None) demo_known = Ret (DispatchResponse_Ok, ds) w' ∧
    omap ro_objectId_ (all_objects ds) = [1; 2; 3].
Proof.
  destruct (properties_shown demo_tagged_plain demo_convert (demo_ask None None) demo_known)
    as (r & ds & w' & E & Hi & Hok & _).
  assert (E' := E). vm_compute in E'. injection E' as <- <- <-.
  do 2 eexists. split; [exact E|]. rewrite (issued_ids _ _ _ Hi). reflexivity.
Defined.

Lemma properties_of_range_witness :
  ∃ ds w', Runtime_GetProperties (demo_ask (Some 1) (Some 5)) demo_known = Ret (DispatchResponse_Ok, ds) w' ∧
    pd_name_ <$> ds = [str "field"; str "__proto__"].
Proof.
  do 2 eexists. split; [vm_compute; reflexivity|].
  rewrite (properties_of_range (demo_ask (Some 1) (Some 5)) demo_known
    (final (Runtime_GetProperties (demo_ask (Some 1) (Some 5)) demo_known)) () DispatchResponse_Ok); try reflexivity.
  intros start count [= <-] [= <-]. lia.
Defined.

Definition demo_session : session := mkSession demo_known None None.
Definition demo_start_tracking : DispatchRequest :=
  mkDispatchRequest 8 (str "HeapProfiler") (str "startTrackingHeapObjects") demo_empty RC_OK.

Lemma agents_answer_once_witness :
  ∃ s' response result, Dispatch demo_start_tracking false (Some demo_session) = Returned None (Some s') ∧
    answers (s_world s') = [SendResult 8 response result].
Proof.
  destruct (agents_answer_once demo_tagged_plain demo_convert demo_start_tracking HeapProfiler (JObj []) demo_session)
    as (s' & r & x & E & Ha); try done; [by eexists|]. exists s', r, x. split; [exact E|exact Ha].
Defined.

Lemma snapshot_sent_witness :
  ∃ w', Heap_TakeHeapSnapshot (mkStopTrackingHeapObjectsParams None None None None) demo_known = Ret DispatchResponse_Ok w' ∧
    w_calls w' = [SendEvent (EvAddHeapSnapshotChunk (mkAddHeapSnapshotChunk (str "{")));
                  SendEvent (EvAddHeapSnapshotChunk (mkAddHeapSnapshotChunk (str "}")))].
Proof.
  destruct (snapshot_sent (mkStopTrackingHeapObjectsParams None None None None) demo_known) as (calls & v & E & Er); [done|].
  injection E as <- <-. eexists. split; [exact Er|reflexivity].
Defined.

Lemma start_tracking_outcomes_witness :
  ∃ s', Heap_StartTrackingHeapObjects (mkStartTrackingHeapObjectsParams None) demo_session =
          Ret (DispatchResponse_Fail (str "StartHeapTracking fail")) s' ∧ s_heapTimer s' = Some true.
Proof.
  destruct (start_tracking_outcomes (mkStartTrackingHeapObjectsParams None) demo_session) as [_ Hs].
  destruct Hs as (started & calls & v2 & s' & E & Er & _ & Ht); [done|]. injection E as <- <- <-.
  exists s'. split; [exact Er|exact Ht].
Defined.
