(* ===== verification/ClientState.v ===== *)
(** * State of the command line client

    The members of the classes of src/tooling/dynamic/client: a session with its
    connection, the clients of the domains and the managers of what is known of
    the program that is debugged, and what the client shows and writes. The
    operations work on one session in the monad [C]; every client and manager
    finds the session it belongs to through [SessionManager::GetSessionById],
    which never fails for its own session. *)

From S2P Require Import Prelude Regex Http CppLib Utils PtJson PtCodec PtTypes PtReturns.
From stdpp Require Import sorting.
Local Open Scope Z_scope.
Local Open Scope ark_scope.

(** ** The environment *)

(** The websocket of a session (websocket/client). *)
Class ClientSocket := {
  socket : Type;
  socket_init : socket;
  InitToolchainWebSocketForPort : Z → Z → socket → bool * socket;
  InitToolchainWebSocketForSockName : bytes → socket → bool * socket;
  ClientSendWSUpgradeReq : socket → bool * socket;
  ClientRecvWSUpgradeRsp : socket → bool * socket;
  SendReply : bytes → socket → bool * socket;
  Close : socket → socket;
  GetSocketStateString : socket → bytes }.

(** Files, the order in which a hash table is walked through, and the value of a
    variable that has not been set. *)
Class ClientEnv := {
  readable_file : bytes → bool;
  writable_file : bytes → bool;
  file_order : gmap Z (bytes * list bytes) → list (Z * (bytes * list bytes));
  file_order_perm m : file_order m ≡ₚ map_to_list m;
  unset_int : Z }.

(** What goes to the console: texts, and numbers whose format is the one of the
    stream. *)
Inductive shown := Txt (s : bytes) | Num (d : double) | NumFixed (d : double).

(** [std::stoi]: [None] for an exception. *)
Definition stoi (s : bytes) : option Z :=
  match strtoll (c_str s) with
  | None => None
  | Some (v, _) => if (v <? INT_MIN) || (INT_MAX <? v) then None else Some v
  end.
Definition atoi (s : bytes) : Z := match strtoll (c_str s) with None => 0 | Some (v, _) => i32 v end.

(** A text as the key of a member. *)
Definition string_of_bytes (s : bytes) : string :=
  String.string_of_list_ascii ((λ c, Ascii.ascii_of_N (Z.to_N c)) <$> s).

(** An [std::map] is walked through in the order of its keys. *)
Definition entry_le {A} (p q : Z * A) : Prop := p.1 ≤ q.1.
#[export] Instance entry_le_dec {A} : RelDecision (@entry_le A).
Proof. intros p q. apply Z.le_dec. Defined.
Definition entries {A} (m : gmap Z A) : list (Z * A) := merge_sort entry_le (map_to_list m).

(** ** Managers *)

Record Breaklocation := mkBreaklocation {
  bl_breakpointId : bytes;
  bl_url : bytes;
  bl_lineNumber : bytes;
  bl_columnNumber : bytes }.

(** [TreeNode]: the root has the number of a frame, its children are the scopes
    and their variables; a [unique_ptr] may be null. *)
Inductive NodeData :=
| DFrame (callFrameId : Z)
| DScope (scopeInfo : gmap Z (gmap Z bytes))
| DVariable (descriptor : option PropertyDescriptor)
| DObject (descriptors : gmap Z (option PropertyDescriptor)).

#[warnings="-register-all"]
Inductive TreeNode := mkTree (data : NodeData) (children : list TreeNode).
Definition tn_data (t : TreeNode) : NodeData := let 'mkTree d _ := t in d.
Definition tn_children (t : TreeNode) : list TreeNode := let 'mkTree _ c := t in c.

(** [root_] is null after [Clear]. *)
Record Tree := mkTreeOf { root_ : option TreeNode; index_ : Z }.

Record SourceManager := mkSourceManager {
  scriptId_ : Z;
  debugLineNum_ : Z;
  scriptIdMap_ : gmap Z Z;
  fileSource_ : gmap Z (bytes * list bytes) }.

Record WatchManager := mkWatchManager {
  watchInfoList_ : list bytes;
  watchInfoMap_ : gmap Z Z;
  IsDebug_ : bool;
  callFrameId_ : bytes;
  inputRowFlag_ : Z;
  isShowWatchInfo_ : bool }.

(** ** Clients of the domains *)

Inductive HeapProfilerEvent :=
| ALLOCATION | ALLOCATION_STOP | HEAPDUMP | HP_EV_ENABLE | HP_EV_DISABLE | SAMPLING | SAMPLING_STOP | COLLECT_GARBAGE.

Record HeapProfilerClient := mkHeapClient {
  hc_fileName_ : bytes;
  hc_idEventMap_ : gmap Z HeapProfilerEvent;
  hc_path_ : bytes;
  isAllocationMsg_ : bool }.

(** With the members of [ProfilerSingleton]. *)
Record ProfilerClient := mkProfilerClient {
  interval_ : Z;
  pc_idEventMap_ : gmap Z bytes;
  cpulist_ : list bytes;
  address_ : bytes }.

Record BreakPointInfo := mkBreakPointInfo { bpi_lineNumber : Z; bpi_columnNumber : Z; bpi_url : bytes }.
Record DebuggerClient := mkDebuggerClient {
  urlList_ : list bytes;
  breakPointInfoList_ : list BreakPointInfo;
  symbolicBreakpointInfoList_ : list bytes }.

Record RuntimeClient := mkRuntimeClient {
  idMethodMap_ : gmap Z (bytes * bytes);
  objectId_ : bytes;
  isInitializeTree_ : bool;
  start_ : option Z;
  count_ : option Z }.

(** ** Sessions *)

Record ClientIO := mkIO {
  console : list shown;
  (** File, text, and whether it was appended. *)
  written : list (bytes * bytes * bool);
  (** Date and time as the clock will give them; [None] when it fails. *)
  clock : list (option (bytes * bytes)) }.

Section State.
Context `{ClientSocket}.

Record Session := mkSession {
  s_id : Z;
  sockInfo_ : bytes;
  cliSocket_ : socket;
  messageId_ : Z;
  (** The messages that were sent. *)
  sent_ : list bytes;
  idDomainMap_ : gmap Z bytes;
  heapProfilerClient_ : HeapProfilerClient;
  profilerClient_ : ProfilerClient;
  debuggerClient_ : DebuggerClient;
  runtimeClient_ : RuntimeClient;
  breaklist_ : list Breaklocation;
  callFrames_ : gmap Z CallFrame;
  heapUsageInfo_ : GetHeapUsageReturns;
  variableInfo_ : Tree;
  sourceManager_ : SourceManager;
  watchManager_ : WatchManager }.

Definition new_Session (sessionId : Z) (sockInfo : bytes) : Session :=
  mkSession sessionId sockInfo socket_init 1 [] ∅ (mkHeapClient [] ∅ [] false) (mkProfilerClient 0 ∅ [] (str "/data/"))
    (mkDebuggerClient [] [] []) (mkRuntimeClient ∅ (str "0") true None None) [] ∅
    (mkGetHeapUsageReturns (DFin 0 0) (DFin 0 0)) (mkTreeOf (Some (mkTree (DFrame 0) [])) 1)
    (mkSourceManager 0 0 ∅ ∅) (mkWatchManager [] ∅ false [] 0 true).

Definition set_link (sk : socket) (sent : list bytes) (s : Session) : Session :=
  mkSession (s_id s) (sockInfo_ s) sk (messageId_ s) sent (idDomainMap_ s) (heapProfilerClient_ s) (profilerClient_ s)
    (debuggerClient_ s) (runtimeClient_ s) (breaklist_ s) (callFrames_ s) (heapUsageInfo_ s) (variableInfo_ s)
    (sourceManager_ s) (watchManager_ s).
Definition set_messageId (v : Z) (s : Session) : Session :=
  mkSession (s_id s) (sockInfo_ s) (cliSocket_ s) v (sent_ s) (idDomainMap_ s) (heapProfilerClient_ s) (profilerClient_ s)
    (debuggerClient_ s) (runtimeClient_ s) (breaklist_ s) (callFrames_ s) (heapUsageInfo_ s) (variableInfo_ s)
    (sourceManager_ s) (watchManager_ s).
Definition set_domains (v : gmap Z bytes) (s : Session) : Session :=
  mkSession (s_id s) (sockInfo_ s) (cliSocket_ s) (messageId_ s) (sent_ s) v (heapProfilerClient_ s) (profilerClient_ s)
    (debuggerClient_ s) (runtimeClient_ s) (breaklist_ s) (callFrames_ s) (heapUsageInfo_ s) (variableInfo_ s)
    (sourceManager_ s) (watchManager_ s).
Definition set_heap (v : HeapProfilerClient) (s : Session) : Session :=
  mkSession (s_id s) (sockInfo_ s) (cliSocket_ s) (messageId_ s) (sent_ s) (idDomainMap_ s) v (profilerClient_ s)
    (debuggerClient_ s) (runtimeClient_ s) (breaklist_ s) (callFrames_ s) (heapUsageInfo_ s) (variableInfo_ s)
    (sourceManager_ s) (watchManager_ s).
Definition set_profiler (v : ProfilerClient) (s : Session) : Session :=
  mkSession (s_id s) (sockInfo_ s) (cliSocket_ s) (messageId_ s) (sent_ s) (idDomainMap_ s) (heapProfilerClient_ s) v
    (debuggerClient_ s) (runtimeClient_ s) (breaklist_ s) (callFrames_ s) (heapUsageInfo_ s) (variableInfo_ s)
    (sourceManager_ s) (watchManager_ s).
Definition set_debugger (v : DebuggerClient) (s : Session) : Session :=
  mkSession (s_id s) (sockInfo_ s) (cliSocket_ s) (messageId_ s) (sent_ s) (idDomainMap_ s) (heapProfilerClient_ s)
    (profilerClient_ s) v (runtimeClient_ s) (breaklist_ s) (callFrames_ s) (heapUsageInfo_ s) (variableInfo_ s)
    (sourceManager_ s) (watchManager_ s).
Definition set_runtime_client (v : RuntimeClient) (s : Session) : Session :=
  mkSession (s_id s) (sockInfo_ s) (cliSocket_ s) (messageId_ s) (sent_ s) (idDomainMap_ s) (heapProfilerClient_ s)
    (profilerClient_ s) (debuggerClient_ s) v (breaklist_ s) (callFrames_ s) (heapUsageInfo_ s) (variableInfo_ s)
    (sourceManager_ s) (watchManager_ s).
Definition set_breaklist (v : list Breaklocation) (s : Session) : Session :=
  mkSession (s_id s) (sockInfo_ s) (cliSocket_ s) (messageId_ s) (sent_ s) (idDomainMap_ s) (heapProfilerClient_ s)
    (profilerClient_ s) (debuggerClient_ s) (runtimeClient_ s) v (callFrames_ s) (heapUsageInfo_ s) (variableInfo_ s)
    (sourceManager_ s) (watchManager_ s).
Definition set_callFrames (v : gmap Z CallFrame) (s : Session) : Session :=
  mkSession (s_id s) (sockInfo_ s) (cliSocket_ s) (messageId_ s) (sent_ s) (idDomainMap_ s) (heapProfilerClient_ s)
    (profilerClient_ s) (debuggerClient_ s) (runtimeClient_ s) (breaklist_ s) v (heapUsageInfo_ s) (variableInfo_ s)
    (sourceManager_ s) (watchManager_ s).
Definition set_heapUsage (v : GetHeapUsageReturns) (s : Session) : Session :=
  mkSession (s_id s) (sockInfo_ s) (cliSocket_ s) (messageId_ s) (sent_ s) (idDomainMap_ s) (heapProfilerClient_ s)
    (profilerClient_ s) (debuggerClient_ s) (runtimeClient_ s) (breaklist_ s) (callFrames_ s) v (variableInfo_ s)
    (sourceManager_ s) (watchManager_ s).
Definition set_tree (v : Tree) (s : Session) : Session :=
  mkSession (s_id s) (sockInfo_ s) (cliSocket_ s) (messageId_ s) (sent_ s) (idDomainMap_ s) (heapProfilerClient_ s)
    (profilerClient_ s) (debuggerClient_ s) (runtimeClient_ s) (breaklist_ s) (callFrames_ s) (heapUsageInfo_ s) v
    (sourceManager_ s) (watchManager_ s).
Definition set_sourceManager (v : SourceManager) (s : Session) : Session :=
  mkSession (s_id s) (sockInfo_ s) (cliSocket_ s) (messageId_ s) (sent_ s) (idDomainMap_ s) (heapProfilerClient_ s)
    (profilerClient_ s) (debuggerClient_ s) (runtimeClient_ s) (breaklist_ s) (callFrames_ s) (heapUsageInfo_ s)
    (variableInfo_ s) v (watchManager_ s).
Definition set_watchManager (v : WatchManager) (s : Session) : Session :=
  mkSession (s_id s) (sockInfo_ s) (cliSocket_ s) (messageId_ s) (sent_ s) (idDomainMap_ s) (heapProfilerClient_ s)
    (profilerClient_ s) (debuggerClient_ s) (runtimeClient_ s) (breaklist_ s) (callFrames_ s) (heapUsageInfo_ s)
    (variableInfo_ s) (sourceManager_ s) v.

(** ** Operations on a session *)

Definition C (A : Type) : Type := M (Session * ClientIO) A.

Definition ses : C Session := λ w, Ret w.1 w.
Definition upd (f : Session → Session) : C () := λ w, Ret () (f w.1, w.2).
Definition show (l : list shown) : C () := λ w, Ret () (w.1, mkIO (console w.2 ++ l) (written w.2) (clock w.2)).
(** A line of text. *)
Definition say (l : list bytes) : C () := show (Txt <$> l ++ [[10]]).
Definition write_file (name text : bytes) (append : bool) : C () := λ w,
  Ret () (w.1, mkIO (console w.2) (written w.2 ++ [(name, text, append)]) (clock w.2)).
Definition GetCurrentTime : C (option (bytes * bytes)) := λ w,
  match clock w.2 with
  | [] => Ret None w
  | t :: ts => Ret t (w.1, mkIO (console w.2) (written w.2) ts)
  end.
(** An exception that nobody catches, or an access out of range. *)
Definition crash {A} : C A := λ w, Throw w.

Definition GetMessageId : C Z :=
  s <-- ses ;; upd (set_messageId (wrap 32 (messageId_ s + 1))) ;;; m_ret (messageId_ s).
Definition ClientSendReq (message : bytes) : C bool := λ w,
  let '(ok, sk) := SendReply message (cliSocket_ w.1) in
  Ret ok (set_link sk (if ok then sent_ w.1 ++ [message] else sent_ w.1) w.1, w.2).

(** [DomainManager]. *)
Definition GetDomainById (id : Z) : C bytes := s <-- ses ;; m_ret (default [] (idDomainMap_ s !! id)).
Definition SetDomainById (id : Z) (domain : bytes) : C () :=
  upd (λ s, set_domains (match idDomainMap_ s !! id with Some _ => idDomainMap_ s | None => <[id := domain]> (idDomainMap_ s) end) s).
Definition RemoveDomainById (id : Z) : C () := upd (λ s, set_domains (delete id (idDomainMap_ s)) s).

End State.
