(* ===== verification/ClientManagers.v ===== *)
(** * Managers of the command line client

    src/tooling/dynamic/client/manager: what a session knows of the breakpoints,
    the sources, the stack, the variables and the watched expressions of the
    program, how it is filled from the replies and events of the debugger, and
    how it is shown. *)

From S2P Require Import Prelude Regex Http CppLib Utils PtJson PtCodec PtTypes PtReturns ClientState.
Local Open Scope Z_scope.
Local Open Scope ark_scope.

(** ** Variables *)

(** What [FindNodeWithObjectIdRecursive] and [FindNodeWithInnerKeyZero] look for
    in a node. *)
Definition object_of (descriptor : option PropertyDescriptor) : option RemoteObject := descriptor ≫= pd_value_.
Definition has_object (objectId : Z) (d : NodeData) : bool :=
  match d with
  | DScope outer => existsb (λ p : Z * gmap Z bytes, bool_decide (is_Some (p.2 !! objectId))) (entries outer)
  | DObject descriptors =>
      existsb (λ p : Z * option PropertyDescriptor,
        match object_of p.2 with Some v => default 0 (ro_objectId_ v) =? objectId | None => false end) (entries descriptors)
  | _ => false
  end.
Definition has_key_zero (d : NodeData) : bool :=
  match d with
  | DScope outer => existsb (λ p : Z * gmap Z bytes, bool_decide (is_Some (p.2 !! 0))) (entries outer)
  | _ => false
  end.

(** The way to the first node with [p], from parents to children. *)
Fixpoint find_node (p : NodeData → bool) (t : TreeNode) : option (list nat) :=
  let 'mkTree d cs := t in
  if p d then Some []
  else
    (fix go (i : nat) (cs : list TreeNode) :=
       match cs with
       | [] => None
       | c :: cs' => match find_node p c with Some path => Some (i :: path) | None => go (S i) cs' end
       end) 0%nat cs.

Definition FindNodeWithObjectId (objectId : Z) (t : Tree) : option (list nat) := root_ t ≫= find_node (has_object objectId).
Definition FindNodeWithCondition (t : Tree) : option (list nat) := root_ t ≫= find_node has_key_zero.

Fixpoint AddChild (path : list nat) (child : TreeNode) (t : TreeNode) : TreeNode :=
  match path with
  | [] => mkTree (tn_data t) (tn_children t ++ [child])
  | i :: path' => mkTree (tn_data t) (alter (AddChild path' child) i (tn_children t))
  end.

Definition AddVariableNode (parent : option (list nat)) (descriptor : option PropertyDescriptor) (t : Tree) : Tree :=
  match parent, root_ t with
  | Some path, Some r => mkTreeOf (Some (AddChild path (mkTree (DVariable descriptor) []) r)) (index_ t)
  | _, _ => t
  end.
Definition AddObjectNode (parent : option (list nat)) (descriptor : option PropertyDescriptor) (t : Tree) : Tree :=
  match parent, root_ t with
  | Some path, Some r =>
      mkTreeOf (Some (AddChild path (mkTree (DObject {[index_ t := descriptor]}) []) r)) (index_ t + 1)
  | _, _ => t
  end.
Definition AddVariableInfo (parent : option (list nat)) (variableInfo : option PropertyDescriptor) (t : Tree) : Tree :=
  match object_of variableInfo ≫= ro_objectId_ with
  | Some _ => AddObjectNode parent variableInfo t
  | None => AddVariableNode parent variableInfo t
  end.

Fixpoint scope_nodes (index : Z) (scopes : list (Z * bytes)) : list TreeNode :=
  match scopes with
  | [] => []
  | (key, value) :: scopes' => mkTree (DScope {[index := {[key := value]}]}) [] :: scope_nodes (index + 1) scopes'
  end.
(** The constructor of [Tree] for a frame. *)
Definition InitializeTree (dataMap : gmap Z (gmap Z bytes)) (index : Z) : Tree :=
  let scopes := match dataMap !! index with Some m => entries m | None => [] end in
  mkTreeOf (Some (mkTree (DFrame index) (scope_nodes 1 scopes))) (1 + Z.of_nat (length scopes)).

Fixpoint FindObjectByIndexRecursive (index : Z) (t : TreeNode) : Z :=
  let 'mkTree d cs := t in
  let below :=
    (fix go (cs : list TreeNode) :=
       match cs with
       | [] => 0
       | c :: cs' => let r := FindObjectByIndexRecursive index c in if r =? 0 then go cs' else r
       end) cs in
  match d with
  | DScope outer =>
      match outer !! index with
      | Some inner => match entries inner with (objectId, _) :: _ => objectId | [] => below end
      | None => below
      end
  | DObject descriptors =>
      match descriptors !! index ≫= object_of with Some v => default 0 (ro_objectId_ v) | None => below end
  | _ => below
  end.
Definition FindObjectByIndex (index : Z) (t : Tree) : Z :=
  match root_ t with Some r => FindObjectByIndexRecursive index r | None => 0 end.

(** [TreeNode::Print]; [None] when the description of an object that has none is
    asked for. *)
Definition spaces (n : Z) : bytes := replicate (Z.to_nat n) 32.
Definition line (l : list bytes) : list shown := Txt <$> l ++ [[10]].

Definition show_object (indent : bytes) (p : Z * option PropertyDescriptor) : option (list shown) :=
  let head := [Txt indent; Txt (to_string p.1); Txt (str ". ")] in
  match p.2 with
  | Some d =>
      match pd_value_ d with
      | Some v => (λ t, head ++ line [pd_name_ d; str " = "; t]) <$> ro_description_ v
      | None => Some head
      end
  | None => Some head
  end.

Definition show_node (depth : Z) (d : NodeData) : option (list shown) :=
  let indent := spaces (if 1 <? depth then (depth - 1) * 4 else 0) in
  match d with
  | DFrame callFrameId => Some (line [indent; str "CallFrameId: "; to_string callFrameId])
  | DScope outer =>
      Some (concat ((λ p : Z * gmap Z bytes,
        concat ((λ q : Z * bytes, line [to_string p.1; str ". "; q.2]) <$> entries p.2)) <$> entries outer))
  | DVariable descriptor =>
      match descriptor with
      | Some d =>
          match pd_value_ d with
          | Some v => Some (line [indent; str "   "; pd_name_ d; str " = "; default (ro_type_ v) (ro_description_ v)])
          | None => Some []
          end
      | None => Some []
      end
  | DObject descriptors => (λ l, concat l) <$> mapM (show_object indent) (entries descriptors)
  end.

Fixpoint Print (depth : Z) (t : TreeNode) : option (list shown) :=
  let 'mkTree d cs := t in
  own ← show_node depth d;
  rest ← (fix go (cs : list TreeNode) :=
            match cs with
            | [] => Some []
            | c :: cs' => a ← Print (depth + 1) c; b ← go cs'; Some (a ++ b)
            end) cs;
  Some (own ++ rest).

(** [PrintRootAndImmediateChildren]; without a root it fails. *)
Definition show_scopes (d : NodeData) : list shown :=
  match d with
  | DScope outer =>
      concat ((λ p : Z * gmap Z bytes,
        line [str "  Index: "; to_string p.1] ++
        concat ((λ q : Z * bytes, line [str "    Object ID: "; to_string q.1; str ", Type: "; q.2]) <$> entries p.2))
        <$> entries outer)
  | _ => []
  end.
Definition PrintRootAndImmediateChildren (t : Tree) : option (list shown) :=
  (λ r, match tn_data r with DFrame callFrameId => line [str "CallFrame ID: "; to_string callFrameId] | _ => [] end
        ++ concat ((λ c, show_scopes (tn_data c)) <$> tn_children r)) <$> root_ t.
Definition Clear (t : Tree) : Tree := mkTreeOf None (index_ t).

Section managers.
Context `{cj : CJson} `{CastOob} `{SignedOverflow} `{ClientSocket} `{ClientEnv}.

(** ** Requests

    The common part of all commands: [note] is what a client remembers under the
    number of the request, [on_sent] what it does when it could be sent. *)
Definition request_json (id : Z) (method : string) (params : PtJson) : PtJson :=
  CreateObject ▷ addI "id" id ▷ addS "method" (str method) ▷ addJ "params" params.

Definition SendRequest (domain method : string) (note : Z → C ()) (params : PtJson) (on_sent : C ()) : C () :=
  id <-- GetMessageId ;;
  note id ;;;
  ok <-- ClientSendReq (Stringify (request_json id method params)) ;;
  if (ok : bool) then on_sent ;;; SetDomainById id (str domain) else m_ret ().

(** Reading a member; without it the caller returns. *)
Definition read {A B} (r : Result A) (missing : C B) (k : A → C B) : C B :=
  match r with SUCCESS a => k a | _ => missing end.

(** ** Breakpoints *)

Definition Createbreaklocation (json : PtJson) : C () :=
  if negb (IsObject json) then m_ret ()
  else
    read (GetObject json "result") (m_ret ()) (λ result,
    read (GetString result "breakpointId") (m_ret ()) (λ breakpointId,
      let breaksplitstring := SplitString breakpointId (str ":") in
      match breaksplitstring !! 1%nat, breaksplitstring !! 2%nat, breaksplitstring !! 3%nat with
      | Some lineNumber, Some columnNumber, Some url =>
          upd (λ s, set_breaklist (breaklist_ s ++ [mkBreaklocation breakpointId url lineNumber columnNumber]) s)
      | _, _, _ => crash
      end)).

Definition Breakpoints_Show : C () :=
  s <-- ses ;;
  show (concat (imap (λ i b,
    line [to_string (Z.of_nat i + 1); str ":"; str " url:"; bl_url b; str " lineNumber:";
          to_string (int32_add (atoi (bl_lineNumber b)) 1); str " columnNumber:"; bl_columnNumber b]) (breaklist_ s))).

(** Erasing in front of the first element or behind the last has no meaning. *)
Definition Deletebreaklist (num : Z) : C () :=
  s <-- ses ;;
  if (1 <=? num) && (num <=? Z.of_nat (length (breaklist_ s)))
  then upd (set_breaklist (delete (Z.to_nat (num - 1)) (breaklist_ s)))
  else crash.

(** ** Sources *)

Definition upd_source (f : SourceManager → SourceManager) : C () := upd (λ s, set_sourceManager (f (sourceManager_ s)) s).

Definition SendRequeSource (scriptId : Z) : C () :=
  SendRequest "Debugger" "Debugger.getScriptSource"
    (λ id, upd_source (λ m, mkSourceManager (scriptId_ m) (debugLineNum_ m)
       (match scriptIdMap_ m !! id with Some _ => scriptIdMap_ m | None => <[id := scriptId]> (scriptIdMap_ m) end) (fileSource_ m)))
    (CreateObject ▷ addS "scriptId" (to_string scriptId)) (m_ret ()).

Definition SetFileName (scriptId : Z) (fileName : bytes) : C () :=
  upd_source (λ m, mkSourceManager (scriptId_ m) (debugLineNum_ m) (scriptIdMap_ m)
    (match fileSource_ m !! scriptId with Some _ => fileSource_ m | None => <[scriptId := (fileName, [])]> (fileSource_ m) end)).

(** The event of a script. *)
Definition EnableReply (json : PtJson) : C () :=
  if negb (IsObject json) then m_ret ()
  else
    read (GetObject json "params") (m_ret ()) (λ params,
    read (GetString params "scriptId") (m_ret ()) (λ scriptIdStr,
    read (GetString params "url") (m_ret ()) (λ fileName,
      SetFileName (atoi scriptIdStr) fileName ;;; SendRequeSource (atoi scriptIdStr)))).

Definition GetFileName : C () :=
  s <-- ses ;;
  show (concat ((λ p : Z * (bytes * list bytes), line [str "scriptID : "; to_string p.1; str " fileName : "; p.2.1])
                  <$> file_order (fileSource_ (sourceManager_ s)))).

(** The loop that cuts a source at its line ends; every round passes one. *)
Definition CRLF : bytes := [13; 10].
Fixpoint source_lines (fuel : nat) (fileSource : bytes) (startPos : nat) : list bytes :=
  match fuel with
  | O => []
  | S f =>
      match find fileSource CRLF startPos with
      | Some endPos => substr fileSource startPos (Some (endPos - startPos)%nat) :: source_lines f fileSource (endPos + 2)
      | None => [substr fileSource startPos None]
      end
  end.

Definition SetFileSource (scriptIdIndex : Z) (fileSource : bytes) : C () :=
  upd_source (λ m,
    match scriptIdMap_ m !! scriptIdIndex with
    | None => m
    | Some scriptId =>
        match fileSource_ m !! scriptId with
        | Some (name, []) =>
            mkSourceManager (scriptId_ m) (debugLineNum_ m) (scriptIdMap_ m)
              (<[scriptId := (name, source_lines (S (length fileSource)) fileSource 0)]> (fileSource_ m))
        | _ => m
        end
    end).

Definition numbered (n : Z) (text : bytes) : list shown := line [to_string n; str "    "; text].

Definition GetFileSource (scriptId : Z) : C (list bytes) :=
  s <-- ses ;;
  match fileSource_ (sourceManager_ s) !! scriptId with
  | Some (_, lines) =>
      show (line [str "fileSource : "] ++ concat (imap (λ i l, numbered (Z.of_nat i + 1) l) lines)) ;;; m_ret lines
  | None => m_ret []
  end.

(** A line by its index. *)
Definition show_line (lines : list bytes) (i : Z) : C () :=
  if i <? 0 then crash
  else match lines !! Z.to_nat i with Some l => show (numbered (i + 1) l) | None => crash end.
Fixpoint show_lines (lines : list bytes) (from : Z) (count : nat) : C () :=
  match count with
  | O => m_ret ()
  | S n => show_line lines from ;;; show_lines lines (from + 1) n
  end.
Definition show_range (lines : list bytes) (from to : Z) : C () := show_lines lines from (Z.to_nat (to - from)).

Definition GetDebugSources (json : PtJson) : C () :=
  read (GetString json "functionName") (m_ret ()) (λ _,
  read (GetObject json "location") (m_ret ()) (λ location,
  read (GetString location "scriptId") (m_ret ()) (λ scriptIdStr,
    upd_source (λ m, mkSourceManager (atoi scriptIdStr) (debugLineNum_ m) (scriptIdMap_ m) (fileSource_ m)) ;;;
    read (GetInt location "lineNumber") (m_ret ()) (λ lineNumber,
      upd_source (λ m, mkSourceManager (scriptId_ m) lineNumber (scriptIdMap_ m) (fileSource_ m)) ;;;
      s <-- ses ;;
      match fileSource_ (sourceManager_ s) !! atoi scriptIdStr with
      | Some (_, lines) => show_line lines lineNumber ;;; show [Txt (str ">>> ")]
      | None => m_ret ()
      end)))).

Definition BLANK_LINE : Z := INT_MAX.
Definition out_of_range (lines : list bytes) : C () :=
  say [str "Line number out of range, this file has "; to_string (Z.of_nat (length lines)); str " lines"].

Definition ListSourceCodeWithParameters (startLine endLine : Z) : C () :=
  s <-- ses ;;
  match fileSource_ (sourceManager_ s) !! scriptId_ (sourceManager_ s) with
  | None => m_ret ()
  | Some (_, lines) =>
      let size := Z.of_nat (length lines) in
      if negb (startLine =? BLANK_LINE) && (endLine =? BLANK_LINE) then
        if (size + 6 <=? startLine) || (startLine <? 0) then out_of_range lines
        else
          let showLine := startLine - 6 in
          if showLine <? 0 then show_range lines 0 (Z.min 10 size)
          else show_range lines showLine (Z.min (startLine + 4) size)
      else if negb (startLine =? BLANK_LINE) && negb (endLine =? BLANK_LINE) then
        if (size <? startLine) || (size <? endLine) || (startLine <? 1) then out_of_range lines
        else show_range lines (startLine - 1) endLine
      else m_ret ()
  end.

(** The loop of the listing around the current line includes its end. *)
Definition ListSource (startLine endLine : Z) : C () :=
  if (startLine =? BLANK_LINE) && (endLine =? BLANK_LINE) then
    s <-- ses ;;
    match fileSource_ (sourceManager_ s) !! scriptId_ (sourceManager_ s) with
    | None => m_ret ()
    | Some (_, lines) =>
        let size := Z.of_nat (length lines) in
        let showLine := int32_add (int32_add (debugLineNum_ (sourceManager_ s)) 1) (-6) in
        if showLine <? 0 then show_range lines 0 (Z.min 10 size + 1)
        else show_range lines showLine (Z.min (int32_add (debugLineNum_ (sourceManager_ s)) 4) size + 1)
    end
  else ListSourceCodeWithParameters startLine endLine.

Definition blank_or_stoi (text : bytes) : option Z := if bool_decide (text = []) then Some BLANK_LINE else stoi text.
Definition GetListSource (startLine endLine : bytes) : C () :=
  match blank_or_stoi startLine, blank_or_stoi endLine with
  | Some startline, Some endline => ListSource startline endline
  | _, _ => crash
  end.

(** ** The stack *)

Definition SetCallFrames (callFrames : list (Z * CallFrame)) : C () :=
  upd (λ s, set_callFrames (foldl (λ m p, <[p.1 := p.2]> m) (callFrames_ s) callFrames) s).
Definition ClearCallFrame : C () := upd (set_callFrames ∅).

Definition named_frame (f : CallFrame) : CallFrame :=
  if bool_decide (cf_functionName_ f = []) then
    mkCallFrame (cf_callFrameId_ f) (str "<anonymous function>") (cf_functionLocation_ f) (cf_location_ f) (cf_url_ f)
      (cf_scopeChain_ f) (cf_this_ f) (cf_returnValue_ f) (cf_isStaticFrame_ f)
  else f.
Definition ShowCallFrames : C () :=
  upd (λ s, set_callFrames (named_frame <$> callFrames_ s) s) ;;;
  s <-- ses ;;
  show (Txt [10] :: concat ((λ p : Z * CallFrame,
    line [to_string p.1; str ". "; cf_functionName_ p.2; str "(), "; cf_url_ p.2; str ": ";
          to_string (loc_lineNumber_ (cf_location_ p.2))]) <$> entries (callFrames_ s))).

Definition GetScopeChainInfo (s : Session) : gmap Z (gmap Z bytes) :=
  foldl (λ m (p : Z * CallFrame),
    foldl (λ m scope, let id := cf_callFrameId_ p.2 in
             <[id := <[default 0 (ro_objectId_ (sc_object_ scope)) := sc_type_ scope]> (default ∅ (m !! id))]> m)
          m (cf_scopeChain_ p.2)) ∅ (entries (callFrames_ s)).

(** ** Variables *)

Definition upd_tree (f : Tree → Tree) : C () := upd (λ s, set_tree (f (variableInfo_ s)) s).

Definition SetHeapUsageInfo (h : GetHeapUsageReturns) : C () := upd (set_heapUsage h).
Definition ShowHeapUsageInfo : C () :=
  s <-- ses ;;
  show ([Txt [10]; Txt (str "UsedSize is: "); Num (hur_usedSize_ (heapUsageInfo_ s)); Txt [10]]
        ++ [Txt (str "TotalSize is: "); NumFixed (hur_totalSize_ (heapUsageInfo_ s)); Txt [10]]).
Definition PrintVariableInfo : C () :=
  s <-- ses ;;
  match root_ (variableInfo_ s) with
  | None => m_ret ()
  | Some r => match Print 0 r with Some l => show l | None => crash end
  end.

Definition ClearVariableInfo : C () := upd_tree Clear.
Definition Printinfo : C () :=
  s <-- ses ;; match PrintRootAndImmediateChildren (variableInfo_ s) with Some l => show l | None => crash end.

(** ** Watched expressions *)

Definition upd_watch (f : WatchManager → WatchManager) : C () := upd (λ s, set_watchManager (f (watchManager_ s)) s).
Definition set_watch_map (v : gmap Z Z) (m : WatchManager) : WatchManager :=
  mkWatchManager (watchInfoList_ m) v (IsDebug_ m) (callFrameId_ m) (inputRowFlag_ m) (isShowWatchInfo_ m).
Definition set_debug (v : bool) (m : WatchManager) : WatchManager :=
  mkWatchManager (watchInfoList_ m) (watchInfoMap_ m) v (callFrameId_ m) (inputRowFlag_ m) (isShowWatchInfo_ m).
Definition set_row_flag (v : Z) (m : WatchManager) : WatchManager :=
  mkWatchManager (watchInfoList_ m) (watchInfoMap_ m) (IsDebug_ m) (callFrameId_ m) v (isShowWatchInfo_ m).
Definition set_show_info (v : bool) (m : WatchManager) : WatchManager :=
  mkWatchManager (watchInfoList_ m) (watchInfoMap_ m) (IsDebug_ m) (callFrameId_ m) (inputRowFlag_ m) v.

Definition SetWatchInfoMap (id index : Z) : C () :=
  upd_watch (λ m, set_watch_map (match watchInfoMap_ m !! id with Some _ => watchInfoMap_ m | None => <[id := index]> (watchInfoMap_ m) end) m).
Definition AddWatchInfo (watchInfo : bytes) : C () :=
  upd_watch (λ m, mkWatchManager (watchInfoList_ m ++ [watchInfo]) (watchInfoMap_ m) (IsDebug_ m) (callFrameId_ m)
    (inputRowFlag_ m) (isShowWatchInfo_ m)).
Definition GetWatchInfoSize (s : Session) : Z := Z.of_nat (length (watchInfoList_ (watchManager_ s))).
Definition watch_text (index : Z) (k : bytes → C ()) : C () :=
  s <-- ses ;;
  if index <? 0 then crash
  else match watchInfoList_ (watchManager_ s) !! Z.to_nat index with Some t => k t | None => crash end.

Definition SendRequestWatch (watchInfoIndex : Z) (callFrameId : bytes) : C () :=
  watch_text watchInfoIndex (λ expression,
    SendRequest "Debugger" "Debugger.evaluateOnCallFrame" (λ id, SetWatchInfoMap id watchInfoIndex)
      (CreateObject ▷ addS "callFrameId" callFrameId ▷ addS "expression" expression ▷ addS "objectGroup" (str "watch-group")
         ▷ addB "includeCommandLineAPI" false ▷ addB "silent" true ▷ addB "returnByValue" false
         ▷ addB "generatePreview" false ▷ addB "throwOnSideEffect" false)
      (upd_watch (λ m, set_row_flag (int32_add (inputRowFlag_ m) 1) m))).

Definition Watch_GetPropertiesCommand (watchInfoIndex : Z) (objectId : bytes) : C () :=
  SendRequest "Debugger" "Runtime.getProperties" (λ id, SetWatchInfoMap id watchInfoIndex)
    (CreateObject ▷ addB "accessorPropertiesOnly" false ▷ addB "generatePreview" true ▷ addS "objectId" objectId
       ▷ addB "ownProperties" true) (m_ret ()).

Fixpoint each_watch (i : Z) (n : nat) (callFrameId : bytes) : C () :=
  match n with
  | O => m_ret ()
  | S n' => SendRequestWatch i callFrameId ;;; each_watch (i + 1) n' callFrameId
  end.
Definition RequestWatchInfo (json : PtJson) : C () :=
  read (GetString json "callFrameId") (m_ret ()) (λ callFrameId,
    upd_watch (λ m, mkWatchManager (watchInfoList_ m) (watchInfoMap_ m) (IsDebug_ m) callFrameId (inputRowFlag_ m) (isShowWatchInfo_ m)) ;;;
    s <-- ses ;;
    each_watch 0 (length (watchInfoList_ (watchManager_ s))) callFrameId).

(** The prompt after the last expression. *)
Definition row_done : C () :=
  upd_watch (λ m, set_row_flag (int32_add (inputRowFlag_ m) (-1)) m) ;;;
  s <-- ses ;;
  if inputRowFlag_ (watchManager_ s) =? 0 then show [Txt (str ">>> ")] ;;; upd_watch (set_show_info true) else m_ret ().

Definition watched (id : Z) (k : Z → C bool) : C bool :=
  s <-- ses ;; match watchInfoMap_ (watchManager_ s) !! id with Some index => k index | None => m_ret false end.
Definition forget_watch (id : Z) : C () := upd_watch (λ m, set_watch_map (delete id (watchInfoMap_ m)) m).

Definition ShowWatchResult (result : PtJson) (id : Z) : C bool :=
  read (GetString result "type") (m_ret false) (λ type,
    s <-- ses ;;
    (if (inputRowFlag_ (watchManager_ s) =? GetWatchInfoSize s) && isShowWatchInfo_ (watchManager_ s)
     then say [str "watch info :"] ;;; upd_watch (set_show_info false) else m_ret ()) ;;;
    let finish_row := forget_watch id ;;; upd_watch (set_debug true) ;;; m_ret true in
    if bool_decide (type = str "undefined") then
      watched id (λ index, watch_text index (λ t, say [str "    "; t; str " = undefined"]) ;;; finish_row)
    else if bool_decide (type = str "object") then
      read (GetString result "objectId") (m_ret false) (λ objectId,
        watched id (λ index,
          Watch_GetPropertiesCommand index objectId ;;;
          upd_watch (λ m, set_row_flag (int32_add (inputRowFlag_ m) 1) m) ;;; finish_row))
    else
      watched id (λ index,
        read (GetString result "description") (m_ret false) (λ description,
          watch_text index (λ t, say [str "    "; t; str " = "; description]) ;;; finish_row))).

Definition watch_item (last : bool) (item : PtJson) : list shown :=
  match GetString item "name", GetObject item "value" with
  | SUCCESS name, SUCCESS value =>
      match GetString value "description" with
      | SUCCESS description => Txt <$> [name; str " = "; description] ++ (if last then [] else [str ", "])
      | _ => []
      end
  | _, _ => []
  end.
Definition OutputWatchResult (watchResult : PtJson) : C () :=
  let n := Z.to_nat (GetSize watchResult) in
  show (concat ((λ i, watch_item (bool_decide (S i = n)) (Get watchResult (Z.of_nat i))) <$> seq 0 n)).

Definition ShowWatchResult2 (id : Z) (json : PtJson) : C bool :=
  read (GetObject json "result") (m_ret false) (λ resultWatch,
  read (GetArray resultWatch "result") (m_ret false) (λ watchResult,
  watched id (λ index,
    watch_text index (λ t, show (Txt <$> [str "    "; t; str " = { "])) ;;;
    OutputWatchResult watchResult ;;; show (line [str " }"]) ;;;
    row_done ;;; upd_watch (set_debug true) ;;; forget_watch id ;;; m_ret true))).

Definition HandleWatchResult (json : PtJson) (id : Z) : C bool :=
  read (GetObject json "result") (m_ret false) (λ result,
    match GetObject result "result" with
    | SUCCESS watchResult =>
        ok <-- ShowWatchResult watchResult id ;;
        if negb (ok : bool) then m_ret false else row_done ;;; m_ret true
    | _ => _ <-- ShowWatchResult2 id json ;; m_ret false
    end).

End managers.
