(* ===== verification/ClientDomains.v ===== *)
(** * Clients of the domains

    src/tooling/dynamic/client/domain and manager/domain_manager.cpp: the requests
    of each domain, and what is done with the replies and the events that come
    back. *)

From S2P Require Import Prelude Regex Http CppLib Utils PtJson PtCodec PtTypes PtReturns Dispatcher ClientState ClientManagers.
Local Open Scope Z_scope.
Local Open Scope ark_scope.

Section domains.
Context `{cj : CJson} `{CastOob} `{SignedOverflow} `{ClientSocket} `{ClientEnv}.

(** [std::vector::back]. *)
Definition back {A B} (l : list A) (k : A → C B) : C B := match last l with Some a => k a | None => crash end.

(** A command by its name. *)
Definition run_command (table : list (string * C ())) (cmd : bytes) : C bool :=
  match list_find (λ e : string * C (), str e.1 = cmd) table with
  | Some (_, e) => e.2 ;;; m_ret true
  | None => m_ret false
  end.

(** ** Debugger *)

Definition debugger_request (method : string) (params : PtJson) : C () :=
  SendRequest "Debugger" method (λ _, m_ret ()) params (m_ret ()).

Definition Client_BreakCommand : C () :=
  s <-- ses ;;
  back (breakPointInfoList_ (debuggerClient_ s)) (λ b,
    debugger_request "Debugger.setBreakpointByUrl"
      (CreateObject ▷ addI "columnNumber" (bpi_columnNumber b) ▷ addI "lineNumber" (bpi_lineNumber b) ▷ addS "url" (bpi_url b))).
Definition BacktrackCommand : C () := debugger_request "Debugger.dropFrame" (CreateObject ▷ addI "droppedDepth" 1).
Definition Client_DeleteCommand : C () :=
  s <-- ses ;;
  back (breakPointInfoList_ (debuggerClient_ s)) (λ b,
    debugger_request "Debugger.removeBreakpoint" (CreateObject ▷ addS "breakpointId" (bpi_url b))).
Definition DisableCommand : C () := debugger_request "Debugger.disable" CreateObject.
Definition EnableCommand : C () := debugger_request "Debugger.enable" CreateObject.
Definition AsyncStackDepthCommand : C () :=
  debugger_request "Debugger.setAsyncCallStackDepth" (CreateObject ▷ addI "maxDepth" 32).
Definition ResumeCommand : C () := debugger_request "Debugger.resume" CreateObject.
Definition StepIntoCommand : C () := debugger_request "Debugger.stepInto" CreateObject.
Definition StepOutCommand : C () := debugger_request "Debugger.stepOut" CreateObject.
Definition StepOverCommand : C () := debugger_request "Debugger.stepOver" CreateObject.
Definition Client_SaveAllPossibleBreakpointsCommand : C () :=
  s <-- ses ;;
  back (breakPointInfoList_ (debuggerClient_ s)) (λ b,
    debugger_request "Debugger.saveAllPossibleBreakpoints"
      (CreateObject ▷ addJ "locations" (CreateObject ▷ addJ (string_of_bytes (c_str (bpi_url b)))
         (pushJ CreateArray (CreateObject ▷ addI "lineNumber" (bpi_lineNumber b) ▷ addI "columnNumber" (bpi_columnNumber b)))))).
Definition symbolic_params (functionName : bytes) : PtJson :=
  CreateObject ▷ addJ "symbolicBreakpoints" (pushJ CreateArray (CreateObject ▷ addS "functionName" functionName)).
Definition Client_SetSymbolicBreakpointsCommand : C () :=
  s <-- ses ;;
  back (symbolicBreakpointInfoList_ (debuggerClient_ s)) (λ f, debugger_request "Debugger.setSymbolicBreakpoints" (symbolic_params f)).
Definition Client_RemoveSymbolicBreakpointsCommand : C () :=
  s <-- ses ;;
  back (symbolicBreakpointInfoList_ (debuggerClient_ s)) (λ f, debugger_request "Debugger.removeSymbolicBreakpoints" (symbolic_params f)).
Definition Client_RemoveBreakpointsByUrlCommand : C () :=
  s <-- ses ;; back (urlList_ (debuggerClient_ s)) (λ url, debugger_request "Debugger.removeBreakpointsByUrl" (CreateObject ▷ addS "url" url)).
Definition enable_with (option : string) : PtJson := CreateObject ▷ addJ "options" (pushS CreateArray (str option)).
Definition EnableLaunchAccelerateCommand : C () := debugger_request "Debugger.enable" (enable_with "enableLaunchAccelerate").
Definition EnableSimplifiedModeCommand : C () := debugger_request "Debugger.enable" (enable_with "enableSimplifiedMode").

(** Many commands do nothing. *)
Definition debugger_commands : list (string * C ()) :=
  [("break", Client_BreakCommand); ("backtrack", BacktrackCommand); ("continue", ResumeCommand); ("delete", Client_DeleteCommand);
   ("jump", m_ret ()); ("disable", DisableCommand); ("display", m_ret ()); ("enable", EnableCommand); ("finish", m_ret ());
   ("frame", m_ret ()); ("ignore", m_ret ()); ("infobreakpoints", m_ret ()); ("infosource", m_ret ()); ("list", m_ret ());
   ("next", m_ret ()); ("ptype", m_ret ()); ("run", m_ret ()); ("setvar", m_ret ()); ("step", m_ret ());
   ("undisplay", m_ret ()); ("watch", m_ret ()); ("setAsyncStackDepth", AsyncStackDepthCommand); ("resume", ResumeCommand);
   ("step-into", StepIntoCommand); ("step-out", StepOutCommand); ("step-over", StepOverCommand);
   ("enable-launch-accelerate", EnableLaunchAccelerateCommand); ("enable-simplified-mode", EnableSimplifiedModeCommand);
   ("removeBreakpointsByUrl", Client_RemoveBreakpointsByUrlCommand);
   ("saveAllPossibleBreakpoints", Client_SaveAllPossibleBreakpointsCommand);
   ("setSymbolicBreakpoints", Client_SetSymbolicBreakpointsCommand);
   ("removeSymbolicBreakpoints", Client_RemoveSymbolicBreakpointsCommand)]%string.
Definition Debugger_DispatcherCmd : bytes → C bool := run_command debugger_commands.

Definition upd_debugger (f : DebuggerClient → DebuggerClient) : C () := upd (λ s, set_debugger (f (debuggerClient_ s)) s).
Definition AddBreakPointInfo (url : bytes) (lineNumber columnNumber : Z) : C () :=
  upd_debugger (λ d, mkDebuggerClient (urlList_ d)
    (breakPointInfoList_ d ++ [mkBreakPointInfo (int32_add lineNumber (-1)) columnNumber url]) (symbolicBreakpointInfoList_ d)).
Definition AddSymbolicBreakpointInfo (functionName : bytes) : C () :=
  upd_debugger (λ d, mkDebuggerClient (urlList_ d) (breakPointInfoList_ d) (symbolicBreakpointInfoList_ d ++ [functionName])).
Definition AddUrl (url : bytes) : C () :=
  upd_debugger (λ d, mkDebuggerClient (urlList_ d ++ [url]) (breakPointInfoList_ d) (symbolicBreakpointInfoList_ d)).

(** The frames of a pause: all of them can be read, or nothing is done. *)
Fixpoint read_frames (callFrames : PtJson) (i : Z) (n : nat) : option (list (Z * CallFrame)) :=
  match n with
  | O => Some []
  | S n' =>
      match CallFrame_Create (Get callFrames i) with
      | Created f => (λ l, (i + 1, f) :: l) <$> read_frames callFrames (i + 1) n'
      | _ => None
      end
  end.

Definition PausedReply (json : PtJson) : C () :=
  if negb (IsObject json) then m_ret ()
  else
    read (GetObject json "params") (m_ret ()) (λ params,
    read (GetArray params "callFrames") (m_ret ()) (λ callFrames,
      match read_frames callFrames 0 (Z.to_nat (GetSize callFrames)) with
      | None => m_ret ()
      | Some data =>
          ClearCallFrame ;;; SetCallFrames data ;;;
          GetDebugSources (Get callFrames 0) ;;;
          RequestWatchInfo (Get callFrames 0) ;;;
          upd_watch (set_debug true)
      end)).

(** [id] keeps no value when the reply has none. *)
Definition HandleResponse (json : PtJson) : C () :=
  read (GetObject json "result") (m_ret ()) (λ result,
    let id := match GetInt json "id" with SUCCESS id => id | _ => unset_int end in
    match GetInt json "id", GetString result "scriptSource" with
    | SUCCESS id, SUCCESS scriptSource => SetFileSource id scriptSource
    | _, _ =>
        match GetString result "breakpointId" with
        | SUCCESS _ => Createbreaklocation json
        | _ => _ <-- HandleWatchResult json id ;; m_ret ()
        end
    end).

(** The name of an event behind its first dot; all of it without one. *)
Definition event_name (wholeMethod : bytes) : bytes :=
  match find_dot wholeMethod with Some i => drop (S i) wholeMethod | None => wholeMethod end.

Definition Debugger_RecvReply (json : PtJson) : C () :=
  if negb (IsObject json) then m_ret ()
  else
    let wholeMethod := match GetString json "method" with SUCCESS m => m | _ => [] end in
    let method := event_name wholeMethod in
    if bool_decide (method = str "paused") then PausedReply json
    else if bool_decide (method = str "scriptParsed") then EnableReply json
    else if bool_decide (method = str "resumed") then upd_watch (set_debug false)
    else HandleResponse json.

(** ** Runtime *)

Definition upd_runtime (f : RuntimeClient → RuntimeClient) : C () := upd (λ s, set_runtime_client (f (runtimeClient_ s)) s).
Definition set_method (id : Z) (method objectId : bytes) (r : RuntimeClient) : RuntimeClient :=
  mkRuntimeClient (<[id := (method, objectId)]> (idMethodMap_ r)) (objectId_ r) (isInitializeTree_ r) (start_ r) (count_ r).
Definition SetObjectId (v : bytes) : C () :=
  upd_runtime (λ r, mkRuntimeClient (idMethodMap_ r) v (isInitializeTree_ r) (start_ r) (count_ r)).
Definition SetIsInitializeTree (v : bool) : C () :=
  upd_runtime (λ r, mkRuntimeClient (idMethodMap_ r) (objectId_ r) v (start_ r) (count_ r)).
Definition SetStartIndex (v : Z) : C () :=
  upd_runtime (λ r, mkRuntimeClient (idMethodMap_ r) (objectId_ r) (isInitializeTree_ r) (Some v) (count_ r)).
Definition SetGroupCount (v : Z) : C () :=
  upd_runtime (λ r, mkRuntimeClient (idMethodMap_ r) (objectId_ r) (isInitializeTree_ r) (start_ r) (Some v)).

Definition runtime_request (method : string) (name objectId : bytes) (params : PtJson) : C () :=
  SendRequest "Runtime" method (λ id, upd_runtime (set_method id name objectId)) params (m_ret ()).

Definition HeapusageCommand : C () := runtime_request "Runtime.getHeapUsage" (str "getHeapUsage") [] CreateObject.
Definition RuntimeEnableCommand : C () := runtime_request "Runtime.enable" (str "enable") [] CreateObject.
Definition RuntimeDisableCommand : C () := runtime_request "Runtime.disable" (str "disable") [] CreateObject.
Definition RunIfWaitingForDebuggerCommand : C () :=
  runtime_request "Runtime.runIfWaitingForDebugger" (str "runIfWaitingForDebugger") [] CreateObject ;;;
  upd_watch (set_debug false).
Definition Client_GetPropertiesCommand : C () :=
  s <-- ses ;;
  let r := runtimeClient_ s in
  let params := CreateObject ▷ addB "accessorPropertiesOnly" false ▷ addB "generatePreview" true
                  ▷ addS "objectId" (objectId_ r) ▷ addB "ownProperties" true in
  runtime_request "Runtime.getProperties" (str "getProperties") (objectId_ r)
    (match start_ r, count_ r with
     | Some start, Some count => params ▷ addI "start" start ▷ addI "count" count
     | _, _ => params
     end).
(** Not reached by any command. *)
Definition GetPropertiesCommand2 : C () :=
  s <-- ses ;;
  runtime_request "Runtime.getProperties" (str "getProperties") (objectId_ (runtimeClient_ s))
    (CreateObject ▷ addB "accessorPropertiesOnly" true ▷ addB "generatePreview" true ▷ addS "objectId" (str "0")
       ▷ addB "ownProperties" false).

Definition runtime_commands : list (string * C ()) :=
  [("heapusage", HeapusageCommand); ("runtime-enable", RuntimeEnableCommand); ("runtime-disable", RuntimeDisableCommand);
   ("print", Client_GetPropertiesCommand); ("run", RunIfWaitingForDebuggerCommand)]%string.
Definition Runtime_DispatcherCmd : bytes → C bool := run_command runtime_commands.

Definition GetMethodById (id : Z) (s : Session) : bytes := default [] (fst <$> idMethodMap_ (runtimeClient_ s) !! id).
Definition GetRequestObjectIdById (id : Z) (s : Session) : bytes := default [] (snd <$> idMethodMap_ (runtimeClient_ s) !! id).

(** A property that cannot be read is a null pointer. *)
Definition read_variable (json : PtJson) : C (option PropertyDescriptor) :=
  match PropertyDescriptor_Create json with
  | Created d => m_ret (Some d)
  | Rejected _ => m_ret None
  | _ => crash
  end.
Fixpoint add_variables (node : option (list nat)) (items : PtJson) (i : Z) (n : nat) : C () :=
  match n with
  | O => m_ret ()
  | S n' =>
      d <-- read_variable (Get items i) ;;
      upd_tree (AddVariableInfo node d) ;;; add_variables node items (i + 1) n'
  end.

Definition show_properties (node : option (list nat)) (innerResult : PtJson) : C () :=
  add_variables node innerResult 0 (Z.to_nat (GetSize innerResult)) ;;;
  show [Txt [10]] ;;; PrintVariableInfo.

Definition HandleGetProperties (json : PtJson) (id : Z) : C () :=
  if negb (IsObject json) then m_ret ()
  else
    read (GetObject json "result") (m_ret ()) (λ result,
    read (GetArray result "result") (m_ret ()) (λ innerResult,
      s <-- ses ;;
      if isInitializeTree_ (runtimeClient_ s) then
        upd_tree (λ _, InitializeTree (GetScopeChainInfo s) 0) ;;;
        s <-- ses ;; show_properties (FindNodeWithCondition (variableInfo_ s)) innerResult
      else
        match StrToInt32 (GetRequestObjectIdById id s) with
        | None => m_ret ()
        | Some requestObjectId => show_properties (FindNodeWithObjectId requestObjectId (variableInfo_ s)) innerResult
        end)).

Definition HandleHeapUsage (json : PtJson) : C () :=
  if negb (IsObject json) then m_ret ()
  else
    read (GetObject json "result") (m_ret ()) (λ result,
      match GetHeapUsageReturns_Create result with
      | Created h => SetHeapUsageInfo h ;;; ShowHeapUsageInfo
      | _ => m_ret ()
      end).

Definition Runtime_RecvReply (json : PtJson) : C () :=
  if negb (IsObject json) then m_ret ()
  else
    read (GetInt json "id") (m_ret ()) (λ replyId,
      s <-- ses ;;
      if bool_decide (GetMethodById replyId s = str "getHeapUsage") then HandleHeapUsage json
      else if bool_decide (GetMethodById replyId s = str "getProperties") then HandleGetProperties json replyId
      else m_ret ()).

(** ** Profiler *)

Definition upd_profiler (f : ProfilerClient → ProfilerClient) : C () := upd (λ s, set_profiler (f (profilerClient_ s)) s).
Definition note_event (name : string) (id : Z) : C () :=
  upd_profiler (λ p, mkProfilerClient (interval_ p)
    (match pc_idEventMap_ p !! id with Some _ => pc_idEventMap_ p | None => <[id := str name]> (pc_idEventMap_ p) end) (cpulist_ p) (address_ p)).
Definition profiler_request (method name : string) (params : PtJson) : C () :=
  SendRequest "Profiler" method (note_event name) params (m_ret ()).

Definition CpuprofileEnableCommand : C () := profiler_request "Profiler.enable" "cpuprofileenable" CreateObject.
Definition CpuprofileDisableCommand : C () := profiler_request "Profiler.disable" "cpuprofiledisable" CreateObject.
Definition CpuprofileCommand : C () := profiler_request "Profiler.start" "cpuprofile" CreateObject.
Definition CpuprofileStopCommand : C () := profiler_request "Profiler.stop" "cpuprofilestop" CreateObject.
Definition SetSamplingIntervalCommand : C () :=
  s <-- ses ;;
  profiler_request "Profiler.setSamplingInterval" "setsamplinginterval" (CreateObject ▷ addI "interval" (interval_ (profilerClient_ s))).

Definition profiler_commands : list (string * C ()) :=
  [("cpuprofile", CpuprofileCommand); ("cpuprofile-stop", CpuprofileStopCommand);
   ("cpuprofile-setSamplingInterval", SetSamplingIntervalCommand); ("cpuprofile-enable", CpuprofileEnableCommand);
   ("cpuprofile-disable", CpuprofileDisableCommand)]%string.
Definition Profiler_DispatcherCmd : bytes → C bool := run_command profiler_commands.

Definition SetSamplingInterval (interval : Z) : C () :=
  upd_profiler (λ p, mkProfilerClient interval (pc_idEventMap_ p) (cpulist_ p) (address_ p)).
Definition SetAddress (address : bytes) : C () :=
  upd_profiler (λ p, mkProfilerClient (interval_ p) (pc_idEventMap_ p) (cpulist_ p) address).
Definition AddCpuName (data : bytes) : C () :=
  upd_profiler (λ p, mkProfilerClient (interval_ p) (pc_idEventMap_ p) (cpulist_ p ++ [data]) (address_ p)).
Definition ShowCpuFile : C () := s <-- ses ;; show (concat ((λ f, line [f]) <$> cpulist_ (profilerClient_ s))).

Definition WriteCpuProfileForFile (fileName data : bytes) : C bool :=
  if negb (writable_file fileName) then m_ret false
  else write_file fileName data false ;;; SetAddress (str "/data/") ;;; m_ret true.

Definition file_name (kind : string) (s : Session) (t : bytes * bytes) (suffix : string) : bytes :=
  str kind ++ to_string (s_id s) ++ str "-" ++ t.1 ++ str "T" ++ t.2 ++ str suffix.

Definition RecvProfilerResult (json : PtJson) : C () :=
  if negb (IsObject json) then m_ret ()
  else
    read (GetObject json "result") (m_ret ()) (λ result,
    read (GetObject result "profile") (m_ret ()) (λ profile,
      t <-- GetCurrentTime ;;
      match t with
      | None => m_ret ()
      | Some t =>
          s <-- ses ;;
          let fileName := file_name "CPU-" s t ".cpuprofile" in
          let cpufile := address_ (profilerClient_ s) ++ fileName in
          say [str "session "; to_string (s_id s); str " cpuprofile file name is "; cpufile] ;;;
          show [Txt (str ">>> ")] ;;;
          _ <-- WriteCpuProfileForFile cpufile (Stringify profile) ;; AddCpuName fileName
      end)).

(** ** Heap profiler *)

Definition upd_heap (f : HeapProfilerClient → HeapProfilerClient) : C () := upd (λ s, set_heap (f (heapProfilerClient_ s)) s).
Definition note_heap (e : HeapProfilerEvent) (id : Z) : C () :=
  upd_heap (λ h, mkHeapClient (hc_fileName_ h)
    (match hc_idEventMap_ h !! id with Some _ => hc_idEventMap_ h | None => <[id := e]> (hc_idEventMap_ h) end) (hc_path_ h) (isAllocationMsg_ h)).
Definition heap_request (method : string) (e : HeapProfilerEvent) (params : PtJson) : C () :=
  SendRequest "HeapProfiler" method (note_heap e) params (m_ret ()).

Definition SAMPLING_INTERVAL : Z := 16384.
Definition HeapDumpCommand : C () :=
  heap_request "HeapProfiler.takeHeapSnapshot" HEAPDUMP
    (CreateObject ▷ addB "reportProgress" true ▷ addB "captureNumericValue" true ▷ addB "exposeInternals" false).
Definition AllocationTrackCommand : C () :=
  heap_request "HeapProfiler.startTrackingHeapObjects" ALLOCATION (CreateObject ▷ addB "trackAllocations" true).
Definition AllocationTrackStopCommand : C () :=
  heap_request "HeapProfiler.stopTrackingHeapObjects" ALLOCATION_STOP (CreateObject ▷ addB "reportProgress" true).
Definition HeapEnable : C () := heap_request "HeapProfiler.enable" HP_EV_ENABLE CreateObject.
Definition HeapDisable : C () := heap_request "HeapProfiler.disable" HP_EV_DISABLE CreateObject.
Definition Samping : C () :=
  heap_request "HeapProfiler.startSampling" SAMPLING (CreateObject ▷ addI "samplingInterval" SAMPLING_INTERVAL).
Definition SampingStop : C () := heap_request "HeapProfiler.stopSampling" SAMPLING_STOP CreateObject.
Definition CollectGarbage : C () := heap_request "HeapProfiler.collectGarbage" COLLECT_GARBAGE CreateObject.

Definition heap_commands : list (string * C ()) :=
  [("allocationtrack", AllocationTrackCommand); ("allocationtrack-stop", AllocationTrackStopCommand);
   ("heapdump", HeapDumpCommand); ("heapprofiler-enable", HeapEnable); ("heapprofiler-disable", HeapDisable);
   ("sampling", Samping); ("sampling-stop", SampingStop); ("collectgarbage", CollectGarbage)]%string.
Definition Heap_DispatcherCmd (cmd arg : bytes) : C bool :=
  upd_heap (λ h, mkHeapClient (hc_fileName_ h) (hc_idEventMap_ h) arg (isAllocationMsg_ h)) ;;;
  run_command heap_commands cmd.

Definition set_allocation (v : bool) (h : HeapProfilerClient) : HeapProfilerClient :=
  mkHeapClient (hc_fileName_ h) (hc_idEventMap_ h) (hc_path_ h) v.
Definition set_file (v : bytes) (h : HeapProfilerClient) : HeapProfilerClient :=
  mkHeapClient v (hc_idEventMap_ h) (hc_path_ h) (isAllocationMsg_ h).

Definition WriteHeapProfilerForFile (fileName data : bytes) : C bool :=
  if negb (writable_file fileName) then m_ret false else write_file fileName data true ;;; m_ret true.

(** A new file, named after the clock. *)
Definition new_heap_file (what suffix : string) (k : C ()) : C () :=
  t <-- GetCurrentTime ;;
  match t with
  | None => m_ret ()
  | Some t =>
      s <-- ses ;;
      let fileName := hc_path_ (heapProfilerClient_ s) ++ file_name "Heap-" s t suffix in
      upd_heap (set_file fileName) ;;; say [str what; str " file name is "; fileName] ;;; show [Txt (str ">>> ")] ;;; k
  end.

Definition snapshot_head : bytes := [123; 34] ++ str "snapshot" ++ [34; 58; 10].
Definition snapshot_tail : bytes := str "]" ++ [10] ++ str "}" ++ [10].

(** [strncmp] of a text and the texts above, which have no NUL. *)
Definition starts_with (head text : bytes) : bool := bool_decide (take (length head) (c_str text) = head).

Definition save_chunk (chunk : bytes) : C () :=
  if Z.of_nat (length chunk) <? Z.of_nat (length snapshot_tail) then crash
  else
    let subStr := drop (length chunk - length snapshot_tail) chunk in
    (if starts_with snapshot_tail subStr then upd_heap (set_allocation false) else m_ret ()) ;;;
    s <-- ses ;;
    _ <-- WriteHeapProfilerForFile (hc_fileName_ (heapProfilerClient_ s)) chunk ;; m_ret ().

Definition SaveHeapSnapshotAndAllocationTrackData (chunk : bytes) : C () :=
  s <-- ses ;;
  if starts_with snapshot_head chunk then
    if isAllocationMsg_ (heapProfilerClient_ s) then new_heap_file "heaptimeline" ".heaptimeline" (save_chunk chunk)
    else new_heap_file "heapsnapshot" ".heapsnapshot" (save_chunk chunk)
  else save_chunk chunk.

Definition SaveHeapsamplingData (result : PtJson) : C () :=
  read (GetObject result "profile") (m_ret ()) (λ profile,
    new_heap_file "heapprofile" ".heapprofile"
      (s <-- ses ;; _ <-- WriteHeapProfilerForFile (hc_fileName_ (heapProfilerClient_ s)) (Stringify profile) ;; m_ret ())).

(** A dot that is neither the first nor the last character. *)
Definition dotted (wholeMethod : bytes) : option nat :=
  match find_dot wholeMethod with
  | Some i => if (i =? 0)%nat || (i =? length wholeMethod - 1)%nat then None else Some i
  | None => None
  end.

Definition Heap_RecvReply (json : PtJson) : C () :=
  if negb (IsObject json) then m_ret ()
  else
    match GetObject json "result" with
    | SUCCESS result => SaveHeapsamplingData result
    | _ =>
        read (GetString json "method") (m_ret ()) (λ wholeMethod,
          match dotted wholeMethod with
          | None => m_ret ()
          | Some i =>
              (if bool_decide (drop (S i) wholeMethod = str "lastSeenObjectId") then upd_heap (set_allocation true) else m_ret ()) ;;;
              read (GetObject json "params") (m_ret ()) (λ params,
              read (GetString params "chunk") (m_ret ()) SaveHeapSnapshotAndAllocationTrackData)
          end)
    end.

(** ** Tests *)

Definition test_request (method : string) : C () := SendRequest "Test" method (λ _, m_ret ()) CreateObject (m_ret ()).
Definition SuccessCommand : C () := test_request "Test.success".
Definition FailCommand : C () := test_request "Test.fail".
Definition Test_DispatcherCmd : bytes → C bool :=
  run_command [("success", SuccessCommand); ("fail", FailCommand)]%string.

(** ** Replies and events

    A reply goes to the client whose request has its number, an event to the one
    that its method names. *)
Definition route (domain : bytes) (json : PtJson) : C () :=
  if bool_decide (domain = str "HeapProfiler") then Heap_RecvReply json
  else if bool_decide (domain = str "Profiler") then RecvProfilerResult json
  else if bool_decide (domain = str "Runtime") then Runtime_RecvReply json
  else if bool_decide (domain = str "Debugger") then Debugger_RecvReply json
  else m_ret ().

(** [None] for a method that is not of the form "domain.name". *)
Definition reply_domain (json : PtJson) (pending : bytes) : option bytes :=
  match GetString json "method" with
  | SUCCESS wholeMethod => (λ i, take i wholeMethod) <$> dotted wholeMethod
  | _ => Some pending
  end.

Definition DispatcherReply (msg : bytes) : C () :=
  let json := Parse (c_str msg) in
  if negb (IsObject json) then m_ret ()
  else
    pending <-- match GetInt json "id" with
                | SUCCESS id => d <-- GetDomainById (wrap 32 id) ;; RemoveDomainById (wrap 32 id) ;;; m_ret d
                | _ => m_ret []
                end ;;
    match reply_domain json pending with
    | None => m_ret ()
    | Some domain => route domain json
    end.

End domains.
