(* ===== verification/ClientSessions.v ===== *)
(** * Sessions of the command line client

    src/tooling/dynamic/client/session and manager/message_manager.h: the table of
    the sessions, how a session is connected, added, removed and selected, and the
    queue in which the threads that read the sockets leave their messages. *)

From S2P Require Import Prelude Regex Http CppLib Utils PtJson PtCodec PtTypes PtReturns ClientState.
Local Open Scope Z_scope.
Local Open Scope ark_scope.

Definition MAX_SESSION_NUM : Z := 8.

Section sessions.
Context `{ClientSocket}.

(** [SessionManager], [MessageManager], and the texts of the server through which
    the client can be driven (tcpServer). A pointer to no session is [None]. *)
Record Client := mkClient {
  sessions_ : list (option Session);
  currentSessionId_ : Z;
  messageQue_ : list (Z * bytes);
  isServerActive : bool;
  g_inputStr : bytes;
  (** What was written to the connection of that server. *)
  tcp_out : list bytes;
  c_io : ClientIO }.

Definition new_Client (io : ClientIO) : Client :=
  mkClient (replicate (Z.to_nat MAX_SESSION_NUM) None) 0 [] false [] [] io.

Definition set_sessions (v : list (option Session)) (c : Client) : Client :=
  mkClient v (currentSessionId_ c) (messageQue_ c) (isServerActive c) (g_inputStr c) (tcp_out c) (c_io c).
Definition set_current (v : Z) (c : Client) : Client :=
  mkClient (sessions_ c) v (messageQue_ c) (isServerActive c) (g_inputStr c) (tcp_out c) (c_io c).
Definition set_queue (v : list (Z * bytes)) (c : Client) : Client :=
  mkClient (sessions_ c) (currentSessionId_ c) v (isServerActive c) (g_inputStr c) (tcp_out c) (c_io c).
Definition set_input (v : bytes) (c : Client) : Client :=
  mkClient (sessions_ c) (currentSessionId_ c) (messageQue_ c) (isServerActive c) v (tcp_out c) (c_io c).
Definition set_tcp_out (v : list bytes) (c : Client) : Client :=
  mkClient (sessions_ c) (currentSessionId_ c) (messageQue_ c) (isServerActive c) (g_inputStr c) v (c_io c).
Definition set_io (v : ClientIO) (c : Client) : Client :=
  mkClient (sessions_ c) (currentSessionId_ c) (messageQue_ c) (isServerActive c) (g_inputStr c) (tcp_out c) v.

(** Operations on the whole client. *)
Definition K (A : Type) : Type := M Client A.
Definition all : K Client := λ c, Ret c c.
Definition updK (f : Client → Client) : K () := λ c, Ret () (f c).
Definition showK (l : list shown) : K () :=
  updK (λ c, set_io (mkIO (console (c_io c) ++ l) (written (c_io c)) (clock (c_io c))) c).
Definition sayK (l : list bytes) : K () := showK (Txt <$> l ++ [[10]]).
Definition crashK {A} : K A := λ c, Throw c.

(** ** The table *)

Definition GetSessionById (sessionId : Z) (c : Client) : option Session :=
  if (sessionId <? 0) || (MAX_SESSION_NUM <=? sessionId) then None else mjoin (sessions_ c !! Z.to_nat sessionId).
Definition GetCurrentSessionId : K Z := c <-- all ;; m_ret (currentSessionId_ c).
Definition GetCurrentSession (c : Client) : option Session := GetSessionById (currentSessionId_ c) c.
Definition put_session (sessionId : Z) (v : option Session) : K () :=
  updK (λ c, set_sessions (<[Z.to_nat sessionId := v]> (sessions_ c)) c).

(** An operation of a session; [missing] when there is none. *)
Definition in_session {A} (sessionId : Z) (missing : K A) (m : C A) : K A := λ c,
  match GetSessionById sessionId c with
  | None => missing c
  | Some s =>
      let back w := set_io w.2 (set_sessions (<[Z.to_nat sessionId := Some w.1]> (sessions_ c)) c) in
      match m (s, c_io c) with
      | Ret a w => Ret a (back w)
      | Block w => Block (back w)
      | Throw w => Throw (back w)
      end
  end.

(** ** A session and its connection *)

(** A step of the connection. *)
Definition on_socket (f : socket → bool * socket) (s : Session) : bool * Session :=
  let '(ok, sk) := f (cliSocket_ s) in (ok, set_link sk (sent_ s) s).

Definition open_socket (s : Session) : bool * Session :=
  let '(isPort, port) := StrToUInt (c_str (sockInfo_ s)) in
  if isPort then
    if (port <=? 0) || (65535 <=? port) then (false, s) else on_socket (InitToolchainWebSocketForPort port 5) s
  else on_socket (InitToolchainWebSocketForSockName (sockInfo_ s)) s.

(** [CreateSocket]: 0 or -1. *)
Definition CreateSocket (s : Session) : Z * Session :=
  let '(ok, s) := open_socket s in
  if negb ok then (-1, s)
  else
    let '(ok, s) := on_socket ClientSendWSUpgradeReq s in
    if negb ok then (-1, s)
    else
      let '(ok, s) := on_socket ClientRecvWSUpgradeRsp s in
      if negb ok then (-1, s) else (0, s).

(** [Start] leaves the reading of the socket to a thread of its own. *)
Definition Start (s : Session) : Z * Session :=
  let '(r, s) := CreateSocket s in if r =? 0 then (0, s) else (-1, s).
Definition Stop (s : Session) : Session := set_link (Close (cliSocket_ s)) (sent_ s) s.

Definition CreateSessionById (sessionId : Z) (sockInfo : bytes) : K Z :=
  let '(r, s) := Start (new_Session sessionId sockInfo) in
  if r =? 0 then put_session sessionId (Some s) ;;; m_ret 0 else put_session sessionId None ;;; m_ret (-1).

(** The first empty place, [MAX_SESSION_NUM] for none; [None] when the name of a
    socket is in use. *)
Fixpoint free_slot (sockInfo : bytes) (i sessionId : Z) (l : list (option Session)) : option Z :=
  match l with
  | [] => Some sessionId
  | None :: l' => free_slot sockInfo (i + 1) (if sessionId =? MAX_SESSION_NUM then i else sessionId) l'
  | Some s :: l' => if bool_decide (sockInfo_ s = sockInfo) then None else free_slot sockInfo (i + 1) sessionId l'
  end.
Definition CreateNewSession (sockInfo : bytes) : K Z :=
  c <-- all ;;
  match free_slot sockInfo 0 MAX_SESSION_NUM (sessions_ c) with
  | None => m_ret (-1)
  | Some sessionId => if sessionId <? MAX_SESSION_NUM then CreateSessionById sessionId sockInfo else m_ret (-1)
  end.
Definition CreateDefaultSession (sockInfo : bytes) : K Z := CreateSessionById 0 sockInfo.
Definition CreateTestSession (sockInfo : bytes) : K Z :=
  let '(r, s) := CreateSocket (new_Session 0 sockInfo) in
  if r =? 0 then put_session 0 (Some s) ;;; m_ret 0 else put_session 0 None ;;; m_ret (-1).

Definition DelSessionById (sessionId : Z) : K Z :=
  c <-- all ;;
  match GetSessionById sessionId c with
  | None => m_ret (-1)
  | Some s =>
      put_session sessionId (Some (Stop s)) ;;; put_session sessionId None ;;;
      (if sessionId =? currentSessionId_ c then updK (set_current 0) ;;; sayK [str "session switch to 0"] else m_ret ()) ;;;
      m_ret 0
  end.

Definition SessionSwitch (sessionId : Z) : K Z :=
  c <-- all ;;
  match GetSessionById sessionId c with
  | None => m_ret (-1)
  | Some _ => updK (set_current sessionId) ;;; m_ret 0
  end.

(** A text, filled up with spaces on its right. *)
Definition pad_right (width : nat) (t : bytes) : bytes := t ++ replicate (width - length t) 32.
Definition SessionList : K () :=
  c <-- all ;;
  showK (concat (imap (λ i o,
    match o with
    | None => []
    | Some s =>
        Txt <$> [if Z.of_nat i =? currentSessionId_ c then str "* " else str "  "; to_string (Z.of_nat i); str ": ";
                 pad_right 32 (sockInfo_ s); GetSocketStateString (cliSocket_ s); [10]]
    end) (sessions_ c))).

(** The command is run in one session after the other, each time with the table
    as it is then. *)
Fixpoint for_sessions (callback : Z → K ()) (sessionId : Z) (n : nat) : K () :=
  match n with
  | O => m_ret ()
  | S n' =>
      c <-- all ;;
      (match GetSessionById sessionId c with
       | None => m_ret ()
       | Some _ => sayK [str "Executing command in session "; to_string sessionId; str ":"] ;;; callback sessionId
       end) ;;;
      for_sessions callback (sessionId + 1) n'
  end.
Definition CmdForAllSessions (callback : Z → K ()) : K () := for_sessions callback 0 (Z.to_nat MAX_SESSION_NUM).

(** ** Messages *)

(** A round of [SocketMessageLoop] with the message that was decoded. *)
Definition MessagePush (sessionId : Z) (message : bytes) : K () :=
  updK (λ c, set_queue (messageQue_ c ++ [(sessionId, message)]) c).
Definition SocketMessageLoop (sessionId : Z) (decMessage : bytes) : K () :=
  if bool_decide (decMessage = []) then m_ret () else MessagePush sessionId decMessage.
Definition MessagePop : K (option (Z * bytes)) :=
  c <-- all ;;
  match messageQue_ c with
  | [] => m_ret None
  | e :: q => updK (set_queue q) ;;; m_ret (Some e)
  end.

End sessions.
