(* ===== verification/ClientCommands.v ===== *)
(** * Commands of the command line client

    src/tooling/dynamic/client/utils/cli_command.cpp: a line of input is cut into
    words; the first names a command by its long or its short name, the others are
    its arguments. A command checks them, changes the state of a session or sends a
    request, and reports what it did on the console. *)

From S2P Require Import Prelude Regex Http CppLib Utils PtJson PtCodec PtTypes PtReturns Dispatcher.
From S2P Require Import ClientState ClientManagers ClientDomains ClientSessions.
Local Open Scope Z_scope.
Local Open Scope ark_scope.

Inductive ErrCode := ERR_OK | ERR_FAIL.
#[export] Instance ErrCode_eq_dec : EqDecision ErrCode.
Proof. solve_decision. Defined.

Definition HELP_MSG : bytes :=
  concat ((λ l, str l ++ [10]) <$>
    ["usage: <command> <options>";
     " These are common commands list:";
     "  allocationtrack(at)                           allocation-track-start with options";
     "  allocationtrack-stop(at-stop)                 allocation-track-stop";
     "  heapdump(hd)                                  heapdump with options";
     "  heapprofiler-enable(hp-enable)                heapdump enable";
     "  heapprofiler-disable(hp-disable)              heapdump disable";
     "  sampling(sampling)                            heapprofiler sampling";
     "  sampling-stop(sampling-stop)                  heapprofiler sampling stop";
     "  collectgarbage(gc)                            heapprofiler collectgarbage";
     "  cpuprofile(cp)                                cpuprofile start";
     "  cpuprofile-stop(cp-stop)                      cpuprofile stop";
     "  cpuprofile-enable(cp-enable)                  cpuprofile enable";
     "  cpuprofile-disable(cp-disable)                cpuprofile disable";
     "  cpuprofile-show(cp-show)                      cpuprofile show";
     "  cpuprofile-setSamplingInterval(cp-ssi)        cpuprofile setSamplingInterval";
     "  runtime-enable(rt-enable)                     runtime enable";
     "  heapusage(hu)                                 runtime getHeapUsage";
     "  break(b)                                      break with options";
     "  setSymbolicBreakpoints                        setSymbolicBreakpoints";
     "  removeSymbolicBreakpoints                     removeSymbolicBreakpoints";
     "  removeBreakpointsByUrl                        removeBreakpointsByUrl";
     "  backtrack(bt)                                 backtrace";
     "  continue(c)                                   continue";
     "  delete(d)                                     delete with options";
     "  disable                                       disable";
     "  display                                       display";
     "  enable                                        debugger enable";
     "  finish(fin)                                   finish";
     "  frame(f)                                      frame";
     "  help(h)                                       list available commands";
     "  ignore(ig)                                    ignore";
     "  infobreakpoints(infob)                        info-breakpoints";
     "  infosource(infos)                             info-source";
     "  jump(j)                                       jump";
     "  list(l)                                       list";
     "  next(n)                                       next";
     "  print(p)                                      print with options";
     "  ptype                                         ptype";
     "  quit(q)                                       quit";
     "  run(r)                                        run";
     "  setvar(sv)                                    set value with options";
     "  step(s)                                       step";
     "  undisplay                                     undisplay";
     "  watch(wa)                                     watch";
     "  resume                                        resume";
     "  showstack(ss)                                 showstack";
     "  step-into(si)                                 step-into";
     "  step-out(so)                                  step-out";
     "  step-over(sov)                                step-over";
     "  runtime-disable                               rt-disable";
     "  setAsyncStackDepth                            setAsyncStackDepth";
     "  session-new                                   add new session";
     "  session-remove                                del a session";
     "  session-list                                  list all sessions";
     "  session                                       switch session";
     "  forall                                        command for all sessions";
     "  success                                       test success";
     "  fail                                          test fail"]%string).

Definition cmdList : list string :=
  ["allocationtrack"; "allocationtrack-stop"; "heapdump"; "heapprofiler-enable"; "heapprofiler-disable"; "sampling";
   "sampling-stop"; "collectgarbage"; "cpuprofile"; "cpuprofile-stop"; "cpuprofile-enable"; "cpuprofile-disable";
   "cpuprofile-show"; "cpuprofile-setSamplingInterval"; "runtime-enable"; "heapusage"; "break";
   "setSymbolicBreakpoints"; "removeSymbolicBreakpoints"; "removeBreakpointsByUrl"; "backtrack"; "continue";
   "delete"; "disable"; "display"; "enable"; "finish"; "frame"; "help"; "ignore"; "infobreakpoints"; "infosource";
   "jump"; "list"; "next"; "print"; "ptype"; "run"; "setvar"; "step"; "undisplay"; "watch"; "resume"; "step-into";
   "step-out"; "step-over"; "runtime-disable"; "setAsyncStackDepth"; "session-new"; "session-remove"; "session-list";
   "session"; "success"; "fail"]%string.

Section commands.
Context `{cj : CJson} `{CastOob} `{SignedOverflow} `{ClientSocket} `{ClientEnv}.

(** ** Output *)

Definition command_text (cmd : string) (flag : bool) : list bytes :=
  if flag then [str "exe success, cmd is "; str cmd] else [str cmd; str " parameters is incorrect"].
(** [OutputCommand], inside a session and outside. *)
Definition OutputCommand (cmd : string) (flag : bool) : C () := say (command_text cmd flag).
Definition OutputCommandK (cmd : string) (flag : bool) : K () := sayK (command_text cmd flag).
Definition incorrect (cmd : string) : C ErrCode := OutputCommand cmd false ;;; m_ret ERR_FAIL.
Definition incorrectK (cmd : string) : K ErrCode := OutputCommandK cmd false ;;; m_ret ERR_FAIL.
Definition failed (text : list bytes) : C ErrCode := say text ;;; m_ret ERR_FAIL.
Definition of_bool (result : bool) : ErrCode := if result then ERR_OK else ERR_FAIL.

(** The session of the command; without it the command fails. *)
Definition of_session (sid : Z) (m : C ErrCode) : K ErrCode := in_session sid (m_ret ERR_FAIL) m.
(** [std::stoi] of a text. *)
Definition with_stoi {A} (t : bytes) (k : Z → C A) : C A := match stoi t with Some v => k v | None => crash end.

(** The end of the commands of the debugger. *)
Definition finish_debugger (cmd : string) : C ErrCode :=
  result <-- Debugger_DispatcherCmd (str cmd) ;; OutputCommand cmd true ;;; m_ret (of_bool result).

(** ** Profilers *)

(** A folder: it can be opened, and begins and ends with the same character. The
    character in front of an empty text is not one of it. *)
Definition closed_path (path : bytes) : bool := bool_decide (head path = last path).
Definition bad_folder (path : bytes) : C ErrCode :=
  if negb (closed_path path) then
    say [str "The folder path format is incorrect :"; path] ;;; failed [str "Attention: Check for symbols /"]
  else failed [str "The folder path does not exist :"; path].

Definition HeapProfilerCommand (cmd : string) (sid : Z) (args : list bytes) : K ErrCode :=
  let dispatch path := result <-- Heap_DispatcherCmd (str cmd) path ;; m_ret (of_bool result) in
  of_session sid
    (match args with
     | [] => OutputCommand cmd true ;;; dispatch (str "/data/")
     | pathDump :: more =>
         if bool_decide (cmd = "allocationtrack"%string ∨ cmd = "sampling"%string)
         then failed [str "This command does not need to follow a suffix"]
         else if readable_file (c_str pathDump) && closed_path pathDump && bool_decide (more = [])
         then OutputCommand cmd true ;;; dispatch pathDump
         else if negb (bool_decide (more = [])) then failed [str "The folder path may contains spaces"]
         else bad_folder pathDump
     end).

Definition CpuProfileCommand (cmd : string) (sid : Z) (args : list bytes) : K ErrCode :=
  let dispatch := result <-- Profiler_DispatcherCmd (str cmd) ;; m_ret (of_bool result) in
  of_session sid
    (if bool_decide (cmd = "cpuprofile"%string) then
       if bool_decide (args = []) then OutputCommand cmd true ;;; dispatch
       else failed [str "This command does not need to follow a suffix"]
     else if bool_decide (cmd = "cpuprofile-show"%string) then OutputCommand cmd true ;;; ShowCpuFile ;;; m_ret ERR_OK
     else if bool_decide (cmd = "cpuprofile-setSamplingInterval"%string) then
       OutputCommand cmd true ;;;
       match args with [] => crash | interval :: _ => SetSamplingInterval (atoi interval) ;;; dispatch end
     else if bool_decide (cmd = "cpuprofile-stop"%string) then
       match args with
       | [pathCpuPro] =>
           SetAddress pathCpuPro ;;;
           if readable_file (c_str pathCpuPro) && closed_path pathCpuPro then OutputCommand cmd true ;;; dispatch
           else bad_folder pathCpuPro
       | _ => dispatch
       end
     else dispatch).

(** ** Debugger and runtime *)

Definition no_args (cmd : string) (args : list bytes) (k : K ErrCode) : K ErrCode :=
  if bool_decide (args = []) then k else incorrectK cmd.

Definition DebuggerCommand (cmd : string) (sid : Z) (args : list bytes) : K ErrCode :=
  no_args cmd args (of_session sid (finish_debugger cmd)).

(** The number of the object is used for one request. *)
Definition finish_runtime (cmd : string) : C ErrCode :=
  result <-- Runtime_DispatcherCmd (str cmd) ;;
  if (result : bool) then SetObjectId (str "0") ;;; OutputCommand cmd true ;;; m_ret ERR_OK else m_ret ERR_FAIL.
Definition RuntimeCommand (cmd : string) (sid : Z) (args : list bytes) : K ErrCode :=
  no_args cmd args (of_session sid (finish_runtime cmd)).

(** The comparison with the known breakpoints; a line of them that is no number,
    or a number that is too large, ends the client. *)
Fixpoint break_exists (url : bytes) (line : bytes) (l : list Breaklocation) (k : bool → C ErrCode) : C ErrCode :=
  match l with
  | [] => k false
  | b :: l' =>
      if bool_decide (bl_url b = url) then
        with_stoi (bl_lineNumber b) (λ known, with_stoi line (λ asked,
          if int32_add known 1 =? asked then k true else break_exists url line l' k))
      else break_exists url line l' k
  end.

Definition BreakCommand (cmd : string) (sid : Z) (args : list bytes) : K ErrCode :=
  of_session sid
    (match args with
     | [url; line] =>
         if negb (Utils.IsNumber line) then incorrect cmd
         else
           s <-- ses ;;
           break_exists url line (breaklist_ s) (λ known : bool,
             if known then failed [str "the breakpoint is exist"]
             else with_stoi line (λ n, AddBreakPointInfo url n 0 ;;; finish_debugger cmd))
     | _ => incorrect cmd
     end).
Definition SaveAllPossibleBreakpointsCommand : string → Z → list bytes → K ErrCode := BreakCommand.

(** One argument that is not a number. *)
Definition name_argument (cmd : string) (args : list bytes) (k : bytes → C ()) : C ErrCode :=
  match args with
  | [name] => if Utils.IsNumber name then incorrect cmd else k name ;;; finish_debugger cmd
  | _ => incorrect cmd
  end.
Definition SetSymbolicBreakpointsCommand (cmd : string) (sid : Z) (args : list bytes) : K ErrCode :=
  of_session sid (name_argument cmd args AddSymbolicBreakpointInfo).
Definition RemoveSymbolicBreakpointsCommand (cmd : string) (sid : Z) (args : list bytes) : K ErrCode :=
  of_session sid (name_argument cmd args AddSymbolicBreakpointInfo).
Definition RemoveBreakpointsByUrlCommand (cmd : string) (sid : Z) (args : list bytes) : K ErrCode :=
  of_session sid (name_argument cmd args AddUrl).

Definition DeleteCommand (cmd : string) (sid : Z) (args : list bytes) : K ErrCode :=
  of_session sid
    (match args with
     | [text] =>
         if negb (Utils.IsNumber text) then incorrect cmd
         else
           with_stoi text (λ tmpNum,
             let num := wrap 64 tmpNum in
             s <-- ses ;;
             match (if (num <=? Z.of_nat (length (breaklist_ s))) && (0 <? num) then breaklist_ s !! Z.to_nat (num - 1) else None) with
             | Some b => AddBreakPointInfo (bl_breakpointId b) 0 0 ;;; Deletebreaklist num ;;; finish_debugger cmd
             | None => failed [str "the breakpoint is not exist"]
             end)
     | _ => incorrect cmd
     end).

Definition done (cmd : string) (m : C ()) : C ErrCode := m ;;; OutputCommand cmd true ;;; m_ret ERR_OK.

Definition DisplayCommand (cmd : string) (sid : Z) (args : list bytes) : K ErrCode :=
  no_args cmd args (of_session sid (done cmd Breakpoints_Show)).

Definition InfosourceCommand (cmd : string) (sid : Z) (args : list bytes) : K ErrCode :=
  of_session sid
    (match args with
     | [] => done cmd GetFileName
     | [text] =>
         if negb (Utils.IsNumber text) then incorrect cmd
         else done cmd (with_stoi text (λ scriptId, _ <-- GetFileSource scriptId ;; m_ret ()))
     | _ => incorrect cmd
     end).

Definition ListCommand (cmd : string) (sid : Z) (args : list bytes) : K ErrCode :=
  of_session sid
    (s <-- ses ;;
     if negb (IsDebug_ (watchManager_ s)) then failed [str "Start debugging your code before using the list command"]
     else
       match args with
       | [] => done cmd (GetListSource [] [])
       | [startLine] => if Utils.IsNumber startLine then done cmd (GetListSource startLine []) else incorrect cmd
       | [startLine; endLine] =>
           if Utils.IsNumber startLine && Utils.IsNumber endLine then done cmd (GetListSource startLine endLine) else incorrect cmd
       | _ => incorrect cmd
       end).

Definition StepCommand (cmd : string) (sid : Z) (args : list bytes) : K ErrCode :=
  no_args cmd args (of_session sid (SetIsInitializeTree true ;;; finish_debugger cmd)).

Definition ShowstackCommand (cmd : string) (sid : Z) (args : list bytes) : K ErrCode :=
  no_args cmd args (of_session sid (done cmd ShowCallFrames)).

(** Without arguments, with the index of a variable, with the number of an object
    behind a word that is not looked at, or with an object and a range of it. *)
Definition print_arguments (args : list bytes) : option (C ()) :=
  match args with
  | [index] =>
      if Utils.IsNumber index then
        Some (SetIsInitializeTree false ;;;
              with_stoi index (λ i, s <-- ses ;; SetObjectId (to_string (FindObjectByIndex i (variableInfo_ s)))))
      else None
  | [_; object] =>
      if Utils.IsNumber object then Some (SetIsInitializeTree false ;;; with_stoi object (λ o, SetObjectId (to_string o))) else None
  | [object; start; count] =>
      if Utils.IsNumber object && Utils.IsNumber start && Utils.IsNumber count then
        Some (SetIsInitializeTree false ;;;
              with_stoi object (λ o, with_stoi start (λ st, with_stoi count (λ n,
                SetObjectId (to_string o) ;;; SetStartIndex st ;;; SetGroupCount n))))
      else None
  | _ => Some (m_ret ())
  end.
Definition PrintCommand (cmd : string) (sid : Z) (args : list bytes) : K ErrCode :=
  if (3 <? length args)%nat then incorrectK cmd
  else
    of_session sid
      (match print_arguments args with
       | None => m_ret ERR_FAIL
       | Some prepare => prepare ;;; finish_runtime cmd
       end).

Definition WatchCommand (cmd : string) (sid : Z) (args : list bytes) : K ErrCode :=
  match args with
  | [expression] =>
      of_session sid
        (AddWatchInfo expression ;;;
         s <-- ses ;;
         if IsDebug_ (watchManager_ s) then
           done cmd (SendRequestWatch (GetWatchInfoSize s - 1) (callFrameId_ (watchManager_ s)))
         else failed [str "Start debugging your code before using the watch command"])
  | _ => incorrectK cmd
  end.

(** ** Sessions *)

Definition failedK (text : list bytes) : K ErrCode := sayK text ;;; m_ret ERR_FAIL.

Definition SessionAddCommand (cmd : string) (sid : Z) (args : list bytes) : K ErrCode :=
  match args with
  | [sockInfo] =>
      r <-- CreateNewSession sockInfo ;;
      if r =? 0 then OutputCommandK cmd true ;;; m_ret ERR_OK else failedK [str "session add failed"]
  | _ => incorrectK cmd
  end.

(** The argument of the two commands below. *)
Definition session_argument (cmd : string) (args : list bytes) (k : Z → K ErrCode) : K ErrCode :=
  match args with
  | [text] =>
      if Utils.IsNumber text then
        let '(ok, sessionId) := StrToUInt (c_str text) in
        if ok then k sessionId else m_ret ERR_FAIL
      else incorrectK cmd
  | _ => incorrectK cmd
  end.

Definition SessionDelCommand (cmd : string) (sid : Z) (args : list bytes) : K ErrCode :=
  session_argument cmd args (λ sessionId,
    if sessionId =? 0 then sayK [str "cannot remove default session 0"] ;;; m_ret ERR_OK
    else
      r <-- DelSessionById sessionId ;;
      if r =? 0 then sayK [str "session remove success"] ;;; m_ret ERR_OK else failedK [str "sessionId is not exist"]).

Definition SessionListCommand (cmd : string) (sid : Z) (args : list bytes) : K ErrCode :=
  no_args cmd args (SessionList ;;; OutputCommandK cmd true ;;; m_ret ERR_OK).

Definition SessionSwitchCommand (cmd : string) (sid : Z) (args : list bytes) : K ErrCode :=
  session_argument cmd args (λ sessionId,
    r <-- SessionSwitch sessionId ;;
    if r =? 0 then OutputCommandK cmd true ;;; m_ret ERR_OK else failedK [str "sessionId is not exist"]).

Definition TestCommand (cmd : string) (sid : Z) (args : list bytes) : K ErrCode :=
  if bool_decide (cmd = "success"%string ∨ cmd = "fail"%string)
  then of_session sid (_ <-- Test_DispatcherCmd (str cmd) ;; m_ret ERR_OK)
  else m_ret ERR_FAIL.

Definition ExecHelpCommand : K ErrCode := showK [Txt HELP_MSG] ;;; m_ret ERR_OK.

(** ** Dispatch *)

Definition command_map : list ((string * string) * (Z → list bytes → K ErrCode)) :=
  [(("allocationtrack", "at"), HeapProfilerCommand "allocationtrack");
   (("allocationtrack-stop", "at-stop"), HeapProfilerCommand "allocationtrack-stop");
   (("heapdump", "hd"), HeapProfilerCommand "heapdump");
   (("heapprofiler-enable", "hp-enable"), HeapProfilerCommand "heapprofiler-enable");
   (("heapprofiler-disable", "hp-disable"), HeapProfilerCommand "heapprofiler-disable");
   (("sampling", "sampling"), HeapProfilerCommand "sampling");
   (("sampling-stop", "sampling-stop"), HeapProfilerCommand "sampling-stop");
   (("collectgarbage", "gc"), HeapProfilerCommand "collectgarbage");
   (("cpuprofile", "cp"), CpuProfileCommand "cpuprofile");
   (("cpuprofile-stop", "cp-stop"), CpuProfileCommand "cpuprofile-stop");
   (("cpuprofile-enable", "cp-enable"), CpuProfileCommand "cpuprofile-enable");
   (("cpuprofile-disable", "cp-disable"), CpuProfileCommand "cpuprofile-disable");
   (("cpuprofile-show", "cp-show"), CpuProfileCommand "cpuprofile-show");
   (("cpuprofile-setSamplingInterval", "cp-ssi"), CpuProfileCommand "cpuprofile-setSamplingInterval");
   (("runtime-enable", "rt-enable"), RuntimeCommand "runtime-enable");
   (("heapusage", "hu"), RuntimeCommand "heapusage"); (("break", "b"), BreakCommand "break");
   (("backtrack", "bt"), DebuggerCommand "backtrack"); (("continue", "c"), DebuggerCommand "continue");
   (("delete", "d"), DeleteCommand "delete"); (("disable", "disable"), DebuggerCommand "disable");
   (("display", "display"), DisplayCommand "display"); (("enable", "enable"), DebuggerCommand "enable");
   (("finish", "fin"), DebuggerCommand "finish"); (("frame", "f"), DebuggerCommand "frame");
   (("saveAllPossibleBreakpoints", "b-new"), SaveAllPossibleBreakpointsCommand "saveAllPossibleBreakpoints");
   (("setSymbolicBreakpoints", "setSymbolicBreakpoints"), SetSymbolicBreakpointsCommand "setSymbolicBreakpoints");
   (("removeSymbolicBreakpoints", "removeSymbolicBreakpoints"), RemoveSymbolicBreakpointsCommand "removeSymbolicBreakpoints");
   (("removeBreakpointsByUrl", "removeBreakpointsByUrl"), RemoveBreakpointsByUrlCommand "removeBreakpointsByUrl")]%string.
Definition debugger_command_map : list ((string * string) * (Z → list bytes → K ErrCode)) :=
  [(("enable-launch-accelerate", "enable-acc"), DebuggerCommand "enable-launch-accelerate");
   (("enable-simplified-mode", "enable-simplified"), DebuggerCommand "enable-simplified-mode")]%string.
Definition other_command_map : list ((string * string) * (Z → list bytes → K ErrCode)) :=
  [(("help", "h"), fun sid _ => ExecHelpCommand); (("ignore", "ig"), DebuggerCommand "ignore");
   (("infobreakpoints", "infob"), DebuggerCommand "infobreakpoints");
   (("infosource", "infos"), InfosourceCommand "infosource"); (("jump", "j"), DebuggerCommand "jump");
   (("list", "l"), ListCommand "list"); (("next", "n"), DebuggerCommand "next");
   (("print", "p"), PrintCommand "print"); (("ptype", "ptype"), DebuggerCommand "ptype");
   (("run", "r"), RuntimeCommand "run"); (("setvar", "sv"), DebuggerCommand "setvar");
   (("step", "s"), DebuggerCommand "step"); (("undisplay", "undisplay"), DebuggerCommand "undisplay");
   (("watch", "wa"), WatchCommand "watch"); (("resume", "resume"), DebuggerCommand "resume");
   (("showstack", "ss"), ShowstackCommand "showstack"); (("step-into", "si"), StepCommand "step-into");
   (("step-out", "so"), StepCommand "step-out"); (("step-over", "sov"), StepCommand "step-over");
   (("runtime-disable", "rt-disable"), RuntimeCommand "runtime-disable");
   (("setAsyncStackDepth", "setAsyncStackDepth"), DebuggerCommand "setAsyncStackDepth");
   (("session-new", "session-new"), SessionAddCommand "session-new");
   (("session-remove", "session-remove"), SessionDelCommand "session-remove");
   (("session-list", "session-list"), SessionListCommand "session-list");
   (("session", "session"), SessionSwitchCommand "session"); (("success", "success"), TestCommand "success");
   (("fail", "fail"), TestCommand "fail")]%string.
(** [CreateCommandMap]. *)
Definition commandMap_ : list ((string * string) * (Z → list bytes → K ErrCode)) :=
  command_map ++ debugger_command_map ++ other_command_map.

(** Whether a command has the name. *)
Definition names_command (cmd : bytes) (names : string * string) : bool :=
  bool_decide (str names.1 = c_str cmd ∨ str names.2 = c_str cmd).

(** The commands that begin with the text. *)
Definition completions (cmd : bytes) : list string :=
  filter (λ c, take (length (c_str cmd)) (str c) = c_str cmd) cmdList.

Definition OnCommand (cmd : bytes) (sid : Z) (args : list bytes) : K ErrCode :=
  match list_find (λ e, names_command cmd e.1) commandMap_ with
  | Some (_, e) => e.2 sid args
  | None =>
      (if bool_decide (completions cmd = []) then _ <-- ExecHelpCommand ;; m_ret ()
       else showK (concat ((λ c, [Txt (str c); Txt (str " ")]) <$> completions cmd) ++ [Txt [10]])) ;;;
      m_ret ERR_FAIL
  end.

(** [CliCommand] of the words of a line, and [ExecCommand]. *)
Definition ExecCommand (cliCmdStr : list bytes) (sid : Z) : K ErrCode :=
  match cliCmdStr with
  | [] => crashK
  | cmd :: args => OnCommand cmd sid args
  end.

End commands.
