(* ===== verification/ClientMain.v ===== *)
(** * The loop of the command line client

    src/tooling/dynamic/client/ark_cli/main.cpp and tcpServer/tcp_server.cpp: the
    thread that reads the keyboard, or the connection to a test driver, hands a
    line to the loop, the threads that read the sockets fill the queue, and the
    loop runs commands and replies one after the other. *)

From S2P Require Import Prelude Regex Http CppLib Utils PtJson PtCodec PtTypes PtReturns Dispatcher.
From S2P Require Import ClientState ClientManagers ClientDomains ClientSessions ClientCommands.
Local Open Scope Z_scope.
Local Open Scope ark_scope.

(** ** The server of the test driver *)

Definition g_allCmds : list string :=
  ["allocationtrack"; "at"; "allocationtrack-stop"; "at-stop"; "heapdump"; "hd"; "heapprofiler-enable"; "hp-enable";
   "heapprofiler-disable"; "hp-disable"; "sampling"; "sampling"; "sampling-stop"; "sampling-stop"; "collectgarbage";
   "gc"; "cpuprofile"; "cp"; "cpuprofile-stop"; "cp-stop"; "cpuprofile-enable"; "cp-enable"; "cpuprofile-disable";
   "cp-disable"; "cpuprofile-show"; "cp-show"; "cpuprofile-setSamplingInterval"; "cp-ssi"; "runtime-enable";
   "rt-enable"; "heapusage"; "hu"; "break"; "b"; "backtrack"; "bt"; "continue"; "c"; "delete"; "d"; "disable";
   "disable"; "display"; "display"; "enable"; "enable"; "finish"; "fin"; "frame"; "f"; "help"; "h"; "ignore"; "ig";
   "infobreakpoints"; "infob"; "infosource"; "infos"; "jump"; "j"; "list"; "l"; "next"; "n"; "print"; "p"; "ptype";
   "ptype"; "run"; "r"; "setvar"; "sv"; "step"; "s"; "undisplay"; "undisplay"; "watch"; "wa"; "resume"; "resume";
   "showstack"; "ss"; "step-into"; "si"; "step-out"; "so"; "step-over"; "sov"; "runtime-disable"; "rt-disable"]%string.
Definition g_noRecvCmds : list string :=
  ["cpuprofile-enable"; "cp-enable"; "cpuprofile-disable"; "cp-disable"; "cpuprofile-stop"; "cp-stop"]%string.
Definition g_inputOnMessages : list string :=
  ["b"; "break"; "bt"; "backtrack"; "d"; "delete"; "display"; "fin"; "finish"; "f"; "frame"; "h"; "help"; "ig";
   "ignore"; "infob"; "infobreakpoints"; "infos"; "infosource"; "j"; "jump"; "l"; "list"; "n"; "next"; "ptype"; "s";
   "step"; "ss"; "showstack"; "watch"; "wa"]%string.

Definition FindCommand (cmds : list string) (cmd : bytes) : bool := existsb (λ c, bool_decide (str c = cmd)) cmds.

Section main.
Context `{cj : CJson} `{CastOob} `{SignedOverflow} `{ClientSocket} `{ClientEnv}.

(** The command is written back when it has been carried out. *)
Definition write_back (text : bytes) : K () := updK (λ c, set_input [] (set_tcp_out (tcp_out c ++ [c_str text]) c)).

Definition TcpServerWrite (msg : string) : K () :=
  c <-- all ;;
  if bool_decide (g_inputStr c = []) then m_ret ()
  else
    match SplitString (g_inputStr c) (str " ") with
    | [] => crashK
    | cmd :: _ =>
        if negb (FindCommand g_allCmds cmd) then write_back (str "error cmd")
        else if bool_decide (msg = "inner"%string) then
          if FindCommand g_noRecvCmds cmd then write_back (g_inputStr c) else m_ret ()
        else if bool_decide (msg = "InputOnMessage"%string) then
          if FindCommand g_inputOnMessages cmd then write_back (g_inputStr c) else m_ret ()
        else if bool_decide (msg = "SocketOnMessage"%string) then
          if FindCommand g_inputOnMessages cmd then m_ret () else write_back (g_inputStr c)
        else m_ret ()
    end.

(** ** Input *)

(** [erase(0, find_first_not_of(" "))]. *)
Fixpoint skip_spaces (s : bytes) : bytes :=
  match s with
  | c :: s' => if c =? 32 then skip_spaces s' else s
  | [] => []
  end.

(** What a line of the keyboard becomes. *)
Inductive line_read := LineEmpty | LineQuit | LineCommand (msg : bytes).
Definition GetInputCommand (inputStr : bytes) : line_read :=
  let inputStr := skip_spaces inputStr in
  if bool_decide (inputStr = []) then LineEmpty
  else if bool_decide (c_str inputStr = str "quit" ∨ c_str inputStr = str "q") then LineQuit
  else LineCommand (c_str inputStr).

(** What the driver's text becomes: the line for the loop. *)
Definition SendCommand (inputStr : bytes) : option bytes :=
  let inputStr := skip_spaces inputStr in
  if bool_decide (inputStr = []) then None else Some (c_str inputStr).

(** A round of [StartTcpServer] with the bytes that were read, and the line that
    it hands to the loop. *)
Definition StartTcpServer (recvBuf : bytes) : K (option bytes) :=
  updK (set_input (c_str recvBuf)) ;;;
  (match SendCommand (c_str recvBuf) with None => sayK [str "cmd is empty"] | Some _ => m_ret () end) ;;;
  TcpServerWrite "inner" ;;; m_ret (SendCommand (c_str recvBuf)).

(** ** The loop *)

Definition InputMessageInSession (sessionId : Z) (cliCmdStr : list bytes) : K () :=
  _ <-- ExecCommand cliCmdStr sessionId ;; m_ret ().

(** [strstr]. *)
Definition contains (text part : bytes) : bool := bool_decide (is_Some (find (c_str text) part 0)).

(** The command alone, or in all sessions. *)
Definition run_line (cliCmdStr : list bytes) : K () :=
  match cliCmdStr with
  | [] => m_ret ()
  | cmd :: rest =>
      if bool_decide (cmd = str "forall") then
        match rest with
        | c :: _ => if contains c (str "session") then sayK [str "command "; c; str " not support forall"]
                    else CmdForAllSessions (λ sessionId, InputMessageInSession sessionId rest)
        | [] => CmdForAllSessions (λ sessionId, InputMessageInSession sessionId rest)
        end
      else sessionId <-- GetCurrentSessionId ;; InputMessageInSession sessionId cliCmdStr
  end.

Definition InputOnMessage (msg : bytes) : K () :=
  let cliCmdStr := SplitString msg (str " ") in
  if bool_decide (cliCmdStr = []) then m_ret ()
  else
    run_line cliCmdStr ;;;
    c <-- all ;;
    if isServerActive c then TcpServerWrite "InputOnMessage" else showK [Txt (str ">>> ")].

(** [ProcSocketMsg]. A message of a session that is gone is dropped. *)
Definition ProcSocketMsg (sessionId : Z) (message : bytes) : K () :=
  in_session sessionId (m_ret ()) (DispatcherReply (c_str message)).

(** The rounds of the loop over the queue: handling a message adds none. *)
Fixpoint process_queue (n : nat) : K () :=
  match n with
  | O => m_ret ()
  | S n' =>
      e <-- MessagePop ;;
      match e with
      | None => m_ret ()
      | Some (sessionId, message) => ProcSocketMsg sessionId message ;;; process_queue n'
      end
  end.
Definition SocketOnMessage : K () :=
  c <-- all ;;
  process_queue (S (length (messageQue_ c))) ;;;
  c <-- all ;;
  if isServerActive c then TcpServerWrite "SocketOnMessage" else m_ret ().

(** ** Runs

    The default session is made first; then the threads and the loop take turns.
    A line reaches the loop through a signal. *)
Inductive client_event :=
| EvLine (text : bytes)
| EvDriver (recvBuf : bytes)
| EvMessage (sessionId : Z) (decMessage : bytes)
| EvSocket.

Definition handle (e : client_event) : K () :=
  match e with
  | EvLine text => match GetInputCommand text with LineCommand msg => InputOnMessage msg | _ => m_ret () end
  | EvDriver recvBuf => l <-- StartTcpServer recvBuf ;; match l with Some msg => InputOnMessage msg | None => m_ret () end
  | EvMessage sessionId decMessage => SocketMessageLoop sessionId decMessage
  | EvSocket => SocketOnMessage
  end.
Fixpoint handle_all (es : list client_event) : K () :=
  match es with [] => m_ret () | e :: es' => handle e ;;; handle_all es' end.

(** [Main] for "arkdb": -1 when the default session cannot be made. *)
Definition Main (sockInfo : bytes) (server : bool) (es : list client_event) : K Z :=
  r <-- CreateDefaultSession sockInfo ;;
  if negb (r =? 0) then m_ret (-1)
  else
    updK (λ c, mkClient (sessions_ c) (currentSessionId_ c) (messageQue_ c) server (g_inputStr c) (tcp_out c) (c_io c)) ;;;
    handle_all es ;;; m_ret 0.

End main.
