(* ===== verification/ClientProtocol.v ===== *)
(** * What the client may send

    The interface between the command line client and the debugger it talks to:
    [protocol] lists the requests of the client with the members of their
    parameters, and the lemmas show that the debugger reads every one of them, from
    its text to the object the handler works with. The client's side, that it sends
    nothing else, is in ClientLogic.v. *)

From S2P Require Import Prelude Regex Http CppLib Utils PtJson PtCodec PtSchema PtTypes PtParams PtReturns Dispatcher.
From S2P Require Import DebuggerDispatch RuntimeAgent ProfilerAgents ClientState ClientManagers.
Local Open Scope Z_scope.
Local Open Scope ark_scope.

(** ** Text of JSON values

    Integers of 32 bits and texts without NUL survive being printed and parsed,
    up to the depth that cJSON accepts. *)
Fixpoint lossless (depth : nat) (v : jval) : Prop :=
  match depth with
  | O => False
  | S d =>
      match v with
      | JNull | JBool _ => True
      | JNum x => ∃ z, x = double_of_Z z ∧ - 2 ^ 31 ≤ z < 2 ^ 32
      | JStr s => nul_free s
      | JArr vs => Forall (lossless d) vs
      | JObj fs => Forall (λ f, lossless d f.2) fs
      end
  end.

Class CJsonText (cj : CJson) {cjOK : CJsonOK cj} : Prop := {
  print_parse n depth : (depth ≤ 1000)%nat → lossless depth (view n) →
    ∃ t n', cJSON_PrintUnformatted n = Some t ∧ nul_free t ∧ cJSON_ParseWithLength t = Some n' ∧ view n' = view n;
  child_keys_view n fs : view n = JObj fs → child_keys n = fs.*1 }.

(** ** Requests *)

(** The requests without parameters. *)
Definition plain_methods : list string :=
  ["Debugger.enable"; "Debugger.disable"; "Debugger.resume"; "Debugger.stepInto"; "Debugger.stepOut"; "Debugger.stepOver";
   "Runtime.getHeapUsage"; "Runtime.enable"; "Runtime.disable"; "Runtime.runIfWaitingForDebugger";
   "Profiler.enable"; "Profiler.disable"; "Profiler.start"; "Profiler.stop";
   "HeapProfiler.enable"; "HeapProfiler.disable"; "HeapProfiler.stopSampling"; "HeapProfiler.collectGarbage";
   "Test.success"; "Test.fail"]%string.

Definition jint (z : Z) : jval := JNum (double_of_Z z).
Definition get_properties (objectId : bytes) (range : list (string * jval)) : list (string * jval) :=
  [("accessorPropertiesOnly"%string, JBool false); ("generatePreview"%string, JBool true);
   ("objectId"%string, JStr (c_str objectId)); ("ownProperties"%string, JBool true)] ++ range.
Definition symbolic (functionName : bytes) : list (string * jval) :=
  [("symbolicBreakpoints"%string, JArr [JObj [("functionName"%string, JStr (c_str functionName))]])].

Inductive protocol : string → list (string * jval) → Prop :=
| PrPlain m : m ∈ plain_methods → protocol m []
| PrEnableOption option :
    protocol "Debugger.enable" [("options"%string, JArr [JStr (c_str (str option))])]
| PrSetBreakpoint column line url : is_int32 column → is_int32 line →
    protocol "Debugger.setBreakpointByUrl"
      [("columnNumber"%string, jint column); ("lineNumber"%string, jint line); ("url"%string, JStr (c_str url))]
| PrRemoveBreakpoint breakpointId :
    protocol "Debugger.removeBreakpoint" [("breakpointId"%string, JStr (c_str breakpointId))]
| PrRemoveByUrl url : protocol "Debugger.removeBreakpointsByUrl" [("url"%string, JStr (c_str url))]
| PrSaveAll url line column : is_int32 column → is_int32 line →
    protocol "Debugger.saveAllPossibleBreakpoints"
      [("locations"%string, JObj [(url, JArr [JObj [("lineNumber"%string, jint line); ("columnNumber"%string, jint column)]])])]
| PrSetSymbolic functionName : protocol "Debugger.setSymbolicBreakpoints" (symbolic functionName)
| PrRemoveSymbolic functionName : protocol "Debugger.removeSymbolicBreakpoints" (symbolic functionName)
| PrDropFrame : protocol "Debugger.dropFrame" [("droppedDepth"%string, jint 1)]
| PrAsyncDepth : protocol "Debugger.setAsyncCallStackDepth" [("maxDepth"%string, jint 32)]
| PrScriptSource scriptId : is_int32 scriptId →
    protocol "Debugger.getScriptSource" [("scriptId"%string, JStr (c_str (to_string scriptId)))]
| PrEvaluate callFrameId expression :
    protocol "Debugger.evaluateOnCallFrame"
      [("callFrameId"%string, JStr (c_str callFrameId)); ("expression"%string, JStr (c_str expression));
       ("objectGroup"%string, JStr (c_str (str "watch-group"))); ("includeCommandLineAPI"%string, JBool false);
       ("silent"%string, JBool true); ("returnByValue"%string, JBool false); ("generatePreview"%string, JBool false);
       ("throwOnSideEffect"%string, JBool false)]
| PrProperties objectId : protocol "Runtime.getProperties" (get_properties objectId [])
| PrPropertiesRange objectId start count : is_int32 start → is_int32 count →
    protocol "Runtime.getProperties" (get_properties objectId [("start"%string, jint start); ("count"%string, jint count)])
| PrSamplingInterval interval : is_int32 interval →
    protocol "Profiler.setSamplingInterval" [("interval"%string, jint interval)]
| PrSnapshot :
    protocol "HeapProfiler.takeHeapSnapshot"
      [("reportProgress"%string, JBool true); ("captureNumericValue"%string, JBool true); ("exposeInternals"%string, JBool false)]
| PrTrack : protocol "HeapProfiler.startTrackingHeapObjects" [("trackAllocations"%string, JBool true)]
| PrStopTrack : protocol "HeapProfiler.stopTrackingHeapObjects" [("reportProgress"%string, JBool true)]
| PrSampling : protocol "HeapProfiler.startSampling" [("samplingInterval"%string, jint 16384)].

(** ** The debugger *)

(** The agent of the domain has the method. *)
Definition known_method (domain method : bytes) : bool :=
  if bool_decide (domain = str "Debugger") then existsb (λ e, bool_decide (str e.1 = method)) debugger_methods
  else if bool_decide (domain = str "Runtime") then existsb (λ e, bool_decide (str e.1 = method)) runtime_methods
  else if bool_decide (domain = str "Profiler") then existsb (λ e, bool_decide (str e.1 = method)) profiler_methods
  else if bool_decide (domain = str "HeapProfiler") then existsb (λ e, bool_decide (str e.1 = method)) heap_methods
  else false.

(** The domain of these has no agent: the dispatcher looks at them itself, ends the
    process for the second one and answers neither. *)
Definition test_methods : list string := ["Test.success"; "Test.fail"]%string.

Section reads.
Context `{cj : CJson} `{CastOob}.

Definition is_created {A} (r : created A) : Prop := ∃ a, r = Created a.
(** The identifier of a frame or of an object, which the client repeats as it got
    it, has to be the text of a number. *)
Definition repeated_id (method : string) : option string :=
  if String.eqb method "Debugger.evaluateOnCallFrame" then Some "callFrameId"%string
  else if String.eqb method "Runtime.getProperties" then Some "objectId"%string
  else None.
Definition id_is_number (method : string) (p : PtJson) : Prop :=
  ∀ key s, repeated_id method = Some key → GetString p key = SUCCESS s → is_Some (StrToInt32 s).

(** The agent reads the parameters. *)
Definition readers : list (string * (PtJson → Prop)) :=
  [("Debugger.enable", λ p, is_created (EnableParams_Create p));
   ("Debugger.resume", λ p, is_created (ResumeParams_Create p));
   ("Debugger.stepInto", λ p, is_created (StepIntoParams_Create p));
   ("Debugger.stepOver", λ p, is_created (StepOverParams_Create p));
   ("Debugger.setBreakpointByUrl", λ p, is_created (SetBreakpointByUrlParams_Create p));
   ("Debugger.removeBreakpoint", λ p, is_created (RemoveBreakpointParams_Create p));
   ("Debugger.removeBreakpointsByUrl", λ p, is_created (RemoveBreakpointsByUrlParams_Create p));
   ("Debugger.saveAllPossibleBreakpoints", λ p, is_created (SaveAllPossibleBreakpointsParams_Create p));
   ("Debugger.setSymbolicBreakpoints", λ p, is_created (SetSymbolicBreakpointsParams_Create p));
   ("Debugger.removeSymbolicBreakpoints", λ p, is_created (RemoveSymbolicBreakpointsParams_Create p));
   ("Debugger.dropFrame", λ p, is_created (DropFrameParams_Create p));
   ("Debugger.setAsyncCallStackDepth", λ p, is_created (SetAsyncCallStackDepthParams_Create p));
   ("Debugger.getScriptSource", λ p, is_created (GetScriptSourceParams_Create p));
   ("Debugger.evaluateOnCallFrame", λ p, is_created (EvaluateOnCallFrameParams_Create p));
   ("Runtime.getProperties", λ p, is_created (GetPropertiesParams_Create p));
   ("Profiler.setSamplingInterval", λ p, is_created (SetSamplingIntervalParams_Create p));
   ("HeapProfiler.takeHeapSnapshot", λ p, is_created (StopTrackingHeapObjectsParams_Create p));
   ("HeapProfiler.startTrackingHeapObjects", λ p, is_created (StartTrackingHeapObjectsParams_Create p));
   ("HeapProfiler.stopTrackingHeapObjects", λ p, is_created (StopTrackingHeapObjectsParams_Create p));
   ("HeapProfiler.startSampling", λ p, is_created (StartSamplingParams_Create p))]%string.

Fixpoint reads_by (l : list (string * (PtJson → Prop))) (method : string) (p : PtJson) : Prop :=
  match l with
  | [] => True
  | (k, P) :: l' => if String.eqb k method then P p else reads_by l' method p
  end.
Definition reads : string → PtJson → Prop := reads_by readers.

(** The text is the request with this number and method; unless it is one of the
    two of the domain "Test", its agent knows the method and, when an identifier that
    it repeats is a number, reads the parameters. *)
Definition accepted (id : Z) (method : string) (text : bytes) : Prop :=
  let r := new_DispatchRequest text in
  dr_code_ r = RC_OK ∧ dr_callId_ r = id ∧ dr_domain_ r ++ str "." ++ dr_method_ r = str method ∧
  (method ∉ test_methods →
   known_method (dr_domain_ r) (dr_method_ r) = true ∧ (id_is_number method (dr_params_ r) → reads method (dr_params_ r))).

End reads.

(** ** Every request is read *)

Section accept.
Context `{cj : CJson} {cjOK : CJsonOK cj} {txt : CJsonText cj} `{CastOob}.

Lemma nul_free_c_str s : nul_free (c_str s).
Proof. unfold nul_free. induction s as [|c s IH]; simpl; [by intros ?%elem_of_nil|]. case_match; set_solver. Qed.

Lemma decided {A} (create : PtJson → created A) t p v :
  decides create t → rep p v → fits t v = true → is_created (create p).
Proof. intros Hd Hp Hf. specialize (Hd p v Hp). rewrite Hf in Hd. exact Hd. Qed.

Lemma is_int32_range z : is_int32 z → - 2 ^ 31 ≤ z < 2 ^ 32.
Proof. unfold is_int32. lia. Qed.
Lemma lossless_int d z : is_int32 z → lossless (S d) (jint z).
Proof. intros Hz. exists z. split; [done|by apply is_int32_range]. Qed.

(** *** Printing *)

Lemma lossless_str d s : lossless (S d) (JStr (c_str s)).
Proof. apply nul_free_c_str. Qed.
Lemma lossless_obj d fs : Forall (λ f, lossless d f.2) fs → lossless (S d) (JObj fs).
Proof. done. Qed.
Lemma lossless_arr d vs : Forall (lossless d) vs → lossless (S d) (JArr vs).
Proof. done. Qed.
Ltac lossless_tac :=
  unfold get_properties, symbolic; cbn [app];
  repeat (cbv beta; cbn [snd];
    lazymatch goal with
    | |- lossless _ (JObj _) => apply lossless_obj
    | |- lossless _ (JArr _) => apply lossless_arr
    | |- lossless _ (JStr _) => apply lossless_str
    | |- lossless _ (jint _) => apply lossless_int; (assumption || done)
    | |- lossless _ (JBool _) => exact I
    | |- Forall _ [] => apply Forall_nil_2
    | |- Forall _ _ => apply Forall_cons_2
    end).

Lemma protocol_lossless m fs : protocol m fs → lossless 5 (JObj fs).
Proof. destruct 1; lossless_tac. Qed.

(** *** The method *)

Definition method_ok (m : string) : bool :=
  match find_dot (str m) with
  | Some i => negb (i =? 0)%nat && negb (i =? length (str m) - 1)%nat && (existsb (String.eqb m) test_methods || known_method (take i (str m)) (drop (S i) (str m)))
              && forallb (λ c, negb (c =? 0)) (str m)
  | None => false
  end.
Lemma protocol_method m fs : protocol m fs → method_ok m = true.
Proof.
  destruct 1 as [m Hm| | | | | | | | | | | | | | | | | |]; [|by vm_compute..].
  assert (Hall : forallb method_ok plain_methods = true) by by vm_compute.
  rewrite forallb_forall in Hall. by apply Hall, list_elem_of_In.
Qed.

(** *** The parameters *)

Definition enable_schema : ktype := KFields ["maxScriptsCacheSize" :? KNumber; "options" :? KArray KAny].
Definition resume_schema : ktype := KFields ["terminateOnResume" :? KBool].
Definition step_into_schema : ktype := KFields (("breakOnAsyncCall" :? KBool) :: skipList_schema).
Definition evaluate_schema : ktype :=
  KFields ["callFrameId" :! KId; "expression" :! KString; "objectGroup" :? KString; "includeCommandLineAPI" :? KBool;
           "silent" :? KBool; "returnByValue" :? KBool; "generatePreview" :? KBool; "throwOnSideEffect" :? KBool].
Definition properties_schema : ktype :=
  KFields ["objectId" :! KId; "ownProperties" :? KBool; "accessorPropertiesOnly" :? KBool; "generatePreview" :? KBool;
           "start" :? KNumber; "count" :? KNumber].
Definition tracking_schema : ktype :=
  KFields ["reportProgress" :? KBool; "treatGlobalObjectsAsRoots" :? KBool; "captureNumericValue" :? KBool;
           "nativeAddrToNodeIdMap" :? KNumber].

Hint Resolve Location_decides ScriptPosition_decides LocationRange_decides checks_sampling : ark_schema.
Lemma enable_decides : decides EnableParams_Create enable_schema.
Proof. decide_create. Qed.
Lemma resume_decides : decides ResumeParams_Create resume_schema.
Proof. decide_create. Qed.
Lemma step_into_decides : decides StepIntoParams_Create step_into_schema.
Proof. decide_create. Qed.
Lemma step_over_decides : decides StepOverParams_Create (KFields skipList_schema).
Proof. decide_create. Qed.
Lemma remove_breakpoint_decides : decides RemoveBreakpointParams_Create (KFields ["breakpointId" :! KString]).
Proof. decide_create. Qed.
Lemma remove_by_url_decides : decides RemoveBreakpointsByUrlParams_Create (KFields ["url" :! KString]).
Proof. decide_create. Qed.
Lemma drop_frame_decides : decides DropFrameParams_Create (KFields ["droppedDepth" :? KNumber]).
Proof. decide_create. Qed.
Lemma async_depth_decides : decides SetAsyncCallStackDepthParams_Create (KFields ["maxDepth" :! KNumber]).
Proof. decide_create. Qed.
Lemma script_source_decides : decides GetScriptSourceParams_Create (KFields ["scriptId" :! KId]).
Proof. decide_create. Qed.
Lemma evaluate_decides : decides EvaluateOnCallFrameParams_Create evaluate_schema.
Proof. decide_create. Qed.
Lemma properties_decides : decides GetPropertiesParams_Create properties_schema.
Proof. decide_create. Qed.
Lemma interval_decides : decides SetSamplingIntervalParams_Create (KFields ["interval" :! KNumber]).
Proof. decide_create. Qed.
Lemma tracking_decides : decides StopTrackingHeapObjectsParams_Create tracking_schema.
Proof. decide_create. Qed.
Lemma start_tracking_decides : decides StartTrackingHeapObjectsParams_Create (KFields ["trackAllocations" :? KBool]).
Proof. decide_create. Qed.
Lemma sampling_decides : decides StartSamplingParams_Create (KFields ["samplingInterval" :? KPositive]).
Proof. decide_create. Qed.
Create HintDb ark_read discriminated.
Hint Resolve enable_decides resume_decides step_into_decides step_over_decides remove_breakpoint_decides
  remove_by_url_decides drop_frame_decides async_depth_decides script_source_decides evaluate_decides properties_decides
  interval_decides tracking_decides start_tracking_decides sampling_decides SetBreakpointByUrl_decides : ark_read.

Ltac read_tac Hp := eapply decided; [eauto with ark_read|exact Hp|reflexivity].

Lemma plain_reads m p : m ∈ plain_methods → rep p (JObj []) → reads m p.
Proof.
  intros Hm Hp. unfold plain_methods in Hm.
  repeat (apply elem_of_cons in Hm as [->|Hm]); [..|by apply elem_of_nil in Hm]; try exact I; read_tac Hp.
Qed.

(** The number that a request repeats is in it. *)
Lemma number_given method key s p v : repeated_id method = Some key → rep p v → get_item v key = Some (JStr s) →
  id_is_number method p → is_Some (StrToInt32 s).
Proof. intros Hk Hp Hv Hn. apply (Hn key s Hk). by rewrite (GetString_rep p v key Hp), Hv. Qed.
(** The first member of a schema is such a number. *)
Lemma fits_number key s v fields : get_item v key = Some (JStr s) → is_Some (StrToInt32 s) →
  fits (KFields fields) v = true → fits (KFields ((key, true, KId) :: fields)) v = true.
Proof. intros Hv Hs Hf. cbn [fits forallb] in *. rewrite Hv, bool_decide_eq_true_2 by done. exact Hf. Qed.

Lemma evaluate_reads frame expression p :
  rep p (JObj [("callFrameId"%string, JStr (c_str frame)); ("expression"%string, JStr (c_str expression));
       ("objectGroup"%string, JStr (c_str (str "watch-group"))); ("includeCommandLineAPI"%string, JBool false);
       ("silent"%string, JBool true); ("returnByValue"%string, JBool false); ("generatePreview"%string, JBool false);
       ("throwOnSideEffect"%string, JBool false)]) →
  id_is_number "Debugger.evaluateOnCallFrame" p → reads "Debugger.evaluateOnCallFrame" p.
Proof.
  intros Hp Hs. eapply number_given in Hs; [|reflexivity|exact Hp|reflexivity].
  eapply decided; [eauto with ark_read|exact Hp|]. by eapply fits_number.
Qed.
Lemma properties_reads objectId range p : range = [] ∨ (∃ a b, range = [("start"%string, jint a); ("count"%string, jint b)]) →
  rep p (JObj (get_properties objectId range)) → id_is_number "Runtime.getProperties" p →
  reads "Runtime.getProperties" p.
Proof.
  intros Hr Hp Hs. eapply (number_given _ "objectId" (c_str objectId)) in Hs; [|reflexivity|exact Hp|reflexivity].
  eapply decided; [eauto with ark_read|exact Hp|].
  destruct Hr as [->|(a & b & ->)]; by eapply fits_number.
Qed.
Lemma source_reads scriptId p : is_int32 scriptId →
  rep p (JObj [("scriptId"%string, JStr (c_str (to_string scriptId)))]) → reads "Debugger.getScriptSource" p.
Proof.
  intros Hi Hp. eapply decided; [eauto with ark_read|exact Hp|]. eapply fits_number; [done| |done].
  rewrite c_str_nul_free by (apply to_string_nul_free; unfold is_int32 in Hi; lia).
  by rewrite StrToInt32_to_string.
Qed.

Lemma symbolic_reads f p : rep p (JObj (symbolic f)) →
  is_created (SetSymbolicBreakpointsParams_Create p) ∧ is_created (RemoveSymbolicBreakpointsParams_Create p).
Proof.
  intros Hp. pose proof (symbolic_params_accepted p _ Hp) as [H1 H2].
  replace (fits symbolic_schema (JObj (symbolic f))) with true in * by reflexivity. done.
Qed.

(** A list of breakpoints under the name of a file; the name is added to each. *)
Lemma save_all_reads url line column p :
  rep p (JObj [("locations"%string,
    JObj [(url, JArr [JObj [("lineNumber"%string, jint line); ("columnNumber"%string, jint column)]])])]) →
  is_created (SaveAllPossibleBreakpointsParams_Create p).
Proof.
  intros Hp. unfold SaveAllPossibleBreakpointsParams_Create.
  pose proof (GetObject_rep p _ "locations" Hp) as (q & -> & Hq).
  pose proof Hq as (n & -> & Hn). unfold keys_of. rewrite (child_keys_view n _ Hn). cbn [fmap list_fmap fst save_keys].
  pose proof (GetArray_view (Some n) _ url Hq) as Hg.
  assert (Hi : get_item (JObj [(url, JArr [JObj [("lineNumber"%string, jint line); ("columnNumber"%string, jint column)]])]) url
    = Some (JArr [JObj [("lineNumber"%string, jint line); ("columnNumber"%string, jint column)]])).
  { cbn [get_item]. rewrite find_field_cons. unfold key_eq_icase. by rewrite bool_decide_eq_true_2. }
  rewrite Hi in Hg. destruct Hg as (a & Ha & Harr).
  assert (Hb : ∃ b, BreakpointInfo_Create (addS "url" (str (first_key [url] url)) (Get a 0)) = Created b).
  { eapply decided; [apply BreakpointInfo_decides|..].
    - apply (addS_obj "url" _ _ [("lineNumber"%string, Some (jint line)); ("columnNumber"%string, Some (jint column))]);
        [by apply (Get_arr a _ 0 _ Harr)|reflexivity].
    - reflexivity. }
  destruct Hb as (b & Hb). unfold finish, p_bind. rewrite Ha. unfold until. rewrite (GetSize_arr a _ Harr).
  change (Z.to_nat _) with 1%nat. cbn [until_from]. change (Z.of_nat 0) with 0. rewrite Hb. by eexists.
Qed.

Lemma protocol_reads m fs p : protocol m fs → rep p (JObj fs) → id_is_number m p → reads m p.
Proof.
  intros Hm Hp Hn. destruct Hm.
  - by apply plain_reads.
  - read_tac Hp.
  - read_tac Hp.
  - read_tac Hp.
  - read_tac Hp.
  - exact (save_all_reads _ _ _ p Hp).
  - exact (proj1 (symbolic_reads _ p Hp)).
  - exact (proj2 (symbolic_reads _ p Hp)).
  - read_tac Hp.
  - read_tac Hp.
  - by apply (source_reads scriptId).
  - exact (evaluate_reads _ _ p Hp Hn).
  - exact (properties_reads _ _ p (or_introl eq_refl) Hp Hn).
  - apply (properties_reads _ _ p (or_intror (ex_intro _ start (ex_intro _ count eq_refl))) Hp Hn).
  - read_tac Hp.
  - read_tac Hp.
  - read_tac Hp.
  - read_tac Hp.
  - read_tac Hp.
Qed.

(** ** The whole way *)

Lemma request_json_rep id m params fs : rep params (JObj fs) →
  rep (request_json id m params)
    (JObj [("id"%string, jint id); ("method"%string, JStr (c_str (str m))); ("params"%string, JObj fs)]).
Proof.
  intros Hp. unfold request_json.
  assert (Ho : obj (addS "method" (str m) (addI "id" id CreateObject))
    [("id"%string, Some (jint id)); ("method"%string, Some (JStr (c_str (str m))))]).
  { apply (addS_obj _ _ _ [("id"%string, Some (jint id))]); [|done].
    apply (addI_obj _ _ _ []); [apply CreateObject_obj|done]. }
  apply (AddNode_obj _ _ "params" params (JObj fs) Ho); [done|exact Hp].
Qed.

Lemma Stringify_parse p v d : (d ≤ 1000)%nat → rep p v → lossless d v → rep (Parse (Stringify p)) v.
Proof.
  intros Hd (n & -> & <-) Hl. destruct (print_parse n d Hd Hl) as (t & n' & Hpr & Hnf & Hpa & Hv).
  unfold Stringify, Parse. rewrite Hpr, c_str_nul_free by done. exists n'. by rewrite Hpa.
Qed.

Lemma method_nul_free s : forallb (λ c, negb (c =? 0)) s = true → nul_free s.
Proof. rewrite forallb_forall. intros Hs Hin%list_elem_of_In. by specialize (Hs 0 Hin). Qed.

Lemma request_parsed id m params fs : 0 ≤ id < 2 ^ 31 → protocol m fs → rep params (JObj fs) → nul_free (str m) →
  rep (Parse (Stringify (request_json id m params)))
    (JObj [("id"%string, jint id); ("method"%string, JStr (str m)); ("params"%string, JObj fs)]).
Proof.
  intros Hid Hm Hp Hnf. pose proof (request_json_rep id m params fs Hp) as Hj.
  rewrite c_str_nul_free in Hj by done. apply (Stringify_parse _ _ 6); [lia|done|].
  apply lossless_obj. repeat apply Forall_cons_2; cbn [snd]; [..|apply Forall_nil_2].
  - apply lossless_int. unfold is_int32. lia.
  - exact Hnf.
  - by apply (protocol_lossless m).
Qed.

(** What the debugger makes of the text. *)
Lemma request_read id m params fs :
  0 ≤ id < 2 ^ 31 → protocol m fs → rep params (JObj fs) →
  ∃ domain method q, new_DispatchRequest (Stringify (request_json id m params)) = mkDispatchRequest id domain method q RC_OK ∧
    domain ++ str "." ++ method = str m ∧ (m ∉ test_methods → known_method domain method = true) ∧ rep q (JObj fs).
Proof.
  intros Hid Hm Hp. pose proof (protocol_method _ _ Hm) as Hok. unfold method_ok in Hok.
  destruct (find_dot (str m)) as [i|] eqn:Ed; [|done].
  apply andb_true_iff in Hok as [[[Hi0 Hi1]%andb_true_iff Hk]%andb_true_iff Hnf%method_nul_free].
  apply negb_true_iff in Hi0, Hi1.
  pose proof (request_parsed id m params fs Hid Hm Hp Hnf) as Hj.
  unfold new_DispatchRequest. set (j := Parse _) in *.
  assert (Ho : IsObject j = true) by (destruct Hj as (n & -> & Hv); unfold IsObject; by rewrite IsObject_view, Hv).
  rewrite Ho. unfold GetInt. rewrite (GetDouble_view j _ "id" Hj). cbn [map_result].
  change (get_item _ "id") with (Some (jint id)). cbn [jint map_result].
  rewrite double_int32 by (unfold is_int32; lia).
  rewrite (GetString_rep j _ "method" Hj). change (get_item _ "method") with (Some (JStr (str m))). cbn beta iota.
  pose proof (find_dot_some (str m) i) as [Hf _]. destruct (Hf Ed) as (a & b & Es & Ha & Hl).
  rewrite bool_decide_eq_false_2 by (rewrite Es; by destruct a). rewrite Ed, Hi0, Hi1. cbn [orb].
  pose proof (GetObject_rep j _ "params" Hj) as (q & -> & Hq). cbn [negb].
  assert (Hmm : substr (str m) (i + 1) (Some (length (str m))) = drop (S i) (str m)).
  { unfold substr. rewrite Nat.add_1_r. apply take_ge. rewrite length_drop. lia. }
  change (substr (str m) 0 (Some i)) with (take i (str m)). rewrite Hmm.
  exists (take i (str m)), (drop (S i) (str m)), q. split_and!; [done| | |done].
  2: { intros Ht. apply orb_true_iff in Hk as [(t & Hin & ->%String.eqb_eq)%existsb_exists|Hk]; [|done]. by apply list_elem_of_In in Hin. }
  rewrite Es, <- Hl, take_app_length, drop_app_ge by lia. replace (S (length a) - length a)%nat with 1%nat by lia. done.
Qed.

Lemma request_accepted id m params fs :
  0 ≤ id < 2 ^ 31 → protocol m fs → rep params (JObj fs) → accepted id m (Stringify (request_json id m params)).
Proof.
  intros Hid Hm Hp. destruct (request_read id m params fs Hid Hm Hp) as (domain & method & q & E & Hd & Hk & Hq).
  unfold accepted. rewrite E. split_and!; [done..|]. intros Ht. split; [by apply Hk|by apply (protocol_reads m fs)].
Qed.

End accept.
