(* ===== verification/ClientLogic.v ===== *)
(** * Invariants of the command line client

    What every session and the table of the sessions satisfy after any sequence of
    commands, replies and events: the numbers of the requests grow, every message
    that was sent is one of [protocol], a number that is waited for belongs to a
    request of the domain that will get the reply; the sessions have different
    sockets, and the selected session exists. [keeps] states that an operation
    preserves this, whether it returns or ends the client. *)

From S2P Require Import Prelude Regex Http CppLib Utils PtJson PtCodec PtTypes PtReturns Dispatcher.
From S2P Require Import ClientState ClientManagers ClientDomains ClientSessions ClientCommands ClientMain ClientProtocol.
From stdpp Require Import sorting.
Local Open Scope Z_scope.
Local Open Scope ark_scope.

(** The state in which an operation leaves. *)
Definition left_in {S A} (r : outcome S A) : S := match r with Ret _ s | Block s | Throw s => s end.

Section logic.
Context `{cj : CJson} {cjOK : CJsonOK cj} `{CastOob} `{SignedOverflow} `{ClientSocket} `{ClientEnv}.

(** ** One session *)

(** A request; its number is counted on without wrap-around. *)
Record request := mkRequest { rq_number : Z; rq_domain : string; rq_method : string; rq_params : PtJson }.
Definition request_text (r : request) : bytes :=
  Stringify (request_json (wrap 32 (rq_number r)) (rq_method r) (rq_params r)).
(** The reply goes to the client of the domain of the method; only the properties
    of a watched object go to the debugger, which asked for them. *)
Definition answers_to (domain method : string) : bool :=
  String.prefix (String.append domain ".") method
  || String.eqb domain "Debugger" && String.eqb method "Runtime.getProperties".
Definition request_ok (r : request) : Prop :=
  answers_to (rq_domain r) (rq_method r) = true ∧ ∃ fs, protocol (rq_method r) fs ∧ rep (rq_params r) (JObj fs).

(** The requests so far, the next of which has the number [n]. *)
Record link_inv (n : Z) (rqs : list request) (s : Session) : Prop := {
  link_next : 1 ≤ n ∧ messageId_ s = wrap 32 n;
  link_sent : sent_ s = request_text <$> rqs;
  link_numbers : StronglySorted Z.lt (rq_number <$> rqs) ∧ Forall (λ r, 1 ≤ rq_number r < n) rqs;
  link_requests : Forall request_ok rqs;
  link_domains id d : idDomainMap_ s !! id = Some d → ∃ r, r ∈ rqs ∧ wrap 32 (rq_number r) = id ∧ str (rq_domain r) = d }.

Definition breakpoint_inv (b : BreakPointInfo) : Prop := is_int32 (bpi_lineNumber b) ∧ is_int32 (bpi_columnNumber b).
Record session_inv (i : Z) (k : bytes) (s : Session) : Prop := {
  inv_id : s_id s = i;
  inv_socket : sockInfo_ s = k;
  inv_link : ∃ n rqs, link_inv n rqs s;
  inv_breakpoints : Forall breakpoint_inv (breakPointInfoList_ (debuggerClient_ s));
  inv_interval : is_int32 (interval_ (profilerClient_ s));
  inv_range : opt_ok is_int32 (start_ (runtimeClient_ s)) ∧ opt_ok is_int32 (count_ (runtimeClient_ s)) }.

(** An update that changes nothing of this. *)
Definition facts (s : Session) :=
  (s_id s, sockInfo_ s, messageId_ s, sent_ s, idDomainMap_ s, breakPointInfoList_ (debuggerClient_ s),
   interval_ (profilerClient_ s), start_ (runtimeClient_ s), count_ (runtimeClient_ s)).
Definition neutral (f : Session → Session) : Prop := ∀ s, facts (f s) = facts s.

Lemma session_inv_facts i k s s' : facts s' = facts s → session_inv i k s → session_inv i k s'.
Proof.
  intros [= E1 E2 E3 E4 E5 E6 E7 E8 E9] [? ? (n & rqs & []) ? ? ?].
  split; rewrite ?E1, ?E2, ?E6, ?E7, ?E8, ?E9; try done. exists n, rqs. split; rewrite ?E3, ?E4, ?E5; done.
Qed.

(** ** Operations that keep it *)

Definition keeps {A} (m : C A) : Prop := ∀ i k w, session_inv i k w.1 → session_inv i k (left_in (m w)).1.

Lemma session_keeps_ret {A} (a : A) : keeps (m_ret a).
Proof. by intros i k w. Qed.
Lemma keeps_crash {A} : keeps (@crash _ A).
Proof. by intros i k w. Qed.
Lemma session_keeps_bind {A B} (f : A → C B) (m : C A) : keeps m → (∀ a, keeps (f a)) → keeps (m_bind f m).
Proof.
  intros Hm Hf i k w Hw. specialize (Hm i k w Hw). unfold m_bind. destruct (m w); simpl in *; [by apply Hf|done..].
Qed.
(** What is read from a session satisfies the invariant. *)
Lemma keeps_ses {B} (f : Session → C B) : (∀ s i k, session_inv i k s → keeps (f s)) → keeps (m_bind f ses).
Proof. intros Hf i k w Hw. exact (Hf w.1 i k Hw i k w Hw). Qed.
Lemma keeps_upd f : (∀ i k s, session_inv i k s → session_inv i k (f s)) → keeps (upd f).
Proof. intros Hf i k w Hw. by apply Hf. Qed.
Lemma keeps_neutral f : neutral f → keeps (upd f).
Proof. intros Hf. apply keeps_upd. intros i k s. by apply session_inv_facts. Qed.
Lemma keeps_show l : keeps (show l).
Proof. by intros i k w. Qed.
Lemma keeps_write name text append : keeps (write_file name text append).
Proof. by intros i k w. Qed.
Lemma keeps_clock : keeps GetCurrentTime.
Proof. intros i k w Hw. unfold GetCurrentTime. by destruct (clock w.2). Qed.
Lemma session_keeps_read {A B} (r : Result A) (missing : C B) (f : A → C B) :
  keeps missing → (∀ a, keeps (f a)) → keeps (read r missing f).
Proof. intros Hm Hf. by destruct r; simpl. Qed.

(** A number is forgotten. *)
Lemma keeps_RemoveDomainById id : keeps (RemoveDomainById id).
Proof.
  apply keeps_upd. intros i k s [? ? (n & rqs & [])]. split; try done. exists n, rqs. split; try done.
  simpl. intros id' d' [_ ?]%lookup_delete_Some. eauto.
Qed.

(** *** Requests *)

(** Steps that change nothing of the invariant. *)
Definition silent (m : C ()) : Prop := ∀ w, ∃ s', m w = Ret () (s', w.2) ∧ facts s' = facts w.1.
Lemma silent_upd f : neutral f → silent (upd f).
Proof. intros Hf w. by exists (f w.1). Qed.
Lemma session_silent_ret : silent (m_ret ()).
Proof. intros w. exists w.1. by destruct w. Qed.
Lemma keeps_silent m : silent m → keeps m.
Proof. intros Hm i k w Hw. destruct (Hm w) as (s' & -> & Hf). simpl. by eapply session_inv_facts. Qed.

Lemma session_inv_link i k s s' :
  session_inv i k s → s_id s' = s_id s → sockInfo_ s' = sockInfo_ s → debuggerClient_ s' = debuggerClient_ s →
  profilerClient_ s' = profilerClient_ s → runtimeClient_ s' = runtimeClient_ s →
  (∃ n rqs, link_inv n rqs s') → session_inv i k s'.
Proof. intros [] E1 E2 E3 E4 E5 Hl. split; rewrite ?E1, ?E2, ?E3, ?E4, ?E5; done. Qed.

(** The data that requests are made of has changed. *)
Lemma session_inv_data i k s s' :
  session_inv i k s →
  (s_id s', sockInfo_ s', messageId_ s', sent_ s', idDomainMap_ s') = (s_id s, sockInfo_ s, messageId_ s, sent_ s, idDomainMap_ s) →
  Forall breakpoint_inv (breakPointInfoList_ (debuggerClient_ s')) → is_int32 (interval_ (profilerClient_ s')) →
  opt_ok is_int32 (start_ (runtimeClient_ s')) → opt_ok is_int32 (count_ (runtimeClient_ s')) → session_inv i k s'.
Proof.
  intros [? ? (n & rqs & []) ? ? ?] [= E1 E2 E3 E4 E5] ? ? ? ?. split; rewrite ?E1, ?E2; try done.
  exists n, rqs. split; rewrite ?E3, ?E4, ?E5; done.
Qed.

(** The next number is taken. *)
Lemma link_next_number n rqs s : link_inv n rqs s → link_inv (n + 1) rqs (set_messageId (wrap 32 (messageId_ s + 1)) s).
Proof.
  intros [[Hn Hm] Hs [Hsort Hb] Hr Hd]. split; try done.
  - split; [lia|]. simpl. rewrite Hm. unfold wrap. by rewrite Zplus_mod_idemp_l.
  - split; [done|]. eapply Forall_impl; [exact Hb|]. simpl. lia.
Qed.
(** The request with that number was sent. *)
Lemma link_send n rqs s r : link_inv (n + 1) rqs s → Forall (λ r, rq_number r < n) rqs → 1 ≤ n → rq_number r = n → request_ok r →
  ∀ sk, link_inv (n + 1) (rqs ++ [r]) (set_link sk (sent_ s ++ [request_text r]) s).
Proof.
  intros [[Hn Hm] Hs [Hsort Hb] Hr Hd] Hlt Hn1 Hrn Hok sk. split; try done.
  - simpl. by rewrite Hs, fmap_app.
  - split; [|apply Forall_app; split; [done|]; apply Forall_singleton; lia].
    rewrite fmap_app. apply StronglySorted_app. split_and!; [|done|repeat constructor].
    intros x y (r' & -> & Hr')%list_elem_of_fmap ->%list_elem_of_singleton. rewrite Hrn.
    rewrite Forall_forall in Hlt. by apply Hlt.
  - by apply Forall_app_2; [|apply Forall_singleton].
  - intros id d Hid. destruct (Hd id d Hid) as (r' & Hin & ?). exists r'. split; [|done].
    apply elem_of_app. by left.
Qed.
Lemma link_domain n rqs s r : link_inv n rqs s → r ∈ rqs →
  link_inv n rqs (set_domains (match idDomainMap_ s !! wrap 32 (rq_number r) with
                               | Some _ => idDomainMap_ s
                               | None => <[wrap 32 (rq_number r) := str (rq_domain r)]> (idDomainMap_ s)
                               end) s).
Proof.
  intros [? ? ? ? Hd] Hr. split; try done. simpl. intros id d. destruct (idDomainMap_ s !! wrap 32 (rq_number r)); [by apply Hd|].
  intros [[<- <-]|[_ Hid]]%lookup_insert_Some; [by exists r|by apply Hd].
Qed.

Lemma link_facts n rqs s s' : facts s' = facts s → link_inv n rqs s → link_inv n rqs s'.
Proof. intros [= _ _ E3 E4 E5 _ _ _ _] []. split; rewrite ?E3, ?E4, ?E5; done. Qed.

Lemma keeps_ClientSendReq_domain domain r :
  request_ok r → ∀ i k w n rqs on_sent, session_inv i k w.1 → link_inv (n + 1) rqs w.1 → Forall (λ r, rq_number r < n) rqs →
  1 ≤ n → rq_number r = n → rq_domain r = domain → silent on_sent →
  session_inv i k (left_in ((ok <-- ClientSendReq (request_text r) ;;
    if (ok : bool) then on_sent ;;; SetDomainById (wrap 32 n) (str domain) else m_ret ()) w)).1.
Proof.
  intros Hok i k w n rqs on_sent Hw Hl Hlt Hn Hrn Hd Hs. subst n domain. unfold m_bind, ClientSendReq.
  destruct (SendReply (request_text r) (cliSocket_ w.1)) as [[] sk]; cbn beta iota.
  - set (s1 := set_link sk (sent_ w.1 ++ [request_text r]) w.1).
    assert (Hi1 : session_inv i k s1) by (apply (session_inv_link i k w.1); [done..|]; eauto using link_send).
    pose proof (link_send _ rqs w.1 r Hl Hlt Hn eq_refl Hok sk) as Hl1. fold s1 in Hl1.
    destruct (Hs (s1, w.2)) as (s2 & E & Hf). rewrite E. simpl in Hf |- *.
    apply (session_inv_link i k s2); [exact (session_inv_facts i k s1 s2 Hf Hi1)|done..|]. exists (rq_number r + 1), (rqs ++ [r]).
    apply (link_domain _ _ s2 r); [exact (link_facts _ _ s1 s2 Hf Hl1)|]. apply elem_of_app. right. by apply list_elem_of_singleton.
  - simpl. by apply (session_inv_link i k w.1); [done..|]; exists (rq_number r + 1), rqs; destruct Hl; split.
Qed.

Lemma keeps_SendRequest domain method note params on_sent fs :
  answers_to domain method = true → protocol method fs → rep params (JObj fs) → (∀ id, silent (note id)) → silent on_sent →
  keeps (SendRequest domain method note params on_sent).
Proof.
  intros Hd Hp Hr Hnote Hsent i k w Hw. pose proof Hw as [_ _ (n & rqs & Hl) _ _ _].
  pose proof Hl as [[Hn Hm] _ [_ Hb] _ _]. unfold SendRequest. unfold m_bind at 1, GetMessageId, m_bind, ses, upd, m_ret.
  simpl. set (s1 := set_messageId _ w.1).
  assert (Hl1 : link_inv (n + 1) rqs s1) by by apply link_next_number.
  assert (Hi1 : session_inv i k s1) by (apply (session_inv_link i k w.1); [done..|]; eauto).
  destruct (Hnote (messageId_ w.1) (s1, w.2)) as (s2 & E & Hf). rewrite E. simpl in Hf.
  rewrite Hm. apply (keeps_ClientSendReq_domain domain (mkRequest n domain method params)
    ltac:(split; [done|by exists fs]) i k (s2, w.2) n rqs on_sent); try done.
  - by eapply session_inv_facts.
  - by eapply link_facts.
  - eapply Forall_impl; [exact Hb|]. simpl. lia.
Qed.

(** *** Parameters *)

Lemma present_some (fs : list (string * jval)) : present (prod_map id Some <$> fs) = fs.
Proof. induction fs as [|[k v] fs IH]; [done|]. cbn. by rewrite <- IH at 2. Qed.
Lemma rep_obj p fs : obj p (prod_map id Some <$> fs) ↔ rep p (JObj fs).
Proof. unfold obj. by rewrite present_some. Qed.

(** The key of a new member. *)
Definition new_key (key : string) (fs : list (string * jval)) : bool := forallb (λ f, negb (String.eqb key f.1)) fs.
Lemma new_key_fresh key fs : new_key key fs = true → PtJson.fresh key (prod_map id Some <$> fs) = true.
Proof.
  intros Hk. apply bool_decide_eq_true_2. rewrite <- list_fmap_compose. intros ([k v] & E & Hin)%list_elem_of_fmap.
  unfold new_key in Hk. rewrite forallb_forall in Hk. apply list_elem_of_In in Hin. specialize (Hk _ Hin). simpl in *.
  subst. by rewrite String.eqb_refl in Hk.
Qed.
Lemma rep_add key node v p fs :
  rep p (JObj fs) → new_key key fs = true → rep node v → rep (AddNode p key node).2 (JObj (fs ++ [(key, v)])).
Proof.
  intros Hp%rep_obj Hk%new_key_fresh Hn. apply rep_obj. rewrite fmap_app. by apply AddNode_obj.
Qed.
Lemma rep_addS key s p fs : rep p (JObj fs) → new_key key fs = true → rep (addS key s p) (JObj (fs ++ [(key, JStr (c_str s))])).
Proof. intros. apply rep_add; [done..|apply CreateString_view]. Qed.
Lemma rep_addI key z p fs : rep p (JObj fs) → new_key key fs = true → rep (addI key z p) (JObj (fs ++ [(key, jint z)])).
Proof. intros. apply rep_add; [done..|apply CreateNumber_view]. Qed.
Lemma rep_addB key b p fs : rep p (JObj fs) → new_key key fs = true → rep (addB key b p) (JObj (fs ++ [(key, JBool b)])).
Proof. intros. apply rep_add; [done..|apply CreateBool_view]. Qed.
Lemma rep_addJ key q v p fs : rep p (JObj fs) → rep q v → new_key key fs = true → rep (addJ key q p) (JObj (fs ++ [(key, v)])).
Proof. intros. by apply rep_add. Qed.
Lemma rep_push q v p vs : rep p (JArr vs) → rep q v → rep (pushJ p q) (JArr (vs ++ [v])).
Proof. intros Hp Hq. by apply PushNode_arr. Qed.
Lemma rep_pushS s p vs : rep p (JArr vs) → rep (pushS p s) (JArr (vs ++ [JStr (c_str s)])).
Proof. intros Hp. apply PushNode_arr; [done|apply CreateString_view]. Qed.
Lemma rep_empty : rep CreateObject (JObj []).
Proof. apply CreateObject_view. Qed.
Lemma rep_no_items : rep CreateArray (JArr []).
Proof. apply CreateArray_view. Qed.

Lemma rep_as p v v' : rep p v → v = v' → rep p v'.
Proof. by intros ? <-. Qed.

(** A request of the protocol: the parameters as they are built. *)
Lemma keeps_request domain method note params on_sent fs :
  answers_to domain method = true → rep params (JObj fs) → protocol method fs → (∀ id, silent (note id)) → silent on_sent →
  keeps (SendRequest domain method note params on_sent).
Proof. intros. by apply (keeps_SendRequest _ _ _ _ _ fs). Qed.

End logic.

(** *** Automation *)

Ltac head_of t := lazymatch t with ?f _ => head_of f | _ => t end.
Ltac params_tac :=
  lazymatch goal with
  | |- rep CreateObject _ => apply rep_empty
  | |- rep CreateArray _ => apply rep_no_items
  | |- rep (addS _ _ _) _ => eapply rep_addS; [params_tac|reflexivity]
  | |- rep (addI _ _ _) _ => eapply rep_addI; [params_tac|reflexivity]
  | |- rep (addB _ _ _) _ => eapply rep_addB; [params_tac|reflexivity]
  | |- rep (addJ _ _ _) _ => eapply rep_addJ; [params_tac|params_tac|reflexivity]
  | |- rep (pushJ _ _) _ => eapply rep_push; [params_tac|params_tac]
  | |- rep (pushS _ _) _ => eapply rep_pushS; params_tac
  | |- rep ?p _ => let h := head_of p in unfold h; params_tac
  end.
Ltac silent_tac :=
  intros; cbv beta;
  lazymatch goal with
  | |- silent (m_ret ()) => apply session_silent_ret
  | |- silent (upd _) => apply silent_upd; intros ?; repeat case_match; reflexivity
  | |- silent ?m => let h := head_of m in unfold h; silent_tac
  end.
Ltac protocol_tac :=
  cbn [app]; first [ apply PrPlain; apply (bool_decide_unpack _); vm_compute; exact I
                   | constructor; first [assumption | done] | econstructor; first [assumption | done] ].
Ltac request_tac := eapply keeps_request; [reflexivity|params_tac|protocol_tac|silent_tac|silent_tac].

Create HintDb ark_keep discriminated.
#[export] Hint Constants Opaque : ark_keep.
#[export] Hint Resolve session_keeps_ret keeps_crash keeps_show keeps_write keeps_clock keeps_RemoveDomainById : ark_keep.

Ltac keep_step :=
  lazymatch goal with
  | |- keeps (m_bind _ ses) => apply keeps_ses; intros ? ? ? ?
  | |- keeps (m_bind _ _) => apply session_keeps_bind; [|intros ?]
  | |- keeps (SendRequest _ _ _ _ _) => request_tac
  | |- keeps (read _ _ _) => apply session_keeps_read; [|intros ?]
  | |- keeps (upd _) => apply keeps_neutral; intros ?; repeat case_match; reflexivity
  | |- keeps (match ?x with _ => _ end) => destruct x eqn:?
  | |- keeps ?m => first [ solve [eauto with ark_keep] | let h := head_of m in unfold h ]
  end; cbv beta.
Ltac keep := repeat keep_step.

(** ** The operations of a session *)

Section operations.
Context `{cj : CJson} {cjOK : CJsonOK cj} `{CastOob} `{SignedOverflow} `{ClientSocket} `{ClientEnv}.

Lemma atoi_int32 s : is_int32 (atoi s).
Proof. unfold atoi. destruct (strtoll (c_str s)) as [[]|]; [apply i32_range|done]. Qed.
Lemma stoi_int32 s v : stoi s = Some v → is_int32 v.
Proof.
  unfold stoi, is_int32, INT_MIN, INT_MAX. destruct (strtoll (c_str s)) as [[]|]; [|done].
  case_match eqn:E; [done|]. intros [= <-]. apply orb_false_iff in E as [?%Z.ltb_ge ?%Z.ltb_ge]. lia.
Qed.
Hint Resolve i32_range atoi_int32 : core.

(** The arguments that the commands take for numbers are numbers. *)
Lemma skip_zeros_digits s : forallb isdigit (skip_zeros s) = true → Forall (λ c, isdigit c = true) s.
Proof.
  induction s as [|c s IH]; [done|]. cbn [skip_zeros]. destruct (Z.eqb_spec c 48) as [->|]; [by intros; constructor; auto|].
  intros Hf. by apply Forall_forall; intros x Hx; rewrite forallb_forall in Hf; apply Hf, list_elem_of_In.
Qed.
Lemma digits_bound ds : ∀ acc, 0 ≤ acc → Forall (λ c, isdigit c = true) ds →
  0 ≤ foldl (λ a c, a * 10 + (c - 48)) acc ds < (acc + 1) * 10 ^ Z.of_nat (length ds).
Proof.
  induction ds as [|c ds IH]; intros acc Ha Hf; [simpl; lia|]. apply Forall_cons in Hf as [Hc Hf].
  unfold isdigit in Hc. apply andb_true_iff in Hc as [?%Z.leb_le ?%Z.leb_le].
  specialize (IH (acc * 10 + (c - 48)) ltac:(lia) Hf). cbn [foldl length].
  rewrite Nat2Z.inj_succ, Z.pow_succ_r by lia. pose proof (Z.pow_pos_nonneg 10 (Z.of_nat (length ds))). nia.
Qed.
Lemma skip_zeros_value s : foldl (λ a c, a * 10 + (c - 48)) 0 s = foldl (λ a c, a * 10 + (c - 48)) 0 (skip_zeros s).
Proof. induction s as [|c s IH]; [done|]. cbn [skip_zeros]. by destruct (Z.eqb_spec c 48) as [->|]. Qed.
Lemma strtoll_digits s : s ≠ [] → Forall (λ c, isdigit c = true) s →
  strtoll s = Some (Z.max LLONG_MIN (Z.min LLONG_MAX (foldl (λ a c, a * 10 + (c - 48)) 0 s)), []).
Proof.
  intros Hne Hf. destruct s as [|c s]; [done|]. pose proof Hf as [Hc _]%Forall_cons. unfold isdigit in Hc.
  apply andb_true_iff in Hc as [?%Z.leb_le ?%Z.leb_le]. unfold strtoll, strto. cbn [TrimLeft].
  replace (isspace c) with false by (unfold isspace; lia). cbv iota.
  replace (c =? 45) with false by lia. replace (c =? 43) with false by lia. cbv iota.
  replace (isdigit c) with true by (unfold isdigit; lia).
  pose proof (strto_digits_app (c :: s) 0 [] Hf I) as Ed. rewrite app_nil_r in Ed. by rewrite Ed.
Qed.
Lemma number_stoi s : Utils.IsNumber s = true → s ≠ [] → ∃ v, stoi s = Some v ∧ 0 ≤ v < 10 ^ 9.
Proof.
  unfold Utils.IsNumber. intros Hn Hne. destruct (Z.ltb_spec 9 (Z.of_nat (length (skip_zeros s)))) as [|Hl]; [done|].
  pose proof (skip_zeros_digits s Hn) as Hf.
  assert (Hz : Forall (λ c, isdigit c = true) (skip_zeros s)).
  { apply Forall_forall. intros x Hx. rewrite forallb_forall in Hn. by apply Hn, list_elem_of_In. }
  pose proof (digits_bound (skip_zeros s) 0 ltac:(lia) Hz) as Hb. rewrite <- skip_zeros_value in Hb.
  pose proof (Z.pow_le_mono_r 10 (Z.of_nat (length (skip_zeros s))) 9 ltac:(lia) Hl).
  assert (Hc : c_str s = s).
  { apply c_str_nul_free. intros Hin. rewrite Forall_forall in Hf. by specialize (Hf 0 Hin). }
  unfold stoi. rewrite Hc, (strtoll_digits s Hne Hf). unfold LLONG_MIN, LLONG_MAX, INT_MIN, INT_MAX in *.
  set (v := foldl _ 0 s) in *. rewrite Z.min_r, Z.max_r by lia. exists v.
  replace (_ || _) with false by lia. split; [done|lia].
Qed.
Lemma stoi_nil : stoi [] = None.
Proof. done. Qed.

(** *** Managers *)

Lemma keeps_show_range lines from to : keeps (show_range lines from to).
Proof.
  unfold show_range. generalize (Z.to_nat (to - from)). intros n. revert from.
  induction n as [|n IH]; intros from; simpl; keep; apply IH.
Qed.
Lemma keeps_SendRequeSource scriptId : is_int32 scriptId → keeps (SendRequeSource scriptId).
Proof. intros. keep. Qed.
Lemma keeps_SendRequestWatch index frame : keeps (SendRequestWatch index frame).
Proof. keep. Qed.
Lemma keeps_Watch_GetProperties index objectId : keeps (Watch_GetPropertiesCommand index objectId).
Proof. keep. Qed.
Hint Resolve keeps_show_range keeps_SendRequeSource keeps_SendRequestWatch keeps_Watch_GetProperties : ark_keep.
Lemma keeps_each_watch n : ∀ i frame, keeps (each_watch i n frame).
Proof. induction n as [|n IH]; intros i frame; cbn [each_watch]; keep. Qed.
Hint Resolve keeps_each_watch : ark_keep.

Lemma keeps_EnableReply json : keeps (EnableReply json).
Proof. keep. Qed.
Lemma keeps_GetDebugSources json : keeps (GetDebugSources json).
Proof. keep. Qed.
Lemma keeps_GetListSource a b : keeps (GetListSource a b).
Proof. keep. Qed.
Lemma keeps_HandleWatchResult json id : keeps (HandleWatchResult json id).
Proof. keep. Qed.

(** *** Clients *)

Lemma keeps_back {A B} (l : list A) (f : A → C B) : (∀ a, a ∈ l → keeps (f a)) → keeps (back l f).
Proof.
  intros Hf. unfold back. destruct (last l) as [a|] eqn:E; [|apply keeps_crash]. apply Hf. by apply last_Some_elem_of.
Qed.
Lemma session_breakpoints i k s b : session_inv i k s → b ∈ breakPointInfoList_ (debuggerClient_ s) →
  is_int32 (bpi_lineNumber b) ∧ is_int32 (bpi_columnNumber b).
Proof. intros [_ _ _ Hf _ _] Hb. rewrite Forall_forall in Hf. by apply Hf. Qed.

Lemma keeps_Client_Break : keeps Client_BreakCommand.
Proof.
  apply keeps_ses. intros s i k Hs. apply keeps_back. intros b Hb.
  destruct (session_breakpoints i k s b Hs Hb). keep.
Qed.
Lemma keeps_Client_SaveAll : keeps Client_SaveAllPossibleBreakpointsCommand.
Proof.
  apply keeps_ses. intros s i k Hs. apply keeps_back. intros b Hb.
  destruct (session_breakpoints i k s b Hs Hb). keep.
Qed.
Lemma keeps_Client_GetProperties : keeps Client_GetPropertiesCommand.
Proof.
  apply keeps_ses. intros s i k [? ? ? ? ? [Hst Hc]]. cbv zeta.
  destruct (start_ _) as [st|] eqn:E1; [|keep]. destruct (count_ _) as [n|] eqn:E2; [|keep].
  specialize (Hst _ eq_refl). specialize (Hc _ eq_refl). keep.
Qed.
Lemma keeps_SetSamplingInterval : keeps SetSamplingIntervalCommand.
Proof. apply keeps_ses. intros s i k [? ? ? ? Hi ?]. keep. Qed.
Hint Resolve keeps_Client_Break keeps_Client_SaveAll keeps_Client_GetProperties keeps_SetSamplingInterval : ark_keep.

(** A table of commands. *)
Lemma keeps_run_command table cmd : Forall (λ e : string * C (), keeps e.2) table → keeps (run_command table cmd).
Proof.
  intros Ht. unfold run_command. destruct (list_find _ table) as [[j e]|] eqn:E; [|apply session_keeps_ret].
  apply list_find_Some in E as (Hl & _ & _). apply session_keeps_bind; [|intros; apply session_keeps_ret].
  rewrite Forall_lookup in Ht. by apply (Ht j).
Qed.
Ltac table_tac := repeat first [ apply Forall_nil_2 | apply Forall_cons_2; [cbn [snd]; keep|] ].
Lemma keeps_debugger_commands cmd : keeps (Debugger_DispatcherCmd cmd).
Proof. apply keeps_run_command. unfold debugger_commands. table_tac. Qed.
Lemma keeps_runtime_commands cmd : keeps (Runtime_DispatcherCmd cmd).
Proof. apply keeps_run_command. unfold runtime_commands. table_tac. Qed.
Lemma keeps_profiler_commands cmd : keeps (Profiler_DispatcherCmd cmd).
Proof. apply keeps_run_command. unfold profiler_commands. table_tac. Qed.
Lemma keeps_heap_commands cmd arg : keeps (Heap_DispatcherCmd cmd arg).
Proof. apply session_keeps_bind; [keep|]. intros _. apply keeps_run_command. unfold heap_commands. table_tac. Qed.
Lemma keeps_test_commands cmd : keeps (Test_DispatcherCmd cmd).
Proof. apply keeps_run_command. table_tac. Qed.

(** *** Replies and events *)

Lemma keeps_PausedReply json : keeps (PausedReply json).
Proof. keep. Qed.
Lemma keeps_HandleResponse json : keeps (HandleResponse json).
Proof. keep. Qed.
Hint Resolve keeps_PausedReply keeps_HandleResponse : ark_keep.
Lemma keeps_add_variables node items n : ∀ i, keeps (add_variables node items i n).
Proof. induction n as [|n IH]; intros i; cbn [add_variables]; keep. Qed.
Hint Resolve keeps_add_variables : ark_keep.
Lemma keeps_Debugger_RecvReply json : keeps (Debugger_RecvReply json).
Proof. keep. Qed.
Lemma keeps_Runtime_RecvReply json : keeps (Runtime_RecvReply json).
Proof. keep. Qed.
Lemma keeps_Heap_RecvReply json : keeps (Heap_RecvReply json).
Proof. keep. Qed.
Lemma keeps_RecvProfilerResult json : keeps (RecvProfilerResult json).
Proof. keep. Qed.
Hint Resolve keeps_Debugger_RecvReply keeps_Runtime_RecvReply keeps_Heap_RecvReply keeps_RecvProfilerResult : ark_keep.
Lemma keeps_DispatcherReply msg : keeps (DispatcherReply msg).
Proof. keep. Qed.

End operations.
#[export] Hint Resolve keeps_show_range keeps_SendRequeSource keeps_SendRequestWatch keeps_each_watch keeps_GetListSource
  keeps_debugger_commands keeps_runtime_commands keeps_profiler_commands keeps_heap_commands keeps_test_commands
  keeps_DispatcherReply : ark_keep.
