(* ===== verification/ClientRuns.v ===== *)
(** * Runs of the command line client

    The invariant of the table of sessions, and that every command, in the selected
    session or in all, every reply and every event keeps it; then the properties of
    the client over its runs: the table of the sessions, the requests that it sends
    and that the debugger reads, and the way of a reply to the client that waits for
    it. *)

From S2P Require Import Prelude Regex Http CppLib Utils PtJson PtCodec PtTypes PtReturns Dispatcher.
From S2P Require Import ClientState ClientManagers ClientDomains ClientSessions ClientCommands ClientMain ClientProtocol.
From S2P Require Import ClientLogic.
From stdpp Require Import sorting.
Local Open Scope Z_scope.
Local Open Scope ark_scope.

Section invariant.
Context `{cj : CJson} {cjOK : CJsonOK cj} `{CastOob} `{SignedOverflow} `{ClientSocket} `{ClientEnv}.

(** ** The table *)

Definition slot (c : Client) (i : nat) (s : Session) : Prop := sessions_ c !! i = Some (Some s).

Record client_inv (c : Client) : Prop := {
  table_size : length (sessions_ c) = Z.to_nat MAX_SESSION_NUM;
  table_sessions i s : slot c i s → session_inv (Z.of_nat i) (sockInfo_ s) s;
  (** No two sessions have the same socket. *)
  table_sockets i j s t : slot c i s → slot c j t → sockInfo_ s = sockInfo_ t → i = j;
  (** The default session and the selected one exist. *)
  table_default : ∃ s, slot c 0 s;
  table_current : 0 ≤ currentSessionId_ c ∧ ∃ s, slot c (Z.to_nat (currentSessionId_ c)) s }.

(** The invariant speaks of the table only. *)
Lemma client_inv_same c c' :
  sessions_ c' = sessions_ c → currentSessionId_ c' = currentSessionId_ c → client_inv c → client_inv c'.
Proof. intros E1 E2 []. split; unfold slot in *; rewrite ?E1, ?E2; done. Qed.

Definition keepsK {A} (m : K A) : Prop := ∀ c, client_inv c → client_inv (left_in (m c)).

Lemma keepsK_ret {A} (a : A) : keepsK (m_ret a).
Proof. by intros c. Qed.
Lemma keepsK_crash {A} : keepsK (@crashK _ A).
Proof. by intros c. Qed.
Lemma keepsK_bind {A B} (f : A → K B) (m : K A) : keepsK m → (∀ a, keepsK (f a)) → keepsK (m_bind f m).
Proof.
  intros Hm Hf c Hc. specialize (Hm c Hc). unfold m_bind. destruct (m c); simpl in *; [by apply Hf|done..].
Qed.
Lemma keepsK_all {B} (f : Client → K B) : (∀ c, client_inv c → keepsK (f c)) → keepsK (m_bind f all).
Proof. intros Hf c Hc. exact (Hf c Hc c Hc). Qed.
(** Updates of the rest of the client. *)
Lemma keepsK_upd f : (∀ c, sessions_ (f c) = sessions_ c ∧ currentSessionId_ (f c) = currentSessionId_ c) → keepsK (updK f).
Proof. intros Hf c Hc. destruct (Hf c). by apply (client_inv_same c). Qed.
Lemma keepsK_show l : keepsK (showK l).
Proof. by apply keepsK_upd. Qed.

Lemma GetSessionById_slot i c s : GetSessionById i c = Some s ↔ 0 ≤ i < MAX_SESSION_NUM ∧ slot c (Z.to_nat i) s.
Proof.
  unfold GetSessionById, slot. split.
  - case_match eqn:E; [done|]. apply orb_false_iff in E as [?%Z.ltb_ge ?%Z.leb_gt]. intros Hj. split; [done|].
    destruct (sessions_ c !! Z.to_nat i) as [[t|]|]; simplify_eq/=. done.
  - intros [Hi Hs]. replace (_ || _) with false by lia. by rewrite Hs.
Qed.

(** A session is replaced by one with the same socket. *)
Lemma client_inv_session c i s s' :
  client_inv c → slot c i s → session_inv (Z.of_nat i) (sockInfo_ s) s' →
  client_inv (set_sessions (<[i := Some s']> (sessions_ c)) c).
Proof.
  intros [Hlen Hs Hsock (s0 & Hs0) (Hcur & sc & Hsc)] Hi Hs'.
  assert (Hlt : (i < length (sessions_ c))%nat) by (by eapply lookup_lt_Some).
  assert (Hslot : ∀ j t, slot (set_sessions (<[i := Some s']> (sessions_ c)) c) j t ↔ (j = i ∧ t = s') ∨ (j ≠ i ∧ slot c j t)).
  { intros j t. unfold slot. simpl. destruct (decide (j = i)) as [->|Hne].
    - rewrite list_lookup_insert_eq by done. naive_solver.
    - rewrite list_lookup_insert_ne by done. naive_solver. }
  pose proof (inv_socket _ _ _ Hs') as Hk.
  assert (Hex : ∀ j t, slot c j t → ∃ t', slot (set_sessions (<[i := Some s']> (sessions_ c)) c) j t').
  { intros j t Ht. destruct (decide (j = i)) as [->|]; [exists s'|exists t]; apply Hslot; naive_solver. }
  split; simpl; eauto.
  - by rewrite length_insert.
  - intros j t [[-> ->]|[? ?]]%Hslot; [by rewrite Hk|by apply Hs].
  - intros j l t u [[-> ->]|[? ?]]%Hslot [[-> ->]|[? ?]]%Hslot; rewrite ?Hk; intros E; try done; naive_solver.
Qed.

Lemma keepsK_in_session {A} i (missing : K A) m : keepsK missing → keeps m → keepsK (in_session i missing m).
Proof.
  intros Hmiss Hm c Hc. unfold in_session. destruct (GetSessionById i c) as [s|] eqn:E; [|by apply Hmiss].
  apply GetSessionById_slot in E as [Hi Hs]. pose proof (table_sessions c Hc _ _ Hs) as Hinv.
  specialize (Hm _ _ (s, c_io c) Hinv). destruct (m (s, c_io c)) as [a w|w|w]; simpl in *;
    (eapply client_inv_same; [..|by apply (client_inv_session c (Z.to_nat i) s w.1)]; done).
Qed.

(** *** New sessions *)

Lemma new_Session_inv i k : session_inv i k (new_Session i k).
Proof.
  split; try done. exists 1, []. split; try done. repeat constructor.
Qed.
Lemma on_socket_facts f s : facts (on_socket f s).2 = facts s.
Proof. unfold on_socket. by destruct (f (cliSocket_ s)). Qed.
Lemma open_socket_facts s : facts (open_socket s).2 = facts s.
Proof. unfold open_socket. destruct (StrToUInt _) as [[] port]; [case_match; [done|]|]; apply on_socket_facts. Qed.
Lemma CreateSocket_facts s : facts (CreateSocket s).2 = facts s.
Proof.
  unfold CreateSocket. rewrite <- (open_socket_facts s). destruct (open_socket s) as [[] s1]; simpl; [|done].
  rewrite <- (on_socket_facts ClientSendWSUpgradeReq s1). destruct (on_socket _ s1) as [[] s2]; simpl; [|done].
  rewrite <- (on_socket_facts ClientRecvWSUpgradeRsp s2). by destruct (on_socket _ s2) as [[] s3].
Qed.
Lemma Start_inv i k r s : Start (new_Session i k) = (r, s) → session_inv i k s.
Proof.
  unfold Start. intros E. pose proof (CreateSocket_facts (new_Session i k)) as Hf.
  destruct (CreateSocket (new_Session i k)) as [r' s']. simpl in Hf.
  assert (s = s') as -> by (by destruct (r' =? 0); simplify_eq). eapply session_inv_facts, new_Session_inv. exact Hf.
Qed.

(** What [free_slot] finds: the socket is new, and the place is empty. *)
Lemma free_slot_spec k l : ∀ i sid r, 0 ≤ i → i + Z.of_nat (length l) ≤ MAX_SESSION_NUM → free_slot k i sid l = Some r →
  (∀ j s, l !! j = Some (Some s) → sockInfo_ s ≠ k) ∧
  (r = sid ∨ sid = MAX_SESSION_NUM ∧ ∃ j, r = i + Z.of_nat j ∧ l !! j = Some None).
Proof.
  induction l as [|[s|] l IH]; intros i sid r Hi Hl; cbn [free_slot length] in *.
  - intros [= <-]. split; [by intros j ?; rewrite lookup_nil|by left].
  - case_bool_decide as Hk; [done|]. intros E. destruct (IH (i + 1) sid r ltac:(lia) ltac:(lia) E) as [Hn Hr]. split.
    + intros [|j] t; simpl; [by intros [= ->]|apply Hn].
    + destruct Hr as [->|[-> (j & -> & Hj)]]; [by left|right]. split; [done|]. exists (S j). split; [lia|done].
  - intros E. destruct (IH (i + 1) _ r ltac:(lia) ltac:(lia) E) as [Hn Hr]. split.
    + intros [|j] t; simpl; [done|apply Hn].
    + destruct (Z.eqb_spec sid MAX_SESSION_NUM) as [->|Hne].
      * right. split; [done|]. destruct Hr as [->|[Ei _]]; [exists 0%nat; split; [lia|done]|]. unfold MAX_SESSION_NUM in *. lia.
      * destruct Hr as [->|[Hs _]]; [by left|done].
Qed.

(** A session is put into an empty place, or an empty place stays empty. *)
Lemma client_inv_new c i s : client_inv c → sessions_ c !! i = Some None → session_inv (Z.of_nat i) (sockInfo_ s) s →
  (∀ j t, slot c j t → sockInfo_ t ≠ sockInfo_ s) → client_inv (set_sessions (<[i := Some s]> (sessions_ c)) c).
Proof.
  intros [Hlen Hs Hsock (s0 & Hs0) (Hcur & sc & Hsc)] Hi Hinv Hnew.
  assert (Hlt : (i < length (sessions_ c))%nat) by (by eapply lookup_lt_Some).
  assert (Hslot : ∀ j t, slot (set_sessions (<[i := Some s]> (sessions_ c)) c) j t ↔ (j = i ∧ t = s) ∨ (j ≠ i ∧ slot c j t)).
  { intros j t. unfold slot. simpl. destruct (decide (j = i)) as [->|Hne].
    - rewrite list_lookup_insert_eq by done. naive_solver.
    - rewrite list_lookup_insert_ne by done. naive_solver. }
  assert (Hne : ∀ j t, slot c j t → j ≠ i) by (unfold slot; intros j t Hj ->; congruence).
  split; simpl.
  - by rewrite length_insert.
  - intros j t [[-> ->]|[_ ?]]%Hslot; [done|by apply Hs].
  - intros j l t u [[-> ->]|[_ Ht]]%Hslot [[-> ->]|[_ Hu]]%Hslot E; [done|..|by eapply Hsock];
      exfalso; [eapply (Hnew l u)|eapply (Hnew j t)]; naive_solver.
  - exists s0. apply Hslot. right. eauto.
  - split; [done|]. exists sc. apply Hslot. right. eauto.
Qed.

Lemma keepsK_CreateNewSession k : keepsK (CreateNewSession k).
Proof.
  intros c Hc. unfold CreateNewSession, m_bind at 1, all. destruct (free_slot _ _ _ _) as [r|] eqn:E; [|done].
  destruct (Z.ltb_spec r MAX_SESSION_NUM) as [Hr|]; [|done].
  destruct (free_slot_spec k (sessions_ c) 0 MAX_SESSION_NUM r) as [Hnew Hslot]; [done|rewrite (table_size c Hc)|done|]; [done|].
  destruct Hslot as [->|[_ (j & -> & Hj)]]; [lia|]. unfold CreateSessionById.
  destruct (Start _) as [res s] eqn:Es. pose proof (Start_inv _ _ _ _ Es) as Hinv.
  pose proof (inv_socket _ _ _ Hinv) as Hk. rewrite Z.add_0_l in *.
  destruct (res =? 0); simpl; rewrite Nat2Z.id.
  - apply client_inv_new; [done..|by rewrite Hk|]. intros i t Ht. rewrite Hk. by eapply Hnew.
  - eapply client_inv_same; [| |exact Hc]; [|done]. simpl. by apply list_insert_id.
Qed.

(** *** Removing and selecting *)

Lemma client_inv_remove c i s cur : client_inv c → slot c i s → i ≠ 0%nat → 0 ≤ cur →
  (∃ t, slot c (Z.to_nat cur) t) → Z.to_nat cur ≠ i →
  client_inv (set_current cur (set_sessions (<[i := None]> (sessions_ c)) c)).
Proof.
  intros [Hlen Hs Hsock (s0 & Hs0) _] Hi Hi0 Hcur (sc & Hsc) Hne.
  assert (Hlt : (i < length (sessions_ c))%nat) by (by eapply lookup_lt_Some).
  assert (Hslot : ∀ j t, slot (set_current cur (set_sessions (<[i := None]> (sessions_ c)) c)) j t ↔ j ≠ i ∧ slot c j t).
  { intros j t. unfold slot. simpl. destruct (decide (j = i)) as [->|Hji].
    - rewrite list_lookup_insert_eq by done. naive_solver.
    - rewrite list_lookup_insert_ne by done. naive_solver. }
  split; simpl.
  - by rewrite length_insert.
  - intros j t [_ ?]%Hslot. by apply Hs.
  - intros j l t u [_ Ht]%Hslot [_ Hu]%Hslot. by apply Hsock.
  - exists s0. apply Hslot. split; [done|done].
  - split; [done|]. exists sc. by apply Hslot.
Qed.
Lemma client_inv_stop c i s : client_inv c → slot c i s →
  client_inv (set_sessions (<[i := Some (Stop s)]> (sessions_ c)) c).
Proof.
  intros Hc Hi. apply (client_inv_session c i s); [done..|]. eapply session_inv_facts; [|by apply (table_sessions c Hc)]. done.
Qed.

Lemma keepsK_DelSessionById i : i ≠ 0 → keepsK (DelSessionById i).
Proof.
  intros Hi c Hc. unfold DelSessionById, m_bind at 1, all. destruct (GetSessionById i c) as [s|] eqn:E; [|done].
  apply GetSessionById_slot in E as [Hr Hs]. pose proof (client_inv_stop c _ s Hc Hs) as Hst.
  set (c1 := set_sessions _ c) in Hst.
  assert (Hs1 : slot c1 (Z.to_nat i) (Stop s)).
  { unfold slot, c1. simpl. apply list_lookup_insert_eq. by eapply lookup_lt_Some. }
  assert (Hi0 : Z.to_nat i ≠ 0%nat) by lia.
  destruct (Z.eqb_spec i (currentSessionId_ c)) as [Ec|Ec]; simpl.
  - eapply client_inv_same; [| |by apply (client_inv_remove c1 (Z.to_nat i) (Stop s) 0);
      [..|apply (table_default c1 Hst)|]]; done.
  - destruct (table_current c1 Hst) as [Hcur Hex].
    eapply client_inv_same; [| |by apply (client_inv_remove c1 (Z.to_nat i) (Stop s) (currentSessionId_ c)); [..|lia]]; done.
Qed.

Lemma keepsK_SessionSwitch i : keepsK (SessionSwitch i).
Proof.
  intros c Hc. unfold SessionSwitch, m_bind at 1, all. destruct (GetSessionById i c) as [s|] eqn:E; [|done].
  apply GetSessionById_slot in E as [Hr Hs]. simpl. pose proof Hc as []. split; try done. simpl. split; [lia|by exists s].
Qed.

Lemma keepsK_for_sessions callback n : (∀ i, keepsK (callback i)) → ∀ i, keepsK (for_sessions callback i n).
Proof.
  intros Hcb. induction n as [|n IH]; intros i; [apply keepsK_ret|]. cbn [for_sessions].
  apply keepsK_all. intros c _. apply keepsK_bind; [|done]. destruct (GetSessionById i c); [|apply keepsK_ret].
  apply keepsK_bind; [apply keepsK_show|done].
Qed.

End invariant.

(** ** Automation *)

Create HintDb ark_keepK discriminated.
#[export] Hint Constants Opaque : ark_keepK.
#[export] Hint Resolve keepsK_ret keepsK_crash keepsK_show keepsK_CreateNewSession keepsK_SessionSwitch keepsK_DelSessionById : ark_keepK.
#[export] Hint Extern 1 (_ ≠ 0) => apply Z.eqb_neq; assumption : ark_keepK.
Ltac keepK_step :=
  lazymatch goal with
  | |- keepsK (m_bind _ all) => apply keepsK_all; intros ? ?
  | |- keepsK (m_bind _ _) => apply keepsK_bind; [|intros ?]
  | |- keepsK (in_session _ _ _) => apply keepsK_in_session
  | |- keepsK (updK _) => apply keepsK_upd; by intros ?
  | |- keepsK (match ?x with _ => _ end) => destruct x eqn:?
  | |- keepsK ?m => first [ solve [eauto with ark_keepK] | let h := head_of m in unfold h ]
  | |- keeps _ => keep_step
  end; cbv beta.
Ltac keepK := repeat keepK_step.

(** ** Commands *)

Section commands.
Context `{cj : CJson} {cjOK : CJsonOK cj} `{CastOob} `{SignedOverflow} `{ClientSocket} `{ClientEnv}.

Lemma keeps_AddBreakPointInfo url n column :
  is_int32 (int32_add n (-1)) → is_int32 column → keeps (AddBreakPointInfo url n column).
Proof.
  intros Hn Hcol. apply keeps_upd. intros i k s Hs. pose proof Hs as [? ? _ ? ? []].
  apply (session_inv_data i k s); [done..| |done|done|done]. simpl. by apply Forall_app_2; [|apply Forall_singleton].
Qed.
Lemma int32_pred n : 0 ≤ n < 2 ^ 31 → int32_add n (-1) = n - 1 ∧ is_int32 (n - 1).
Proof. intros Hn. unfold int32_add, is_int32. replace (_ && _) with true by lia. split; [done|lia]. Qed.
Lemma keeps_SetSamplingInterval_value n : is_int32 n → keeps (SetSamplingInterval n).
Proof. intros Hn. apply keeps_upd. intros i k s Hs. pose proof Hs as [? ? _ ? ? []]. by apply (session_inv_data i k s). Qed.
Lemma keeps_SetStartIndex n : is_int32 n → keeps (SetStartIndex n).
Proof. intros Hn. apply keeps_upd. intros i k s Hs. pose proof Hs as [? ? _ ? ? []]. apply (session_inv_data i k s); simpl; auto with ark. Qed.
Lemma keeps_SetGroupCount n : is_int32 n → keeps (SetGroupCount n).
Proof. intros Hn. apply keeps_upd. intros i k s Hs. pose proof Hs as [? ? _ ? ? []]. apply (session_inv_data i k s); simpl; auto with ark. Qed.
Lemma keeps_with_stoi {A} t (f : Z → C A) : (∀ v, stoi t = Some v → keeps (f v)) → keeps (with_stoi t f).
Proof. intros Hf. unfold with_stoi. destruct (stoi t); [by apply Hf|apply keeps_crash]. Qed.
Lemma keeps_break_exists url line l f : (∀ b, keeps (f b)) → keeps (break_exists url line l f).
Proof. intros Hf. induction l as [|b l IH]; cbn [break_exists]; keep. Qed.

Lemma keepsK_BreakCommand cmd sid args : keepsK (BreakCommand cmd sid args).
Proof.
  apply keepsK_in_session; [apply keepsK_ret|]. destruct args as [|url [|line [|]]]; try (keep; fail).
  destruct (negb (Utils.IsNumber line)) eqn:En; [keep|]. apply negb_false_iff in En.
  apply keeps_ses. intros s i k _. apply keeps_break_exists. intros []; [keep|]. apply keeps_with_stoi. intros v Hv.
  destruct (number_stoi line En) as (v' & Hv' & Hb); [by intros ->|]. simplify_eq.
  destruct (int32_pred v ltac:(lia)) as [Ep Hp]. apply session_keeps_bind; [apply keeps_AddBreakPointInfo; [by rewrite Ep|done]|].
  intros _. keep.
Qed.
Lemma keepsK_DeleteCommand cmd sid args : keepsK (DeleteCommand cmd sid args).
Proof.
  apply keepsK_in_session; [apply keepsK_ret|]. destruct args as [|text [|]]; try (keep; fail).
  destruct (negb (Utils.IsNumber text)); [keep|]. apply keeps_with_stoi. intros v Hv. cbv zeta. apply keeps_ses. intros s i k _.
  case_match; [|keep]. apply session_keeps_bind; [by apply keeps_AddBreakPointInfo|]. intros _. keep.
Qed.

Hint Extern 2 (is_int32 ?z) => match goal with E : stoi _ = Some z |- _ => exact (stoi_int32 _ _ E) end : ark_keep.
Hint Resolve keeps_SetStartIndex keeps_SetGroupCount keeps_SetSamplingInterval_value atoi_int32 : ark_keep.
Lemma keeps_print_arguments args m : print_arguments args = Some m → keeps m.
Proof. unfold print_arguments. intros E. repeat case_match; simplify_eq; keep. Qed.
Lemma keepsK_PrintCommand cmd sid args : keepsK (PrintCommand cmd sid args).
Proof. keepK. by eapply keeps_print_arguments. Qed.
Lemma keepsK_CpuProfileCommand cmd sid args : keepsK (CpuProfileCommand cmd sid args).
Proof. keepK. Qed.
Lemma keepsK_SessionDelCommand cmd sid args : keepsK (SessionDelCommand cmd sid args).
Proof. keepK. Qed.
Hint Resolve keepsK_BreakCommand keepsK_DeleteCommand keepsK_PrintCommand keepsK_CpuProfileCommand keepsK_SessionDelCommand : ark_keepK.

(** Every command of the map. *)
Lemma keepsK_commandMap e sid args : e ∈ commandMap_ → keepsK (e.2 sid args).
Proof.
  unfold commandMap_, command_map, debugger_command_map, other_command_map. cbn [app]. intros He.
  repeat (apply elem_of_cons in He as [->|He]; [cbn [snd]; keepK|]). by apply elem_of_nil in He.
Qed.
Lemma keepsK_ExecCommand words sid : keepsK (ExecCommand words sid).
Proof.
  destruct words as [|cmd args]; [apply keepsK_crash|]. cbn [ExecCommand]. unfold OnCommand.
  destruct (list_find _ commandMap_) as [[j e]|] eqn:E; [|keepK].
  apply list_find_Some in E as (Hl & _). apply keepsK_commandMap. by eapply list_elem_of_lookup_2.
Qed.
Hint Resolve keepsK_ExecCommand : ark_keepK.

(** ** Events *)

Lemma keepsK_run_line words : keepsK (run_line words).
Proof. keepK; apply keepsK_for_sessions; intros i; keepK. Qed.
Hint Resolve keepsK_run_line : ark_keepK.
Lemma keepsK_process_queue n : keepsK (process_queue n).
Proof. induction n as [|n IH]; cbn [process_queue]; keepK. Qed.
Hint Resolve keepsK_process_queue : ark_keepK.
Lemma keepsK_handle e : keepsK (handle e).
Proof. destruct e; keepK. Qed.
Lemma keepsK_handle_all es : keepsK (handle_all es).
Proof. induction es as [|e es IH]; [apply keepsK_ret|]. apply keepsK_bind; [apply keepsK_handle|done]. Qed.

(** The first session. *)
Lemma default_session_inv k io : ∀ r c, CreateDefaultSession k (new_Client io) = Ret r c →
  (r = 0 ∧ client_inv c) ∨ (r = -1 ∧ ∀ i s, ¬ slot c i s).
Proof.
  intros r c. unfold CreateDefaultSession, CreateSessionById. destruct (Start _) as [res s] eqn:Es.
  pose proof (Start_inv _ _ _ _ Es) as Hinv. destruct (res =? 0); simpl; intros [= <- <-]; [left|right]; (split; [done|]).
  - assert (Hslot : ∀ i t, slot (set_sessions (<[0%nat := Some s]> (replicate 8 None)) (new_Client io)) i t → i = 0%nat ∧ t = s).
    { intros [|i] t; unfold slot; simpl; [by intros [= ->]|]. do 8 (destruct i as [|i]; [done|]). done. }
    split; simpl; try done.
    + intros i t [-> ->]%Hslot. by rewrite (inv_socket _ _ _ Hinv).
    + by intros i j t u [-> ->]%Hslot [-> ->]%Hslot.
    + by exists s.
    + split; [done|]. by exists s.
  - intros i t. unfold slot. simpl. do 8 (destruct i as [|i]; [done|]). done.
Qed.

Lemma Main_inv k server es io :
  let c := left_in (Main k server es (new_Client io)) in client_inv c ∨ ∀ i s, ¬ slot c i s.
Proof.
  intros c'. assert (Ec : c' = left_in (Main k server es (new_Client io))) by done. clearbody c'.
  unfold Main, m_bind at 1 in Ec. destruct (CreateDefaultSession k (new_Client io)) as [r c|c|c] eqn:E.
  2,3: unfold CreateDefaultSession, CreateSessionById in E; destruct (Start _) as [res s]; by destruct (res =? 0).
  destruct (default_session_inv k io r c E) as [[-> Hc]|[-> Hc]]; simpl in Ec; [left|right; by subst].
  assert (Hk : keepsK (updK (λ c, mkClient (sessions_ c) (currentSessionId_ c) (messageQue_ c) server (g_inputStr c) (tcp_out c) (c_io c)) ;;;
    handle_all es ;;; m_ret 0)) by (repeat (apply keepsK_bind; [|intros _]); [by apply keepsK_upd|apply keepsK_handle_all|apply keepsK_ret]).
  rewrite Ec. by apply Hk.
Qed.

End commands.

From S2P Require Import PtSchema.

Section runs.
Context `{cj : CJson} {cjOK : CJsonOK cj} {txt : CJsonText cj} `{CastOob} `{SignedOverflow} `{ClientSocket} `{ClientEnv}.

(** ** Sessions *)

(** C13: after any sequence of input lines, messages and events, even one that ends
    the client, either no session could be opened, or the table has its eight
    places, a session stands at its own number, no two sessions use the same socket,
    and the default session and the selected session exist. *)
Theorem client_sessions (k : bytes) (server : bool) (es : list client_event) (io : ClientIO) :
  let c := left_in (Main k server es (new_Client io)) in
  (∀ i s, ¬ slot c i s) ∨
  length (sessions_ c) = 8%nat ∧ (∀ i s, slot c i s → s_id s = Z.of_nat i) ∧
  (∀ i j s t, slot c i s → slot c j t → sockInfo_ s = sockInfo_ t → i = j) ∧
  is_Some (GetSessionById 0 c) ∧ is_Some (GetCurrentSession c).
Proof.
  intros c. destruct (Main_inv k server es io) as [Hc|Hc]; [right|by left]. fold c in Hc.
  pose proof Hc as [Hlen Hs Hsock (s0 & Hs0) (Hcur & sc & Hsc)]. split_and!; [done| |done|exists s0|exists sc].
  - intros i s Hi. by apply (inv_id _ _ _ (Hs i s Hi)).
  - by apply GetSessionById_slot.
  - apply GetSessionById_slot. split; [|done]. apply lookup_lt_Some in Hsc. rewrite Hlen in Hsc. unfold MAX_SESSION_NUM in *. lia.
Qed.

(** ** Requests *)

Lemma request_text_accepted r : request_ok r → 1 ≤ rq_number r → rq_number r < 2 ^ 31 →
  accepted (rq_number r) (rq_method r) (request_text r).
Proof.
  intros (_ & fs & Hp & Hr) Hn Hb. unfold request_text. rewrite wrap_small by lia. apply (request_accepted _ _ _ fs); [lia|done..].
Qed.

(** C4: the messages that a session has sent, in whatever run, have growing
    numbers, and each of them (with a number that the debugger can represent) is
    read by the debugger as the request it is meant to be: it is valid and carries
    its number and method. Unless it is Test.success or Test.fail, which the
    dispatcher handles without an agent, the agent of its domain has the method, and
    accepts the parameters, for evaluateOnCallFrame and getProperties under the
    condition that the identifier of the frame or object, which the client repeats as
    it was given, is the text of a 32-bit integer. *)
Theorem client_requests (k : bytes) (server : bool) (es : list client_event) (io : ClientIO) (i : nat) (s : Session) :
  slot (left_in (Main k server es (new_Client io))) i s →
  ∃ requests : list (Z * string),
    StronglySorted Z.lt requests.*1 ∧ Forall (λ r, 1 ≤ r.1) requests ∧
    Forall2 (λ r text, r.1 < 2 ^ 31 → accepted r.1 r.2 text) requests (sent_ s).
Proof.
  intros Hi. destruct (Main_inv k server es io) as [Hc|Hc]; [|by destruct (Hc i s)].
  destruct (inv_link _ _ _ (table_sessions _ Hc i s Hi)) as (n & rqs & [_ Hsent [Hsort Hb] Hok _]).
  exists ((λ r, (rq_number r, rq_method r)) <$> rqs). rewrite <- list_fmap_compose, Hsent. split_and!; [done|..].
  - apply Forall_fmap. eapply Forall_impl; [exact Hb|]. simpl. lia.
  - apply Forall2_fmap_2, Forall_Forall2_diag. apply Forall_forall. intros r Hr Hlt. simpl in Hlt |- *.
    rewrite Forall_forall in Hb, Hok. apply request_text_accepted; [by apply Hok|by apply Hb|done].
Qed.

(** ** Replies *)

(** A reply with a number and without a method. *)
Definition is_reply (msg : bytes) (id : Z) : Prop :=
  is_int32 id ∧ ∃ fs, rep (Parse (c_str msg)) (JObj fs) ∧ get_item (JObj fs) "id" = Some (jint id) ∧ get_item (JObj fs) "method" = None.

Lemma DispatcherReply_reply msg id s io : is_reply msg id → 0 ≤ id →
  DispatcherReply msg (s, io) =
    route (default [] (idDomainMap_ s !! id)) (Parse (c_str msg)) (set_domains (delete id (idDomainMap_ s)) s, io).
Proof.
  intros (Hid & fs & Hj & Hi & Hm) Hpos. unfold DispatcherReply. set (j := Parse (c_str msg)) in *.
  assert (Ho : IsObject j = true) by (destruct Hj as (n & -> & Hv); unfold IsObject; by rewrite IsObject_view, Hv).
  rewrite Ho. unfold GetInt. rewrite (GetDouble_view j _ "id" Hj), Hi. cbn [jint map_result negb].
  rewrite double_int32 by done. unfold reply_domain. rewrite (GetString_rep j _ "method" Hj), Hm.
  rewrite wrap_small by (unfold is_int32 in Hid; lia). done.
Qed.

(** A number that nobody waits for. *)
Lemma forgotten s id : idDomainMap_ s !! id = None → set_domains (delete id (idDomainMap_ s)) s = s.
Proof. intros Hn. unfold set_domains. rewrite delete_id by done. by destruct s. Qed.

(** The clients of the domains: who receives a reply. The client of the domain "Test"
    has nothing to receive. *)
Definition domain_clients : list (string * (PtJson → C ())) :=
  [("HeapProfiler", Heap_RecvReply); ("Profiler", RecvProfilerResult); ("Runtime", Runtime_RecvReply);
   ("Debugger", Debugger_RecvReply); ("Test", λ _, m_ret ())]%string.

(** The parts of a name in front of a dot. *)
Fixpoint dotted_prefixes (m : string) : list string :=
  match m with
  | EmptyString => []
  | String a m' => (if Ascii.eqb a (Ascii.ascii_of_N 46) then [EmptyString] else []) ++ (String a <$> dotted_prefixes m')
  end.

Lemma prefix_dotted d : ∀ m, String.prefix (String.append d ".") m = true → d ∈ dotted_prefixes m.
Proof.
  induction d as [|a d IH]; intros [|b m]; try done.
  - change (String.append "" ".") with (String (Ascii.ascii_of_N 46) ""). cbn [String.prefix dotted_prefixes].
    destruct (Ascii.ascii_dec (Ascii.ascii_of_N 46) b) as [<-|]; [|done]. intros _. apply elem_of_app. left. by left.
  - change (String.append (String a d) ".") with (String a (String.append d ".")). cbn [String.prefix dotted_prefixes].
    destruct (Ascii.ascii_dec a b) as [<-|]; [|done]. intros Hp%IH. apply elem_of_app. right. by apply list_elem_of_fmap_2.
Qed.

Definition five_domains : list string := fst <$> domain_clients.
Lemma protocol_domain m fs : protocol m fs → ∀ d, d ∈ dotted_prefixes m → d ∈ five_domains.
Proof.
  assert (Hall : forallb (λ m, forallb (λ d, bool_decide (d ∈ five_domains)) (dotted_prefixes m)) plain_methods = true) by by vm_compute.
  rewrite forallb_forall in Hall.
  intros Hp d Hd. assert (Hb : forallb (λ d, bool_decide (d ∈ five_domains)) (dotted_prefixes m) = true).
  { destruct Hp; [by apply Hall, list_elem_of_In|by vm_compute..]. }
  rewrite forallb_forall in Hb. apply list_elem_of_In in Hd. by apply Hb, bool_decide_eq_true in Hd.
Qed.

Lemma answered_domain r : request_ok r →
  rq_domain r ∈ five_domains ∧
  (String.prefix (String.append (rq_domain r) ".") (rq_method r) = true ∨ rq_domain r = "Debugger"%string ∧ rq_method r = "Runtime.getProperties"%string).
Proof.
  intros (Ha & fs & Hp & _). unfold answers_to in Ha. apply orb_true_iff in Ha as [Ha|[Hd%String.eqb_eq Hm%String.eqb_eq]%andb_true_iff].
  - split; [|by left]. by apply (protocol_domain _ _ Hp), prefix_dotted.
  - split; [|by right]. rewrite Hd. by vm_compute; do 3 right; left.
Qed.

Lemma route_client domain receive json x : (domain, receive) ∈ domain_clients → route (str domain) json x = receive json x.
Proof.
  unfold domain_clients. intros Hin. rewrite list_elem_of_In in Hin. cbn [In] in Hin. by destruct_or! Hin; injection Hin as <- <-.
Qed.

(** C18: a number that a session waits for is the number of a request it has sent,
    kept under the domain that stands before the dot of the request's method, or
    under "Debugger" for the properties of a watched object. A reply with that
    number is handed to the client of this domain and to no other, once: the number
    is forgotten first, and a reply with a number that is not waited for changes
    nothing and shows nothing. Replies have a number that is not negative and no
    method. *)
Theorem client_replies (k : bytes) (server : bool) (es : list client_event) (io io' : ClientIO) (i : nat) (s : Session)
    (id : Z) (d msg : bytes) :
  slot (left_in (Main k server es (new_Client io))) i s →
  idDomainMap_ s !! id = Some d → is_reply msg id → 0 ≤ id →
  (∃ number domain method text receive, d = str domain ∧ wrap 32 number = id ∧ text ∈ sent_ s ∧
     (number < 2 ^ 31 → accepted number method text) ∧
     (String.prefix (String.append domain ".") method = true ∨ domain = "Debugger"%string ∧ method = "Runtime.getProperties"%string) ∧
     (domain, receive) ∈ domain_clients ∧
     DispatcherReply msg (s, io') = receive (Parse (c_str msg)) (set_domains (delete id (idDomainMap_ s)) s, io')) ∧
  (∀ s', idDomainMap_ s' !! id = None → DispatcherReply msg (s', io') = Ret () (s', io')).
Proof.
  intros Hi Hd Hr Hpos. destruct (Main_inv k server es io) as [Hc|Hc]; [|by destruct (Hc i s)].
  destruct (inv_link _ _ _ (table_sessions _ Hc i s Hi)) as (n & rqs & [_ Hsent [_ Hb] Hok Hdom]). split.
  - destruct (Hdom id d Hd) as (r & Hin & Hw & Hs). rewrite Forall_forall in Hb, Hok.
    destruct (answered_domain r (Hok r Hin)) as [Hfive Hname]. apply list_elem_of_fmap in Hfive as ([dom receive] & Hdom' & Hc').
    cbn in Hdom'. exists (rq_number r), (rq_domain r), (rq_method r), (request_text r), receive. split_and!; [done|done|..].
    + rewrite Hsent. by apply list_elem_of_fmap_2.
    + intros Hlt. apply request_text_accepted; [by apply Hok|by apply Hb|done].
    + done.
    + by rewrite Hdom'.
    + rewrite (DispatcherReply_reply msg id), Hd by done. cbn [default]. rewrite <- Hs, Hdom'. by apply route_client.
  - intros s' Hn. rewrite (DispatcherReply_reply msg id), Hn by done. simpl. by rewrite forgotten.
Qed.

End runs.
