(* ===== verification/ClientDebugging.v ===== *)
(** * Breakpoints from the command line

    A breakpoint on its way: the command "break" reaches the debugger as the request
    for that line, the reply is kept under the name that the debugger gave it, and
    "delete" sends this name back, which the debugger reads as the same line, column
    and file. *)

From S2P Require Import Prelude Regex Http CppLib Utils PtJson PtCodec PtSchema PtTypes PtParams PtReturns Dispatcher.
From S2P Require Import ClientState ClientManagers ClientDomains ClientSessions ClientCommands ClientMain ClientProtocol.
From S2P Require Import ClientLogic ClientRuns.
Local Open Scope Z_scope.
Local Open Scope ark_scope.

Section debugging.
Context `{cj : CJson} {cjOK : CJsonOK cj} {txt : CJsonText cj} `{CastOob} `{SignedOverflow} `{ClientSocket} `{ClientEnv}.

(** ** One request *)

(** The session after a request could be sent. *)
Definition sent_session (domain : string) (text : bytes) (sk : socket) (s : Session) : Session :=
  let s1 := set_link sk (sent_ s ++ [text]) (set_messageId (wrap 32 (messageId_ s + 1)) s) in
  set_domains (match idDomainMap_ s !! messageId_ s with
               | Some _ => idDomainMap_ s
               | None => <[messageId_ s := str domain]> (idDomainMap_ s)
               end) s1.
Definition next_text (m : string) (params : PtJson) (s : Session) : bytes := Stringify (request_json (messageId_ s) m params).

Lemma debugger_request_sent m params s io sk :
  SendReply (next_text m params s) (cliSocket_ s) = (true, sk) →
  debugger_request m params (s, io) = Ret () (sent_session "Debugger" (next_text m params s) sk s, io).
Proof.
  intros E. unfold debugger_request, SendRequest, GetMessageId, ClientSendReq, m_bind, ses, upd, m_ret. simpl.
  unfold next_text in E. rewrite E. done.
Qed.

(** A command of one session. *)
Lemma in_session_ret {A} sid (missing : K A) (m : C A) c s a s' io' :
  GetSessionById sid c = Some s → m (s, c_io c) = Ret a (s', io') →
  ∃ c', in_session sid missing m c = Ret a c' ∧ GetSessionById sid c' = Some s' ∧ c_io c' = io'.
Proof.
  intros Hs Hm. unfold in_session. rewrite Hs, Hm. eexists. split; [done|]. split; [|done].
  apply GetSessionById_slot in Hs as [Hi Hs]. apply GetSessionById_slot. split; [done|]. unfold slot in *. simpl.
  apply list_lookup_insert_eq. by eapply lookup_lt_Some.
Qed.

Ltac in_session_tac Hin :=
  match goal with |- context [in_session ?sid ?missing ?m ?c] => pose proof (λ s a s' io', in_session_ret sid missing m c s a s' io') as Hin end.

(** ** Breakpoints that are known *)

Definition known_at (url : bytes) (n : Z) (b : Breaklocation) : bool :=
  bool_decide (bl_url b = url) && match stoi (bl_lineNumber b) with Some v => int32_add v 1 =? n | None => false end.
Lemma break_exists_spec url line n l k : stoi line = Some n → Forall (λ b, is_Some (stoi (bl_lineNumber b))) l →
  break_exists url line l k = k (existsb (known_at url n) l).
Proof.
  intros Hn Hl. induction Hl as [|b l [v Hv] _ IH]; [done|]. cbn [break_exists existsb]. unfold known_at at 1.
  case_bool_decide; [|done]. unfold with_stoi. rewrite Hv, Hn. by destruct (int32_add v 1 =? n).
Qed.

(** What is kept of the reply for a breakpoint. *)
Definition location_of (d : BreakpointDetails) : Breaklocation :=
  mkBreaklocation (BreakpointDetails_ToString d) (bd_url_ d) (to_string (bd_line_ d)) (to_string (bd_column_ d)).

(** ** The command "break" *)

Lemma dispatch_break : Debugger_DispatcherCmd (str "break") = (Client_BreakCommand ;;; m_ret true).
Proof. reflexivity. Qed.
Lemma dispatch_delete : Debugger_DispatcherCmd (str "delete") = (Client_DeleteCommand ;;; m_ret true).
Proof. reflexivity. Qed.

Definition break_params (url : bytes) (n : Z) : PtJson :=
  CreateObject ▷ addI "columnNumber" 0 ▷ addI "lineNumber" (n - 1) ▷ addS "url" url.
Lemma break_params_rep url n : rep (break_params url n)
  (JObj [("columnNumber"%string, jint 0); ("lineNumber"%string, jint (n - 1)); ("url"%string, JStr (c_str url))]).
Proof. eapply rep_as; [params_tac|reflexivity]. Qed.

(** What the debugger reads. *)
Lemma break_read url n p : is_int32 (n - 1) →
  rep p (JObj [("columnNumber"%string, jint 0); ("lineNumber"%string, jint (n - 1)); ("url"%string, JStr (c_str url))]) →
  SetBreakpointByUrlParams_Create p = Created (mkSetBreakpointByUrlParams (n - 1) (Some (c_str url)) None None (Some 0) None).
Proof.
  intros Hn Hp. unfold SetBreakpointByUrlParams_Create, GetInt.
  rewrite !(GetDouble_view p _ _ Hp), !(GetString_rep p _ _ Hp).
  change (get_item _ "lineNumber") with (Some (jint (n - 1))). change (get_item _ "columnNumber") with (Some (jint 0)).
  change (get_item _ "url") with (Some (JStr (c_str url))). change (get_item _ "urlRegex") with (@None jval).
  change (get_item _ "scriptHash") with (@None jval). change (get_item _ "condition") with (@None jval).
  cbn [jint map_result]. rewrite !double_int32 by done. reflexivity.
Qed.

(** "break url n" for a line that has no breakpoint yet sends one message, which
    the debugger reads as a valid request with the next number, for line n - 1 of
    that file and column 0; for a line that has one, nothing is sent and the command
    fails. *)
Theorem break_command (c : Client) (sid : Z) (s : Session) (url line : bytes) (n : Z) (sk : socket) :
  GetSessionById sid c = Some s → 0 ≤ messageId_ s < 2 ^ 31 →
  Utils.IsNumber line = true → stoi line = Some n → Forall (λ b, is_Some (stoi (bl_lineNumber b))) (breaklist_ s) →
  SendReply (next_text "Debugger.setBreakpointByUrl" (break_params url n) s) (cliSocket_ s) = (true, sk) →
  if existsb (known_at url n) (breaklist_ s)
  then ∃ c', BreakCommand "break" sid [url; line] c = Ret ERR_FAIL c' ∧ GetSessionById sid c' = Some s
  else ∃ c' s' text domain method p,
    BreakCommand "break" sid [url; line] c = Ret ERR_OK c' ∧ GetSessionById sid c' = Some s' ∧
    sent_ s' = sent_ s ++ [text] ∧ breaklist_ s' = breaklist_ s ∧
    new_DispatchRequest text = mkDispatchRequest (messageId_ s) domain method p RC_OK ∧
    domain ++ str "." ++ method = str "Debugger.setBreakpointByUrl" ∧
    SetBreakpointByUrlParams_Create p = Created (mkSetBreakpointByUrlParams (n - 1) (Some (c_str url)) None None (Some 0) None).
Proof.
  intros Hs Hid Hnum Hn Hl Hsk.
  assert (Hb : 0 ≤ n < 10 ^ 9) by (destruct (number_stoi line Hnum) as (v & Hv & ?); [by intros ->|by simplify_eq]).
  destruct (int32_pred n ltac:(lia)) as [Ep Hp]. unfold BreakCommand, of_session. rewrite Hnum. cbn [negb].
  destruct (existsb _ _) eqn:Ex.
  - eapply (in_session_ret sid _ _ c s) in Hs as (c' & E & Hc' & _); [by exists c'|]. unfold m_bind at 1, ses. cbn [fst].
    rewrite (break_exists_spec url line n) by done. rewrite Ex. reflexivity.
  - in_session_tac Hin. edestruct Hin as (c' & E & Hc' & _); [exact Hs|..].
    { unfold m_bind at 1, ses. cbn [fst]. rewrite (break_exists_spec url line n), Ex by done.
      unfold with_stoi. rewrite Hn. unfold finish_debugger. rewrite dispatch_break. unfold Client_BreakCommand.
      unfold AddBreakPointInfo, upd_debugger, m_bind, upd, ses. cbn [fst snd]. unfold back.
      cbn [debuggerClient_ set_debugger breakPointInfoList_]. rewrite last_snoc. cbn [bpi_columnNumber bpi_lineNumber bpi_url].
      rewrite Ep. erewrite debugger_request_sent by exact Hsk. reflexivity. }
    destruct (request_read (messageId_ s) "Debugger.setBreakpointByUrl" (break_params url n) _ Hid
      (PrSetBreakpoint 0 (n - 1) url ltac:(done) Hp) (break_params_rep url n)) as (domain & method & p & Er & Hd & _ & Hrep).
    eexists c', _, _, domain, method, p. split_and!; [exact E|exact Hc'|reflexivity|reflexivity|exact Er|exact Hd|].
    by apply break_read.
Qed.

(** ** The reply *)

Lemma in_set_colon c : in_set (str ":") c = bool_decide (c = COLON).
Proof. unfold in_set. apply bool_decide_ext. change (str ":") with [COLON]. by rewrite list_elem_of_singleton. Qed.
Lemma no_colon_run (w : bytes) : COLON ∉ w → Forall (λ c, in_set (str ":") c = false) w.
Proof. intros Hw. apply Forall_forall. intros c Hc. rewrite in_set_colon. apply bool_decide_eq_false_2. by intros ->. Qed.
Lemma tokens_colon w rest : COLON ∉ w → w ≠ [] → tokens (str ":") (w ++ [COLON] ++ rest) [] = w :: tokens (str ":") rest [].
Proof.
  intros Hw Hne. rewrite tokens_run by by apply no_colon_run. cbn [app tokens]. rewrite in_set_colon, bool_decide_eq_true_2 by done.
  by rewrite decide_False.
Qed.

(** The name of a breakpoint, cut at its colons. *)
Lemma split_breakpoint_id d : is_int32 (bd_line_ d) → is_int32 (bd_column_ d) → COLON ∉ bd_url_ d → bd_url_ d ≠ [] →
  Z.of_nat (length (BreakpointDetails_ToString d)) < npos →
  SplitString (BreakpointDetails_ToString d) (str ":") = [str "id"; to_string (bd_line_ d); to_string (bd_column_ d); bd_url_ d].
Proof.
  destruct d as [l k url]. cbn [bd_line_ bd_column_ bd_url_]. intros Hl Hk Hu Hne Hlen.
  assert (Hnum : ∀ z, is_int32 z → COLON ∉ to_string z ∧ to_string z ≠ []).
  { intros z Hz. split; [apply COLON_not_in_number; unfold is_int32 in Hz; lia|].
    intros E. pose proof (StrToInt32_to_string z Hz) as Es. rewrite E in Es. done. }
  rewrite split_string_tokens; [|done|by apply (bool_decide_unpack _); vm_compute].
  unfold BreakpointDetails_ToString. cbn [bd_line_ bd_column_ bd_url_].
  change (str "id:") with (str "id" ++ [COLON]). rewrite <- app_assoc.
  destruct (Hnum l Hl), (Hnum k Hk). rewrite tokens_colon, tokens_colon, tokens_colon; [|done..| |done].
  - rewrite <- (app_nil_r url) at 1. rewrite tokens_run by by apply no_colon_run. cbn [tokens]. by rewrite decide_False.
  - by apply (bool_decide_unpack _); vm_compute.
Qed.

(** The message that confirms a breakpoint. *)
Definition confirms (msg : bytes) (id : Z) (d : BreakpointDetails) : Prop :=
  ∃ fs rs, rep (Parse (c_str msg)) (JObj fs) ∧ get_item (JObj fs) "id" = Some (jint id) ∧ get_item (JObj fs) "method" = None ∧
    get_item (JObj fs) "result" = Some (JObj rs) ∧ get_item (JObj rs) "scriptSource" = None ∧
    get_item (JObj rs) "breakpointId" = Some (JStr (BreakpointDetails_ToString d)).
Definition details_ok (d : BreakpointDetails) : Prop :=
  is_int32 (bd_line_ d) ∧ is_int32 (bd_column_ d) ∧ COLON ∉ bd_url_ d ∧ bd_url_ d ≠ [] ∧ nul_free (bd_url_ d) ∧
  Z.of_nat (length (BreakpointDetails_ToString d)) < npos.

Lemma confirmed msg id d s io : confirms msg id d → 0 ≤ id < 2 ^ 31 → details_ok d → idDomainMap_ s !! id = Some (str "Debugger") →
  DispatcherReply msg (s, io) =
    Ret () (set_breaklist (breaklist_ s ++ [location_of d]) (set_domains (delete id (idDomainMap_ s)) s), io).
Proof.
  intros (fs & rs & Hj & Hi & Hm & Hr & Hss & Hb) Hid (Hl & Hk & Hc & Hu & _ & Hlen) Hp. unfold DispatcherReply.
  set (j := Parse (c_str msg)) in *.
  assert (Ho : IsObject j = true) by (destruct Hj as (n & -> & Hv); unfold IsObject; by rewrite IsObject_view, Hv).
  assert (Hint : GetInt j "id" = SUCCESS id).
  { unfold GetInt. rewrite (GetDouble_view j _ "id" Hj), Hi. cbn [jint map_result]. by rewrite double_int32 by (unfold is_int32; lia). }
  assert (Hmeth : GetString j "method" = NOT_EXIST) by (by rewrite (GetString_rep j _ "method" Hj), Hm).
  pose proof (GetObject_rep j _ "result" Hj) as Hres. rewrite Hr in Hres. destruct Hres as (q & Hq & Hrep).
  rewrite Ho, Hint. unfold reply_domain. rewrite Hmeth. rewrite wrap_small by lia.
  unfold GetDomainById, RemoveDomainById, m_bind, ses, upd, m_ret. simpl. rewrite Hp. cbn [default].
  unfold route. rewrite !bool_decide_eq_false_2 by done. rewrite bool_decide_eq_true_2 by done.
  unfold Debugger_RecvReply. rewrite Ho, Hmeth. cbn [negb event_name].
  change (event_name []) with (@nil Z). rewrite !bool_decide_eq_false_2 by done.
  unfold HandleResponse. rewrite Hq, Hint. cbn [read]. rewrite !(GetString_rep q _ _ Hrep), Hss, Hb.
  unfold Createbreaklocation. rewrite Ho, Hq. cbn [negb read]. rewrite (GetString_rep q _ _ Hrep), Hb. cbn [read].
  rewrite split_breakpoint_id by done. reflexivity.
Qed.

(** ** The command "delete" *)

Definition delete_params (breakpointId : bytes) : PtJson := CreateObject ▷ addS "breakpointId" breakpointId.
Lemma delete_params_rep b : rep (delete_params b) (JObj [("breakpointId"%string, JStr (c_str b))]).
Proof. eapply rep_as; [params_tac|reflexivity]. Qed.
Lemma delete_read b p : rep p (JObj [("breakpointId"%string, JStr (c_str b))]) →
  RemoveBreakpointParams_Create p = Created (mkRemoveBreakpointParams (c_str b)).
Proof. intros Hp. unfold RemoveBreakpointParams_Create. by rewrite (GetString_rep p _ _ Hp). Qed.
Lemma id_nul_free d : details_ok d → nul_free (BreakpointDetails_ToString d).
Proof.
  intros (Hl & Hk & _ & _ & Hn & _). unfold nul_free, BreakpointDetails_ToString. rewrite !not_elem_of_app.
  pose proof (to_string_nul_free (bd_line_ d) ltac:(unfold is_int32 in Hl; lia)) as H1'.
  pose proof (to_string_nul_free (bd_column_ d) ltac:(unfold is_int32 in Hk; lia)) as H2'.
  assert (Hc : 0 ∉ [COLON]) by by apply (bool_decide_unpack _); vm_compute.
  split; [by apply (bool_decide_unpack _); vm_compute|]. exact (conj H1' (conj Hc (conj H2' (conj Hc Hn)))).
Qed.

(** The steps of the command in its session. *)
Lemma delete_steps text i b s io sk :
  Utils.IsNumber text = true → stoi text = Some (Z.of_nat i + 1) → breaklist_ s !! i = Some b → Z.of_nat i + 1 < 2 ^ 31 →
  SendReply (next_text "Debugger.removeBreakpoint" (delete_params (bl_breakpointId b)) s) (cliSocket_ s) = (true, sk) →
  ∃ s' io', (with_stoi text (λ tmpNum,
     let num := wrap 64 tmpNum in
     s <-- ses ;;
     match (if (num <=? Z.of_nat (length (breaklist_ s))) && (0 <? num) then breaklist_ s !! Z.to_nat (num - 1) else None) with
     | Some b => AddBreakPointInfo (bl_breakpointId b) 0 0 ;;; Deletebreaklist num ;;; finish_debugger "delete"
     | None => failed [str "the breakpoint is not exist"]
     end)) (s, io) = Ret ERR_OK (s', io') ∧
  breaklist_ s' = delete i (breaklist_ s) ∧
  sent_ s' = sent_ s ++ [next_text "Debugger.removeBreakpoint" (delete_params (bl_breakpointId b)) s].
Proof.
  intros Hnum Hn Hi Hb Hsk. pose proof (lookup_lt_Some _ _ _ Hi) as Hlt. unfold with_stoi. rewrite Hn. cbv zeta.
  rewrite wrap_small by lia. unfold m_bind at 1, ses. cbn [fst]. replace (_ && _) with true by lia.
  replace (Z.to_nat (Z.of_nat i + 1 - 1)) with i by lia. rewrite Hi.
  unfold m_bind at 1, AddBreakPointInfo, upd_debugger, upd. cbn [fst snd].
  unfold m_bind at 1, Deletebreaklist, m_bind at 1, ses. cbn [fst snd breaklist_ set_debugger].
  replace (_ && _) with true by lia. replace (Z.to_nat (Z.of_nat i + 1 - 1)) with i by lia. unfold upd. cbn [fst snd].
  unfold finish_debugger. rewrite dispatch_delete. unfold Client_DeleteCommand, m_bind, ses, back. cbn [fst].
  cbn [debuggerClient_ set_debugger set_breaklist breakPointInfoList_]. rewrite last_snoc. cbn [bpi_url].
  erewrite debugger_request_sent by exact Hsk. eexists _, _. split_and!; reflexivity.
Qed.

(** C9: when the debugger confirms a breakpoint under the name it has made of a
    line, a column and a file, the client lists it, and "delete" with its place in
    the list takes it off and sends one message: a valid request whose parameter the
    debugger reads back as exactly this line, column and file. *)
Theorem breakpoint_round_trip (msg : bytes) (id : Z) (d md : BreakpointDetails) (s : Session) (io : ClientIO) :
  confirms msg id d → 0 ≤ id < 2 ^ 31 → details_ok d → idDomainMap_ s !! id = Some (str "Debugger") →
  ∃ s1, DispatcherReply msg (s, io) = Ret () (s1, io) ∧ breaklist_ s1 = breaklist_ s ++ [location_of d] ∧
  ∀ (c : Client) (sid : Z) (text : bytes) (sk : socket),
    GetSessionById sid c = Some s1 → 0 ≤ messageId_ s1 < 2 ^ 31 →
    Utils.IsNumber text = true → stoi text = Some (Z.of_nat (length (breaklist_ s)) + 1) →
    SendReply (next_text "Debugger.removeBreakpoint" (delete_params (BreakpointDetails_ToString d)) s1) (cliSocket_ s1) = (true, sk) →
    ∃ c' s2 request domain method p r,
      DeleteCommand "delete" sid [text] c = Ret ERR_OK c' ∧ GetSessionById sid c' = Some s2 ∧ breaklist_ s2 = breaklist_ s ∧
      sent_ s2 = sent_ s1 ++ [request] ∧ new_DispatchRequest request = mkDispatchRequest (messageId_ s1) domain method p RC_OK ∧
      domain ++ str "." ++ method = str "Debugger.removeBreakpoint" ∧
      RemoveBreakpointParams_Create p = Created r ∧ ParseBreakpointId (rbp_breakpointId_ r) md = (true, d).
Proof.
  intros Hmsg Hid Hd Hp. eexists. split; [by apply (confirmed msg id d)|]. split; [done|].
  intros c sid text sk Hs Hm Hnum Hn Hsk. unfold DeleteCommand, of_session. rewrite Hnum. cbn [negb].
  match type of Hs with _ = Some ?x => set (s1 := x) in * end.
  assert (Hi : breaklist_ s1 !! length (breaklist_ s) = Some (location_of d)) by (simpl; apply list_lookup_middle; done).
  destruct (number_stoi text Hnum) as (v & Hv & Hb); [by intros ->|]. rewrite Hn in Hv. injection Hv as <-.
  destruct (delete_steps text _ _ s1 (c_io c) sk Hnum Hn Hi ltac:(lia) Hsk) as (s2 & io2 & E & Hbl & Hsent).
  in_session_tac Hin. destruct (Hin _ _ _ _ Hs E) as (c' & Ec & Hc' & _).
  destruct (request_read (messageId_ s1) "Debugger.removeBreakpoint" (delete_params (BreakpointDetails_ToString d)) _ Hm
    (PrRemoveBreakpoint _) (delete_params_rep _)) as (domain & method & p & Er & Hdm & _ & Hrep).
  eexists c', s2, _, domain, method, p, _. split_and!; [exact Ec|exact Hc'| |exact Hsent|exact Er|exact Hdm|by apply delete_read|].
  - rewrite Hbl. simpl. by rewrite delete_middle, app_nil_r.
  - cbn [rbp_breakpointId_]. rewrite c_str_nul_free by by apply id_nul_free. destruct Hd as (? & ? & _).
    by apply breakpoint_id_roundtrip.
Qed.

End debugging.
