(* ===== verification/ClientSources.v ===== *)
(** * Sources and variables in the command line client

    A source is cut into lines without loss, and the command "list" shows the lines
    that it was asked for. The client numbers the scopes of a frame and the objects
    in them as it shows them, and "print n" asks for the object with the number n: a
    number stands for one object, and the search finds it. *)

From stdpp Require Import sorting.
From S2P Require Import Prelude Regex Http CppLib Utils PtJson PtCodec PtTypes PtReturns.
From S2P Require Import ClientState ClientManagers ClientLogic.
Local Open Scope Z_scope.
Local Open Scope ark_scope.

(** ** Cutting *)

(** Lines, put together again. *)
Fixpoint join_lines (l : list bytes) : bytes :=
  match l with
  | [] => []
  | [a] => a
  | a :: l' => a ++ CRLF ++ join_lines l'
  end.

(** The first place where a text occurs. *)
Lemma find_from_first pat s : ∀ i e, find_from pat s i = Some e →
  ∃ a b, s = a ++ pat ++ b ∧ e = (i + length a)%nat ∧ ¬ (pat ≠ [] ∧ occurs pat a).
Proof.
  induction s as [|c s IH]; intros i e; simpl; case_decide as Hd; try done.
  - intros [= <-]. apply prefix_take in Hd as (b & Eb). exists [], b. simpl. split_and!; [done|lia|].
    intros [Hne (x & y & E)]. symmetry in E. apply app_eq_nil in E as [_ E]. by apply app_eq_nil in E as [? _].
  - intros [= <-]. apply prefix_take in Hd as (b & Eb). exists [], b. simpl. split_and!; [done|lia|].
    intros [Hne (x & y & E)]. symmetry in E. apply app_eq_nil in E as [_ E]. by apply app_eq_nil in E as [? _].
  - intros E. destruct (IH _ _ E) as (a & b & -> & -> & Hn). exists (c :: a), b. simpl. split_and!; [done|lia|].
    intros [Hne (x & y & Ex)]. destruct x as [|d x]; simplify_eq/=.
    + apply Hd. apply prefix_take. exists (y ++ pat ++ b). change (c :: a ++ pat ++ b) with ((c :: a) ++ pat ++ b).
      by rewrite Ex, <- app_assoc.
    + apply Hn. split; [done|]. by exists x, y.
Qed.
Lemma find_first s pat pos e : (pos ≤ length s)%nat → find s pat pos = Some e →
  ∃ a b, drop pos s = a ++ pat ++ b ∧ e = (pos + length a)%nat ∧ ¬ (pat ≠ [] ∧ occurs pat a).
Proof. intros Hp. unfold find. case_match; [apply find_from_first|lia]. Qed.

(** Every round of the loop passes a line end, so that the bound is not reached. *)
Lemma source_lines_spec s : ∀ fuel pos, (length s - pos < fuel)%nat → (pos ≤ length s)%nat →
  join_lines (source_lines fuel s pos) = drop pos s ∧ source_lines fuel s pos ≠ [] ∧
  Forall (λ l, ¬ occurs CRLF l) (source_lines fuel s pos).
Proof.
  induction fuel as [|fuel IH]; intros pos Hf Hp; [lia|]. cbn [source_lines].
  destruct (find s CRLF pos) as [e|] eqn:E.
  - destruct (find_first s CRLF pos e Hp E) as (a & b & Ed & -> & Hn).
    assert (Hl : (pos + length a + 2 ≤ length s)%nat).
    { pose proof (f_equal length Ed) as El. rewrite length_drop, !length_app in El. simpl in El. lia. }
    destruct (IH (pos + length a + 2)%nat ltac:(lia) Hl) as (Hj & Hne & Ha).
    assert (Hsub : substr s pos (Some (pos + length a - pos)%nat) = a).
    { unfold substr. rewrite Ed. replace (pos + length a - pos)%nat with (length a) by lia. apply take_app_length. }
    rewrite Hsub. split_and!; [|done|constructor; [by intros ?; apply Hn|done]].
    destruct (source_lines fuel s (pos + length a + 2)) as [|l ls] eqn:El; [done|].
    change (join_lines (a :: l :: ls)) with (a ++ CRLF ++ join_lines (l :: ls)). rewrite Hj, Ed. do 2 f_equal.
    replace (pos + length a + 2)%nat with (pos + (length a + 2))%nat by lia. rewrite <- drop_drop, Ed.
    rewrite app_assoc. apply drop_app_length'. rewrite length_app. simpl. lia.
  - unfold substr. split_and!; [done..|]. constructor; [|constructor].
    unfold find in E. case_match; [by apply find_from_none in E|lia].
Qed.

(** ** Showing *)

Section listing.
Context `{cj : CJson} `{CastOob} `{SignedOverflow} `{ClientSocket} `{ClientEnv}.

Definition shows (io : ClientIO) (l : list shown) : ClientIO := mkIO (console io ++ l) (written io) (clock io).
(** Lines, the first of which has the number [n]. *)
Fixpoint numbered_from (n : Z) (l : list bytes) : list shown :=
  match l with [] => [] | t :: l' => numbered n t ++ numbered_from (n + 1) l' end.

Lemma shows_nil io : shows io [] = io.
Proof. unfold shows. rewrite app_nil_r. by destruct io. Qed.
Lemma show_lines_ok lines count : ∀ from s io, 0 ≤ from → from + Z.of_nat count ≤ Z.of_nat (length lines) →
  show_lines lines from count (s, io) = Ret () (s, shows io (numbered_from (from + 1) (take count (drop (Z.to_nat from) lines)))).
Proof.
  induction count as [|n IH]; intros from s io Hf Hl; cbn [show_lines]; [by rewrite take_0, shows_nil|].
  destruct (lookup_lt_is_Some_2 lines (Z.to_nat from)) as [l El]; [lia|].
  rewrite (drop_S _ _ _ El). cbn [take numbered_from]. unfold m_bind, show_line. zfalse (from <? 0). rewrite El.
  unfold show. cbn [fst snd]. rewrite IH by lia. do 2 f_equal. unfold shows. cbn [console written clock]. f_equal.
  by rewrite <- app_assoc, Z2Nat.inj_add, Nat.add_1_r by lia.
Qed.
Lemma show_range_ok lines from to s io : 0 ≤ from → to ≤ Z.of_nat (length lines) →
  show_range lines from to (s, io) =
    Ret () (s, shows io (numbered_from (from + 1) (take (Z.to_nat (to - from)) (drop (Z.to_nat from) lines)))).
Proof.
  intros Hf Ht. unfold show_range. destruct (Z.le_gt_cases from (Z.of_nat (length lines))); [apply show_lines_ok; lia|].
  replace (Z.to_nat (to - from)) with 0%nat by lia. cbn [show_lines]. by rewrite take_0, shows_nil.
Qed.
(** A range that goes on behind the last line. *)
Lemma show_lines_beyond lines count : ∀ from w, 0 ≤ from ≤ Z.of_nat (length lines) → Z.of_nat (length lines) < from + Z.of_nat count →
  ∃ w', show_lines lines from count w = Throw w'.
Proof.
  induction count as [|n IH]; intros from w Hf Hc; [lia|]. cbn [show_lines]. unfold m_bind, show_line. zfalse (from <? 0).
  destruct (lines !! Z.to_nat from) as [l|] eqn:El; [|by eexists]. apply lookup_lt_Some in El. apply (IH (from + 1)); lia.
Qed.

(** The lines of the script that the program has stopped in. *)
Definition current_lines (s : Session) (lines : list bytes) : Prop :=
  ∃ name, fileSource_ (sourceManager_ s) !! scriptId_ (sourceManager_ s) = Some (name, lines).

(** C30: a source is cut at its line ends without loss: the lines put together again
    are the source, and none of them has a line end in it. "list a b" shows exactly
    the lines from a to b with their numbers when they exist, "list n" at most the
    ten lines around line n that exist; otherwise the number of lines is reported.
    Neither leaves the range of the lines. *)
Theorem source_listing (s : Session) (io : ClientIO) (source start stop : bytes) (a b : Z) :
  let lines := source_lines (S (length source)) source 0 in
  let size := Z.of_nat (length lines) in
  current_lines s lines → start ≠ [] → stop ≠ [] → stoi start = Some a → stoi stop = Some b →
  a ≠ BLANK_LINE → b ≠ BLANK_LINE →
  join_lines lines = source ∧ Forall (λ l, ¬ occurs CRLF l) lines ∧
  GetListSource start stop (s, io) =
    Ret () (s, shows io (if decide (1 ≤ a ≤ size ∧ b ≤ size)
                         then numbered_from a (take (Z.to_nat (b - (a - 1))) (drop (Z.to_nat (a - 1)) lines))
                         else line [str "Line number out of range, this file has "; to_string size; str " lines"])) ∧
  GetListSource start [] (s, io) =
    Ret () (s, shows io (if decide (0 ≤ a < size + 6)
                         then let first := Z.max 0 (a - 6) in
                              let last := Z.min (if decide (a < 6) then 10 else a + 4) size in
                              numbered_from (first + 1) (take (Z.to_nat (last - first)) (drop (Z.to_nat first) lines))
                         else line [str "Line number out of range, this file has "; to_string size; str " lines"])).
Proof.
  intros lines size (name & Hl) Hs1 Hs2 Ha Hb Ha' Hb'. destruct (source_lines_spec source (S (length source)) 0) as (Hj & _ & Hf); [lia..|].
  unfold GetListSource, blank_or_stoi. rewrite !bool_decide_eq_false_2 by done. rewrite bool_decide_eq_true_2 by done.
  rewrite Ha, Hb. unfold ListSource. zfalse (a =? BLANK_LINE). zfalse (b =? BLANK_LINE). rewrite Z.eqb_refl. cbn [andb].
  unfold ListSourceCodeWithParameters, m_bind, ses. cbn [fst]. rewrite Hl. cbv zeta. fold size.
  zfalse (a =? BLANK_LINE). zfalse (b =? BLANK_LINE). rewrite Z.eqb_refl. cbn [negb andb]. split_and!; [done|done|..].
  - destruct (decide _) as [Hd|Hd].
    + replace (_ || _ || _) with false by lia. rewrite show_range_ok by lia. by replace (a - 1 + 1) with a by lia.
    + replace (_ || _ || _) with true by lia. reflexivity.
  - destruct (decide (0 ≤ a < size + 6)) as [Hd|Hd].
    + replace (_ || _) with false by lia. destruct (Z.ltb_spec (a - 6) 0).
      * rewrite show_range_ok by lia. rewrite decide_True by lia. by replace (Z.max 0 (a - 6)) with 0 by lia.
      * rewrite show_range_ok by lia. rewrite decide_False by lia. by replace (Z.max 0 (a - 6)) with (a - 6) by lia.
    + replace (_ || _) with true by lia. reflexivity.
Qed.

(** C34: "list" without a line shows the ten lines around the current line (or
    eleven, near the beginning) only when the file goes on far enough behind it. Near
    the end of the file, where the listing would have to stop at the last line, the
    loop runs one line too far and reads behind the last line. *)
Theorem list_around_line (s : Session) (io : ClientIO) (lines : list bytes) :
  let size := Z.of_nat (length lines) in
  let d := debugLineNum_ (sourceManager_ s) in
  current_lines s lines → 0 ≤ d < size → size < 2 ^ 30 →
  let first := Z.max 0 (d - 5) in
  let last := if decide (d < 5) then 10 else d + 4 in
  if decide (last < size)
  then GetListSource [] [] (s, io) =
         Ret () (s, shows io (numbered_from (first + 1) (take (Z.to_nat (last - first + 1)) (drop (Z.to_nat first) lines))))
  else ∃ w, GetListSource [] [] (s, io) = Throw w.
Proof.
  intros size d (name & Hl) Hd Hsz first last. unfold GetListSource, blank_or_stoi. rewrite bool_decide_eq_true_2 by done.
  unfold ListSource. rewrite Z.eqb_refl. cbn [andb]. unfold m_bind, ses. cbn [fst]. rewrite Hl. cbv zeta. fold size d.
  assert (Hadd : ∀ x y, 0 ≤ x ≤ 2 ^ 30 → -6 ≤ y ≤ 6 → int32_add x y = x + y).
  { intros x y Hx Hy. unfold int32_add. by replace (_ && _) with true by lia. }
  rewrite (Hadd d 1), (Hadd d 4), (Hadd (d + 1) (-6)) by lia. replace (d + 1 + -6) with (d - 5) by lia. unfold first, last. clear first last.
  destruct (Z.ltb_spec (d - 5) 0).
  - rewrite (decide_True (P := d < 5)) by lia. replace (Z.max 0 (d - 5)) with 0 by lia. destruct (decide (10 < size)).
    + rewrite show_range_ok by lia. replace (Z.min 10 size) with 10 by lia. by replace (10 - 0 + 1) with (10 + 1 - 0) by lia.
    + unfold show_range. apply show_lines_beyond; lia.
  - rewrite (decide_False (P := d < 5)) by lia. replace (Z.max 0 (d - 5)) with (d - 5) by lia. destruct (decide (d + 4 < size)).
    + rewrite show_range_ok by lia. replace (Z.min (d + 4) size) with (d + 4) by lia.
      by replace (d + 4 - (d - 5) + 1) with (d + 4 + 1 - (d - 5)) by lia.
    + unfold show_range. apply show_lines_beyond; lia.
Qed.

End listing.

(** ** Trees of variables *)

Lemma TreeNode_induction (P : TreeNode → Prop) :
  (∀ d cs, Forall P cs → P (mkTree d cs)) → ∀ t, P t.
Proof.
  intros Hs. fix IH 1. intros [d cs]. apply Hs. induction cs as [|c cs IHcs]; [constructor|constructor; [apply IH|exact IHcs]].
Qed.

Lemma entries_singleton {A} i (x : A) : entries {[i := x]} = [(i, x)].
Proof. unfold entries. by rewrite map_to_list_singleton. Qed.

(** The number of a node and the object that it stands for. *)
Definition scope_data (i o : Z) (v : bytes) : NodeData := DScope {[i := {[o := v]}]}.
Definition object_id (descriptor : option PropertyDescriptor) : option Z := object_of descriptor ≫= ro_objectId_.
Inductive labelled : NodeData → list (Z * Z) → Prop :=
| LFrame f : labelled (DFrame f) []
| LVariable d : labelled (DVariable d) []
| LScope i o v : labelled (scope_data i o v) [(i, o)]
| LObject i d o : object_id d = Some o → labelled (DObject {[i := d]}) [(i, o)].
Inductive tree_labels : TreeNode → list (Z * Z) → Prop :=
| TreeLabels d cs l ls : labelled d l → forest_labels cs ls → tree_labels (mkTree d cs) (l ++ ls)
with forest_labels : list TreeNode → list (Z * Z) → Prop :=
| ForestNil : forest_labels [] []
| ForestCons c cs l ls : tree_labels c l → forest_labels cs ls → forest_labels (c :: cs) (l ++ ls).

(** ** Searching *)

(** The object of a number: the first that is not 0. *)
Fixpoint object_at (i : Z) (l : list (Z * Z)) : Z :=
  match l with
  | [] => 0
  | (j, o) :: l' => if (j =? i) && negb (o =? 0) then o else object_at i l'
  end.
Lemma object_at_app i l1 l2 : object_at i (l1 ++ l2) = if object_at i l1 =? 0 then object_at i l2 else object_at i l1.
Proof.
  induction l1 as [|[j o] l1 IH]; [done|]. cbn [app object_at]. destruct (j =? i), (Z.eqb_spec o 0); cbn [andb negb]; try done.
  by replace (o =? 0) with false by lia.
Qed.

(** The search below a node. *)
Definition find_below (i : Z) : list TreeNode → Z :=
  fix go cs :=
    match cs with
    | [] => 0
    | c :: cs' => let r := FindObjectByIndexRecursive i c in if r =? 0 then go cs' else r
    end.
Lemma find_unfold i d cs : FindObjectByIndexRecursive i (mkTree d cs) =
  match d with
  | DScope outer =>
      match outer !! i with
      | Some inner => match entries inner with (objectId, _) :: _ => objectId | [] => find_below i cs end
      | None => find_below i cs
      end
  | DObject descriptors =>
      match descriptors !! i ≫= object_of with Some v => default 0 (ro_objectId_ v) | None => find_below i cs end
  | _ => find_below i cs
  end.
Proof. reflexivity. Qed.

Lemma find_object i t : ∀ l, tree_labels t l → NoDup l.*1 → FindObjectByIndexRecursive i t = object_at i l.
Proof.
  induction t as [d cs IH] using TreeNode_induction. intros l Hl Hn. inversion Hl as [? ? l0 ls Hd Hf]; subst.
  rewrite fmap_app in Hn. apply NoDup_app in Hn as (Hn0 & Hdis & Hns).
  assert (Hbelow : find_below i cs = object_at i ls).
  { clear Hl Hd Hn0 Hdis. revert ls Hf Hns. induction IH as [|c cs Hc _ IHcs]; intros ls Hf Hns; inversion Hf; subst; [done|].
    rewrite fmap_app in Hns. apply NoDup_app in Hns as (? & _ & ?). change (find_below i (c :: cs)) with (let r := FindObjectByIndexRecursive i c in if r =? 0 then find_below i cs else r).
    rewrite object_at_app, <- (Hc l) by done. cbv zeta.
    case_match; [by apply IHcs|done]. }
  rewrite find_unfold, Hbelow, object_at_app. clear Hbelow.
  assert (Habsent : ∀ o, l0 = [(i, o)] → object_at i ls = 0).
  { intros o ->. assert (Hi : i ∉ ls.*1) by (apply Hdis; simpl; by apply elem_of_cons; left). clear -Hi.
    induction ls as [|[j x] ls IHl]; [done|]. cbn [object_at]. rewrite fmap_cons, not_elem_of_cons in Hi. destruct Hi as [Hj Hi].
    simpl in Hj. replace (j =? i) with false by lia. by apply IHl. }
  destruct Hd as [f|v|j o v|j desc o Ho]; cbn [object_at]; [done|done|..].
  - unfold scope_data. destruct (Z.eqb_spec j i) as [->|Hne].
    + rewrite lookup_singleton_eq, entries_singleton, (Habsent o) by done. by destruct (Z.eqb_spec o 0) as [->|]; cbn; repeat case_match; lia.
    + by rewrite lookup_singleton_ne by done.
  - destruct (Z.eqb_spec j i) as [->|Hne].
    + rewrite lookup_singleton_eq, (Habsent o) by done. unfold object_id in Ho. simpl. destruct (object_of desc) as [v|]; [|done].
      simpl in Ho. rewrite Ho. cbn. by destruct (Z.eqb_spec o 0) as [->|]; cbn; repeat case_match; lia.
    + by rewrite lookup_singleton_ne by done.
Qed.

Lemma object_at_elem i o l : NoDup l.*1 → (i, o) ∈ l → object_at i l = o.
Proof.
  induction l as [|[j x] l IH]; intros Hn Hin; [by apply elem_of_nil in Hin|].
  rewrite fmap_cons in Hn. apply NoDup_cons in Hn as [Hj Hn]. cbn [object_at]. apply elem_of_cons in Hin as [[= -> ->]|Hin].
  - rewrite Z.eqb_refl. destruct (Z.eqb_spec x 0) as [->|]; [|done]. cbn [andb negb].
    clear IH Hn. induction l as [|[k y] l IHl]; [done|]. cbn [object_at]. rewrite fmap_cons, not_elem_of_cons in Hj.
    destruct Hj as [Hk Hj]. simpl in Hk. replace (k =? j) with false by lia. by apply IHl.
  - assert (j ≠ i) by (intros ->; apply Hj; exact (list_elem_of_fmap_2 fst _ _ Hin)).
    replace (j =? i) with false by lia. by apply IH.
Qed.
Lemma object_at_none i l : i ∉ l.*1 → object_at i l = 0.
Proof.
  induction l as [|[j x] l IH]; [done|]. rewrite fmap_cons, not_elem_of_cons. intros [Hj Hi]. simpl in Hj. cbn [object_at].
  replace (j =? i) with false by lia. by apply IH.
Qed.

(** ** Adding *)

Lemma forest_app cs cs' l l' : forest_labels cs l → forest_labels cs' l' → forest_labels (cs ++ cs') (l ++ l').
Proof.
  revert l. induction cs as [|c cs IH]; intros l Hf Hf'; inversion Hf; subst; [done|]. rewrite <- app_assoc. cbn [app].
  constructor; [done|by apply IH].
Qed.

(** What is below a node after something has been added somewhere. *)
Definition grows (lc l l' : list (Z * Z)) : Prop := l' ≡ₚ l ++ lc ∨ l' = l.
Lemma forest_alter (f : TreeNode → TreeNode) lc :
  (∀ t l, tree_labels t l → ∃ l', tree_labels (f t) l' ∧ grows lc l l') →
  ∀ cs i ls, forest_labels cs ls → ∃ ls', forest_labels (alter f i cs) ls' ∧ grows lc ls ls'.
Proof.
  intros Hf. induction cs as [|c cs IH]; intros i ls Hls; inversion Hls as [|? ? l0 ls0 Hc Hcs]; subst; [by exists []; split; [|right]|].
  destruct i as [|i]; cbn.
  - destruct (Hf c l0 Hc) as (l' & Hl' & [Hp| ->]); [|by exists (l0 ++ ls0); split; [constructor|right]].
    exists (l' ++ ls0). split; [by constructor|left]. by rewrite Hp, <- !app_assoc, (Permutation_app_comm lc).
  - destruct (IH i ls0 Hcs) as (l' & Hl' & [Hp| ->]); [|by exists (l0 ++ ls0); split; [constructor|right]].
    exists (l0 ++ l'). split; [by constructor|left]. by rewrite Hp, <- !app_assoc.
Qed.
Lemma add_child_labels child lc : tree_labels child lc → ∀ path t l, tree_labels t l →
  ∃ l', tree_labels (AddChild path child t) l' ∧ grows lc l l'.
Proof.
  intros Hc. induction path as [|i path IH]; intros t l Hl; destruct Hl as [d cs l0 ls Hd Hf]; cbn [AddChild tn_data tn_children].
  - exists (l0 ++ ls ++ (lc ++ [])). split; [|left; by rewrite app_nil_r, app_assoc].
    constructor; [done|]. apply forest_app; [done|]. repeat constructor. done.
  - destruct (forest_alter _ lc IH cs i ls Hf) as (l' & Hl' & [Hp| ->]).
    + exists (l0 ++ l'). split; [by constructor|left]. by rewrite Hp, app_assoc.
    + exists (l0 ++ ls). split; [by constructor|by right].
Qed.

(** ** The tree of a session *)

Definition tree_inv (t : Tree) : Prop :=
  1 ≤ index_ t ∧ ∃ r l, root_ t = Some r ∧ tree_labels r l ∧ NoDup l.*1 ∧ Forall (λ p, 1 ≤ p.1 < index_ t) l.

Lemma scope_nodes_labels scopes : ∀ i, ∃ l, forest_labels (scope_nodes i scopes) l ∧ l.*1 = seqZ i (Z.of_nat (length scopes)).
Proof.
  induction scopes as [|[k v] scopes IH]; intros i; cbn [scope_nodes length].
  - exists []. split; [constructor|by rewrite seqZ_nil].
  - destruct (IH (i + 1)) as (l & Hl & El). exists ([(i, k)] ++ l). split.
    + constructor; [|done]. rewrite <- (app_nil_r [(i, k)]). constructor; [apply LScope|constructor].
    + cbn [app fmap list_fmap fst]. rewrite El, (seqZ_cons i) by lia. f_equal. f_equal; lia.
Qed.
Lemma InitializeTree_inv dataMap index : tree_inv (InitializeTree dataMap index).
Proof.
  unfold InitializeTree. set (scopes := match dataMap !! index with Some m => entries m | None => [] end).
  destruct (scope_nodes_labels scopes 1) as (l & Hl & El). split; [cbn [index_]; lia|]. eexists _, ([] ++ l).
  split; [done|]. split; [constructor; [constructor|exact Hl]|]. cbn [app]. rewrite El. split; [apply NoDup_seqZ|].
  apply Forall_forall. intros p Hp. cbn [index_]. apply (list_elem_of_fmap_2 fst) in Hp. rewrite El in Hp.
  apply elem_of_seqZ in Hp. lia.
Qed.

Lemma grows_inv t l l' lc idx : NoDup l.*1 → Forall (λ p, 1 ≤ p.1 < index_ t) l → NoDup lc.*1 →
  Forall (λ p, index_ t ≤ p.1 < idx) lc → grows lc l l' → index_ t ≤ idx → 1 ≤ index_ t →
  NoDup l'.*1 ∧ Forall (λ p, 1 ≤ p.1 < idx) l'.
Proof.
  intros Hn Hr Hnc Hrc Hg Hi H1. assert (Hr' : Forall (λ p, 1 ≤ p.1 < idx) l) by (eapply Forall_impl; [exact Hr|]; simpl; lia).
  destruct Hg as [Hp| ->]; [|done]. rewrite Hp, fmap_app. split.
  - apply NoDup_app. split_and!; [done| |done]. intros x (p & -> & Hx)%list_elem_of_fmap (q & Eq & Hq)%list_elem_of_fmap.
    rewrite Forall_forall in Hr, Hrc. specialize (Hr p Hx). specialize (Hrc q Hq). lia.
  - apply Forall_app. split; [done|]. eapply Forall_impl; [exact Hrc|]. simpl. lia.
Qed.

Lemma AddVariableInfo_inv parent d t : tree_inv t → tree_inv (AddVariableInfo parent d t).
Proof.
  intros (Hi & r & l & Hr & Hl & Hn & Hb). unfold AddVariableInfo, AddObjectNode, AddVariableNode. rewrite Hr.
  destruct (object_of d ≫= ro_objectId_) as [o|] eqn:Eo; (destruct parent as [path|]; [|by split; [|exists r, l]]).
  - destruct (add_child_labels (mkTree (DObject {[index_ t := d]}) []) ([(index_ t, o)] ++ []) ltac:(by repeat constructor) path r l Hl)
      as (l' & Hl' & Hg).
    split; [cbn [index_]; lia|]. eexists _, l'. split; [done|]. split; [done|]. cbn [index_].
    apply (grows_inv t l l' _ (index_ t + 1) Hn Hb) in Hg; [done|by apply NoDup_singleton|apply Forall_singleton; simpl; lia|lia|done].
  - destruct (add_child_labels (mkTree (DVariable d) []) ([] ++ []) ltac:(by repeat constructor) path r l Hl) as (l' & Hl' & Hg).
    split; [done|]. eexists _, l'. split; [done|]. split; [done|]. cbn [index_].
    apply (grows_inv t l l' _ (index_ t) Hn Hb) in Hg; [done|by constructor|by constructor|lia|done].
Qed.

(** Whatever variables are added under whatever nodes to the tree of a frame,
    the numbers of its scopes and objects are different and between 1 and the next
    number, and looking a number up finds the object of the node that is shown with
    it; a number that is not shown gives 0. *)
Theorem variable_numbers (dataMap : gmap Z (gmap Z bytes)) (index : Z)
    (added : list (option (list nat) * option PropertyDescriptor)) :
  let t := foldl (λ t a, AddVariableInfo a.1 a.2 t) (InitializeTree dataMap index) added in
  ∃ r l, root_ t = Some r ∧ tree_labels r l ∧ NoDup l.*1 ∧ Forall (λ p, 1 ≤ p.1 < index_ t) l ∧
    (∀ i o, (i, o) ∈ l → FindObjectByIndex i t = o) ∧ (∀ i, i ∉ l.*1 → FindObjectByIndex i t = 0).
Proof.
  intros t. assert (Ht : tree_inv t).
  { unfold t. generalize (InitializeTree_inv dataMap index). generalize (InitializeTree dataMap index).
    induction added as [|a added IH]; intros t0 H0; [done|]. apply IH. by apply AddVariableInfo_inv. }
  destruct Ht as (_ & r & l & Hr & Hl & Hn & Hb). exists r, l. split_and!; try done.
  - intros i o Hin. unfold FindObjectByIndex. rewrite Hr, (find_object i r l Hl Hn). by apply object_at_elem.
  - intros i Hi. unfold FindObjectByIndex. rewrite Hr, (find_object i r l Hl Hn). by apply object_at_none.
Qed.
