(* ===== verification/ClientDemo.v ===== *)
(** * The command line client at work

    A JSON library whose texts can be read back, a socket that sends everything,
    and a session with a breakpoint, on which the properties of the client are
    evaluated. *)

From S2P Require Import Prelude Regex Http CppLib Utils PtJson PtCodec PtSchema PtTypes PtParams PtReturns Dispatcher.
From S2P Require Import ClientState ClientManagers ClientDomains ClientSessions ClientCommands ClientMain ClientProtocol.
From S2P Require Import ClientLogic ClientRuns ClientDebugging ClientSources.
From stdpp Require Import sorting.
Local Open Scope Z_scope.
Local Open Scope ark_scope.

(** ** Texts

    A value is written in front of what follows it: a tag, and a length where there
    are parts. Numbers are moved so that none of them is 0. *)
Definition put (z : Z) : Z := if 0 <=? z then z + 1 else z.
Definition unput (z : Z) : Z := if 0 <? z then z - 1 else z.
Definition put_string (s : bytes) : list Z := Z.of_nat (S (length s)) :: (put <$> s).
Fixpoint text_of (v : jval) : list Z :=
  match v with
  | JNull => [1]
  | JBool b => [2; if b then 1 else 2]
  | JNum (DFin m e) => [3; put m; put e]
  | JNum (DInf b) => [4; if b then 1 else 2]
  | JNum DNaN => [5]
  | JStr s => 6 :: put_string s
  | JArr vs => 7 :: Z.of_nat (S (length vs)) :: concat (text_of <$> vs)
  | JObj fs => 8 :: Z.of_nat (S (length fs)) :: concat ((λ f : string * jval, put_string (str f.1) ++ text_of f.2) <$> fs)
  end.

Definition get_string (t : list Z) : option (bytes * list Z) :=
  match t with
  | n :: t' => Some (unput <$> take (Z.to_nat n - 1) t', drop (Z.to_nat n - 1) t')
  | [] => None
  end.
Fixpoint get_many {A} (get : list Z → option (A * list Z)) (n : nat) (t : list Z) : option (list A * list Z) :=
  match n with
  | O => Some ([], t)
  | S n' => r ← get t; q ← get_many get n' r.2; Some (r.1 :: q.1, q.2)
  end.
Definition get_field (get : list Z → option (jval * list Z)) (t : list Z) : option (string * jval * list Z) :=
  k ← get_string t; r ← get k.2; Some (string_of_bytes k.1, r.1, r.2).
Fixpoint value_of (fuel : nat) (t : list Z) : option (jval * list Z) :=
  match fuel with
  | O => None
  | S f =>
      match t with
      | 1 :: t' => Some (JNull, t')
      | 2 :: b :: t' => Some (JBool (b =? 1), t')
      | 3 :: m :: e :: t' => Some (JNum (DFin (unput m) (unput e)), t')
      | 4 :: b :: t' => Some (JNum (DInf (b =? 1)), t')
      | 5 :: t' => Some (JNum DNaN, t')
      | 6 :: t' => r ← get_string t'; Some (JStr r.1, r.2)
      | 7 :: n :: t' => r ← get_many (value_of f) (Z.to_nat n - 1) t'; Some (JArr r.1, r.2)
      | 8 :: n :: t' => r ← get_many (get_field (value_of f)) (Z.to_nat n - 1) t'; Some (JObj r.1, r.2)
      | _ => None
      end
  end.

Lemma jval_induction (P : jval → Prop) :
  P JNull → (∀ b, P (JBool b)) → (∀ d, P (JNum d)) → (∀ s, P (JStr s)) → (∀ vs, Forall P vs → P (JArr vs)) →
  (∀ fs, Forall (λ f, P f.2) fs → P (JObj fs)) → ∀ v, P v.
Proof.
  intros H1 H2 H3 H4 H5 H6. fix IH 1. intros [|b|d|s|vs|fs]; [done..| |].
  - apply H5. induction vs as [|v vs IHvs]; constructor; [apply IH|exact IHvs].
  - apply H6. induction fs as [|[k v] fs IHfs]; constructor; [apply IH|exact IHfs].
Qed.

Lemma unput_put z : unput (put z) = z.
Proof. unfold unput, put. repeat case_match; lia. Qed.
Lemma put_nonzero z : put z ≠ 0.
Proof. unfold put. case_match; lia. Qed.
Lemma unput_list (s : bytes) : unput <$> (put <$> s) = s.
Proof. induction s as [|z s IH]; [done|]. cbn. by rewrite unput_put, IH. Qed.
Lemma get_put_string s rest : get_string (put_string s ++ rest) = Some (s, rest).
Proof.
  unfold get_string, put_string. cbn [app]. replace (Z.to_nat _ - 1)%nat with (length (put <$> s)) by (rewrite length_fmap; lia).
  by rewrite take_app_length, drop_app_length, unput_list.
Qed.
Lemma string_of_str k : string_of_bytes (str k) = k.
Proof.
  unfold string_of_bytes, str. rewrite <- list_fmap_compose.
  rewrite (list_fmap_ext _ id); [by rewrite list_fmap_id, String.string_of_list_ascii_of_string|].
  intros i a _. unfold compose. by rewrite N2Z.id, Ascii.ascii_N_embedding.
Qed.

(** Parts, one after the other. *)
Lemma get_many_text {A} (get : list Z → option (A * list Z)) (text : A → list Z) xs :
  Forall (λ x, ∀ rest, get (text x ++ rest) = Some (x, rest)) xs →
  ∀ rest, get_many get (length xs) (concat (text <$> xs) ++ rest) = Some (xs, rest).
Proof.
  induction 1 as [|x xs Hx _ IH]; intros rest; [done|]. cbn [length get_many fmap list_fmap concat].
  rewrite <- app_assoc, Hx. cbn. by rewrite IH.
Qed.
Lemma part_length {A} (text : A → list Z) x xs : x ∈ xs → (length (text x) ≤ length (concat (text <$> xs)))%nat.
Proof.
  induction xs as [|y xs IH]; intros Hin; [by apply elem_of_nil in Hin|]. cbn. rewrite length_app.
  apply elem_of_cons in Hin as [->|Hin]; [lia|]. specialize (IH Hin). lia.
Qed.

Lemma value_of_text v : ∀ fuel rest, (length (text_of v) ≤ fuel)%nat → value_of fuel (text_of v ++ rest) = Some (v, rest).
Proof.
  induction v as [|b|d|s|vs IH|fs IH] using jval_induction; intros [|fuel] rest Hf;
    try (destruct d); try (cbn in Hf; lia); cbn [text_of app value_of].
  - done.
  - by destruct b.
  - by rewrite !unput_put.
  - by destruct neg.
  - done.
  - by rewrite get_put_string.
  - replace (Z.to_nat _ - 1)%nat with (length vs) by lia. cbn [text_of length] in Hf. rewrite (get_many_text _ text_of); [done|].
    rewrite Forall_forall in IH |- *. intros v Hv rest'. apply IH; [done|]. pose proof (part_length text_of v vs Hv). lia.
  - replace (Z.to_nat _ - 1)%nat with (length fs) by lia. cbn [text_of length] in Hf.
    rewrite (get_many_text _ (λ f : string * jval, put_string (str f.1) ++ text_of f.2)); [done|].
    rewrite Forall_forall in IH |- *. intros [k v] Hv rest'. unfold get_field. cbn [fst snd].
    rewrite <- app_assoc, get_put_string. cbn [mbind option_bind fst snd]. rewrite (IH _ Hv); [cbn [mbind option_bind fst snd]; by rewrite string_of_str|].
    pose proof (part_length (λ f : string * jval, put_string (str f.1) ++ text_of f.2) _ _ Hv) as Hp. cbn [fst snd] in Hp |- *.
    rewrite length_app in Hp. lia.
Qed.
(** An element of a part. *)
Lemma list_elem_of_In_concat (z : Z) ls : z ∈ concat ls → ∃ l, l ∈ ls ∧ z ∈ l.
Proof. rewrite list_elem_of_In, in_concat. intros (l & Hl & Hz). exists l. by rewrite !list_elem_of_In. Qed.
Lemma text_nul_free v : nul_free (text_of v).
Proof.
  assert (Hs : ∀ s, 0 ∉ put_string s).
  { intros s. unfold put_string. rewrite not_elem_of_cons. split; [lia|]. intros (z & Hz & _)%list_elem_of_fmap.
    by destruct (put_nonzero z). }
  unfold nul_free. induction v as [|b|[m e|b|]|s|vs IH|fs IH] using jval_induction; cbn [text_of];
    rewrite ?not_elem_of_cons; try (destruct b); split_and?; try apply not_elem_of_nil; try done; try lia.
  - intros E. by destruct (put_nonzero m).
  - intros E. by destruct (put_nonzero e).
  - intros (l & (v & -> & Hv)%list_elem_of_fmap & Hl)%list_elem_of_In_concat. rewrite Forall_forall in IH. by apply (IH v).
  - intros (l & (f & -> & Hv)%list_elem_of_fmap & Hl)%list_elem_of_In_concat. rewrite Forall_forall in IH.
    apply elem_of_app in Hl as [Hl|Hl]; [by apply (Hs (str f.1))|by apply (IH f)].
Qed.

Definition text_print (v : jval) : option bytes := Some (text_of v).
Definition text_parse (t : bytes) : option jval := fst <$> value_of (S (length t)) t.

Definition text_cjson : CJson := tree_cjson_with text_parse text_print.
Definition text_cjson_ok : CJsonOK text_cjson := tree_cjson_with_ok text_parse text_print.
#[local] Existing Instance text_cjson.
#[local] Existing Instance text_cjson_ok.
Lemma text_cjson_text : CJsonText text_cjson.
Proof.
  split.
  - intros n d _ _. exists (text_of n), n. split_and!; [done|apply text_nul_free| |done].
    cbn [text_cjson tree_cjson_with cJSON_ParseWithLength]. unfold text_parse.
    pose proof (value_of_text n (S (length (text_of n))) [] ltac:(lia)) as E. rewrite app_nil_r in E. by rewrite E.
  - intros n fs Hn. change (n = JObj fs) in Hn. by subst.
Qed.
#[local] Existing Instance text_cjson_text.
#[local] Existing Instance demo_oob.
#[local] Instance demo_overflow : SignedOverflow := λ _ _, 0.

(** ** A client *)

#[local] Instance demo_socket : ClientSocket := {|
  socket := nat;
  socket_init := 0%nat;
  InitToolchainWebSocketForPort _ _ sk := (true, sk);
  InitToolchainWebSocketForSockName _ sk := (true, sk);
  ClientSendWSUpgradeReq sk := (true, sk);
  ClientRecvWSUpgradeRsp sk := (true, sk);
  SendReply _ sk := (true, S sk);
  Close sk := sk;
  GetSocketStateString _ := str "connected" |}.
Definition demo_env : ClientEnv.
Proof. refine {| readable_file _ := true; writable_file _ := true; file_order m := map_to_list m; unset_int := 0 |}. done. Defined.
#[local] Existing Instance demo_env.
Definition demo_io : ClientIO := mkIO [] [] [].

(** The reply to a request, and the confirmation of a breakpoint. *)
Definition demo_text (v : jval) : bytes := default [] (text_print v).
Definition demo_details : BreakpointDetails := mkBreakpointDetails 11 0 (str "main.ets").
Definition demo_confirmation : bytes :=
  demo_text (JObj [("id"%string, jint 2); ("result"%string,
    JObj [("breakpointId"%string, JStr (BreakpointDetails_ToString demo_details)); ("locations"%string, JArr [])])]).

Definition demo_events : list client_event :=
  [EvLine (str "enable"); EvLine (str "b main.ets 12"); EvLine (str "session-new 5679"); EvLine (str "forall heapusage")].
Definition demo_client : Client := left_in (Main (str "5678") false demo_events (new_Client demo_io)).
Definition demo_session : Session := default (new_Session 0 []) (GetSessionById 0 demo_client).

Example demo_sent : length (sent_ demo_session) = 3%nat ∧ messageId_ demo_session = 4 ∧
  idDomainMap_ demo_session !! 2 = Some (str "Debugger") ∧ idDomainMap_ demo_session !! 3 = Some (str "Runtime") ∧
  (s_id <$> GetSessionById 1 demo_client) = Some 1.
Proof. vm_compute. done. Qed.

(** ** The properties, evaluated *)

Lemma client_sessions_witness :
  length (sessions_ (left_in (Main (str "5678") false demo_events (new_Client demo_io)))) = 8%nat ∧
  is_Some (GetCurrentSession (left_in (Main (str "5678") false demo_events (new_Client demo_io)))).
Proof.
  pose proof (client_sessions (str "5678") false demo_events demo_io) as [Hno|(Hl & _ & _ & _ & Hc)].
  - exfalso. apply (Hno 0%nat demo_session). vm_compute. reflexivity.
  - split; [exact Hl|exact Hc].
Defined.

Lemma client_requests_witness :
  ∃ requests : list (Z * string), length requests = 3%nat ∧
    Forall2 (λ r text, r.1 < 2 ^ 31 → accepted r.1 r.2 text) requests (sent_ demo_session).
Proof.
  assert (Hs : slot (left_in (Main (str "5678") false demo_events (new_Client demo_io))) 0 demo_session) by (vm_compute; reflexivity).
  destruct (client_requests (str "5678") false demo_events demo_io 0 demo_session Hs) as (rqs & _ & _ & Hf).
  exists rqs. split; [|exact Hf]. rewrite (Forall2_length _ _ _ Hf). vm_compute. reflexivity.
Defined.

Definition demo_unknown : bytes := demo_text (JObj [("id"%string, jint 2); ("result"%string, JObj [])]).
Lemma client_replies_witness : DispatcherReply demo_unknown (new_Session 0 [], demo_io) = Ret () (new_Session 0 [], demo_io).
Proof.
  assert (Hs : slot (left_in (Main (str "5678") false demo_events (new_Client demo_io))) 0 demo_session) by (vm_compute; reflexivity).
  assert (Hd : idDomainMap_ demo_session !! 2 = Some (str "Debugger")) by (vm_compute; reflexivity).
  assert (Hr : is_reply demo_unknown 2).
  { unfold is_reply, is_int32. split; [lia|]. exists [("id"%string, jint 2); ("result"%string, JObj [])]. split; [|split; vm_compute; reflexivity].
    exists (JObj [("id"%string, jint 2); ("result"%string, JObj [])]). split; vm_compute; reflexivity. }
  assert (Hn : idDomainMap_ (new_Session 0 []) !! 2 = None) by (vm_compute; reflexivity).
  exact (proj2 (client_replies (str "5678") false demo_events demo_io demo_io 0 demo_session 2 (str "Debugger") demo_unknown
    Hs Hd Hr ltac:(lia)) (new_Session 0 []) Hn).
Defined.

Lemma break_command_witness :
  ∃ c' s' text domain method p,
    BreakCommand "break" 0 [str "main.ets"; str "30"] demo_client = Ret ERR_OK c' ∧ GetSessionById 0 c' = Some s' ∧
    sent_ s' = sent_ demo_session ++ [text] ∧ breaklist_ s' = breaklist_ demo_session ∧
    new_DispatchRequest text = mkDispatchRequest (messageId_ demo_session) domain method p RC_OK ∧
    domain ++ str "." ++ method = str "Debugger.setBreakpointByUrl" ∧
    SetBreakpointByUrlParams_Create p = Created (mkSetBreakpointByUrlParams (30 - 1) (Some (c_str (str "main.ets"))) None None (Some 0) None).
Proof.
  assert (Hs : GetSessionById 0 demo_client = Some demo_session) by (vm_compute; reflexivity).
  assert (Hm : 0 ≤ messageId_ demo_session < 2 ^ 31) by (vm_compute; split; [discriminate|reflexivity]).
  assert (Hb : Forall (λ b, is_Some (stoi (bl_lineNumber b))) (breaklist_ demo_session)).
  { assert (Eb : breaklist_ demo_session = []) by (vm_compute; reflexivity). rewrite Eb. constructor. }
  assert (Hn : Utils.IsNumber (str "30") = true) by (vm_compute; reflexivity).
  assert (Hi : stoi (str "30") = Some 30) by (vm_compute; reflexivity).
  assert (Hk : SendReply (next_text "Debugger.setBreakpointByUrl" (break_params (str "main.ets") 30) demo_session)
    (cliSocket_ demo_session) = (true, S (cliSocket_ demo_session))) by reflexivity.
  assert (He : existsb (known_at (str "main.ets") 30) (breaklist_ demo_session) = false) by (vm_compute; reflexivity).
  pose proof (break_command demo_client 0 demo_session (str "main.ets") (str "30") 30 _ Hs Hm Hn Hi Hb Hk) as Hc.
  rewrite He in Hc. exact Hc.
Defined.

(** The session in which the breakpoint of line 12 is confirmed. *)
Definition demo_confirmed : Session := match DispatcherReply demo_confirmation (demo_session, demo_io) with Ret _ (s, _) => s | _ => demo_session end.
Definition demo_confirmed_client : Client :=
  match in_session 0 (m_ret ()) (λ '(_, io), Ret () (demo_confirmed, io)) demo_client with Ret _ c => c | _ => demo_client end.

Lemma breakpoint_round_trip_witness : ∃ s1, DispatcherReply demo_confirmation (demo_session, demo_io) = Ret () (s1, demo_io) ∧
  ∃ c' s2 request domain method p r,
    DeleteCommand "delete" 0 [str "1"] demo_confirmed_client = Ret ERR_OK c' ∧ GetSessionById 0 c' = Some s2 ∧
    sent_ s2 = sent_ s1 ++ [request] ∧ new_DispatchRequest request = mkDispatchRequest (messageId_ s1) domain method p RC_OK ∧
    RemoveBreakpointParams_Create p = Created r ∧ ParseBreakpointId (rbp_breakpointId_ r) demo_details = (true, demo_details).
Proof.
  assert (Hd : details_ok demo_details).
  { unfold details_ok, is_int32. split_and!; [vm_compute; discriminate|vm_compute; reflexivity|vm_compute; discriminate|vm_compute; reflexivity|..].
    - apply (bool_decide_unpack _). vm_compute. exact I.
    - discriminate.
    - apply (bool_decide_unpack _). vm_compute. exact I.
    - vm_compute. reflexivity. }
  assert (Hp : idDomainMap_ demo_session !! 2 = Some (str "Debugger")) by (vm_compute; reflexivity).
  assert (Hc : confirms demo_confirmation 2 demo_details).
  { exists [("id"%string, jint 2); ("result"%string,
      JObj [("breakpointId"%string, JStr (BreakpointDetails_ToString demo_details)); ("locations"%string, JArr [])])],
      [("breakpointId"%string, JStr (BreakpointDetails_ToString demo_details)); ("locations"%string, JArr [])].
    split; [eexists; split; [|reflexivity]; vm_compute; reflexivity|]. split_and!; vm_compute; reflexivity. }
  destruct (breakpoint_round_trip demo_confirmation 2 demo_details demo_details demo_session demo_io Hc ltac:(lia) Hd Hp) as (s1 & E1 & _ & Hdel).
  assert (E : s1 = demo_confirmed) by (unfold demo_confirmed; rewrite E1; reflexivity). subst s1.
  exists demo_confirmed. split; [exact E1|].
  assert (Hs : GetSessionById 0 demo_confirmed_client = Some demo_confirmed) by (vm_compute; reflexivity).
  assert (Hm : 0 ≤ messageId_ demo_confirmed < 2 ^ 31) by (vm_compute; split; [discriminate|reflexivity]).
  assert (Hn : Utils.IsNumber (str "1") = true) by (vm_compute; reflexivity).
  assert (Hi : stoi (str "1") = Some (Z.of_nat (length (breaklist_ demo_session)) + 1)) by (vm_compute; reflexivity).
  destruct (Hdel demo_confirmed_client 0 (str "1") _ Hs Hm Hn Hi eq_refl) as (c' & s2 & rq & domain & method & p & r & H1 & H2 & _ & H4 & H5 & _ & H7 & H8).
  exists c', s2, rq, domain, method, p, r. exact (conj H1 (conj H2 (conj H4 (conj H5 (conj H7 H8))))).
Defined.

(** A session that is stopped in a source of three lines. *)
Definition demo_source : bytes := str "let a = 1;" ++ CRLF ++ str "let b = 2;" ++ CRLF ++ str "print(a + b);".
Definition demo_lines : list bytes := source_lines (S (length demo_source)) demo_source 0.
Definition demo_stopped : Session := set_sourceManager (mkSourceManager 0 1 ∅ {[0 := (str "main.ets", demo_lines)]}) (new_Session 0 []).

Lemma source_listing_witness :
  GetListSource (str "2") (str "3") (demo_stopped, demo_io) =
    Ret () (demo_stopped, shows demo_io (numbered_from 2 [str "let b = 2;"; str "print(a + b);"])).
Proof.
  assert (Hl : current_lines demo_stopped demo_lines) by (exists (str "main.ets"); vm_compute; reflexivity).
  assert (Ha : stoi (str "2") = Some 2) by (vm_compute; reflexivity).
  assert (Hb : stoi (str "3") = Some 3) by (vm_compute; reflexivity).
  destruct (source_listing demo_stopped demo_io demo_source (str "2") (str "3") 2 3 Hl ltac:(discriminate) ltac:(discriminate) Ha Hb
    ltac:(vm_compute; discriminate) ltac:(vm_compute; discriminate)) as (_ & _ & E & _).
  rewrite E. vm_compute. reflexivity.
Defined.

Lemma list_around_line_witness : ∃ w, GetListSource [] [] (demo_stopped, demo_io) = Throw w.
Proof.
  assert (Hl : current_lines demo_stopped demo_lines) by (exists (str "main.ets"); vm_compute; reflexivity).
  assert (Hd : 0 ≤ debugLineNum_ (sourceManager_ demo_stopped) < Z.of_nat (length demo_lines)).
  { vm_compute. split; [discriminate|reflexivity]. }
  assert (Hs : Z.of_nat (length demo_lines) < 2 ^ 30) by (vm_compute; reflexivity).
  exact (list_around_line demo_stopped demo_io demo_lines Hl Hd Hs).
Defined.
