(* ===== verification/InspectorWakeup.v ===== *)
(** * Waking the debugger

    Models the second half of Inspector::OnMessage (src/inspector/inspector.cpp)
    together with the protocol handler: the thread of the websocket server puts a
    message into the queue of the handler, looks twice whether the machine is
    working on the queue, and otherwise posts a task to the thread of the machine.
    Each look, the sleep between them and the posting are steps of their own, and
    the machine goes on between any two of them.

    The function that posts tasks comes from the application. [poster] says
    whether there is one, whether the inspector was started for a socket pair, in
    which case a task is posted on OpenHarmony only, and whether the platform is that.
    A task that is run on another thread than the one it is meant for does nothing. *)

From S2P Require Import Prelude Regex Http CppLib Utils PtJson PtCodec PtTypes Dispatcher ProtocolHandler.
Local Open Scope Z_scope.

(** ** The two threads *)

(** Where the server thread is in [Inspector::OnMessage]. *)
Inductive server_pc := SIdle | SQueued | SSlept | SPosting.
#[export] Instance server_pc_eq_dec : EqDecision server_pc.
Proof. solve_decision. Defined.

Record wake := mkWake {
  w_handler : handler;
  w_server : server_pc;
  w_tasks : nat }.

Definition wake_init : wake := mkWake handler_init SIdle 0.

Inductive wake_event :=
| Receive (msg : bytes)
| FirstLook
| SecondLook
| PostTask
| RunTask (on_debugger_thread : bool)
| Machine (e : event).

Record poster := mkPoster { has_poster : bool; for_socket_pair : bool; on_ohos : bool }.
(** Whether the last part of OnMessage posts a task. *)
Definition posts (p : poster) : bool := has_poster p && (negb (for_socket_pair p) || on_ohos p).

Definition status_known (h : handler) : bool := match GetDispatchStatus h with UNKNOWN => false | _ => true end.
Definition from_server (e : event) : bool := match e with DispatchCommand _ => true | _ => false end.

Definition wake_exec (p : poster) (e : wake_event) (w : wake) : option wake :=
  let '(mkWake h pc tasks) := w in
  match e, pc with
  | Receive msg, SIdle => (λ h', mkWake h' SQueued tasks) <$> exec (DispatchCommand msg) h
  | FirstLook, SQueued => Some (mkWake h (if status_known h then SIdle else SSlept) tasks)
  | SecondLook, SSlept => Some (mkWake h (if status_known h then SIdle else SPosting) tasks)
  | PostTask, SPosting => Some (mkWake h SIdle (if posts p then S tasks else tasks))
  | RunTask here, _ =>
      match tasks with
      | O => None
      | S tasks' => if here then (λ h', mkWake h' pc tasks') <$> exec ProcessCommand h else Some (mkWake h pc tasks')
      end
  | Machine e', _ => if from_server e' then None else (λ h', mkWake h' pc tasks) <$> exec e' h
  | _, _ => None
  end.

Fixpoint wake_run (p : poster) (es : list wake_event) (w : wake) : option wake :=
  match es with
  | [] => Some w
  | e :: es' => wake_exec p e w ≫= wake_run p es'
  end.

(** Tasks are run on the thread they are meant for. *)
Definition well_placed (e : wake_event) : Prop := match e with RunTask here => here = true | _ => True end.
Inductive wake_reachable (p : poster) : wake → Prop :=
| wake_start : wake_reachable p wake_init
| wake_next e w w' : wake_reachable p w → well_placed e → wake_exec p e w = Some w' → wake_reachable p w'.

Lemma wake_run_reachable p es : ∀ w w', wake_reachable p w → Forall well_placed es → wake_run p es w = Some w' →
  wake_reachable p w'.
Proof.
  induction es as [|e es IH]; intros w w' Hw Hp Hr; [by injection Hr as <-|]. apply Forall_cons in Hp as [He Hp]. cbn [wake_run] in Hr.
  destruct (wake_exec p e w) as [w1|] eqn:E; [|done]. eapply IH; [|exact Hp|exact Hr]. by eapply wake_next.
Qed.

(** ** The invariant *)

(** The flags of a machine that is not in [ProcessCommand]. *)
Definition rested (h : handler) : Prop :=
  (waitingForDebugger_ h = true → activations h ≠ []) ∧
  match activations h with
  | [] | [mkFrame AtLock _] | [mkFrame (Asleep _) _] => isDispatchingMessage_ h = false
  | _ => True
  end.

Lemma exec_rested e h h' : exec e h = Some h' → shaped h → rested h → rested h'.
Proof.
  unfold rested. intros He Hs [Hw Hd]. destruct e; cbn [exec] in He.
  - injection He as <-. simpl. destruct (activations h) as [|[[] q] st]; simpl in *; naive_solver.
  - destruct (may_call h) eqn:Hc; [|done]. injection He as <-. simpl. split; [done|].
    unfold may_call in Hc. by destruct (activations h) as [|[[] q] st].
  - destruct (may_call h) eqn:Hc; [|done]. injection He as <-. simpl. split; [done|].
    unfold may_call in Hc. by destruct (activations h) as [|[[] q] st].
  - destruct (may_call h); [|done]. by injection He as <-.
  - unfold shaped in Hs. destruct (activations h) as [|[[|b| |m] q] st] eqn:Ea; try done. simpl in *. destruct Hs as [HF _].
    destruct (requestQueue_ h); [|by injection He as <-]. destruct (waitingForDebugger_ h) eqn:Ew; injection He as <-; simpl.
    + by destruct st.
    + rewrite Ew. split; [done|]. destruct st as [|[p q'] st]; [done|]. apply Forall_cons in HF as [[m Hm] _]. simpl in Hm. by subst.
  - destruct (activations h) as [|[[|b| |m] q] st]; try done. by injection He as <-.
  - destruct (activations h) as [|[[|b| |m] [|m' q]] st]; try done. by injection He as <-.
  - destruct (activations h) as [|[[|b| |m] [|m' q]] st]; try done. injection He as <-. simpl. by destruct st.
  - destruct (activations h) as [|[[|b| |m] q] st]; try done. by injection He as <-.
Qed.

(** A step of the machine neither leaves messages behind when it comes to rest nor
    makes any. *)
Lemma exec_rest e h h' : exec e h = Some h' → from_server e = false → activations h' = [] →
  requestQueue_ h' = [] ∨ activations h = [] ∧ requestQueue_ h' = requestQueue_ h.
Proof.
  intros He Hf Ha. destruct e; cbn [exec from_server] in *; try done.
  - destruct (may_call h); by simplify_eq.
  - destruct (may_call h); by simplify_eq.
  - destruct (may_call h); [|done]. simplify_eq. by right.
  - destruct (activations h) as [|[[|b| |m] q] st]; try done. destruct (requestQueue_ h) eqn:Eq; [|by simplify_eq].
    left. by destruct (waitingForDebugger_ h); simplify_eq/=.
  - destruct (activations h) as [|[[|b| |m] q] st]; by simplify_eq.
  - destruct (activations h) as [|[[|b| |m] [|m' q]] st]; by simplify_eq.
  - destruct (activations h) as [|[[|b| |m] [|m' q]] st]; by simplify_eq.
  - destruct (activations h) as [|[[|b| |m] q] st]; by simplify_eq.
Qed.

(** A machine at rest with messages in its queue is about to be woken. *)
Definition attended (w : wake) : Prop :=
  activations (w_handler w) = [] → requestQueue_ (w_handler w) ≠ [] → w_server w ≠ SIdle ∨ (0 < w_tasks w)%nat.
Definition wake_inv (w : wake) : Prop := shaped (w_handler w) ∧ rested (w_handler w) ∧ attended w.

Lemma rest_status h : rested h → activations h = [] → requestQueue_ h ≠ [] → status_known h = false.
Proof.
  unfold rested, status_known, GetDispatchStatus. intros [Hw Hd] Ha Hq. rewrite Ha in Hw, Hd. rewrite Hd.
  destruct (waitingForDebugger_ h); [by destruct Hw|]. simpl. by destruct (requestQueue_ h).
Qed.
Lemma exec_push e h h' : exec e h = Some h' → (e = ProcessCommand ∨ e = WaitForDebugger) → activations h' ≠ [].
Proof. intros He [-> | ->]; cbn [exec] in He; destruct (may_call h); by simplify_eq. Qed.

Lemma wake_step_inv p e w w' : posts p = true → well_placed e → wake_exec p e w = Some w' → wake_inv w → wake_inv w'.
Proof.
  unfold wake_inv, attended. destruct w as [h pc tasks]. intros Hpost Hp He (Hs & Hr & Ht).
  destruct e as [msg| | | |here|e]; cbn [wake_exec] in He.
  - destruct pc; try done. destruct (exec _ h) as [h'|] eqn:E; [|done]. injection He as <-.
    split_and!; [by eapply exec_shaped|by eapply exec_rested|intros; by left].
  - destruct pc; try done. simplify_eq/=. split_and!; [done|done|]. intros Ha Hq. rewrite (rest_status h) by done. by left.
  - destruct pc; try done. simplify_eq/=. split_and!; [done|done|]. intros Ha Hq. rewrite (rest_status h) by done. by left.
  - destruct pc; try done. rewrite Hpost in He. simplify_eq/=. split_and!; [done|done|]. intros. right. lia.
  - destruct tasks as [|tasks]; [by destruct pc|]. simpl in Hp. subst here.
    destruct (exec ProcessCommand h) as [h'|] eqn:E; destruct pc; try done; injection He as <-;
      (split_and!; [by eapply exec_shaped|by eapply exec_rested|intros Ha; exfalso; by apply (exec_push _ _ _ E); [left|]]).
  - destruct (from_server e) eqn:Ef; [by destruct pc|]. destruct (exec e h) as [h'|] eqn:E; [|by destruct pc].
    assert (w' = mkWake h' pc tasks) as -> by (by destruct pc; injection He as <-). cbn [w_handler w_server w_tasks].
    split_and!; [by eapply exec_shaped|by eapply exec_rested|]. intros Ha Hq.
    destruct (exec_rest _ _ _ E Ef Ha) as [?|[? Heq]]; [done|]. apply Ht; [done|]. cbn [w_handler] in Hq. by rewrite Heq in Hq.
Qed.
Lemma wake_reachable_inv p w : posts p = true → wake_reachable p w → wake_inv w.
Proof. intros Hpost. induction 1 as [|e w w' _ IH Hp He]; [split_and!; [done|by split|by intros _ []]|]. by eapply wake_step_inv. Qed.

(** ** No message is stranded *)

Lemma wake_run_app p es es' w : wake_run p (es ++ es') w = wake_run p es w ≫= wake_run p es'.
Proof. revert w. induction es as [|e es IH]; intros w; [done|]. simpl. by destruct (wake_exec p e w); [apply IH|]. Qed.
Lemma machine_run p es : ∀ h h' pc tasks, run es h = Some h' → forallb (negb ∘ from_server) es = true →
  wake_run p (Machine <$> es) (mkWake h pc tasks) = Some (mkWake h' pc tasks).
Proof.
  induction es as [|e es IH]; intros h h' pc tasks Hr Hf; [by injection Hr as ->|]. simpl in Hf. apply andb_true_iff in Hf as [Hf Hfs].
  cbn [run] in Hr. destruct (exec e h) as [h1|] eqn:E; [|done]. cbn [fmap list_fmap wake_run wake_exec].
  replace (from_server e) with false by (by destruct (from_server e)). rewrite E. simpl. destruct pc; by apply IH.
Qed.

(** The steps that take the server thread to its end. *)
Definition finish (pc : server_pc) : list wake_event :=
  match pc with
  | SIdle => []
  | SQueued => [FirstLook; SecondLook; PostTask]
  | SSlept => [SecondLook; PostTask]
  | SPosting => [PostTask]
  end.
Lemma finish_run p h pc tasks : posts p = true → status_known h = false → pc ≠ SIdle →
  wake_run p (finish pc) (mkWake h pc tasks) = Some (mkWake h SIdle (S tasks)).
Proof. intros Hpost Hk Hp. destruct pc; [done|..]; simpl; rewrite ?Hk; simpl; rewrite ?Hk; simpl; by rewrite Hpost. Qed.

(** A posted task empties the queue. *)
Lemma task_drains p h tasks : rested h → activations h = [] → requestQueue_ h ≠ [] →
  wake_run p (RunTask true :: (Machine <$> [Lock] ++ serve (requestQueue_ h) ++ [Drained; Lock])) (mkWake h SIdle (S tasks)) =
    Some (mkWake (mkHandler [] false false [] (sent h) (handled h ++ requestQueue_ h)) SIdle tasks).
Proof.
  intros [Hw _] Ha Hq. assert (Hm : may_call h = true) by (unfold may_call; by rewrite Ha).
  assert (Hn : waitingForDebugger_ h = false) by (destruct (waitingForDebugger_ h); [by destruct Hw|done]).
  pose proof (process_command_drains h Hm Hn Hq) as Hd. rewrite Ha in Hd. cbn [app] in Hd.
  change (run (ProcessCommand :: ?l) h) with (exec ProcessCommand h ≫= run l) in Hd. cbn [wake_run wake_exec].
  destruct (exec ProcessCommand h) as [h1|]; [|done]. cbn [mbind option_bind fmap option_fmap option_map] in Hd |- *.
  apply machine_run; [exact Hd|]. apply forallb_forall. intros e He. apply list_elem_of_In in He.
  unfold serve in He. destruct e; try done. exfalso. set_unfold. naive_solver.
Qed.

(** C11: when the inspector posts tasks (the application has given a function for it,
    and the inspector was not started for a socket pair on another platform than
    OpenHarmony) and tasks are run on the thread they are meant for, no message that the
    server passes to a debugger is stranded, in whatever order the threads run: whenever
    the machine is not in the handler and the queue is not empty, the server thread is
    still busy with a message or a task has been posted; and from there, without any
    further message, the steps of the two threads lead to a state in which every
    message of the queue has been handled, in order. *)
Theorem no_message_stranded (p : poster) (w : wake) :
  posts p = true → wake_reachable p w → activations (w_handler w) = [] → requestQueue_ (w_handler w) ≠ [] →
  (w_server w ≠ SIdle ∨ (0 < w_tasks w)%nat) ∧
  ∃ es w', Forall (λ e, ∀ msg, e ≠ Receive msg) es ∧ wake_run p es w = Some w' ∧
    requestQueue_ (w_handler w') = [] ∧ w_server w' = SIdle ∧
    handled (w_handler w') = handled (w_handler w) ++ requestQueue_ (w_handler w).
Proof.
  intros Hpost Hw Ha Hq. destruct (wake_reachable_inv p w Hpost Hw) as (_ & Hr & Ht). specialize (Ht Ha Hq). split; [done|].
  destruct w as [h pc tasks]. cbn [w_handler w_server w_tasks] in *.
  pose (drain := RunTask true :: (Machine <$> [Lock] ++ serve (requestQueue_ h) ++ [Drained; Lock])).
  assert (Hn : Forall (λ e, ∀ msg, e ≠ Receive msg) (finish pc ++ drain)).
  { apply Forall_app. split; [by destruct pc; repeat constructor|]. constructor; [done|]. apply Forall_fmap, Forall_true. done. }
  assert (Hd : ∃ n, wake_run p (finish pc) (mkWake h pc tasks) = Some (mkWake h SIdle (S n))).
  { destruct (decide (pc = SIdle)) as [->|Hp].
    - destruct tasks as [|n]; [destruct Ht; [done|lia]|]. by exists n.
    - exists tasks. apply finish_run; [done|by apply rest_status|done]. }
  destruct Hd as [n En]. eexists (finish pc ++ drain), _.
  rewrite wake_run_app, En. cbn [mbind option_bind]. unfold drain. rewrite (task_drains p h n) by done. done.
Qed.

(** When it does not post tasks, a message for a machine at rest stays in the
    queue. *)
Lemma no_poster_strands (p : poster) (msg : bytes) : posts p = false →
  ∃ w, wake_reachable p w ∧ requestQueue_ (w_handler w) = [msg] ∧ activations (w_handler w) = [] ∧ w_server w = SIdle ∧ w_tasks w = 0%nat.
Proof.
  intros Hpost. exists (mkWake (mkHandler [msg] false false [] [msg] []) SIdle 0). split_and!; [|done..].
  eapply (wake_run_reachable p [Receive msg; FirstLook; SecondLook; PostTask] wake_init); [constructor|repeat constructor|].
  cbn. by rewrite Hpost.
Qed.

Definition demo_poster : poster := mkPoster true true true.
Lemma no_message_stranded_witness :
  let w := mkWake (mkHandler [str "a"] false false [] [str "a"] []) SSlept 0 in
  ∃ es w', wake_run demo_poster es w = Some w' ∧ handled (w_handler w') = [str "a"].
Proof.
  intros w. assert (Hw : wake_reachable demo_poster w).
  { by eapply (wake_run_reachable demo_poster [Receive (str "a"); FirstLook] wake_init); [constructor|repeat constructor|]. }
  destruct (no_message_stranded demo_poster w ltac:(reflexivity) Hw ltac:(reflexivity) ltac:(discriminate)) as (_ & es & w' & _ & E & _ & _ & Hh).
  exists es, w'. split; [exact E|exact Hh].
Defined.
