(* ===== verification/InspectorLibrary.v ===== *)
(** * The inspector library

    Models src/inspector: inspector.cpp (the table of the inspectors, starting and
    stopping the debugger of a machine, messages and replies), init_static.cpp (the
    functions of the static debugger) and the use of library_loader.cpp. The
    first part is tooling/dynamic/debugger_service.cpp: the functions that the
    inspector looks up in the debugger library, on the table of the handlers that
    the virtual machines hold. A machine is a number, 0 for no machine; which
    machines still have their debugger manager is the class [Vms].

    A loaded library is counted as dlopen and dlclose do: closing the last handle
    unloads it, and what is loaded later is another copy ([lib_gen]). A function
    pointer remembers the copy it was taken from; calling a null pointer or one of a
    copy that is gone has no defined behaviour and is the outcome [Throw]. The
    answers of dlopen, dlsym and pthread_create are arguments. *)

From S2P Require Import Prelude Regex Http CppLib Utils PtJson PtCodec PtTypes Dispatcher ProtocolHandler.
Local Open Scope Z_scope.
Local Open Scope ark_scope.

(** ** The debugger service *)

Class Vms := has_manager : Z → bool.

(** What a debugger manager holds: the handler with the machine whose replies its
    callback sends and its mode, and the flag of the application. *)
Record vm_debugger := mkVmDebugger {
  vd_handler : option (handler * Z * bool);
  vd_isDebugApp : bool }.
Definition no_debugger : vm_debugger := mkVmDebugger None false.
Abbreviation service := (gmap Z vm_debugger).

Section service.
Context `{Vms}.

Definition usable (vm : Z) : bool := negb (vm =? 0) && has_manager vm.
Definition debugger_of (vm : Z) (sv : service) : vm_debugger := default no_debugger (sv !! vm).
Definition handler_of (vm : Z) (sv : service) : option handler := (λ h, h.1.1) <$> vd_handler (debugger_of vm sv).

Definition Service_InitializeDebugger (vm onResponse : Z) (isHybrid : bool) (sv : service) : service :=
  if negb (usable vm) then sv
  else match vd_handler (debugger_of vm sv) with
       | Some _ => sv
       | None => <[vm := mkVmDebugger (Some (handler_init, onResponse, isHybrid)) (vd_isDebugApp (debugger_of vm sv))]> sv
       end.

Definition Service_SetDebugApp (vm : Z) (sv : service) : service :=
  if negb (usable vm) then sv else <[vm := mkVmDebugger (vd_handler (debugger_of vm sv)) true]> sv.

Definition Service_UninitializeDebugger (vm : Z) (sv : service) : service :=
  if negb (usable vm) then sv else <[vm := mkVmDebugger None (vd_isDebugApp (debugger_of vm sv))]> sv.

(** A call of the handler of a machine. *)
Definition on_handler (vm : Z) (e : event) (sv : service) : service :=
  if negb (usable vm) then sv
  else match vd_handler (debugger_of vm sv) with
       | Some (h, r, hybrid) =>
           match exec e h with
           | Some h' => <[vm := mkVmDebugger (Some (h', r, hybrid)) (vd_isDebugApp (debugger_of vm sv))]> sv
           | None => sv
           end
       | None => sv
       end.
Definition Service_WaitForDebugger (vm : Z) : service → service := on_handler vm WaitForDebugger.
Definition Service_OnMessage (vm : Z) (message : bytes) : service → service := on_handler vm (DispatchCommand message).
Definition Service_ProcessMessage (vm : Z) : service → service := on_handler vm ProcessCommand.

Definition Service_GetDispatchStatus (vm : Z) (sv : service) : DispatchStatus :=
  if negb (usable vm) then UNKNOWN
  else match handler_of vm sv with Some h => GetDispatchStatus h | None => UNKNOWN end.

(** ** Lemmas *)

Lemma debugger_of_insert vm vm' d sv : debugger_of vm' (<[vm := d]> sv) = if decide (vm = vm') then d else debugger_of vm' sv.
Proof. unfold debugger_of. by rewrite lookup_insert; case_decide. Qed.

(** A message is appended to the queue of its machine, and no other machine is
    concerned. *)
Lemma Service_OnMessage_spec vm message sv h :
  usable vm = true → handler_of vm sv = Some h →
  (∃ h', handler_of vm (Service_OnMessage vm message sv) = Some h' ∧ requestQueue_ h' = requestQueue_ h ++ [message] ∧ sent h' = sent h ++ [message]) ∧
  (∀ vm', vm' ≠ vm → debugger_of vm' (Service_OnMessage vm message sv) = debugger_of vm' sv).
Proof.
  unfold Service_OnMessage, on_handler, handler_of. intros -> Hh. cbn [negb]. destruct (vd_handler (debugger_of vm sv)) as [[[h0 r] hy]|]; [|done].
  injection Hh as ->. cbn [exec]. split.
  - rewrite debugger_of_insert, decide_True by done. cbn. by eexists.
  - intros vm' Hne. by rewrite debugger_of_insert, decide_False.
Qed.

End service.

(** ** The library *)

Class InspectorBuild := ohos_platform : bool.

(** ** The state *)

Record sys := mkSys {
  sys_load : bool;
  sys_symbol : string → bool;
  sys_thread : bool;
  sys_load_static : bool;
  sys_symbol_static : string → bool }.

Record DebugInfo := mkDebugInfo { di_socketfd : Z; di_componentName : bytes; di_instanceId : Z; di_port : Z }.

(** The server of an inspector: its number, its mode, and whether its thread was
    created. *)
Record ws_server := mkWsServer { wso_id : nat; wso_info : DebugInfo; wso_hybrid : bool; wso_thread : bool }.

(** A machine's poster of tasks is a number; 0 is no machine and no thread. *)
Record Inspector := mkInspector {
  in_tid_ : Z;
  in_tidForSocketPair_ : Z;
  in_vm_ : Z;
  in_websocketServer_ : ws_server;
  in_debuggerPostTask_ : option Z }.

(** A posted task: by which poster, for which thread (by its thread or its kernel
    number) and which machine. *)
Inductive task_thread := OnPthread (tid : Z) | OnTid (tid : Z).
Record task := mkTask { tk_poster : Z; tk_thread : task_thread; tk_vm : Z }.

Inductive lib_effect :=
| Written (server : nat) (message : bytes)
| Stopped (server : nat)
| Posted (t : task)
| StaticCall (symbol : string) (message : bytes).

Record lib := mkLib {
  g_hasArkFuncsInited : bool;
  g_funcs : gmap string Z;
  g_inspectors : gmap Z Inspector;
  g_debuggerInfo : gmap Z (Z * option Z);
  g_handle : gset Z;
  g_vm : gmap Z Z;
  lib_refs : nat;
  lib_gen : Z;
  g_debuggerHandle : bool;
  g_static : gset string;
  sv : service;
  effects : list lib_effect;
  next_server : nat }.

(** [others]: how often something else than the inspector has the library open. *)
Definition lib_init (others : nat) : lib := mkLib false ∅ ∅ ∅ ∅ ∅ others 0 false ∅ ∅ [] 0.

Definition set_inited v s := mkLib v (g_funcs s) (g_inspectors s) (g_debuggerInfo s) (g_handle s) (g_vm s) (lib_refs s) (lib_gen s) (g_debuggerHandle s) (g_static s) (sv s) (effects s) (next_server s).
Definition set_funcs v s := mkLib (g_hasArkFuncsInited s) v (g_inspectors s) (g_debuggerInfo s) (g_handle s) (g_vm s) (lib_refs s) (lib_gen s) (g_debuggerHandle s) (g_static s) (sv s) (effects s) (next_server s).
Definition set_inspectors v s := mkLib (g_hasArkFuncsInited s) (g_funcs s) v (g_debuggerInfo s) (g_handle s) (g_vm s) (lib_refs s) (lib_gen s) (g_debuggerHandle s) (g_static s) (sv s) (effects s) (next_server s).
Definition set_info v s := mkLib (g_hasArkFuncsInited s) (g_funcs s) (g_inspectors s) v (g_handle s) (g_vm s) (lib_refs s) (lib_gen s) (g_debuggerHandle s) (g_static s) (sv s) (effects s) (next_server s).
Definition set_loaded h r g s := mkLib (g_hasArkFuncsInited s) (g_funcs s) (g_inspectors s) (g_debuggerInfo s) h (g_vm s) r g (g_debuggerHandle s) (g_static s) (sv s) (effects s) (next_server s).
Definition set_vm v s := mkLib (g_hasArkFuncsInited s) (g_funcs s) (g_inspectors s) (g_debuggerInfo s) (g_handle s) v (lib_refs s) (lib_gen s) (g_debuggerHandle s) (g_static s) (sv s) (effects s) (next_server s).
Definition set_static h f s := mkLib (g_hasArkFuncsInited s) (g_funcs s) (g_inspectors s) (g_debuggerInfo s) (g_handle s) (g_vm s) (lib_refs s) (lib_gen s) h f (sv s) (effects s) (next_server s).
Definition set_sv v s := mkLib (g_hasArkFuncsInited s) (g_funcs s) (g_inspectors s) (g_debuggerInfo s) (g_handle s) (g_vm s) (lib_refs s) (lib_gen s) (g_debuggerHandle s) (g_static s) v (effects s) (next_server s).
Definition add_effect e s := mkLib (g_hasArkFuncsInited s) (g_funcs s) (g_inspectors s) (g_debuggerInfo s) (g_handle s) (g_vm s) (lib_refs s) (lib_gen s) (g_debuggerHandle s) (g_static s) (sv s) (effects s ++ [e]) (next_server s).
Definition count_server s := mkLib (g_hasArkFuncsInited s) (g_funcs s) (g_inspectors s) (g_debuggerInfo s) (g_handle s) (g_vm s) (lib_refs s) (lib_gen s) (g_debuggerHandle s) (g_static s) (sv s) (effects s) (S (next_server s)).

Definition L (A : Type) : Type := M lib A.
Definition updL (f : lib → lib) : L () := m_modify f.
Definition undefined {A} : L A := λ s, Throw s.

Section library.
Context `{Vms} `{InspectorBuild}.

(** ** Loading *)

Definition Load (t : Z) (s : lib) : lib :=
  set_loaded ({[t]} ∪ g_handle s) (S (lib_refs s)) (if decide (lib_refs s = 0%nat) then lib_gen s + 1 else lib_gen s) s.
Definition CloseHandle (t : Z) (s : lib) : lib := set_loaded (g_handle s ∖ {[t]}) (lib_refs s - 1) (lib_gen s) s.
Definition close_handle (t : Z) : L () := updL (λ s, if decide (t ∈ g_handle s) then CloseHandle t s else s).

Definition LoadArkDebuggerLibrary (t : Z) (a : sys) : L bool :=
  s <-- m_get ;;
  if decide (t ∈ g_handle s) then m_ret true
  else if sys_load a then updL (Load t) ;;; m_ret true else m_ret false.

(** A call through a pointer. *)
Definition mapped (symbol : string) (s : lib) : bool :=
  match g_funcs s !! symbol with Some gen => (gen =? lib_gen s) && (0 <? lib_refs s)%nat | None => false end.
Definition call {A} (symbol : string) (f : service → A * service) : L A :=
  s <-- m_get ;;
  if mapped symbol s then let '(a, v) := f (sv s) in updL (set_sv v) ;;; m_ret a else undefined.
Definition call_do (symbol : string) (f : service → service) : L () := call symbol (λ v, ((), f v)).

(** WsServer::StopServer joins the thread of the server. *)
Definition StopServer (w : ws_server) : L () :=
  if wso_thread w then updL (add_effect (Stopped (wso_id w))) else undefined.

Definition ResetServiceLocked (t vm : Z) (isCloseHandle : bool) : L () :=
  s <-- m_get ;;
  match g_inspectors s !! vm with
  | Some i => StopServer (in_websocketServer_ i) ;;; updL (λ s, set_inspectors (delete vm (g_inspectors s)) s)
  | None => m_ret ()
  end ;;;
  if isCloseHandle then close_handle t else m_ret ().

Definition ark_symbols : list string :=
  ["InitializeDebugger"; "UninitializeDebugger"; "WaitForDebugger"; "OnMessage"; "GetDispatchStatus"; "ProcessMessage";
   "GetCallFrames"; "OperateDebugMessage"; "SetDebugApp"]%string.

Fixpoint resolve_all (t : Z) (a : sys) (symbols : list string) : L bool :=
  match symbols with
  | [] => m_ret true
  | symbol :: rest =>
      if sys_symbol a symbol then updL (λ s, set_funcs (<[symbol := lib_gen s]> (g_funcs s)) s) ;;; resolve_all t a rest
      else
        updL (λ s, set_funcs (delete symbol (g_funcs s)) s) ;;;
        s <-- m_get ;; ResetServiceLocked t (default 0 (g_vm s !! t)) true ;;; m_ret false
  end.
Definition InitializeArkFunctionsOthers (t : Z) (a : sys) : L bool := resolve_all t a ark_symbols.
Definition InitializeArkFunctions (t : Z) (a : sys) : L bool :=
  s <-- m_get ;;
  if g_hasArkFuncsInited s then m_ret true
  else
    ok <-- InitializeArkFunctionsOthers t a ;;
    if ok : bool then updL (set_inited true) ;;; m_ret true else m_ret false.

(** ** The static debugger *)

Definition static_symbols : list string :=
  ["InitializeInspector"; "StartDebugger"; "StopDebugger"; "HandleMessage"; "StopInspector"; "WaitForDebugger";
   "GetStaticCallFrames"; "OperateJsDebugMessageForStatic"; "IsStaticRuntimeOnCurrentThread"]%string.
Fixpoint resolve_static (a : sys) (symbols : list string) : L bool :=
  match symbols with
  | [] => m_ret true
  | symbol :: rest =>
      if sys_symbol_static a symbol then updL (λ s, set_static true ({[symbol]} ∪ g_static s) s) ;;; resolve_static a rest
      else m_ret false
  end.
Definition InitializeArkFunctionsForStatic (a : sys) : L bool :=
  s <-- m_get ;;
  if g_debuggerHandle s then m_ret true
  else if negb (sys_load_static a) then m_ret false
  else updL (λ s, set_static true (g_static s) s) ;;; resolve_static a static_symbols.
Definition call_static (symbol : string) (message : bytes) : L () :=
  s <-- m_get ;;
  if decide (symbol ∈ g_static s) then updL (add_effect (StaticCall symbol message)) else undefined.

Definition OnMessageStatic (message : bytes) : L () := call_static "HandleMessage" message.
Definition StopDebuggerForStatic : L Z := call_static "StopInspector" [] ;;; m_ret 0.
Definition StartDebuggerForStatic : L bool := call_static "InitializeInspector" [] ;;; m_ret true.
Definition WaitForDebuggerForStatic : L () := call_static "WaitForDebugger" [].
(** A failure of the initialisation is only logged. *)
Definition StartDebuggerInitForStatic (port : Z) (a : sys) : L Z :=
  InitializeArkFunctionsForStatic a ;;; call_static "StartDebugger" (to_string port) ;;; m_ret 1.
Definition StopDebuggerInitForStatic (a : sys) : L Z :=
  InitializeArkFunctionsForStatic a ;;; call_static "StopDebugger" [] ;;; m_ret 1.
Definition StartDebugger : Z → sys → L Z := StartDebuggerInitForStatic.
Definition StopDebugger : sys → L Z := StopDebuggerInitForStatic.

(** ** Messages *)

(** [std::regex_search], and the two patterns: the key with the beginning of a
    string, and the key with a string of digits. The group of the second one holds
    digits only, so that the test of its characters is always passed. *)
Definition Space : re := Cls (λ c, (c =? 32) || ((9 <=? c) && (c <=? 13))).
Definition Any : re := Cls (λ _, true).
Definition regex_search (msg : bytes) (r : re) : bool := regex_match msg (Cat (Star Any) (Cat r (Star Any))).
Definition key_text : bytes := [34] ++ str "sessionId" ++ [34].
Definition hasKey : re := Cat (Lit Chr key_text) (Cat (Star Space) (Cat (Chr 58) (Cat (Star Space) (Chr 34)))).
Definition valPattern : re := Cat hasKey (Cat (Star Digit) (Chr 34)).

Inductive destination := ToDynamic | ToStatic | ToNobody.
Definition route_message (isHybrid : bool) (msg : bytes) : destination :=
  if isHybrid then
    if negb (regex_search msg hasKey) then ToDynamic
    else if regex_search msg valPattern then ToStatic else ToNobody
  else ToDynamic.

Definition status_of (vm : Z) : L DispatchStatus := call "GetDispatchStatus" (λ v, (Service_GetDispatchStatus vm v, v)).

(** [between]: what the machine does while the thread of the server sleeps. *)
Definition wake_debugger (i : Inspector) (between : service → service) : L () :=
  first <-- status_of (in_vm_ i) ;;
  match first with
  | UNKNOWN =>
      updL (λ s, set_sv (between (sv s)) s) ;;;
      second <-- status_of (in_vm_ i) ;;
      match second with
      | UNKNOWN =>
          match in_debuggerPostTask_ i with
          | Some p =>
              if in_tidForSocketPair_ i =? 0 then updL (add_effect (Posted (mkTask p (OnPthread (in_tid_ i)) (in_vm_ i))))
              else if ohos_platform then updL (add_effect (Posted (mkTask p (OnTid (in_tidForSocketPair_ i)) (in_vm_ i))))
              else m_ret ()
          | None => m_ret ()
          end
      | _ => m_ret ()
      end
  | _ => m_ret ()
  end.
Definition Inspector_OnMessage (i : Inspector) (msg : bytes) (isHybrid : bool) (between : service → service) : L () :=
  match route_message isHybrid msg with
  | ToStatic => OnMessageStatic msg
  | ToNobody => m_ret ()
  | ToDynamic => call_do "OnMessage" (Service_OnMessage (in_vm_ i) msg) ;;; wake_debugger i between
  end.

(** A posted task runs on some thread, which has a thread and a kernel number. *)
Definition run_task (t : task) (self kernel : Z) : L () :=
  if match tk_thread t with OnPthread tid => tid =? self | OnTid tid => tid =? i32 kernel end
  then call_do "ProcessMessage" (Service_ProcessMessage (tk_vm t)) else m_ret ().

(** A reply goes to the server of its machine. When it cannot be written, the
    debugger is told that the client is gone. [sent]: what the websocket answers,
    [None] when the server has none. *)
Definition clientDisconnect : bytes :=
  let q (t : string) := [34] ++ str t ++ [34] in
  str "{" ++ q "id" ++ str ":0, " ++ q "method" ++ str ":" ++ q "Debugger.clientDisconnect" ++ str ", " ++ q "params" ++ str ":{}}".
Definition Inspector_SendReply (vm : Z) (message : bytes) (sent : option bool) (between : service → service) : L () :=
  s <-- m_get ;;
  match g_inspectors s !! vm with
  | Some i =>
      let w := in_websocketServer_ i in
      match sent with
      | None => m_ret ()
      | Some true => updL (add_effect (Written (wso_id w) message))
      | Some false => Inspector_OnMessage i clientDisconnect (wso_hybrid w) between
      end
  | None => m_ret ()
  end.

(** ** Starting and stopping *)

Definition InitializeInspector (t vm : Z) (post : option Z) (info : DebugInfo) (tidForSocketPair : Z) (isHybrid : bool) (a : sys) : L bool :=
  s <-- m_get ;;
  match g_inspectors s !! vm with
  | Some _ => m_ret true
  | None =>
      let w := mkWsServer (next_server s) info isHybrid (sys_thread a) in
      updL count_server ;;;
      updL (λ s, set_inspectors (<[vm := mkInspector t tidForSocketPair vm w post]> (g_inspectors s)) s) ;;;
      m_ret (sys_thread a)
  end.

Definition GetDebuggerPostTask (tid : Z) (s : lib) : option Z := g_debuggerInfo s !! tid ≫= snd.
Definition GetEcmaVM (tid : Z) (s : lib) : Z := default 0 (fst <$> g_debuggerInfo s !! tid).

Definition StoreDebuggerInfo (tid vm : Z) (post : option Z) : L () :=
  updL (λ s, set_info (<[tid := (vm, post)]> (delete tid (g_debuggerInfo s))) s).

Definition InitializeDebuggerForSocketpair (t vm : Z) (isHybrid : bool) (a : sys) : L bool :=
  loaded <-- LoadArkDebuggerLibrary t a ;;
  if negb loaded then m_ret false else
  ready <-- InitializeArkFunctions t a ;;
  if negb ready then m_ret false else
  ok <-- (if isHybrid then
            static <-- InitializeArkFunctionsForStatic a ;;
            if negb static then m_ret false else call_do "SetDebugApp" (Service_SetDebugApp vm) ;;; m_ret true
          else m_ret true) ;;
  if negb ok then m_ret false
  else call_do "InitializeDebugger" (Service_InitializeDebugger vm vm isHybrid) ;;; m_ret true.

Definition StartDebugForSocketpair (t tid socketfd : Z) (isHybrid : bool) (a : sys) : L bool :=
  s <-- m_get ;;
  let vm := GetEcmaVM tid s in
  if vm =? 0 then m_ret false else
  updL (λ s, set_vm (<[t := vm]> (g_vm s)) s) ;;;
  ready <-- InitializeDebuggerForSocketpair t vm isHybrid a ;;
  if negb ready then m_ret false else
  s <-- m_get ;;
  InitializeInspector t vm (GetDebuggerPostTask tid s) (mkDebugInfo socketfd [] 0 (-1)) tid isHybrid a.

Definition StartDebug (t : Z) (componentName : bytes) (vm : Z) (isDebugMode : bool) (instanceId : Z) (post : option Z) (port : Z)
    (a : sys) : L bool :=
  updL (λ s, set_vm (<[t := vm]> (g_vm s)) s) ;;;
  loaded <-- LoadArkDebuggerLibrary t a ;;
  if negb loaded then m_ret false else
  ready <-- InitializeArkFunctions t a ;;
  if negb ready then m_ret false else
  call_do "InitializeDebugger" (Service_InitializeDebugger vm vm false) ;;;
  started <-- InitializeInspector t vm post (mkDebugInfo (-2) componentName instanceId port) 0 false a ;;
  if negb started then m_ret false else
  (if isDebugMode && (0 <? port) then call_do "WaitForDebugger" (Service_WaitForDebugger vm) else m_ret ()) ;;;
  m_ret true.

Definition Inspector_WaitForDebugger (vm : Z) : L () := call_do "WaitForDebugger" (Service_WaitForDebugger vm).

Definition StopDebug (t vm : Z) (isHybrid : bool) : L () :=
  s <-- m_get ;;
  match g_inspectors s !! vm with
  | None => m_ret ()
  | Some i =>
      let tid := i32 (wrap 32 (if ohos_platform then in_tidForSocketPair_ i else in_tid_ i)) in
      updL (λ s, set_info (delete tid (g_debuggerInfo s)) s) ;;;
      ResetServiceLocked t vm false ;;;
      call_do "UninitializeDebugger" (Service_UninitializeDebugger vm) ;;;
      close_handle t ;;;
      if isHybrid then StopDebuggerForStatic ;;; m_ret () else m_ret ()
  end.

Definition StopOldDebug (t tid : Z) : L () :=
  s <-- m_get ;;
  let vm := GetEcmaVM tid s in
  if vm =? 0 then m_ret ()
  else match g_inspectors s !! vm with None => m_ret () | Some _ => ResetServiceLocked t vm false end.

(** ** Questions of a native debugger

    [current]: the number of the running thread or task; the answers of the
    functions that are called are arguments. The result is the text, [None] for a
    null pointer. *)
Definition IsStaticRuntimeOnCurrentThreadForStatic (answer : bool) (s : lib) : bool :=
  bool_decide ("IsStaticRuntimeOnCurrentThread"%string ∈ g_static s) && answer.
Definition static_answer (symbol : string) (answer : option bytes) (s : lib) : option bytes :=
  if decide (symbol ∈ g_static s) then answer else None.
Definition GetJsBacktraceV1 (current : Z) (on_static : bool) (static_frames : option bytes) (frames : Z → option bytes) : L (option bytes) :=
  if negb ohos_platform then m_ret None else
  s <-- m_get ;;
  if IsStaticRuntimeOnCurrentThreadForStatic on_static s then m_ret (static_answer "GetStaticCallFrames" static_frames s)
  else
    let vm := GetEcmaVM current s in
    if vm =? 0 then m_ret None
    else match g_funcs s !! "GetCallFrames"%string with
         | None => m_ret None
         | Some _ => call "GetCallFrames" (λ v, (frames vm, v))
         end.
Definition OperateJsDebugMessageV1 (current : Z) (on_static : bool) (message : option bytes) (static_result : option bytes)
    (result : Z → bytes → option bytes) : L (option bytes) :=
  if negb ohos_platform then m_ret None else
  match message with
  | None => m_ret None
  | Some text =>
      s <-- m_get ;;
      if IsStaticRuntimeOnCurrentThreadForStatic on_static s then m_ret (static_answer "OperateJsDebugMessageForStatic" static_result s)
      else match g_funcs s !! "OperateDebugMessage"%string with
           | None => m_ret None
           | Some _ => call "OperateDebugMessage" (λ v, (result (GetEcmaVM current s) text, v))
           end
  end.
Definition GetJsBacktrace (current : Z) (on_static : bool) (static_frames : option bytes) (frames : Z → option bytes) : L bytes :=
  r <-- GetJsBacktraceV1 current on_static static_frames frames ;; m_ret (default [] r).
Definition OperateJsDebugMessage (current : Z) (on_static : bool) (message : option bytes) (static_result : option bytes)
    (result : Z → bytes → option bytes) : L bytes :=
  r <-- OperateJsDebugMessageV1 current on_static message static_result result ;; m_ret (default [] r).

End library.
