(* ===== verification/InspectorRuns.v ===== *)
(** * Runs of the inspector library

    Every order of calls of the library: machines are registered, debuggers started
    and stopped, messages and replies arrive. The theorems say where messages and
    replies go, and what happens to the functions of the debugger library when it is
    unloaded. *)

From S2P Require Import Prelude Regex Http CppLib Utils PtJson PtCodec PtTypes Dispatcher ProtocolHandler.
From S2P Require Import InspectorLibrary.
Local Open Scope Z_scope.
Local Open Scope ark_scope.

Section runs.
Context `{Vms} `{InspectorBuild}.

(** ** Runs *)

(** What machines do: calls of their handlers. *)
Definition machine_steps (l : list (Z * event)) (v : service) : service := foldl (λ v c, on_handler c.1 c.2 v) v l.

Inductive lib_event :=
| ApiStore (tid vm : Z) (post : option Z)
| ApiStartPair (t tid socketfd : Z) (isHybrid : bool) (a : sys)
| ApiStart (t : Z) (name : bytes) (vm : Z) (debugMode : bool) (instanceId : Z) (post : option Z) (port : Z) (a : sys)
| ApiWait (vm : Z)
| ApiStop (t vm : Z) (isHybrid : bool)
| ApiStopOld (t tid : Z)
| ApiStatic (start : bool) (port : Z) (a : sys)
| Reply (vm : Z) (message : bytes) (sent : option bool) (between : list (Z * event))
| Message (vm : Z) (message : bytes) (between : list (Z * event))
| TaskRuns (t : task) (self kernel : Z)
| Machines (l : list (Z * event)).

Definition lib_step (e : lib_event) : L () :=
  match e with
  | ApiStore tid vm post => StoreDebuggerInfo tid vm post
  | ApiStartPair t tid fd hybrid a => StartDebugForSocketpair t tid fd hybrid a ;;; m_ret ()
  | ApiStart t name vm mode id post port a => StartDebug t name vm mode id post port a ;;; m_ret ()
  | ApiWait vm => Inspector_WaitForDebugger vm
  | ApiStop t vm hybrid => StopDebug t vm hybrid
  | ApiStopOld t tid => StopOldDebug t tid
  | ApiStatic start port a => (if start then StartDebugger port a else StopDebugger a) ;;; m_ret ()
  | Reply vm message sent between => Inspector_SendReply vm message sent (machine_steps between)
  | Message vm message between =>
      s <-- m_get ;;
      match g_inspectors s !! vm with
      | Some i => Inspector_OnMessage i message (wso_hybrid (in_websocketServer_ i)) (machine_steps between)
      | None => m_ret ()
      end
  | TaskRuns t self kernel => run_task t self kernel
  | Machines l => updL (λ s, set_sv (machine_steps l (sv s)) s)
  end.

Inductive lib_reach (others : nat) : lib → Prop :=
| lib_start : lib_reach others (lib_init others)
| lib_next e s s' : lib_reach others s → lib_step e s = Ret () s' → lib_reach others s'.

(** ** The invariant *)

(** The callback of a handler sends the replies of its own machine. *)
Definition callbacks_ok (v : service) : Prop := ∀ vm h r hy, vd_handler (debugger_of vm v) = Some (h, r, hy) → r = vm.
Definition has_handler (vm : Z) (v : service) : Prop := usable vm = true → is_Some (vd_handler (debugger_of vm v)).

Record lib_inv (others : nat) (s : lib) : Prop := {
  inv_refs : lib_refs s = (others + size (g_handle s))%nat;
  inv_gen : lib_gen s = 0;
  inv_funcs : ∀ sym g, g_funcs s !! sym = Some g → g = 0;
  inv_inited : g_hasArkFuncsInited s = true → ∀ sym, sym ∈ ark_symbols → is_Some (g_funcs s !! sym);
  inv_vm : ∀ vm i, g_inspectors s !! vm = Some i → in_vm_ i = vm ∧ g_hasArkFuncsInited s = true ∧ has_handler vm (sv s);
  inv_ids : ∀ vm i, g_inspectors s !! vm = Some i → (wso_id (in_websocketServer_ i) < next_server s)%nat;
  inv_unique : ∀ vm vm' i i', g_inspectors s !! vm = Some i → g_inspectors s !! vm' = Some i' →
    wso_id (in_websocketServer_ i) = wso_id (in_websocketServer_ i') → vm = vm';
  inv_callbacks : callbacks_ok (sv s) }.

(** A service function that keeps the handlers of all machines. *)
Definition tame (f : service → service) : Prop :=
  ∀ v, (callbacks_ok v → callbacks_ok (f v)) ∧ ∀ vm, has_handler vm v → has_handler vm (f v).

Lemma on_handler_tame vm e : tame (on_handler vm e).
Proof.
  intros v. unfold on_handler. destruct (usable vm); [|done]. cbn [negb]. destruct (vd_handler (debugger_of vm v)) as [[[h r] hy]|] eqn:Eh; [|done].
  destruct (exec e h) as [h'|]; [|done]. split.
  - intros Hc vm' h1 r1 hy1. rewrite debugger_of_insert. destruct (decide (vm = vm')) as [->|]; [|apply Hc].
    intros [= <- <- <-]. by apply (Hc vm' h r hy).
  - intros vm' Hh Hu. rewrite debugger_of_insert. destruct (decide (vm = vm')); [by eexists|by apply Hh].
Qed.
Lemma machine_steps_tame l : tame (machine_steps l).
Proof.
  unfold machine_steps. induction l as [|[vm e] l IH]; intros v; [done|]. cbn [foldl fst snd].
  destruct (IH (on_handler vm e v)) as [I1 I2], (on_handler_tame vm e v) as [J1 J2]. split; [auto|]. intros vm' Hh. by apply I2, J2.
Qed.
Lemma SetDebugApp_tame vm : tame (Service_SetDebugApp vm).
Proof.
  intros v. unfold Service_SetDebugApp. destruct (usable vm); [|done]. cbn [negb]. split.
  - intros Hc vm' h r hy. rewrite debugger_of_insert. destruct (decide (vm = vm')) as [->|]; [|apply Hc]. apply Hc.
  - intros vm' Hh Hu. rewrite debugger_of_insert. destruct (decide (vm = vm')) as [->|]; by apply Hh.
Qed.
Lemma InitializeDebugger_tame vm hy : tame (Service_InitializeDebugger vm vm hy).
Proof.
  intros v. unfold Service_InitializeDebugger. destruct (usable vm); [|done]. cbn [negb].
  destruct (vd_handler (debugger_of vm v)) as [d|] eqn:Ed; [done|]. split.
  - intros Hc vm' h r hy'. rewrite debugger_of_insert. destruct (decide (vm = vm')) as [->|]; [|apply Hc]. by intros [= <- <- <-].
  - intros vm' Hh Hu. rewrite debugger_of_insert. destruct (decide (vm = vm')); [by eexists|by apply Hh].
Qed.
Lemma InitializeDebugger_handler vm hy v : has_handler vm (Service_InitializeDebugger vm vm hy v).
Proof.
  intros Hu. unfold Service_InitializeDebugger. rewrite Hu. cbn [negb]. destruct (vd_handler (debugger_of vm v)) eqn:Ed; [by rewrite Ed|].
  rewrite debugger_of_insert, decide_True by done. by eexists.
Qed.

(** ** What keeps the invariant *)

Definition keepsL (others : nat) {A} (m : L A) : Prop :=
  ∀ s, lib_inv others s → match m s with Ret _ s' => lib_inv others s' | _ => True end.

Context (others : nat) (pinned : (1 ≤ others)%nat).

Lemma keepsL_ret {A} (a : A) : keepsL others (m_ret a).
Proof. by intros s Hs. Qed.
Lemma keepsL_undefined {A} : keepsL others (undefined (A := A)).
Proof. by intros s Hs. Qed.
Lemma keepsL_bind {A B} (m : L A) (k : A → L B) : keepsL others m → (∀ a, keepsL others (k a)) → keepsL others (m_bind k m).
Proof. intros Hm Hk s Hs. unfold m_bind. specialize (Hm s Hs). destruct (m s) as [a s'| |]; [by apply Hk|done..]. Qed.
Lemma keepsL_get {A} (k : lib → L A) : (∀ s, lib_inv others s → match k s s with Ret _ s' => lib_inv others s' | _ => True end) →
  keepsL others (m_bind k m_get).
Proof. intros Hk s Hs. by apply Hk. Qed.
Lemma keepsL_upd (f : lib → lib) : (∀ s, lib_inv others s → lib_inv others (f s)) → keepsL others (updL f).
Proof. intros Hf s Hs. by apply Hf. Qed.

Lemma inv_effect e s : lib_inv others s → lib_inv others (add_effect e s).
Proof. by intros []. Qed.
Lemma inv_set_vm v s : lib_inv others s → lib_inv others (set_vm v s).
Proof. by intros []. Qed.
Lemma inv_set_info v s : lib_inv others s → lib_inv others (set_info v s).
Proof. by intros []. Qed.
Lemma inv_set_static h f s : lib_inv others s → lib_inv others (set_static h f s).
Proof. by intros []. Qed.
Lemma inv_set_sv f s : tame f → lib_inv others s → lib_inv others (set_sv (f (sv s)) s).
Proof.
  intros Hf [? ? ? ? Hv ? ? ?]. constructor; try done.
  - intros vm i Hi. destruct (Hv vm i Hi) as (? & ? & ?). split_and!; [done|done|]. by apply Hf.
  - by apply Hf.
Qed.
Lemma inv_delete vm s : lib_inv others s → lib_inv others (set_inspectors (delete vm (g_inspectors s)) s).
Proof.
  intros [? ? ? ? Hv Hid Hu ?]. constructor; try done; cbn.
  - intros vm' i [_ Hi]%lookup_delete_Some. by apply Hv.
  - intros vm' i [_ Hi]%lookup_delete_Some. by eapply Hid.
  - intros vm1 vm2 i1 i2 [_ H1]%lookup_delete_Some [_ H2]%lookup_delete_Some. by apply Hu.
Qed.
Lemma inv_load t s : t ∉ g_handle s → lib_inv others s → lib_inv others (Load t s).
Proof.
  intros Ht [Hr Hg ? ? ? ? ? ?]. constructor; try done; cbn.
  - rewrite size_union by set_solver. rewrite size_singleton. lia.
  - rewrite decide_False by lia. done.
Qed.
Lemma inv_close t s : t ∈ g_handle s → lib_inv others s → lib_inv others (CloseHandle t s).
Proof.
  intros Ht [Hr ? ? ? ? ? ? ?]. constructor; try done; cbn.
  assert (Hsub : ({[t]} : gset Z) ⊆ g_handle s) by (by apply singleton_subseteq_l).
  pose proof (subseteq_size _ _ Hsub) as Hsz. rewrite size_singleton in Hsz. rewrite size_difference, size_singleton by done. lia.
Qed.

(** Calls: they work once the functions have been found. *)
Lemma found_mapped sym s : lib_inv others s → g_hasArkFuncsInited s = true → sym ∈ ark_symbols → mapped sym s = true.
Proof.
  intros Hs Hi Hin. destruct (inv_inited _ _ Hs Hi sym Hin) as [g Hg]. unfold mapped. rewrite Hg, (inv_funcs _ _ Hs _ _ Hg), (inv_gen _ _ Hs).
  rewrite Z.eqb_refl. cbn [andb]. apply Nat.ltb_lt. rewrite (inv_refs _ _ Hs). lia.
Qed.
Lemma call_ret {A} sym (f : service → A * service) s : mapped sym s = true →
  call sym f s = Ret (f (sv s)).1 (set_sv (f (sv s)).2 s).
Proof. intros Hm. unfold call, m_bind, m_get. rewrite Hm. by destruct (f (sv s)). Qed.
Lemma keepsL_call {A} sym (f : service → A * service) : tame (λ v, (f v).2) → keepsL others (call sym f).
Proof.
  intros Hf s Hs. destruct (mapped sym s) eqn:Hm; [|unfold call, m_bind, m_get; by rewrite Hm].
  rewrite call_ret by done. by apply (inv_set_sv (λ v, (f v).2)).
Qed.
Lemma keepsL_call_do sym f : tame f → keepsL others (call_do sym f).
Proof. intros Hf. by apply keepsL_call. Qed.
Lemma keepsL_status vm : keepsL others (status_of vm).
Proof. by apply keepsL_call. Qed.
Lemma keepsL_call_static sym message : keepsL others (call_static sym message).
Proof. apply keepsL_get. intros s Hs. destruct (decide _); [by apply inv_effect|done]. Qed.
Lemma keepsL_close t : keepsL others (close_handle t).
Proof. apply keepsL_upd. intros s Hs. destruct (decide _); [by apply inv_close|done]. Qed.
Lemma keepsL_StopServer w : keepsL others (StopServer w).
Proof. unfold StopServer. destruct (wso_thread w); [apply keepsL_upd; intros; by apply inv_effect|apply keepsL_undefined]. Qed.

Create HintDb ark_inspector discriminated.
Hint Constants Opaque : ark_inspector.
Hint Resolve keepsL_ret keepsL_undefined keepsL_call_do keepsL_status keepsL_call_static keepsL_close keepsL_StopServer : ark_inspector.
Hint Resolve on_handler_tame machine_steps_tame SetDebugApp_tame InitializeDebugger_tame : ark_inspector.
Hint Resolve inv_effect inv_set_vm inv_set_info inv_set_static inv_delete : ark_inspector.

(** One step of an operation. *)
Ltac keep_lib :=
  repeat first
    [ assumption
    | solve [eauto 3 with ark_inspector]
    | apply keepsL_bind; [|intros ?]
    | simple apply keepsL_upd; intros ? ?
    | case_match ].

Lemma keepsL_Reset t vm b : keepsL others (ResetServiceLocked t vm b).
Proof.
  intros s Hs. unfold ResetServiceLocked. unfold m_bind at 1, m_get. apply keepsL_bind; [|intros ?; destruct b; keep_lib|done]. keep_lib.
Qed.
Lemma keepsL_Load t a : keepsL others (LoadArkDebuggerLibrary t a).
Proof.
  apply keepsL_get. intros s Hs. destruct (decide (t ∈ g_handle s)); [done|]. destruct (sys_load a); [|done]. by apply inv_load.
Qed.
Hint Resolve keepsL_Reset keepsL_Load : ark_inspector.

(** Looking the functions up: all of them are there when it succeeds. *)
Lemma resolve_all_spec t a syms : ∀ s, lib_inv others s → g_hasArkFuncsInited s = false →
  match resolve_all t a syms s with
  | Ret ok s' => lib_inv others s' ∧ g_hasArkFuncsInited s' = false ∧
      (ok = true → (∀ sym, sym ∈ syms → is_Some (g_funcs s' !! sym)) ∧ ∀ sym, is_Some (g_funcs s !! sym) → is_Some (g_funcs s' !! sym))
  | _ => True
  end.
Proof.
  induction syms as [|sym syms IH]; intros s Hs Hi; cbn [resolve_all].
  - split_and!; [done|done|]. intros _. split; [by intros ? ?%elem_of_nil|done].
  - assert (Hf : ∀ v, (∀ x g, v !! x = Some g → g = 0) → lib_inv others (set_funcs v s)).
    { intros v Hv. destruct Hs. constructor; try done. cbn. by rewrite Hi. }
    destruct (sys_symbol a sym).
    + unfold m_bind at 1, updL at 1, m_modify. specialize (IH (set_funcs (<[sym:=lib_gen s]> (g_funcs s)) s)).
      destruct (resolve_all t a syms _) as [ok s'| |]; [|done..]. destruct IH as (I1 & I2 & I3); [|done|].
      { apply Hf. intros x g [[_ <-]|[_ ?]]%lookup_insert_Some; [apply Hs|by eapply (inv_funcs _ _ Hs)]. }
      split_and!; [done|done|]. intros Hok. destruct (I3 Hok) as [J1 J2]. cbn in J2. split.
      * intros x [->|?]%elem_of_cons; [apply J2; rewrite lookup_insert; by case_decide|by apply J1].
      * intros x Hx. apply J2. rewrite lookup_insert. by case_decide.
    + unfold m_bind at 1, updL at 1, m_modify. unfold m_bind at 1, m_get.
      set (s1 := set_funcs (delete sym (g_funcs s)) s).
      assert (H1 : lib_inv others s1) by (apply Hf; intros x g [_ ?]%lookup_delete_Some; by eapply (inv_funcs _ _ Hs)).
      pose proof (keepsL_Reset t (default 0 (g_vm s1 !! t)) true s1 H1) as Hk. unfold m_bind at 1.
      assert (Hn : g_inspectors s1 !! default 0 (g_vm s1 !! t) = None).
      { destruct (g_inspectors s1 !! _) eqn:E; [|done]. apply (inv_vm _ _ H1) in E as (_ & E & _). cbn in E. congruence. }
      revert Hk. unfold ResetServiceLocked, m_bind, m_get, m_ret. rewrite Hn. unfold close_handle, updL, m_modify. intros Hk. split_and!; [done| |done].
      by destruct (decide _).
Qed.
Lemma keepsL_InitializeArk t a : ∀ s, lib_inv others s →
  match InitializeArkFunctions t a s with Ret ok s' => lib_inv others s' ∧ (ok = true → g_hasArkFuncsInited s' = true) | _ => True end.
Proof.
  intros s Hs. unfold InitializeArkFunctions, m_bind at 1, m_get. destruct (g_hasArkFuncsInited s) eqn:Hi; [done|].
  unfold m_bind at 1. pose proof (resolve_all_spec t a ark_symbols s Hs Hi) as Hr. unfold InitializeArkFunctionsOthers.
  destruct (resolve_all t a ark_symbols s) as [[] s'| |]; [|by destruct Hr|done..]. destruct Hr as (H1 & H2 & H3).
  destruct (H3 eq_refl) as [H4 _]. cbn. split; [|done]. destruct H1 as [? ? ? ? Hv ? ? ?]. constructor; try done. cbn.
  intros vm i Hvi. destruct (Hv vm i Hvi) as (? & ? & ?). done.
Qed.

(** A new inspector, for a machine that has a handler. *)
Lemma keepsL_InitializeInspector t vm post info pair hy a s :
  lib_inv others s → g_hasArkFuncsInited s = true → has_handler vm (sv s) →
  match InitializeInspector t vm post info pair hy a s with Ret _ s' => lib_inv others s' | _ => True end.
Proof.
  intros Hs Hi Hh. unfold InitializeInspector, m_bind at 1, m_get. destruct (g_inspectors s !! vm) eqn:E; [done|].
  unfold m_bind, updL, m_modify, m_ret. destruct Hs as [? ? ? ? Hv Hid Hu ?]. constructor; try done; cbn.
  - intros vm' i [[<- <-]|[_ Hl]]%lookup_insert_Some; [done|]. by apply Hv.
  - intros vm' i [[<- <-]|[_ Hl]]%lookup_insert_Some; [cbn; lia|]. specialize (Hid _ _ Hl). lia.
  - intros vm1 vm2 i1 i2 [[<- <-]|[_ H1]]%lookup_insert_Some [[<- <-]|[_ H2]]%lookup_insert_Some; cbn; intros Eq; [done|..].
    + specialize (Hid _ _ H2). lia.
    + specialize (Hid _ _ H1). lia.
    + by eapply Hu.
Qed.
(** The handler of the machine is there after [InitializeDebugger]. *)
Lemma initialize_call vm hy s : lib_inv others s → g_hasArkFuncsInited s = true →
  ∃ s', call_do "InitializeDebugger" (Service_InitializeDebugger vm vm hy) s = Ret () s' ∧ lib_inv others s' ∧
    g_hasArkFuncsInited s' = true ∧ has_handler vm (sv s').
Proof.
  intros Hs Hi. eexists. split; [|split_and!].
  - unfold call_do. rewrite call_ret; [reflexivity|]. apply found_mapped; [done..|]. by constructor.
  - apply (inv_set_sv (Service_InitializeDebugger vm vm hy)); [apply InitializeDebugger_tame|done].
  - done.
  - apply InitializeDebugger_handler.
Qed.
Lemma keepsL_ready t a {A} (k : L A) (no : L A) :
  keepsL others no → (∀ s, lib_inv others s → g_hasArkFuncsInited s = true → match k s with Ret _ s' => lib_inv others s' | _ => True end) →
  keepsL others (loaded <-- LoadArkDebuggerLibrary t a ;; if negb loaded then no else ready <-- InitializeArkFunctions t a ;; if negb ready then no else k).
Proof.
  intros Hno Hk. apply keepsL_bind; [apply keepsL_Load|]. intros []; [|done]. cbn [negb]. intros s Hs.
  pose proof (keepsL_InitializeArk t a s Hs) as Hr. unfold m_bind. destruct (InitializeArkFunctions t a s) as [[] s'| |]; [| |done..].
  - apply Hk; [by apply Hr|by apply Hr].
  - by apply Hno, Hr.
Qed.

Lemma resolve_static_inited a syms : ∀ s, lib_inv others s →
  match resolve_static a syms s with Ret _ s' => lib_inv others s' ∧ g_hasArkFuncsInited s' = g_hasArkFuncsInited s | _ => True end.
Proof.
  induction syms as [|sym syms IH]; intros s Hs; cbn [resolve_static]; [done|]. destruct (sys_symbol_static a sym); [|done].
  unfold m_bind, updL, m_modify. specialize (IH (set_static true ({[sym]} ∪ g_static s) s)). destruct (resolve_static a syms _); [|done..].
  apply IH. by apply inv_set_static.
Qed.
Lemma InitializeStatic_inited a s : lib_inv others s →
  match InitializeArkFunctionsForStatic a s with Ret _ s' => lib_inv others s' ∧ g_hasArkFuncsInited s' = g_hasArkFuncsInited s | _ => True end.
Proof.
  intros Hs. unfold InitializeArkFunctionsForStatic, m_bind at 1, m_get. destruct (g_debuggerHandle s); [done|].
  destruct (negb (sys_load_static a)); [done|]. unfold m_bind, updL, m_modify.
  pose proof (resolve_static_inited a static_symbols (set_static true (g_static s) s)) as Hr.
  destruct (resolve_static a static_symbols _); [|done..]. apply Hr. by apply inv_set_static.
Qed.
Lemma keepsL_InitializeStatic a : keepsL others (InitializeArkFunctionsForStatic a).
Proof. intros s Hs. pose proof (InitializeStatic_inited a s Hs) as Hr. destruct (InitializeArkFunctionsForStatic a s); [|done..]. apply Hr. Qed.

Lemma pair_ready t vm hy a s : lib_inv others s →
  match InitializeDebuggerForSocketpair t vm hy a s with
  | Ret ok s' => lib_inv others s' ∧ (ok = true → g_hasArkFuncsInited s' = true ∧ has_handler vm (sv s'))
  | _ => True
  end.
Proof.
  intros Hs. unfold InitializeDebuggerForSocketpair. unfold m_bind at 1. pose proof (keepsL_Load t a s Hs) as H1.
  destruct (LoadArkDebuggerLibrary t a s) as [[] s1| |]; cbn [negb]; [|done..].
  unfold m_bind at 1. pose proof (keepsL_InitializeArk t a s1 H1) as H2. destruct (InitializeArkFunctions t a s1) as [[] s2| |]; cbn [negb]; [|by destruct H2|done..].
  destruct H2 as [H2 H2i]. specialize (H2i eq_refl). unfold m_bind at 1. destruct hy.
  - unfold m_bind at 1. pose proof (InitializeStatic_inited a s2 H2) as H3. destruct (InitializeArkFunctionsForStatic a s2) as [[] s3| |]; cbn [negb]; [|by destruct H3|done..].
    destruct H3 as [H3 H3i]. rewrite H2i in H3i. unfold m_bind at 1. unfold call_do at 1. rewrite call_ret by (apply found_mapped; [done..|by do 8 right; left]).
    cbn [m_ret negb snd fst].
    destruct (initialize_call vm true (set_sv (Service_SetDebugApp vm (sv s3)) s3)) as (s4 & E & ? & ? & ?); [|done|].
    { by apply (inv_set_sv (Service_SetDebugApp vm)); [apply SetDebugApp_tame|]. }
    unfold m_bind. rewrite E. done.
  - cbn [m_ret negb]. destruct (initialize_call vm false s2 H2 H2i) as (s4 & E & ? & ? & ?). unfold m_bind. rewrite E. done.
Qed.

Lemma keepsL_StartPair t tid fd hy a : keepsL others (StartDebugForSocketpair t tid fd hy a).
Proof.
  intros s Hs. unfold StartDebugForSocketpair, m_bind at 1, m_get. destruct (GetEcmaVM tid s =? 0); [done|].
  unfold m_bind at 1, updL, m_modify. set (s1 := set_vm _ s). assert (H1 : lib_inv others s1) by by apply inv_set_vm.
  unfold m_bind at 1. pose proof (pair_ready t (GetEcmaVM tid s) hy a s1 H1) as H2.
  destruct (InitializeDebuggerForSocketpair t (GetEcmaVM tid s) hy a s1) as [[] s2| |]; cbn [negb]; [|by destruct H2|done..].
  destruct H2 as [H2 H3]. destruct (H3 eq_refl) as [H4 H5]. unfold m_bind, m_get. by apply keepsL_InitializeInspector.
Qed.
Lemma keepsL_Start t name vm mode id post port a : keepsL others (StartDebug t name vm mode id post port a).
Proof.
  unfold StartDebug. apply keepsL_bind; [keep_lib|]. intros _. apply keepsL_ready; [apply keepsL_ret|]. intros s Hs Hi.
  destruct (initialize_call vm false s Hs Hi) as (s1 & E & H1 & H2 & H3). unfold m_bind at 1. rewrite E. unfold m_bind at 1.
  pose proof (keepsL_InitializeInspector t vm post (mkDebugInfo (-2) name id port) 0 false a s1 H1 H2 H3) as H4.
  destruct (InitializeInspector _ _ _ _ _ _ _ s1) as [ok s2| |]; [|done..].
  assert (Hk : keepsL others (if negb ok then m_ret false else
    (if mode && (0 <? port) then call_do "WaitForDebugger" (Service_WaitForDebugger vm) else m_ret ()) ;;; m_ret true)).
  { destruct ok; cbn [negb]; [|apply keepsL_ret]. apply keepsL_bind; [|intros; apply keepsL_ret].
    destruct (_ && _); [|apply keepsL_ret]. apply keepsL_call_do, on_handler_tame. }
  by apply Hk.
Qed.
Lemma keepsL_wake i l : keepsL others (wake_debugger i (machine_steps l)).
Proof.
  unfold wake_debugger. apply keepsL_bind; [apply keepsL_status|]. intros []; [|apply keepsL_ret..].
  apply keepsL_bind; [apply keepsL_upd; intros; apply (inv_set_sv (machine_steps l)); [apply machine_steps_tame|done]|]. intros _.
  apply keepsL_bind; [apply keepsL_status|]. intros []; [|apply keepsL_ret..]. keep_lib.
Qed.
Lemma keepsL_OnMessage i msg hy l : keepsL others (Inspector_OnMessage i msg hy (machine_steps l)).
Proof.
  unfold Inspector_OnMessage. destruct (route_message hy msg); [|apply keepsL_call_static|apply keepsL_ret].
  apply keepsL_bind; [apply keepsL_call_do, on_handler_tame|intros; apply keepsL_wake].
Qed.
Lemma keepsL_SendReply vm msg ok l : keepsL others (Inspector_SendReply vm msg ok (machine_steps l)).
Proof.
  apply keepsL_get. intros s Hs. destruct (g_inspectors s !! vm); [|done]. destruct ok as [[]|]; [by apply inv_effect|by apply keepsL_OnMessage|done].
Qed.

(** A machine without an inspector may lose its handler. *)
Lemma inv_uninitialize vm s : lib_inv others s → g_inspectors s !! vm = None → lib_inv others (set_sv (Service_UninitializeDebugger vm (sv s)) s).
Proof.
  intros [? ? ? ? Hv ? ? Hc] Hn. unfold Service_UninitializeDebugger. destruct (usable vm); cbn [negb]; [|by constructor].
  constructor; try done; cbn.
  - intros vm' i Hi. destruct (Hv vm' i Hi) as (? & ? & Hh). split_and!; [done..|]. intros Hu. rewrite debugger_of_insert.
    rewrite decide_False by congruence. by apply Hh.
  - intros vm' h r hy. rewrite debugger_of_insert. destruct (decide (vm = vm')); [done|apply Hc].
Qed.
Lemma keepsL_Stop t vm hy : keepsL others (StopDebug t vm hy).
Proof.
  intros s Hs. unfold StopDebug, m_bind at 1, m_get. destruct (g_inspectors s !! vm) as [i|] eqn:Ei; [|done].
  unfold m_bind at 1, updL, m_modify. set (s1 := set_info _ s). assert (H1 : lib_inv others s1) by by apply inv_set_info.
  unfold m_bind at 1. unfold ResetServiceLocked. unfold m_bind at 1, m_get. assert (E1 : g_inspectors s1 !! vm = Some i) by done. rewrite E1.
  unfold StopServer. destruct (wso_thread (in_websocketServer_ i)); [|done]. unfold m_bind at 1 2 3, updL, m_modify, m_ret.
  set (s2 := set_inspectors _ _). assert (H2 : lib_inv others s2) by by apply inv_delete, inv_effect.
  assert (E2 : g_inspectors s2 !! vm = None) by (cbn; by rewrite lookup_delete_eq).
  unfold m_bind at 1. unfold call_do, call, m_bind at 1, m_get. destruct (mapped _ s2); [|done]. unfold m_bind at 1, updL, m_modify, m_ret.
  pose proof (inv_uninitialize vm s2 H2 E2) as H3. revert H3. generalize (set_sv (Service_UninitializeDebugger vm (sv s2)) s2). intros s3 H3. clear - pinned H0 H3.
  assert (Hk : keepsL others (close_handle t ;;; (if hy then StopDebuggerForStatic ;;; m_ret () else m_ret ()))).
  { apply keepsL_bind; [apply keepsL_close|intros _]. destruct hy; [|apply keepsL_ret].
    apply keepsL_bind; [apply keepsL_bind; [apply keepsL_call_static|intros; apply keepsL_ret]|intros; apply keepsL_ret]. }
  by apply Hk.
Qed.
Lemma keepsL_StopOld t tid : keepsL others (StopOldDebug t tid).
Proof.
  apply keepsL_get. intros s Hs. cbv zeta. destruct (GetEcmaVM tid s =? 0); [done|]. destruct (g_inspectors s !! _); [|done]. by apply keepsL_Reset.
Qed.

Lemma keepsL_step e : keepsL others (lib_step e).
Proof.
  destruct e; cbn [lib_step].
  - apply keepsL_upd. intros. by apply inv_set_info.
  - apply keepsL_bind; [apply keepsL_StartPair|intros; apply keepsL_ret].
  - apply keepsL_bind; [apply keepsL_Start|intros; apply keepsL_ret].
  - apply keepsL_call_do, on_handler_tame.
  - apply keepsL_Stop.
  - apply keepsL_StopOld.
  - unfold StartDebugger, StopDebugger, StartDebuggerInitForStatic, StopDebuggerInitForStatic.
    destruct start; (apply keepsL_bind; [apply keepsL_bind; [apply keepsL_InitializeStatic|intros; keep_lib]|intros; apply keepsL_ret]).
  - apply keepsL_SendReply.
  - apply keepsL_get. intros s Hs. destruct (g_inspectors s !! vm); [by apply keepsL_OnMessage|done].
  - unfold run_task. destruct (match tk_thread t with OnPthread _ => _ | OnTid _ => _ end); [|apply keepsL_ret]. apply keepsL_call_do, on_handler_tame.
  - apply keepsL_upd. intros s Hs. by apply (inv_set_sv (machine_steps l)); [apply machine_steps_tame|].
Qed.
Lemma lib_init_inv : lib_inv others (lib_init others).
Proof. constructor; try done; cbn; rewrite ?size_empty; try lia; by intros. Qed.
Lemma lib_reach_inv s : lib_reach others s → lib_inv others s.
Proof.
  induction 1 as [|e s s' _ IH E]; [apply lib_init_inv|]. pose proof (keepsL_step e s IH) as Hk. by rewrite E in Hk.
Qed.

(** ** Messages and replies *)

(** The task that is posted for a machine that does not work on its queue. *)
Definition posted_task (i : Inspector) : list lib_effect :=
  match in_debuggerPostTask_ i with
  | Some p =>
      if in_tidForSocketPair_ i =? 0 then [Posted (mkTask p (OnPthread (in_tid_ i)) (in_vm_ i))]
      else if ohos_platform then [Posted (mkTask p (OnTid (in_tidForSocketPair_ i)) (in_vm_ i))] else []
  | None => []
  end.
(** The machines and the effects behind the two looks at the machine, with the
    steps [l] of machines between them. *)
Definition looked_twice (i : Inspector) (l : list (Z * event)) (v : service) : service * list lib_effect :=
  match Service_GetDispatchStatus (in_vm_ i) v with
  | UNKNOWN =>
      let v' := machine_steps l v in
      (v', match Service_GetDispatchStatus (in_vm_ i) v' with UNKNOWN => posted_task i | _ => [] end)
  | _ => (v, [])
  end.

Lemma status_ret vm s : mapped "GetDispatchStatus" s = true → status_of vm s = Ret (Service_GetDispatchStatus vm (sv s)) (set_sv (sv s) s).
Proof. intros Hm. unfold status_of. by rewrite call_ret. Qed.
Lemma wake_ret i s l : lib_inv others s → g_hasArkFuncsInited s = true →
  ∃ s', wake_debugger i (machine_steps l) s = Ret () s' ∧ sv s' = (looked_twice i l (sv s)).1 ∧
    effects s' = effects s ++ (looked_twice i l (sv s)).2.
Proof.
  intros Hs Hi. assert (Hm : mapped "GetDispatchStatus" s = true) by (apply found_mapped; [done..|by do 4 right; left]).
  unfold wake_debugger, looked_twice, posted_task. unfold m_bind at 1. rewrite status_ret by done. cbv zeta.
  destruct (Service_GetDispatchStatus (in_vm_ i) (sv s)) eqn:E; try (eexists; split; [reflexivity|]; split; [done|]; cbn; by rewrite app_nil_r).
  unfold m_bind at 1, updL at 1, m_modify. unfold m_bind at 1. rewrite status_ret by exact Hm. cbn [sv set_sv fst snd].
  destruct (Service_GetDispatchStatus (in_vm_ i) (machine_steps l (sv s))); try (eexists; split; [reflexivity|]; split; [done|]; cbn; by rewrite app_nil_r).
  destruct (in_debuggerPostTask_ i) as [p|]; [|eexists; split; [reflexivity|]; split; [done|]; cbn; by rewrite app_nil_r].
  destruct (in_tidForSocketPair_ i =? 0); [by eexists|]. destruct ohos_platform; [by eexists|].
  eexists. split; [reflexivity|]. split; [done|]. cbn. by rewrite app_nil_r.
Qed.
End runs.

(** C16: over all runs, as long as something else keeps the debugger library loaded,
    for an inspector whose machine still has its debugger manager: a message that
    arrives at its server and is meant for the dynamic debugger (all messages, unless
    both debuggers run) is put behind the messages in the queue of this machine's
    debugger and concerns no other machine. When the debugger does not work on its
    queue then, nor after what the machines do in the pause, a task is posted for its
    thread, where there is a function to post it (for a socket pair on OpenHarmony
    only). A message for the static debugger is passed to it, and one for nobody
    changes nothing. What the debugger of a machine answers is written to the server
    of this machine, which no other machine uses. *)
Theorem inspector_delivers `{Vms} `{InspectorBuild} (others : nat) (s : lib) (vm : Z) (i : Inspector) (msg text : bytes)
    (between : list (Z * event)) :
  (1 ≤ others)%nat → lib_reach others s → g_inspectors s !! vm = Some i → usable vm = true →
  match route_message (wso_hybrid (in_websocketServer_ i)) msg with
  | ToDynamic =>
      ∃ s' h h1, lib_step (Message vm msg between) s = Ret () s' ∧ handler_of vm (sv s) = Some h ∧
        let v := Service_OnMessage vm msg (sv s) in
        handler_of vm v = Some h1 ∧ requestQueue_ h1 = requestQueue_ h ++ [msg] ∧ sent h1 = sent h ++ [msg] ∧
        (∀ vm', vm' ≠ vm → debugger_of vm' v = debugger_of vm' (sv s)) ∧
        sv s' = (looked_twice i between v).1 ∧ effects s' = effects s ++ (looked_twice i between v).2
  | ToStatic => lib_step (Message vm msg between) s = OnMessageStatic msg s
  | ToNobody => lib_step (Message vm msg between) s = Ret () s
  end ∧
  (∃ h hy, vd_handler (debugger_of vm (sv s)) = Some (h, vm, hy)) ∧
  lib_step (Reply vm text (Some true) []) s = Ret () (add_effect (Written (wso_id (in_websocketServer_ i)) text) s) ∧
  (∀ vm' i', g_inspectors s !! vm' = Some i' → vm' ≠ vm → wso_id (in_websocketServer_ i') ≠ wso_id (in_websocketServer_ i)).
Proof.
  intros Ho Hr Hi Hu. pose proof (lib_reach_inv others Ho s Hr) as Hs. destruct (inv_vm _ _ Hs _ _ Hi) as (Hvm & Hin & Hh).
  destruct (Hh Hu) as [[[h r] hy] Ed]. pose proof (inv_callbacks _ _ Hs _ _ _ _ Ed) as ->.
  assert (Eh : handler_of vm (sv s) = Some h) by (unfold handler_of; by rewrite Ed). split_and!.
  - cbn [lib_step]. unfold m_bind at 1 2 3, m_get. rewrite Hi. unfold Inspector_OnMessage.
    destruct (route_message _ msg); [|done..].
    destruct (Service_OnMessage_spec vm msg (sv s) h Hu Eh) as ((h1 & Eh1 & Hq & Hsent) & Hother).
    set (s1 := set_sv (Service_OnMessage vm msg (sv s)) s).
    assert (H1 : lib_inv others s1) by (by apply (inv_set_sv others (Service_OnMessage vm msg)); [apply on_handler_tame|]).
    destruct (wake_ret others Ho i s1 between H1 Hin) as (s' & E & Esv & Eeff).
    exists s', h, h1. split_and!; try done. unfold m_bind at 1, call_do.
    rewrite call_ret by (apply (found_mapped others Ho); [done..|by do 3 right; left]). rewrite Hvm. cbn [fst snd]. exact E.
  - by exists h, hy.
  - cbn [lib_step]. unfold Inspector_SendReply, m_bind, m_get. by rewrite Hi.
  - intros vm' i' Hi' Hne Heq. by apply Hne, (inv_unique _ _ Hs vm' vm i' i).
Qed.

(** ** Unloading *)

(** Everything is found, and every thread is created. *)
Definition all_well : sys := mkSys true (λ _, true) true true (λ _, true).
Definition all_vms : Vms := λ _, true.
Definition run_lib `{Vms} `{InspectorBuild} (es : list lib_event) : L () := foldr (λ e k, lib_step e ;;; k) (m_ret ()) es.
Lemma run_lib_reach `{Vms} `{InspectorBuild} others es : ∀ s s', lib_reach others s → run_lib es s = Ret () s' → lib_reach others s'.
Proof.
  induction es as [|e es IH]; intros s s' Hs Hr; [by injection Hr as <-|]. cbn [run_lib foldr] in Hr. unfold m_bind in Hr.
  destruct (lib_step e s) as [[] s1| |] eqn:E; [|done..]. eapply IH; [|exact Hr]. by eapply lib_next.
Qed.

(** When nothing else keeps the debugger library loaded, two machines whose
    debuggers were started on the same thread share one handle of it: stopping one
    of them unloads the library, and the next message to the other one calls a
    function that is gone. So does starting a debugger again after it was stopped:
    the addresses of the functions are kept from the first time. *)
Theorem library_unloaded (build : InspectorBuild) (msg : bytes) :
  let start vm := ApiStart 7 [] vm false 0 None 0 all_well in
  (∃ s, lib_reach (H := all_vms) 0 s ∧ is_Some (g_inspectors s !! 2) ∧ ∃ s', lib_step (H := all_vms) (Message 2 msg []) s = Throw s') ∧
  (∃ s, lib_reach (H := all_vms) 0 s ∧ ∃ s', lib_step (H := all_vms) (start 1) s = Throw s').
Proof.
  intros start. split.
  - assert (E : ∃ s, run_lib (H := all_vms) [start 1; start 2; ApiStop 7 1 false] (lib_init 0) = Ret () s ∧ is_Some (g_inspectors s !! 2) ∧
      ∃ s', lib_step (H := all_vms) (Message 2 msg []) s = Throw s').
    { destruct build; eexists; (split; [vm_compute; reflexivity|]); (split; [vm_compute; by eexists|]); eexists; reflexivity. }
    destruct E as (s & E & H). exists s. split; [|exact H]. eapply run_lib_reach; [constructor|exact E].
  - assert (E : ∃ s, run_lib (H := all_vms) [start 1; ApiStop 7 1 false] (lib_init 0) = Ret () s ∧
      ∃ s', lib_step (H := all_vms) (start 1) s = Throw s').
    { destruct build; eexists; (split; [vm_compute; reflexivity|]); eexists; vm_compute; reflexivity. }
    destruct E as (s & E & H). exists s. split; [|exact H]. eapply run_lib_reach; [constructor|exact E].
Qed.

(** When the thread of a server cannot be created, the inspector stays in the table:
    the next start succeeds without a thread, and stopping joins a thread that does
    not exist. *)
Lemma failed_start_stays (build : InspectorBuild) :
  let failing := mkSys true (λ _, true) false true (λ _, true) in
  ∃ s, lib_reach (H := all_vms) 1 s ∧
    (∃ s', StartDebug (H := all_vms) 7 [] 1 false 0 None 0 all_well s = Ret true s') ∧
    (∃ i, g_inspectors s !! 1 = Some i ∧ wso_thread (in_websocketServer_ i) = false) ∧
    ∃ s', lib_step (H := all_vms) (ApiStop 7 1 false) s = Throw s'.
Proof.
  intros failing. assert (E : ∃ s, run_lib (H := all_vms) [ApiStart 7 [] 1 false 0 None 0 failing] (lib_init 1) = Ret () s ∧
    (∃ s', StartDebug (H := all_vms) 7 [] 1 false 0 None 0 all_well s = Ret true s') ∧
    (∃ i, g_inspectors s !! 1 = Some i ∧ wso_thread (in_websocketServer_ i) = false) ∧
    ∃ s', lib_step (H := all_vms) (ApiStop 7 1 false) s = Throw s').
  { destruct build; eexists; (split; [vm_compute; reflexivity|]); split_and!; (eexists; vm_compute; done). }
  destruct E as (s & E & H). exists s. split; [|exact H]. eapply run_lib_reach; [constructor|exact E].
Qed.

(** The static debugger is started although its library is missing. *)
Lemma static_start_without_library `{Vms} `{InspectorBuild} others port a :
  sys_load_static a = false → ∃ s', StartDebugger port a (lib_init others) = Throw s'.
Proof. intros Ha. unfold StartDebugger, StartDebuggerInitForStatic, InitializeArkFunctionsForStatic, m_bind, m_get. cbn. rewrite Ha. by eexists. Qed.

(** ** Two languages *)

Lemma regex_search_spec msg r : regex_search msg r = true ↔ ∃ a w b, msg = a ++ w ++ b ∧ in_re r w.
Proof.
  unfold regex_search. rewrite regex_match_spec, in_re_cat. unfold Any. split.
  - intros (a & x & -> & _ & (w & b & -> & Hw & _)%in_re_cat). by exists a, w, b.
  - intros (a & w & b & -> & Hw). exists a, (w ++ b). split_and!; [done|by apply in_re_star_cls, Forall_true|].
    apply in_re_cat. exists w, b. split_and!; [done|done|]. by apply in_re_star_cls, Forall_true.
Qed.
Definition spaces_only (t : bytes) : Prop := Forall (λ c, (c =? 32) || ((9 <=? c) && (c <=? 13)) = true) t.
Definition digits_only (t : bytes) : Prop := Forall (λ c, 48 ≤ c ≤ 57) t.
Lemma in_chr c w : in_re (Chr c) w ↔ w = [c].
Proof. unfold Chr. rewrite in_re_cls. split; [intros (d & -> & ->%Z.eqb_eq); done|intros ->; exists c; by rewrite Z.eqb_refl]. Qed.
Lemma in_hasKey w : in_re hasKey w ↔ ∃ sp1 sp2, w = key_text ++ sp1 ++ [58] ++ sp2 ++ [34] ∧ spaces_only sp1 ∧ spaces_only sp2.
Proof.
  unfold hasKey, Space. rewrite in_re_cat. setoid_rewrite in_re_lit. split.
  - intros (k & x & -> & -> & (sp1 & y & -> & Hs1%in_re_star_cls & (c & z & -> & ->%in_chr & (sp2 & q & -> & Hs2%in_re_star_cls & ->%in_chr)%in_re_cat)%in_re_cat)%in_re_cat).
    by exists sp1, sp2.
  - intros (sp1 & sp2 & -> & H1 & H2). exists key_text, (sp1 ++ [58] ++ sp2 ++ [34]). split_and!; [done..|].
    apply in_re_cat. exists sp1, ([58] ++ sp2 ++ [34]). split_and!; [done|by apply in_re_star_cls|].
    apply in_re_cat. exists [58], (sp2 ++ [34]). split_and!; [done|by apply in_chr|].
    apply in_re_cat. exists sp2, [34]. split_and!; [done|by apply in_re_star_cls|by apply in_chr].
Qed.
Lemma in_digits w : in_re (Star Digit) w ↔ digits_only w.
Proof. unfold Digit, digits_only. rewrite in_re_star_cls. apply Forall_iff. intros c. lia. Qed.
Lemma in_valPattern w : in_re valPattern w ↔ ∃ sp1 sp2 ds, w = key_text ++ sp1 ++ [58] ++ sp2 ++ [34] ++ ds ++ [34] ∧ spaces_only sp1 ∧ spaces_only sp2 ∧ digits_only ds.
Proof.
  unfold valPattern. rewrite in_re_cat. setoid_rewrite in_hasKey. split.
  - intros (k & x & -> & (sp1 & sp2 & -> & H1 & H2) & (ds & q & -> & H3%in_digits & ->%in_chr)%in_re_cat). exists sp1, sp2, ds.
    split_and!; [by rewrite <- !app_assoc|done..].
  - intros (sp1 & sp2 & ds & -> & H1 & H2 & H3). exists (key_text ++ sp1 ++ [58] ++ sp2 ++ [34]), (ds ++ [34]).
    split_and!; [by rewrite <- !app_assoc|by exists sp1, sp2|]. apply in_re_cat. exists ds, [34]. split_and!; [done|by apply in_digits|by apply in_chr].
Qed.

(** C23: with two debuggers behind one connection, a message goes to the static one
    exactly when somewhere in it stands the key of the session with a string of
    digits, and to the dynamic one exactly when the key with the beginning of a
    string does not occur; with any other string behind the key it is dropped. *)
Theorem hybrid_routing (msg : bytes) :
  let keyed sp1 sp2 := key_text ++ sp1 ++ [58] ++ sp2 ++ [34] in
  (route_message true msg = ToStatic ↔
     ∃ a sp1 sp2 ds b, msg = a ++ keyed sp1 sp2 ++ ds ++ [34] ++ b ∧ spaces_only sp1 ∧ spaces_only sp2 ∧ digits_only ds) ∧
  (route_message true msg = ToDynamic ↔ ¬ ∃ a sp1 sp2 b, msg = a ++ keyed sp1 sp2 ++ b ∧ spaces_only sp1 ∧ spaces_only sp2).
Proof.
  intros keyed.
  assert (Hk : regex_search msg hasKey = true ↔ ∃ a sp1 sp2 b, msg = a ++ keyed sp1 sp2 ++ b ∧ spaces_only sp1 ∧ spaces_only sp2).
  { rewrite regex_search_spec. setoid_rewrite in_hasKey. split.
    - intros (a & w & b & -> & sp1 & sp2 & -> & ?). by exists a, sp1, sp2, b.
    - intros (a & sp1 & sp2 & b & -> & ?). eexists a, _, b. split; [done|]. by exists sp1, sp2. }
  assert (Hv : regex_search msg valPattern = true ↔
    ∃ a sp1 sp2 ds b, msg = a ++ keyed sp1 sp2 ++ ds ++ [34] ++ b ∧ spaces_only sp1 ∧ spaces_only sp2 ∧ digits_only ds).
  { rewrite regex_search_spec. setoid_rewrite in_valPattern. unfold keyed. split.
    - intros (a & w & b & -> & sp1 & sp2 & ds & -> & ?). exists a, sp1, sp2, ds, b. split; [by rewrite <- !app_assoc|done].
    - intros (a & sp1 & sp2 & ds & b & -> & ?). eexists a, _, b. split; [|by exists sp1, sp2, ds]. by rewrite <- !app_assoc. }
  unfold route_message. destruct (regex_search msg hasKey) eqn:Ek; cbn [negb].
  - destruct (regex_search msg valPattern) eqn:Ev; rewrite <- Hk, <- Hv; (split; [done|split; [done|]]; intros Hn; by destruct Hn).
  - rewrite <- Hk. split; [|done]. split; [done|]. intros (a & sp1 & sp2 & ds & b & -> & H1 & H2 & _).
    exfalso. enough (false = true) by done. apply Hk. exists a, sp1, sp2, (ds ++ [34] ++ b). done.
Qed.

Lemma inspector_delivers_witness : ∃ (s s' : lib) h1, lib_step (H := all_vms) (H0 := false) (Message 1 (str "x") [(1, ProcessCommand)]) s = Ret () s' ∧
  handler_of 1 (Service_OnMessage (H := all_vms) 1 (str "x") (sv s)) = Some h1 ∧ requestQueue_ h1 = [str "x"].
Proof.
  assert (E : ∃ s, run_lib (H := all_vms) (H0 := false) [ApiStart 7 [] 1 false 0 (Some 5) 0 all_well] (lib_init 1) = Ret () s ∧
    g_inspectors s !! 1 = Some (mkInspector 7 0 1 (mkWsServer 0 (mkDebugInfo (-2) [] 0 0) false true) (Some 5)) ∧ handler_of 1 (sv s) = Some handler_init).
  { eexists. split; [vm_compute; reflexivity|]. split; reflexivity. }
  destruct E as (s & E & Ei & Eh). assert (Hr : lib_reach (H := all_vms) (H0 := false) 1 s) by (eapply run_lib_reach; [constructor|exact E]).
  destruct (inspector_delivers (H := all_vms) (H0 := false) 1 s 1 _ (str "x") (str "y") [(1, ProcessCommand)] ltac:(lia) Hr Ei ltac:(reflexivity))
    as ((s' & h & h1 & Est & E1 & E2 & Hq & _) & _).
  exists s, s', h1. split; [exact Est|]. split; [exact E2|]. rewrite Eh in E1. injection E1 as <-. exact Hq.
Defined.
