(* ===== verification/ConnectInspector.v ===== *)
(** * The connection for the user interface

    Models src/inspector/connect_inspector.{h,cpp}: a second connection, over which
    an IDE asks the user interface of the application for its layout, its state and
    recordings. The functions that handle a request come from the application. A
    function is a number; what it sends while it runs is the class [UiCallbacks].
    What the library does is kept as a list of effects. The order of an unordered
    map is the class [InfoOrder].

    The thread of the connection's server is modelled in [ServerThreads]; here it
    opens its websocket ([UiOpen]) and hands over messages ([UiReceive]). *)

From S2P Require Import Prelude Regex Http CppLib Utils PtJson PtCodec PtTypes Dispatcher.
Local Open Scope Z_scope.

(** ** The state *)

Inductive ui_role := RConnect | RProfiler | RLayout | RDebugMode | RStart | RStop | RArkUI | RWms | RCangjie.
Inductive ui_arg := ArgNone | ArgBool (b : bool) | ArgInt (z : Z) | ArgText (t : bytes).
Inductive ui_effect :=
| UiCall (role : ui_role) (f : Z) (arg : ui_arg)
| UiSent (server : nat) (message : bytes)
| UiStopped (server : nat).

Class UiCallbacks := cb_sends : ui_role → Z → ui_arg → list bytes.
Class InfoOrder := {
  info_order : gmap Z bytes → list bytes;
  info_order_perm m : info_order m ≡ₚ (map_to_list m).*2 }.
(** [arm32]: the platform on which StartServer starts a server. *)
Class UiBuild := arm32 : bool.

Record conn_server := mkConn { cn_id : nat; cn_open : bool }.
Record ConnectInspector := mkCI {
  infoBuffer_ : gmap Z bytes;
  connectServer_ : option conn_server;
  ci_waitingForDebugger_ : bool;
  setArkUIStateProfilerStatus_ : option Z;
  createLayoutInfo_ : option Z;
  setDebugMode_ : option Z;
  instanceId_ : Z;
  startRecord_ : option Z;
  stopRecord_ : option Z;
  isRecording_ : bool;
  arkUICallback_ : option Z;
  wMSCallback_ : option Z;
  cangjieCallback_ : option Z }.
Definition new_ConnectInspector : ConnectInspector := mkCI ∅ None true None None None (-1) None None false None None None.

Record ui := mkUi {
  g_inspector : option ConnectInspector;
  g_setConnectCallBack : option Z;
  ui_trace : list ui_effect;
  next_conn : nat }.
Definition ui_init : ui := mkUi None None [] 0.

Definition set_buffer v i := mkCI v (connectServer_ i) (ci_waitingForDebugger_ i) (setArkUIStateProfilerStatus_ i) (createLayoutInfo_ i) (setDebugMode_ i) (instanceId_ i) (startRecord_ i) (stopRecord_ i) (isRecording_ i) (arkUICallback_ i) (wMSCallback_ i) (cangjieCallback_ i).
Definition set_conn v i := mkCI (infoBuffer_ i) v (ci_waitingForDebugger_ i) (setArkUIStateProfilerStatus_ i) (createLayoutInfo_ i) (setDebugMode_ i) (instanceId_ i) (startRecord_ i) (stopRecord_ i) (isRecording_ i) (arkUICallback_ i) (wMSCallback_ i) (cangjieCallback_ i).
Definition set_ci_waiting v i := mkCI (infoBuffer_ i) (connectServer_ i) v (setArkUIStateProfilerStatus_ i) (createLayoutInfo_ i) (setDebugMode_ i) (instanceId_ i) (startRecord_ i) (stopRecord_ i) (isRecording_ i) (arkUICallback_ i) (wMSCallback_ i) (cangjieCallback_ i).
Definition set_profiler_cb v i := mkCI (infoBuffer_ i) (connectServer_ i) (ci_waitingForDebugger_ i) v (createLayoutInfo_ i) (setDebugMode_ i) (instanceId_ i) (startRecord_ i) (stopRecord_ i) (isRecording_ i) (arkUICallback_ i) (wMSCallback_ i) (cangjieCallback_ i).
Definition set_layout_cb v n i := mkCI (infoBuffer_ i) (connectServer_ i) (ci_waitingForDebugger_ i) (setArkUIStateProfilerStatus_ i) v (setDebugMode_ i) n (startRecord_ i) (stopRecord_ i) (isRecording_ i) (arkUICallback_ i) (wMSCallback_ i) (cangjieCallback_ i).
Definition set_mode_cb v i := mkCI (infoBuffer_ i) (connectServer_ i) (ci_waitingForDebugger_ i) (setArkUIStateProfilerStatus_ i) (createLayoutInfo_ i) v (instanceId_ i) (startRecord_ i) (stopRecord_ i) (isRecording_ i) (arkUICallback_ i) (wMSCallback_ i) (cangjieCallback_ i).
Definition set_record_cb v w i := mkCI (infoBuffer_ i) (connectServer_ i) (ci_waitingForDebugger_ i) (setArkUIStateProfilerStatus_ i) (createLayoutInfo_ i) (setDebugMode_ i) (instanceId_ i) v w (isRecording_ i) (arkUICallback_ i) (wMSCallback_ i) (cangjieCallback_ i).
Definition set_recording v i := mkCI (infoBuffer_ i) (connectServer_ i) (ci_waitingForDebugger_ i) (setArkUIStateProfilerStatus_ i) (createLayoutInfo_ i) (setDebugMode_ i) (instanceId_ i) (startRecord_ i) (stopRecord_ i) v (arkUICallback_ i) (wMSCallback_ i) (cangjieCallback_ i).
Definition set_text_cbs v w x i := mkCI (infoBuffer_ i) (connectServer_ i) (ci_waitingForDebugger_ i) (setArkUIStateProfilerStatus_ i) (createLayoutInfo_ i) (setDebugMode_ i) (instanceId_ i) (startRecord_ i) (stopRecord_ i) (isRecording_ i) v w x.

Definition set_insp v (u : ui) := mkUi v (g_setConnectCallBack u) (ui_trace u) (next_conn u).
Definition effect e (u : ui) := mkUi (g_inspector u) (g_setConnectCallBack u) (ui_trace u ++ [e]) (next_conn u).
(** The inspector, when there is one; and the same with a new one otherwise. *)
Definition upd_insp (f : ConnectInspector → ConnectInspector) (u : ui) : ui := set_insp (f <$> g_inspector u) u.
Definition need_insp (f : ConnectInspector → ConnectInspector) (u : ui) : ui :=
  set_insp (Some (f (default new_ConnectInspector (g_inspector u)))) u.

Section connect.
Context `{cj : CJson} `{UiCallbacks} `{InfoOrder} `{UiBuild}.

(** ** Sending *)

Definition ConnectServer_SendMessage (c : conn_server) (message : bytes) (u : ui) : ui :=
  if cn_open c then effect (UiSent (cn_id c) message) u else u.
Definition SendMessage (message : bytes) (u : ui) : ui :=
  match g_inspector u with
  | Some i => match connectServer_ i with
              | Some c => if ci_waitingForDebugger_ i then u else ConnectServer_SendMessage c message u
              | None => u
              end
  | None => u
  end.
Definition WaitForConnection (u : ui) : bool := match g_inspector u with None => true | Some i => ci_waitingForDebugger_ i end.

(** A call of a function of the application, when there is one. *)
Definition invoke (role : ui_role) (f : option Z) (arg : ui_arg) (u : ui) : ui :=
  match f with
  | Some f => foldl (λ u m, SendMessage m u) (effect (UiCall role f arg) u) (cb_sends role f arg)
  | None => u
  end.
(** A function that the inspector has now. *)
Definition invoke_of (role : ui_role) (get : ConnectInspector → option Z) (arg : ui_arg) (u : ui) : ui :=
  invoke role (g_inspector u ≫= get) arg u.
Definition tell_connected (b : bool) (u : ui) : ui := invoke RConnect (g_setConnectCallBack u) (ArgBool b) u.

(** ** Messages *)

Definition mentions (word : string) (message : bytes) : bool := bool_decide (is_Some (find message (str word) 0)).

(** [ConnectRequest]: the domain of a valid request. *)
Definition ConnectRequest (message : bytes) : option bytes :=
  let json := Parse message in
  if negb (IsObject json) then None
  else match GetString json "method" with
       | SUCCESS wholeMethod =>
           if bool_decide (wholeMethod = []) then None
           else match find_dot wholeMethod with
                | None => None
                | Some indexPoint =>
                    if bool_decide (indexPoint = 0%nat ∨ indexPoint = (length wholeMethod - 1)%nat) then None
                    else Some (take indexPoint wholeMethod)
                end
       | _ => None
       end.

Definition OnConnectedMessage (message : bytes) (u : ui) : ui :=
  let u1 :=
    if mentions "connected" message then
      let u := tell_connected true (upd_insp (set_ci_waiting false) u) in
      match g_inspector u with
      | Some i => match connectServer_ i with
                  | Some c => foldl (λ u m, ConnectServer_SendMessage c m u) u (info_order (infoBuffer_ i))
                  | None => u
                  end
      | None => u
      end
    else u in
  if mentions "disconnect" message then tell_connected false u1 else u1.

Definition OnInspectorRecordMessage (message : bytes) (u : ui) : ui :=
  let recording u := match g_inspector u with Some i => isRecording_ i | None => false end in
  let u1 :=
    if mentions "rsNodeStartRecord" message then
      match g_inspector u ≫= startRecord_ with
      | Some f => if negb (recording u) then upd_insp (set_recording true) (invoke RStart (Some f) ArgNone u) else u
      | None => u
      end
    else u in
  if mentions "rsNodeStopRecord" message then
    match g_inspector u1 ≫= stopRecord_ with
    | Some f => if recording u1 then upd_insp (set_recording false) (invoke RStop (Some f) ArgNone u1) else u1
    | None => u1
    end
  else u1.

(** The second component: whether the message has been handled. *)
Definition OnArkUIInspectorMessage (message : bytes) (u : ui) : ui * bool :=
  match ConnectRequest message with
  | None => (u, false)
  | Some domain =>
      if bool_decide (domain = str "ArkUI") then (invoke_of RArkUI arkUICallback_ (ArgText (c_str message)) u, true)
      else if bool_decide (domain = str "WMS") then (invoke_of RWms wMSCallback_ (ArgText (c_str message)) u, true)
      else (u, false)
  end.
Definition OnCangjieInspectorMessage (message : bytes) (u : ui) : ui * bool :=
  if mentions "cangjie profiler" message then (invoke_of RCangjie cangjieCallback_ (ArgText message) u, true) else (u, false).

(** The words of the older protocol, in the order in which they are looked for. *)
Definition plain_message (message : bytes) (u : ui) : ui :=
  let u := if mentions "ArkUIStateProfilerOpen" message then invoke_of RProfiler setArkUIStateProfilerStatus_ (ArgBool true) u else u in
  let u := if mentions "ArkUIStateProfilerClose" message then invoke_of RProfiler setArkUIStateProfilerStatus_ (ArgBool false) u else u in
  let u := if mentions "tree" message
           then invoke_of RLayout createLayoutInfo_ (ArgInt (match g_inspector u with Some i => instanceId_ i | None => -1 end)) u else u in
  let u := if mentions "stopDebugger" message
           then tell_connected false (invoke_of RDebugMode setDebugMode_ ArgNone (upd_insp (set_ci_waiting true) u)) else u in
  OnInspectorRecordMessage message u.

Definition OnMessage (message : bytes) (u : ui) : ui :=
  if bool_decide (message = []) then u
  else match g_inspector u ≫= connectServer_ with
       | None => u
       | Some _ =>
           let u1 := OnConnectedMessage message u in
           let '(u2, handled) := OnArkUIInspectorMessage message u1 in
           if handled then u2
           else let '(u3, handled) := OnCangjieInspectorMessage message u2 in if handled then u3 else plain_message message u3
       end.

(** ** The interface *)

Definition SetSwitchCallBack (f : option Z) (instanceId : Z) : ui → ui := need_insp (set_layout_cb f instanceId).
Definition SetConnectCallback (f : option Z) (u : ui) : ui := mkUi (g_inspector u) f (ui_trace u) (next_conn u).
Definition SetDebugModeCallBack (f : option Z) : ui → ui := upd_insp (set_mode_cb f).
Definition SetProfilerCallback (f : option Z) : ui → ui := need_insp (set_profiler_cb f).
Definition SetRecordCallback (f g : option Z) : ui → ui := need_insp (set_record_cb f g).
Definition SetArkUICallback (f : option Z) : ui → ui := need_insp (λ i, set_text_cbs f (wMSCallback_ i) (cangjieCallback_ i) i).
Definition SetWMSCallback (f : option Z) : ui → ui := need_insp (λ i, set_text_cbs (arkUICallback_ i) f (cangjieCallback_ i) i).
Definition SetCangjieCallback (f : option Z) : ui → ui := need_insp (λ i, set_text_cbs (arkUICallback_ i) (wMSCallback_ i) f i).

Definition ResetService (u : ui) : ui :=
  match g_inspector u with
  | Some i => match connectServer_ i with
              | Some c => upd_insp (λ i, set_buffer ∅ (set_conn None i)) (effect (UiStopped (cn_id c)) u)
              | None => u
              end
  | None => u
  end.
(** [created]: the answer of pthread_create. *)
Definition start_conn (created : bool) (u : ui) : ui * bool :=
  let u1 := need_insp (set_conn (Some (mkConn (next_conn u) false))) u in
  let u2 := mkUi (g_inspector u1) (g_setConnectCallBack u1) (ui_trace u1) (S (next_conn u1)) in
  if created then (u2, true) else (ResetService u2, false).
Definition StartServerForSocketPair (created : bool) (u : ui) : ui * bool :=
  let u := need_insp id u in
  match g_inspector u ≫= connectServer_ with
  | Some _ => (u, true)
  | None => start_conn created u
  end.
Definition StartServer (created : bool) (u : ui) : ui :=
  let u := set_insp (Some new_ConnectInspector) u in
  if arm32 then (start_conn created u).1 else u.
Definition StopServer (u : ui) : ui := ResetService u.

Definition StoreMessage (instanceId : Z) (message : bytes) : ui → ui :=
  need_insp (λ i, match infoBuffer_ i !! instanceId with
                  | Some _ => i
                  | None => set_buffer (<[instanceId := message]> (infoBuffer_ i)) i
                  end).
Definition RemoveMessage (instanceId : Z) : ui → ui := upd_insp (λ i, set_buffer (delete instanceId (infoBuffer_ i)) i).

(** The server thread has made its websocket. *)
Definition open_conn : ui → ui := upd_insp (λ i, set_conn ((λ c, mkConn (cn_id c) true) <$> connectServer_ i) i).

(** ** Runs *)

Inductive ui_event :=
| UiOpen
| UiReceive (message : bytes)
| UiSend (message : bytes)
| UiStore (instanceId : Z) (message : bytes)
| UiRemove (instanceId : Z)
| UiStartPair (created : bool)
| UiStart (created : bool)
| UiStop
| UiSetSwitch (f : option Z) (instanceId : Z)
| UiSetConnect (f : option Z)
| UiSetMode (f : option Z)
| UiSetProfiler (f : option Z)
| UiSetRecord (f g : option Z)
| UiSetText (arkUI wms cangjie : option Z).

Definition ui_step (e : ui_event) (u : ui) : ui :=
  match e with
  | UiOpen => open_conn u
  | UiReceive message => OnMessage message u
  | UiSend message => SendMessage message u
  | UiStore id message => StoreMessage id message u
  | UiRemove id => RemoveMessage id u
  | UiStartPair created => (StartServerForSocketPair created u).1
  | UiStart created => StartServer created u
  | UiStop => StopServer u
  | UiSetSwitch f id => SetSwitchCallBack f id u
  | UiSetConnect f => SetConnectCallback f u
  | UiSetMode f => SetDebugModeCallBack f u
  | UiSetProfiler f => SetProfilerCallback f u
  | UiSetRecord f g => SetRecordCallback f g u
  | UiSetText f g h => SetCangjieCallback h (SetWMSCallback g (SetArkUICallback f u))
  end.

Definition recording (u : ui) : bool := match g_inspector u with Some i => isRecording_ i | None => false end.

(** StartServer makes a new inspector; [ui_reach] does not call it while something
    is being recorded. *)
Inductive ui_reach : ui → Prop :=
| ui_start : ui_reach ui_init
| ui_next e u : ui_reach u → (∀ created, e = UiStart created → recording u = false) → ui_reach (ui_step e u).

(** ** Recordings *)

Definition record_calls (t : list ui_effect) : list bool :=
  t ≫= λ e, match e with UiCall RStart _ _ => [true] | UiCall RStop _ _ => [false] | _ => [] end.
Fixpoint alternates (next : bool) (l : list bool) : Prop :=
  match l with
  | [] => True
  | b :: l' => b = next ∧ alternates (negb next) l'
  end.
Definition record_view (u : ui) : list bool * bool := (record_calls (ui_trace u), recording u).

Lemma record_calls_app t t' : record_calls (t ++ t') = record_calls t ++ record_calls t'.
Proof. unfold record_calls. by rewrite bind_app. Qed.
Lemma view_effect e u : record_view (effect e u) = (record_calls (ui_trace u) ++ record_calls [e], recording u).
Proof. unfold record_view. cbn [effect ui_trace]. by rewrite record_calls_app. Qed.
Lemma view_quiet e u : record_calls [e] = [] → record_view (effect e u) = record_view u.
Proof. intros E. by rewrite view_effect, E, app_nil_r. Qed.
Lemma view_conn c m u : record_view (ConnectServer_SendMessage c m u) = record_view u.
Proof. unfold ConnectServer_SendMessage. destruct (cn_open c); [by apply view_quiet|done]. Qed.
Lemma view_send m u : record_view (SendMessage m u) = record_view u.
Proof. unfold SendMessage. repeat case_match; try done. apply view_conn. Qed.
Lemma view_foldl (f : bytes → ui → ui) l : (∀ m u, record_view (f m u) = record_view u) → ∀ u, record_view (foldl (λ u m, f m u) u l) = record_view u.
Proof. intros Hf. induction l as [|m l IH]; intros u; [done|]. cbn [foldl]. by rewrite IH, Hf. Qed.
Lemma view_invoke role f arg u : record_view (invoke role (Some f) arg u) = (record_calls (ui_trace u) ++ record_calls [UiCall role f arg], recording u).
Proof. cbn [invoke]. by rewrite (view_foldl SendMessage) by (intros; apply view_send); apply view_effect. Qed.
Lemma view_invoke_quiet role f arg u : role ≠ RStart → role ≠ RStop → record_view (invoke role f arg u) = record_view u.
Proof. intros Hr1 Hr2. destruct f as [f|]; [|done]. rewrite view_invoke. by destruct role; cbn; rewrite ?app_nil_r. Qed.
Lemma view_upd f u : (∀ i, isRecording_ (f i) = isRecording_ i) → record_view (upd_insp f u) = record_view u.
Proof. intros Hf. unfold record_view, upd_insp, recording. cbn. destruct (g_inspector u); cbn; by rewrite ?Hf. Qed.
Lemma view_need f u : (∀ i, isRecording_ (f i) = isRecording_ i) → record_view (need_insp f u) = record_view u.
Proof. intros Hf. unfold record_view, need_insp, recording. cbn. rewrite Hf. by destruct (g_inspector u). Qed.

Create Rewrite HintDb ark_ui.
Hint Rewrite view_send view_conn : ark_ui.
Hint Rewrite view_invoke_quiet using done : ark_ui.
Hint Rewrite view_upd view_need using done : ark_ui.

Lemma view_connected message u : record_view (OnConnectedMessage message u) = record_view u.
Proof.
  unfold OnConnectedMessage, tell_connected. cbv zeta.
  assert (E : record_view (if mentions "connected" message
    then let u := invoke RConnect (g_setConnectCallBack (upd_insp (set_ci_waiting false) u)) (ArgBool true) (upd_insp (set_ci_waiting false) u) in
      match g_inspector u with Some i => match connectServer_ i with Some c => foldl (λ u m, ConnectServer_SendMessage c m u) u (info_order (infoBuffer_ i)) | None => u end | None => u end
    else u) = record_view u).
  { destruct (mentions _ _); [|done]. cbv zeta. repeat case_match; rewrite ?(view_foldl (ConnectServer_SendMessage _)) by (intros; apply view_conn);
      by autorewrite with ark_ui. }
  destruct (mentions "disconnect" message); [rewrite view_invoke_quiet by done|]; exact E.
Qed.
Lemma view_arkui message u : record_view (OnArkUIInspectorMessage message u).1 = record_view u.
Proof. unfold OnArkUIInspectorMessage, invoke_of. repeat case_match; cbn [fst]; by autorewrite with ark_ui. Qed.
Lemma view_cangjie message u : record_view (OnCangjieInspectorMessage message u).1 = record_view u.
Proof. unfold OnCangjieInspectorMessage, invoke_of. case_match; cbn [fst]; by autorewrite with ark_ui. Qed.

(** The calls so far alternate, and the flag tells which one was the last. *)
Definition record_ok (v : list bool * bool) : Prop := alternates true v.1 ∧ v.2 = Nat.odd (length v.1).
Lemma alternates_snoc l : ∀ next b, alternates next l → b = xorb next (Nat.odd (length l)) → alternates next (l ++ [b]).
Proof.
  induction l as [|x l IH]; intros next b Hl Hb; cbn in *; [split; [by destruct next|done]|]. destruct Hl as [-> Hl]. split; [done|].
  apply IH; [done|]. rewrite Hb, Nat.odd_succ, <- Nat.negb_odd. by destruct next, (Nat.odd (length l)).
Qed.
Lemma record_snoc l r b : record_ok (l, r) → b = negb r → record_ok (l ++ [b], b).
Proof.
  intros [Ha Hr] ->. cbn in *. subst r. split; cbn; [apply alternates_snoc; [done|by destruct (Nat.odd _)]|].
  rewrite length_app, Nat.add_1_r, Nat.odd_succ, <- Nat.negb_odd. done.
Qed.

(** Functions of the application do not change the inspector. *)
Lemma insp_send m u : g_inspector (SendMessage m u) = g_inspector u.
Proof. unfold SendMessage, ConnectServer_SendMessage. by repeat case_match. Qed.
Lemma insp_invoke role f arg u : g_inspector (invoke role f arg u) = g_inspector u.
Proof.
  destruct f as [f|]; [|done]. cbn [invoke]. generalize (cb_sends role f arg) as l. intros l. change (g_inspector u) with (g_inspector (effect (UiCall role f arg) u)).
  generalize (effect (UiCall role f arg) u). induction l as [|m l IH]; intros v; [done|]. cbn [foldl]. by rewrite IH, insp_send.
Qed.
Lemma record_call role f b u : record_calls [UiCall role f ArgNone] = [b] → g_inspector u ≠ None → record_ok (record_view u) → recording u = negb b →
  record_ok (record_view (upd_insp (set_recording b) (invoke role (Some f) ArgNone u))).
Proof.
  intros Ec Hi Hok Hb. pose proof (view_invoke role f ArgNone u) as E. rewrite Ec in E.
  pose proof (insp_invoke role (Some f) ArgNone u) as Ei. set (v := invoke role (Some f) ArgNone u) in *. clearbody v. injection E as Et _.
  unfold record_view, recording, upd_insp. cbn [set_insp ui_trace g_inspector]. rewrite Et, Ei. destruct (g_inspector u) eqn:Eu; [|done]. cbn.
  eapply record_snoc; [exact Hok|]. rewrite Hb. by destruct b.
Qed.
Lemma record_message message u : record_ok (record_view u) → record_ok (record_view (OnInspectorRecordMessage message u)).
Proof.
  intros Hok. unfold OnInspectorRecordMessage. cbv zeta.
  match goal with |- context [if mentions "rsNodeStartRecord" message then ?a else u] => set (u1 := if mentions "rsNodeStartRecord" message then a else u) end.
  assert (Hu1 : record_ok (record_view u1)).
  { unfold u1. destruct (mentions _ _); [|done]. destruct (g_inspector u ≫= startRecord_) as [f|] eqn:Ef; [|done].
    fold (recording u). destruct (recording u) eqn:Er; [done|]. cbn [negb]. apply record_call; [done| |done|by rewrite Er].
    by destruct (g_inspector u). }
  clearbody u1. destruct (mentions "rsNodeStopRecord" message); [|exact Hu1]. destruct (g_inspector u1 ≫= stopRecord_) as [f|] eqn:Ef; [|done].
  fold (recording u1). destruct (recording u1) eqn:Er; [|done]. apply record_call; [done| |done|by rewrite Er]. by destruct (g_inspector u1).
Qed.
Lemma record_plain message u : record_ok (record_view u) → record_ok (record_view (plain_message message u)).
Proof.
  intros Hok. unfold plain_message, invoke_of, tell_connected. cbv zeta. apply record_message.
  repeat match goal with |- context [if mentions ?w message then _ else _] => destruct (mentions w message) end;
    by autorewrite with ark_ui.
Qed.
Lemma record_OnMessage message u : record_ok (record_view u) → record_ok (record_view (OnMessage message u)).
Proof.
  intros Hok. unfold OnMessage. case_match; [done|]. case_match; [|done].
  pose proof (view_arkui message (OnConnectedMessage message u)) as E1. rewrite view_connected in E1.
  destruct (OnArkUIInspectorMessage _ _) as [u2 []]; cbn [fst] in E1; [by rewrite E1|].
  pose proof (view_cangjie message u2) as E2. destruct (OnCangjieInspectorMessage _ _) as [u3 []]; cbn [fst] in E2; [by rewrite E2, E1|].
  apply record_plain. by rewrite E2, E1.
Qed.
Lemma view_reset u : record_view (ResetService u) = record_view u.
Proof. unfold ResetService. repeat case_match; try done. rewrite view_upd by done. by apply view_quiet. Qed.
Lemma view_start_conn created u : record_view (start_conn created u).1 = record_view u.
Proof.
  unfold start_conn. cbv zeta. set (u1 := need_insp _ u). assert (E : record_view u1 = record_view u) by (by apply view_need).
  destruct created; cbn [fst]; [exact E|]. rewrite view_reset. exact E.
Qed.

(** C27: however requests, callbacks and connections come and go, as long as
    StartServer does not replace the inspector while it records: the application is
    asked to start and to stop recording in turn, beginning with a start, and the
    inspector knows whether a recording is going on. *)
Theorem recordings_alternate (u : ui) :
  ui_reach u → alternates true (record_calls (ui_trace u)) ∧ recording u = Nat.odd (length (record_calls (ui_trace u))).
Proof.
  intros Hr. change (record_ok (record_view u)). induction Hr as [|e u _ IH Hs]; [done|].
  destruct e; cbn [ui_step]; try (unfold open_conn, StoreMessage, RemoveMessage, SetSwitchCallBack, SetDebugModeCallBack, SetProfilerCallback, SetRecordCallback,
    SetCangjieCallback, SetWMSCallback, SetArkUICallback; rewrite ?view_upd, ?view_need by (intros; by repeat case_match); exact IH); try exact IH.
  - by apply record_OnMessage.
  - by rewrite view_send.
  - unfold StartServerForSocketPair. cbv zeta. case_match; [cbn [fst]|rewrite view_start_conn]; by rewrite view_need.
  - specialize (Hs created eq_refl). unfold StartServer. cbv zeta.
    assert (E : record_view (set_insp (Some new_ConnectInspector) u) = record_view u) by (unfold record_view; cbn; by rewrite Hs).
    destruct arm32; [rewrite view_start_conn|]; by rewrite E.
  - unfold StopServer. by rewrite view_reset.
Qed.

(** ** Connecting *)

Definition extends (u v : ui) : Prop := ui_trace u `prefix_of` ui_trace v.
#[local] Instance extends_preorder : PreOrder extends.
Proof. unfold extends. split; [intros u; reflexivity|intros u v w; apply transitivity]. Qed.
Lemma extends_refl u : extends u u.
Proof. unfold extends. reflexivity. Qed.
Lemma extends_effect e u : extends u (effect e u).
Proof. unfold extends. cbn. by apply prefix_app_r. Qed.
Lemma extends_send m u : extends u (SendMessage m u).
Proof. unfold SendMessage, ConnectServer_SendMessage. repeat case_match; first [apply extends_refl|apply extends_effect]. Qed.
Lemma extends_invoke role f arg u : extends u (invoke role f arg u).
Proof.
  destruct f as [f|]; [|apply extends_refl]. cbn [invoke]. unfold extends. etrans; [apply (extends_effect (UiCall role f arg))|].
  generalize (effect (UiCall role f arg) u). induction (cb_sends role f arg) as [|m l IH]; intros v; [reflexivity|]. cbn [foldl]. etrans; [apply (extends_send m)|apply IH].
Qed.
Lemma extends_record message u : extends u (OnInspectorRecordMessage message u).
Proof.
  unfold OnInspectorRecordMessage. cbv zeta.
  match goal with |- context [if mentions "rsNodeStartRecord" message then ?a else u] => set (u1 := if mentions "rsNodeStartRecord" message then a else u) end.
  assert (Hu : extends u u1) by (unfold u1; repeat case_match; first [apply extends_refl|apply extends_invoke]). clearbody u1.
  destruct (mentions "rsNodeStopRecord" message); [|exact Hu]. destruct (g_inspector u1 ≫= stopRecord_) as [f|]; [|exact Hu].
  fold (recording u1). destruct (recording u1); [|exact Hu]. etrans; [exact Hu|]. apply (extends_invoke RStop (Some f) ArgNone u1).
Qed.
Lemma extends_plain message u : extends u (plain_message message u).
Proof.
  unfold plain_message, invoke_of, tell_connected. cbv zeta. etrans; [|apply extends_record].
  assert (Hi : ∀ role f arg v w, extends u v → ui_trace w = ui_trace v → extends u (invoke role f arg w)).
  { intros role f arg v w Hv Ew. unfold extends in *. etrans; [exact Hv|]. rewrite <- Ew. apply extends_invoke. }
  repeat match goal with |- context [if mentions ?w message then _ else _] => destruct (mentions w message) end;
    repeat first [apply extends_refl | match goal with |- extends u (upd_insp _ ?v) => change (extends u v) end | eapply Hi; [|reflexivity]].
Qed.
Lemma extends_OnMessage message u : message ≠ [] → is_Some (g_inspector u ≫= connectServer_) → extends (OnConnectedMessage message u) (OnMessage message u).
Proof.
  intros Hm [c Hc]. unfold OnMessage. rewrite bool_decide_eq_false_2 by done. rewrite Hc. set (u1 := OnConnectedMessage message u). clearbody u1.
  unfold OnArkUIInspectorMessage, OnCangjieInspectorMessage, invoke_of. repeat case_match; simplify_eq; try apply extends_invoke; try apply extends_plain.
Qed.

(** The stored messages go out one after the other. *)
Lemma replay_trace c l : cn_open c = true → ∀ u, ui_trace (foldl (λ u m, ConnectServer_SendMessage c m u) u l) = ui_trace u ++ (UiSent (cn_id c) <$> l).
Proof.
  intros Ho. induction l as [|m l IH]; intros u; [by rewrite app_nil_r|]. cbn [foldl fmap list_fmap]. rewrite IH.
  unfold ConnectServer_SendMessage. rewrite Ho. cbn. by rewrite <- app_assoc.
Qed.

(** When the IDE reports that it is connected, every message that is stored for
    an instance of the application is sent to it, each exactly once, and from then
    on the application is not waiting any more. *)
Theorem connected_replays (message : bytes) (u : ui) (i : ConnectInspector) (c : conn_server) :
  g_inspector u = Some i → connectServer_ i = Some c → cn_open c = true → mentions "connected" message = true →
  WaitForConnection (OnConnectedMessage message u) = false ∧
  ∃ before infos after, infos ≡ₚ (map_to_list (infoBuffer_ i)).*2 ∧
    ui_trace (OnMessage message u) = ui_trace u ++ before ++ (UiSent (cn_id c) <$> infos) ++ after.
Proof.
  intros Hi Hc Ho Hm. assert (Hne : message ≠ []) by (intros ->; by vm_compute in Hm).
  pose proof (extends_OnMessage message u Hne) as He. rewrite Hi in He. specialize (He ltac:(by exists c)) as [after1 Eafter].
  set (u0 := tell_connected true (upd_insp (set_ci_waiting false) u)) in *.
  assert (E0 : g_inspector u0 = Some (set_ci_waiting false i)) by (unfold u0, tell_connected; rewrite insp_invoke; cbn; by rewrite Hi).
  destruct (extends_invoke RConnect (g_setConnectCallBack (upd_insp (set_ci_waiting false) u)) (ArgBool true) (upd_insp (set_ci_waiting false) u)) as [before Eb].
  set (u1 := foldl (λ u m, ConnectServer_SendMessage c m u) u0 (info_order (infoBuffer_ i))).
  assert (E1 : g_inspector u1 = Some (set_ci_waiting false i)).
  { unfold u1. rewrite <- E0. generalize u0. induction (info_order (infoBuffer_ i)) as [|m l IH]; intros v; [done|]. cbn [foldl]. rewrite IH.
    unfold ConnectServer_SendMessage. by destruct (cn_open c). }
  assert (Ec : OnConnectedMessage message u = if mentions "disconnect" message then tell_connected false u1 else u1).
  { unfold OnConnectedMessage. rewrite Hm. cbv zeta. fold u0. rewrite E0. cbn [set_ci_waiting connectServer_ infoBuffer_]. by rewrite Hc. }
  assert (E2 : ∃ after2, ui_trace (OnConnectedMessage message u) = ui_trace u1 ++ after2).
  { rewrite Ec. destruct (mentions "disconnect" message); [apply extends_invoke|exists []; by rewrite app_nil_r]. }
  destruct E2 as [after2 E2]. split.
  - rewrite Ec. unfold WaitForConnection. destruct (mentions "disconnect" message); [unfold tell_connected; rewrite insp_invoke|]; by rewrite E1.
  - exists before, (info_order (infoBuffer_ i)), (after2 ++ after1). split; [apply info_order_perm|].
    rewrite Eafter, E2. unfold u1. rewrite replay_trace by done. change (ui_trace u) with (ui_trace (upd_insp (set_ci_waiting false) u)).
    unfold u0, tell_connected. rewrite Eb. by rewrite <- !app_assoc.
Qed.

(** A message that says "disconnected" mentions "connected" too. *)
Lemma disconnected_connects : mentions "connected" (str "disconnected") = true.
Proof. done. Qed.

End connect.

(** StartServer replaces the inspector of a running recording: the next request
    starts a second one. *)
Lemma restart_forgets_recording :
  let cbs : UiCallbacks := λ _ _ _, [] in
  ∀ (cj : CJson) (o : InfoOrder),
  let step := @ui_step cj cbs o true in
  let start := UiReceive (str "rsNodeStartRecord") in
  @IsObject cj (Parse (str "rsNodeStartRecord")) = false →
  record_calls (ui_trace (foldl (λ u e, step e u) ui_init
    [UiStart true; UiOpen; UiSetRecord (Some 1) (Some 2); start; UiStart true; UiOpen; UiSetRecord (Some 1) (Some 2); start])) = [true; true].
Proof.
  intros cbs cj o step start Hj. unfold step, start. cbn [foldl ui_step].
  unfold OnMessage, OnArkUIInspectorMessage, ConnectRequest. cbv zeta. rewrite !Hj. reflexivity.
Qed.

(** ** The properties, evaluated *)

#[local] Instance quiet_callbacks : UiCallbacks := λ _ _ _, [].
#[local] Instance listed_infos : InfoOrder. Proof. refine {| info_order m := (map_to_list m).*2 |}. done. Defined.
#[local] Instance not_arm32 : UiBuild := false.
#[local] Existing Instance tree_cjson.

Lemma recordings_alternate_witness : ∃ u, ui_reach u ∧ record_calls (ui_trace u) = [true] ∧ recording u = true.
Proof.
  pose (es := [UiStartPair true; UiOpen; UiSetRecord (Some 1) (Some 2); UiReceive (str "rsNodeStartRecord")]).
  assert (Hu : ui_reach (foldl (λ u e, ui_step e u) ui_init es)).
  { unfold es. cbn [foldl]. repeat (apply ui_next; [|by intros]). constructor. }
  exists (foldl (λ u e, ui_step e u) ui_init es). split; [exact Hu|].
  destruct (recordings_alternate _ Hu) as [_ Hr]. assert (E : record_calls (ui_trace (foldl (λ u e, ui_step e u) ui_init es)) = [true]) by reflexivity.
  rewrite E in Hr |- *. split; [reflexivity|exact Hr].
Defined.
Lemma connected_replays_witness : ∃ before infos after, infos ≡ₚ [str "tree of 3"] ∧
  ui_trace (foldl (λ u e, ui_step e u) ui_init [UiStore 3 (str "tree of 3"); UiStartPair true; UiOpen; UiReceive (str "connected")]) =
    before ++ (UiSent 0 <$> infos) ++ after.
Proof.
  destruct (connected_replays (str "connected") (foldl (λ u e, ui_step e u) ui_init [UiStore 3 (str "tree of 3"); UiStartPair true; UiOpen])
    (set_conn (Some (mkConn 0 true)) (set_buffer (<[3 := str "tree of 3"]> ∅) new_ConnectInspector)) (mkConn 0 true)
    ltac:(reflexivity) ltac:(reflexivity) ltac:(reflexivity) ltac:(reflexivity)) as (_ & before & infos & after & Hp & E).
  exists before, infos, after. split; [exact Hp|exact E].
Defined.
