(* ===== verification/BatchRunner.v ===== *)
(** * Running many programs

    Models tooling/dynamic/client/ark_multi/main.cpp, which runs the files of a list
    on several threads. A thread takes the next file under the mutex, runs it on a
    machine of its own and queues a line for the result; the last thread to find no
    file sends the signal that ends the event loop. The threads are a list of
    program counters, and [batch_exec] is a step of one of them. Whether a thread can
    be created is the answer [created] of the system, which the program ignores; whether
    a machine can be made and whether the file runs is the answer of the virtual
    machine. The copy of the line, whose buffer has its size, does not fail. *)

From S2P Require Import Prelude Regex Http CppLib Utils.
Local Open Scope Z_scope.

(** ** Files *)

Definition SLASH : Z := 47.
(** The name behind the last '/'. *)
Fixpoint base_name (s : bytes) : bytes :=
  match s with
  | [] => []
  | c :: s' => if decide (SLASH ∈ s) then base_name s' else s
  end.
(** [substr(0, size - 4)]: the difference wraps for a shorter name, which is then
    taken as it is. *)
Definition entry_name (fileName : bytes) : bytes :=
  let fileAbc := base_name fileName in
  let n := u64 (Z.of_nat (length fileAbc) - 4) in
  take (Z.to_nat (Z.min n (Z.of_nat (length fileAbc)))) fileAbc.

(** [find_last_of] looks for any of the characters. *)
Definition accepted_line (line : bytes) : bool := existsb (λ c, bool_decide (c ∈ str ".abc")) line.
Fixpoint read_files (lines : list bytes) : option (list bytes) :=
  match lines with
  | [] => Some []
  | l :: ls => if accepted_line l then cons l <$> read_files ls else None
  end.

(** ** Threads *)

Inductive worker := WLoop | WRun (fileName : bytes) | WDead | WDone.
Record batch := mkBatch {
  g_files : list bytes;
  g_threadCount : Z;
  g_runningCount : Z;
  exitSignals : nat;
  messages : list (bytes * bool);
  workers : list worker }.

Definition MAX_THREAD : Z := 1024.
(** A thread that could not be created does nothing and is counted all the same. *)
Definition StartThreads (files : list bytes) (count : Z) (created : nat → bool) : batch :=
  let n := Z.min count MAX_THREAD in
  mkBatch files n 0 0 [] ((λ i, if created i then WLoop else WDead) <$> seq 0 (Z.to_nat n)).

(** [Main], up to the start of the threads. *)
Definition Batch_Main (countStr : bytes) (lines : list bytes) (created : nat → bool) : option batch :=
  match StrToInt32 countStr, read_files lines with
  | Some count, Some files => Some (StartThreads files count created)
  | _, _ => None
  end.

(** What the virtual machine answers for a file: [None] when it cannot be made. *)
Inductive batch_event := TakeFile (i : nat) | FinishFile (i : nat) (answer : option bool).

Definition batch_exec (e : batch_event) (b : batch) : option batch :=
  match e with
  | TakeFile i =>
      match workers b !! i with
      | Some WLoop =>
          match g_files b with
          | [] =>
              let n := g_threadCount b - 1 in
              Some (mkBatch [] n (g_runningCount b) (if n =? 0 then S (exitSignals b) else exitSignals b) (messages b) (<[i := WDone]> (workers b)))
          | f :: fs => Some (mkBatch fs (g_threadCount b) (g_runningCount b + 1) (exitSignals b) (messages b) (<[i := WRun f]> (workers b)))
          end
      | _ => None
      end
  | FinishFile i answer =>
      match workers b !! i with
      | Some (WRun f) =>
          match answer with
          | Some ok => Some (mkBatch (g_files b) (g_threadCount b) (g_runningCount b) (exitSignals b) (messages b ++ [(f, ok)]) (<[i := WLoop]> (workers b)))
          | None => Some (mkBatch (g_files b) (g_threadCount b) (g_runningCount b) (exitSignals b) (messages b) (<[i := WDead]> (workers b)))
          end
      | _ => None
      end
  end.
Fixpoint batch_run (es : list batch_event) (b : batch) : option batch :=
  match es with
  | [] => Some b
  | e :: es' => batch_exec e b ≫= batch_run es'
  end.

Definition made (e : batch_event) : Prop := match e with FinishFile _ None => False | _ => True end.

(** ** The invariant *)

Definition running_file (w : worker) : list bytes := match w with WRun f => [f] | _ => [] end.
Definition active (w : worker) : bool := match w with WDone => false | _ => true end.
Definition count_active (l : list worker) : nat := length (filter (λ w, active w = true) l).

Record batch_inv (files : list bytes) (count : Z) (b : batch) : Prop := {
  inv_files : (messages b).*1 ++ (workers b ≫= running_file) ++ g_files b ≡ₚ files;
  inv_count : g_threadCount b = Z.of_nat (count_active (workers b));
  inv_exit : exitSignals b = if g_threadCount b =? 0 then 1%nat else 0%nat;
  inv_length : length (workers b) = Z.to_nat count;
  inv_done : WDone ∈ workers b → g_files b = [];
  inv_dead : WDead ∉ workers b;
  inv_running : g_runningCount b = Z.of_nat (length (messages b) + length (workers b ≫= running_file)) }.

(** Replacing one thread. *)
Lemma replace_running i w w' l : l !! i = Some w → running_file w ++ (<[i := w']> l ≫= running_file) ≡ₚ running_file w' ++ (l ≫= running_file).
Proof.
  intros Hi. apply list_elem_of_split_length in Hi as (l1 & l2 & -> & ->). rewrite insert_app_r_alt, Nat.sub_diag by lia. cbn [insert list_insert].
  rewrite !bind_app, !bind_cons. by solve_Permutation.
Qed.
Lemma replace_active i w w' l : l !! i = Some w →
  (count_active (<[i := w']> l) + (if active w then 1 else 0) = count_active l + (if active w' then 1 else 0))%nat.
Proof.
  intros Hi. apply list_elem_of_split_length in Hi as (l1 & l2 & -> & ->). rewrite insert_app_r_alt, Nat.sub_diag by lia. cbn [insert list_insert].
  unfold count_active. rewrite !filter_app, !filter_cons, !length_app. repeat case_decide; destruct (active w), (active w'); try done; cbn; lia.
Qed.
Lemma replace_elem (x : worker) (i : nat) (w' : worker) (l : list worker) : x ∈ <[i := w']> l → x = w' ∨ x ∈ l.
Proof. intros [j Hj]%list_elem_of_lookup. apply list_lookup_insert_Some in Hj as [(_ & <- & _)|(_ & Hj)]; [by left|right; by eapply list_elem_of_lookup_2]. Qed.
Lemma count_active_0 l : count_active l = 0%nat → Forall (λ w, w = WDone) l.
Proof.
  unfold count_active. induction l as [|w l IH]; [constructor|]. rewrite filter_cons. intros E. case_decide as Ha; cbn in E; [lia|].
  constructor; [by destruct w|by apply IH].
Qed.
Lemma active_pos i w l : l !! i = Some w → active w = true → (0 < count_active l)%nat.
Proof.
  intros Hi Ha. unfold count_active. assert (Hin : w ∈ filter (λ w, active w = true) l) by (apply list_elem_of_filter; split; [done|by eapply list_elem_of_lookup_2]).
  destruct (filter _ l); [by apply elem_of_nil in Hin|cbn; lia].
Qed.

Lemma batch_step_inv files count e b b' : batch_inv files count b → made e → batch_exec e b = Some b' → batch_inv files count b'.
Proof.
  intros Hb Hm He. destruct e as [i|i answer]; cbn [batch_exec] in He; destruct (workers b !! i) as [w|] eqn:Ew; try done; destruct w; try done.
  - pose proof (active_pos _ _ _ Ew eq_refl) as Hpos. pose proof (inv_count _ _ _ Hb) as Hc. pose proof (inv_exit _ _ _ Hb) as Hx.
    replace (g_threadCount b =? 0) with false in Hx by lia.
    destruct (g_files b) as [|f fs] eqn:Ef; injection He as <-; constructor; cbn [g_files g_threadCount g_runningCount exitSignals messages workers].
    + rewrite app_nil_r. pose proof (replace_running i WLoop WDone (workers b) Ew) as Hr. cbn in Hr. rewrite Hr.
      pose proof (inv_files _ _ _ Hb) as Hf. by rewrite Ef, app_nil_r in Hf.
    + pose proof (replace_active i WLoop WDone (workers b) Ew) as Hr. cbn in Hr. lia.
    + rewrite Hx. by destruct (g_threadCount b - 1 =? 0).
    + rewrite length_insert. apply Hb.
    + done.
    + intros [?|?]%replace_elem; [done|]. by apply (inv_dead _ _ _ Hb).
    + pose proof (replace_running i WLoop WDone (workers b) Ew) as Hr. cbn in Hr. rewrite Hr. apply Hb.
    + pose proof (replace_running i WLoop (WRun f) (workers b) Ew) as Hr. cbn in Hr. rewrite Hr.
      pose proof (inv_files _ _ _ Hb) as Hf. rewrite Ef in Hf. rewrite <- Hf. by solve_Permutation.
    + pose proof (replace_active i WLoop (WRun f) (workers b) Ew) as Hr. cbn in Hr. lia.
    + rewrite Hx. by replace (g_threadCount b =? 0) with false by lia.
    + rewrite length_insert. apply Hb.
    + intros [?|Hd]%replace_elem; [done|]. apply (inv_done _ _ _ Hb) in Hd. congruence.
    + intros [?|?]%replace_elem; [done|]. by apply (inv_dead _ _ _ Hb).
    + pose proof (replace_running i WLoop (WRun f) (workers b) Ew) as Hr. cbn in Hr. rewrite Hr. pose proof (inv_running _ _ _ Hb). cbn. lia.
  - destruct answer as [ok|]; [|done]. injection He as <-. constructor; cbn [g_files g_threadCount g_runningCount exitSignals messages workers]; try apply Hb.
    + pose proof (replace_running i _ WLoop (workers b) Ew) as Hr. cbn in Hr. rewrite <- (inv_files _ _ _ Hb), <- Hr, fmap_app. cbn. by solve_Permutation.
    + pose proof (replace_active i _ WLoop (workers b) Ew) as Hr. cbn in Hr. pose proof (inv_count _ _ _ Hb). lia.
    + rewrite length_insert. apply Hb.
    + intros [?|Hd]%replace_elem; [done|]. by apply (inv_done _ _ _ Hb).
    + intros [?|?]%replace_elem; [done|]. by apply (inv_dead _ _ _ Hb).
    + pose proof (Permutation_length (replace_running i _ WLoop (workers b) Ew)) as Hr. cbn in Hr. pose proof (inv_running _ _ _ Hb). rewrite length_app. cbn. lia.
Qed.

Lemma all_created created n k : (∀ i, created i = true) → (λ i, if created i then WLoop else WDead) <$> seq k n = replicate n WLoop.
Proof. intros Hc. revert k. induction n as [|n IH]; intros k; [done|]. cbn [seq replicate]. by rewrite fmap_cons, Hc, IH. Qed.

Lemma start_inv files count created : 1 ≤ count → (∀ i, created i = true) →
  batch_inv files (Z.min count MAX_THREAD) (StartThreads files count created).
Proof.
  intros Hc Ht. unfold StartThreads. rewrite (all_created created) by done. set (n := Z.min count MAX_THREAD). assert (Hn : 1 ≤ n) by (unfold n, MAX_THREAD; lia).
  assert (Er : ∀ k, replicate k WLoop ≫= running_file = []) by (intros k; induction k; done).
  assert (Ec : ∀ k, count_active (replicate k WLoop) = k) by (intros k; induction k as [|k IH]; [done|]; unfold count_active in *; cbn [replicate]; rewrite filter_cons, decide_True by done; cbn; by rewrite IH).
  constructor; cbn [g_files g_threadCount g_runningCount exitSignals messages workers]; rewrite ?Er, ?Ec; cbn; try done.
  - lia.
  - by replace (n =? 0) with false by lia.
  - by rewrite length_replicate.
  - intros Hd. apply elem_of_replicate_inv in Hd. done.
  - intros Hd. apply elem_of_replicate_inv in Hd. done.
Qed.
Lemma batch_run_inv files count es : ∀ b b', batch_inv files count b → Forall made es → batch_run es b = Some b' → batch_inv files count b'.
Proof.
  induction es as [|e es IH]; intros b b' Hb Hm Hr; [by injection Hr as <-|]. apply Forall_cons in Hm as [He Hm]. cbn [batch_run] in Hr.
  destruct (batch_exec e b) as [b1|] eqn:E; [|done]. eapply IH; [|exact Hm|exact Hr]. by eapply batch_step_inv.
Qed.

(** ** Completion *)

Definition weight (w : worker) : nat := match w with WLoop => 1 | WRun _ => 2 | _ => 0 end.
Definition total (l : list worker) : nat := sum_list_with weight l.
Definition work_left (b : batch) : nat := 3 * length (g_files b) + total (workers b).
Lemma replace_total i w w' l : l !! i = Some w → (total (<[i := w']> l) + weight w = total l + weight w')%nat.
Proof.
  intros Hi. apply list_elem_of_split_length in Hi as (l1 & l2 & -> & ->). rewrite insert_app_r_alt, Nat.sub_diag by lia. cbn [insert list_insert].
  unfold total. rewrite !sum_list_with_app. cbn. lia.
Qed.
(** As long as a thread is active it can take a step, and less is left to do. *)
Lemma batch_progress files count b : batch_inv files count b → g_threadCount b ≠ 0 →
  ∃ e b', made e ∧ batch_exec e b = Some b' ∧ (work_left b' < work_left b)%nat.
Proof.
  intros Hb Hn. assert (Ha : ∃ i w, workers b !! i = Some w ∧ active w = true).
  { assert (Hp : (0 < count_active (workers b))%nat) by (pose proof (inv_count _ _ _ Hb); lia). unfold count_active in Hp.
    destruct (filter _ (workers b)) as [|w l] eqn:Ef; [cbn in Hp; lia|].
    assert (Hw : w ∈ filter (λ w, active w = true) (workers b)) by (rewrite Ef; by constructor).
    apply list_elem_of_filter in Hw as [Hw [i Hi]%list_elem_of_lookup]. by exists i, w. }
  destruct Ha as (i & w & Hi & Ha). destruct w as [|f| |]; try done.
  - exists (TakeFile i). cbn [batch_exec]. rewrite Hi. destruct (g_files b) as [|f fs] eqn:Ef; eexists; (split; [done|split; [reflexivity|]]); unfold work_left; cbn [g_files workers].
    + pose proof (replace_total i _ WDone _ Hi) as Ht. cbn [weight] in Ht. rewrite Ef. cbn [length]. lia.
    + pose proof (replace_total i _ (WRun f) _ Hi) as Ht. cbn [weight] in Ht. rewrite Ef. cbn [length]. lia.
  - exists (FinishFile i (Some true)). cbn [batch_exec]. rewrite Hi. eexists. split; [done|split; [reflexivity|]]. unfold work_left. cbn [g_files workers].
    pose proof (replace_total i _ WLoop _ Hi) as Ht. cbn [weight] in Ht. lia.
  - exfalso. apply (inv_dead _ _ _ Hb). by eapply list_elem_of_lookup_2.
Qed.
Lemma batch_finishes files count n : ∀ b, (work_left b < n)%nat → batch_inv files count b →
  ∃ es b', Forall made es ∧ batch_run es b = Some b' ∧ g_threadCount b' = 0.
Proof.
  induction n as [|n IH]; intros b Hn Hb; [lia|]. destruct (decide (g_threadCount b = 0)); [by exists [], b|].
  destruct (batch_progress files count b Hb ltac:(done)) as (e & b1 & He & E & Hl).
  destruct (IH b1 ltac:(lia)) as (es & b' & Hes & Er & Hz); [by eapply batch_step_inv|]. exists (e :: es), b'.
  split_and!; [by constructor| |done]. cbn [batch_run]. by rewrite E.
Qed.

(** C29: with at least one thread, when every thread can be created and every machine
    can be made, the threads run every file exactly once in any interleaving, and the
    signal that ends the program is sent once: only when every thread has ended and
    every file has been run, and from every state that point can be reached. *)
Theorem batch_complete (files : list bytes) (count : Z) (created : nat → bool) (es : list batch_event) (b : batch) :
  1 ≤ count → (∀ i, created i = true) → Forall made es → batch_run es (StartThreads files count created) = Some b →
  (messages b).*1 ++ (workers b ≫= running_file) ++ g_files b ≡ₚ files ∧ (exitSignals b ≤ 1)%nat ∧
  (exitSignals b = 1%nat → (messages b).*1 ≡ₚ files ∧ Forall (λ w, w = WDone) (workers b) ∧ g_threadCount b = 0 ∧
     g_runningCount b = Z.of_nat (length files)) ∧
  ∃ es' b', Forall made es' ∧ batch_run es' b = Some b' ∧ exitSignals b' = 1%nat.
Proof.
  intros Hc Ht Hm Hr. pose proof (batch_run_inv _ _ _ _ _ (start_inv files count created Hc Ht) Hm Hr) as Hb. split_and!.
  - apply Hb.
  - rewrite (inv_exit _ _ _ Hb). destruct (_ =? _); lia.
  - intros Hx. rewrite (inv_exit _ _ _ Hb) in Hx. destruct (Z.eqb_spec (g_threadCount b) 0) as [Hz|]; [|done].
    assert (Hd : Forall (λ w, w = WDone) (workers b)) by (apply count_active_0; pose proof (inv_count _ _ _ Hb); lia).
    assert (Hw : workers b ≫= running_file = []).
    { clear - Hd. induction Hd as [|w l -> _ IH]; [done|]. by rewrite bind_cons, IH. }
    assert (Hg : g_files b = []).
    { apply (inv_done _ _ _ Hb). destruct (workers b) as [|w l] eqn:El; [pose proof (inv_length _ _ _ Hb) as Hl; rewrite El in Hl; cbn in Hl; unfold MAX_THREAD in Hl; lia|].
      apply Forall_cons in Hd as [-> _]. by constructor. }
    pose proof (inv_files _ _ _ Hb) as Hf. rewrite Hw, Hg, app_nil_r in Hf. cbn in Hf. split_and!; [done..|].
    rewrite (inv_running _ _ _ Hb), Hw. rewrite <- Hf, length_fmap. cbn. lia.
  - destruct (batch_finishes _ _ (S (work_left b)) b ltac:(lia) Hb) as (es' & b' & Hes & Er & Hz). exists es', b'. split_and!; [done..|].
    pose proof (batch_run_inv _ _ _ _ _ Hb Hes Er) as Hb'. rewrite (inv_exit _ _ _ Hb'), Hz. done.
Qed.

(** A thread that cannot make its machine ends without being counted, and so does one
    that could not be created: no signal is sent, and the program never ends. So it is
    without threads. *)
Lemma batch_hangs (f : bytes) (created : nat → bool) :
  (created 0%nat = true → ∃ b, batch_run [TakeFile 0; FinishFile 0 None] (StartThreads [f] 1 created) = Some b ∧
     exitSignals b = 0%nat ∧ ∀ e, batch_exec e b = None) ∧
  (created 0%nat = false → exitSignals (StartThreads [f] 1 created) = 0%nat ∧ ∀ e, batch_exec e (StartThreads [f] 1 created) = None) ∧
  exitSignals (StartThreads [f] 0 created) = 0%nat ∧ ∀ e, batch_exec e (StartThreads [f] 0 created) = None.
Proof.
  assert (E : StartThreads [f] 1 created = mkBatch [f] 1 0 0 [] [if created 0%nat then WLoop else WDead]) by reflexivity.
  rewrite E. split_and!; [|..|done|by intros [i|i a]].
  - intros ->. eexists. split; [reflexivity|]. split; [done|]. by intros [[|i]|[|i] a].
  - intros ->. split; [done|]. by intros [[|i]|[|i] a].
Qed.
(** Any of the characters of ".abc" is taken for the ending. *)
Lemma any_line_accepted : accepted_line (str "main.txt") = true ∧ accepted_line (str "c") = true.
Proof. done. Qed.

Lemma batch_complete_witness : ∃ es' b', batch_run es' (mkBatch [] 2 1 0 [] [WRun (str "a.abc"); WLoop]) = Some b' ∧ exitSignals b' = 1%nat.
Proof.
  destruct (batch_complete [str "a.abc"] 2 (λ _, true) [TakeFile 0] (mkBatch [] 2 1 0 [] [WRun (str "a.abc"); WLoop]) ltac:(lia) ltac:(done) ltac:(by repeat constructor) ltac:(reflexivity))
    as (_ & _ & _ & es' & b' & _ & E & Hx).
  exists es', b'. split; [exact E|exact Hx].
Defined.
